(* ===== verification/_CoqProject ===== *)
-Q . S2P
Prelude.v
MachineInt.v
Btree.v
BtreeHeap.v
Queue.v
Spinlock.v
Shlock.v
Pool.v
VmIndex.v
VmPage.v
Pmap.v
PmapTables.v
VmSpace.v
VmAlloc.v
VmExample.v
CString.v
Printf.v
Mutex.v
Directory.v
Sched.v
IpcPort.v
IpcSpec.v
IpcAlloc.v
Ipc.v
Task.v
TaskExample.v
Storage.v
Paths.v
Message.v
Service.v
Exchange.v
Ns.v
ServiceExample.v
Ufs.v
UfsExample.v
Tarfs.v
TarfsExample.v
Exec.v
Fs.v
FsTarfs.v
FsUfs.v
FsUfsExample.v
FsExample.v
FsIpc.v
FsIpcExample.v
IpcMemory.v
Syscall.v
SyscallExample.v
