(* ===== verification/Prelude.v ===== *)
(** Glatt microkernel: verification library (root file).

    Glatt is a microkernel for MIPS ([src/mk]) with user-level servers on top
    ([src/mu]).  This library models the kernel's own algorithms, file by file,
    and proves what they promise.  The C code is embedded as Rocq functions
    that can be run; nothing is assumed, and what the kernel does not define
    (devices, machine code) is an argument of the definitions that use it.

    * The program

    The machine-independent part has locks and pools at the bottom, address
    spaces and pages above them, threads and their scheduler beside, and ports
    on top: tasks talk to each other, and to the services in the kernel, by
    messages that can carry a page.  Programs enter by system calls; the name
    service and the file systems are tasks of the kernel that answer messages.
<<
      Syscall         FsIpc ---- Fs -- FsTarfs, FsUfs -- Tarfs, Ufs -- Storage
       |   |            |         \                          |
       |   |     Ns - Exchange    Exec                     Paths
       |   |      |     |
       |   |  Directory |
       |   |          Service
       |   |         /     \
       |  Task -----+       Message
       |   |                   |
       |  Ipc -----------------+---- IpcMemory --- VmAlloc
       |   |                          |               |
       +---|--------------------------+            VmSpace
           |                                       /      \
         IpcPort -- Mutex -- Sched            VmIndex    PmapTables
           |          |        |                 |          |
           |        Spinlock --+                 |         Pmap - VmPage
           |          |                          |                  |
         Pool --------+--------------------------+              BtreeHeap

      beside them: CString -- Printf, Queue, Shlock
>>
    * The files

    - [Prelude]: error numbers, the state-and-error monad, weakest
      preconditions ([wp]) with their rewriting rules, integers of a fixed
      width, lemmas on lists and sums.  [MachineInt]: [core/_macro.h],
      [core/endian.h], page arithmetic.
    - [Btree], [BtreeHeap]: [core/btree.h], as functions on trees and as the
      macros on nodes with parent pointers; the second implements the first.
      [Queue]: [core/queue.h] on linked elements, implementing lists.
    - [Spinlock], [Shlock], [Mutex]: [core/core_spinlock.c],
      [core/core_shlock.c], [core/core_sleepq.c], [core/core_mutex.c],
      [core/core_cv.c].  [Sched]: [core/core_scheduler.c].
    - [Pool]: [core/core_pool.c], [core/core_malloc.c].
    - [VmIndex]: [vm/vm_index.c].  [VmPage]: [vm/vm_page.c].  [Pmap],
      [PmapTables]: [cpu/mips/cpu/cpu_pmap.c], [pte.h] and the mapping of
      pages.  [VmSpace]: [vm/vm.c].  [VmAlloc]: [vm/vm_alloc.c],
      [vm/vm_fault.c].  [VmExample]: a machine of thirty-two pages.
    - [IpcPort], [IpcSpec], [IpcAlloc], [Ipc]: [ipc/ipc_port.c].
      [IpcMemory]: ports on the machine of [VmSpace].
    - [Task]: [core/core_task.c], [core/core_thread.c], [ipc/ipc_task.c],
      [cpu/mips/cpu/cpu_task.c], [cpu_thread.c].  [TaskExample].
    - [Message]: the port operations as a task of the kernel sees them, and
      [page_free_direct].  [Service]: [ipc/ipc_service.c].  [Exchange]: a
      request with its answer.  [Directory], [Ns]: [ns/service_directory.c],
      [ns/ns.c].  [ServiceExample].
    - [CString], [Printf]: [core/string.h], [core/core_printf.c].
    - [Storage], [Paths], [Ufs], [Tarfs]: [io/storage/storage_device.c],
      [io/storage/ufs], [io/storage/tarfs]; [UfsExample] and [TarfsExample] are
      media on which the theorems are applied.
    - [Exec]: [core/core_exec.c], [core/elf64.h].  [Fs]: [fs/fs.c],
      [fs/fs_ops.h]; [FsTarfs] and [FsUfs] are the two file systems behind it.
      [FsIpc]: [fs/fs_ipc.c], [fs_ipc_file.c], [fs_ipc_directory.c].
      [FsExample], [FsUfsExample], [FsIpcExample].
    - [Syscall]: [core/core_syscall.c], [cpu/mips/cpu/cpu_syscall.c].
      [SyscallExample].

    A C function is a definition of the same name.  Its state is a record of
    the globals and structures it touches; a structure is found by its address
    in a map or an array of the state.  [Stop] ends a run that panics
    ([Panic]), that C leaves undefined ([Undefined]) or that runs out of fuel
    ([OutOfFuel]); an error number is [Err].  A loop of the code in a function
    of its own maps to the lines of the loop.

    * Interfaces

    A component uses another by a class of operations with laws; the client's
    theorems are about any instance.

    - [PageSource] (pages for pools) and [ObjPool] (pools for structures):
      [Pool] discharges the second; [VmIndex], [IpcPort], [Directory] and
      [Task] use it.
    - [TaskMemory] (pages for messages): [IpcMemory] discharges it with the
      page tables, so that a theorem follows a page from one address space to
      another.  [DirectMemory] adds the direct map, [Ports] are the operations
      of a task of the kernel; [Message] proves [Ports] for [IpcPort] over any
      [DirectMemory].  Allocating or mapping a page may fail or stop there,
      and [p_no_page] and [p_stop] say with what.
    - [ThreadMemory] with [thread_law]: address spaces, kernel stacks, wired
      TLB entries and the scheduler's set-up, as making a thread uses them.
      Each may stop; freeing a thread has no law, its theorem follows what
      [vm_free] and [vm_exit] return.
    - [ServicePorts]: making services, with what [Service] proves of it.
    - [fs_ops] with [fs_spec] and [fs_law]: a file system.  [fs_spec] is what
      [FsTarfs] and [FsUfs] prove of theirs, whose reads do not fail on a
      medium that does not; [fs_law], which it implies, lets every operation
      fail or panic, and is what running a program needs.
    - [LoadMemory] with [file_law] and [memory_law], [TaskOps]: what the loader
      uses; reads, windows and their removal may fail.
    - [BlockDevice], [KernelMemory], [FileSystems]: what file systems use.
      Their theorems are for a medium that can be read ([image_ok]) and, where
      they open a file, for memory there is ([memory_ok];
      [tarfs_open_no_memory] is the other case).
    - [SchedulerOps]: what system calls need of the scheduler.

    * The theorems

    - Refinement of abstract operations: the tree and queue macros, spin locks
      (one bit), every operation on ports (a finite map of ports), the
      directory of services (a finite map of names), looking up a path (a walk
      in a map of directories, or the first entry of an archive).
    - Invariants of interleaved steps: exclusion of spin locks, shared locks
      and mutexes; no thread on two CPUs, and a pinned one stays on its own.
      Liveness: a thread that may run gets its turn.  A service keeps no page
      however long it runs.
    - Functional behaviour, every branch included: pools, address spaces, page
      tables, allocation and wiring of memory, pages, reading a file, loading
      a program.
    - Several tasks: a page goes from one to another and nowhere else; messages
      arrive in order and once; a reply right is good for one reply; a service
      that registers is found; a file that is opened by a message can be read.
    - Round trips: allocate and free, send and receive, enter and look up.
    - Errors of the code that the model shows: see the theorems named with what
      goes wrong, such as [mutex_lost_wakeup], [vm_alloc_range_never] or
      [thread_free_keeps_rights], and the examples [rights_inherited],
      [refused_send_leaks] and [sending_the_header_page].

    * Fuel and bounds

    A loop that is structural in the code's data recurses on it.  Other loops
    take fuel, and the theorems say how much is enough: the height of a tree,
    the length of a list or a string, the pages of a range, the number of ports
    in use plus one, the entries of the largest directory, the length of a
    file and of the buffer for names of links.  None concludes only from a run
    that came back, unless the code can fail to.  Integers keep their width;
    where a theorem excludes a wrap-around its hypothesis says so (counters
    below [2 ^ 64], a medium below [2 ^ 63] bytes, physical addresses below
    [2 ^ 36]).

    * Configuration

    The multiprocessor MIPS build with [INVARIANTS]: assertions are panics.
    Functions of one component run one at a time with their locks; where
    interleaving matters ([Spinlock], [Shlock], [Mutex], [Sched]) the atomic
    operations are the steps of any number of CPUs.

    * Not modelled

    Machine code and coprocessor registers (exceptions, the saving of contexts,
    the TLB itself) are not C; devices, buses, platforms, the console, network
    and frame-buffer drivers are hardware access; start-up order is fixed by
    linker sets that are not in the sources; the kernel debugger is console
    output.  Inter-processor messages ([core/core_mp_*.c]) and the user library
    ([src/mu]) are not modelled yet. *)

From stdpp Require Export base tactics numbers list gmap strings fin_maps sorting.
From Stdlib Require Export ZArith Lia.

(** * Error numbers ([mk/core/error.h]) *)

Definition ERROR_IT_S_ALRIGHT : Z := 0x0000.
Definition ERROR_NOT_FOUND : Z := 0x0001.
Definition ERROR_NOT_PERMITTED : Z := 0x0002.
Definition ERROR_EXHAUSTED : Z := 0x0003.
Definition ERROR_NOT_IMPLEMENTED : Z := 0x0004.
Definition ERROR_AGAIN : Z := 0x0005.
Definition ERROR_INVALID : Z := 0x0006.
Definition ERROR_UNEXPECTED : Z := 0x0007.
Definition ERROR_NOT_FREE : Z := 0x0008.
Definition ERROR_NO_RIGHT : Z := 0x0009.
Definition ERROR_ARG_COUNT : Z := 0x000a.
Definition ERROR_NOT_AVAILABLE : Z := 0x000b.
Definition ERROR_FULL : Z := 0x000c.
Definition ERROR_WRONG_KIND : Z := 0x000d.
Definition ERROR_COUNT : Z := 0x000e.

(** * Outcomes, results and the state monad of the C functions

    A C function is a state transformer.  It either comes back with a value
    and a new state, or it stops the machine: [panic], a failed [ASSERT] or
    [NOTREACHED], an operation C leaves undefined (reading memory that is not
    there), or a loop that did not finish with the fuel it was given. *)

Inductive stop : Type :=
| Panic (why : string)
| AssertFail (why : string)
| Undefined (why : string)
| OutOfFuel.

Inductive outcome (S A : Type) : Type :=
| Done (a : A) (s : S)
| Stop (w : stop).
Arguments Done {S A} a s.
Arguments Stop {S A} w.

Definition M (S A : Type) : Type := S → outcome S A.

(** An [int] error return with out parameters: [Ok v] is error 0 with the out
    parameters set to [v], [Err e] is a non-zero error number. *)
Inductive result (A : Type) : Type :=
| Ok (a : A)
| Err (e : Z).
Arguments Ok {A} a.
Arguments Err {A} e.

#[export] Instance stop_eq_dec : EqDecision stop.
Proof. solve_decision. Defined.
#[export] Instance result_eq_dec `{EqDecision A} : EqDecision (result A).
Proof. solve_decision. Defined.
#[export] Instance outcome_eq_dec (St A : Type) `{EqDecision St, EqDecision A} :
  EqDecision (outcome St A).
Proof. solve_decision. Defined.

Section monad.
Context {S : Type}.

Definition ret {A} (a : A) : M S A := λ s, Done a s.
Definition bind {A B} (m : M S A) (k : A → M S B) : M S B :=
  λ s, match m s with Done a s' => k a s' | Stop w => Stop w end.
Definition halt {A} (w : stop) : M S A := λ _, Stop w.
Definition get : M S S := λ s, Done s s.
Definition put (s : S) : M S unit := λ _, Done tt s.
Definition modify (f : S → S) : M S unit := λ s, Done tt (f s).
Definition gets {A} (f : S → A) : M S A := λ s, Done (f s) s.

(** [ASSERT(p, why)] *)
Definition assert_ (p : bool) (why : string) : M S unit :=
  if p then ret tt else halt (AssertFail why).

(** A pointer that must be valid for the access to be defined. *)
Definition deref {A} (why : string) (o : option A) : M S A :=
  match o with Some a => ret a | None => halt (Undefined why) end.

(** [if (error != 0) return (error);] *)
Definition bind_ok {A B} (m : M S (result A)) (k : A → M S (result B)) :
    M S (result B) :=
  bind m (λ r, match r with Ok a => k a | Err e => ret (Err e) end).

(** [if (error != 0) panic(why);] *)
Definition or_panic {A} (why : string) (m : M S (result A)) : M S A :=
  bind m (λ r, match r with Ok a => ret a | Err _ => halt (Panic why) end).
End monad.

(** Running the first two of three statements. *)
Lemma bind_seq {St B} (m k : M St unit) (rest : M St B) s s1 :
  bind m (λ _, k) s = Done tt s1 → bind m (λ _, bind k (λ _, rest)) s = rest s1.
Proof. unfold bind. destruct (m s) as [[] s'|w]; [|done]. by intros ->. Qed.

(** Running an operation of one component inside a larger state. *)
Definition zoom {S T A} (view : T → S) (set : S → T → T) (m : M S A) : M T A :=
  λ t, match m (view t) with
       | Done a s => Done a (set s t)
       | Stop w => Stop w
       end.

Declare Scope c_scope.
Delimit Scope c_scope with c.
Notation "x <- m ;; k" := (bind m (λ x, k))
  (at level 100, m at next level, right associativity) : c_scope.
Notation "m ;;; k" := (bind m (λ _ : unit, k))
  (at level 100, right associativity) : c_scope.
Notation "x <-? m ;; k" := (bind_ok m (λ x, k))
  (at level 100, m at next level, right associativity) : c_scope.
Notation "m ?;; k" := (bind_ok m (λ _ : unit, k))
  (at level 100, right associativity) : c_scope.

(** The state a run ends in. *)
Definition outcome_state {S A} (d : S) (o : outcome S A) : S :=
  match o with Done _ s => s | Stop _ => d end.

(** * Weakest preconditions

    [wp m Q E s]: run from [s], [m] either comes back in a state and with a
    value satisfying [Q], or stops for a reason satisfying [E]. *)

Definition wp {S A} (m : M S A) (Q : A → S → Prop) (E : stop → Prop) (s : S) : Prop :=
  match m s with Done a s' => Q a s' | Stop w => E w end.

(** The reason [E] of a total specification: no stop at all. *)
Definition never : stop → Prop := λ _, False.
(** The reason of a specification that allows [panic] but nothing else. *)
Definition may_panic : stop → Prop := λ w, match w with Panic _ => True | _ => False end.

Section wp_rules.
Context {S : Type}.
Implicit Types (E : stop → Prop).

Lemma wp_ret {A} (a : A) (Q : A → S → Prop) E s : wp (ret a) Q E s ↔ Q a s.
Proof. done. Qed.
Lemma wp_bind {A B} (m : M S A) (k : A → M S B) (Q : B → S → Prop) E s :
  wp (bind m k) Q E s ↔ wp m (λ a, wp (k a) Q E) E s.
Proof. unfold wp, bind. by destruct (m s). Qed.
Lemma wp_halt {A} w (Q : A → S → Prop) E s : wp (halt w) Q E s ↔ E w.
Proof. done. Qed.
Lemma wp_get (Q : S → S → Prop) E s : wp get Q E s ↔ Q s s.
Proof. done. Qed.
Lemma wp_put t (Q : unit → S → Prop) E s : wp (put t) Q E s ↔ Q tt t.
Proof. done. Qed.
Lemma wp_modify f (Q : unit → S → Prop) E s : wp (modify f) Q E s ↔ Q tt (f s).
Proof. done. Qed.
Lemma wp_gets {A} (f : S → A) (Q : A → S → Prop) E s : wp (gets f) Q E s ↔ Q (f s) s.
Proof. done. Qed.
Lemma wp_assert p why (Q : unit → S → Prop) E s :
  wp (assert_ p why) Q E s ↔ if p then Q tt s else E (AssertFail why).
Proof. by destruct p. Qed.
Lemma wp_deref {A} why (o : option A) (Q : A → S → Prop) E s :
  wp (deref why o) Q E s ↔
  match o with Some a => Q a s | None => E (Undefined why) end.
Proof. by destruct o. Qed.
Lemma wp_bind_ok {A B} (m : M S (result A)) (k : A → M S (result B))
    (Q : result B → S → Prop) E s :
  wp (bind_ok m k) Q E s ↔
  wp m (λ r, match r with Ok a => wp (k a) Q E | Err e => Q (Err e) end) E s.
Proof. unfold bind_ok. rewrite wp_bind. unfold wp. by destruct (m s) as [[]|]. Qed.
Lemma wp_or_panic {A} why (m : M S (result A)) (Q : A → S → Prop) E s :
  wp (or_panic why m) Q E s ↔
  wp m (λ r, match r with Ok a => Q a | Err _ => λ _, E (Panic why) end) E s.
Proof. unfold or_panic. rewrite wp_bind. unfold wp. by destruct (m s) as [[]|]. Qed.

(** What a run that came back satisfies. *)
Lemma wp_done {A} (m : M S A) (Q : A → S → Prop) E s a s' :
  wp m Q E s → m s = Done a s' → Q a s'.
Proof. unfold wp. intros Hw Hm. by rewrite Hm in Hw. Qed.

Lemma wp_mono {A} (m : M S A) (Q Q' : A → S → Prop) E E' s :
  wp m Q E s → (∀ a s', Q a s' → Q' a s') → (∀ w, E w → E' w) → wp m Q' E' s.
Proof. unfold wp. destruct (m s); auto. Qed.
End wp_rules.

Lemma wp_zoom {S T A} (view : T → S) (set : S → T → T) (m : M S A)
    (Q : A → T → Prop) E t :
  wp (zoom view set m) Q E t ↔ wp m (λ a s, Q a (set s t)) E (view t).
Proof. unfold wp, zoom. by destruct (m (view t)). Qed.

Create Rewrite HintDb wp.
#[export] Hint Rewrite @wp_ret @wp_bind @wp_halt @wp_get @wp_put @wp_modify @wp_gets
  @wp_assert @wp_deref @wp_bind_ok @wp_or_panic @wp_zoom : wp.

(** Symbolic execution of straight-line code. *)
Ltac wp_simpl := repeat (progress (autorewrite with wp in *; simpl in * )).

(** Split the conditionals and matches in the goal. *)
Ltac split_match :=
  match goal with
  | |- context [match ?x with _ => _ end] =>
      lazymatch x with
      | context [match _ with _ => _ end] => fail
      | _ => let H := fresh "Hm" in destruct x eqn:H
      end
  end.

(** * Machine integers *)

Definition wrap (w n : Z) : Z := n mod 2 ^ w.
Definition u8 : Z → Z := wrap 8.
Definition u16 : Z → Z := wrap 16.
Definition u32 : Z → Z := wrap 32.
Definition u64 : Z → Z := wrap 64.

Arguments wrap : simpl never.
Arguments u8 : simpl never.
Arguments u16 : simpl never.
Arguments u32 : simpl never.
Arguments u64 : simpl never.

(** The two's complement reading of a [w]-bit word. *)
Definition signed (w n : Z) : Z :=
  if decide (wrap w n < 2 ^ (w - 1))%Z then wrap w n else (wrap w n - 2 ^ w)%Z.

Definition in_range (w n : Z) : Prop := (0 ≤ n < 2 ^ w)%Z.

Lemma wrap_range w n : (0 ≤ w)%Z → in_range w (wrap w n).
Proof. intros. unfold in_range, wrap. apply Z.mod_pos_bound. lia. Qed.

Lemma wrap_small w n : in_range w n → wrap w n = n.
Proof. unfold in_range, wrap. intros. by apply Z.mod_small. Qed.

Lemma u64_small n : (0 ≤ n < 2 ^ 64)%Z → u64 n = n.
Proof. apply wrap_small. Qed.
Lemma u32_small n : (0 ≤ n < 2 ^ 32)%Z → u32 n = n.
Proof. apply wrap_small. Qed.

Create HintDb machine.
Lemma signed64_small x : (0 ≤ x < 2 ^ 63)%Z → signed 64 x = x.
Proof.
  intros Hx. unfold signed. rewrite (wrap_small 64) by (split; lia). by rewrite decide_True by lia.
Qed.

#[export] Hint Resolve wrap_range wrap_small u64_small u32_small : machine.

(** [C]'s comparison operators give booleans in [if]; [truthy] is [x != 0]. *)
Definition truthy (n : Z) : bool := negb (n =? 0)%Z.
Definition flag_set (flags bit : Z) : bool := truthy (Z.land flags bit).

Lemma flag_set_lor_l a b bit : flag_set a bit = true → flag_set (Z.lor a b) bit = true.
Proof.
  unfold flag_set, truthy. rewrite !negb_true_iff, !Z.eqb_neq.
  intros H Hc. apply H. rewrite Z.land_lor_distr_l in Hc.
  by apply Z.lor_eq_0_iff in Hc as [? _].
Qed.

(** [~mask] at width [w]. *)
Definition bnot (w n : Z) : Z := Z.lxor (wrap w n) (Z.ones w).

(** * Lists *)

Lemma NoDup_remove_mid {A} (l1 l2 : list A) x :
  NoDup (l1 ++ x :: l2) → NoDup (l1 ++ l2) ∧ x ∉ l1 ++ l2.
Proof.
  rewrite !NoDup_app, NoDup_cons. intros (?&Hd&?&?). split.
  - split_and!; [done| |done]. intros y Hy Hy'. apply (Hd y Hy). by right.
  - rewrite elem_of_app. intros [Hx|Hx]; [|done]. apply (Hd x Hx). by left.
Qed.

Lemma filter_none {A} (P : A → Prop) `{∀ x, Decision (P x)} (l : list A) :
  (∀ x, x ∈ l → ¬ P x) → filter P l = [].
Proof.
  induction l as [|x l IH]; intros Hl; [done|].
  rewrite filter_cons_False by (apply Hl; by left). apply IH. intros. apply Hl. by right.
Qed.

Lemma filter_all {A} (P : A → Prop) `{∀ x, Decision (P x)} (l : list A) :
  (∀ x, x ∈ l → P x) → filter P l = l.
Proof.
  induction l as [|x l IH]; intros Hl; [done|].
  rewrite filter_cons_True by (apply Hl; by left). f_equal. apply IH. intros. apply Hl. by right.
Qed.

(** Sums over the elements of a list. *)
Definition sumZ {A} (f : A → Z) (l : list A) : Z := foldr (λ x n, f x + n)%Z 0%Z l.

Section sums.
Context {A : Type}.
Implicit Types (f g : A → Z) (l : list A).

Lemma sumZ_ext f g l : (∀ x, x ∈ l → f x = g x) → sumZ f l = sumZ g l.
Proof.
  induction l as [|x l IH]; intros Hfg; [done|]. unfold sumZ in *. simpl.
  rewrite Hfg, IH; [done| |by left]. intros. apply Hfg. by right.
Qed.

Lemma sumZ_perm f l l' : l ≡ₚ l' → sumZ f l = sumZ f l'.
Proof. unfold sumZ. induction 1; simpl; lia. Qed.

Lemma sumZ_update f g l a :
  NoDup l → a ∈ l → (∀ x, x ∈ l → x ≠ a → f x = g x) →
  sumZ f l = (sumZ g l - g a + f a)%Z.
Proof.
  induction l as [|x l IH]; [set_solver|]. intros [Hx Hnd]%NoDup_cons Ha Hfg.
  unfold sumZ in *. simpl. apply elem_of_cons in Ha as [->|Ha].
  - pose proof (sumZ_ext f g l) as He. unfold sumZ in He. rewrite He; [lia|].
    intros y Hy. apply Hfg; [by right|]. by intros ->.
  - rewrite IH; [|done..|].
    + rewrite (Hfg x); [lia|by left|]. by intros ->.
    + intros y Hy. apply Hfg. by right.
Qed.

Lemma sumZ_bounds f l b :
  (∀ x, x ∈ l → 0 ≤ f x ≤ b)%Z → (0 ≤ sumZ f l ≤ b * Z.of_nat (length l))%Z.
Proof.
  induction l as [|x l IH]; intros Hf; [simpl; lia|]. unfold sumZ in *. simpl.
  assert (0 ≤ f x ≤ b)%Z by (apply Hf; by left).
  assert (0 ≤ foldr (λ x n, f x + n) 0 l ≤ b * Z.of_nat (length l))%Z.
  { apply IH. intros. apply Hf. by right. }
  lia.
Qed.

Lemma sumZ_elem f l a : (∀ x, x ∈ l → 0 ≤ f x)%Z → a ∈ l → (f a ≤ sumZ f l)%Z.
Proof.
  induction l as [|x l IH]; intros Hf; [set_solver|]. unfold sumZ in *. simpl.
  assert (0 ≤ f x)%Z by (apply Hf; by left).
  assert (0 ≤ foldr (λ x n, f x + n) 0 l)%Z.
  { clear IH. induction l as [|y l IH]; simpl; [done|].
    assert (0 ≤ f y)%Z by (apply Hf; set_solver).
    assert (0 ≤ foldr (λ x n, f x + n) 0 l)%Z by (apply IH; set_solver). lia. }
  intros [->|Ha]%elem_of_cons; [lia|].
  assert (f a ≤ foldr (λ x n, f x + n) 0 l)%Z by (apply IH; set_solver). lia.
Qed.
End sums.

(** Decide the head test of a boolean comparison on [Z]. *)
Ltac zcmp :=
  repeat match goal with
  | H : (_ =? _)%Z = true |- _ => apply Z.eqb_eq in H
  | H : (_ =? _)%Z = false |- _ => apply Z.eqb_neq in H
  | H : (_ <? _)%Z = true |- _ => apply Z.ltb_lt in H
  | H : (_ <? _)%Z = false |- _ => apply Z.ltb_ge in H
  | H : (_ <=? _)%Z = true |- _ => apply Z.leb_le in H
  | H : (_ <=? _)%Z = false |- _ => apply Z.leb_gt in H
  | H : negb _ = true |- _ => apply negb_true_iff in H
  | H : negb _ = false |- _ => apply negb_false_iff in H
  | H : _ && _ = true |- _ => apply andb_true_iff in H as [? ?]
  | H : _ || _ = false |- _ => apply orb_false_iff in H as [? ?]
  end.
