(* ===== verification/MachineInt.v ===== *)
(** Integer helpers the whole system shares: the rounding and bit macros of
    [mk/core/_macro.h], the byte swaps of [mk/core/endian.h], and the page
    arithmetic of [mk/vm/vm_page.h] with the MIPS page size of
    [mk/cpu/mips/cpu/page.h].  The theorems show that the byte swaps reverse
    the bytes of a word and undo themselves, that [LOG2] is the base-2
    logarithm on powers of two, and that the page macros are floor, ceiling
    and remainder by the page size. *)

From S2P Require Import Prelude.

Local Open Scope Z_scope.

(** * [mk/core/_macro.h] *)

Definition MIN (a b : Z) : Z := if a <? b then a else b.
Definition MAX (a b : Z) : Z := if b <? a then a else b.
Definition ROUNDDOWN (x y : Z) : Z := (x / y) * y.
Definition ROUNDUP (x y : Z) : Z := ((x + (y - 1)) / y) * y.

(** [PX_], [POPCNT] and [LOG2] on an [unsigned] argument (32 bits). *)
Definition PX_ (x : Z) : Z :=
  u32 (u32 (u32 (x - Z.land (Z.shiftr x 1) 0x77777777)
             - Z.land (Z.shiftr x 2) 0x33333333)
        - Z.land (Z.shiftr x 3) 0x11111111).
Definition POPCNT (x : Z) : Z :=
  Z.land (u32 (PX_ x + Z.shiftr (PX_ x) 4)) 0x0F0F0F0F mod 255.
Definition LOG2 (x : Z) : Z := POPCNT (u32 (x - 1)).
Definition ISPOW2 (x : Z) : bool := Z.land x (x - 1) =? 0.

Lemma ROUNDUP_mod x y : 0 < y → ROUNDUP x y mod y = 0.
Proof. intros. unfold ROUNDUP. apply Z.mod_mul. lia. Qed.

Lemma ROUNDUP_bounds x y : 0 < y → x ≤ ROUNDUP x y < x + y.
Proof.
  intros. unfold ROUNDUP.
  pose proof (Z.div_mod (x + (y - 1)) y ltac:(lia)).
  pose proof (Z.mod_pos_bound (x + (y - 1)) y ltac:(lia)). nia.
Qed.

Lemma ROUNDUP_fix x y : 0 < y → x mod y = 0 → ROUNDUP x y = x.
Proof.
  intros Hy Hm. unfold ROUNDUP.
  apply Z.div_exact in Hm; [|lia]. set (k := x / y) in *. clearbody k. subst x.
  rewrite (Z.mul_comm y k), Z.div_add_l, Z.div_small by lia. lia.
Qed.

(** [LOG2] is exact on every power of two that fits in an [unsigned]. *)
Lemma LOG2_pow2_list :
  forallb (λ k, LOG2 (2 ^ Z.of_nat k) =? Z.of_nat k) (seq 0 32) = true.
Proof. vm_compute. reflexivity. Qed.

Lemma LOG2_pow2 k : 0 ≤ k < 32 → LOG2 (2 ^ k) = k.
Proof.
  intros Hk. pose proof LOG2_pow2_list as H. rewrite forallb_forall in H.
  specialize (H (Z.to_nat k)). rewrite Z2Nat.id in H by lia.
  apply Z.eqb_eq, H, in_seq. lia.
Qed.

(** * [mk/core/endian.h] *)

Definition bswap16 (x : Z) : Z :=
  Z.lor (Z.shiftr (Z.land x 0xff00) 0x08)
        (Z.shiftl (Z.land x 0x00ff) 0x08).

Definition bswap32 (x : Z) : Z :=
  Z.lor (Z.lor (Z.lor
    (Z.shiftr (Z.land x 0xff000000) 0x18)
    (Z.shiftr (Z.land x 0x00ff0000) 0x08))
    (Z.shiftl (Z.land x 0x0000ff00) 0x08))
    (Z.shiftl (Z.land x 0x000000ff) 0x18).

Definition bswap64 (x : Z) : Z :=
  Z.lor (Z.lor (Z.lor (Z.lor (Z.lor (Z.lor (Z.lor
    (Z.shiftr (Z.land x 0xff00000000000000) 0x38)
    (Z.shiftr (Z.land x 0x00ff000000000000) 0x28))
    (Z.shiftr (Z.land x 0x0000ff0000000000) 0x18))
    (Z.shiftr (Z.land x 0x000000ff00000000) 0x08))
    (Z.shiftl (Z.land x 0x00000000ff000000) 0x08))
    (Z.shiftl (Z.land x 0x0000000000ff0000) 0x18))
    (Z.shiftl (Z.land x 0x000000000000ff00) 0x28))
    (Z.shiftl (Z.land x 0x00000000000000ff) 0x38).

(** Big-endian bytes of a word, and the word of big-endian bytes: what a
    memory access on the big-endian MIPS sees. *)
Definition be_byte (x : Z) (i : Z) : Z := Z.land (Z.shiftr x (8 * i)) 0xff.
Fixpoint be_split (n : nat) (x : Z) : list Z :=
  match n with O => [] | S m => be_byte x (Z.of_nat m) :: be_split m x end.
Definition be_combine (l : list Z) : Z := fold_left (λ acc b, acc * 256 + b) l 0.

Lemma length_be_split m x : length (be_split m x) = m.
Proof. induction m; simpl; congruence. Qed.

Lemma lookup_be_split m x i :
  (i < m)%nat → be_split m x !! i = Some (be_byte x (Z.of_nat m - 1 - Z.of_nat i)).
Proof.
  revert i. induction m as [|m IH]; intros [|i] Hi; [lia..| |]; simpl.
  - do 2 f_equal. lia.
  - rewrite IH by lia. do 2 f_equal. lia.
Qed.

(** The bit [i] of a byte swap of [8 * n] bits is the bit of the mirrored
    byte. *)
Definition mirror (n i : Z) : Z := 8 * (n - 1 - i / 8) + i mod 8.

(** A word mask that selects the byte at bit [8 * k]. *)
Lemma testbit_byte_mask k i :
  0 ≤ k → Z.testbit (Z.shiftl 0xff (8 * k)) i = (8 * k <=? i) && (i <? 8 * k + 8).
Proof.
  intros. change 0xff with (Z.ones 8).
  destruct (Z.leb_spec 0 i).
  - rewrite Z.shiftl_spec by lia. destruct (Z.leb_spec (8 * k) i); simpl.
    + destruct (Z.ltb_spec i (8 * k + 8)).
      * by rewrite Z.ones_spec_low by lia.
      * by rewrite Z.ones_spec_high by lia.
    + by rewrite Z.testbit_neg_r by lia.
  - rewrite Z.testbit_neg_r by lia. symmetry. apply andb_false_iff.
    left. apply Z.leb_gt. lia.
Qed.

(** Byte [k] of [x] moved to byte [j], bitwise. *)
Lemma move_right_spec x k j i :
  0 ≤ j ≤ k → 0 ≤ i →
  Z.testbit (Z.shiftr (Z.land x (Z.shiftl 0xff (8 * k))) (8 * (k - j))) i =
  Z.testbit x (i + 8 * (k - j)) && ((8 * j <=? i) && (i <? 8 * j + 8)).
Proof.
  intros. rewrite Z.shiftr_spec, Z.land_spec, testbit_byte_mask by lia. f_equal.
  f_equal; apply eq_bool_prop_intro; rewrite !Is_true_true, ?Z.leb_le, ?Z.ltb_lt; lia.
Qed.

Lemma move_left_spec x k j i :
  0 ≤ k ≤ j → 0 ≤ i →
  Z.testbit (Z.shiftl (Z.land x (Z.shiftl 0xff (8 * k))) (8 * (j - k))) i =
  Z.testbit x (i - 8 * (j - k)) && ((8 * j <=? i) && (i <? 8 * j + 8)).
Proof.
  intros. rewrite Z.shiftl_spec, Z.land_spec, testbit_byte_mask by lia. f_equal.
  f_equal; apply eq_bool_prop_intro; rewrite !Is_true_true, ?Z.leb_le, ?Z.ltb_lt; lia.
Qed.

(** Rewrite one byte move of a byte swap to its bitwise description. *)
Ltac byte_move x k j m :=
  let c := eval vm_compute in (Z.shiftl 0xff (8 * k)) in
  match goal with
  | |- context [Z.testbit (Z.shiftr (Z.land x c) m) ?i] =>
      change (Z.testbit (Z.shiftr (Z.land x c) m) i) with
        (Z.testbit (Z.shiftr (Z.land x (Z.shiftl 0xff (8 * k))) (8 * (k - j))) i);
      rewrite (move_right_spec x k j i) by lia
  | |- context [Z.testbit (Z.shiftl (Z.land x c) m) ?i] =>
      change (Z.testbit (Z.shiftl (Z.land x c) m) i) with
        (Z.testbit (Z.shiftl (Z.land x (Z.shiftl 0xff (8 * k))) (8 * (j - k))) i);
      rewrite (move_left_spec x k j i) by lia
  end.

(** Decide every [a <=? b] and [a <? b] in the goal that [lia] can decide. *)
Ltac decide_leb :=
  repeat match goal with
  | |- context [?a <=? ?b] =>
      first [ replace (a <=? b) with true by (symmetry; apply Z.leb_le; lia)
            | replace (a <=? b) with false by (symmetry; apply Z.leb_gt; lia) ]
  | |- context [?a <? ?b] =>
      first [ replace (a <? b) with true by (symmetry; apply Z.ltb_lt; lia)
            | replace (a <? b) with false by (symmetry; apply Z.ltb_ge; lia) ]
  end; rewrite ?andb_true_r, ?andb_false_r, ?orb_false_r, ?orb_false_l; simpl.

Lemma mirror_byte n q r : 0 ≤ r < 8 → mirror n (8 * q + r) = 8 * (n - 1 - q) + r.
Proof.
  intros. unfold mirror.
  replace (8 * q + r) with (r + q * 8) by lia.
  rewrite Z.div_add, Z.mod_add, Z.div_small, Z.mod_small by lia. lia.
Qed.

Lemma byte_index n i :
  0 ≤ i < 8 * n → ∃ q r, i = 8 * q + r ∧ 0 ≤ q < n ∧ 0 ≤ r < 8.
Proof.
  intros. exists (i / 8), (i mod 8).
  pose proof (Z.div_mod i 8 ltac:(lia)). pose proof (Z.mod_pos_bound i 8 ltac:(lia)). lia.
Qed.

(** A bitwise byte reversal at [n] bytes. *)
Definition reverses_bytes (n : Z) (f : Z → Z) : Prop :=
  ∀ x i, 0 ≤ i → Z.testbit (f x) i = if i <? 8 * n then Z.testbit x (mirror n i) else false.

Ltac solve_reverse n :=
  let x := fresh "x" in let i := fresh "i" in let Hi := fresh "Hi" in
  intros x i Hi; destruct (Z.ltb_spec i (8 * n)) as [Hlt|Hge];
  [ destruct (byte_index n i ltac:(lia)) as (q & r & -> & Hq & Hr);
    rewrite mirror_byte by lia | ].

Lemma bswap16_reverses : reverses_bytes 2 bswap16.
Proof.
  unfold bswap16. solve_reverse 2; rewrite !Z.lor_spec;
    byte_move x 1 0 8; byte_move x 0 1 8; [|by decide_leb].
  assert (q = 0 ∨ q = 1) as [->| ->] by lia; decide_leb; f_equal; lia.
Qed.

Lemma bswap32_reverses : reverses_bytes 4 bswap32.
Proof.
  unfold bswap32. solve_reverse 4; rewrite !Z.lor_spec;
    byte_move x 3 0 24; byte_move x 2 1 8; byte_move x 1 2 8; byte_move x 0 3 24;
    [|by decide_leb].
  assert (q = 0 ∨ q = 1 ∨ q = 2 ∨ q = 3) as [->|[->|[->| ->]]] by lia;
    decide_leb; f_equal; lia.
Qed.

Lemma bswap64_reverses : reverses_bytes 8 bswap64.
Proof.
  unfold bswap64. solve_reverse 8; rewrite !Z.lor_spec;
    byte_move x 7 0 56; byte_move x 6 1 40; byte_move x 5 2 24; byte_move x 4 3 8;
    byte_move x 3 4 8; byte_move x 2 5 24; byte_move x 1 6 40; byte_move x 0 7 56;
    [|by decide_leb].
  assert (q = 0 ∨ q = 1 ∨ q = 2 ∨ q = 3 ∨ q = 4 ∨ q = 5 ∨ q = 6 ∨ q = 7)
    as [->|[->|[->|[->|[->|[->|[->| ->]]]]]]] by lia; decide_leb; f_equal; lia.
Qed.

Section reversal.
Context (n : Z) (f : Z → Z) (Hn : 0 < n) (Hf : reverses_bytes n f).

Lemma reverses_testbit_nonneg x i : i < 0 → Z.testbit (f x) i = false.
Proof. intros. by apply Z.testbit_neg_r. Qed.

Lemma mirror_range i : 0 ≤ i < 8 * n → 0 ≤ mirror n i < 8 * n.
Proof.
  intros (q & r & -> & ? & ?)%byte_index. rewrite mirror_byte by lia. lia.
Qed.

Lemma mirror_mirror i : 0 ≤ i < 8 * n → mirror n (mirror n i) = i.
Proof.
  intros (q & r & -> & ? & ?)%byte_index. rewrite mirror_byte by lia.
  rewrite mirror_byte by lia. lia.
Qed.

(** Swapping twice keeps exactly the low [8 * n] bits. *)
Lemma reverses_twice x : f (f x) = wrap (8 * n) x.
Proof.
  apply Z.bits_inj'. intros i Hi. unfold wrap.
  rewrite Z.testbit_mod_pow2 by lia. rewrite Hf by lia.
  destruct (Z.ltb_spec i (8 * n)); simpl; [|done].
  pose proof (mirror_range i ltac:(lia)).
  rewrite Hf by lia. destruct (Z.ltb_spec (mirror n i) (8 * n)); [|lia].
  f_equal. apply mirror_mirror. lia.
Qed.

Lemma reverses_be_byte x k :
  0 ≤ k < n → be_byte (f x) k = be_byte x (n - 1 - k).
Proof.
  intros. apply Z.bits_inj'. intros i Hi. unfold be_byte.
  change 0xff with (Z.ones 8). rewrite !Z.land_spec.
  destruct (Z.ltb_spec i 8).
  - rewrite Z.ones_spec_low by lia. rewrite !andb_true_r, !Z.shiftr_spec by lia.
    rewrite Hf by lia. destruct (Z.ltb_spec (i + 8 * k) (8 * n)); [|lia].
    f_equal. rewrite (Z.add_comm i (8 * k)), mirror_byte by lia. lia.
  - rewrite Z.ones_spec_high by lia. by rewrite !andb_false_r.
Qed.

(** The big-endian bytes of the swapped word are the bytes reversed. *)
Lemma reverses_be_split x m :
  n = Z.of_nat m → be_split m (f x) = reverse (be_split m x).
Proof.
  intros Hm. apply (list_eq_same_length _ _ m); 
    [by rewrite ?length_reverse, length_be_split..|].
  intros i b1 b2 Hi. rewrite reverse_lookup by (rewrite length_be_split; lia).
  rewrite length_be_split, !lookup_be_split by lia. intros [= <-] [= <-].
  rewrite reverses_be_byte by lia. f_equal. lia.
Qed.
End reversal.

(** * Fields of a word *)

(** Putting a field [b] of [n] bits under a shifted one is addition. *)
Lemma lor_shiftl_add a b n :
  0 ≤ n → 0 ≤ b < 2 ^ n → Z.lor (Z.shiftl a n) b = Z.shiftl a n + b.
Proof.
  intros Hn Hb. symmetry. apply Z.add_nocarry_lor. apply Z.bits_inj_0. intros i.
  rewrite Z.land_spec. destruct (Z.ltb_spec i 0); [by rewrite !Z.testbit_neg_r|].
  destruct (Z.ltb_spec i n).
  - by rewrite Z.shiftl_spec_low.
  - rewrite <-(Z.mod_small b (2 ^ n)) by done. rewrite Z.mod_pow2_bits_high by lia.
    apply andb_false_r.
Qed.

(** * Pages ([mk/vm/vm_page.h], [mk/cpu/mips/cpu/page.h]) *)

Definition PAGE_SHIFT : Z := 13.
Definition PAGE_SIZE : Z := Z.shiftl 1 PAGE_SHIFT.
Definition PAGE_MASK : Z := PAGE_SIZE - 1.
Definition ADDR_TO_PAGE (a : Z) : Z := Z.shiftr a PAGE_SHIFT.
Definition PAGE_TO_ADDR (a : Z) : Z := u64 (Z.shiftl a PAGE_SHIFT).
Definition PAGE_FLOOR (a : Z) : Z := Z.land a (bnot 64 PAGE_MASK).
Definition PAGE_ROUNDUP (a : Z) : Z := PAGE_FLOOR (u64 (a + (PAGE_SIZE - 1))).
Definition PAGE_OFFSET (a : Z) : Z := Z.land a PAGE_MASK.
Definition PAGE_ALIGNED (a : Z) : bool := PAGE_OFFSET a =? 0.
Definition PAGE_COUNT (a : Z) : Z := ADDR_TO_PAGE (u64 (a + (PAGE_SIZE - 1))).

Lemma PAGE_SIZE_eq : PAGE_SIZE = 8192.
Proof. reflexivity. Qed.

Lemma ADDR_TO_PAGE_div a : ADDR_TO_PAGE a = a / 8192.
Proof. unfold ADDR_TO_PAGE. by rewrite Z.shiftr_div_pow2 by done. Qed.

Lemma PAGE_TO_ADDR_mul a : 0 ≤ a * 8192 < 2 ^ 64 → PAGE_TO_ADDR a = a * 8192.
Proof.
  intros. unfold PAGE_TO_ADDR. rewrite Z.shiftl_mul_pow2 by done.
  change (2 ^ PAGE_SHIFT) with 8192. by apply u64_small.
Qed.

Lemma PAGE_OFFSET_mod a : PAGE_OFFSET a = a mod 8192.
Proof. unfold PAGE_OFFSET. change PAGE_MASK with (Z.ones 13). by rewrite Z.land_ones. Qed.

Lemma PAGE_ALIGNED_mod a : PAGE_ALIGNED a = true ↔ a mod 8192 = 0.
Proof. unfold PAGE_ALIGNED. by rewrite PAGE_OFFSET_mod, Z.eqb_eq. Qed.

Lemma PAGE_FLOOR_sub a : 0 ≤ a < 2 ^ 64 → PAGE_FLOOR a = a - a mod 8192.
Proof.
  intros. unfold PAGE_FLOOR.
  replace (bnot 64 PAGE_MASK) with (Z.shiftl (Z.ones 51) 13) by reflexivity.
  replace (a - a mod 8192) with (Z.shiftl (Z.shiftr a 13) 13).
  - apply Z.bits_inj'. intros i Hi. rewrite Z.land_spec.
    destruct (Z.ltb_spec i 13).
    + rewrite !Z.shiftl_spec_low by lia. by rewrite andb_false_r.
    + rewrite !Z.shiftl_spec by lia. rewrite Z.shiftr_spec by lia.
      replace (i - 13 + 13) with i by lia. destruct (Z.ltb_spec i 64).
      * rewrite Z.ones_spec_low by lia. by rewrite andb_true_r.
      * rewrite <-(Z.mod_small a (2 ^ 64)) by lia.
        by rewrite Z.mod_pow2_bits_high by lia.
  - rewrite Z.shiftl_mul_pow2, Z.shiftr_div_pow2 by lia.
    change (2 ^ 13) with 8192. pose proof (Z.div_mod a 8192 ltac:(lia)). lia.
Qed.

Lemma PAGE_FLOOR_aligned a : 0 ≤ a < 2 ^ 64 → PAGE_FLOOR a mod 8192 = 0.
Proof.
  intros. rewrite PAGE_FLOOR_sub by lia.
  by rewrite Zminus_mod, Z.mod_mod, Z.sub_diag by lia.
Qed.

Lemma PAGE_COUNT_div a : 0 ≤ a → a + 8191 < 2 ^ 64 → PAGE_COUNT a = (a + 8191) / 8192.
Proof.
  intros. unfold PAGE_COUNT. rewrite ADDR_TO_PAGE_div, u64_small; [done|].
  change PAGE_SIZE with 8192. lia.
Qed.

(** [PAGE_ROUNDUP] is the least page boundary at or above its argument, as
    long as adding a page does not wrap. *)
Lemma PAGE_ROUNDUP_spec a :
  0 ≤ a → a + 8191 < 2 ^ 64 →
  PAGE_ROUNDUP a mod 8192 = 0 ∧ a ≤ PAGE_ROUNDUP a < a + 8192.
Proof.
  intros. unfold PAGE_ROUNDUP. change (PAGE_SIZE - 1) with 8191.
  rewrite u64_small by lia. split; [apply PAGE_FLOOR_aligned; lia|].
  rewrite PAGE_FLOOR_sub by lia.
  pose proof (Z.mod_pos_bound (a + 8191) 8192 ltac:(lia)). lia.
Qed.

#[export] Hint Resolve PAGE_FLOOR_aligned : machine.
