(* ===== verification/Btree.v ===== *)
(** The search trees of [mk/core/btree.h] as the rest of the system sees them.

    The macros work on nodes linked by [left], [right] and [parent] pointers
    (file [BtreeHeap]); here a tree is a value, and each operation is the
    function the macro computes.  [BtreeHeap] proves that the macros implement
    these functions, so the components that keep a [BTREE_ROOT] (ports, port
    rights, address-space indices, page tree, service directory, debugger
    commands) use this file.

    A tree holds elements of any type; the macros' textual arguments [cmp] and
    [match] are the boolean functions [cmp] and [mat] of the node [iter]. *)

From S2P Require Import Prelude.

Inductive tree (A : Type) : Type :=
| Leaf
| Node (l : tree A) (x : A) (r : tree A).
Arguments Leaf {A}.
Arguments Node {A} l x r.

Section tree_ops.
Context {A : Type}.
Implicit Types (t l r : tree A).

(** Symmetric-order listing: the order of [BTREE_FOREACH]. *)
Fixpoint elements t : list A :=
  match t with Leaf => [] | Node l x r => elements l ++ x :: elements r end.

Fixpoint height t : nat :=
  match t with Leaf => 0 | Node l _ r => S (Nat.max (height l) (height r)) end.

Definition root t : option A :=
  match t with Leaf => None | Node _ x _ => Some x end.

Fixpoint bt_find (cmp mat : A → bool) t : option A :=
  match t with
  | Leaf => None
  | Node l x r =>
      if cmp x then bt_find cmp mat l
      else if mat x then Some x
      else bt_find cmp mat r
  end.

Fixpoint bt_insert (cmp : A → bool) (v : A) t : tree A :=
  match t with
  | Leaf => Node Leaf v Leaf
  | Node l x r =>
      if cmp x then Node (bt_insert cmp v l) x r
      else Node l x (bt_insert cmp v r)
  end.

Fixpoint bt_min t : option A :=
  match t with
  | Leaf => None
  | Node Leaf x _ => Some x
  | Node l _ _ => bt_min l
  end.

Fixpoint bt_max t : option A :=
  match t with
  | Leaf => None
  | Node _ x Leaf => Some x
  | Node _ _ r => bt_max r
  end.

(** Hang [l] under the leftmost node of [r]. *)
Fixpoint graft_left l r : tree A :=
  match r with
  | Leaf => l
  | Node rl x rr => Node (graft_left l rl) x rr
  end.

(** What [BTREE_REMOVE_SUB] leaves in the place of a node. *)
Definition join l r : tree A :=
  match l, r with
  | Leaf, _ => r
  | _, Leaf => l
  | _, _ => graft_left l r
  end.

Context `{EqDecision A}.

Fixpoint bt_remove (v : A) t : tree A :=
  match t with
  | Leaf => Leaf
  | Node l x r =>
      if decide (x = v) then join l r
      else Node (bt_remove v l) x (bt_remove v r)
  end.

(** The element after / before [v] in symmetric order. *)
Fixpoint after (v : A) (xs : list A) : option A :=
  match xs with
  | [] => None
  | x :: xs => if decide (x = v) then head xs else after v xs
  end.
Definition bt_next (v : A) t : option A := after v (elements t).
Definition bt_prev (v : A) t : option A := after v (reverse (elements t)).
End tree_ops.

(** * Laws of the operations *)

Section tree_laws.
Context {A : Type}.
Implicit Types (t l r : tree A).

Lemma bt_min_head t : bt_min t = head (elements t).
Proof.
  induction t as [|l IHl x r _]; [done|]. simpl.
  destruct l as [|ll y lr]; [done|]. rewrite IHl. simpl.
  by destruct (elements ll).
Qed.

Lemma bt_max_last t : bt_max t = last (elements t).
Proof.
  induction t as [|l _ x r IHr]; [done|]. simpl.
  destruct r as [|rl y rr]; [by simpl; rewrite last_snoc|]. rewrite IHr.
  rewrite last_app_cons. simpl. by destruct (elements rl).
Qed.

Lemma elements_insert cmp v t :
  ∃ xs ys, elements t = xs ++ ys ∧ elements (bt_insert cmp v t) = xs ++ v :: ys.
Proof.
  induction t as [|l (xs&ys&Hl&Hl') x r (us&ws&Hr&Hr')]; simpl.
  { by exists [], []. }
  destruct (cmp x); simpl.
  - exists xs, (ys ++ x :: elements r). rewrite Hl, Hl'. by rewrite <-!app_assoc.
  - exists (elements l ++ x :: us), ws. rewrite Hr, Hr'. by rewrite <-!app_assoc.
Qed.

(** A node that belongs after all others becomes the last one. *)
Lemma elements_insert_last cmp v t :
  (∀ x, x ∈ elements t → cmp x = false) → elements (bt_insert cmp v t) = elements t ++ [v].
Proof.
  induction t as [|l _ x r IH]; simpl; intros Hc; [done|].
  rewrite Hc by set_solver. simpl. rewrite IH by set_solver. by rewrite <-app_assoc.
Qed.

Lemma elements_insert_perm cmp v t : elements (bt_insert cmp v t) ≡ₚ v :: elements t.
Proof.
  destruct (elements_insert cmp v t) as (xs&ys&->&->). by rewrite Permutation_middle.
Qed.

Lemma elem_of_insert cmp v t x : x ∈ elements (bt_insert cmp v t) ↔ x = v ∨ x ∈ elements t.
Proof. by rewrite elements_insert_perm, elem_of_cons. Qed.

Lemma elements_graft_left l r : elements (graft_left l r) = elements l ++ elements r.
Proof.
  induction r as [|rl IH x rr _]; simpl; [by rewrite app_nil_r|].
  by rewrite IH, app_assoc.
Qed.

Lemma elements_join l r : elements (join l r) = elements l ++ elements r.
Proof.
  destruct l; [done|]. destruct r; [by rewrite app_nil_r|].
  unfold join. by rewrite elements_graft_left.
Qed.

Context `{EqDecision A}.

Lemma bt_remove_notin v t : v ∉ elements t → bt_remove v t = t.
Proof.
  induction t as [|l IHl x r IHr]; simpl; [done|].
  rewrite elem_of_app, elem_of_cons. intros Hv.
  rewrite decide_False, IHl, IHr by naive_solver. done.
Qed.

Lemma elements_remove v xs ys t :
  elements t = xs ++ v :: ys → NoDup (elements t) → elements (bt_remove v t) = xs ++ ys.
Proof.
  revert xs ys. induction t as [|l IHl x r IHr]; intros xs ys; simpl.
  { by destruct xs. }
  intros Heq Hnd. case_decide as Hx.
  - subst x. rewrite elements_join.
    rewrite Heq in Hnd. apply NoDup_remove_mid in Hnd as [_ Hv].
    assert (elements l = xs ∧ elements r = ys) as [-> ->]; [|done].
    apply app_eq_inv in Heq as [(k&Hk&Hk')|(k&Hk&Hk')].
    + destruct k as [|z k]; [rewrite app_nil_r in Hk; by simplify_eq/=|].
      simpl in Hk'. simplify_eq/=. exfalso. apply Hv. set_solver.
    + destruct k as [|z k]; [rewrite app_nil_r in Hk; by simplify_eq/=|].
      simpl in Hk'. simplify_eq/=. exfalso. apply Hv. set_solver.
  - pose proof Hnd as (Hndl&Hd&Hndr)%NoDup_app.
    apply app_eq_inv in Heq as [(k&Hk&Hk')|(k&Hk&Hk')].
    + destruct k as [|z k]; simpl in *.
      * simplify_eq/=.
      * simplify_eq/=. rewrite (IHl xs k) by done.
        rewrite (bt_remove_notin z r); [by rewrite <-app_assoc|].
        intros Hz. apply (Hd z); [rewrite Hk; set_solver|]. by right.
    + destruct k as [|z k]; simpl in *; [by simplify_eq/=|].
      injection Hk' as <- Hk'. subst xs.
      apply NoDup_cons in Hndr as [_ Hndr].
      rewrite (IHr k ys) by done.
      rewrite (bt_remove_notin v l); [by rewrite <-app_assoc|].
      intros Hz. apply (Hd v); [done|]. rewrite Hk'. set_solver.
Qed.

Lemma elements_remove_perm v t :
  v ∈ elements t → NoDup (elements t) → v :: elements (bt_remove v t) ≡ₚ elements t.
Proof.
  intros (xs&ys&Heq)%list_elem_of_split Hnd.
  rewrite (elements_remove v xs ys) by done. by rewrite Heq, Permutation_middle.
Qed.

Lemma elem_of_remove v t x :
  NoDup (elements t) → x ∈ elements (bt_remove v t) ↔ x ∈ elements t ∧ x ≠ v.
Proof.
  intros Hnd. destruct (decide (v ∈ elements t)) as [Hv|Hv].
  - pose proof (elements_remove_perm v t Hv Hnd) as Hp. rewrite <-Hp, elem_of_cons.
    assert (v ∉ elements (bt_remove v t)).
    { rewrite <-Hp in Hnd. by apply NoDup_cons in Hnd as [? _]. }
    split; [|naive_solver]. intros ?. split; [by right|]. by intros ->.
  - rewrite bt_remove_notin by done. split; [|naive_solver].
    intros ?. split; [done|]. by intros ->.
Qed.

Lemma elements_remove_filter v t :
  NoDup (elements t) → elements (bt_remove v t) = filter (λ x, x ≠ v) (elements t).
Proof.
  intros Hnd. destruct (decide (v ∈ elements t)) as [Hv|Hv].
  - apply list_elem_of_split in Hv as (xs&ys&Heq).
    rewrite (elements_remove v xs ys) by done. rewrite Heq in Hnd |- *.
    apply NoDup_remove_mid in Hnd as [_ Hv]. rewrite elem_of_app in Hv.
    rewrite filter_app, filter_cons_False by (intros H; by apply H).
    rewrite !filter_all; [done|..]; intros x Hx ->; tauto.
  - rewrite bt_remove_notin, filter_all; [done| |done]. by intros x Hx ->.
Qed.

Lemma NoDup_remove v t : NoDup (elements t) → NoDup (elements (bt_remove v t)).
Proof.
  intros Hnd. destruct (decide (v ∈ elements t)) as [Hv|Hv].
  - rewrite <-(elements_remove_perm v t Hv Hnd) in Hnd. by apply NoDup_cons in Hnd as [_ ?].
  - by rewrite bt_remove_notin.
Qed.

Lemma NoDup_insert cmp v t :
  NoDup (elements t) → v ∉ elements t → NoDup (elements (bt_insert cmp v t)).
Proof. intros. rewrite elements_insert_perm. by constructor. Qed.
End tree_laws.

(** * Symmetric-order successor *)

Section after_lemmas.
Context {A : Type} `{EqDecision A}.
Implicit Types (xs ys : list A).

Lemma after_notin x xs : x ∉ xs → after x xs = None.
Proof.
  induction xs as [|y xs IH]; simpl; [done|]. rewrite not_elem_of_cons. intros [? ?].
  rewrite decide_False by done. by apply IH.
Qed.

Lemma after_app_r x xs ys : x ∉ xs → after x (xs ++ ys) = after x ys.
Proof.
  induction xs as [|y xs IH]; simpl; [done|]. rewrite not_elem_of_cons. intros [? ?].
  rewrite decide_False by done. by apply IH.
Qed.

Lemma after_app_l x xs ys :
  x ∈ xs → NoDup xs →
  after x (xs ++ ys) = match after x xs with Some y => Some y | None => head ys end.
Proof.
  induction xs as [|y xs IH]; simpl; [set_solver|].
  intros Hx [Hy Hnd]%NoDup_cons. case_decide as He.
  - subst. destruct xs; [done|]. done.
  - apply IH; [set_solver|done].
Qed.

Lemma after_None_last x xs : x ∈ xs → NoDup xs → after x xs = None → last xs = Some x.
Proof.
  induction xs as [|y xs IH]; simpl; [set_solver|].
  intros Hx [Hy Hnd]%NoDup_cons. case_decide as He.
  - subst. by destruct xs.
  - intros Ha. assert (last xs = Some x) as Hl by (apply IH; [set_solver|done|done]).
    destruct xs; [done|]. by rewrite <-Hl.
Qed.
End after_lemmas.

(** * Search order *)

Section search.
Context {A : Type}.
Implicit Types (t : tree A).

(** The order a search relies on: a node the search does not leave to the
    left has only nodes before it that the search leaves to the right. *)
Definition search_rel (cmp mat : A → bool) (x y : A) : Prop :=
  cmp y = false → cmp x = false ∧ mat x = false.

Definition hit (cmp mat : A → bool) (x : A) : bool := negb (cmp x) && mat x.

Lemma StronglySorted_app_iff (R : relation A) xs ys :
  StronglySorted R (xs ++ ys) ↔
  StronglySorted R xs ∧ StronglySorted R ys ∧ ∀ x y, x ∈ xs → y ∈ ys → R x y.
Proof.
  induction xs as [|x xs IH]; simpl.
  - split; [|naive_solver]. intros. split_and!; [constructor|done|set_solver].
  - split.
    + intros [H1 H2]%StronglySorted_inv. apply IH in H1 as (?&?&?).
      rewrite Forall_app, !Forall_forall in H2. destruct H2 as [H2 H3].
      split_and!; [|done|].
      * constructor; [done|]. by apply Forall_forall.
      * intros x' y [->|?]%elem_of_cons ?; eauto.
    + intros ([H1 H2]%StronglySorted_inv & H3 & H4). constructor.
      * apply IH. split_and!; [done..|]. intros. apply H4; [by right|done].
      * apply Forall_app. split; [done|]. apply Forall_forall. intros. apply H4; [by left|done].
Qed.

(** In a searchable tree [BTREE_FIND] finds the node that satisfies [match]
    if there is one. *)
Lemma bt_find_filter cmp mat t :
  StronglySorted (search_rel cmp mat) (elements t) →
  bt_find cmp mat t = head (filter (λ x, hit cmp mat x) (elements t)).
Proof.
  unfold hit. induction t as [|l IHl x r IHr]; simpl; [done|].
  intros (Hl & Hxr & Hlr)%StronglySorted_app_iff.
  apply StronglySorted_inv in Hxr as [Hr Hx]. rewrite Forall_forall in Hx.
  rewrite filter_app, filter_cons.
  destruct (cmp x) eqn:Hc; simpl.
  - rewrite IHl by done.
    assert (filter (λ y, negb (cmp y) && mat y) (elements r) = []) as ->.
    { apply filter_none. intros y Hy.
      destruct (cmp y) eqn:Hcy; simpl; [by intros []|].
      destruct (Hx y Hy Hcy). congruence. }
    by rewrite app_nil_r.
  - assert (filter (λ y, negb (cmp y) && mat y) (elements l) = []) as ->.
    { apply filter_none. intros y Hy.
      destruct (Hlr y x Hy ltac:(set_solver) Hc) as [-> ->]. by intros []. }
    destruct (mat x); simpl; [done|]. by rewrite IHr.
Qed.

Lemma bt_find_Some cmp mat t x :
  bt_find cmp mat t = Some x → x ∈ elements t ∧ cmp x = false ∧ mat x = true.
Proof.
  induction t as [|l IHl y r IHr]; simpl; [done|].
  destruct (cmp y) eqn:?; [|destruct (mat y) eqn:?]; intros; simplify_eq; set_solver.
Qed.

Lemma bt_find_None cmp mat t x :
  StronglySorted (search_rel cmp mat) (elements t) →
  bt_find cmp mat t = None → x ∈ elements t → cmp x = false → mat x = false.
Proof.
  intros Hs Hf Hx Hc. rewrite bt_find_filter in Hf by done.
  destruct (mat x) eqn:Hm; [|done].
  destruct (filter _ _) as [|y ys] eqn:Hfe in Hf; [|done].
  assert (x ∈ filter (λ x, hit cmp mat x) (elements t)) as H.
  { apply list_elem_of_filter. split; [|done]. unfold hit. by rewrite Hc, Hm. }
  rewrite Hfe in H. by apply elem_of_nil in H.
Qed.

(** The functions that read nothing but the elements agree on them. *)
Lemma bt_find_ext cmp cmp' mat mat' t :
  (∀ x, x ∈ elements t → cmp x = cmp' x ∧ mat x = mat' x) →
  bt_find cmp mat t = bt_find cmp' mat' t.
Proof.
  induction t as [|l IHl y r IHr]; simpl; [done|]. intros H.
  destruct (H y) as [-> ->]; [set_solver|].
  rewrite IHl, IHr by set_solver. done.
Qed.
End search.

(** * Trees ordered by a key *)

Lemma StronglySorted_weaken {A} (R R' : relation A) l :
  (∀ x y, x ∈ l → y ∈ l → R x y → R' x y) → StronglySorted R l → StronglySorted R' l.
Proof.
  induction l as [|x l IH]; intros HR; [constructor|].
  intros [Hl Hx]%StronglySorted_inv. constructor.
  - apply IH; [|done]. intros. apply HR; [by right..|done].
  - rewrite Forall_forall in Hx |- *. intros y Hy. apply HR; [by left|by right|by apply Hx].
Qed.

Section keyed.
Context {A : Type} (key : A → Z).
Implicit Types (t : tree A).

Definition key_lt (x y : A) : Prop := (key x < key y)%Z.
Definition bst t : Prop := StronglySorted key_lt (elements t).

(** [BTREE_FIND(&hit, iter, tree, field, (k < iter->key), (k == iter->key))] *)
Definition find_key (k : Z) t : option A :=
  bt_find (λ y, k <? key y)%Z (λ y, k =? key y)%Z t.
(** [BTREE_INSERT(v, iter, tree, field, (v->key < iter->key))] *)
Definition insert_key (v : A) t : tree A := bt_insert (λ y, key v <? key y)%Z v t.

Lemma bst_search k t :
  bst t → StronglySorted (search_rel (λ y, k <? key y)%Z (λ y, k =? key y)%Z) (elements t).
Proof.
  unfold bst. induction 1 as [|x xs ? IH Hx]; constructor; [done|].
  eapply Forall_impl; [exact Hx|]. unfold key_lt, search_rel. intros y ?.
  rewrite !Z.ltb_ge, Z.eqb_neq. lia.
Qed.

Lemma bst_inj t x y : bst t → x ∈ elements t → y ∈ elements t → key x = key y → x = y.
Proof.
  unfold bst. induction 1 as [|z zs ? IH Hz]; [set_solver|].
  rewrite Forall_forall in Hz. unfold key_lt in Hz.
  intros [->|Hx]%elem_of_cons [->|Hy]%elem_of_cons ?; [done| | |by apply IH].
  - specialize (Hz _ Hy). lia.
  - specialize (Hz _ Hx). lia.
Qed.

Lemma bst_NoDup t : bst t → NoDup (elements t).
Proof.
  unfold bst. induction 1 as [|z zs ? IH Hz]; constructor; [|done].
  rewrite Forall_forall in Hz. intros Hin. specialize (Hz _ Hin). unfold key_lt in Hz. lia.
Qed.

Lemma find_key_Some k t x : bst t → find_key k t = Some x ↔ x ∈ elements t ∧ key x = k.
Proof.
  intros Hb. unfold find_key. split.
  - intros (?&?&?)%bt_find_Some. zcmp. done.
  - intros [Hx <-]. destruct (bt_find _ _ _) as [y|] eqn:Hf.
    + apply bt_find_Some in Hf as (?&?&?). zcmp. f_equal. by apply (bst_inj t).
    + eapply bt_find_None in Hf; [|by apply bst_search|done|apply Z.ltb_irrefl].
      zcmp. done.
Qed.

Lemma find_key_None k t : bst t → find_key k t = None ↔ ∀ x, x ∈ elements t → key x ≠ k.
Proof.
  intros Hb. destruct (find_key k t) as [x|] eqn:Hf.
  - apply find_key_Some in Hf as [? ?]; [|done]. naive_solver.
  - split; [|done]. intros _ x Hx <-.
    assert (find_key (key x) t = Some x) by (by apply find_key_Some). congruence.
Qed.

(** Inserting a fresh key keeps the tree a search tree. *)
Lemma bst_insert v t : bst t → (∀ x, x ∈ elements t → key x ≠ key v) → bst (insert_key v t).
Proof.
  unfold bst, insert_key. induction t as [|l IHl x r IHr]; simpl; [by repeat constructor|].
  intros (Hl & [Hr Hx]%StronglySorted_inv & Hlr)%StronglySorted_app_iff Hv.
  rewrite Forall_forall in Hx.
  assert (key x ≠ key v) by (apply Hv; set_solver).
  destruct (Z.ltb_spec (key v) (key x)); simpl; apply StronglySorted_app_iff.
  - split_and!; [apply IHl; [done|set_solver]|by constructor; [|apply Forall_forall]|].
    intros a b [->|Ha]%elem_of_insert Hb; [|by apply Hlr].
    apply elem_of_cons in Hb as [->|Hb]; [done|]. unfold key_lt in *.
    specialize (Hx _ Hb). lia.
  - split_and!; [done| |].
    + constructor; [apply IHr; [done|set_solver]|]. apply Forall_forall.
      intros b [->|Hb]%elem_of_insert; [unfold key_lt; lia|by apply Hx].
    + intros a b Ha Hb. assert (key_lt a x) by (apply Hlr; set_solver).
      rewrite elem_of_cons, elem_of_insert in Hb. destruct Hb as [->|[->|Hb]].
      * done.
      * unfold key_lt in *. lia.
      * apply Hlr; set_solver.
Qed.

Lemma find_key_insert v t k :
  bst t → (∀ x, x ∈ elements t → key x ≠ key v) →
  find_key k (insert_key v t) = if decide (k = key v) then Some v else find_key k t.
Proof.
  intros Hb Hv. pose proof (bst_insert v t Hb Hv) as Hb'. case_decide as Hk.
  - apply find_key_Some; [done|]. split; [|done].
    unfold insert_key. rewrite elem_of_insert. by left.
  - destruct (find_key k t) as [x|] eqn:Hf.
    + apply find_key_Some in Hf as [Hx <-]; [|done]. apply find_key_Some; [done|].
      split; [|done]. unfold insert_key. rewrite elem_of_insert. by right.
    + apply find_key_None; [done|]. rewrite find_key_None in Hf by done.
      intros x [->|Hx]%elem_of_insert; [congruence|by apply Hf].
Qed.

Lemma find_key_remove `{EqDecision A} v t k :
  bst t → bst (bt_remove v t) → v ∈ elements t →
  find_key k (bt_remove v t) = if decide (k = key v) then None else find_key k t.
Proof.
  intros Hb Hb' Hv. pose proof (bst_NoDup t Hb) as Hnd. case_decide as Hk.
  - apply find_key_None; [done|]. intros x [Hx Hxv]%elem_of_remove Hkx; [|done].
    apply Hxv, (bst_inj t); [done..|congruence].
  - destruct (find_key k t) as [x|] eqn:Hf.
    + apply find_key_Some in Hf as [Hx <-]; [|done]. apply find_key_Some; [done|].
      split; [|done]. apply elem_of_remove; [done|]. split; [done|congruence].
    + rewrite find_key_None in Hf by done. apply find_key_None; [done|].
      intros x [Hx _]%elem_of_remove; [|done]. by apply Hf.
Qed.

Lemma bst_remove `{EqDecision A} v t : bst t → bst (bt_remove v t).
Proof.
  intros Hb. pose proof (bst_NoDup t Hb) as Hnd. destruct (decide (v ∈ elements t)) as [Hv|Hv].
  - apply list_elem_of_split in Hv as (xs&ys&Heq). unfold bst.
    rewrite (elements_remove v xs ys) by done. unfold bst in Hb. rewrite Heq in Hb.
    apply StronglySorted_app_iff in Hb as (?&[??]%StronglySorted_inv&Hx).
    apply StronglySorted_app_iff. split_and!; [done..|]. set_solver.
  - by rewrite bt_remove_notin.
Qed.
End keyed.

(** Only the keys of the elements matter. *)
Lemma bst_ext {A} (key key' : A → Z) t :
  (∀ x, x ∈ elements t → key x = key' x) → bst key t → bst key' t.
Proof.
  intros Hk. apply StronglySorted_weaken. unfold key_lt. intros x y Hx Hy.
  by rewrite !Hk.
Qed.
