(* ===== verification/BtreeHeap.v ===== *)
(** The macros of [mk/core/btree.h] on linked nodes, and the proof that they
    implement the functions of [Btree].

    A node is named by its address; [node h] maps the addresses of the nodes
    to their [left], [right] and [parent] pointers, [None] being [NULL], and
    [child h] is the root's only field.  Loops take fuel; every refinement
    theorem says that the height of the tree is enough. *)

From S2P Require Import Prelude Btree.

Local Open Scope c_scope.

Record bnode := mk_bnode { left : option Z; right : option Z; parent : option Z }.
Record heap := mk_heap { child : option Z; node : gmap Z bnode }.

Definition BTREE_NODE_INITIALIZER : bnode := mk_bnode None None None.
Definition BTREE_ROOT_INITIALIZER (nd : gmap Z bnode) : heap := mk_heap None nd.

Definition set_left (p : option Z) (n : bnode) := mk_bnode p (right n) (parent n).
Definition set_right (p : option Z) (n : bnode) := mk_bnode (left n) p (parent n).
Definition set_parent (p : option Z) (n : bnode) := mk_bnode (left n) (right n) p.

(** [p->field] for a pointer that may be [NULL] or dangling. *)
Definition load (a : Z) : M heap bnode := h <- get ;; deref "node" (node h !! a).
Definition store (a : Z) (f : bnode → bnode) : M heap unit :=
  n <- load a ;; modify (λ h, mk_heap (child h) (<[a := f n]> (node h))).
Definition pointee (p : option Z) : M heap Z := deref "NULL" p.

Definition BTREE_NODE_INIT (a : Z) : M heap unit :=
  store a (λ _, BTREE_NODE_INITIALIZER).
Definition BTREE_ROOT_INIT : M heap unit := modify (λ h, mk_heap None (node h)).

Fixpoint BTREE_FIND_loop (fuel : nat) (cmp mat : Z → bool) (iter : Z) : M heap (option Z) :=
  match fuel with
  | O => halt OutOfFuel
  | S fuel =>
      n <- load iter ;;
      if cmp iter then
        match left n with None => ret None | Some i => BTREE_FIND_loop fuel cmp mat i end
      else if mat iter then ret (Some iter)
      else match right n with None => ret None | Some i => BTREE_FIND_loop fuel cmp mat i end
  end.
Definition BTREE_FIND (fuel : nat) (cmp mat : Z → bool) : M heap (option Z) :=
  h <- get ;;
  match child h with None => ret None | Some i => BTREE_FIND_loop fuel cmp mat i end.

Fixpoint BTREE_INSERT_SUB (fuel : nat) (cmp : Z → bool) (var iter : Z) : M heap unit :=
  match fuel with
  | O => halt OutOfFuel
  | S fuel =>
      n <- load iter ;;
      if cmp iter then
        match left n with
        | None => store iter (set_left (Some var)) ;;; store var (set_parent (Some iter))
        | Some i => BTREE_INSERT_SUB fuel cmp var i
        end
      else
        match right n with
        | None => store iter (set_right (Some var)) ;;; store var (set_parent (Some iter))
        | Some i => BTREE_INSERT_SUB fuel cmp var i
        end
  end.
Definition BTREE_INSERT (fuel : nat) (cmp : Z → bool) (var : Z) : M heap unit :=
  h <- get ;;
  match child h with
  | None => modify (λ h, mk_heap (Some var) (node h)) ;;; store var (set_parent None)
  | Some i => BTREE_INSERT_SUB fuel cmp var i
  end.

Fixpoint BTREE_MIN_loop (fuel : nat) (var : Z) : M heap (option Z) :=
  match fuel with
  | O => halt OutOfFuel
  | S fuel =>
      n <- load var ;;
      match left n with None => ret (Some var) | Some i => BTREE_MIN_loop fuel i end
  end.
Definition BTREE_MIN_SUB (fuel : nat) (p : option Z) : M heap (option Z) :=
  match p with None => ret None | Some i => BTREE_MIN_loop fuel i end.
Definition BTREE_MIN (fuel : nat) : M heap (option Z) :=
  h <- get ;; BTREE_MIN_SUB fuel (child h).

Fixpoint BTREE_MAX_loop (fuel : nat) (var : Z) : M heap (option Z) :=
  match fuel with
  | O => halt OutOfFuel
  | S fuel =>
      n <- load var ;;
      match right n with None => ret (Some var) | Some i => BTREE_MAX_loop fuel i end
  end.
Definition BTREE_MAX_SUB (fuel : nat) (p : option Z) : M heap (option Z) :=
  match p with None => ret None | Some i => BTREE_MAX_loop fuel i end.
Definition BTREE_MAX (fuel : nat) : M heap (option Z) :=
  h <- get ;; BTREE_MAX_SUB fuel (child h).

(** The climbing loop of [BTREE_NEXT]. *)
Fixpoint next_up (fuel : nat) (var : Z) : M heap (option Z) :=
  match fuel with
  | O => halt OutOfFuel
  | S fuel =>
      n <- load var ;;
      match parent n with
      | None => ret None
      | Some p =>
          pn <- load p ;;
          if decide (left pn = Some var) then ret (Some p) else next_up fuel p
      end
  end.
Definition BTREE_NEXT (fuel : nat) (var : Z) : M heap (option Z) :=
  n <- load var ;;
  match right n with
  | Some r => BTREE_MIN_SUB fuel (Some r)
  | None => next_up fuel var
  end.

Fixpoint prev_up (fuel : nat) (var : Z) : M heap (option Z) :=
  match fuel with
  | O => halt OutOfFuel
  | S fuel =>
      n <- load var ;;
      match parent n with
      | None => ret None
      | Some p =>
          pn <- load p ;;
          if decide (right pn = Some var) then ret (Some p) else prev_up fuel p
      end
  end.
Definition BTREE_PREV (fuel : nat) (var : Z) : M heap (option Z) :=
  n <- load var ;;
  match left n with
  | Some l => BTREE_MAX_SUB fuel (Some l)
  | None => prev_up fuel var
  end.

(** [BTREE_FOREACH] with a [method] that does not touch the tree: the nodes
    it is given, in order. *)
Fixpoint foreach_loop (fuel : nat) (depth : nat) (var : option Z) : M heap (list Z) :=
  match fuel with
  | O => halt OutOfFuel
  | S fuel =>
      match var with
      | None => ret []
      | Some v =>
          nxt <- BTREE_NEXT depth v ;;
          rest <- foreach_loop fuel depth nxt ;;
          ret (v :: rest)
      end
  end.
Definition BTREE_FOREACH (fuel depth : nat) : M heap (list Z) :=
  v <- BTREE_MIN depth ;; foreach_loop fuel depth v.

(** The lvalue [dst] of [BTREE_REMOVE_SUB]. *)
Inductive place := RootChild | LeftOf (p : Z) | RightOf (p : Z).
Definition assign (dst : place) (q : option Z) : M heap unit :=
  match dst with
  | RootChild => modify (λ h, mk_heap q (node h))
  | LeftOf p => store p (set_left q)
  | RightOf p => store p (set_right q)
  end.

Definition BTREE_REMOVE_SUB (fuel : nat) (var : Z) (dst : place) : M heap unit :=
  n <- load var ;;
  (match left n, right n with
   | None, iter =>
       assign dst iter ;;;
       match iter with
       | None => ret tt
       | Some i => store i (set_parent (parent n))
       end
   | Some i, None => assign dst (Some i) ;;; store i (set_parent (parent n))
   | Some l, Some r =>
       assign dst (Some r) ;;;
       store r (set_parent (parent n)) ;;;
       m <- BTREE_MIN_SUB fuel (Some r) ;;
       i <- pointee m ;;
       store i (set_left (Some l)) ;;;
       store l (set_parent (Some i))
   end) ;;;
  BTREE_NODE_INIT var.

Definition BTREE_REMOVE (fuel : nat) (var : Z) : M heap unit :=
  h <- get ;;
  if decide (child h = Some var) then BTREE_REMOVE_SUB fuel var RootChild
  else
    n <- load var ;;
    p <- pointee (parent n) ;;
    pn <- load p ;;
    if decide (left pn = Some var) then BTREE_REMOVE_SUB fuel var (LeftOf p)
    else BTREE_REMOVE_SUB fuel var (RightOf p).

(** * Representation *)

(** The nodes under pointer [p], whose parent pointer is [par], form [t]. *)
Fixpoint repr (nd : gmap Z bnode) (p par : option Z) (t : tree Z) : Prop :=
  match t with
  | Leaf => p = None
  | Node l x r =>
      p = Some x ∧ ∃ n, nd !! x = Some n ∧ parent n = par ∧
      repr nd (left n) (Some x) l ∧ repr nd (right n) (Some x) r
  end.

(** A heap whose root is the well-linked tree [t]. *)
Definition represents (h : heap) (t : tree Z) : Prop :=
  repr (node h) (child h) None t ∧ NoDup (elements t).

Lemma repr_root nd p par t : repr nd p par t → p = root t.
Proof. destruct t; simpl; naive_solver. Qed.

Lemma repr_frame nd nd' p par t :
  (∀ a, a ∈ elements t → nd' !! a = nd !! a) → repr nd p par t → repr nd' p par t.
Proof.
  revert p par. induction t as [|l IHl x r IHr]; intros p par Hf; simpl; [done|].
  intros (->&n&Hn&Hp&Hl&Hr). split; [done|]. exists n.
  rewrite Hf by set_solver. split_and!; [done..| |]; [apply IHl|apply IHr]; set_solver.
Qed.

Lemma repr_elem nd p par t x : repr nd p par t → x ∈ elements t → is_Some (nd !! x).
Proof.
  revert p par. induction t as [|l IHl y r IHr]; intros p par; simpl; [set_solver|].
  intros (->&n&Hn&_&Hl&Hr). rewrite elem_of_app, elem_of_cons. naive_solver.
Qed.

Lemma NoDup_node (l : tree Z) x r :
  NoDup (elements (Node l x r)) →
  NoDup (elements l) ∧ NoDup (elements r) ∧ x ∉ elements l ∧ x ∉ elements r ∧
  ∀ y, y ∈ elements l → y ∉ elements r.
Proof.
  simpl. intros (Hl&Hd&[Hx Hr]%NoDup_cons)%NoDup_app.
  split_and!; [done..| |done|]; intros; set_solver.
Qed.

Lemma load_eq a h n : node h !! a = Some n → load a h = Done n h.
Proof. intros H. unfold load, bind, get, deref. by rewrite H. Qed.

Lemma store_eq a f h n :
  node h !! a = Some n → store a f h = Done tt (mk_heap (child h) (<[a := f n]> (node h))).
Proof. intros H. unfold store, bind. by rewrite (load_eq a h n H). Qed.

(** * Searching *)

Lemma find_loop_refines cmp mat t : ∀ fuel h i par,
  repr (node h) (Some i) par t → height t ≤ fuel →
  BTREE_FIND_loop fuel cmp mat i h = Done (bt_find cmp mat t) h.
Proof.
  induction t as [|l IHl x r IHr]; intros [|fuel] h i par; simpl; [done|done|lia|].
  intros ([= ->]&n&Hn&_&Hl&Hr) Hf. unfold bind. rewrite (load_eq _ _ _ Hn).
  destruct (cmp x).
  - destruct l as [|ll y lr]; [by rewrite Hl|].
    pose proof Hl as [-> _]. rewrite (repr_root _ _ _ _ Hl) in Hl. apply (IHl _ _ _ _ Hl). lia.
  - destruct (mat x); [done|]. destruct r as [|rl y rr]; [by rewrite Hr|].
    pose proof Hr as [-> _]. rewrite (repr_root _ _ _ _ Hr) in Hr. apply (IHr _ _ _ _ Hr). lia.
Qed.

Lemma BTREE_FIND_refines cmp mat fuel h t :
  represents h t → height t ≤ fuel → BTREE_FIND fuel cmp mat h = Done (bt_find cmp mat t) h.
Proof.
  intros [Hr _] Hf. unfold BTREE_FIND, bind, get.
  pose proof (repr_root _ _ _ _ Hr) as Hc. rewrite Hc in Hr |- *.
  destruct t as [|l x r]; [done|].
  exact (find_loop_refines cmp mat (Node l x r) fuel h x None Hr Hf).
Qed.

Lemma min_loop_refines t : ∀ fuel h i par,
  repr (node h) (Some i) par t → height t ≤ fuel →
  BTREE_MIN_loop fuel i h = Done (bt_min t) h.
Proof.
  induction t as [|l IHl x r _]; intros [|fuel] h i par; simpl; [done|done|lia|].
  intros ([= ->]&n&Hn&_&Hl&Hr) Hf. unfold bind. rewrite (load_eq _ _ _ Hn).
  destruct l as [|ll y lr]; [by rewrite Hl|].
  pose proof Hl as [-> _]. rewrite (repr_root _ _ _ _ Hl) in Hl. apply (IHl _ _ _ _ Hl). lia.
Qed.

Lemma min_sub_refines t fuel h p par :
  repr (node h) p par t → height t ≤ fuel → BTREE_MIN_SUB fuel p h = Done (bt_min t) h.
Proof.
  intros Hr Hf. pose proof (repr_root _ _ _ _ Hr) as ->.
  destruct t; [done|]. by eapply min_loop_refines.
Qed.

Lemma BTREE_MIN_refines fuel h t :
  represents h t → height t ≤ fuel → BTREE_MIN fuel h = Done (bt_min t) h.
Proof. intros [Hr _] Hf. unfold BTREE_MIN, bind, get. by eapply min_sub_refines. Qed.

(** * Symmetric-order successor *)

Lemma last_elements_node (l : tree Z) x r :
  last (elements (Node l x r)) = match r with Leaf => Some x | _ => last (elements r) end.
Proof.
  simpl. rewrite last_app_cons. destruct r as [|rl y rr]; [done|].
  simpl. by destruct (elements rl).
Qed.

(** From the last node of a subtree the climb reaches the subtree's root. *)
Lemma next_up_last t : ∀ h i par x,
  repr (node h) (Some i) par t → NoDup (elements t) → last (elements t) = Some x →
  (∃ n, node h !! x = Some n ∧ right n = None) ∧
  ∃ k, k < height t ∧ ∀ f, next_up (k + f) x h = next_up f i h.
Proof.
  induction t as [|l _ y r IHr]; intros h i par x; [done|].
  rewrite last_elements_node.
  intros ([= ->]&n&Hn&Hp&Hl&Hr) Hnd Hlast. destruct r as [|rl j rr].
  { simplify_eq/=. split; [eauto|]. exists 0. split; [lia|done]. }
  apply NoDup_node in Hnd as (Hndl&Hndr&Hyl&Hyr&Hd).
  pose proof (repr_root _ _ _ _ Hr) as Hrr. simpl in Hrr. rewrite Hrr in Hr.
  destruct (IHr h j (Some y) x Hr Hndr Hlast) as (Hx&k&Hk&Hup).
  split; [done|]. exists (S k). split; [simpl in *; lia|]. intros f.
  rewrite Nat.add_succ_comm, Hup. simpl. unfold bind.
  destruct Hr as (_&nj&Hj&Hjp&_&_). rewrite (load_eq _ _ _ Hj), Hjp, (load_eq _ _ _ Hn).
  rewrite decide_False; [done|]. rewrite (repr_root _ _ _ _ Hl).
  destruct l as [|ll z lr]; simpl; [done|]. intros [= ->].
  apply (Hd j); simpl; set_solver.
Qed.

Lemma next_inner t : ∀ h i par x y fuel,
  repr (node h) (Some i) par t → NoDup (elements t) → x ∈ elements t → height t ≤ fuel →
  after x (elements t) = Some y → BTREE_NEXT fuel x h = Done (Some y) h.
Proof.
  induction t as [|l IHl z r IHr]; intros h i par x y fuel; [set_solver|].
  intros ([= ->]&n&Hn&Hp&Hl&Hr) Hnd Hx Hf Ha.
  pose proof (NoDup_node _ _ _ Hnd) as (Hndl&Hndr&Hzl&Hzr&Hd).
  simpl in Hx, Ha, Hf. rewrite elem_of_app, elem_of_cons in Hx.
  destruct (decide (x ∈ elements l)) as [Hxl|Hxl].
  - rewrite after_app_l in Ha by done.
    pose proof (repr_root _ _ _ _ Hl) as Hlr. rewrite Hlr in Hl.
    destruct l as [|ll j lr]; [set_solver|].
    destruct (after x (elements (Node ll j lr))) as [y'|] eqn:Hay.
    + injection Ha as ->. eapply IHl; [exact Hl|done|done|simpl in *; lia|done].
    + apply after_None_last in Hay; [|done|done]. injection Ha as ->.
      destruct (next_up_last _ _ _ _ _ Hl Hndl Hay) as ((nx&Hnx&Hrx)&k&Hk&Hup).
      unfold BTREE_NEXT, bind. rewrite (load_eq _ _ _ Hnx), Hrx.
      simpl in Hk, Hf. replace fuel with (k + S (fuel - S k)) by lia. rewrite Hup.
      simpl. unfold bind. destruct Hl as (_&nj&Hj&Hjp&_&_).
      rewrite (load_eq _ _ _ Hj), Hjp, (load_eq _ _ _ Hn). by rewrite decide_True.
  - rewrite after_app_r in Ha by done. simpl in Ha. case_decide as Hzx.
    + subst z. unfold BTREE_NEXT, bind. rewrite (load_eq _ _ _ Hn).
      pose proof (repr_root _ _ _ _ Hr) as Hrr. rewrite Hrr in Hr |- *.
      destruct r as [|rl j rr]; [done|]. cbn [root] in *.
      rewrite (min_sub_refines _ fuel _ _ _ Hr) by (simpl in Hf |- *; lia).
      by rewrite bt_min_head, Ha.
    + pose proof (repr_root _ _ _ _ Hr) as Hrr. rewrite Hrr in Hr.
      destruct r as [|rl j rr]; [set_solver|].
      eapply IHr; [exact Hr|done|naive_solver|lia|done].
Qed.

Lemma BTREE_NEXT_refines fuel h t x :
  represents h t → x ∈ elements t → height t ≤ fuel →
  BTREE_NEXT fuel x h = Done (bt_next x t) h.
Proof.
  intros [Hr Hnd] Hx Hf. unfold bt_next.
  pose proof (repr_root _ _ _ _ Hr) as Hrt. rewrite Hrt in Hr.
  destruct t as [|l i r]; [set_solver|].
  destruct (after x _) as [y|] eqn:Ha; [by eapply next_inner|].
  apply after_None_last in Ha; [|done|done].
  destruct (next_up_last _ _ _ _ _ Hr Hnd Ha) as ((nx&Hnx&Hrx)&k&Hk&Hup).
  unfold BTREE_NEXT, bind. rewrite (load_eq _ _ _ Hnx), Hrx.
  replace fuel with (k + S (fuel - S k)) by lia. rewrite Hup.
  simpl. unfold bind. destruct Hr as (_&ni&Hi&Hip&_&_).
  by rewrite (load_eq _ _ _ Hi), Hip.
Qed.

(** [BTREE_FOREACH] visits the nodes of the tree in symmetric order. *)
Lemma foreach_loop_refines depth h t : ∀ ys xs fuel,
  represents h t → height t ≤ depth → elements t = xs ++ ys → length ys < fuel →
  foreach_loop fuel depth (head ys) h = Done ys h.
Proof.
  induction ys as [|y ys IH]; intros xs [|fuel] Ht Hd He Hl; simpl in *; [lia|done|lia|].
  unfold bind. rewrite (BTREE_NEXT_refines depth h t y) by (rewrite ?He; set_solver).
  assert (bt_next y t = head ys) as ->.
  { destruct Ht as [_ Hnd]. unfold bt_next. rewrite He in Hnd |- *.
    apply NoDup_remove_mid in Hnd as [_ Hy].
    rewrite after_app_r by set_solver. simpl. by rewrite decide_True. }
  rewrite (IH (xs ++ [y]) fuel); [done|done|done| |lia].
  by rewrite <-app_assoc.
Qed.

Lemma BTREE_FOREACH_refines fuel depth h t :
  represents h t → height t ≤ depth → length (elements t) < fuel →
  BTREE_FOREACH fuel depth h = Done (elements t) h.
Proof.
  intros Ht Hd Hf. unfold BTREE_FOREACH, bind. rewrite (BTREE_MIN_refines _ _ t) by done.
  rewrite bt_min_head. by apply (foreach_loop_refines depth h t (elements t) []).
Qed.

(** * The mirror image: [BTREE_MAX] and [BTREE_PREV] *)

Definition flip_node (n : bnode) : bnode := mk_bnode (right n) (left n) (parent n).
Definition flip_heap (h : heap) : heap := mk_heap (child h) (flip_node <$> node h).
Fixpoint flip_tree {A} (t : tree A) : tree A :=
  match t with Leaf => Leaf | Node l x r => Node (flip_tree r) x (flip_tree l) end.

(** An outcome of reading [flip_heap h] as an outcome of reading [h]. *)
Definition unflip {A} (h : heap) (o : outcome heap A) : outcome heap A :=
  match o with Done a _ => Done a h | Stop w => Stop w end.

Lemma elements_flip {A} (t : tree A) : elements (flip_tree t) = reverse (elements t).
Proof.
  induction t as [|l IHl x r IHr]; simpl; [done|].
  by rewrite reverse_app, reverse_cons, IHl, IHr, <-app_assoc.
Qed.

Lemma height_flip {A} (t : tree A) : height (flip_tree t) = height t.
Proof. induction t; simpl; lia. Qed.

Lemma root_flip {A} (t : tree A) : root (flip_tree t) = root t.
Proof. by destruct t. Qed.

Lemma bt_max_flip {A} (t : tree A) : bt_min (flip_tree t) = bt_max t.
Proof. by rewrite bt_min_head, bt_max_last, elements_flip, head_reverse. Qed.

Lemma repr_flip nd p par t :
  repr nd p par t → repr (flip_node <$> nd) p par (flip_tree t).
Proof.
  revert p par. induction t as [|l IHl x r IHr]; intros p par; simpl; [done|].
  intros (->&n&Hn&Hp&Hl&Hr). split; [done|]. exists (flip_node n).
  rewrite lookup_fmap, Hn. naive_solver.
Qed.

Lemma represents_flip h t : represents h t → represents (flip_heap h) (flip_tree t).
Proof.
  intros [Hr Hnd]. split; [by apply repr_flip|]. by rewrite elements_flip, reverse_Permutation.
Qed.

Lemma load_flip a h :
  load a (flip_heap h) =
  match node h !! a with
  | Some n => Done (flip_node n) (flip_heap h)
  | None => Stop (Undefined "node")
  end.
Proof. unfold load, bind, get, deref. simpl. rewrite lookup_fmap. by destruct (_ !! a). Qed.

Lemma load_cases a h :
  load a h = match node h !! a with Some n => Done n h | None => Stop (Undefined "node") end.
Proof. unfold load, bind, get, deref. by destruct (_ !! a). Qed.

Lemma max_loop_flip fuel : ∀ i h,
  BTREE_MAX_loop fuel i h = unflip h (BTREE_MIN_loop fuel i (flip_heap h)).
Proof.
  induction fuel as [|fuel IH]; intros i h; simpl; [done|].
  unfold bind. rewrite load_flip, load_cases. destruct (node h !! i) as [n|]; [|done].
  simpl. by destruct (right n).
Qed.

Lemma prev_up_flip fuel : ∀ i h,
  prev_up fuel i h = unflip h (next_up fuel i (flip_heap h)).
Proof.
  induction fuel as [|fuel IH]; intros i h; simpl; [done|].
  unfold bind. rewrite load_flip, load_cases. destruct (node h !! i) as [n|]; [|done].
  simpl. destruct (parent n) as [p|]; [|done].
  rewrite load_flip, load_cases. destruct (node h !! p) as [pn|]; [|done].
  simpl. by case_decide.
Qed.

Lemma BTREE_MAX_refines fuel h t :
  represents h t → height t ≤ fuel → BTREE_MAX fuel h = Done (bt_max t) h.
Proof.
  intros Ht Hf. pose proof (BTREE_MIN_refines fuel _ _ (represents_flip h t Ht)) as Hm.
  rewrite height_flip, bt_max_flip in Hm. specialize (Hm Hf).
  unfold BTREE_MAX, BTREE_MIN, BTREE_MAX_SUB, BTREE_MIN_SUB, bind, get in *. simpl in Hm.
  destruct (child h); [|by injection Hm as <-]. by rewrite max_loop_flip, Hm.
Qed.

Lemma BTREE_PREV_refines fuel h t x :
  represents h t → x ∈ elements t → height t ≤ fuel →
  BTREE_PREV fuel x h = Done (bt_prev x t) h.
Proof.
  intros Ht Hx Hf.
  pose proof (BTREE_NEXT_refines fuel _ _ x (represents_flip h t Ht)) as Hm.
  unfold bt_next in Hm. rewrite height_flip, elements_flip in Hm.
  specialize (Hm ltac:(by apply elem_of_reverse) Hf). fold (bt_prev x t) in Hm.
  unfold BTREE_PREV, BTREE_NEXT, BTREE_MAX_SUB, BTREE_MIN_SUB, bind in *.
  rewrite load_flip in Hm. rewrite load_cases. destruct (node h !! x) as [n|]; [|done].
  simpl in Hm. destruct (left n) as [l|].
  - by rewrite max_loop_flip, Hm.
  - by rewrite prev_up_flip, Hm.
Qed.

(** * Insertion *)

(** A node outside any tree, as [BTREE_NODE_INIT] leaves it. *)
Definition detached (nd : gmap Z bnode) (v : Z) : Prop :=
  ∃ n, nd !! v = Some n ∧ left n = None ∧ right n = None.

Lemma repr_set_parent nd i n par par' t :
  repr nd (Some i) par t → nd !! i = Some n → NoDup (elements t) →
  repr (<[i := set_parent par' n]> nd) (Some i) par' t.
Proof.
  destruct t as [|l x r]; [done|]. intros ([= ->]&n'&Hn'&_&Hl&Hr) Hn Hnd.
  apply NoDup_node in Hnd as (_&_&Hxl&Hxr&_). simplify_eq. split; [done|].
  exists (set_parent par' n'). rewrite lookup_insert_eq. split_and!; [done..| |];
    (eapply repr_frame; [|eassumption]); intros; rewrite lookup_insert_ne; set_solver.
Qed.

(** The link step shared by the two sides of [BTREE_INSERT_SUB]: [v] becomes
    a child of [x]. *)
Lemma link_child h x v n nv f :
  node h !! x = Some n → node h !! v = Some nv → v ≠ x →
  (store x f ;;; store v (set_parent (Some x))) h =
  Done tt (mk_heap (child h) (<[v := set_parent (Some x) nv]> (<[x := f n]> (node h)))).
Proof.
  intros Hn Hv Hne. unfold bind. rewrite (store_eq _ _ _ _ Hn).
  rewrite (store_eq v _ _ nv); [done|]. simpl. by rewrite lookup_insert_ne.
Qed.

Lemma repr_single nd v n par :
  nd !! v = Some n → left n = None → right n = None → parent n = par →
  repr nd (Some v) par (Node Leaf v Leaf).
Proof. intros. split; [done|]. by exists n. Qed.

Lemma insert_sub_refines cmp v t : ∀ fuel h i par,
  repr (node h) (Some i) par t → NoDup (elements t) → v ∉ elements t →
  detached (node h) v → height t ≤ fuel →
  ∃ nd, BTREE_INSERT_SUB fuel cmp v i h = Done tt (mk_heap (child h) nd) ∧
    repr nd (Some i) par (bt_insert cmp v t) ∧
    ∀ a, a ∉ v :: elements t → nd !! a = node h !! a.
Proof.
  induction t as [|l IHl x r IHr]; intros [|fuel] h i par; [done|done|simpl; lia|].
  intros ([= ->]&n&Hn&Hp&Hl&Hr) Hnd Hv (nv&Hnv&Hlv&Hrv) Hf. simpl in Hv, Hf.
  apply NoDup_node in Hnd as (Hndl&Hndr&Hxl&Hxr&Hd).
  assert (v ≠ x ∧ v ∉ elements l ∧ v ∉ elements r) as (Hvx&Hvl&Hvr) by set_solver.
  assert (detached (node h) v) as Hdet by (by exists nv).
  cbn [BTREE_INSERT_SUB bt_insert]. unfold bind at 1. rewrite (load_eq _ _ _ Hn).
  assert (∀ f, ∃ nd,
    (store x f ;;; store v (set_parent (Some x))) h = Done tt (mk_heap (child h) nd) ∧
    nd !! x = Some (f n) ∧ repr nd (Some v) (Some x) (Node Leaf v Leaf) ∧
    (∀ a, a ≠ v → a ≠ x → nd !! a = node h !! a)) as Hlink.
  { intros f. eexists. split; [by apply (link_child h x v n nv)|].
    rewrite lookup_insert_ne, lookup_insert_eq by done. split_and!; [done| |].
    - by eapply repr_single; [apply lookup_insert_eq|..].
    - intros. by rewrite !lookup_insert_ne. }
  destruct (cmp x).
  - pose proof (repr_root _ _ _ _ Hl) as Hrl. destruct l as [|ll j lr]; rewrite Hrl in Hl |- *; cbn [root] in *.
    + destruct (Hlink (set_left (Some v))) as (nd&->&Hx&Hrv'&Hfr).
      exists nd. split_and!; [done| |intros; apply Hfr; set_solver].
      split; [done|]. exists (set_left (Some v) n). split_and!; [done..|].
      eapply repr_frame; [|exact Hr]. intros; apply Hfr; set_solver.
    + destruct (IHl fuel h j (Some x) Hl Hndl Hvl Hdet ltac:(lia)) as (nd&->&Hrn&Hfr).
      exists nd. split_and!; [done| |intros; apply Hfr; set_solver].
      split; [done|]. exists n. rewrite Hfr by set_solver. split_and!; [done..| |].
      { by rewrite Hrl. }
      eapply repr_frame; [|exact Hr]. intros; apply Hfr; set_solver.
  - pose proof (repr_root _ _ _ _ Hr) as Hrr. destruct r as [|rl j rr]; rewrite Hrr in Hr |- *; cbn [root] in *.
    + destruct (Hlink (set_right (Some v))) as (nd&->&Hx&Hrv'&Hfr).
      exists nd. split_and!; [done| |intros; apply Hfr; set_solver].
      split; [done|]. exists (set_right (Some v) n). split_and!; [done..| |done].
      eapply repr_frame; [|exact Hl]. intros; apply Hfr; set_solver.
    + destruct (IHr fuel h j (Some x) Hr Hndr Hvr Hdet ltac:(lia)) as (nd&->&Hrn&Hfr).
      exists nd. split_and!; [done| |intros; apply Hfr; set_solver].
      split; [done|]. exists n. rewrite Hfr by set_solver. split_and!; [done..| |].
      { eapply repr_frame; [|exact Hl]. intros; apply Hfr; set_solver. }
      by rewrite Hrr.
Qed.

Lemma BTREE_INSERT_refines cmp v fuel h t :
  represents h t → v ∉ elements t → detached (node h) v → height t ≤ fuel →
  ∃ h', BTREE_INSERT fuel cmp v h = Done tt h' ∧ represents h' (bt_insert cmp v t) ∧
    ∀ a, a ∉ v :: elements t → node h' !! a = node h !! a.
Proof.
  intros [Hr Hnd] Hv Hdet Hf. unfold BTREE_INSERT. unfold bind at 1, get.
  pose proof (repr_root _ _ _ _ Hr) as Hc. rewrite Hc in Hr |- *.
  destruct t as [|l x r].
  - destruct Hdet as (nv&Hnv&Hlv&Hrv). simpl. unfold bind, modify.
    rewrite (store_eq v _ _ nv) by done. simpl. eexists. split_and!; [done| |].
    + split; simpl; [|repeat constructor; set_solver].
      by eapply repr_single; [apply lookup_insert_eq|..].
    + intros a Ha. simpl. rewrite lookup_insert_ne by set_solver. done.
  - cbn [root]. cbn [root] in Hr, Hc.
    destruct (insert_sub_refines cmp v _ fuel h x None Hr Hnd Hv Hdet Hf) as (nd&->&Hr'&Hfr).
    eexists. split_and!; [done| |done]. split; [|by apply NoDup_insert].
    simpl. by rewrite Hc.
Qed.

(** * Removal *)

(** [assign dst q] only writes outside the nodes [xs]. *)
Definition assigns (dst : place) (h : heap) (xs : list Z) : Prop :=
  ∀ q, ∃ h0, assign dst q h = Done tt h0 ∧ ∀ a, a ∈ xs → node h0 !! a = node h !! a.

(** Changing the left child of the first node of [r] from [NULL] to the root
    [j] of [l] grafts [l] there. *)
Lemma repr_graft r : ∀ nd i par l j m nm nj parl,
  repr nd (Some i) par r → repr nd (Some j) parl l → NoDup (elements l ++ elements r) →
  bt_min r = Some m → nd !! m = Some nm → nd !! j = Some nj →
  repr (<[j := set_parent (Some m) nj]> (<[m := set_left (Some j) nm]> nd))
    (Some i) par (graft_left l r).
Proof.
  induction r as [|rl IH x rr _]; intros nd i par l j m nm nj parl; [done|].
  intros ([= ->]&n&Hn&Hp&Hrl&Hrr) Hl Hnd Hm Hnm Hnj.
  pose proof Hnd as (Hndl&Hd&Hndr)%NoDup_app.
  apply NoDup_node in Hndr as (Hndrl&Hndrr&Hxl&Hxr&Hdr).
  assert (j ∈ elements l) as Hjl.
  { destruct l as [|ll y lr]; [done|]. destruct Hl as ([= ->]&_). set_solver. }
  assert (j ≠ x) as Hjx by (intros ->; apply (Hd x Hjl); simpl; set_solver).
  pose proof (repr_root _ _ _ _ Hrl) as Hroot. destruct rl as [|a k b].
  - injection Hm as <-. rewrite Hn in Hnm. injection Hnm as <-.
    split; [done|]. exists (set_left (Some j) n).
    rewrite lookup_insert_ne, lookup_insert_eq by done. split_and!; [done..| |].
    + eapply repr_set_parent; [|by rewrite lookup_insert_ne|done].
      eapply repr_frame; [|exact Hl]. intros z Hz. rewrite lookup_insert_ne; [done|].
      intros <-. apply (Hd x Hz). simpl. set_solver.
    + eapply repr_frame; [|exact Hrr]. intros z Hz. rewrite !lookup_insert_ne; [done|set_solver|].
      intros <-. apply (Hd j Hjl). simpl. set_solver.
  - cbn [root] in Hroot. rewrite Hroot in Hrl.
    assert (m ∈ elements (Node a k b)) as Hmin.
    { rewrite (bt_min_head (Node (Node a k b) x rr)) in Hm. simpl in Hm |- *.
      destruct (elements a); simpl in *; injection Hm as <-; set_solver. }
    assert (m ≠ x ∧ j ∉ elements rr ∧ m ∉ elements rr) as (Hmx&Hjr&Hmr).
    { split_and!; [set_solver|intros Hj; apply (Hd j Hjl); simpl; set_solver|set_solver]. }
    cbn [graft_left]. split; [done|]. exists n.
    rewrite !lookup_insert_ne by done. split_and!; [done..| |].
    + rewrite Hroot. eapply IH; [exact Hrl|exact Hl| |done..].
      simpl in Hnd |- *. rewrite !app_assoc in Hnd. rewrite app_assoc.
      by apply NoDup_app in Hnd as [? _].
    + eapply repr_frame; [|exact Hrr]. intros z Hz.
      rewrite !lookup_insert_ne; [done| |]; by intros <-.
Qed.

Lemma store_set_parent_root h p par par' t :
  repr (node h) p par t → NoDup (elements t) →
  ∃ nd, match p with None => ret tt | Some i => store i (set_parent par') end h
        = Done tt (mk_heap (child h) nd) ∧
    repr nd p par' t ∧ ∀ a, a ∉ elements t → nd !! a = node h !! a.
Proof.
  intros Hr Hnd. pose proof (repr_root _ _ _ _ Hr) as ->. destruct t as [|l x r].
  - exists (node h). by destruct h.
  - pose proof Hr as (_&n&Hn&_). cbn [root] in *. rewrite (store_eq _ _ _ _ Hn).
    eexists. split_and!; [done|by eapply repr_set_parent|].
    intros a Ha. rewrite lookup_insert_ne; [done|]. intros ->. set_solver.
Qed.

Lemma node_init_eq h v n :
  node h !! v = Some n →
  BTREE_NODE_INIT v h = Done tt (mk_heap (child h) (<[v := BTREE_NODE_INITIALIZER]> (node h))).
Proof. intros. unfold BTREE_NODE_INIT. by rewrite (store_eq _ _ _ n). Qed.

(** What [BTREE_REMOVE_SUB] does to the subtree of the removed node. *)
Definition removed (h0 h' : heap) (v : Z) (par : option Z) (l r : tree Z) : Prop :=
  child h' = child h0 ∧ repr (node h') (root (join l r)) par (join l r) ∧
  node h' !! v = Some BTREE_NODE_INITIALIZER ∧
  ∀ a, a ∉ elements (Node l v r) → node h' !! a = node h0 !! a.

(** The last step of every branch. *)
Lemma removed_init h0 h1 v n par l r :
  node h1 !! v = Some n → child h1 = child h0 →
  repr (node h1) (root (join l r)) par (join l r) → NoDup (elements (Node l v r)) →
  (∀ a, a ∉ elements (Node l v r) → node h1 !! a = node h0 !! a) →
  ∃ h', BTREE_NODE_INIT v h1 = Done tt h' ∧ removed h0 h' v par l r.
Proof.
  intros Hn Hc Hr Hnd Hfr. rewrite (node_init_eq _ _ _ Hn). eexists. split; [done|].
  split_and!; [done| |by apply lookup_insert_eq|]; simpl.
  - eapply repr_frame; [|exact Hr]. intros a Ha. rewrite lookup_insert_ne; [done|].
    intros <-. rewrite elements_join in Ha. by apply NoDup_remove_mid in Hnd as [_ ?].
  - intros a Ha. rewrite lookup_insert_ne; [by apply Hfr|]. intros <-. set_solver.
Qed.

(** The third branch of [BTREE_REMOVE_SUB], after the assignment to [dst]. *)
Lemma remove_graft fuel h v n par ll j lr rl k rr :
  let l := Node ll j lr in let r := Node rl k rr in
  node h !! v = Some n →
  repr (node h) (Some j) (Some v) l → repr (node h) (Some k) (Some v) r →
  NoDup (elements (Node l v r)) → height r ≤ fuel →
  ∃ nd, (store k (set_parent par) ;;;
         m <- BTREE_MIN_SUB fuel (Some k) ;;
         i <- pointee m ;;
         store i (set_left (Some j)) ;;;
         store j (set_parent (Some i))) h = Done tt (mk_heap (child h) nd) ∧
    nd !! v = Some n ∧ repr nd (Some k) par (graft_left l r) ∧
    ∀ a, a ∉ elements (Node l v r) → nd !! a = node h !! a.
Proof.
  intros l r Hn Hl Hr Hnd Hf. pose proof (NoDup_node _ _ _ Hnd) as (Hndl&Hndr&Hvl&Hvr&Hd).
  destruct (store_set_parent_root h _ _ par _ Hr Hndr) as (nd&Hst&Hr'&Hfr).
  unfold bind. rewrite Hst.
  rewrite (min_sub_refines r fuel (mk_heap (child h) nd) _ _ Hr' Hf).
  assert (∃ m, bt_min r = Some m ∧ m ∈ elements r) as (m&Hm&Hmr).
  { rewrite bt_min_head. unfold r. simpl. destruct (elements rl); set_solver. }
  rewrite Hm. cbn [pointee deref]. unfold ret.
  destruct (repr_elem _ _ _ _ m Hr' Hmr) as (nm&Hnm).
  assert (j ∈ elements l) as Hjl by (unfold l; simpl; set_solver).
  assert (repr nd (Some j) (Some v) l) as Hl'.
  { eapply repr_frame; [|exact Hl]. intros z Hz. apply Hfr. by apply Hd. }
  destruct (repr_elem _ _ _ _ j Hl' Hjl) as (nj&Hnj).
  assert (j ≠ m) as Hjm by (intros ->; by apply (Hd m)).
  rewrite (store_eq m _ (mk_heap _ nd) nm Hnm), (store_eq j _ _ nj); cbn [child node]; [|by rewrite lookup_insert_ne].
  eexists. split; [done|]. split; [|split].
  - rewrite !lookup_insert_ne by (intros ->; done). by rewrite Hfr.
  - eapply repr_graft; [exact Hr'|exact Hl'| |done..].
    by apply NoDup_remove_mid in Hnd as [? _].
  - intros a Ha. change (elements (Node l v r)) with (elements l ++ v :: elements r) in Ha.
    rewrite elem_of_app, elem_of_cons in Ha.
    rewrite !lookup_insert_ne by (intros ->; tauto). apply Hfr. tauto.
Qed.

Lemma remove_sub_refines fuel v dst h l r par :
  repr (node h) (Some v) par (Node l v r) → NoDup (elements (Node l v r)) →
  assigns dst h (elements (Node l v r)) → height r ≤ fuel →
  ∃ h0 h', assign dst (root (join l r)) h = Done tt h0 ∧
    BTREE_REMOVE_SUB fuel v dst h = Done tt h' ∧ removed h0 h' v par l r.
Proof.
  intros (_&n&Hn&Hp&Hl&Hr) Hnd Has Hf. unfold BTREE_REMOVE_SUB. unfold bind at 1.
  rewrite (load_eq _ _ _ Hn). pose proof (NoDup_node _ _ _ Hnd) as (Hndl&Hndr&Hvl&Hvr&Hd).
  destruct (Has (root (join l r))) as (h0&Ha&Hfr). exists h0.
  assert (node h0 !! v = Some n) as Hn0 by (rewrite Hfr; [done|simpl; set_solver]).
  assert (repr (node h0) (left n) (Some v) l) as Hl0.
  { eapply repr_frame; [|exact Hl]. intros; apply Hfr; simpl; set_solver. }
  assert (repr (node h0) (right n) (Some v) r) as Hr0.
  { eapply repr_frame; [|exact Hr]. intros; apply Hfr; simpl; set_solver. }
  pose proof (repr_root _ _ _ _ Hl) as Hrl. pose proof (repr_root _ _ _ _ Hr) as Hrr.
  destruct l as [|ll j lr]; [|destruct r as [|rl k rr]]; rewrite Hrl, Hrr in *;
    cbn [root join] in *.
  - unfold bind. rewrite Ha.
    destruct (store_set_parent_root h0 _ _ (parent n) _ Hr0 Hndr) as (nd&->&Hr'&Hfr').
    rewrite Hp in Hr'.
    destruct (removed_init h0 (mk_heap (child h0) nd) v n par Leaf r) as (h'&Hi&Hrm);
      [by simpl; rewrite Hfr'|done|done|done| |by exists h'].
    intros a Ha'. apply Hfr'. simpl in Ha'. set_solver.
  - unfold bind. rewrite Ha.
    destruct (store_set_parent_root h0 _ _ (parent n) _ Hl0 Hndl) as (nd&->&Hl'&Hfr').
    rewrite Hp in Hl'.
    destruct (removed_init h0 (mk_heap (child h0) nd) v n par (Node ll j lr) Leaf) as (h'&Hi&Hrm);
      [by simpl; rewrite Hfr'|done|done|done| |by exists h'].
    intros a Ha'. apply Hfr'. simpl in Ha' |- *. set_solver.
  - destruct (remove_graft fuel h0 v n (parent n) ll j lr rl k rr Hn0 Hl0 Hr0 Hnd Hf)
      as (nd&Hg&Hv&Hj&Hfr').
    cbn [graft_left root] in Ha |- *. unfold bind in Hg |- *. rewrite Ha, Hg. rewrite Hp in Hj.
    destruct (removed_init h0 (mk_heap (child h0) nd) v n par (Node ll j lr) (Node rl k rr))
      as (h'&Hi&Hrm); [done..|by exists h'].
Qed.

(** [BTREE_REMOVE] of a node below the root of a subtree. *)
Definition remove_at (fuel : nat) (var : Z) : M heap unit :=
  n <- load var ;;
  p <- pointee (parent n) ;;
  pn <- load p ;;
  if decide (left pn = Some var) then BTREE_REMOVE_SUB fuel var (LeftOf p)
  else BTREE_REMOVE_SUB fuel var (RightOf p).

Lemma assigns_side h p pn xs :
  node h !! p = Some pn → p ∉ xs →
  assigns (LeftOf p) h xs ∧ assigns (RightOf p) h xs.
Proof.
  intros Hp Hx. split; intros q; simpl; rewrite (store_eq _ _ _ _ Hp);
    eexists; (split; [done|]); intros a Ha; simpl; rewrite lookup_insert_ne; set_solver.
Qed.

Lemma remove_at_eq fuel v h n p pn :
  node h !! v = Some n → parent n = Some p → node h !! p = Some pn →
  remove_at fuel v h =
  BTREE_REMOVE_SUB fuel v (if decide (left pn = Some v) then LeftOf p else RightOf p) h.
Proof.
  intros Hn Hp Hpn. unfold remove_at, bind. rewrite (load_eq _ _ _ Hn), Hp. simpl.
  unfold ret. rewrite (load_eq _ _ _ Hpn). by case_decide.
Qed.

Definition removes_at (fuel : nat) (v : Z) (h : heap) (i : Z) (par : option Z) (t : tree Z) :=
  ∃ h', remove_at fuel v h = Done tt h' ∧ child h' = child h ∧
    repr (node h') (Some i) par (bt_remove v t) ∧
    node h' !! v = Some BTREE_NODE_INITIALIZER ∧
    ∀ a, a ∉ elements t → node h' !! a = node h !! a.

(** The removed node is the root of the left or right subtree [s] of [x]. *)
Lemma remove_child fuel h x n v l r par :
  let s := Node l v r in
  node h !! x = Some n → repr (node h) (Some v) (Some x) s → NoDup (elements s) →
  x ∉ elements s → height s ≤ fuel →
  (left n = Some v ∨ right n = Some v ∧ left n ≠ Some v) → parent n = par →
  ∃ h', remove_at fuel v h = Done tt h' ∧ child h' = child h ∧
    node h' !! x = Some (if decide (left n = Some v) then set_left (root (join l r)) n
                         else set_right (root (join l r)) n) ∧
    repr (node h') (root (join l r)) (Some x) (join l r) ∧
    node h' !! v = Some BTREE_NODE_INITIALIZER ∧
    ∀ a, a ∉ elements s → a ≠ x → node h' !! a = node h !! a.
Proof.
  intros s Hn Hs Hnd Hx Hf Hside Hpar. pose proof Hs as (_&nv&Hnv&Hpv&_).
  rewrite (remove_at_eq _ _ _ nv x n) by done.
  destruct (assigns_side h x n (elements s) Hn Hx) as [HaL HaR].
  assert (height r ≤ fuel) by (simpl in Hf; lia).
  case_decide as Hd;
    [destruct (remove_sub_refines fuel v (LeftOf x) h l r _ Hs Hnd HaL) as (h0&h'&Ha&->&Hc&Hr&Hi&Hfr)
    |destruct (remove_sub_refines fuel v (RightOf x) h l r _ Hs Hnd HaR) as (h0&h'&Ha&->&Hc&Hr&Hi&Hfr)];
    try done; simpl in Ha; rewrite (store_eq _ _ _ _ Hn) in Ha; injection Ha as <-; exists h';
    (split_and!; [done..| |done|done|]); simpl in Hfr |- *;
    [rewrite Hfr by done; by rewrite lookup_insert_eq| |
     rewrite Hfr by done; by rewrite lookup_insert_eq|];
    intros a Ha Hax; (rewrite Hfr by done); by rewrite lookup_insert_ne.
Qed.

(** Rebuilding the tree above a changed subtree: [x] keeps its other child. *)
Lemma repr_node nd x n l r par :
  nd !! x = Some n → parent n = par → repr nd (left n) (Some x) l →
  repr nd (right n) (Some x) r → repr nd (Some x) par (Node l x r).
Proof. intros. split; [done|]. by exists n. Qed.

Lemma remove_inner fuel v t : ∀ h i par,
  repr (node h) (Some i) par t → NoDup (elements t) → v ∈ elements t → v ≠ i →
  height t ≤ fuel → removes_at fuel v h i par t.
Proof.
  induction t as [|l IHl x r IHr]; intros h i par; [done|].
  intros ([= ->]&n&Hn&Hp&Hl&Hr) Hnd Hv Hvx Hf.
  pose proof (NoDup_node _ _ _ Hnd) as (Hndl&Hndr&Hxl&Hxr&Hd).
  simpl in Hv, Hf. rewrite elem_of_app, elem_of_cons in Hv.
  unfold removes_at. simpl. rewrite decide_False by done.
  pose proof (repr_root _ _ _ _ Hl) as Hrl. pose proof (repr_root _ _ _ _ Hr) as Hrr.
  destruct Hv as [Hvl|[?|Hvr]]; [|done|].
  - rewrite (bt_remove_notin v r) by (by apply Hd).
    destruct l as [|ll j lr]; [set_solver|]. cbn [root] in Hrl. rewrite Hrl in Hl.
    destruct (decide (j = v)) as [->|Hj].
    + destruct (remove_child fuel h x n v ll lr par Hn Hl Hndl Hxl ltac:(simpl in *; lia)
        (or_introl Hrl) Hp) as (h'&->&Hc&Hx&Hs&Hi&Hfr).
      rewrite decide_True in Hx by done. simpl. rewrite decide_True by done.
      exists h'. split_and!; [done..| |done|intros; apply Hfr; simpl; set_solver].
      eapply (repr_node _ _ _ _ _ _ Hx); [done|done|]. eapply repr_frame; [|exact Hr].
      intros a Ha. apply Hfr; [|set_solver]. intros Ha'. by apply (Hd a).
    + destruct (IHl h j (Some x) Hl Hndl Hvl (not_eq_sym Hj) ltac:(lia)) as (h'&->&Hc&Hs&Hi&Hfr).
      exists h'. split_and!; [done..| |done|intros; apply Hfr; set_solver].
      eapply (repr_node _ _ n); [by rewrite Hfr|done|by rewrite Hrl|].
      eapply repr_frame; [|exact Hr]. intros a Ha. apply Hfr. intros Ha'. by apply (Hd a).
  - assert (v ∉ elements l) as Hvl by (intros ?; by apply (Hd v)).
    rewrite (bt_remove_notin v l) by done.
    destruct r as [|rl j rr]; [set_solver|]. cbn [root] in Hrr. rewrite Hrr in Hr.
    destruct (decide (j = v)) as [->|Hj].
    + assert (left n ≠ Some v) as Hln.
      { rewrite Hrl. destruct l as [|a b c]; simpl; [done|]. intros [= ->]. apply Hvl. set_solver. }
      destruct (remove_child fuel h x n v rl rr par Hn Hr Hndr Hxr ltac:(simpl in *; lia)
        (or_intror (conj Hrr Hln)) Hp) as (h'&->&Hc&Hx&Hs&Hi&Hfr).
      rewrite decide_False in Hx by done. simpl. rewrite decide_True by done.
      exists h'. split_and!; [done..| |done|intros; apply Hfr; simpl; set_solver].
      eapply (repr_node _ _ _ _ _ _ Hx); [done| |done]. eapply repr_frame; [|exact Hl].
      intros a Ha. apply Hfr; [by apply Hd|set_solver].
    + destruct (IHr h j (Some x) Hr Hndr Hvr (not_eq_sym Hj) ltac:(lia)) as (h'&->&Hc&Hs&Hi&Hfr).
      exists h'. split_and!; [done..| |done|intros; apply Hfr; set_solver].
      eapply (repr_node _ _ n); [by rewrite Hfr|done| |by rewrite Hrr].
      eapply repr_frame; [|exact Hl]. intros a Ha. apply Hfr. by apply Hd.
Qed.

Lemma BTREE_REMOVE_sound fuel v h t :
  represents h t → v ∈ elements t → height t ≤ fuel →
  ∃ h', BTREE_REMOVE fuel v h = Done tt h' ∧ represents h' (bt_remove v t) ∧
    node h' !! v = Some BTREE_NODE_INITIALIZER ∧
    ∀ a, a ∉ elements t → node h' !! a = node h !! a.
Proof.
  intros [Hr Hnd] Hv Hf. unfold BTREE_REMOVE. unfold bind at 1, get.
  pose proof (repr_root _ _ _ _ Hr) as Hc. rewrite Hc in Hr |- *.
  destruct t as [|l x r]; [set_solver|]. cbn [root] in Hc, Hr |- *.
  assert (NoDup (elements (bt_remove v (Node l x r)))) as Hnd' by (by apply NoDup_remove).
  case_decide as Hx.
  - injection Hx as ->.
    destruct (remove_sub_refines fuel v RootChild h l r None Hr Hnd) as (h0&h'&Ha&->&Hc'&Hr'&Hi&Hfr).
    { intros q. by eexists. }
    { simpl in Hf. lia. }
    injection Ha as <-. exists h'. simpl in Hc'. simpl in Hnd'. rewrite decide_True in Hnd' by done.
    split_and!; [done| |done|done]. split; simpl; rewrite decide_True by done; [by rewrite Hc'|done].
  - fold (remove_at fuel v).
    destruct (remove_inner fuel v _ h x None Hr Hnd Hv ltac:(by intros ->) Hf)
      as (h'&->&Hc'&Hr'&Hi&Hfr).
    exists h'. split_and!; [done| |done|done]. split; [|done]. by rewrite Hc', Hc.
Qed.

(** * What a user of an ordered tree relies on *)

Section ordered.
Context (key : Z → Z).

(** The macro calls of the users: the argument [cmp] and [match] compare a
    key with the key of [iter]. *)
Definition find_by (fuel : nat) (k : Z) : M heap (option Z) :=
  BTREE_FIND fuel (λ i, k <? key i)%Z (λ i, k =? key i)%Z.
Definition insert_by (fuel : nat) (v : Z) : M heap unit :=
  BTREE_INSERT fuel (λ i, key v <? key i)%Z v.

(** A heap that holds the ordered set of nodes [t]: every traversal and
    search reports exactly it. *)
Definition holds (h : heap) (t : tree Z) : Prop :=
  represents h t ∧ bst key t.

Lemma holds_find h t k fuel :
  holds h t → height t ≤ fuel → find_by fuel k h = Done (find_key key k t) h.
Proof. intros [Hr _] Hf. unfold find_by. by rewrite (BTREE_FIND_refines _ _ _ _ t). Qed.

Lemma holds_foreach h t fuel depth :
  holds h t → height t ≤ depth → length (elements t) < fuel →
  BTREE_FOREACH fuel depth h = Done (elements t) h.
Proof. intros [Hr _]. by apply BTREE_FOREACH_refines. Qed.

(** C13: [BTREE_INSERT] of a detached node with a fresh key returns, leaves a
    well-linked ordered tree, and afterwards [BTREE_FIND] finds the new node
    under its key and every other key as before. *)
Theorem BTREE_INSERT_correct h t v fuel :
  holds h t → detached (node h) v → (∀ x, x ∈ elements t → key x ≠ key v) →
  height t ≤ fuel →
  ∃ h' t', insert_by fuel v h = Done tt h' ∧ holds h' t' ∧
    elements t' ≡ₚ v :: elements t ∧
    (∀ k fuel', height t' ≤ fuel' → find_by fuel' k h' =
       Done (if decide (k = key v) then Some v else find_key key k t) h').
Proof.
  intros [Hr Hb] Hd Hk Hf.
  assert (v ∉ elements t) as Hv by (intros Hv; by apply (Hk v)).
  destruct (BTREE_INSERT_refines (λ i, key v <? key i)%Z v fuel h t Hr Hv Hd Hf)
    as (h'&Hi&Hr'&_).
  assert (holds h' (insert_key key v t)) as Hh by (split; [done|by apply bst_insert]).
  exists h', (insert_key key v t). split_and!; [done|apply Hh..|apply elements_insert_perm|].
  intros k fuel' Hf'. rewrite (holds_find _ _ _ _ Hh Hf'). by rewrite find_key_insert.
Qed.

(** C20: [BTREE_REMOVE] of a node of the tree returns, resets the node's
    links, leaves a well-linked ordered tree that [BTREE_FOREACH] lists as
    before without the node, and in which [BTREE_FIND] misses the node's
    key and finds every other key as before. *)
Theorem BTREE_REMOVE_correct h t v fuel :
  holds h t → v ∈ elements t → height t ≤ fuel →
  ∃ h' t', BTREE_REMOVE fuel v h = Done tt h' ∧ holds h' t' ∧
    node h' !! v = Some BTREE_NODE_INITIALIZER ∧
    (∀ n d, height t' ≤ d → length (elements t) ≤ n →
       BTREE_FOREACH n d h' = Done (filter (λ x, x ≠ v) (elements t)) h') ∧
    (∀ k fuel', height t' ≤ fuel' → find_by fuel' k h' =
       Done (if decide (k = key v) then None else find_key key k t) h').
Proof.
  intros [Hr Hb] Hv Hf. pose proof (bst_NoDup key t Hb) as Hnd.
  destruct (BTREE_REMOVE_sound fuel v h t Hr Hv Hf) as (h'&Hrm&Hr'&Hi&_).
  assert (holds h' (bt_remove v t)) as Hh by (split; [done|by apply bst_remove]).
  exists h', (bt_remove v t). split_and!; [done|apply Hh..|done| |].
  - intros n d Hd Hn. rewrite (holds_foreach _ _ _ _ Hh Hd).
    + by rewrite elements_remove_filter.
    + rewrite <-(elements_remove_perm v t) in Hn by done. simpl in Hn. lia.
  - intros k fuel' Hf'. rewrite (holds_find _ _ _ _ Hh Hf').
    by rewrite find_key_remove by (done || by apply bst_remove).
Qed.
End ordered.

(** Three linked nodes and a detached one, keyed by address. *)
Definition example_heap : heap :=
  mk_heap (Some 20%Z) (list_to_map
    [(20%Z, mk_bnode (Some 10%Z) (Some 30%Z) None);
     (10%Z, mk_bnode None None (Some 20%Z));
     (30%Z, mk_bnode None None (Some 20%Z));
     (25%Z, mk_bnode None None None)]).
Definition example_tree : tree Z := Node (Node Leaf 10%Z Leaf) 20%Z (Node Leaf 30%Z Leaf).

Lemma example_holds : holds id example_heap example_tree.
Proof.
  split; [split|].
  - simpl. repeat first [split | eexists]; reflexivity.
  - apply bool_decide_unpack with (dec := decide _). vm_compute. exact I.
  - repeat constructor; unfold key_lt, id; lia.
Qed.

Lemma BTREE_INSERT_correct_witness :
  ∃ h' t', insert_by id 3 25%Z example_heap = Done tt h' ∧ holds id h' t' ∧
    elements t' ≡ₚ 25%Z :: elements example_tree ∧
    (∀ k fuel', height t' ≤ fuel' → find_by id fuel' k h' =
       Done (if decide (k = 25%Z) then Some 25%Z else find_key id k example_tree) h').
Proof.
  apply (BTREE_INSERT_correct id example_heap example_tree 25%Z 3 example_holds).
  - by exists (mk_bnode None None None).
  - simpl. unfold id. intros x Hx ->. set_solver.
  - simpl. lia.
Defined.

Lemma BTREE_REMOVE_correct_witness :
  ∃ h' t', BTREE_REMOVE 3 20%Z example_heap = Done tt h' ∧ holds id h' t' ∧
    node h' !! 20%Z = Some BTREE_NODE_INITIALIZER ∧
    (∀ n d, height t' ≤ d → length (elements example_tree) ≤ n →
       BTREE_FOREACH n d h' = Done (filter (λ x, x ≠ 20%Z) (elements example_tree)) h') ∧
    (∀ k fuel', height t' ≤ fuel' → find_by id fuel' k h' =
       Done (if decide (k = 20%Z) then None else find_key id k example_tree) h').
Proof.
  apply (BTREE_REMOVE_correct id example_heap example_tree 20%Z 3 example_holds).
  - simpl. set_solver.
  - simpl. lia.
Defined.
