(* ===== verification/Queue.v ===== *)
(** The queue macros of [mk/core/queue.h] on linked elements, and the proof
    that they implement lists.

    An element is named by its address; its link field holds the address of
    the next element, [None] being [NULL].  A [type **] points to a field that
    holds a link: the head's first pointer or the next pointer of an element
    ([place]).  The other components keep their queues as the lists of their
    elements; [queue_law] is what they rely on, and both kinds of tail queue
    keep it. *)

From S2P Require Import Prelude.

Local Open Scope Z_scope.
Local Open Scope c_scope.

(** The address of a field that holds a link. *)
Inductive place := Head | Next (a : Z).

(** [SLIST_ENTRY], [STAILQ_ENTRY], [TAILQ_ENTRY] *)
Record slink := mk_slink { sle_next : option Z }.
Record stlink := mk_stlink { stqe_next : option Z }.
Record tlink := mk_tlink { tqe_next : option Z; tqe_prev : place }.

(** What the three kinds of link have in common: a next pointer, and what the
    link says of the field that points to its element. *)
Class Link (N : Type) := {
  next : N → option Z;
  set_next : option Z → N → N;
  backs : place → N → Prop;
  next_set p n : next (set_next p n) = p;
  backs_set pl p n : backs pl n → backs pl (set_next p n)
}.
#[export, refine] Instance link_slink : Link slink :=
  {| next := sle_next; set_next p _ := mk_slink p; backs _ _ := True |}.
Proof. all: done. Defined.
#[export, refine] Instance link_stlink : Link stlink :=
  {| next := stqe_next; set_next p _ := mk_stlink p; backs _ _ := True |}.
Proof. all: done. Defined.
#[export, refine] Instance link_tlink : Link tlink :=
  {| next := tqe_next; set_next p n := mk_tlink p (tqe_prev n); backs pl n := tqe_prev n = pl |}.
Proof. all: done. Defined.

(** * The macros *)

Section nodes.
Context {N : Type} `{Link N}.

(** [elm->field.next], of a pointer that may be [NULL] *)
Definition get_next (p : option Z) : M (gmap Z N) (option Z) :=
  a <- deref "NULL" p ;; nd <- get ;; n <- deref "element" (nd !! a) ;; ret (next n).
Definition put_next (a : Z) (p : option Z) : M (gmap Z N) unit :=
  nd <- get ;; n <- deref "element" (nd !! a) ;; put (<[a := set_next p n]> nd).

(** [while (NEXT(curelm) != elm) curelm = NEXT(curelm);] *)
Fixpoint pred_loop (fuel : nat) (elm : Z) (curelm : option Z) : M (gmap Z N) Z :=
  match fuel with
  | O => halt OutOfFuel
  | S fuel =>
      n <- get_next curelm ;;
      if decide (n = Some elm) then deref "NULL" curelm else pred_loop fuel elm n
  end.
End nodes.

(** The loop of the [FOREACH] macros; a body that gives [Some r] leaves the
    loop. *)
Fixpoint foreach_loop {X A} (next_of : option Z → M X (option Z)) (fuel : nat) (body : Z → M X (option A))
    (var : option Z) : M X (option A) :=
  match fuel with
  | O => halt OutOfFuel
  | S fuel =>
      match var with
      | None => ret None
      | Some a =>
          r <- body a ;;
          match r with
          | Some r => ret (Some r)
          | None => n <- next_of var ;; foreach_loop next_of fuel body n
          end
      end
  end.

(** ** Singly linked lists *)

Record slist := mk_slist { slh_first : option Z; sl_nodes : gmap Z slink }.
Definition set_slh_first (p : option Z) : M slist unit := modify (λ s, mk_slist p (sl_nodes s)).
Definition on_sl {A} : M (gmap Z slink) A → M slist A := zoom sl_nodes (λ nd s, mk_slist (slh_first s) nd).

Definition SLIST_EMPTY : M slist bool := gets (λ s, bool_decide (slh_first s = None)).
Definition SLIST_FIRST : M slist (option Z) := gets slh_first.
Definition SLIST_NEXT (elm : option Z) : M slist (option Z) := on_sl (get_next elm).
Definition SLIST_FOREACH {A} (fuel : nat) (body : Z → M slist (option A)) : M slist (option A) :=
  var <- SLIST_FIRST ;; foreach_loop SLIST_NEXT fuel body var.
Definition SLIST_INIT : M slist unit := set_slh_first None.
Definition SLIST_INSERT_HEAD (elm : Z) : M slist unit :=
  f <- SLIST_FIRST ;; on_sl (put_next elm f) ;;; set_slh_first (Some elm).
Definition SLIST_REMOVE_HEAD : M slist unit :=
  f <- SLIST_FIRST ;; n <- SLIST_NEXT f ;; set_slh_first n.
Definition SLIST_REMOVE (fuel : nat) (elm : Z) : M slist unit :=
  f <- SLIST_FIRST ;;
  if decide (f = Some elm) then SLIST_REMOVE_HEAD
  else
    curelm <- on_sl (pred_loop fuel elm f) ;;
    n <- SLIST_NEXT (Some curelm) ;;
    m <- SLIST_NEXT n ;;
    on_sl (put_next curelm m).

(** ** The heads of tail queues *)

Record queue (N : Type) := mk_queue { q_first : option Z; q_last : place; q_nodes : gmap Z N }.
Arguments mk_queue {N}.
Arguments q_first {N}.
Arguments q_last {N}.
Arguments q_nodes {N}.

Section heads.
Context {N : Type} `{Link N}.

Definition set_first (p : option Z) : M (queue N) unit := modify (λ q, mk_queue p (q_last q) (q_nodes q)).
Definition set_last (pl : place) : M (queue N) unit := modify (λ q, mk_queue (q_first q) pl (q_nodes q)).
Definition on_nodes {A} : M (gmap Z N) A → M (queue N) A :=
  zoom q_nodes (λ nd q, mk_queue (q_first q) (q_last q) nd).
(** [*pl = p] *)
Definition store_at (pl : place) (p : option Z) : M (queue N) unit :=
  match pl with Head => set_first p | Next a => on_nodes (put_next a p) end.
End heads.

(** ** Singly linked tail queues *)

Notation stailq := (queue stlink).
Definition STAILQ_HEAD_INITIALIZER (nd : gmap Z stlink) : stailq := mk_queue None Head nd.
Definition STAILQ_EMPTY : M stailq bool := gets (λ q, bool_decide (q_first q = None)).
Definition STAILQ_FIRST : M stailq (option Z) := gets q_first.
Definition STAILQ_NEXT (elm : option Z) : M stailq (option Z) := on_nodes (get_next elm).
Definition STAILQ_FOREACH {A} (fuel : nat) (body : Z → M stailq (option A)) : M stailq (option A) :=
  var <- STAILQ_FIRST ;; foreach_loop STAILQ_NEXT fuel body var.
Definition STAILQ_INIT : M stailq unit := set_first None ;;; set_last Head.
Definition STAILQ_INSERT_TAIL (elm : Z) : M stailq unit :=
  on_nodes (put_next elm None) ;;;
  l <- gets q_last ;;
  store_at l (Some elm) ;;;
  set_last (Next elm).
Definition STAILQ_REMOVE_HEAD : M stailq unit :=
  f <- STAILQ_FIRST ;;
  n <- STAILQ_NEXT f ;;
  set_first n ;;;
  if decide (n = None) then set_last Head else ret tt.
Definition STAILQ_REMOVE (fuel : nat) (elm : Z) : M stailq unit :=
  f <- STAILQ_FIRST ;;
  if decide (f = Some elm) then STAILQ_REMOVE_HEAD
  else
    curelm <- on_nodes (pred_loop fuel elm f) ;;
    n <- STAILQ_NEXT (Some curelm) ;;
    m <- STAILQ_NEXT n ;;
    on_nodes (put_next curelm m) ;;;
    if decide (m = None) then set_last (Next curelm) else ret tt.

(** ** Tail queues *)

Notation tailq := (queue tlink).
Definition get_prev (a : Z) : M tailq place :=
  n <- on_nodes (nd <- get ;; deref "element" (nd !! a)) ;; ret (tqe_prev n).
Definition put_prev (a : Z) (pl : place) : M tailq unit :=
  on_nodes (nd <- get ;; n <- deref "element" (nd !! a) ;; put (<[a := mk_tlink (tqe_next n) pl]> nd)).

Definition TAILQ_HEAD_INITIALIZER (nd : gmap Z tlink) : tailq := mk_queue None Head nd.
Definition TAILQ_EMPTY : M tailq bool := gets (λ q, bool_decide (q_first q = None)).
Definition TAILQ_FIRST : M tailq (option Z) := gets q_first.
Definition TAILQ_NEXT (elm : option Z) : M tailq (option Z) := on_nodes (get_next elm).
Definition TAILQ_FOREACH {A} (fuel : nat) (body : Z → M tailq (option A)) : M tailq (option A) :=
  var <- TAILQ_FIRST ;; foreach_loop TAILQ_NEXT fuel body var.
Definition TAILQ_INIT : M tailq unit := set_first None ;;; set_last Head.
Definition TAILQ_INSERT_HEAD (elm : Z) : M tailq unit :=
  f <- TAILQ_FIRST ;;
  on_nodes (put_next elm f) ;;;
  match f with Some b => put_prev b (Next elm) | None => set_last (Next elm) end ;;;
  set_first (Some elm) ;;;
  put_prev elm Head.
Definition TAILQ_INSERT_TAIL (elm : Z) : M tailq unit :=
  on_nodes (put_next elm None) ;;;
  l <- gets q_last ;;
  put_prev elm l ;;;
  l <- gets q_last ;;
  store_at l (Some elm) ;;;
  set_last (Next elm).
Definition TAILQ_REMOVE (elm : Z) : M tailq unit :=
  n <- TAILQ_NEXT (Some elm) ;;
  pl <- get_prev elm ;;
  match n with Some b => put_prev b pl | None => set_last pl end ;;;
  pl <- get_prev elm ;;
  n <- TAILQ_NEXT (Some elm) ;;
  store_at pl n.

(** * Lists in memory *)

Section seg.
Context {N : Type} `{Link N}.
Implicit Types nd : gmap Z N.

(** From the field [pl], which holds [p], links lead through the elements [l]
    to the field [pl'], which holds [p']. *)
Fixpoint seg nd (p : option Z) (pl : place) (l : list Z) (p' : option Z) (pl' : place) : Prop :=
  match l with
  | [] => p = p' ∧ pl = pl'
  | a :: l => p = Some a ∧ ∃ n, nd !! a = Some n ∧ backs pl n ∧ seg nd (next n) (Next a) l p' pl'
  end.

(** [nd'] differs from [nd] in the links of [l] only. *)
Definition only (l : list Z) nd nd' : Prop :=
  (∀ a, a ∉ l → nd' !! a = nd !! a) ∧ (∀ a, is_Some (nd !! a) ↔ is_Some (nd' !! a)).

Lemma only_refl l nd : only l nd nd.
Proof. done. Qed.
Lemma only_trans l nd nd1 nd2 : only l nd nd1 → only l nd1 nd2 → only l nd nd2.
Proof. intros [A1 A2] [B1 B2]. split; [intros a Ha; by rewrite B1, A1|intros a; by rewrite A2]. Qed.
Lemma only_mono l l' nd nd' : l ⊆ l' → only l nd nd' → only l' nd nd'.
Proof. intros Hl [A1 A2]. split; [|done]. intros a Ha. apply A1. auto. Qed.
Lemma only_insert a n n' nd : nd !! a = Some n → only [a] nd (<[a := n']> nd).
Proof.
  intros Ha. split; intros b.
  - intros Hb%not_elem_of_cons. rewrite lookup_insert_ne; [done|]. by intros ->; destruct Hb.
  - destruct (decide (a = b)) as [<-|?]; [rewrite lookup_insert_eq, Ha|by rewrite lookup_insert_ne].
    by split; intros _; eexists.
Qed.

Lemma seg_frame nd nd' l : ∀ p pl p' pl',
  (∀ a, a ∈ l → nd' !! a = nd !! a) → seg nd p pl l p' pl' → seg nd' p pl l p' pl'.
Proof.
  induction l as [|a l IH]; intros p pl p' pl' Hf; [done|]. intros (->&n&Hn&Hb&Hs). split; [done|].
  exists n. rewrite Hf by (by left). split_and!; [done|done|]. apply IH; [|done]. intros b Hb2. apply Hf. by right.
Qed.
Lemma seg_only nd nd' k l p pl p' pl' :
  only k nd nd' → k ## l → seg nd p pl l p' pl' → seg nd' p pl l p' pl'.
Proof. intros [Ho _] Hd. apply seg_frame. intros a Ha. apply Ho. intros Hk. by destruct (Hd a). Qed.

Lemma seg_app nd l1 l2 : ∀ p pl p' pl',
  seg nd p pl (l1 ++ l2) p' pl' ↔ ∃ m ml, seg nd p pl l1 m ml ∧ seg nd m ml l2 p' pl'.
Proof.
  induction l1 as [|a l1 IH]; intros p pl p' pl'; cbn [app seg].
  - split; [by exists p, pl|]. by intros (m&ml&[-> ->]&?).
  - split.
    + intros (->&n&Hn&Hb&(m&ml&H1&H2)%IH). exists m, ml. split; [|done]. split; [done|]. by exists n.
    + intros (m&ml&(->&n&Hn&Hb&H1)&H2). split; [done|]. exists n. split_and!; [done|done|]. apply IH. by exists m, ml.
Qed.

Lemma seg_in nd l : ∀ p pl p' pl' a, seg nd p pl l p' pl' → a ∈ l → is_Some (nd !! a).
Proof.
  induction l as [|b l IH]; intros p pl p' pl' a Hs Ha; [by apply elem_of_nil in Ha|].
  destruct Hs as (->&n&Hn&_&Hs). apply elem_of_cons in Ha as [->|Ha]; [by exists n|by eapply IH].
Qed.

(** The first of a list, and the field before its end. *)
Lemma seg_first nd l p pl p' pl' : seg nd p pl l p' pl' → p = match l with [] => p' | a :: _ => Some a end.
Proof. destruct l as [|a l]; [by intros [? ?]|by intros [? _]]. Qed.
Lemma seg_last nd l a p pl p' pl' : seg nd p pl (l ++ [a]) p' pl' → pl' = Next a.
Proof. intros (m&ml&_&(_&n&_&_&[_ <-]))%seg_app. done. Qed.
Lemma seg_null nd l p pl pl' : seg nd p pl l None pl' → (p = None ↔ l = []).
Proof. intros ->%seg_first. by destruct l. Qed.

(** Writing the field at the end of a list. *)
Lemma seg_set_last nd l a p pl p' v n :
  seg nd p pl (l ++ [a]) p' (Next a) → a ∉ l → nd !! a = Some n →
  seg (<[a := set_next v n]> nd) p pl (l ++ [a]) v (Next a).
Proof.
  intros (m&ml&H1&(->&n'&Hn'&Hb&_))%seg_app Ha Hn. assert (n' = n) as -> by congruence. apply seg_app. exists (Some a), ml. split.
  - apply (seg_only nd _ [a]); [by eapply only_insert| |done].
    intros b ->%list_elem_of_singleton ?. done.
  - split; [done|]. exists (set_next v n). rewrite lookup_insert_eq, next_set. split_and!; try done. by apply backs_set.
Qed.

(** ** Running the operations on links *)

Lemma wp_get_next nd a n (Q : option Z → gmap Z N → Prop) :
  nd !! a = Some n → Q (next n) nd → wp (get_next (Some a)) Q never nd.
Proof. intros Hn HQ. unfold wp, get_next, bind, get, deref, ret. by rewrite Hn. Qed.
Lemma wp_put_next nd a n p (Q : unit → gmap Z N → Prop) :
  nd !! a = Some n → Q tt (<[a := set_next p n]> nd) → wp (put_next a p) Q never nd.
Proof. intros Hn HQ. unfold wp, put_next, bind, get, deref, ret, put. by rewrite Hn. Qed.

Lemma pred_loop_ok nd elm b l : ∀ fuel p pl,
  seg nd p pl (l ++ [b]) (Some elm) (Next b) → elm ∉ l ++ [b] → (length l < fuel)%nat →
  pred_loop fuel elm p nd = Done b nd.
Proof.
  induction l as [|a l IH]; intros fuel p pl Hs He Hf; (destruct fuel as [|fuel]; [simpl in Hf; lia|]);
    destruct Hs as (->&n&Hn&_&Hs); cbn [pred_loop]; unfold bind at 1, get_next, bind, get, deref, ret; rewrite Hn.
  - destruct Hs as [-> _]. by rewrite decide_True.
  - fold (app l [b]) in Hs. rewrite decide_False; [apply (IH _ _ (Next a)); [done|set_solver|simpl in Hf; lia]|].
    intros E. pose proof (seg_first _ _ _ _ _ _ Hs) as E2. rewrite E in E2. destruct l as [|c l]; simpl in E2; simplify_eq.
    + apply He. by right; left.
    + apply He. by right; left.
Qed.
Lemma pred_loop_null nd elm l : ∀ fuel p pl pl',
  seg nd p pl l None pl' → elm ∉ l → (length l < fuel)%nat → pred_loop fuel elm p nd = Stop (Undefined "NULL").
Proof.
  induction l as [|a l IH]; intros fuel p pl pl' Hs He Hf; (destruct fuel as [|fuel]; [simpl in Hf; lia|]).
  - by destruct Hs as [-> _].
  - destruct Hs as (->&n&Hn&_&Hs). cbn [pred_loop]; unfold bind at 1, get_next, bind, get, deref, ret; rewrite Hn.
    rewrite decide_False; [apply (IH _ _ (Next a) pl'); [done|set_solver|simpl in Hf; lia]|].
    intros E. pose proof (seg_first _ _ _ _ _ _ Hs) as E2. rewrite E in E2. destruct l as [|c l]; simplify_eq.
    apply He. by right; left.
Qed.

(** The loop of [FOREACH] over a body that leaves the state as it is. *)
Lemma foreach_loop_ok {X A} (nodes_of : X → gmap Z N) (next_of : option Z → M X (option Z))
    (body : Z → M X (option A)) (f : Z → option A) (x : X) l : ∀ fuel p pl pl',
  (∀ a n, nodes_of x !! a = Some n → next_of (Some a) x = Done (next n) x) →
  (∀ a, a ∈ l → body a x = Done (f a) x) →
  seg (nodes_of x) p pl l None pl' → (length l < fuel)%nat →
  foreach_loop next_of fuel body p x = Done (head (omap f l)) x.
Proof.
  induction l as [|a l IH]; intros fuel p pl pl' Hnext Hb Hs Hf; (destruct fuel as [|fuel]; [simpl in Hf; lia|]).
  - by destruct Hs as [-> _].
  - destruct Hs as (->&n&Hn&_&Hs). cbn [foreach_loop]. unfold bind at 1. rewrite (Hb a) by (by left).
    cbn [omap list_omap]. destruct (f a) as [r|]; [done|]. unfold bind at 1. rewrite (Hnext a n Hn).
    apply (IH _ _ (Next a) pl'); [done| |done|simpl in Hf; lia]. intros b Hb2. apply Hb. by right.
Qed.

(** Links that do not point back. *)
Class Singly := backs_any : ∀ pl n, backs pl n.

Lemma seg_place `{Singly} nd l p pl pl2 p' pl' :
  seg nd p pl l p' pl' → seg nd p pl2 l p' (match l with [] => pl2 | _ => pl' end).
Proof.
  destruct l as [|a l]; [by intros [-> _]|]. intros (->&n&Hn&_&Hs). split; [done|]. exists n.
  split_and!; [done|apply backs_any|done].
Qed.

(** An element taken out of the middle of a list. *)
Lemma unlink_ok `{Singly} nd p pl k b elm l pl' :
  NoDup (k ++ [b] ++ elm :: l) → seg nd p pl (k ++ [b] ++ elm :: l) None pl' →
  ∃ nb n, nd !! b = Some nb ∧ next nb = Some elm ∧ nd !! elm = Some n ∧ (next n = None ↔ l = []) ∧
    p ≠ Some elm ∧
    (∀ fuel, (length k < fuel)%nat → pred_loop fuel elm p nd = Done b nd) ∧
    seg (<[b := set_next (next n) nb]> nd) p pl (k ++ [b] ++ l) None (match l with [] => Next b | _ => pl' end).
Proof.
  intros Hd Hs. rewrite app_assoc in Hd, Hs. pose proof Hd as (Hd1&Hd2&Hd3%NoDup_cons)%NoDup_app.
  destruct Hd3 as [He Hd3]. apply seg_app in Hs as (m&ml&H1&H2).
  pose proof (seg_last _ _ _ _ _ _ _ H1) as ->. destruct H2 as (->&n&Hn&Hb&H2).
  pose proof H1 as (m1&ml1&H11&(->&nb&Hnb&_&[Hnext _]))%seg_app.
  assert (elm ∉ k ++ [b]) as Hek by (intros Hk; eapply Hd2; [done|by left]).
  apply NoDup_app in Hd1 as (_&Hbk&_).
  exists nb, n. split_and!; try done.
  - by eapply seg_null.
  - intros ->. apply seg_first in H1. destruct k as [|c k]; simpl in H1; simplify_eq; by apply Hek; left.
  - intros fuel Hf. by eapply pred_loop_ok.
  - rewrite app_assoc. apply seg_app. exists (next n), (Next b). split.
    + apply (seg_set_last nd k b p pl (Some elm)); [done| |done]. intros Hk. apply (Hbk b Hk). by left.
    + apply (seg_place _ _ _ (Next elm)). apply (seg_only nd _ [b]); [by eapply only_insert| |done].
      intros c ->%list_elem_of_singleton Hc. eapply Hd2; [|right; exact Hc]. apply elem_of_app. right. by left.
Qed.
End seg.

#[export] Instance singly_slink : Singly (N := slink).
Proof. done. Qed.
#[export] Instance singly_stlink : Singly (N := stlink).
Proof. done. Qed.

(** The list without an element. *)
Definition without (a : Z) (l : list Z) : list Z := filter (λ t, t ≠ a) l.
Lemma without_notin a l : a ∉ l → without a l = l.
Proof.
  induction l as [|b l IH]; intros Ha; [done|]. apply not_elem_of_cons in Ha as [Hb Ha].
  unfold without in *. rewrite filter_cons_True by done. by rewrite IH.
Qed.
Lemma without_app l1 a l2 : NoDup (l1 ++ a :: l2) → without a (l1 ++ a :: l2) = l1 ++ l2.
Proof.
  intros (_&Hd&[Ha _]%NoDup_cons)%NoDup_app. unfold without. rewrite filter_app, filter_cons_False by (intros E; by apply E).
  fold (without a l1) (without a l2).
  rewrite (without_notin a l2 Ha), (without_notin a l1); [done|]. intros H1. apply (Hd a H1). by left.
Qed.

Lemma NoDup_without l1 (a : Z) l2 : NoDup (l1 ++ a :: l2) → NoDup (l1 ++ l2).
Proof. intros Hd. rewrite <-(without_app _ a) by done. by apply NoDup_filter. Qed.

Lemma wp_on_sl {A} (m : M (gmap Z slink) A) (Q : A → slist → Prop) E s :
  wp m (λ a nd, Q a (mk_slist (slh_first s) nd)) E (sl_nodes s) → wp (on_sl m) Q E s.
Proof. intros. unfold on_sl. by rewrite wp_zoom. Qed.
Lemma wp_on_nodes {N A} (m : M (gmap Z N) A) (Q : A → queue N → Prop) E q :
  wp m (λ a nd, Q a (mk_queue (q_first q) (q_last q) nd)) E (q_nodes q) → wp (on_nodes m) Q E q.
Proof. intros. unfold on_nodes. by rewrite wp_zoom. Qed.

(** ** Singly linked lists *)

Definition slist_rep (s : slist) (l : list Z) : Prop :=
  NoDup l ∧ ∃ pl, seg (sl_nodes s) (slh_first s) Head l None pl.

Lemma slist_insert_head s l a :
  slist_rep s l → a ∉ l → is_Some (sl_nodes s !! a) →
  wp (SLIST_INSERT_HEAD a) (λ _ s', slist_rep s' (a :: l) ∧ only [a] (sl_nodes s) (sl_nodes s')) never s.
Proof.
  intros [Hd [pl Hs]] Ha [n Hn]. unfold SLIST_INSERT_HEAD, SLIST_FIRST, set_slh_first. rewrite wp_bind, wp_gets, wp_bind.
  apply wp_on_sl. eapply wp_put_next; [done|]. rewrite wp_modify. pose proof (only_insert a n (set_next (slh_first s) n) _ Hn) as Ho.
  split; [|done]. split; [by constructor|]. eexists. split; [done|]. eexists. cbn [sl_nodes].
  rewrite lookup_insert_eq, next_set. split_and!; [done|done|]. apply (seg_place _ _ _ Head).
  apply (seg_only (sl_nodes s) _ [a]); [done| |done]. by intros b ->%list_elem_of_singleton.
Qed.

Lemma slist_remove_head s a l :
  slist_rep s (a :: l) → wp SLIST_REMOVE_HEAD (λ _ s', slist_rep s' l ∧ sl_nodes s' = sl_nodes s) never s.
Proof.
  intros [Hd [pl (Hf&n&Hn&_&Hs)]]. apply NoDup_cons in Hd as [_ Hd].
  unfold SLIST_REMOVE_HEAD, SLIST_FIRST, SLIST_NEXT, set_slh_first. rewrite wp_bind, wp_gets, wp_bind, Hf. apply wp_on_sl.
  eapply wp_get_next; [done|]. rewrite wp_modify. split; [|done]. split; [done|]. eexists. by eapply (seg_place _ _ _ (Next a)).
Qed.

Lemma slist_remove s l a fuel :
  slist_rep s l → a ∈ l → (length l < fuel)%nat →
  wp (SLIST_REMOVE fuel a) (λ _ s', slist_rep s' (without a l) ∧ only l (sl_nodes s) (sl_nodes s')) never s.
Proof.
  intros Hr (l1&l2&->)%list_elem_of_split Hf. pose proof (proj1 Hr) as Hd. rewrite without_app by done.
  unfold SLIST_REMOVE, SLIST_FIRST at 1. rewrite wp_bind, wp_gets. destruct l1 as [|b l1 _] using rev_ind.
  - destruct (proj2 Hr) as [pl [Hp _]]. rewrite decide_True by done.
    eapply wp_mono; [by apply (slist_remove_head s a l2)| |done]. by intros [] s' [? ->].
  - destruct Hr as [_ [pl Hs]]. rewrite <-(assoc_L app) in Hd, Hs |- *.
    destruct (unlink_ok _ _ _ _ _ _ _ _ Hd Hs) as (nb&n&Hnb&Hnx&Hn&_&Hp&Hloop&Hs').
    rewrite decide_False by done. rewrite wp_bind. apply wp_on_sl. rewrite !length_app in Hf. unfold wp at 1.
    rewrite Hloop by lia. rewrite wp_bind. apply wp_on_sl. eapply wp_get_next; [done|]. rewrite Hnx, wp_bind.
    apply wp_on_sl. eapply wp_get_next; [done|]. apply wp_on_sl. eapply wp_put_next; [done|]. split; [split; [|by eexists]|].
    + rewrite (assoc_L app) in Hd |- *. by eapply NoDup_without.
    + eapply (only_mono [b]); [set_solver|]. by eapply only_insert.
Qed.

(** ** Tail queues of both kinds *)

Section rep.
Context {N : Type} `{Link N}.
Implicit Types q : queue N.

Definition queue_rep q (l : list Z) : Prop :=
  NoDup l ∧ seg (q_nodes q) (q_first q) Head l None (q_last q).

Lemma queue_rep_first q l : queue_rep q l → q_first q = head l.
Proof. intros [_ Hs]. rewrite (seg_first _ _ _ _ _ _ Hs). by destruct l. Qed.
Lemma queue_rep_empty q l : queue_rep q l → bool_decide (q_first q = None) = bool_decide (l = []).
Proof. intros Hr. rewrite (queue_rep_first q l Hr). apply bool_decide_ext. by destruct l. Qed.
Lemma queue_rep_nil nd : queue_rep (mk_queue None Head nd) [].
Proof. split; [constructor|done]. Qed.

(** Writing the field a list ends in. *)
Lemma wp_store_at q l p v pl (Q : unit → queue N → Prop) :
  NoDup l → seg (q_nodes q) (q_first q) Head l p pl →
  (∀ q', seg (q_nodes q') (q_first q') Head l v pl → q_last q' = q_last q → only l (q_nodes q) (q_nodes q') → Q tt q') →
  wp (store_at pl v) Q never q.
Proof.
  intros Hd Hs HQ. destruct l as [|b l _] using rev_ind.
  - destruct Hs as [_ <-]. unfold store_at, set_first. rewrite wp_modify. by apply HQ.
  - pose proof (seg_last _ _ _ _ _ _ _ Hs) as ->. pose proof Hs as (m&ml&_&(_&n&Hn&_))%seg_app. cbn [store_at].
    apply wp_on_nodes. eapply wp_put_next; [done|]. apply NoDup_app in Hd as (_&Hb&_). apply HQ; [|done|].
    + eapply seg_set_last; [done| |done]. intros Hl. apply (Hb b Hl). by left.
    + eapply (only_mono [b]); [set_solver|]. by eapply only_insert.
Qed.

(** The loop of [FOREACH]. *)
Lemma queue_foreach_ok {A} (next_of : option Z → M (queue N) (option Z)) body (f : Z → option A) fuel q l :
  (∀ a, next_of a = on_nodes (get_next a)) →
  queue_rep q l → (length l < fuel)%nat → (∀ a, a ∈ l → body a q = Done (f a) q) →
  foreach_loop next_of fuel body (q_first q) q = Done (head (omap f l)) q.
Proof.
  intros Hnext [_ Hs] Hf Hb. apply (foreach_loop_ok q_nodes next_of body f q l fuel _ Head (q_last q)); [|done..].
  intros a n Hn. rewrite Hnext. unfold on_nodes, zoom, get_next, bind, deref, get, ret. rewrite Hn. by destruct q.
Qed.
End rep.

(** What the users of tail queues call. *)
Class LinkedQueue (N : Type) := {
  lq_init : M (queue N) unit;
  lq_empty : M (queue N) bool;
  lq_first : M (queue N) (option Z);
  lq_foreach {A} : nat → (Z → M (queue N) (option A)) → M (queue N) (option A);
  lq_insert_tail : Z → M (queue N) unit;
  lq_remove : nat → Z → M (queue N) unit
}.
#[export] Instance lq_stailq : LinkedQueue stlink := {|
  lq_init := STAILQ_INIT; lq_empty := STAILQ_EMPTY; lq_first := STAILQ_FIRST; lq_foreach A := STAILQ_FOREACH;
  lq_insert_tail := STAILQ_INSERT_TAIL; lq_remove := STAILQ_REMOVE
|}.
#[export] Instance lq_tailq : LinkedQueue tlink := {|
  lq_init := TAILQ_INIT; lq_empty := TAILQ_EMPTY; lq_first := TAILQ_FIRST; lq_foreach A := TAILQ_FOREACH;
  lq_insert_tail := TAILQ_INSERT_TAIL; lq_remove _ := TAILQ_REMOVE
|}.

(** A queue is the list of its elements: each operation does to the list what
    its name says, and changes no link but those of the list and of the
    element put into it. *)
Record queue_law (N : Type) `{Link N} `{LinkedQueue N} : Prop := {
  law_init (q : queue N) : wp lq_init (λ _ q', queue_rep q' [] ∧ q_nodes q' = q_nodes q) never q;
  law_empty (q : queue N) l : queue_rep q l → lq_empty q = Done (bool_decide (l = [])) q;
  law_first (q : queue N) l : queue_rep q l → lq_first q = Done (head l) q;
  law_foreach {A} (q : queue N) l fuel body (f : Z → option A) :
    queue_rep q l → (length l < fuel)%nat → (∀ a, a ∈ l → body a q = Done (f a) q) →
    lq_foreach fuel body q = Done (head (omap f l)) q;
  law_insert_tail (q : queue N) l a : queue_rep q l → a ∉ l → is_Some (q_nodes q !! a) →
    wp (lq_insert_tail a) (λ _ q', queue_rep q' (l ++ [a]) ∧ only (a :: l) (q_nodes q) (q_nodes q')) never q;
  law_remove (q : queue N) l a fuel : queue_rep q l → a ∈ l → (length l < fuel)%nat →
    wp (lq_remove fuel a) (λ _ q', queue_rep q' (without a l) ∧ only l (q_nodes q) (q_nodes q')) never q
}.

(** ** Singly linked tail queues *)

Lemma stailq_remove_head (q : stailq) a l :
  queue_rep q (a :: l) → wp STAILQ_REMOVE_HEAD (λ _ q', queue_rep q' l ∧ q_nodes q' = q_nodes q) never q.
Proof.
  intros [Hd (Hf&n&Hn&_&Hs)]. apply NoDup_cons in Hd as [_ Hd].
  unfold STAILQ_REMOVE_HEAD, STAILQ_FIRST, STAILQ_NEXT, set_first, set_last. rewrite wp_bind, wp_gets, wp_bind, Hf. apply wp_on_nodes.
  eapply wp_get_next; [done|]. rewrite wp_bind, wp_modify. cbn [q_last q_nodes].
  pose proof (seg_null _ _ _ _ _ Hs) as Hnil. apply (seg_place _ _ _ (Next a) Head) in Hs.
  case_decide as E; [rewrite wp_modify|rewrite wp_ret]; (split; [|done]); (split; [done|]); cbn [q_last q_nodes q_first].
  - apply Hnil in E as ->. exact Hs.
  - destruct l as [|b l]; [by destruct E; apply Hnil|exact Hs].
Qed.

Lemma stailq_remove (q : stailq) l a fuel :
  queue_rep q l → a ∈ l → (length l < fuel)%nat →
  wp (STAILQ_REMOVE fuel a) (λ _ q', queue_rep q' (without a l) ∧ only l (q_nodes q) (q_nodes q')) never q.
Proof.
  intros Hr (l1&l2&->)%list_elem_of_split Hf. pose proof (proj1 Hr) as Hd. rewrite without_app by done.
  unfold STAILQ_REMOVE, STAILQ_FIRST at 1. rewrite wp_bind, wp_gets. destruct l1 as [|b l1 _] using rev_ind.
  - destruct (proj2 Hr) as [Hp _]. rewrite decide_True by done.
    eapply wp_mono; [by apply (stailq_remove_head q a l2)| |done]. by intros [] q' [? ->].
  - destruct Hr as [_ Hs]. rewrite <-(assoc_L app) in Hd, Hs |- *.
    destruct (unlink_ok _ _ _ _ _ _ _ _ Hd Hs) as (nb&n&Hnb&Hnx&Hn&Hnil&Hp&Hloop&Hs').
    rewrite decide_False by done. rewrite wp_bind. apply wp_on_nodes. rewrite !length_app in Hf. unfold wp at 1.
    rewrite Hloop by lia. rewrite wp_bind. apply wp_on_nodes. eapply wp_get_next; [done|]. rewrite Hnx, wp_bind.
    apply wp_on_nodes. eapply wp_get_next; [done|]. rewrite wp_bind. apply wp_on_nodes. eapply wp_put_next; [done|].
    assert (NoDup (l1 ++ [b] ++ l2)) as Hd' by (rewrite (assoc_L app) in Hd |- *; by eapply NoDup_without).
    assert (only ((l1 ++ [b]) ++ a :: l2) (q_nodes q) (<[b:=set_next (next n) nb]> (q_nodes q))) as Ho
      by (eapply (only_mono [b]); [set_solver|by eapply only_insert]).
    unfold set_last. case_decide as E; [rewrite wp_modify|rewrite wp_ret]; (split; [|done]); (split; [done|]); cbn [q_last q_nodes q_first].
    + apply Hnil in E as ->. exact Hs'.
    + destruct l2 as [|c l2]; [by destruct E; apply Hnil|exact Hs'].
Qed.

Lemma stailq_insert_tail (q : stailq) l a : queue_rep q l → a ∉ l → is_Some (q_nodes q !! a) →
  wp (STAILQ_INSERT_TAIL a) (λ _ q', queue_rep q' (l ++ [a]) ∧ only (a :: l) (q_nodes q) (q_nodes q')) never q.
Proof.
  intros [Hd Hs] Ha [n Hn]. unfold STAILQ_INSERT_TAIL, set_last. rewrite wp_bind. apply wp_on_nodes. eapply wp_put_next; [done|].
  rewrite wp_bind, wp_gets, wp_bind. cbn [q_last]. pose proof (only_insert a n (set_next None n) _ Hn) as Ho.
  apply (wp_store_at _ l None); [done|cbn [q_nodes q_first]; apply (seg_only (q_nodes q) _ [a]); [done| |done]|].
  { by intros b ->%list_elem_of_singleton. }
  intros q' Hs' _ Ho'. cbn [q_nodes] in Ho'. rewrite wp_modify. cbn [q_first q_nodes]. split; [split|].
  - apply NoDup_app. split_and!; [done| |apply NoDup_singleton]. by intros b Hb ->%list_elem_of_singleton.
  - apply seg_app. exists (Some a), (q_last q). split; [done|]. split; [done|]. eexists.
    rewrite (proj1 Ho') by done. rewrite lookup_insert_eq. by split_and!.
  - eapply only_trans; [eapply (only_mono [a])|eapply (only_mono l)]; [set_solver|done|set_solver|done].
Qed.

Lemma stailq_law : queue_law stlink.
Proof.
  split.
  - intros q. cbn [lq_init lq_stailq]. unfold STAILQ_INIT, set_first, set_last. rewrite wp_bind, !wp_modify.
    split; [apply queue_rep_nil|done].
  - intros q l Hr. cbn. unfold STAILQ_EMPTY, gets. by rewrite (queue_rep_empty q l).
  - intros q l Hr. cbn. unfold STAILQ_FIRST, gets. by rewrite (queue_rep_first q l).
  - intros A q l fuel body f Hr Hf Hb. by apply (queue_foreach_ok STAILQ_NEXT body f fuel q l).
  - apply stailq_insert_tail.
  - apply stailq_remove.
Qed.

(** ** Tail queues *)

Lemma wp_put_prev (q : tailq) a n pl (Q : unit → tailq → Prop) :
  q_nodes q !! a = Some n →
  Q tt (mk_queue (q_first q) (q_last q) (<[a := mk_tlink (tqe_next n) pl]> (q_nodes q))) →
  wp (put_prev a pl) Q never q.
Proof.
  intros Hn HQ. unfold put_prev. apply wp_on_nodes. unfold wp, bind, get, deref, ret, put. by rewrite Hn.
Qed.
Lemma wp_get_prev (q : tailq) a n (Q : place → tailq → Prop) :
  q_nodes q !! a = Some n → Q (tqe_prev n) q → wp (get_prev a) Q never q.
Proof.
  intros Hn HQ. unfold get_prev. rewrite wp_bind. apply wp_on_nodes. rewrite wp_bind, wp_get, wp_deref.
  rewrite Hn, wp_ret. by destruct q.
Qed.

(** The rest of a queue is given a new field before it: its first element
    points back to it, or the head's last pointer if there is none. *)
Lemma wp_relink (q : tailq) p pl pl2 l (Q : unit → tailq → Prop) :
  NoDup l → seg (q_nodes q) p pl l None (q_last q) →
  (∀ q', seg (q_nodes q') p pl2 l None (q_last q') → q_first q' = q_first q → only l (q_nodes q) (q_nodes q') → Q tt q') →
  wp (match p with Some b => put_prev b pl2 | None => set_last pl2 end) Q never q.
Proof.
  intros Hd Hs HQ. pose proof (seg_first _ _ _ _ _ _ Hs) as Hp. destruct l as [|b l]; subst p.
  - unfold set_last. rewrite wp_modify. by apply HQ.
  - destruct Hs as (_&n&Hn&_&Hs). apply NoDup_cons in Hd as [Hb Hd]. eapply wp_put_prev; [done|].
    pose proof (only_insert b n (mk_tlink (tqe_next n) pl2) _ Hn) as Ho. apply HQ; [|done|].
    + split; [done|]. eexists. cbn [q_nodes]. rewrite lookup_insert_eq. split_and!; [done|done|].
      apply (seg_only (q_nodes q) _ [b]); [done| |done]. by intros c ->%list_elem_of_singleton.
    + eapply (only_mono [b]); [set_solver|done].
Qed.

Lemma tailq_remove (q : tailq) l a :
  queue_rep q l → a ∈ l →
  wp (TAILQ_REMOVE a) (λ _ q', queue_rep q' (without a l) ∧ only l (q_nodes q) (q_nodes q')) never q.
Proof.
  intros [Hd Hs] (l1&l2&->)%list_elem_of_split. rewrite without_app by done.
  pose proof (NoDup_without _ _ _ Hd) as Hd12. pose proof Hd as (Hd1&Hdis&[Ha Hd2]%NoDup_cons)%NoDup_app.
  apply seg_app in Hs as (m&ml&Hs1&(->&n&Hn&Hb&Hs2)). cbn [backs link_tlink] in Hb.
  unfold TAILQ_REMOVE, TAILQ_NEXT. rewrite wp_bind. apply wp_on_nodes. eapply wp_get_next; [done|].
  rewrite wp_bind. eapply wp_get_prev; [done|]. rewrite wp_bind, Hb.
  apply (wp_relink _ _ (Next a) ml l2); [done|done|]. intros q1 Hr2 Hf1 Ho1. cbn [q_nodes q_first] in Hf1, Ho1.
  assert (q_nodes q1 !! a = Some n) as Hn1 by (by rewrite (proj1 Ho1)).
  rewrite wp_bind. eapply wp_get_prev; [done|]. rewrite wp_bind. apply wp_on_nodes. eapply wp_get_next; [done|]. rewrite Hb.
  apply (wp_store_at _ l1 (Some a)); [done| |].
  { cbn [q_nodes q_first]. rewrite Hf1. apply (seg_only (q_nodes q) _ l2); [done| |done].
    intros c Hc2 Hc1. apply (Hdis c Hc1). by right. }
  intros q2 Hr1 Hl Ho2. cbn [q_nodes q_last] in Hl, Ho2. split.
  - split; [done|]. apply seg_app. exists (next n), ml. split; [done|]. rewrite Hl.
    apply (seg_only (q_nodes q1) _ l1); [done| |done]. intros c Hc1 Hc2. apply (Hdis c Hc1). by right.
  - eapply only_trans; [eapply (only_mono l2)|eapply (only_mono l1)]; [set_solver|done|set_solver|done].
Qed.

Lemma tailq_insert_tail (q : tailq) l a : queue_rep q l → a ∉ l → is_Some (q_nodes q !! a) →
  wp (TAILQ_INSERT_TAIL a) (λ _ q', queue_rep q' (l ++ [a]) ∧ only (a :: l) (q_nodes q) (q_nodes q')) never q.
Proof.
  intros [Hd Hs] Ha [n Hn]. unfold TAILQ_INSERT_TAIL, set_last. rewrite wp_bind. apply wp_on_nodes. eapply wp_put_next; [done|].
  rewrite wp_bind, wp_gets, wp_bind. eapply wp_put_prev; [apply lookup_insert_eq|]. cbn [q_last q_first q_nodes].
  rewrite wp_bind, wp_gets, wp_bind. cbn [q_last]. rewrite insert_insert_eq.
  set (n2 := mk_tlink _ (q_last q)). pose proof (only_insert a n n2 _ Hn) as Ho.
  apply (wp_store_at _ l None); [done|cbn [q_nodes q_first]; apply (seg_only (q_nodes q) _ [a]); [done| |done]|].
  { by intros b ->%list_elem_of_singleton. }
  intros q' Hs' _ Ho'. cbn [q_nodes] in Ho'. rewrite wp_modify. cbn [q_first q_nodes]. split; [split|].
  - apply NoDup_app. split_and!; [done| |apply NoDup_singleton]. by intros b Hb ->%list_elem_of_singleton.
  - apply seg_app. exists (Some a), (q_last q). split; [done|]. split; [done|]. exists n2.
    rewrite (proj1 Ho') by done. cbn [q_nodes]. rewrite lookup_insert_eq. by split_and!.
  - eapply only_trans; [eapply (only_mono [a])|eapply (only_mono l)]; [set_solver|done|set_solver|done].
Qed.

Lemma tailq_insert_head (q : tailq) l a : queue_rep q l → a ∉ l → is_Some (q_nodes q !! a) →
  wp (TAILQ_INSERT_HEAD a) (λ _ q', queue_rep q' (a :: l) ∧ only (a :: l) (q_nodes q) (q_nodes q')) never q.
Proof.
  intros [Hd Hs] Ha [n Hn]. unfold TAILQ_INSERT_HEAD, TAILQ_FIRST, set_first. rewrite wp_bind, wp_gets, wp_bind.
  apply wp_on_nodes. eapply wp_put_next; [done|]. rewrite wp_bind. pose proof (only_insert a n (set_next (q_first q) n) _ Hn) as Ho.
  apply (wp_relink _ _ Head (Next a) l); [done|cbn [q_nodes q_last]; apply (seg_only (q_nodes q) _ [a]); [done| |done]|].
  { by intros b ->%list_elem_of_singleton. }
  intros q1 Hs1 _ Ho1. cbn [q_nodes] in Ho1. rewrite wp_bind, wp_modify.
  assert (q_nodes q1 !! a = Some (set_next (q_first q) n)) as Hn1 by (by rewrite (proj1 Ho1), lookup_insert_eq).
  eapply wp_put_prev; [done|]. cbn [q_first q_last q_nodes]. set (n2 := mk_tlink _ Head).
  pose proof (only_insert a _ n2 _ Hn1) as Ho2. split; [split|].
  - by constructor.
  - split; [done|]. exists n2. cbn [q_nodes q_first]. rewrite lookup_insert_eq. split_and!; [done|done|].
    apply (seg_only (q_nodes q1) _ [a]); [done| |done]. by intros b ->%list_elem_of_singleton.
  - eapply only_trans; [eapply (only_mono [a])|eapply only_trans; [eapply (only_mono l)|eapply (only_mono [a])]];
      [set_solver|done|set_solver|done|set_solver|done].
Qed.

Lemma tailq_law : queue_law tlink.
Proof.
  split.
  - intros q. cbn [lq_init lq_tailq]. unfold TAILQ_INIT, set_first, set_last. rewrite wp_bind, !wp_modify.
    split; [apply queue_rep_nil|done].
  - intros q l Hr. cbn. unfold TAILQ_EMPTY, gets. by rewrite (queue_rep_empty q l).
  - intros q l Hr. cbn. unfold TAILQ_FIRST, gets. by rewrite (queue_rep_first q l).
  - intros A q l fuel body f Hr Hf Hb. by apply (queue_foreach_ok TAILQ_NEXT body f fuel q l).
  - apply tailq_insert_tail.
  - intros q l a fuel Hr Ha _. by apply tailq_remove.
Qed.

(** * The theorems *)

(** C22: A tail queue is a list: initialising it makes it empty, elements enter at
    the end and leave from anywhere, [FIRST], [EMPTY] and [FOREACH] see the
    list in its order, and no other link is changed. *)
Theorem TAILQ_correct : queue_law tlink.
Proof. apply tailq_law. Qed.

(** The same holds of singly linked tail queues, whose removal walks the
    list. *)
Theorem STAILQ_correct : queue_law stlink.
Proof. apply stailq_law. Qed.

(** [TAILQ_INSERT_HEAD] puts an element in front of the list. *)
Theorem TAILQ_INSERT_HEAD_correct (q : tailq) l a :
  queue_rep q l → a ∉ l → is_Some (q_nodes q !! a) →
  wp (TAILQ_INSERT_HEAD a) (λ _ q', queue_rep q' (a :: l) ∧ only (a :: l) (q_nodes q) (q_nodes q')) never q.
Proof. apply tailq_insert_head. Qed.

(** Removing what is in the queue from a singly linked list leaves the rest in
    order; removing anything else walks off the list's end. *)
Theorem SLIST_REMOVE_correct (s : slist) l a fuel :
  slist_rep s l → (length l < fuel)%nat →
  if decide (a ∈ l) then
    wp (SLIST_REMOVE fuel a) (λ _ s', slist_rep s' (without a l) ∧ only l (sl_nodes s) (sl_nodes s')) never s
  else SLIST_REMOVE fuel a s = Stop (Undefined "NULL").
Proof.
  intros Hr Hf. case_decide as Ha; [by apply slist_remove|]. destruct Hr as [_ [pl Hs]].
  unfold SLIST_REMOVE, SLIST_FIRST, bind at 1, gets. rewrite decide_False.
  - unfold bind, on_sl, zoom. by rewrite (pred_loop_null _ _ _ _ _ _ _ Hs Ha Hf).
  - intros E. pose proof (seg_first _ _ _ _ _ _ Hs) as E2. rewrite E in E2. destruct l as [|b l]; simplify_eq. by apply Ha; left.
Qed.

(** * Clients *)

(** Operations on a queue, and on a list; [None] for one that is not
    allowed. *)
Inductive queue_op := InsertTail (a : Z) | Remove (a : Z) | First.

Section client.
Context {N : Type} `{Link N} `{LinkedQueue N}.

Definition run_op (fuel : nat) (op : queue_op) : M (queue N) (option Z) :=
  match op with
  | InsertTail a => lq_insert_tail a ;;; ret None
  | Remove a => lq_remove fuel a ;;; ret None
  | First => lq_first
  end.
Fixpoint run_ops (fuel : nat) (ops : list queue_op) : M (queue N) (list (option Z)) :=
  match ops with
  | [] => ret []
  | op :: ops => o <- run_op fuel op ;; os <- run_ops fuel ops ;; ret (o :: os)
  end.
End client.

Definition list_op (op : queue_op) (l : list Z) : option (option Z * list Z) :=
  match op with
  | InsertTail a => if decide (a ∈ l) then None else Some (None, l ++ [a])
  | Remove a => if decide (a ∈ l) then Some (None, without a l) else None
  | First => Some (head l, l)
  end.
Fixpoint list_ops (ops : list queue_op) (l : list Z) : option (list (option Z) * list Z) :=
  match ops with
  | [] => Some ([], l)
  | op :: ops =>
      '(o, l) ← list_op op l;
      '(os, l) ← list_ops ops l;
      Some (o :: os, l)
  end.
Definition inserted (ops : list queue_op) : list Z :=
  omap (λ op, match op with InsertTail a => Some a | _ => None end) ops.

Section refines.
Context {N : Type} `{Link N} `{LinkedQueue N} (Hlaw : queue_law N).

Lemma run_op_ok fuel op (q : queue N) l o l' :
  queue_rep q l → list_op op l = Some (o, l') → (length l < fuel)%nat →
  (∀ a, op = InsertTail a → is_Some (q_nodes q !! a)) →
  wp (run_op fuel op) (λ r q', r = o ∧ queue_rep q' l' ∧ ∀ a, is_Some (q_nodes q !! a) ↔ is_Some (q_nodes q' !! a)) never q.
Proof.
  intros Hr Hop Hf Hin. destruct op as [a|a|]; cbn [list_op run_op] in *.
  - case_decide; simplify_eq. rewrite wp_bind. eapply wp_mono; [apply (law_insert_tail _ Hlaw q l a); auto| |done].
    intros [] q' [Hr' [_ Hd]]. by rewrite wp_ret.
  - case_decide; simplify_eq. rewrite wp_bind. eapply wp_mono; [by apply (law_remove _ Hlaw q l a fuel)| |done].
    intros [] q' [Hr' [_ Hd]]. by rewrite wp_ret.
  - simplify_eq. unfold wp. by rewrite (law_first _ Hlaw q l').
Qed.

Lemma list_op_length op l o l' : list_op op l = Some (o, l') → (length l' ≤ length l + length (inserted [op]))%nat.
Proof.
  destruct op as [a|a|]; cbn [list_op]; intros Hl; [case_decide|case_decide|]; simplify_eq; simpl.
  - rewrite length_app. simpl. lia.
  - unfold without. pose proof (length_filter (λ t, t ≠ a) l). lia.
  - lia.
Qed.

(** Whatever sequence of operations a component runs on a queue, it sees what
    it would see on a list. *)
Theorem queue_refines_list fuel ops : ∀ (q : queue N) l os l',
  queue_rep q l → list_ops ops l = Some (os, l') → (length l + length (inserted ops) < fuel)%nat →
  (∀ a, a ∈ inserted ops → is_Some (q_nodes q !! a)) →
  wp (run_ops fuel ops) (λ r q', r = os ∧ queue_rep q' l') never q.
Proof.
  induction ops as [|op ops IH]; intros q l os l' Hr Hops Hf Hin; cbn [run_ops list_ops] in *.
  - simplify_eq. by rewrite wp_ret.
  - apply bind_Some in Hops as ([o l1]&Hop&([os1 l2]&Hops&[= <- <-])%bind_Some).
    change (inserted (op :: ops)) with (inserted ([op] ++ ops)) in Hf, Hin. unfold inserted in Hf, Hin.
    rewrite omap_app in Hf, Hin. fold (inserted [op]) (inserted ops) in Hf, Hin. rewrite length_app in Hf.
    pose proof (list_op_length _ _ _ _ Hop). rewrite wp_bind.
    eapply wp_mono; [apply (run_op_ok fuel op q l o l1); [done|done|lia|]| |done].
    + intros a ->. apply Hin, elem_of_app. left. by left.
    + intros r q1 (->&Hr1&Hk). rewrite wp_bind. eapply wp_mono; [apply (IH q1 l1 os1 l2); [done|done|lia|]| |done].
      * intros a Ha. apply Hk, Hin, elem_of_app. by right.
      * intros r q' [-> Hr']. by rewrite wp_ret.
Qed.
End refines.

(** ** On a queue of three elements *)

Definition three : tailq := mk_queue None Head
  (list_to_map ((λ a, (a, mk_tlink None Head)) <$> [16; 32; 48])).
Definition three_ops : list queue_op :=
  [InsertTail 16; InsertTail 32; First; InsertTail 48; Remove 32; First; Remove 16; First].

Lemma queue_refines_list_witness :
  wp (run_ops 8 three_ops)
    (λ r q', r = [None; None; Some 16; None; None; Some 16; None; Some 48] ∧ queue_rep q' [48]) never three.
Proof.
  apply (queue_refines_list tailq_law 8 three_ops three []); [apply queue_rep_nil|reflexivity|simpl; lia|].
  intros a Ha. repeat (apply elem_of_cons in Ha as [->|Ha]; [eexists; reflexivity|]). by apply elem_of_nil in Ha.
Defined.

Lemma SLIST_REMOVE_correct_witness :
  wp (SLIST_REMOVE 4 32) (λ _ s', slist_rep s' [48; 16] ∧ only [48; 32; 16] (sl_nodes (mk_slist (Some 48)
      (list_to_map [(48, mk_slink (Some 32)); (32, mk_slink (Some 16)); (16, mk_slink None)]))) (sl_nodes s')) never
    (mk_slist (Some 48) (list_to_map [(48, mk_slink (Some 32)); (32, mk_slink (Some 16)); (16, mk_slink None)])).
Proof.
  apply (SLIST_REMOVE_correct _ [48; 32; 16] 32 4); [|simpl; lia]. split; [|exists (Next 16)].
  - apply (bool_decide_unpack _). by vm_compute.
  - repeat (split; [reflexivity|eexists; split; [reflexivity|split; [exact I|]]]). by split.
Defined.

Lemma TAILQ_INSERT_HEAD_correct_witness :
  wp (TAILQ_INSERT_HEAD 32) (λ _ q', queue_rep q' [32] ∧ only [32] (q_nodes three) (q_nodes q')) never three.
Proof.
  apply (TAILQ_INSERT_HEAD_correct three [] 32); [apply queue_rep_nil|by apply not_elem_of_nil|eexists; reflexivity].
Defined.
