(* ===== verification/Spinlock.v ===== *)
(** Spin locks and critical sections ([mk/core/core_spinlock.c],
    [mk/core/spinlock.h], [mk/cpu/mips/cpu/cpu_critical.c]), multiprocessor
    build with [INVARIANTS].

    The first part is the code as one CPU runs it, with nobody else touching
    the lock.  The second part interleaves the atomic operations of any number
    of CPUs ([atomic_cmpset64], [atomic_load64], ...) and proves mutual
    exclusion and that the holder runs in a critical section.  The last part
    is the one-bit lock the other components of the library use, and the proof
    that the code implements it. *)

From S2P Require Import Prelude.
From stdpp Require Import functions relations.

Local Open Scope Z_scope.
Local Open Scope c_scope.

Definition CPU_ID_INVALID : Z := 2 ^ 64 - 1.
Definition SPINLOCK_FLAG_DEFAULT : Z := 0x0.
Definition SPINLOCK_FLAG_RECURSE : Z := 0x1.
Definition SPINLOCK_FLAG_VALID : Z := 0x2.

Record spinlock := mk_spinlock { s_owner : Z; s_nest : Z; s_flags : Z }.

(** The per-CPU state critical sections use: [pc_critical_count],
    [pc_critical_section] and the interrupt enable bit. *)
Record cpu := mk_cpu {
  startup_early : bool;
  critical_count : Z;
  critical_section : bool;
  interrupts : bool
}.

(** * One CPU *)

Definition cpu_critical_enter : M cpu unit :=
  c <- get ;;
  assert_ (negb (startup_early c)) "Cannot enter critical section during early startup." ;;;
  put (if critical_count c =? 0
       then mk_cpu (startup_early c) 1 (interrupts c) false
       else mk_cpu (startup_early c) (u32 (critical_count c + 1)) (critical_section c) false) ;;;
  c <- get ;;
  assert_ (0 <? critical_count c) "Must be in a critical section after entering one.".

Definition cpu_critical_exit : M cpu unit :=
  c <- get ;;
  assert_ (negb (startup_early c)) "Cannot exit critical section during early startup." ;;;
  assert_ (0 <? critical_count c) "Must be in a critical section to exit one." ;;;
  if critical_count c =? 1
  then put (mk_cpu (startup_early c) 0 false (critical_section c))
  else put (mk_cpu (startup_early c) (u32 (critical_count c - 1)) (critical_section c)
                   (interrupts c)).

Definition cpu_critical_section : M cpu bool :=
  c <- get ;;
  assert_ (negb (startup_early c)) "Cannot check critical section during early startup." ;;;
  ret (0 <? critical_count c).

(** The state of the lock operations: this CPU and the lock. *)
Definition on_cpu {A} (m : M cpu A) : M (cpu * spinlock) A := zoom fst (λ c t, (c, t.2)) m.
Definition critical_enter : M (cpu * spinlock) unit := on_cpu cpu_critical_enter.
Definition critical_exit : M (cpu * spinlock) unit := on_cpu cpu_critical_exit.
Definition lk : M (cpu * spinlock) spinlock := gets snd.
Definition set_owner (o : Z) : M (cpu * spinlock) unit :=
  modify (λ t, (t.1, mk_spinlock o (s_nest t.2) (s_flags t.2))).
Definition set_nest (f : Z → Z) : M (cpu * spinlock) unit :=
  modify (λ t, (t.1, mk_spinlock (s_owner t.2) (f (s_nest t.2)) (s_flags t.2))).
Definition valid_spinlock (l : spinlock) : bool := flag_set (s_flags l) SPINLOCK_FLAG_VALID.

(** [atomic_cmpset64(&lock->s_owner, o, v)] *)
Definition cmpset_owner (o v : Z) : M (cpu * spinlock) bool :=
  l <- lk ;;
  if s_owner l =? o then set_owner v ;;; ret true else ret false.

Section operations.
Context (self : Z).

Definition spinlock_init (flags : Z) : M (cpu * spinlock) unit :=
  assert_ (negb (flag_set flags SPINLOCK_FLAG_VALID)) "Must not set valid flag." ;;;
  modify (λ t, (t.1, mk_spinlock CPU_ID_INVALID 0 (Z.lor flags SPINLOCK_FLAG_VALID))).

(** The [while] loop; it ends at once unless another CPU owns the lock. *)
Fixpoint spinlock_spin (fuel : nat) : M (cpu * spinlock) unit :=
  match fuel with
  | O => halt OutOfFuel
  | S fuel =>
      won <- cmpset_owner CPU_ID_INVALID self ;;
      if (won : bool) then ret tt
      else
        l <- lk ;;
        if s_owner l =? self then
          if flag_set (s_flags l) SPINLOCK_FLAG_RECURSE then
            set_nest (λ n, u64 (n + 1)) ;;; critical_exit
          else halt (Panic "cannot recurse on spinlock")
        else
          critical_exit ;;; critical_enter ;;; spinlock_spin fuel
  end.

Definition spinlock_lock (fuel : nat) : M (cpu * spinlock) unit :=
  l <- lk ;;
  assert_ (valid_spinlock l) "Cowardly refusing to lock invalid spinlock." ;;;
  t <- get ;;
  if startup_early (fst t) then ret tt
  else critical_enter ;;; spinlock_spin fuel.

Definition spinlock_unlock : M (cpu * spinlock) unit :=
  l <- lk ;;
  assert_ (valid_spinlock l) "Cowardly refusing to unlock invalid spinlock." ;;;
  t <- get ;;
  if startup_early (fst t) then ret tt
  else
    if s_owner l =? self then
      if negb (s_nest l =? 0) then set_nest (λ n, u64 (n - 1))
      else
        won <- cmpset_owner self CPU_ID_INVALID ;;
        if (won : bool) then critical_exit else halt (Panic "not my lock to unlock")
    else halt (Panic "not my lock to unlock").
End operations.

(** * Any number of CPUs *)

(** Where a CPU is in [spinlock_lock] or [spinlock_unlock]. *)
Inductive pc :=
| PIdle        (* in neither function *)
| PTry         (* in a critical section, before [atomic_cmpset64] *)
| PLoad        (* lost the race, before loading [s_owner] *)
| PNest        (* owner is this CPU, before [atomic_increment64] *)
| PSpin        (* another owner, before [critical_exit] *)
| PRespin      (* between [critical_exit] and [critical_enter] *)
| PUnlock      (* before loading [s_owner] *)
| PUNest       (* before loading [s_nest] *)
| PUDec        (* before [atomic_decrement64] *)
| PUCas        (* before the final [atomic_cmpset64] *)
| PUExit       (* lock released, before [critical_exit] *)
| PPanic.

(** A CPU: its position, how many [spinlock_lock]s of this lock it is inside
    of, and its critical-section count on account of this lock. *)
Record agent := mk_agent { a_pc : pc; a_depth : Z; a_crit : Z }.
Record world := mk_world { w_lock : spinlock; w_cpu : Z → agent }.

Definition at_pc (p : pc) (a : agent) : agent := mk_agent p (a_depth a) (a_crit a).
Definition upd (i : Z) (a : agent) (g : world) : world := mk_world (w_lock g) (<[i := a]> (w_cpu g)).
Definition upd_lock (l : spinlock) (g : world) : world := mk_world l (w_cpu g).
Definition recursive (g : world) : bool := flag_set (s_flags (w_lock g)) SPINLOCK_FLAG_RECURSE.
Definition owner_is (o : Z) (g : world) : world :=
  upd_lock (mk_spinlock o (s_nest (w_lock g)) (s_flags (w_lock g))) g.
Definition nest_is (n : Z) (g : world) : world :=
  upd_lock (mk_spinlock (s_owner (w_lock g)) n (s_flags (w_lock g))) g.

(** One atomic operation of CPU [i].  A CPU id is never [CPU_ID_INVALID]. *)
Inductive step (i : Z) (g : world) : world → Prop :=
| S_lock a : w_cpu g i = a → a_pc a = PIdle →
    step i g (upd i (mk_agent PTry (a_depth a) (a_crit a + 1)) g)
| S_won a : w_cpu g i = a → a_pc a = PTry → s_owner (w_lock g) = CPU_ID_INVALID →
    step i g (owner_is i (upd i (mk_agent PIdle (a_depth a + 1) (a_crit a)) g))
| S_lost a : w_cpu g i = a → a_pc a = PTry → s_owner (w_lock g) ≠ CPU_ID_INVALID →
    step i g (upd i (at_pc PLoad a) g)
| S_mine_recurse a : w_cpu g i = a → a_pc a = PLoad → s_owner (w_lock g) = i →
    recursive g = true → step i g (upd i (at_pc PNest a) g)
| S_mine_panic a : w_cpu g i = a → a_pc a = PLoad → s_owner (w_lock g) = i →
    recursive g = false → step i g (upd i (at_pc PPanic a) g)
| S_other a : w_cpu g i = a → a_pc a = PLoad → s_owner (w_lock g) ≠ i →
    step i g (upd i (at_pc PSpin a) g)
| S_nest a : w_cpu g i = a → a_pc a = PNest →
    step i g (nest_is (u64 (s_nest (w_lock g) + 1))
                (upd i (mk_agent PIdle (a_depth a + 1) (a_crit a - 1)) g))
| S_spin_exit a : w_cpu g i = a → a_pc a = PSpin →
    step i g (upd i (mk_agent PRespin (a_depth a) (a_crit a - 1)) g)
| S_spin_enter a : w_cpu g i = a → a_pc a = PRespin →
    step i g (upd i (mk_agent PTry (a_depth a) (a_crit a + 1)) g)
| S_unlock a : w_cpu g i = a → a_pc a = PIdle →
    step i g (upd i (at_pc PUnlock a) g)
| S_unlock_mine a : w_cpu g i = a → a_pc a = PUnlock → s_owner (w_lock g) = i →
    step i g (upd i (at_pc PUNest a) g)
| S_unlock_other a : w_cpu g i = a → a_pc a = PUnlock → s_owner (w_lock g) ≠ i →
    step i g (upd i (at_pc PPanic a) g)
| S_unlock_nested a : w_cpu g i = a → a_pc a = PUNest → s_nest (w_lock g) ≠ 0 →
    step i g (upd i (at_pc PUDec a) g)
| S_unlock_last a : w_cpu g i = a → a_pc a = PUNest → s_nest (w_lock g) = 0 →
    step i g (upd i (at_pc PUCas a) g)
| S_unlock_dec a : w_cpu g i = a → a_pc a = PUDec →
    step i g (nest_is (u64 (s_nest (w_lock g) - 1))
                (upd i (mk_agent PIdle (a_depth a - 1) (a_crit a)) g))
| S_unlock_cas a : w_cpu g i = a → a_pc a = PUCas → s_owner (w_lock g) = i →
    step i g (owner_is CPU_ID_INVALID
                (upd i (mk_agent PUExit (a_depth a - 1) (a_crit a)) g))
| S_unlock_cas_fail a : w_cpu g i = a → a_pc a = PUCas → s_owner (w_lock g) ≠ i →
    step i g (upd i (at_pc PPanic a) g)
| S_unlock_exit a : w_cpu g i = a → a_pc a = PUExit →
    step i g (upd i (mk_agent PIdle (a_depth a) (a_crit a - 1)) g).

(** An initialised lock nobody holds. *)
Definition initial (g : world) : Prop :=
  s_owner (w_lock g) = CPU_ID_INVALID ∧ s_nest (w_lock g) = 0 ∧
  ∀ i, w_cpu g i = mk_agent PIdle 0 0.

(** The steps of real CPUs, none nesting [2 ^ 64] deep. *)
Definition next (g g' : world) : Prop :=
  ∃ i, i ≠ CPU_ID_INVALID ∧ step i g g' ∧ ∀ j, a_depth (w_cpu g' j) < 2 ^ 64.
Definition reachable (g : world) : Prop := ∃ g0, initial g0 ∧ rtc next g0 g.

(** * The invariant *)

Definition trying (p : pc) : Z :=
  match p with PTry | PLoad | PNest | PSpin | PUExit => 1 | _ => 0 end.

(** What CPU [i]'s position says about the owner and the nesting count. *)
Definition pc_ok (i owner nest : Z) (p : pc) : Prop :=
  match p with
  | PNest | PUNest => owner = i
  | PUDec => owner = i ∧ nest ≠ 0
  | PUCas => owner = i ∧ nest = 0
  | PSpin | PRespin | PUExit => owner ≠ i
  | _ => True
  end.

Definition agent_ok (l : spinlock) (i : Z) (a : agent) : Prop :=
  0 ≤ a_depth a < 2 ^ 64 ∧ (0 < a_depth a ↔ s_owner l = i) ∧
  (s_owner l = i → s_nest l = a_depth a - 1) ∧
  (a_pc a ≠ PPanic → a_crit a = trying (a_pc a) + (if decide (0 < a_depth a) then 1 else 0)) ∧
  pc_ok i (s_owner l) (s_nest l) (a_pc a).

Definition inv (g : world) : Prop :=
  (∀ i, i ≠ CPU_ID_INVALID → agent_ok (w_lock g) i (w_cpu g i)) ∧
  (s_owner (w_lock g) = CPU_ID_INVALID → s_nest (w_lock g) = 0).

Lemma inv_initial g : initial g → inv g.
Proof.
  intros (Ho&Hn&Hc). split; [|done]. intros i Hi. unfold agent_ok. rewrite Hc, Ho. simpl.
  split_and!; try lia; done.
Qed.

(** The other CPUs' facts survive a step that only changes CPU [i] and keeps
    the lock, or moves the lock between [i] and nobody. *)
Lemma inv_upd i a g l :
  inv g → i ≠ CPU_ID_INVALID → agent_ok l i a →
  (l = w_lock g ∨
   (s_owner (w_lock g) = i ∨ s_owner (w_lock g) = CPU_ID_INVALID) ∧
   (s_owner l = i ∨ s_owner l = CPU_ID_INVALID ∧ s_nest l = 0)) →
  inv (mk_world l (<[i := a]> (w_cpu g))).
Proof.
  intros [Hall Hno] Hi Ha Hl. split; simpl.
  - intros j Hj. destruct (decide (i = j)) as [<-|Hne]; [by rewrite fn_lookup_insert|].
    rewrite fn_lookup_insert_ne by done. destruct Hl as [->|[Hold Hnew]]; [by apply Hall|].
    destruct (Hall j Hj) as (Hd&Hown&Hnest&Hcr&Hpc). unfold agent_ok.
    assert (s_owner (w_lock g) ≠ j) by (destruct Hold; congruence).
    assert (s_owner l ≠ j) by (destruct Hnew as [|[]]; congruence).
    split_and!; [lia|lia|split; [tauto|congruence]|congruence|done|].
    destruct (a_pc (w_cpu g j)); simpl in *; tauto.
  - destruct Hl as [->|[_ Hnew]]; [done|]. intros Ho. destruct Hnew as [|[]]; [congruence|done].
Qed.

Lemma inv_step i g g' :
  i ≠ CPU_ID_INVALID → inv g → step i g g' → (∀ j, a_depth (w_cpu g' j) < 2 ^ 64) → inv g'.
Proof.
  intros Hi Hinv Hs Hb. pose proof Hinv as [Hall Hno]. specialize (Hb i).
  pose proof (Hall i Hi) as (Hd&Hown&Hnest&Hcr&Hpc).
  destruct Hs as [a Ha Hp|a Ha Hp|a Ha Hp|a Ha Hp|a Ha Hp|a Ha Hp|a Ha Hp|a Ha Hp|a Ha Hp
    |a Ha Hp|a Ha Hp|a Ha Hp|a Ha Hp|a Ha Hp|a Ha Hp|a Ha Hp|a Ha Hp|a Ha Hp];
    rewrite Ha in *; rewrite Hp in *; simpl in *; rewrite fn_lookup_insert in Hb; simpl in Hb;
    apply inv_upd; try done; try tauto; unfold agent_ok; simpl in *;
    repeat case_decide; unfold u64, wrap;
    (split_and!; try lia; try tauto; try (intros; rewrite Z.mod_small; lia);
      try (intros _; rewrite Hcr by done; lia)).
Qed.

Lemma reachable_inv g : reachable g → inv g.
Proof.
  intros (g0&Hi&Hr). apply inv_initial in Hi. induction Hr as [g|g g1 g2 (i&Hne&Hs&Hb) _ IH]; [done|].
  apply IH. by eapply inv_step.
Qed.

(** C11: in every interleaving, at most one CPU is inside the lock; the owner
    runs in a critical section; and the only ways to reach the lock's panics
    are locking a lock the CPU already holds that is not recursive, and
    unlocking a lock it does not hold. *)
Theorem spinlock_mutual_exclusion g :
  reachable g →
  (∀ i j, i ≠ CPU_ID_INVALID → j ≠ CPU_ID_INVALID →
     0 < a_depth (w_cpu g i) → 0 < a_depth (w_cpu g j) → i = j) ∧
  (∀ i, i ≠ CPU_ID_INVALID → 0 < a_depth (w_cpu g i) → a_pc (w_cpu g i) ≠ PPanic →
     s_owner (w_lock g) = i ∧ 0 < a_crit (w_cpu g i)) ∧
  (∀ i g', i ≠ CPU_ID_INVALID → step i g g' → a_pc (w_cpu g' i) = PPanic →
     a_pc (w_cpu g i) = PLoad ∧ 0 < a_depth (w_cpu g i) ∧ recursive g = false ∨
     a_pc (w_cpu g i) = PUnlock ∧ a_depth (w_cpu g i) = 0).
Proof.
  intros [Hall _]%reachable_inv. split_and!.
  - intros i j Hi Hj Hdi Hdj. destruct (Hall i Hi) as (_&Hoi&_), (Hall j Hj) as (_&Hoj&_).
    rewrite <-(proj1 Hoi), <-(proj1 Hoj) by done. done.
  - intros i Hi Hd Hp. destruct (Hall i Hi) as (_&Ho&_&Hc&_). split; [tauto|].
    rewrite Hc by done. case_decide; [|done]. by destruct (a_pc _); simpl.
  - intros i g' Hi Hs. destruct (Hall i Hi) as (Hd&Ho&_&_&Hp).
    destruct Hs; simpl; rewrite fn_lookup_insert; simpl; try done; intros _; subst;
      [left; tauto|right; split; [done|lia]|].
    match goal with H : a_pc _ = PUCas |- _ => rewrite H in Hp end. by destruct Hp.
Qed.

(** CPU 0 takes a fresh lock. *)
Definition fresh_world : world :=
  mk_world (mk_spinlock CPU_ID_INVALID 0 SPINLOCK_FLAG_VALID) (λ _, mk_agent PIdle 0 0).
Definition locked_world : world :=
  owner_is 0 (upd 0 (mk_agent PIdle 1 1) (upd 0 (mk_agent PTry 0 1) fresh_world)).

Lemma locked_world_reachable : reachable locked_world.
Proof.
  exists fresh_world. split; [done|].
  eapply rtc_l; [|eapply rtc_l; [|apply rtc_refl]].
  - exists 0. split; [done|]. split; [exact (S_lock 0 fresh_world (mk_agent PIdle 0 0) eq_refl eq_refl)|].
    intros j. simpl.
    destruct (decide (0 = j)) as [<-|]; [by rewrite fn_lookup_insert|].
    by rewrite fn_lookup_insert_ne.
  - exists 0. split; [done|]. split.
    { exact (S_won 0 (upd 0 (mk_agent PTry 0 1) fresh_world) (mk_agent PTry 0 1) eq_refl eq_refl eq_refl). }
    intros j. simpl. destruct (decide (0 = j)) as [<-|]; [by rewrite fn_lookup_insert|].
    by rewrite !fn_lookup_insert_ne.
Qed.

Lemma spinlock_mutual_exclusion_witness :
  reachable locked_world ∧
  ∀ i j, i ≠ CPU_ID_INVALID → j ≠ CPU_ID_INVALID →
    0 < a_depth (w_cpu locked_world i) → 0 < a_depth (w_cpu locked_world j) → i = j.
Proof.
  split; [exact locked_world_reachable|].
  exact (proj1 (spinlock_mutual_exclusion locked_world locked_world_reachable)).
Defined.

(** * The one-bit lock

    The rest of the library runs its operations on one CPU between a lock and
    an unlock.  There a spin lock is the bit "held by this CPU". *)

Definition acquire : M bool unit :=
  held <- get ;;
  if (held : bool) then halt (Panic "cannot recurse on spinlock") else put true.
Definition release : M bool unit :=
  held <- get ;;
  if (held : bool) then put false else halt (Panic "not my lock to unlock").

Section one_cpu.
Context (self : Z) (Hself : self ≠ CPU_ID_INVALID).

(** [b] is the bit of lock [l], a valid, non-recursive lock. *)
Definition lock_bit (b : bool) (l : spinlock) : Prop :=
  valid_spinlock l = true ∧ flag_set (s_flags l) SPINLOCK_FLAG_RECURSE = false ∧
  s_nest l = 0 ∧ s_owner l = if b then self else CPU_ID_INVALID.

(** A CPU past early startup; holding the lock it is in a critical section. *)
Definition cpu_ok (b : bool) (c : cpu) : Prop :=
  startup_early c = false ∧ 0 ≤ critical_count c < 2 ^ 32 - 1 ∧
  (b = true → 0 < critical_count c).

(** Two outcomes of the same call, one on the bit and one on the code's
    state: they stop for the same reason or end in related states. *)
Definition same_outcome (depth : Z) (o : outcome bool unit)
    (o' : outcome (cpu * spinlock) unit) : Prop :=
  match o, o' with
  | Done _ b, Done _ (c, l) => lock_bit b l ∧ critical_count c = depth
  | Stop w, Stop w' => w = w'
  | _, _ => False
  end.

Lemma critical_enter_eq c l :
  startup_early c = false → 0 ≤ critical_count c < 2 ^ 32 - 1 →
  ∃ c', critical_enter (c, l) = Done tt (c', l) ∧
    critical_count c' = critical_count c + 1 ∧ startup_early c' = false.
Proof.
  intros He Hc. unfold critical_enter, on_cpu, zoom, cpu_critical_enter, bind, get, put.
  simpl. rewrite He. simpl. destruct (critical_count c =? 0) eqn:H0; simpl; zcmp.
  - eexists. split_and!; [done|simpl; lia|done].
  - rewrite u32_small by lia. destruct (Z.ltb_spec 0 (critical_count c + 1)); [|lia].
    eexists. split_and!; done.
Qed.

Lemma critical_exit_eq c l :
  startup_early c = false → 0 < critical_count c < 2 ^ 32 →
  ∃ c', critical_exit (c, l) = Done tt (c', l) ∧
    critical_count c' = critical_count c - 1 ∧ startup_early c' = false.
Proof.
  intros He Hc. unfold critical_exit, on_cpu, zoom, cpu_critical_exit, bind, get, put.
  simpl. rewrite He. simpl. destruct (Z.ltb_spec 0 (critical_count c)); [|lia]. simpl.
  destruct (critical_count c =? 1) eqn:H1; zcmp.
  - eexists. split_and!; [done|simpl; lia|done].
  - rewrite u32_small by lia. by eexists.
Qed.

(** for one CPU [spinlock_lock] and [spinlock_unlock] are the one-bit
    lock: they change the bit and the critical-section count together, and
    panic exactly when the bit says so. *)
Theorem spinlock_refines_bit b c l fuel :
  lock_bit b l → cpu_ok b c → (0 < fuel)%nat →
  same_outcome (critical_count c + 1) (acquire b) (spinlock_lock self fuel (c, l)) ∧
  same_outcome (critical_count c - 1) (release b) (spinlock_unlock self (c, l)).
Proof.
  intros (Hv&Hr&Hn&Ho) (He&Hc&Hb) Hf. destruct fuel as [|fuel]; [lia|]. split.
  - destruct (critical_enter_eq c l He Hc) as (c'&Hent&Hcc&_).
    unfold spinlock_lock, bind, lk, gets, assert_, get. simpl. rewrite Hv. simpl. rewrite He.
    unfold bind. rewrite Hent. unfold cmpset_owner, bind, lk, gets. simpl. rewrite Ho.
    destruct b; unfold acquire, bind, get; simpl.
    + destruct (Z.eqb_spec self CPU_ID_INVALID); [done|]. unfold ret. simpl.
      by rewrite Ho, Z.eqb_refl, Hr.
    + unfold set_owner, modify, ret, put. simpl. split; [|done]. by split_and!.
  - unfold spinlock_unlock, release, bind, lk, gets, assert_, get. simpl. rewrite Hv. simpl.
    rewrite He, Ho. destruct b.
    + rewrite Z.eqb_refl, Hn. simpl. unfold cmpset_owner, bind, lk, gets. simpl.
      rewrite Ho, Z.eqb_refl. unfold set_owner, modify, ret, put. simpl.
      destruct (critical_exit_eq c (mk_spinlock CPU_ID_INVALID (s_nest l) (s_flags l)) He)
        as (c'&->&Hcc&_); [specialize (Hb eq_refl); lia|]. simpl. split; [|done]. by split_and!.
    + by rewrite (proj2 (Z.eqb_neq CPU_ID_INVALID self)) by congruence.
Qed.
End one_cpu.

Lemma spinlock_refines_bit_witness :
  let c := mk_cpu false 0 false true in
  let l := mk_spinlock CPU_ID_INVALID 0 SPINLOCK_FLAG_VALID in
  same_outcome 0 1 (acquire false) (spinlock_lock 0 1 (c, l)) ∧
  same_outcome 0 (-1) (release false) (spinlock_unlock 0 (c, l)).
Proof.
  intros c l. apply (spinlock_refines_bit 0 ltac:(done) false c l 1); [done| |lia].
  split; [done|]. split; [simpl; lia|done].
Defined.
