(* ===== verification/Shlock.v ===== *)
(** Shared/exclusive spin locks ([mk/core/core_shlock.c]).

    Any number of CPUs interleave the atomic operations of [shlock_slock],
    [shlock_sunlock], [shlock_xlock] and [shlock_xunlock].  [shl_sharecnt] is
    a 64-bit counter; the theorems are about runs in which fewer than [2 ^ 64]
    shares are held at a time.

    The invariant gives the exclusion the header comment of [shlock.h]
    promises.  It also shows where the critical-section counts go: a writer
    that finds readers releases [shl_xowner] and starts over with another
    [critical_enter] and no [critical_exit], so after the lock is released the
    CPU's critical section is still open. *)

From S2P Require Import Prelude Spinlock.
From stdpp Require Import functions relations.

Local Open Scope Z_scope.

Record shlock := mk_shlock { shl_sharecnt : Z; shl_xowner : Z }.
Definition shlock_init : shlock := mk_shlock 0 CPU_ID_INVALID.

Module Shl.
(** Positions in the four functions. *)
Inductive pc :=
| Idle
| STry | SLoad | SSpin | SInc | SStore | SExit   (* [shlock_slock] *)
| XTry | XLoad | XSpin | XLoadCnt | XBack | XHeld (* [shlock_xlock] *)
| XExit                                           (* [shlock_xunlock] *)
| Panicked.

(** A CPU: position, shares it has taken and not given back, and its
    critical-section count on account of this lock. *)
Record agent := mk_agent { a_pc : pc; a_shares : Z; a_crit : Z }.
Record world := mk_world { w_lock : shlock; w_cpu : Z → agent }.

Definition go (p : pc) (a : agent) : agent := mk_agent p (a_shares a) (a_crit a).
Definition enter (p : pc) (a : agent) : agent := mk_agent p (a_shares a) (a_crit a + 1).
Definition leave (p : pc) (a : agent) : agent := mk_agent p (a_shares a) (a_crit a - 1).

(** A caller of [shlock_sunlock] holds a share: the code does not check it.
    One atomic operation of CPU [i]: from its position [p] and the lock [l]
    to a new lock and agent. *)
Inductive act (i : Z) (l : shlock) (a : agent) : shlock → agent → Prop :=
| A_slock : a_pc a = Idle → act i l a l (enter STry a)
| A_s_won : a_pc a = STry → shl_xowner l = CPU_ID_INVALID →
    act i l a (mk_shlock (shl_sharecnt l) i) (go SInc a)
| A_s_lost : a_pc a = STry → shl_xowner l ≠ CPU_ID_INVALID → act i l a l (go SLoad a)
| A_s_panic : a_pc a = SLoad → shl_xowner l = i → act i l a l (go Panicked a)
| A_s_other : a_pc a = SLoad → shl_xowner l ≠ i → act i l a l (leave SSpin a)
| A_s_again : a_pc a = SSpin → act i l a l (enter STry a)
| A_s_inc : a_pc a = SInc →
    act i l a (mk_shlock (u64 (shl_sharecnt l + 1)) (shl_xowner l))
      (mk_agent SStore (a_shares a + 1) (a_crit a))
| A_s_store : a_pc a = SStore →
    act i l a (mk_shlock (shl_sharecnt l) CPU_ID_INVALID) (go SExit a)
| A_s_exit : a_pc a = SExit → act i l a l (leave Idle a)
| A_sunlock : a_pc a = Idle → 0 < a_shares a →
    act i l a (mk_shlock (u64 (shl_sharecnt l - 1)) (shl_xowner l))
      (mk_agent Idle (a_shares a - 1) (a_crit a))
| A_xlock : a_pc a = Idle → act i l a l (enter XTry a)
| A_x_won : a_pc a = XTry → shl_xowner l = CPU_ID_INVALID →
    act i l a (mk_shlock (shl_sharecnt l) i) (go XLoadCnt a)
| A_x_lost : a_pc a = XTry → shl_xowner l ≠ CPU_ID_INVALID → act i l a l (go XLoad a)
| A_x_panic : a_pc a = XLoad → shl_xowner l = i → act i l a l (go Panicked a)
| A_x_other : a_pc a = XLoad → shl_xowner l ≠ i → act i l a l (leave XSpin a)
| A_x_again : a_pc a = XSpin → act i l a l (enter XTry a)
| A_x_free : a_pc a = XLoadCnt → shl_sharecnt l = 0 → act i l a l (go XHeld a)
| A_x_shared : a_pc a = XLoadCnt → shl_sharecnt l ≠ 0 → act i l a l (go XBack a)
(* [atomic_store64(&shl->shl_xowner, CPU_ID_INVALID)], round the [for], [critical_enter()] *)
| A_x_back : a_pc a = XBack →
    act i l a (mk_shlock (shl_sharecnt l) CPU_ID_INVALID) (enter XTry a)
| A_xunlock : a_pc a = XHeld →
    act i l a (mk_shlock (shl_sharecnt l) CPU_ID_INVALID) (go XExit a)
(* locking again while holding: [cmpset] fails and the owner is this CPU *)
| A_x_recurse : a_pc a = XHeld → act i l a l (enter Panicked a)
| A_x_exit : a_pc a = XExit → act i l a l (leave Idle a).

Section cpus.
(** The CPUs of the machine. *)
Context (cpus : list Z).

Definition total (g : world) : Z := sumZ (λ i, a_shares (w_cpu g i)) cpus.

Definition next (g g' : world) : Prop :=
  ∃ i l a, i ∈ cpus ∧ act i (w_lock g) (w_cpu g i) l a ∧
    g' = mk_world l (<[i := a]> (w_cpu g)) ∧ total g' < 2 ^ 64.

Definition initial (g : world) : Prop :=
  w_lock g = shlock_init ∧ ∀ i, w_cpu g i = mk_agent Idle 0 0.
Definition reachable (g : world) : Prop := ∃ g0, initial g0 ∧ rtc next g0 g.

Definition holds_x (p : pc) : bool :=
  match p with SInc | SStore | XLoadCnt | XBack | XHeld => true | _ => false end.

Definition inv (g : world) : Prop :=
  (∀ i, i ∈ cpus → 0 ≤ a_shares (w_cpu g i)) ∧
  shl_sharecnt (w_lock g) = total g ∧ total g < 2 ^ 64 ∧
  (∀ i, i ∈ cpus → a_pc (w_cpu g i) ≠ Panicked →
     (holds_x (a_pc (w_cpu g i)) = true ↔ shl_xowner (w_lock g) = i)) ∧
  (∀ i, i ∈ cpus → a_pc (w_cpu g i) = XHeld → total g = 0).

Context (Hnd : NoDup cpus) (Hcpus : CPU_ID_INVALID ∉ cpus).

Lemma total_upd i a g l :
  i ∈ cpus →
  total (mk_world l (<[i := a]> (w_cpu g))) = total g - a_shares (w_cpu g i) + a_shares a.
Proof.
  intros Hi. unfold total. simpl.
  rewrite (sumZ_update _ (λ j, a_shares (w_cpu g j)) cpus i) by
    (done || (intros; by rewrite fn_lookup_insert_ne)).
  by rewrite fn_lookup_insert.
Qed.

Lemma shares_le_total g i :
  (∀ i, i ∈ cpus → 0 ≤ a_shares (w_cpu g i)) → i ∈ cpus → a_shares (w_cpu g i) ≤ total g.
Proof. intros Hs Hi. by apply (sumZ_elem (λ i, a_shares (w_cpu g i)) cpus i). Qed.

(** One CPU's move keeps the others' part of the invariant when the owner
    field only goes between it and nobody. *)
Lemma shl_inv_upd g i l a :
  inv g → i ∈ cpus → 0 ≤ a_shares a →
  shl_sharecnt l = total g - a_shares (w_cpu g i) + a_shares a →
  total g - a_shares (w_cpu g i) + a_shares a < 2 ^ 64 →
  (a_pc a ≠ Panicked → holds_x (a_pc a) = true ↔ shl_xowner l = i) →
  (shl_xowner l = shl_xowner (w_lock g) ∨
   (shl_xowner (w_lock g) = i ∨ shl_xowner (w_lock g) = CPU_ID_INVALID) ∧
   (shl_xowner l = i ∨ shl_xowner l = CPU_ID_INVALID)) →
  (a_pc a = XHeld → shl_sharecnt l = 0) →
  (a_shares (w_cpu g i) < a_shares a → shl_xowner (w_lock g) = i) →
  inv (mk_world l (<[i := a]> (w_cpu g))).
Proof.
  intros (Hs&Hc&Ht&Hx&Hh) Hi Ha Hcnt Hlt Hxa Ho Hha Hgrow. unfold inv.
  rewrite total_upd by done. simpl. split_and!; [|done|done| |].
  - intros j Hj. destruct (decide (i = j)) as [<-|]; [by rewrite fn_lookup_insert|].
    rewrite fn_lookup_insert_ne by done. by apply Hs.
  - intros j Hj. destruct (decide (i = j)) as [<-|Hne]; [by rewrite fn_lookup_insert|].
    rewrite fn_lookup_insert_ne by done. intros Hp. rewrite (Hx j Hj Hp).
    assert (j ≠ CPU_ID_INVALID) by (by intros ->).
    destruct Ho as [->|[Ho Ho']]; [done|]. naive_solver congruence.
  - intros j Hj. destruct (decide (i = j)) as [<-|Hne].
    { rewrite fn_lookup_insert. intros Hp. rewrite <-Hcnt. by apply Hha. }
    rewrite fn_lookup_insert_ne by done. intros Hp.
    assert (total g = 0) as Ht0 by (by apply (Hh j)).
    pose proof (shares_le_total g i Hs Hi). specialize (Hs i Hi).
    destruct (decide (a_shares (w_cpu g i) < a_shares a)) as [Hg|Hg]; [|lia].
    assert (shl_xowner (w_lock g) = j) as Hj'
      by (apply (Hx j Hj); [by rewrite Hp|by rewrite Hp]).
    specialize (Hgrow Hg). congruence.
Qed.

Lemma inv_next g g' : inv g → next g g' → inv g'.
Proof.
  intros Hinv (i&l&a&Hi&Hact&->&Hlt). rewrite total_upd in Hlt by done.
  pose proof Hinv as (Hs&Hc&Ht&Hx&Hh). specialize (Hs i Hi). specialize (Hx i Hi).
  pose proof (shares_le_total g i (proj1 Hinv) Hi) as Hle.
  assert (i ≠ CPU_ID_INVALID) as Hne by (by intros ->).
  destruct Hact as [Hp|Hp|Hp|Hp|Hp|Hp|Hp|Hp|Hp|Hp|Hp|Hp|Hp|Hp|Hp|Hp|Hp|Hp|Hp|Hp|Hp|Hp];
    rewrite Hp in Hx; simpl in Hx, Hlt; specialize (Hx ltac:(done));
    (apply shl_inv_upd; simpl; unfold u64, wrap; try done; try lia;
     try (rewrite Z.mod_small by lia; lia); try naive_solver congruence).
Qed.

Lemma shl_reachable_inv g : reachable g → inv g.
Proof.
  intros (g0&[Hl Hi]&Hr).
  assert (inv g0) as H0.
  { assert (total g0 = 0) as Ht.
    { unfold total. rewrite (sumZ_ext _ (λ _, 0)) by (intros; by rewrite Hi).
      pose proof (sumZ_bounds (λ _ : Z, 0) cpus 0 ltac:(lia)). lia. }
    unfold inv. rewrite Ht, Hl. split_and!; [|done..| |]; intros i Hic; rewrite Hi; simpl;
      [lia| |done]. intros _. split; [done|]. by intros <-. }
  clear Hl Hi. induction Hr as [|g1 g2 g3 Hs _ IH]; [done|].
  by apply IH, (inv_next g1).
Qed.

(** C35: an exclusive holder excludes shared and exclusive holders, and the
    lock panics only in a CPU that locks again while it holds the lock
    exclusively. *)
Theorem shlock_exclusion g :
  reachable g →
  (∀ i j, i ∈ cpus → j ∈ cpus → a_pc (w_cpu g i) = XHeld →
     a_shares (w_cpu g j) = 0 ∧ (a_pc (w_cpu g j) = XHeld → i = j)) ∧
  (∀ i l a, i ∈ cpus → act i (w_lock g) (w_cpu g i) l a → a_pc a = Panicked →
     a_pc (w_cpu g i) = XHeld).
Proof.
  intros Hr%shl_reachable_inv. pose proof Hr as (Hs&Hc&Ht&Hx&Hh). split.
  - intros i j Hi Hj Hp. split.
    + pose proof (shares_le_total g j Hs Hj). specialize (Hs j Hj).
      rewrite (Hh i Hi Hp) in *. lia.
    + intros Hpj. transitivity (shl_xowner (w_lock g)).
      * symmetry. apply (Hx i Hi); by rewrite Hp.
      * apply (Hx j Hj); by rewrite Hpj.
  - intros i l a Hi Hact. specialize (Hx i Hi).
    destruct Hact as [Hp|Hp|Hp|Hp|Hp|Hp|Hp|Hp|Hp|Hp|Hp|Hp|Hp|Hp|Hp|Hp|Hp|Hp|Hp|Hp|Hp|Hp];
      rewrite Hp in *; simpl; try done; intros _; exfalso;
      simpl in Hx; specialize (Hx ltac:(done)); naive_solver.
Qed.
End cpus.

(** Take a step of CPU [i] by rule [c] to lock [(n, o)] and agent [(p, s, k)]. *)
Ltac run_step i c n o p s k := eapply rtc_l;
  [exists i, (mk_shlock n o), (mk_agent p s k); split; [set_solver|]; split;
    [apply c; vm_compute; congruence|split; [reflexivity|vm_compute; reflexivity]]|].

Definition idle_world : world := mk_world shlock_init (λ _, mk_agent Idle 0 0).

(** [shlock_xlock] leaks a critical section when it has to wait for a
    reader.  Two CPUs: one takes a share, the other starts an exclusive
    lock, the share is given back, the exclusive lock is taken and released;
    then nobody holds anything and CPU 0's critical-section count is 1. *)
Theorem shlock_xlock_leaks_critical :
  ∃ g, reachable [0; 1] g ∧ w_lock g = shlock_init ∧
    w_cpu g 0 = mk_agent Idle 0 1 ∧ w_cpu g 1 = mk_agent Idle 0 0.
Proof.
  eexists. split.
  - exists idle_world. split; [done|].
    run_step 1 A_slock 0 CPU_ID_INVALID STry 0 1.
    run_step 1 A_s_won 0 1 SInc 0 1.
    run_step 1 A_s_inc 1 1 SStore 1 1.
    run_step 1 A_s_store 1 CPU_ID_INVALID SExit 1 1.
    run_step 1 A_s_exit 1 CPU_ID_INVALID Idle 1 0.
    run_step 0 A_xlock 1 CPU_ID_INVALID XTry 0 1.
    run_step 0 A_x_won 1 0 XLoadCnt 0 1.
    run_step 0 A_x_shared 1 0 XBack 0 1.
    run_step 0 A_x_back 1 CPU_ID_INVALID XTry 0 2.
    run_step 1 A_sunlock 0 CPU_ID_INVALID Idle 0 0.
    run_step 0 A_x_won 0 0 XLoadCnt 0 2.
    run_step 0 A_x_free 0 0 XHeld 0 2.
    run_step 0 A_xunlock 0 CPU_ID_INVALID XExit 0 2.
    run_step 0 A_x_exit 0 CPU_ID_INVALID Idle 0 1.
    apply rtc_refl.
  - by vm_compute.
Qed.

Lemma idle_reachable : reachable [0; 1] idle_world.
Proof. exists idle_world. split; [done|apply rtc_refl]. Qed.

Lemma shlock_exclusion_witness :
  reachable [0; 1] idle_world ∧
  ∀ i l a, i ∈ [0; 1] → act i (w_lock idle_world) (w_cpu idle_world i) l a →
    a_pc a = Panicked → a_pc (w_cpu idle_world i) = XHeld.
Proof.
  split; [exact idle_reachable|]. refine (proj2 (shlock_exclusion [0; 1] _ _ idle_world _)).
  - repeat constructor; set_solver.
  - by apply (bool_decide_unpack (CPU_ID_INVALID ∉ [0; 1])).
  - exact idle_reachable.
Defined.
End Shl.
