(* ===== verification/Pool.v ===== *)
(** The pool allocator and [malloc] ([mk/core/core_pool.c],
    [mk/core/pool.h], [mk/core/core_malloc.c]), with [INVARIANTS].

    A pool keeps a list of pages; a page starts with a header and a bitmap of
    its free items, and the items follow.  Pages come from the virtual memory
    system through the interface [PageSource]: what [vm_alloc_page] /
    [page_alloc_direct] and their inverses promise.

    The theorems: allocation hands out a block that lies inside its page and
    overlaps no live block, freeing makes exactly that block free again, the
    counts agree with the bitmaps, and a page goes back to its source when its
    last block does. *)

From S2P Require Import Prelude MachineInt Spinlock.

Local Open Scope Z_scope.
Local Open Scope c_scope.

(** * The page source *)

Class PageSource (P : Type) := {
  (** [true]: [vm_alloc_page(&kernel_vm, ..)] and [vm_free_page];
      [false]: [page_alloc_direct] and [page_free_direct]. *)
  ps_alloc : bool → M P (result Z);
  ps_free : bool → Z → M P (result unit);
  (** The pages handed out and not given back. *)
  ps_out : bool → P → Z → Prop;
  ps_alloc_ok v s a s' : ps_alloc v s = Done (Ok a) s' →
    0 ≤ a ∧ a + 8192 ≤ 2 ^ 64 ∧ a mod 8192 = 0 ∧
    (∀ w, ¬ ps_out w s a) ∧
    (∀ w b, ps_out w s' b ↔ ps_out w s b ∨ w = v ∧ b = a);
  ps_free_ok v s a : ps_out v s a →
    ∃ s', ps_free v a s = Done (Ok tt) s' ∧
      ∀ w b, ps_out w s' b ↔ ps_out w s b ∧ ¬ (w = v ∧ b = a)
}.

(** * Data *)

Definition POOL_DEFAULT : Z := 0x00000000.
Definition POOL_VIRTUAL : Z := 0x00000001.
Definition POOL_VALID : Z := 0x00000002.
Definition POOL_PAGE_MAGIC : Z := 0x19800604.
Definition POOL_ALIGNMENT : Z := 8.

(** [struct pool_page] without its list link ([pool_pages] below), with the
    bitmap that follows it. *)
Record pool_page := mk_page { pp_magic : Z; pp_pool : Z; pp_items : Z; pp_map : list Z }.
Definition sizeof_pool_page : Z := 32.

Record pool := mk_pool {
  pool_lock : bool;
  pool_size : Z;
  pool_maxitems : Z;
  pool_freeitems : Z;
  pool_pages : list Z;
  pool_flags : Z
}.

Definition POOL_MAP_WORD_BITS : Z := 8 * 8.
Definition POOL_MAP_BITS (n : Z) : Z := ROUNDUP n POOL_MAP_WORD_BITS.
Definition POOL_MAP_BYTES (n : Z) : Z := POOL_MAP_BITS n / 8.
Definition POOL_MAP_WORDS (n : Z) : Z := POOL_MAP_BYTES n / 8.
Definition POOL_WORD (n : Z) : Z := n / POOL_MAP_WORD_BITS.
Definition POOL_OFFSET (n : Z) : Z := n mod POOL_MAP_WORD_BITS.
Definition POOL_UTILIZATION (n s : Z) : Z := sizeof_pool_page + POOL_MAP_BYTES n + s * n.
Definition POOL_MAP_ISSET (m : list Z) (n : Z) : bool :=
  truthy (Z.land (default 0 (m !! Z.to_nat (POOL_WORD n))) (Z.shiftl 1 (POOL_OFFSET n))).
Definition MAX_ALLOC_SIZE : Z :=
  PAGE_SIZE / 2 - (POOL_MAP_BYTES 2 + sizeof_pool_page).

Section pool.
Context {P : Type} `{PageSource P}.

(** Pools and the pages they use, by address, and the page source. *)
Record pst := mk_pst { pools : gmap Z pool; pages : gmap Z pool_page; source : P }.

Definition get_pool (q : Z) : M pst pool := s <- get ;; deref "pool" (pools s !! q).
Definition put_pool (q : Z) (p : pool) : M pst unit :=
  modify (λ s, mk_pst (<[q := p]> (pools s)) (pages s) (source s)).
Definition get_page (a : Z) : M pst pool_page := s <- get ;; deref "pool page" (pages s !! a).
Definition put_page (a : Z) (pg : pool_page) : M pst unit :=
  modify (λ s, mk_pst (pools s) (<[a := pg]> (pages s)) (source s)).
Definition on_source {A} (m : M P A) : M pst A :=
  zoom source (λ x s, mk_pst (pools s) (pages s) x) m.

Definition set_pool_lock (b : bool) (p : pool) : pool :=
  mk_pool b (pool_size p) (pool_maxitems p) (pool_freeitems p) (pool_pages p) (pool_flags p).
Definition set_freeitems (n : Z) (p : pool) : pool :=
  mk_pool (pool_lock p) (pool_size p) (pool_maxitems p) n (pool_pages p) (pool_flags p).
Definition set_pages (l : list Z) (p : pool) : pool :=
  mk_pool (pool_lock p) (pool_size p) (pool_maxitems p) (pool_freeitems p) l (pool_flags p).

(** [POOL_LOCK] and [POOL_UNLOCK] *)
Definition locking (m : M bool unit) (q : Z) : M pst unit :=
  p <- get_pool q ;;
  match m (pool_lock p) with
  | Done _ b => put_pool q (set_pool_lock b p)
  | Stop w => halt w
  end.
Definition POOL_LOCK : Z → M pst unit := locking acquire.
Definition POOL_UNLOCK : Z → M pst unit := locking release.

Definition valid_pool (p : pool) : bool := flag_set (pool_flags p) POOL_VALID.
Definition virtual (p : pool) : bool := flag_set (pool_flags p) POOL_VIRTUAL.

(** * Items of a page *)

Definition pool_datum_page (datum : Z) : M pst Z :=
  pg <- get_page (PAGE_FLOOR datum) ;;
  assert_ (pp_magic pg =? POOL_PAGE_MAGIC) "datum in invalid page" ;;;
  ret (PAGE_FLOOR datum).

Definition pool_page_datum (a i : Z) : M pst Z :=
  pg <- get_page a ;;
  p <- get_pool (pp_pool pg) ;;
  assert_ (i <? pool_maxitems p) "access past end of page." ;;;
  let offset := u32 (POOL_MAP_BYTES (pool_maxitems p) + i * pool_size p) in
  let datum := u64 (a + sizeof_pool_page + offset) in
  b <- pool_datum_page datum ;;
  assert_ (b =? a) "datum is within its page" ;;;
  ret datum.

Definition pool_page_free_datum (a datum : Z) : M pst unit :=
  pg <- get_page a ;;
  assert_ (pp_magic pg =? POOL_PAGE_MAGIC) "datum in invalid page" ;;;
  d0 <- pool_page_datum a 0 ;;
  p <- get_pool (pp_pool pg) ;;
  if pool_size p =? 0 then halt (Undefined "division by zero")
  else
    let i := u32 (u64 (datum - d0) / pool_size p) in
    w <- deref "map" (pp_map pg !! Z.to_nat (POOL_WORD i)) ;;
    put_page a (mk_page (pp_magic pg) (pp_pool pg) (pp_items pg)
      (<[Z.to_nat (POOL_WORD i) := Z.lor w (Z.shiftl 1 (POOL_OFFSET i))]> (pp_map pg))).

(** The last word of a fresh bitmap. *)
Definition last_word (maxitems : Z) : Z :=
  let o := POOL_OFFSET (maxitems - 1) in
  if o =? POOL_MAP_WORD_BITS - 1 then 2 ^ 64 - 1 else Z.shiftl 1 (o + 1) - 1.
Definition fresh_map (maxitems : Z) : list Z :=
  replicate (Z.to_nat (POOL_MAP_WORDS maxitems - 1)) (2 ^ 64 - 1) ++ [last_word maxitems].

Definition pool_insert_page (q a : Z) : M pst unit :=
  p <- get_pool q ;;
  put_page a (mk_page POOL_PAGE_MAGIC q 0 (fresh_map (pool_maxitems p))) ;;;
  put_pool q (set_freeitems (u64 (pool_freeitems p + pool_maxitems p))
                (set_pages (a :: pool_pages p) p)).

Definition pool_allocate_page (q : Z) : M pst (result unit) :=
  p <- get_pool q ;;
  vaddr <-? on_source (ps_alloc (virtual p)) ;;
  pool_insert_page q vaddr ;;;
  ret (Ok tt).

(** The inner loop of [pool_get]: the first set bit [j] of word [w] whose
    item [o + j] exists. *)
Fixpoint get_bit (n : nat) (w o j maxitems : Z) : option Z :=
  match n with
  | O => None
  | S n =>
      if (o + j <? maxitems) && (j <? POOL_MAP_WORD_BITS) then
        if truthy (Z.land w (Z.shiftl 1 j)) then Some j
        else get_bit n w o (j + 1) maxitems
      else None
  end.
Fixpoint get_word (ws : list Z) (i maxitems : Z) : option (Z * Z) :=
  match ws with
  | [] => None
  | w :: ws =>
      if w =? 0 then get_word ws (i + 1) maxitems
      else
        match get_bit 64 w (i * POOL_MAP_WORD_BITS) 0 maxitems with
        | Some j => Some (i, j)
        | None => get_word ws (i + 1) maxitems
        end
  end.

Fixpoint pool_get_from (q : Z) (l : list Z) : M pst Z :=
  match l with
  | [] => halt (AssertFail "Should not be reached.")
  | a :: l =>
      pg <- get_page a ;;
      p <- get_pool q ;;
      if pp_items pg =? pool_maxitems p then pool_get_from q l
      else
        match get_word (take (Z.to_nat (POOL_MAP_WORDS (pool_maxitems p))) (pp_map pg))
                0 (pool_maxitems p) with
        | None => halt (AssertFail "Should not be reached.")
        | Some (i, j) =>
            let w := default 0 (pp_map pg !! Z.to_nat i) in
            put_pool q (set_freeitems (u64 (pool_freeitems p - 1)) p) ;;;
            put_page a (mk_page (pp_magic pg) (pp_pool pg) (u64 (pp_items pg + 1))
              (<[Z.to_nat i := Z.land w (bnot 64 (Z.shiftl 1 j))]> (pp_map pg))) ;;;
            pool_page_datum a (i * POOL_MAP_WORD_BITS + j)
        end
  end.
Definition pool_get (q : Z) : M pst Z :=
  p <- get_pool q ;;
  assert_ (negb (pool_freeitems p =? 0)) "Can't get datum from empty pool." ;;;
  pool_get_from q (pool_pages p).

(** * The interface of the pool *)

Definition pool_allocate (q : Z) : M pst Z :=
  p <- get_pool q ;;
  if negb (valid_pool p) then halt (Panic "pool used before initialization!")
  else
    assert_ (pool_size p <=? MAX_ALLOC_SIZE) "pool must not be so big." ;;;
    POOL_LOCK q ;;;
    p <- get_pool q ;;
    (if pool_freeitems p =? 0
     then or_panic "pool_allocate_page failed" (pool_allocate_page q)
     else ret tt) ;;;
    datum <- pool_get q ;;
    POOL_UNLOCK q ;;;
    ret datum.

(** [SLIST_REMOVE]: walking off the end of the list is a [NULL] access. *)
Fixpoint slist_remove (a : Z) (l : list Z) : option (list Z) :=
  match l with
  | [] => None
  | b :: l => if decide (a = b) then Some l else cons b <$> slist_remove a l
  end.

Definition pool_free (m : Z) : M pst unit :=
  a <- pool_datum_page m ;;
  pg <- get_page a ;;
  let q := pp_pool pg in
  p <- get_pool q ;;
  assert_ (valid_pool p) "pool must be valid." ;;;
  POOL_LOCK q ;;;
  pool_page_free_datum a m ;;;
  pg <- get_page a ;;
  p <- get_pool q ;;
  if pp_items pg =? 0 then halt (Panic "pool has no items.")
  else
    put_page a (mk_page (pp_magic pg) (pp_pool pg) (pp_items pg - 1) (pp_map pg)) ;;;
    if negb (pp_items pg =? 1) then
      put_pool q (set_freeitems (u64 (pool_freeitems p + 1)) p) ;;;
      POOL_UNLOCK q
    else
      l <- deref "SLIST_REMOVE" (slist_remove a (pool_pages p)) ;;
      put_pool q (set_freeitems (u64 (pool_freeitems p - (pool_maxitems p - 1)))
                    (set_pages l p)) ;;;
      (* the page and the header in it are gone *)
      modify (λ s, mk_pst (pools s) (delete a (pages s)) (source s)) ;;;
      or_panic "can't free page" (on_source (ps_free (virtual p) a)) ;;;
      POOL_UNLOCK q.

(** The loop of [pool_create]. *)
Fixpoint count_items (fuel : nat) (size n : Z) : option Z :=
  match fuel with
  | O => None
  | S fuel =>
      if POOL_UTILIZATION (n + 1) size <=? PAGE_SIZE then count_items fuel size (n + 1)
      else Some n
  end.
Definition pool_create_fuel : nat := Z.to_nat PAGE_SIZE.

Definition pool_create (q size flags : Z) : M pst (result unit) :=
  let size := u64 (size + (POOL_ALIGNMENT - 1)) / POOL_ALIGNMENT * POOL_ALIGNMENT in
  if MAX_ALLOC_SIZE <? size then halt (Panic "don't use pool for large allocations")
  else
    match count_items pool_create_fuel size 0 with
    | None => halt OutOfFuel
    | Some n =>
        put_pool q (mk_pool false size n 0 [] (Z.lor flags POOL_VALID)) ;;;
        ret (Ok tt)
    end.

Definition pool_destroy (q : Z) : M pst (result unit) :=
  halt (Panic "can't destroy pools yet.").

(** * [mk/core/core_malloc.c] *)

Definition MALLOC_NBUCKETS : Z := 8.
(** The pools of [malloc_buckets[i]] are at addresses 0 to 7 and that of
    [malloc_bigbucket] at 8; [mb_size] by bucket. *)
Definition malloc_buckets : list Z := [16; 32; 64; 128; 256; 512; 1024; 2048].
Definition malloc_bigbucket : Z := 8.

Fixpoint malloc_bucket_from (sizes : list Z) (i size : Z) : Z :=
  match sizes with
  | [] => malloc_bigbucket
  | s :: sizes => if size <=? s then i else malloc_bucket_from sizes (i + 1) size
  end.
Definition malloc_bucket (size : Z) : M pst Z :=
  assert_ (size <=? MAX_ALLOC_SIZE) "Don't be silly." ;;;
  ret (malloc_bucket_from malloc_buckets 0 size).

Definition malloc (size : Z) : M pst Z :=
  mb <- malloc_bucket size ;; pool_allocate mb.
Definition free : Z → M pst unit := pool_free.

Definition malloc_setup_bucket (mb size : Z) : M pst unit :=
  or_panic "pool_create failed" (pool_create mb size POOL_VIRTUAL).
Fixpoint malloc_setup_from (n : nat) (i j : Z) : M pst unit :=
  match n with
  | O => malloc_setup_bucket malloc_bigbucket MAX_ALLOC_SIZE
  | S n => malloc_setup_bucket i j ;;; malloc_setup_from n (i + 1) (j * 2)
  end.
Definition malloc_setup : M pst unit := malloc_setup_from 8 0 16.
End pool.
Arguments pst P : clear implicits.

(** * Bitmaps *)

Lemma truthy_bit w j : 0 ≤ j → truthy (Z.land w (Z.shiftl 1 j)) = Z.testbit w j.
Proof.
  intros Hj. rewrite Z.shiftl_1_l. unfold truthy. destruct (Z.testbit w j) eqn:Hb.
  - apply negb_true_iff, Z.eqb_neq. intros Hz.
    assert (Z.testbit (Z.land w (2 ^ j)) j = false) as Hf by (by rewrite Hz, Z.bits_0).
    by rewrite Z.land_spec, Z.pow2_bits_true, Hb in Hf by lia.
  - apply negb_false_iff, Z.eqb_eq. apply Z.bits_inj_0. intros k. rewrite Z.land_spec.
    destruct (decide (k = j)) as [->|Hk]; [by rewrite Hb|].
    rewrite Z.pow2_bits_false by done. apply andb_false_r.
Qed.

Lemma testbit_clear w j k :
  0 ≤ j < 64 → 0 ≤ k < 64 →
  Z.testbit (Z.land w (bnot 64 (Z.shiftl 1 j))) k = Z.testbit w k && negb (k =? j).
Proof.
  intros Hj Hk. rewrite Z.land_spec. f_equal. unfold bnot. rewrite Z.shiftl_1_l, Z.lxor_spec.
  rewrite Z.ones_spec_low by lia. rewrite wrap_small; [|split; [lia|apply Z.pow_lt_mono_r; lia]].
  rewrite Z.pow2_bits_eqb, Z.eqb_sym by lia. by destruct (k =? j).
Qed.

Lemma testbit_set w j k :
  0 ≤ j → Z.testbit (Z.lor w (Z.shiftl 1 j)) k = Z.testbit w k || (k =? j).
Proof. intros. by rewrite Z.lor_spec, Z.shiftl_1_l, Z.pow2_bits_eqb, Z.eqb_sym by lia. Qed.

Lemma isset_bit m n :
  POOL_MAP_ISSET m n = Z.testbit (default 0 (m !! Z.to_nat (n / 64))) (n mod 64).
Proof.
  unfold POOL_MAP_ISSET, POOL_WORD, POOL_OFFSET. change POOL_MAP_WORD_BITS with 64.
  apply truthy_bit. pose proof (Z.mod_pos_bound n 64 ltac:(lia)). lia.
Qed.

Lemma word_offset i j : 0 ≤ j < 64 → (64 * i + j) / 64 = i ∧ (64 * i + j) mod 64 = j.
Proof.
  intros. replace (64 * i + j) with (j + i * 64) by lia.
  rewrite Z.div_add, Z.mod_add, Z.div_small, Z.mod_small by lia. lia.
Qed.

(** Writing the word of item [64 * i + j] with a word that agrees with the
    old one except at bit [j]. *)
Lemma isset_insert m i j w k b :
  0 ≤ i → 0 ≤ j < 64 → (Z.to_nat i < length m)%nat → 0 ≤ k →
  (∀ l, 0 ≤ l < 64 → Z.testbit w l = if l =? j then b else
     Z.testbit (default 0 (m !! Z.to_nat i)) l) →
  POOL_MAP_ISSET (<[Z.to_nat i := w]> m) k =
  if k =? 64 * i + j then b else POOL_MAP_ISSET m k.
Proof.
  intros Hi Hj Hlen Hk Hw. rewrite !isset_bit.
  pose proof (Z.div_mod k 64 ltac:(lia)) as Hdm.
  pose proof (Z.mod_pos_bound k 64 ltac:(lia)) as Hmb.
  assert (0 ≤ k / 64) by (apply Z.div_pos; lia).
  destruct (decide (k / 64 = i)) as [Heq|Hne].
  - rewrite Heq, list_lookup_insert_eq by done. simpl. rewrite Hw by lia.
    destruct (Z.eqb_spec (k mod 64) j), (Z.eqb_spec k (64 * i + j)); (done || lia).
  - rewrite list_lookup_insert_ne by lia.
    destruct (Z.eqb_spec k (64 * i + j)) as [->|]; [|done].
    by destruct (word_offset i j Hj).
Qed.

(** How many of the items [0 .. n - 1] are free. *)
Definition count_free (m : list Z) (n : Z) : Z :=
  sumZ (λ i, if POOL_MAP_ISSET m i then 1 else 0) (seqZ 0 n).

Lemma count_free_bounds m n : 0 ≤ n → 0 ≤ count_free m n ≤ n.
Proof.
  intros Hn. unfold count_free.
  pose proof (sumZ_bounds (λ i, if POOL_MAP_ISSET m i then 1 else 0) (seqZ 0 n) 1) as Hb.
  rewrite length_seqZ in Hb. destruct Hb; [|lia].
  intros x _. destruct (POOL_MAP_ISSET m x); lia.
Qed.

Lemma count_free_change m m' n i b :
  0 ≤ i < n → (∀ k, 0 ≤ k < n → POOL_MAP_ISSET m' k = if k =? i then b else POOL_MAP_ISSET m k) →
  count_free m' n = count_free m n - (if POOL_MAP_ISSET m i then 1 else 0) + (if b then 1 else 0).
Proof.
  intros Hi Hm. unfold count_free.
  rewrite (sumZ_update _ (λ k, if POOL_MAP_ISSET m k then 1 else 0) (seqZ 0 n) i).
  - by rewrite (Hm i), Z.eqb_refl by done.
  - apply NoDup_seqZ.
  - apply elem_of_seqZ. lia.
  - intros k Hk%elem_of_seqZ Hki. rewrite Hm by lia. by rewrite (proj2 (Z.eqb_neq k i)).
Qed.

Lemma count_free_exists m n : count_free m n ≠ 0 → ∃ i, 0 ≤ i < n ∧ POOL_MAP_ISSET m i = true.
Proof.
  intros Hc. destruct (decide (Exists (λ i, POOL_MAP_ISSET m i = true) (seqZ 0 n))) as [He|He].
  - apply Exists_exists in He as (i&Hi%elem_of_seqZ&Hs). exists i. split; [lia|done].
  - exfalso. apply Hc. unfold count_free. rewrite (sumZ_ext _ (λ _, 0)).
    + pose proof (sumZ_bounds (λ _ : Z, 0) (seqZ 0 n) 0 ltac:(lia)). lia.
    + intros i Hi. destruct (POOL_MAP_ISSET m i) eqn:Hs; [|done].
      exfalso. apply He, Exists_exists. by exists i.
Qed.

Lemma count_free_pos m n i :
  0 ≤ i < n → POOL_MAP_ISSET m i = true → 1 ≤ count_free m n.
Proof.
  intros Hi Hs. pose proof (sumZ_elem (λ k, if POOL_MAP_ISSET m k then 1 else 0) (seqZ 0 n) i) as He.
  cbv beta in He. rewrite Hs in He. apply He; [|apply elem_of_seqZ; lia].
  intros k _. destruct (POOL_MAP_ISSET m k); lia.
Qed.

Lemma count_free_full m n i : count_free m n = n → 0 ≤ i < n → POOL_MAP_ISSET m i = true.
Proof.
  intros Hc Hi. destruct (POOL_MAP_ISSET m i) eqn:Hs; [done|]. exfalso.
  set (f := λ k, if POOL_MAP_ISSET m k then 1 else 0).
  set (g := λ k, if k =? i then 1 else f k).
  assert (sumZ g (seqZ 0 n) = count_free m n - f i + g i) as Hg.
  { apply (sumZ_update g f); [apply NoDup_seqZ|apply elem_of_seqZ; lia|].
    intros x _ Hx. unfold g. by rewrite (proj2 (Z.eqb_neq x i)). }
  assert (sumZ g (seqZ 0 n) ≤ 1 * Z.of_nat (length (seqZ 0 n))) as Hb.
  { apply sumZ_bounds. intros x _. unfold g, f. destruct (x =? i), (POOL_MAP_ISSET m x); lia. }
  rewrite length_seqZ in Hb. unfold g, f in Hg. rewrite Hs, Z.eqb_refl in Hg.
  unfold g, f in Hb. lia.
Qed.

Lemma get_bit_Some n w o : ∀ j maxitems k,
  0 ≤ j → get_bit n w o j maxitems = Some k →
  j ≤ k < 64 ∧ o + k < maxitems ∧ Z.testbit w k = true.
Proof.
  induction n as [|n IH]; simpl; [done|]. intros j maxitems k Hj.
  destruct ((o + j <? maxitems) && (j <? POOL_MAP_WORD_BITS)) eqn:Hc; [|done].
  apply andb_true_iff in Hc as [H1 H2]. zcmp. change POOL_MAP_WORD_BITS with 64 in *.
  rewrite truthy_bit by lia. destruct (Z.testbit w j) eqn:Hb.
  - intros [= <-]. split_and!; [lia..|done].
  - intros Hg%IH; [|lia]. destruct Hg as (?&?&?). split_and!; [lia..|done].
Qed.

Lemma get_bit_None n w o : ∀ j maxitems k,
  0 ≤ j ≤ k → k < 64 → k < j + Z.of_nat n → o + k < maxitems → Z.testbit w k = true →
  get_bit n w o j maxitems ≠ None.
Proof.
  induction n as [|n IH]; [intros; lia|]. intros j maxitems k Hj Hk Hn Ho Hb. simpl.
  change POOL_MAP_WORD_BITS with 64.
  rewrite (proj2 (Z.ltb_lt (o + j) maxitems)), (proj2 (Z.ltb_lt j 64)) by lia. simpl.
  rewrite truthy_bit by lia. destruct (Z.testbit w j) eqn:Hbj; [done|].
  apply (IH _ _ k); [|lia..|done]. destruct (decide (j = k)); [by subst; congruence|lia].
Qed.

Lemma get_word_Some ws : ∀ i0 maxitems i j,
  get_word ws i0 maxitems = Some (i, j) →
  i0 ≤ i < i0 + Z.of_nat (length ws) ∧ 0 ≤ j < 64 ∧ 64 * i + j < maxitems ∧
  Z.testbit (default 0 (ws !! Z.to_nat (i - i0))) j = true.
Proof.
  induction ws as [|w ws IH]; intros i0 maxitems i j; [done|]. cbn [get_word length].
  assert (get_word ws (i0 + 1) maxitems = Some (i, j) →
    i0 ≤ i < i0 + Z.of_nat (S (length ws)) ∧ 0 ≤ j < 64 ∧ 64 * i + j < maxitems ∧
    Z.testbit (default 0 ((w :: ws) !! Z.to_nat (i - i0))) j = true) as Hrec.
  { intros (?&?&?&Hb)%IH. split_and!; [lia..|].
    by replace (Z.to_nat (i - i0)) with (S (Z.to_nat (i - (i0 + 1)))) by lia. }
  destruct (w =? 0); [done|]. destruct (get_bit _ _ _ _ _) as [k|] eqn:Hg; [|done].
  intros [= <- <-]. apply get_bit_Some in Hg as (?&?&?); [|lia].
  change POOL_MAP_WORD_BITS with 64 in *. rewrite Z.sub_diag. simpl. split_and!; (lia || done).
Qed.

Lemma get_word_None ws : ∀ i0 maxitems i j w,
  ws !! i = Some w → 0 ≤ i0 → 0 ≤ j < 64 → 64 * (i0 + Z.of_nat i) + j < maxitems →
  Z.testbit w j = true → get_word ws i0 maxitems ≠ None.
Proof.
  induction ws as [|w ws IH]; intros i0 maxitems [|i] j w'; [done..| |]; cbn [get_word];
    rewrite ?lookup_cons; cbv beta iota.
  - intros [= ->] Hi Hj Hm Hb. destruct (Z.eqb_spec w' 0) as [->|_]; [by rewrite Z.bits_0 in Hb|].
    pose proof (get_bit_None 64 w' (i0 * POOL_MAP_WORD_BITS) 0 maxitems j) as Hn.
    change POOL_MAP_WORD_BITS with 64 in *.
    destruct (get_bit _ _ _ _ _); [done|]. exfalso. apply Hn; (lia || done).
  - intros Hl Hi Hj Hm Hb. assert (get_word ws (i0 + 1) maxitems ≠ None) as Hn.
    { apply (IH _ _ i j w'); (lia || done). }
    destruct (w =? 0); [done|]. by destruct (get_bit _ _ _ _ _).
Qed.

Lemma map_words n : 1 ≤ n → POOL_MAP_BYTES n = 8 * POOL_MAP_WORDS n ∧
  64 * POOL_MAP_WORDS n - 64 < n ≤ 64 * POOL_MAP_WORDS n ∧ 1 ≤ POOL_MAP_WORDS n.
Proof.
  intros Hn. unfold POOL_MAP_WORDS, POOL_MAP_BYTES, POOL_MAP_BITS, ROUNDUP.
  change POOL_MAP_WORD_BITS with 64. set (k := (n + (64 - 1)) / 64).
  pose proof (Z.div_mod (n + (64 - 1)) 64 ltac:(lia)) as Hdm. fold k in Hdm.
  pose proof (Z.mod_pos_bound (n + (64 - 1)) 64 ltac:(lia)).
  replace (k * 64) with (k * 8 * 8) by lia. rewrite !Z.div_mul by lia. lia.
Qed.

Lemma length_fresh_map n : 1 ≤ n → length (fresh_map n) = Z.to_nat (POOL_MAP_WORDS n).
Proof.
  intros Hn. destruct (map_words n Hn) as (_&_&?). unfold fresh_map.
  rewrite length_app, length_replicate. simpl. lia.
Qed.

Lemma isset_fresh_map n k : 1 ≤ n → 0 ≤ k < n → POOL_MAP_ISSET (fresh_map n) k = true.
Proof.
  intros Hn Hk. destruct (map_words n Hn) as (_&Hw&_). rewrite isset_bit. unfold fresh_map.
  pose proof (Z.div_mod k 64 ltac:(lia)) as Hdm.
  pose proof (Z.mod_pos_bound k 64 ltac:(lia)) as Hmb.
  assert (0 ≤ k / 64) by (apply Z.div_pos; lia).
  destruct (decide (k / 64 < POOL_MAP_WORDS n - 1)) as [Hlt|Hge].
  - rewrite lookup_app_l by (rewrite length_replicate; lia).
    rewrite lookup_replicate_2 by lia. change (2 ^ 64 - 1) with (Z.ones 64).
    simpl default. by rewrite Z.ones_spec_low by lia.
  - rewrite lookup_app_r by (rewrite length_replicate; lia). rewrite length_replicate.
    replace (Z.to_nat (k / 64) - Z.to_nat (POOL_MAP_WORDS n - 1))%nat with 0%nat by lia.
    simpl. unfold last_word, POOL_OFFSET. change POOL_MAP_WORD_BITS with 64.
    destruct (word_offset (POOL_MAP_WORDS n - 1) (n - 1 - 64 * (POOL_MAP_WORDS n - 1)) ltac:(lia))
      as [_ Ho].
    replace (64 * (POOL_MAP_WORDS n - 1) + _) with (n - 1) in Ho by lia. rewrite Ho.
    destruct (Z.eqb_spec (n - 1 - 64 * (POOL_MAP_WORDS n - 1)) (64 - 1)).
    + change (2 ^ 64 - 1) with (Z.ones 64). by rewrite Z.ones_spec_low by lia.
    + rewrite Z.shiftl_1_l, Z.sub_1_r, <-Z.ones_equiv. by rewrite Z.ones_spec_low by lia.
Qed.

Lemma count_fresh_map n : 1 ≤ n → count_free (fresh_map n) n = n.
Proof.
  intros Hn. unfold count_free. rewrite (sumZ_ext _ (λ _, 1)).
  - assert (∀ l : list Z, sumZ (λ _, 1) l = Z.of_nat (length l)) as ->.
    { unfold sumZ. induction l; simpl; lia. }
    rewrite length_seqZ. lia.
  - intros k Hk%elem_of_seqZ. by rewrite isset_fresh_map by lia.
Qed.

(** * The invariant *)

(** The address of item [i] of page [a]. *)
Definition item_addr (p : pool) (a i : Z) : Z :=
  a + sizeof_pool_page + POOL_MAP_BYTES (pool_maxitems p) + i * pool_size p.

(** A created pool: its items fit a page. *)
Definition geometry (p : pool) : Prop :=
  valid_pool p = true ∧ 8 ≤ pool_size p ≤ MAX_ALLOC_SIZE ∧ 1 ≤ pool_maxitems p ∧
  POOL_UTILIZATION (pool_maxitems p) (pool_size p) ≤ PAGE_SIZE.

Definition page_addr (a : Z) : Prop := 0 ≤ a ∧ a + 8192 ≤ 2 ^ 64 ∧ a mod 8192 = 0.

Definition page_ok (q : Z) (p : pool) (pg : pool_page) : Prop :=
  pp_magic pg = POOL_PAGE_MAGIC ∧ pp_pool pg = q ∧
  length (pp_map pg) = Z.to_nat (POOL_MAP_WORDS (pool_maxitems p)) ∧
  0 ≤ pp_items pg ∧ pp_items pg + count_free (pp_map pg) (pool_maxitems p) = pool_maxitems p.

Lemma geometry_maxitems p : geometry p → pool_maxitems p < 1024.
Proof.
  intros (_&Hs&Hm&Hu). destruct (map_words _ Hm) as (Hb&_&?).
  unfold POOL_UTILIZATION in Hu. rewrite Hb in Hu.
  change sizeof_pool_page with 32 in Hu. change PAGE_SIZE with 8192 in Hu. nia.
Qed.

(** An item lies after the bitmap and inside its page. *)
Lemma item_in_page p a i :
  geometry p → 0 ≤ i < pool_maxitems p →
  a + 40 ≤ item_addr p a i ∧ item_addr p a i + pool_size p ≤ a + 8192 ∧
  0 ≤ POOL_MAP_BYTES (pool_maxitems p) + i * pool_size p < 2 ^ 32.
Proof.
  intros (_&Hs&Hm&Hu) Hi. destruct (map_words _ Hm) as (Hb&_&?).
  unfold POOL_UTILIZATION in Hu. unfold item_addr. rewrite Hb in *.
  change sizeof_pool_page with 32 in *. change PAGE_SIZE with 8192 in Hu.
  assert (i * pool_size p + pool_size p ≤ pool_size p * pool_maxitems p) by nia.
  assert (0 ≤ i * pool_size p) by nia. lia.
Qed.

Lemma page_floor_in a d : page_addr a → a ≤ d < a + 8192 → PAGE_FLOOR d = a.
Proof.
  intros (?&?&Hm) Hd. rewrite PAGE_FLOOR_sub by lia.
  apply Z.div_exact in Hm; [|lia]. set (k := a / 8192) in *. clearbody k. subst a.
  replace d with ((d - 8192 * k) + k * 8192) at 2 by lia.
  rewrite Z.mod_add, Z.mod_small by lia. lia.
Qed.

Section invariant.
Context {P : Type} `{PageSource P}.
Implicit Types (s : pst P) (p : pool) (pg : pool_page).

Definition room s (p : pool) (a : Z) : Z :=
  match pages s !! a with Some pg => pool_maxitems p - pp_items pg | None => 0 end.

Definition pool_ok s (q : Z) (p : pool) : Prop :=
  geometry p ∧ NoDup (pool_pages p) ∧
  pool_freeitems p = sumZ (room s p) (pool_pages p) ∧
  ∀ a, a ∈ pool_pages p → page_addr a ∧ ps_out (virtual p) (source s) a ∧
    ∃ pg, pages s !! a = Some pg ∧ page_ok q p pg.

Definition inv s : Prop :=
  (∀ q p, pools s !! q = Some p → pool_ok s q p) ∧
  (∀ a pg, pages s !! a = Some pg →
     ∃ p, pools s !! pp_pool pg = Some p ∧ a ∈ pool_pages p).

(** Between operations no lock is held and every page has a live item. *)
Definition quiet s : Prop :=
  (∀ q p, pools s !! q = Some p → pool_lock p = false) ∧
  (∀ a pg, pages s !! a = Some pg → 1 ≤ pp_items pg).

(** [d] is a live block of [z] bytes: an item marked in use. *)
Definition live s (q d z : Z) : Prop :=
  ∃ a pg p i, pages s !! a = Some pg ∧ pp_pool pg = q ∧ pools s !! q = Some p ∧
    0 ≤ i < pool_maxitems p ∧ POOL_MAP_ISSET (pp_map pg) i = false ∧
    d = item_addr p a i ∧ z = pool_size p.

Lemma inv_page s a pg :
  inv s → pages s !! a = Some pg →
  ∃ p, pools s !! pp_pool pg = Some p ∧ a ∈ pool_pages p ∧ geometry p ∧ page_addr a ∧
    page_ok (pp_pool pg) p pg ∧ ps_out (virtual p) (source s) a.
Proof.
  intros [Hp Hpg] Ha. destruct (Hpg a pg Ha) as (p&Hq&Hin).
  destruct (Hp _ _ Hq) as (Hg&_&_&Hall). destruct (Hall a Hin) as (?&?&pg'&?&?).
  simplify_eq. by exists p.
Qed.

Lemma room_bounds s q p a : pool_ok s q p → a ∈ pool_pages p → 0 ≤ room s p a ≤ 1024.
Proof.
  intros (Hg&_&_&Hall) Ha. destruct (Hall a Ha) as (_&_&pg&Hpg&(_&_&_&Hi&Hc)).
  unfold room. rewrite Hpg. pose proof (geometry_maxitems p Hg).
  pose proof Hg as (_&_&Hm&_).
  pose proof (count_free_bounds (pp_map pg) (pool_maxitems p)). lia.
Qed.

(** There are fewer than [2 ^ 51] pages, so the counter cannot wrap. *)
Lemma freeitems_bounds s q p : pool_ok s q p → 0 ≤ pool_freeitems p ≤ 2 ^ 61.
Proof.
  intros Hok. pose proof Hok as (_&Hnd&->&Hall).
  assert (length (pool_pages p) ≤ Z.to_nat (2 ^ 51))%nat as Hlen.
  { assert (NoDup ((λ a, a / 8192) <$> pool_pages p)) as Hnd'.
    { apply NoDup_fmap_2_strong; [|done]. intros x y Hx Hy Hxy.
      destruct (Hall x Hx) as ((?&?&Hxm)&_), (Hall y Hy) as ((?&?&Hym)&_).
      apply Z.div_exact in Hxm, Hym; lia. }
    assert ((λ a, a / 8192) <$> pool_pages p ⊆ seqZ 0 (2 ^ 51)) as Hsub.
    { intros x (a&->&Ha)%list_elem_of_fmap. apply elem_of_seqZ.
      destruct (Hall a Ha) as ((?&?&_)&_).
      split; [by apply Z.div_pos|]. apply Z.div_lt_upper_bound; lia. }
    pose proof (NoDup_submseteq _ _ Hnd' Hsub) as Hs%submseteq_length.
    by rewrite length_fmap, length_seqZ in Hs. }
  pose proof (sumZ_bounds (room s p) (pool_pages p) 1024) as Hb.
  destruct Hb as [? Hb]; [intros; by eapply room_bounds|]. split; [done|].
  apply Nat2Z.inj_le in Hlen. rewrite Z2Nat.id in Hlen by lia. lia.
Qed.

(** Different items do not overlap. *)
Lemma item_disjoint s a pg p i a' pg' p' i' :
  inv s → pages s !! a = Some pg → pools s !! pp_pool pg = Some p →
  pages s !! a' = Some pg' → pools s !! pp_pool pg' = Some p' →
  0 ≤ i < pool_maxitems p → 0 ≤ i' < pool_maxitems p' → ¬ (a = a' ∧ i = i') →
  item_addr p a i + pool_size p ≤ item_addr p' a' i' ∨
  item_addr p' a' i' + pool_size p' ≤ item_addr p a i.
Proof.
  intros Hinv Ha Hp Ha' Hp' Hi Hi' Hne.
  destruct (inv_page s a pg Hinv Ha) as (p1&Hp1&_&Hg&Haddr&_&_).
  destruct (inv_page s a' pg' Hinv Ha') as (p2&Hp2&_&Hg'&Haddr'&_&_). simplify_eq.
  pose proof (item_in_page p a i Hg Hi) as (?&?&_).
  pose proof (item_in_page p' a' i' Hg' Hi') as (?&?&_).
  destruct (decide (a = a')) as [<-|Hna].
  - simplify_eq. unfold item_addr. destruct Hg as (_&?&_).
    destruct (decide (i < i')); [left|right]; nia.
  - destruct Haddr as (?&?&Hm), Haddr' as (?&?&Hm').
    apply Z.div_exact in Hm, Hm'; [|lia..].
    destruct (decide (a / 8192 < a' / 8192)); [left|right]; lia.
Qed.

(** Distinct live blocks do not overlap. *)
Lemma live_disjoint s q d z q' d' z' :
  inv s → live s q d z → live s q' d' z' →
  (q = q' ∧ d = d' ∧ z = z') ∨ d + z ≤ d' ∨ d' + z' ≤ d.
Proof.
  intros Hinv (a&pg&p&i&Ha&Hq&Hp&Hi&_&->&->) (a'&pg'&p'&i'&Ha'&Hq'&Hp'&Hi'&_&->&->).
  subst q q'. destruct (decide (a = a' ∧ i = i')) as [[<- <-]|Hne].
  - left. by simplify_eq.
  - right. by eapply item_disjoint.
Qed.

(** * The item functions *)

Lemma pool_page_datum_eq s a pg p i :
  inv s → pages s !! a = Some pg → pools s !! pp_pool pg = Some p →
  0 ≤ i < pool_maxitems p →
  pool_page_datum a i s = Done (item_addr p a i) s.
Proof.
  intros Hinv Ha Hp Hi. destruct (inv_page s a pg Hinv Ha) as (p'&Hp'&_&Hg&Haddr&Hpok&_).
  simplify_eq. pose proof (item_in_page p a i Hg Hi) as (H1&H2&H3).
  destruct Hpok as (Hmg&_). pose proof Haddr as (?&?&_). destruct Hg as (_&Hsz&_).
  unfold pool_page_datum, pool_datum_page, get_page, get_pool, bind, get, deref, assert_.
  rewrite Ha. cbn. rewrite Hp. cbn. rewrite (proj2 (Z.ltb_lt _ _)) by lia. cbn.
  rewrite u32_small by lia.
  replace (a + sizeof_pool_page + (POOL_MAP_BYTES (pool_maxitems p) + i * pool_size p))
    with (item_addr p a i) by (unfold item_addr; lia).
  rewrite u64_small by lia. rewrite (page_floor_in a) by (done || lia). rewrite Ha. cbn.
  rewrite Hmg, Z.eqb_refl. cbn. by rewrite Z.eqb_refl.
Qed.
End invariant.

Section correctness.
Context {P : Type} `{PageSource P}.
Implicit Types (s : pst P) (p : pool) (pg : pool_page).

(** Two pools that differ in their lock and free count only. *)
Definition same_shape p p' : Prop :=
  pool_size p' = pool_size p ∧ pool_maxitems p' = pool_maxitems p ∧
  pool_flags p' = pool_flags p.

Lemma geometry_shape p p' : same_shape p p' → geometry p → geometry p'.
Proof. unfold geometry, valid_pool. intros (->&->&->). done. Qed.

Lemma page_ok_shape q p p' pg : same_shape p p' → page_ok q p pg → page_ok q p' pg.
Proof. unfold page_ok. intros (_&->&_). done. Qed.

(** Replace page [a] of pool [q] by [pg'] and the pool by [p'], which lists
    the same pages and accounts for the change: the invariant holds. *)
Lemma inv_change s q p a pg p' pg' :
  inv s → pages s !! a = Some pg → pp_pool pg = q → pools s !! q = Some p →
  same_shape p p' → pool_pages p' = pool_pages p → page_ok q p' pg' →
  pool_freeitems p' = pool_freeitems p - pp_items pg' + pp_items pg →
  inv (mk_pst (<[q := p']> (pools s)) (<[a := pg']> (pages s)) (source s)).
Proof.
  intros Hinv Ha Hq Hp Hsh Hpgs Hok Hfree. pose proof Hinv as [Hpools Hpages].
  destruct (inv_page s a pg Hinv Ha) as (p0&Hp0&Hin&_). subst q. simplify_eq.
  pose proof (proj1 (proj2 Hok)) as Hq'. split; simpl.
  - intros q0 p0. destruct (decide (pp_pool pg = q0)) as [<-|Hne].
    + rewrite lookup_insert_eq. intros [= <-].
      destruct (Hpools _ _ Hp) as (Hg&Hnd&Hsum&Hall).
      split_and!; [by eapply geometry_shape|by rewrite Hpgs| |].
      * rewrite Hfree, Hsum, Hpgs.
        rewrite (sumZ_update (room _ p') (room s p) (pool_pages p) a); [|done..|].
        -- unfold room. simpl. rewrite lookup_insert_eq, Ha.
           destruct Hsh as (_&->&_). lia.
        -- intros x _ Hx. unfold room. simpl. rewrite lookup_insert_ne by done.
           by destruct Hsh as (_&->&_).
      * rewrite Hpgs. intros b Hb. destruct (Hall b Hb) as (?&Hout&pgb&Hpgb&Hokb).
        unfold virtual in *. destruct Hsh as (Hs1&Hs2&Hs3). rewrite Hs3.
        split_and!; [done..|]. destruct (decide (a = b)) as [<-|Hab].
        -- exists pg'. simpl. by rewrite lookup_insert_eq.
        -- exists pgb. simpl. rewrite lookup_insert_ne by done. split; [done|].
           by eapply page_ok_shape.
    + rewrite lookup_insert_ne by done. intros Hp0.
      destruct (Hpools _ _ Hp0) as (Hg&Hnd&Hsum&Hall).
      assert (∀ b, b ∈ pool_pages p0 → a ≠ b) as Hab.
      { intros b Hb <-. destruct (Hall a Hb) as (_&_&pgb&?&(_&?&_)). simplify_eq. }
      split_and!; [done..| |].
      * rewrite Hsum. apply sumZ_ext. intros b Hb. unfold room. simpl.
        rewrite lookup_insert_ne; [done|by apply Hab].
      * intros b Hb. destruct (Hall b Hb) as (?&?&pgb&?&?). split_and!; [done..|].
        exists pgb. simpl. rewrite lookup_insert_ne; [done|by apply Hab].
  - intros b pgb. destruct (decide (a = b)) as [<-|Hab].
    + rewrite lookup_insert_eq. intros [= <-]. exists p'. rewrite Hq', lookup_insert_eq.
      by rewrite Hpgs.
    + rewrite lookup_insert_ne by done. intros Hb. destruct (Hpages b pgb Hb) as (p1&Hp1&?).
      destruct (decide (pp_pool pg = pp_pool pgb)) as [Heq|Hne].
      * exists p'. rewrite <-Heq, lookup_insert_eq, Hpgs. split; [done|]. congruence.
      * exists p1. by rewrite lookup_insert_ne.
Qed.

(** A change of the lock bit only. *)
Lemma inv_lock s q p b :
  inv s → pools s !! q = Some p →
  inv (mk_pst (<[q := set_pool_lock b p]> (pools s)) (pages s) (source s)).
Proof.
  intros [Hpools Hpages] Hp. split; simpl.
  - intros q0 p0. destruct (decide (q = q0)) as [<-|Hne].
    + rewrite lookup_insert_eq. intros [= <-]. exact (Hpools _ _ Hp).
    + rewrite lookup_insert_ne by done. intros Hp0. exact (Hpools _ _ Hp0).
  - intros a pg Ha. destruct (Hpages a pg Ha) as (p1&Hp1&?).
    destruct (decide (q = pp_pool pg)) as [->|Hne].
    + exists (set_pool_lock b p). rewrite lookup_insert_eq. simplify_eq. done.
    + exists p1. by rewrite lookup_insert_ne.
Qed.

(** What [live] reads of a state, for two states that agree on it. *)
Lemma live_agree s s' q d z :
  (∀ a, pages s' !! a = pages s !! a) →
  (∀ q, option_Forall2 same_shape (pools s !! q) (pools s' !! q)) →
  live s q d z → live s' q d z.
Proof.
  intros Hpg Hpl (a&pg&p&i&Ha&Hq&Hp&Hi&Hs&->&->).
  specialize (Hpl q). rewrite Hp in Hpl. inversion Hpl as [? p' Hsh Hp1 Hp2|]; subst.
  exists a, pg, p', i. rewrite Hpg. unfold item_addr. destruct Hsh as (->&->&_). done.
Qed.

(** * [pool_get] *)

(** The state after item [i] of page [a] is marked in use. *)
Definition taken s (q : Z) p (a : Z) pg (i : Z) : pst P :=
  mk_pst (<[q := set_freeitems (pool_freeitems p - 1) p]> (pools s))
    (<[a := mk_page (pp_magic pg) (pp_pool pg) (pp_items pg + 1)
       (<[Z.to_nat (i / 64) := Z.land (default 0 (pp_map pg !! Z.to_nat (i / 64)))
          (bnot 64 (Z.shiftl 1 (i mod 64)))]> (pp_map pg))]> (pages s))
    (source s).

Lemma isset_taken pg i k n :
  1 ≤ n → length (pp_map pg) = Z.to_nat (POOL_MAP_WORDS n) → 0 ≤ i < n → 0 ≤ k →
  POOL_MAP_ISSET (<[Z.to_nat (i / 64) := Z.land (default 0 (pp_map pg !! Z.to_nat (i / 64)))
    (bnot 64 (Z.shiftl 1 (i mod 64)))]> (pp_map pg)) k =
  if k =? i then false else POOL_MAP_ISSET (pp_map pg) k.
Proof.
  intros Hn Hlen Hi Hk. destruct (map_words n Hn) as (_&?&?).
  pose proof (Z.div_mod i 64 ltac:(lia)) as Hdm.
  pose proof (Z.mod_pos_bound i 64 ltac:(lia)) as Hmb.
  assert (0 ≤ i / 64) by (apply Z.div_pos; lia).
  rewrite (isset_insert (pp_map pg) (i / 64) (i mod 64) _ k false).
  - by rewrite <-Hdm.
  - lia.
  - lia.
  - rewrite Hlen. lia.
  - lia.
  - intros l Hl. rewrite testbit_clear by lia. by destruct (l =? i mod 64); rewrite ?andb_false_r, ?andb_true_r.
Qed.

Lemma pool_get_from_eq s q p l :
  inv s → pools s !! q = Some p →
  (∀ a, a ∈ l → a ∈ pool_pages p) → sumZ (room s p) l ≠ 0 → 1 ≤ pool_freeitems p →
  ∃ a pg i, a ∈ pool_pages p ∧ pages s !! a = Some pg ∧ pp_pool pg = q ∧
    0 ≤ i < pool_maxitems p ∧ POOL_MAP_ISSET (pp_map pg) i = true ∧
    pool_get_from q l s = Done (item_addr p a i) (taken s q p a pg i).
Proof.
  intros Hinv Hp Hl Hsum Hfree. induction l as [|a l IH]; [done|].
  pose proof Hinv as [Hpools _]. pose proof (Hpools _ _ Hp) as Hpok.
  pose proof (freeitems_bounds _ _ _ Hpok) as Hfb. destruct Hpok as (Hg&Hnd&_&Hall).
  destruct (Hall a) as (Haddr&_&pg&Ha&Hok); [set_solver|].
  pose proof Hok as (Hmg&Hq&Hlen&Hit&Hcnt). pose proof Hg as (_&_&Hmax&_).
  cbn [pool_get_from]. unfold get_page, get_pool, bind, get, deref. rewrite Ha. cbn. rewrite Hp. cbn.
  destruct (Z.eqb_spec (pp_items pg) (pool_maxitems p)) as [Hfull|Hnf].
  - apply IH; [set_solver|]. unfold sumZ in *. simpl in Hsum. unfold room at 1 in Hsum.
    rewrite Ha in Hsum. lia.
  - clear IH. destruct (count_free_exists (pp_map pg) (pool_maxitems p)) as (k&Hk&Hks); [lia|].
    destruct (map_words _ Hmax) as (_&Hw&_).
    rewrite take_ge by lia. rewrite isset_bit in Hks.
    pose proof (Z.div_mod k 64 ltac:(lia)) as Hdm.
    pose proof (Z.mod_pos_bound k 64 ltac:(lia)) as Hmb.
    assert (0 ≤ k / 64) by (apply Z.div_pos; lia).
    destruct (get_word (pp_map pg) 0 (pool_maxitems p)) as [[wi j]|] eqn:Hgw; last first.
    { exfalso. destruct (lookup_lt_is_Some_2 (pp_map pg) (Z.to_nat (k / 64))) as [w Hlk]; [lia|].
      rewrite Hlk in Hks. simpl in Hks. revert Hgw.
      apply (get_word_None _ _ _ (Z.to_nat (k / 64)) (k mod 64) w); (lia || done). }
    apply get_word_Some in Hgw as (Hwi&Hj&Hlt&Hbit). rewrite Z.sub_0_r in Hbit.
    destruct (word_offset wi j Hj) as [Hdiv Hmod].
    exists a, pg, (64 * wi + j). rewrite isset_bit, Hdiv, Hmod.
    split_and!; [set_solver|done|done|lia|lia|done|].
    assert (inv (taken s q p a pg (64 * wi + j))) as Hinv'.
    { apply (inv_change s q p a pg); try done. simpl. unfold page_ok. simpl.
      rewrite length_insert. split_and!; [done..|lia|].
      rewrite (count_free_change (pp_map pg) _ _ (64 * wi + j) false).
      - rewrite isset_bit, Hdiv, Hmod, Hbit. lia.
      - lia.
      - intros x Hx. apply (isset_taken pg _ _ (pool_maxitems p)); (lia || done).
      - simpl. lia. }
    rewrite (u64_small (pool_freeitems p - 1)) by lia.
    pose proof (geometry_maxitems p Hg).
    rewrite (u64_small (pp_items pg + 1)) by
      (pose proof (count_free_bounds (pp_map pg) (pool_maxitems p)); lia).
    change POOL_MAP_WORD_BITS with 64. rewrite (Z.mul_comm wi 64).
    match goal with |- pool_page_datum _ _ ?s1 = _ =>
      replace s1 with (taken s q p a pg (64 * wi + j))
        by (unfold taken; by rewrite Hdiv, Hmod) end.
    refine (pool_page_datum_eq (taken s q p a pg (64 * wi + j)) a _
      (set_freeitems (pool_freeitems p - 1) p) _ Hinv' (lookup_insert_eq _ _ _) _ _).
    + simpl. rewrite Hq. apply lookup_insert_eq.
    + simpl. lia.
Qed.

Lemma taken_inv s q p a pg i :
  inv s → pools s !! q = Some p → pages s !! a = Some pg → pp_pool pg = q →
  0 ≤ i < pool_maxitems p → POOL_MAP_ISSET (pp_map pg) i = true → inv (taken s q p a pg i).
Proof.
  intros Hinv Hp Ha Hq Hi Hset.
  destruct (inv_page s a pg Hinv Ha) as (p'&Hp'&_&Hg&_&Hok&_). subst q. simplify_eq.
  destruct Hok as (Hmg&_&Hlen&Hit&Hcnt). pose proof Hg as (_&_&Hmax&_).
  eapply (inv_change s _ p a pg); try done; simpl; [|lia]. unfold page_ok. simpl.
  rewrite length_insert. split_and!; [done..|lia|].
  rewrite (count_free_change (pp_map pg) _ _ i false); [rewrite Hset; lia|lia|].
  intros k Hk. apply (isset_taken pg _ _ (pool_maxitems p)); (lia || done).
Qed.

(** Changing page [a] of pool [q] so that exactly the mark of item [i] may
    change, to [b], makes the item free or live and nothing else. *)
Lemma live_change s q p p' a pg pg' i b q' d z :
  inv s → pools s !! q = Some p → pages s !! a = Some pg → pp_pool pg = q →
  same_shape p p' → pp_pool pg' = q → 0 ≤ i < pool_maxitems p →
  (∀ k, 0 ≤ k → POOL_MAP_ISSET (pp_map pg') k =
     if k =? i then b else POOL_MAP_ISSET (pp_map pg) k) →
  live (mk_pst (<[q := p']> (pools s)) (<[a := pg']> (pages s)) (source s)) q' d z ↔
  (live s q' d z ∧ ¬ (q' = q ∧ d = item_addr p a i)) ∨
  (b = false ∧ q' = q ∧ d = item_addr p a i ∧ z = pool_size p).
Proof.
  intros Hinv Hp Ha Hq (Hsz&Hmx&Hfl) Hq' Hi Hbits. subst q.
  assert (∀ c k, item_addr p' c k = item_addr p c k) as Haddr.
  { intros. unfold item_addr. by rewrite Hsz, Hmx. }
  assert (∀ c pgc pc k, pages s !! c = Some pgc → pools s !! pp_pool pgc = Some pc →
    0 ≤ k < pool_maxitems pc → ¬ (a = c ∧ i = k) → item_addr pc c k ≠ item_addr p a i) as Hne.
  { intros c pgc pc k Hc Hpc Hk Hd Heq.
    pose proof (item_disjoint s c pgc pc k a pg p i Hinv Hc Hpc Ha Hp Hk Hi).
    destruct (inv_page s a pg Hinv Ha) as (?&?&_&(_&?&_)&_).
    destruct (inv_page s c pgc Hinv Hc) as (?&?&_&(_&?&_)&_). simplify_eq. lia. }
  split.
  - intros (c&pgc&pc&k&Hc&Hqc&Hpc&Hk&Hs&->&->). simpl in Hc, Hpc.
    destruct (decide (a = c)) as [<-|Hac].
    + rewrite lookup_insert_eq in Hc. injection Hc as <-.
      rewrite Hq' in Hqc. subst q'. rewrite lookup_insert_eq in Hpc. injection Hpc as <-.
      rewrite Hbits in Hs by lia. rewrite Haddr, Hsz. rewrite Hmx in Hk.
      destruct (Z.eqb_spec k i) as [->|Hki]; [by right|].
      left. split; [by exists a, pg, p, k|]. intros [_ He].
      apply (Hne a pg p k); [done|done|done|by intros [_ ?]|done].
    + rewrite lookup_insert_ne in Hc by done. left.
      assert (∃ pc0, pools s !! q' = Some pc0 ∧ item_addr pc c k = item_addr pc0 c k ∧
        pool_size pc = pool_size pc0 ∧ pool_maxitems pc = pool_maxitems pc0)
        as (pc0&Hpc0&->&->&Hm).
      { destruct (decide (pp_pool pg = q')) as [<-|Hneq].
        - rewrite lookup_insert_eq in Hpc. injection Hpc as <-. by exists p.
        - rewrite lookup_insert_ne in Hpc by done. by exists pc. }
      rewrite Hm in Hk. split; [by exists c, pgc, pc0, k|]. intros [-> He].
      apply (Hne c pgc pc0 k); [done|by rewrite Hqc|done|by intros [? _]|done].
  - intros [[(c&pgc&pc&k&Hc&Hqc&Hpc&Hk&Hs&->&->) Hno]|(->&->&->&->)].
    + destruct (decide (a = c)) as [<-|Hac].
      * simplify_eq. exists a, pg', p', k. simpl. rewrite !lookup_insert_eq, Haddr, Hsz, Hmx.
        split_and!; try done; try lia. rewrite Hbits by lia.
        destruct (Z.eqb_spec k i) as [->|]; [|done]. exfalso. by apply Hno.
      * destruct (decide (pp_pool pg = q')) as [<-|Hneq].
        -- exists c, pgc, p', k. simpl. rewrite lookup_insert_ne, lookup_insert_eq by done.
           rewrite Haddr, Hsz, Hmx. simplify_eq. by split_and!; try lia.
        -- exists c, pgc, pc, k. simpl. by rewrite !lookup_insert_ne.
    + exists a, pg', p', i. simpl. rewrite !lookup_insert_eq, Haddr, Hsz, Hmx.
      split_and!; try done; try lia. by rewrite Hbits, Z.eqb_refl by lia.
Qed.

(** An item of a page is live exactly if it is not marked free. *)
Lemma live_item s a pg p i z :
  inv s → pages s !! a = Some pg → pools s !! pp_pool pg = Some p →
  0 ≤ i < pool_maxitems p →
  live s (pp_pool pg) (item_addr p a i) z → POOL_MAP_ISSET (pp_map pg) i = false.
Proof.
  intros Hinv Ha Hp Hi (c&pgc&pc&k&Hc&Hqc&Hpc&Hk&Hs&Heq&_).
  assert (pools s !! pp_pool pgc = Some pc) as Hpc' by (by rewrite Hqc).
  destruct (decide (c = a ∧ k = i)) as [[-> ->]|Hne]; [by simplify_eq|].
  pose proof (item_disjoint s c pgc pc k a pg p i Hinv Hc Hpc' Ha Hp Hk Hi Hne).
  destruct (inv_page s a pg Hinv Ha) as (?&?&_&(_&?&_)&_). simplify_eq. lia.
Qed.

Lemma live_taken s q p a pg i q' d z :
  inv s → pools s !! q = Some p → pages s !! a = Some pg → pp_pool pg = q →
  0 ≤ i < pool_maxitems p → POOL_MAP_ISSET (pp_map pg) i = true →
  live (taken s q p a pg i) q' d z ↔
  live s q' d z ∨ (q' = q ∧ d = item_addr p a i ∧ z = pool_size p).
Proof.
  intros Hinv Hp Ha Hq Hi Hset.
  destruct (inv_page s a pg Hinv Ha) as (p0&Hp0&_&(_&_&Hmax&_)&_&(_&_&Hlen&_)&_).
  rewrite Hq, Hp in Hp0. injection Hp0 as <-. unfold taken.
  rewrite (live_change s q p _ a pg _ i false); try done.
  - split; [naive_solver|]. intros [Hl|?]; [|naive_solver]. left. split; [done|].
    intros [-> ->]. subst q. pose proof (live_item s a pg p i z Hinv Ha Hp Hi Hl). congruence.
  - intros k Hk. by apply (isset_taken pg i k (pool_maxitems p)).
Qed.

(** * [pool_allocate_page] *)

Definition grown s (q : Z) p (a : Z) (src : P) : pst P :=
  mk_pst (<[q := set_freeitems (pool_freeitems p + pool_maxitems p)
                   (set_pages (a :: pool_pages p) p)]> (pools s))
    (<[a := mk_page POOL_PAGE_MAGIC q 0 (fresh_map (pool_maxitems p))]> (pages s)) src.

Lemma grown_inv s q p a src :
  inv s → pools s !! q = Some p → ps_alloc (virtual p) (source s) = Done (Ok a) src →
  inv (grown s q p a src) ∧ pages s !! a = None.
Proof.
  intros Hinv Hp Hal. apply ps_alloc_ok in Hal as (H0&H1&H2&Hfresh&Hout).
  pose proof Hinv as [Hpools Hpages].
  assert (pages s !! a = None) as Hnone.
  { destruct (pages s !! a) as [pg|] eqn:Ha; [|done].
    destruct (inv_page s a pg Hinv Ha) as (p'&_&_&_&_&_&Ho). by apply Hfresh in Ho. }
  assert (∀ q0 p0, pools s !! q0 = Some p0 → a ∉ pool_pages p0) as Hnot.
  { intros q0 p0 Hp0 Hin. destruct (Hpools _ _ Hp0) as (_&_&_&Hall).
    destruct (Hall a Hin) as (_&Ho&_). by apply Hfresh in Ho. }
  split; [|done]. destruct (Hpools _ _ Hp) as (Hg&Hnd&Hsum&Hall).
  pose proof Hg as (_&_&Hmax&_). split; simpl.
  - intros q0 p0. destruct (decide (q = q0)) as [<-|Hne].
    + rewrite lookup_insert_eq. intros [= <-]. simpl. split_and!; simpl.
      * done.
      * constructor; [by eapply Hnot|done].
      * set (f := room _ _).
        assert (f a = pool_maxitems p) as Hfa.
        { unfold f, room. simpl. rewrite lookup_insert_eq. simpl. lia. }
        assert (sumZ f (pool_pages p) = sumZ (room s p) (pool_pages p)) as Hf.
        { apply sumZ_ext. intros b Hb. unfold f, room. simpl. rewrite lookup_insert_ne; [done|].
          intros <-. by apply (Hnot q p). }
        unfold sumZ in *. simpl. lia.
      * intros b [->|Hb]%elem_of_cons.
        -- split_and!; [done..|apply Hout; by right|]. eexists. rewrite lookup_insert_eq.
           split; [done|]. unfold page_ok. simpl.
           rewrite length_fresh_map, count_fresh_map by done. done.
        -- destruct (Hall b Hb) as (?&?&pgb&?&?). split_and!; [done..|apply Hout; by left|].
           exists pgb. rewrite lookup_insert_ne; [done|]. intros <-. by apply (Hnot q p).
    + rewrite lookup_insert_ne by done. intros Hp0.
      destruct (Hpools _ _ Hp0) as (Hg0&Hnd0&Hsum0&Hall0). split_and!; [done..| |].
      * rewrite Hsum0. apply sumZ_ext. intros b Hb. unfold room. simpl.
        rewrite lookup_insert_ne; [done|]. intros <-. by apply (Hnot q0 p0).
      * intros b Hb. destruct (Hall0 b Hb) as (?&?&pgb&?&?). split_and!; [done..|apply Hout; by left|].
        exists pgb. simpl. rewrite lookup_insert_ne; [done|]. intros <-. by apply (Hnot q0 p0).
  - intros b pgb. destruct (decide (a = b)) as [<-|Hab].
    + rewrite lookup_insert_eq. intros [= <-]. simpl. eexists. rewrite lookup_insert_eq.
      split; [done|]. simpl. by left.
    + rewrite lookup_insert_ne by done. intros Hb. destruct (Hpages b pgb Hb) as (p1&Hp1&?).
      destruct (decide (q = pp_pool pgb)) as [->|Hne].
      * eexists. rewrite lookup_insert_eq. split; [done|]. simpl. simplify_eq. by right.
      * exists p1. by rewrite lookup_insert_ne.
Qed.

(** A page without items in use adds no live block. *)
Lemma live_grown s q p a src q' d z :
  pools s !! q = Some p → pages s !! a = None → 1 ≤ pool_maxitems p →
  live (grown s q p a src) q' d z ↔ live s q' d z.
Proof.
  intros Hp Ha Hmax. split; intros (b&pgb&pb&k&Hb&Hqb&Hpb&Hk&Hs&->&->); simpl in *.
  - destruct (decide (a = b)) as [<-|Hab].
    { rewrite lookup_insert_eq in Hb. injection Hb as <-. simpl in Hqb, Hs. subst q'.
      rewrite lookup_insert_eq in Hpb. injection Hpb as <-. simpl in Hk.
      by rewrite isset_fresh_map in Hs by lia. }
    rewrite lookup_insert_ne in Hb by done.
    destruct (decide (q = q')) as [<-|Hne].
    + rewrite lookup_insert_eq in Hpb. injection Hpb as <-. by exists b, pgb, p, k.
    + rewrite lookup_insert_ne in Hpb by done. by exists b, pgb, pb, k.
  - assert (a ≠ b) by congruence. destruct (decide (q = q')) as [<-|Hne].
    + eexists b, pgb, _, k. simpl. rewrite lookup_insert_ne, lookup_insert_eq by done.
      simplify_eq. split; [done|]. split; [done|]. split; [reflexivity|].
      split; [exact Hk|]. by split.
    + exists b, pgb, pb, k. simpl. by rewrite !lookup_insert_ne.
Qed.

(** * Locking *)

Lemma get_pool_eq s q p : pools s !! q = Some p → get_pool q s = Done p s.
Proof. intros Hp. unfold get_pool, bind, get, deref. by rewrite Hp. Qed.
Lemma get_page_eq s a pg : pages s !! a = Some pg → get_page a s = Done pg s.
Proof. intros Ha. unfold get_page, bind, get, deref. by rewrite Ha. Qed.

Definition with_lock (b : bool) s (q : Z) p : pst P :=
  mk_pst (<[q := set_pool_lock b p]> (pools s)) (pages s) (source s).

Lemma POOL_LOCK_eq s q p :
  pools s !! q = Some p → pool_lock p = false → POOL_LOCK q s = Done tt (with_lock true s q p).
Proof.
  intros Hp Hl. unfold POOL_LOCK, locking. unfold bind at 1. rewrite (get_pool_eq _ _ _ Hp).
  unfold acquire, bind, get, put. simpl. by rewrite Hl.
Qed.

Lemma POOL_UNLOCK_eq s q p :
  pools s !! q = Some p → pool_lock p = true → POOL_UNLOCK q s = Done tt (with_lock false s q p).
Proof.
  intros Hp Hl. unfold POOL_UNLOCK, locking. unfold bind at 1. rewrite (get_pool_eq _ _ _ Hp).
  unfold release, bind, get, put. simpl. by rewrite Hl.
Qed.

Lemma live_lock b s q p q' d z :
  pools s !! q = Some p → live (with_lock b s q p) q' d z ↔ live s q' d z.
Proof.
  intros Hp. split; apply live_agree; try done; intros q0; simpl;
    (destruct (decide (q = q0)) as [<-|];
     [rewrite lookup_insert_eq, Hp; by constructor
     |rewrite lookup_insert_ne by done; destruct (pools s !! q0); by constructor]).
Qed.

(** [pool_get] on a pool that has a free item. *)
Lemma pool_get_eq s q p :
  inv s → pools s !! q = Some p → pool_freeitems p ≠ 0 →
  ∃ a pg i, a ∈ pool_pages p ∧ pages s !! a = Some pg ∧ pp_pool pg = q ∧
    0 ≤ i < pool_maxitems p ∧ POOL_MAP_ISSET (pp_map pg) i = true ∧
    pool_get q s = Done (item_addr p a i) (taken s q p a pg i).
Proof.
  intros Hinv Hp Hf. pose proof (proj1 Hinv _ _ Hp) as Hok.
  pose proof (freeitems_bounds _ _ _ Hok). pose proof Hok as (_&_&Hsum&_).
  unfold pool_get, bind. rewrite (get_pool_eq _ _ _ Hp).
  rewrite (proj2 (Z.eqb_neq _ _) Hf). simpl.
  apply pool_get_from_eq; try done; [congruence|lia].
Qed.

(** The state in which [pool_get] runs: the pool has a free item. *)
Definition stocked s (q : Z) (s2 : pst P) : Prop :=
  ∃ p p2, pools s !! q = Some p ∧ pools s2 !! q = Some p2 ∧ same_shape p p2 ∧
    pool_lock p2 = true ∧ pool_freeitems p2 ≠ 0 ∧ inv s2 ∧
    (∀ q', q ≠ q' → pools s2 !! q' = pools s !! q') ∧
    (∀ q' d z, live s2 q' d z ↔ live s q' d z) ∧
    (∀ b pgb, pages s2 !! b = Some pgb → pages s !! b = Some pgb ∨
       ∀ c pgc, pages s2 !! c = Some pgc → pp_pool pgc = q → c ≠ b →
         count_free (pp_map pgc) (pool_maxitems p2) = 0).

(** In a pool without free items every page is full. *)
Lemma full_pages s p a pg :
  inv s → pages s !! a = Some pg → pools s !! pp_pool pg = Some p → pool_freeitems p = 0 →
  count_free (pp_map pg) (pool_maxitems p) = 0.
Proof.
  intros Hinv Ha Hp Hf. destruct (inv_page s a pg Hinv Ha) as (p'&Hp'&Hin&_&_&(_&_&_&_&Hc)&_).
  rewrite Hp in Hp'. injection Hp' as <-. pose proof (proj1 Hinv _ _ Hp) as Hok. pose proof Hok as (Hg&_&Hsum&_).
  assert (room s p a ≤ sumZ (room s p) (pool_pages p)) as Hr.
  { apply sumZ_elem; [|done]. intros x Hx. by apply (room_bounds s (pp_pool pg) p). }
  unfold room in Hr at 1. rewrite Ha in Hr.
  pose proof Hg as (_&_&Hm&_). pose proof (count_free_bounds (pp_map pg) (pool_maxitems p)). lia.
Qed.

Lemma allocate_page_outcome s q p :
  inv s → pools s !! q = Some p → pool_lock p = true → pool_freeitems p = 0 →
  match or_panic "pool_allocate_page failed" (pool_allocate_page q) s with
  | Done _ s2 => stocked s q s2
  | Stop w => ∀ a src, ps_alloc (virtual p) (source s) ≠ Done (Ok a) src
  end.
Proof.
  intros Hinv Hp Hl Hf. unfold or_panic, pool_allocate_page, bind_ok, bind.
  rewrite (get_pool_eq _ _ _ Hp). unfold on_source, zoom.
  destruct (ps_alloc (virtual p) (source s)) as [[a|e] src|w] eqn:Hal; [|done..].
  destruct (grown_inv s q p a src Hinv Hp Hal) as [Hinv' Hnone].
  pose proof (proj1 Hinv _ _ Hp) as (Hg&_). pose proof Hg as (_&_&Hmax&_).
  pose proof (geometry_maxitems p Hg).
  unfold pool_insert_page, get_pool, get, deref, bind. simpl. rewrite Hp. simpl.
  rewrite u64_small by lia. fold (grown s q p a src).
  eexists p, _. split_and!; [done|apply lookup_insert_eq|done|done|simpl; lia|done| | |]; simpl.
  - intros q' Hq'. by rewrite lookup_insert_ne.
  - intros q' d z. by apply live_grown.
  - intros b pgb. destruct (decide (a = b)) as [<-|Hab].
    + intros _. right. intros c pgc Hc Hqc Hne. rewrite lookup_insert_ne in Hc by done.
      apply (full_pages s p c); [done..|by rewrite Hqc|done].
    + rewrite lookup_insert_ne by done. by left.
Qed.

Lemma pool_allocate_sound s q p :
  inv s → quiet s → pools s !! q = Some p →
  match pool_allocate q s with
  | Done d s' =>
      inv s' ∧ quiet s' ∧
      (∀ q' d' z', live s' q' d' z' ↔
         live s q' d' z' ∨ (q' = q ∧ d' = d ∧ z' = pool_size p)) ∧
      (∀ q' d' z', live s q' d' z' → d + pool_size p ≤ d' ∨ d' + z' ≤ d) ∧
      PAGE_FLOOR (d + pool_size p - 1) = PAGE_FLOOR d
  | Stop w =>
      pool_freeitems p = 0 ∧ ∀ a src, ps_alloc (virtual p) (source s) ≠ Done (Ok a) src
  end.
Proof.
  intros Hinv [Hlk Hbusy] Hp. pose proof (proj1 Hinv _ _ Hp) as (Hg&_).
  pose proof Hg as (Hv&[Hz0 Hz]&_). unfold pool_allocate, bind.
  rewrite (get_pool_eq _ _ _ Hp), Hv. simpl. rewrite (proj2 (Z.leb_le _ _) Hz). simpl.
  rewrite (POOL_LOCK_eq _ _ _ Hp) by by apply (Hlk q).
  set (s1 := with_lock true s q p). set (p1 := set_pool_lock true p).
  assert (pools s1 !! q = Some p1) as Hp1 by apply lookup_insert_eq.
  assert (inv s1) as Hinv1 by by apply inv_lock.
  rewrite (get_pool_eq _ _ _ Hp1).
  assert (match (if pool_freeitems p1 =? 0
                 then or_panic "pool_allocate_page failed" (pool_allocate_page q)
                 else ret tt) s1 with
          | Done _ s2 => stocked s1 q s2
          | Stop w => pool_freeitems p = 0 ∧
              ∀ a src, ps_alloc (virtual p) (source s) ≠ Done (Ok a) src end) as Hst.
  { destruct (Z.eqb_spec (pool_freeitems p1) 0) as [H0|H0].
    - pose proof (allocate_page_outcome s1 q p1 Hinv1 Hp1 eq_refl H0) as Ho.
      destruct (or_panic _ _ _); [done|]. by split.
    - exists p1, p1. split_and!; try done. intros; by left. }
  destruct (_ s1) as [[] s2|w]; [|done].
  destruct Hst as (p0&p2&Hp0&Hp2&Hsh&Hl2&Hf2&Hinv2&Hoth&Hlive&Hpgs).
  rewrite Hp1 in Hp0. injection Hp0 as <-.
  destruct (pool_get_eq s2 q p2 Hinv2 Hp2 Hf2) as (a&pg&i&Hin&Ha&Hq&Hi&Hset&->).
  set (s3 := taken s2 q p2 a pg i).
  assert (pools s3 !! q = Some (set_freeitems (pool_freeitems p2 - 1) p2)) as Hp3
    by apply lookup_insert_eq.
  rewrite (POOL_UNLOCK_eq s3 q _ Hp3 Hl2). simpl.
  assert (pool_size p2 = pool_size p) as Hsz by apply Hsh.
  assert (∀ q' d z, live (with_lock false s3 q (set_freeitems (pool_freeitems p2 - 1) p2)) q' d z ↔
    live s q' d z ∨ (q' = q ∧ d = item_addr p2 a i ∧ z = pool_size p)) as Hlv.
  { intros q' d z. rewrite live_lock, <-Hsz by done. unfold s3. rewrite live_taken by done.
    rewrite Hlive. unfold s1. by rewrite live_lock. }
  assert (inv s3) as Hinv3 by by apply taken_inv.
  split_and!; [by apply inv_lock| |done| |].
  - split; simpl.
    + intros q' p'. destruct (decide (q = q')) as [<-|Hne].
      * rewrite lookup_insert_eq. by intros [= <-].
      * rewrite !lookup_insert_ne, Hoth by done. unfold s1. simpl.
        rewrite lookup_insert_ne by done. apply Hlk.
    + intros b pgb. destruct (decide (a = b)) as [<-|Hab].
      * rewrite lookup_insert_eq. intros [= <-]. simpl.
        destruct (inv_page s2 a pg Hinv2 Ha) as (?&_&_&_&_&(_&_&_&?&_)&_). lia.
      * rewrite lookup_insert_ne by done. intros Hb.
        destruct (Hpgs b pgb Hb) as [Hb1|Hfull]; [by apply (Hbusy b)|].
        assert (count_free (pp_map pg) (pool_maxitems p2) = 0) as Hz' by (by apply (Hfull a)).
        pose proof (count_free_pos _ _ _ Hi Hset). lia.
  - intros q' d' z' Hl. rewrite <-Hsz.
    assert (live s2 q' d' z') as (b&pgb&pb&k&Hb&Hqb&Hpb&Hk&Hs&->&->).
    { apply Hlive. unfold s1. by rewrite live_lock. }
    subst q'. eapply (item_disjoint s2); [done|done|by rewrite Hq|done..|].
    intros [-> ->]. simplify_eq. congruence.
  - destruct (inv_page s2 a pg Hinv2 Ha) as (p'&Hp'&_&Hg'&Haddr&_&_). rewrite Hq, Hp2 in Hp'.
    injection Hp' as <-. destruct (item_in_page p2 a i Hg' Hi) as (?&?&_).
    rewrite !(page_floor_in a) by (done || lia). done.
Qed.

(** C9: under the invariant [pool_allocate] can only stop for want of a page.
    Otherwise it returns a block of the pool's item size that lies inside
    one page, overlaps no live block of any pool and is the only change to
    the set of live blocks; and the invariant holds again. *)
Theorem pool_allocate_correct s q p :
  inv s → quiet s → pools s !! q = Some p →
  match pool_allocate q s with
  | Done d s' =>
      inv s' ∧ quiet s' ∧
      (∀ q' d' z', live s' q' d' z' ↔
         live s q' d' z' ∨ (q' = q ∧ d' = d ∧ z' = pool_size p)) ∧
      (∀ q' d' z', live s q' d' z' → d + pool_size p ≤ d' ∨ d' + z' ≤ d) ∧
      PAGE_FLOOR (d + pool_size p - 1) = PAGE_FLOOR d
  | Stop w =>
      pool_freeitems p = 0 ∧ ∀ a src, ps_alloc (virtual p) (source s) ≠ Done (Ok a) src
  end.
Proof. apply pool_allocate_sound. Qed.

(** * [pool_free] *)

Definition marked_free pg (i : Z) : list Z :=
  <[Z.to_nat (i / 64) := Z.lor (default 0 (pp_map pg !! Z.to_nat (i / 64)))
     (Z.shiftl 1 (i mod 64))]> (pp_map pg).

Lemma isset_marked_free pg i k n :
  1 ≤ n → length (pp_map pg) = Z.to_nat (POOL_MAP_WORDS n) → 0 ≤ i < n → 0 ≤ k →
  POOL_MAP_ISSET (marked_free pg i) k =
  if k =? i then true else POOL_MAP_ISSET (pp_map pg) k.
Proof.
  intros Hn Hlen Hi Hk. destruct (map_words n Hn) as (_&?&?).
  pose proof (Z.div_mod i 64 ltac:(lia)) as Hdm.
  pose proof (Z.mod_pos_bound i 64 ltac:(lia)) as Hmb.
  assert (0 ≤ i / 64) by (apply Z.div_pos; lia). unfold marked_free.
  rewrite (isset_insert (pp_map pg) (i / 64) (i mod 64) _ k true).
  - by rewrite <-Hdm.
  - lia.
  - lia.
  - rewrite Hlen. lia.
  - lia.
  - intros l Hl. rewrite testbit_set by lia.
    by destruct (l =? i mod 64); rewrite ?orb_true_r, ?orb_false_r.
Qed.

Lemma free_datum_eq s a pg p i :
  inv s → pages s !! a = Some pg → pools s !! pp_pool pg = Some p → 0 ≤ i < pool_maxitems p →
  pool_page_free_datum a (item_addr p a i) s =
  Done tt (mk_pst (pools s) (<[a := mk_page (pp_magic pg) (pp_pool pg) (pp_items pg)
             (marked_free pg i)]> (pages s)) (source s)).
Proof.
  intros Hinv Ha Hp Hi.
  destruct (inv_page s a pg Hinv Ha) as (p0&Hp0&_&Hg&Haddr&(Hmg&_&Hlen&_)&_).
  rewrite Hp in Hp0. injection Hp0 as <-. pose proof Hg as (_&Hsz&Hmax&_).
  unfold pool_page_free_datum. unfold bind at 1. rewrite (get_page_eq _ _ _ Ha).
  unfold bind at 1. rewrite Hmg, Z.eqb_refl. unfold assert_, ret.
  unfold bind at 1. rewrite (pool_page_datum_eq s a pg p 0) by (done || lia).
  unfold bind at 1. rewrite (get_pool_eq _ _ _ Hp).
  rewrite (proj2 (Z.eqb_neq (pool_size p) 0)) by lia.
  assert (u32 (u64 (item_addr p a i - item_addr p a 0) / pool_size p) = i) as ->.
  { unfold item_addr. pose proof (item_in_page p a i Hg Hi) as (_&_&?).
    pose proof (geometry_maxitems p Hg).
    replace (_ - _) with (i * pool_size p) by lia.
    change MAX_ALLOC_SIZE with 4056 in Hsz.
    rewrite u64_small by nia. rewrite Z.div_mul by lia. apply u32_small. lia. }
  unfold POOL_WORD, POOL_OFFSET. change POOL_MAP_WORD_BITS with 64.
  destruct (map_words _ Hmax) as (_&?&?).
  assert (0 ≤ i / 64) by (apply Z.div_pos; lia).
  assert (i / 64 < POOL_MAP_WORDS (pool_maxitems p)) by (apply Z.div_lt_upper_bound; lia).
  destruct (lookup_lt_is_Some_2 (pp_map pg) (Z.to_nat (i / 64))) as [w Hw]; [lia|].
  unfold marked_free. rewrite Hw. done.
Qed.

Lemma slist_remove_perm a l : a ∈ l → ∃ l', slist_remove a l = Some l' ∧ l ≡ₚ a :: l'.
Proof.
  induction l as [|b l IH]; [set_solver|]. intros Ha. simpl. case_decide as Hab.
  - subst. by exists l.
  - destruct IH as (l'&->&Hl); [set_solver|]. exists (b :: l'). split; [done|].
    rewrite Hl. apply Permutation_swap.
Qed.

(** Page [a] gone from pool [q]. *)
Definition dropped s (q : Z) p (a : Z) (l : list Z) (src : P) : pst P :=
  mk_pst (<[q := set_freeitems (pool_freeitems p - room s p a) (set_pages l p)]> (pools s))
    (delete a (pages s)) src.

Lemma dropped_inv s q p a pg l src :
  inv s → pools s !! q = Some p → pages s !! a = Some pg → pp_pool pg = q →
  pool_pages p ≡ₚ a :: l →
  (∀ w b, ps_out w src b ↔ ps_out w (source s) b ∧ ¬ (w = virtual p ∧ b = a)) →
  inv (dropped s q p a l src).
Proof.
  intros Hinv Hp Ha Hq Hl Hout. pose proof Hinv as [Hpools Hpages].
  destruct (Hpools _ _ Hp) as (Hg&Hnd&Hsum&Hall).
  assert (a ∉ l ∧ NoDup l) as [Hal Hndl] by (rewrite Hl in Hnd; by apply NoDup_cons).
  assert (∀ q0 p0, pools s !! q0 = Some p0 → q0 ≠ q → a ∉ pool_pages p0) as Hnot.
  { intros q0 p0 Hp0 Hne Hin. destruct (Hpools _ _ Hp0) as (_&_&_&Hall0).
    destruct (Hall0 a Hin) as (_&_&pg0&?&(_&?&_)). simplify_eq. }
  split; simpl.
  - intros q0 p0. destruct (decide (q = q0)) as [<-|Hne].
    + rewrite lookup_insert_eq. intros [= <-]. split_and!; [done|done| |]; simpl.
      * rewrite Hsum, (sumZ_perm _ _ _ Hl).
        rewrite (sumZ_ext (room (dropped s q p a l src) _) (room s p) l).
        { unfold sumZ. simpl. lia. }
        intros b Hb. unfold room. simpl. rewrite lookup_delete_ne; [done|]. by intros <-.
      * intros b Hb. assert (a ≠ b) by (by intros <-).
        destruct (Hall b) as (?&?&pgb&?&?); [rewrite Hl; by right|].
        split_and!; [done..|apply Hout; naive_solver|]. exists pgb.
        by rewrite lookup_delete_ne.
    + rewrite lookup_insert_ne by done. intros Hp0. pose proof (Hnot q0 p0 Hp0 (not_eq_sym Hne)).
      destruct (Hpools _ _ Hp0) as (Hg0&Hnd0&Hsum0&Hall0). split_and!; [done..| |].
      * rewrite Hsum0. apply sumZ_ext. intros b Hb. unfold room. simpl.
        rewrite lookup_delete_ne; [done|]. by intros <-.
      * intros b Hb. assert (a ≠ b) by (by intros <-). destruct (Hall0 b Hb) as (?&?&pgb&?&?).
        split_and!; [done..|apply Hout; naive_solver|]. exists pgb. simpl.
        by rewrite lookup_delete_ne.
  - intros b pgb Hb. apply lookup_delete_Some in Hb as [Hab Hb].
    destruct (Hpages b pgb Hb) as (p1&Hp1&Hin1).
    destruct (decide (q = pp_pool pgb)) as [->|Hne].
    + eexists. rewrite lookup_insert_eq. split; [done|]. simpl. simplify_eq.
      rewrite Hl in Hin1. set_solver.
    + exists p1. by rewrite lookup_insert_ne.
Qed.

(** Dropping a page without live items changes no live block. *)
Lemma live_dropped s q p a pg l src q' d z :
  inv s → pools s !! q = Some p → pages s !! a = Some pg → pp_pool pg = q → pp_items pg = 0 →
  live (dropped s q p a l src) q' d z ↔ live s q' d z.
Proof.
  intros Hinv Hp Ha Hq H0. split; intros (b&pgb&pb&k&Hb&Hqb&Hpb&Hk&Hs&->&->); simpl in *.
  - apply lookup_delete_Some in Hb as [Hab Hb]. destruct (decide (q = q')) as [<-|Hne].
    + rewrite lookup_insert_eq in Hpb. injection Hpb as <-. by exists b, pgb, p, k.
    + rewrite lookup_insert_ne in Hpb by done. by exists b, pgb, pb, k.
  - destruct (decide (a = b)) as [<-|Hab].
    { exfalso. destruct (inv_page s a pg Hinv Ha) as (p1&Hp1&_&_&_&(_&_&_&_&Hc)&_).
      rewrite Hb in Ha. injection Ha as <-. rewrite Hqb, Hpb in Hp1. injection Hp1 as <-.
      rewrite (count_free_full (pp_map pgb) (pool_maxitems pb)) in Hs; (done || lia). }
    destruct (decide (q = q')) as [<-|Hne].
    + eexists b, pgb, _, k. simpl. rewrite lookup_delete_ne, lookup_insert_eq by done.
      simplify_eq. split; [done|]. split; [done|]. split; [reflexivity|].
      split; [exact Hk|]. by split.
    + exists b, pgb, pb, k. simpl. by rewrite lookup_delete_ne, lookup_insert_ne.
Qed.

(** The state after item [i] of page [a] is marked free. *)
Definition released s (q : Z) p (a : Z) pg (i : Z) : pst P :=
  mk_pst (<[q := set_freeitems (pool_freeitems p + 1) p]> (pools s))
    (<[a := mk_page (pp_magic pg) (pp_pool pg) (pp_items pg - 1) (marked_free pg i)]> (pages s))
    (source s).

Lemma released_inv s q p a pg i :
  inv s → pools s !! q = Some p → pages s !! a = Some pg → pp_pool pg = q →
  1 ≤ pp_items pg → 0 ≤ i < pool_maxitems p → POOL_MAP_ISSET (pp_map pg) i = false →
  inv (released s q p a pg i).
Proof.
  intros Hinv Hp Ha Hq H1 Hi Hset.
  destruct (inv_page s a pg Hinv Ha) as (p'&Hp'&_&(_&_&Hmax&_)&_&(Hmg&_&Hlen&Hit&Hcnt)&_).
  rewrite Hq, Hp in Hp'. injection Hp' as <-.
  eapply (inv_change s q p a pg); try done; simpl; [|lia]. unfold page_ok. simpl.
  unfold marked_free at 1. rewrite length_insert. split_and!; [done..|lia|].
  rewrite (count_free_change (pp_map pg) _ _ i true); [rewrite Hset; lia|lia|].
  intros k Hk. apply (isset_marked_free pg i k (pool_maxitems p)); (done || lia).
Qed.

Lemma live_released s q p a pg i q' d z :
  inv s → pools s !! q = Some p → pages s !! a = Some pg → pp_pool pg = q →
  0 ≤ i < pool_maxitems p →
  live (released s q p a pg i) q' d z ↔ live s q' d z ∧ ¬ (q' = q ∧ d = item_addr p a i).
Proof.
  intros Hinv Hp Ha Hq Hi.
  destruct (inv_page s a pg Hinv Ha) as (p0&Hp0&_&(_&_&Hmax&_)&_&(_&_&Hlen&_)&_).
  rewrite Hq, Hp in Hp0. injection Hp0 as <-. unfold released.
  rewrite (live_change s q p _ a pg _ i true); try done; [naive_solver|].
  intros k Hk. by apply (isset_marked_free pg i k (pool_maxitems p)).
Qed.

(** The tail of [pool_free], after the item is marked free under the lock:
    [s] is the state before the item was marked. *)
Lemma pool_free_last s q p a pg i :
  inv s → pools s !! q = Some p → pool_lock p = true → pages s !! a = Some pg →
  pp_pool pg = q → pp_items pg = 1 → 0 ≤ i < pool_maxitems p →
  POOL_MAP_ISSET (pp_map pg) i = false →
  ∃ l src, slist_remove a (pool_pages p) = Some l ∧
    ps_free (virtual p) a (source s) = Done (Ok tt) src ∧
    (∀ w b, ps_out w src b ↔ ps_out w (source s) b ∧ ¬ (w = virtual p ∧ b = a)) ∧
    let s' := mk_pst (<[q := set_freeitems (pool_freeitems p - (pool_maxitems p - 1))
                               (set_pages l p)]> (pools s)) (delete a (pages s)) src in
    inv s' ∧ ∀ q' d z, live s' q' d z ↔ live s q' d z ∧ ¬ (q' = q ∧ d = item_addr p a i).
Proof.
  intros Hinv Hp Hlk Ha Hq H1 Hi Hset.
  destruct (inv_page s a pg Hinv Ha) as (p0&Hp0&Hin&_&_&_&Hout).
  rewrite Hq, Hp in Hp0. injection Hp0 as <-.
  destruct (slist_remove_perm a (pool_pages p) Hin) as (l&Hl&Hperm).
  destruct (ps_free_ok (virtual p) (source s) a Hout) as (src&Hfree&Hsrc).
  exists l, src. split; [done|]. split; [done|]. split; [done|].
  pose proof (released_inv s q p a pg i Hinv Hp Ha Hq ltac:(lia) Hi Hset) as Hinv'.
  set (s1 := released s q p a pg i) in *.
  set (p1 := set_freeitems (pool_freeitems p + 1) p).
  assert (pools s1 !! q = Some p1) as Hp1 by apply lookup_insert_eq.
  assert (pages s1 !! a = Some (mk_page (pp_magic pg) (pp_pool pg) (pp_items pg - 1)
    (marked_free pg i))) as Ha1 by apply lookup_insert_eq.
  assert (mk_pst (<[q := set_freeitems (pool_freeitems p - (pool_maxitems p - 1))
                               (set_pages l p)]> (pools s)) (delete a (pages s)) src =
          dropped s1 q p1 a l src) as ->.
  { unfold dropped. f_equal.
    - simpl. rewrite insert_insert_eq. f_equal. unfold room. simpl. rewrite lookup_insert_eq.
      simpl. unfold set_freeitems, set_pages. simpl. f_equal. lia.
    - simpl. by rewrite delete_insert_eq. }
  split; [by eapply dropped_inv|]. intros q' d z.
  rewrite (live_dropped s1 q p1 a _ l src) by (done || (simpl; lia)).
  by apply live_released.
Qed.

(** Unlocking pool [q] restores quiet. *)
Lemma quiet_unlock s s' q p :
  quiet s → pools s' !! q = Some p → (∀ q', q ≠ q' → pools s' !! q' = pools s !! q') →
  (∀ a pg, pages s' !! a = Some pg → pages s !! a = Some pg ∨ 1 ≤ pp_items pg) →
  quiet (with_lock false s' q p).
Proof.
  intros [Hl Hb] Hp Hoth Hpg. split; simpl.
  - intros q' p'. destruct (decide (q = q')) as [<-|Hne].
    + rewrite lookup_insert_eq. by intros [= <-].
    + rewrite lookup_insert_ne, Hoth by done. apply Hl.
  - intros a pg Ha. destruct (Hpg a pg Ha); [by apply (Hb a)|done].
Qed.

Lemma datum_page_eq s a pg p i :
  inv s → pages s !! a = Some pg → pools s !! pp_pool pg = Some p → 0 ≤ i < pool_maxitems p →
  PAGE_FLOOR (item_addr p a i) = a ∧ pool_datum_page (item_addr p a i) s = Done a s.
Proof.
  intros Hinv Ha Hp Hi.
  destruct (inv_page s a pg Hinv Ha) as (p0&Hp0&_&Hg&Haddr&(Hmg&_)&_).
  rewrite Hp in Hp0. injection Hp0 as <-. pose proof Hg as (_&?&_).
  destruct (item_in_page p a i Hg Hi) as (?&?&_).
  assert (PAGE_FLOOR (item_addr p a i) = a) as Hfl by (apply page_floor_in; [done|lia]).
  split; [done|]. unfold pool_datum_page, bind. rewrite Hfl, (get_page_eq _ _ _ Ha), Hmg.
  by rewrite Z.eqb_refl.
Qed.

Lemma pool_free_sound s q p d z :
  inv s → quiet s → pools s !! q = Some p → live s q d z →
  ∃ s', pool_free d s = Done tt s' ∧ inv s' ∧ quiet s' ∧
    (∀ q' d' z', live s' q' d' z' ↔ live s q' d' z' ∧ ¬ (q' = q ∧ d' = d)) ∧
    (∀ pg, pages s !! PAGE_FLOOR d = Some pg → pp_items pg = 1 →
       pages s' !! PAGE_FLOOR d = None ∧ ¬ ps_out (virtual p) (source s') (PAGE_FLOOR d)) ∧
    (∃ p', pools s' !! q = Some p' ∧ same_shape p p').
Proof.
  intros Hinv Hquiet Hp (a&pg&p0&i&Ha&Hq&Hp0&Hi&Hset&->&->). rewrite Hp in Hp0.
  injection Hp0 as <-. assert (pools s !! pp_pool pg = Some p) as Hpq by (by rewrite Hq).
  pose proof (proj2 Hquiet a pg Ha) as Hit. pose proof (proj1 Hquiet q p Hp) as Hlk.
  pose proof (proj1 Hinv _ _ Hp) as Hok. pose proof (freeitems_bounds _ _ _ Hok) as Hfb.
  pose proof Hok as ((Hv&_&Hmax&_)&_). pose proof (geometry_maxitems p (proj1 Hok)) as Hm2.
  destruct (datum_page_eq s a pg p i Hinv Ha Hpq Hi) as [Hfl Hdp]. rewrite Hfl.
  unfold pool_free. unfold bind at 1. rewrite Hdp. unfold bind at 1. rewrite (get_page_eq _ _ _ Ha).
  rewrite Hq. unfold bind at 1. rewrite (get_pool_eq _ _ _ Hp), Hv. unfold bind at 1.
  cbn [assert_ ret]. unfold ret. unfold bind at 1. rewrite (POOL_LOCK_eq _ _ _ Hp Hlk).
  set (p1 := set_pool_lock true p). set (s1 := with_lock true s q p).
  assert (pools s1 !! q = Some p1) as Hp1 by apply lookup_insert_eq.
  assert (inv s1) as Hinv1 by by apply inv_lock.
  assert (pools s1 !! pp_pool pg = Some p1) as Hp1' by (by rewrite Hq).
  pose proof (free_datum_eq s1 a pg p1 i Hinv1 Ha Hp1' Hi) as Hfd.
  change (item_addr p1 a i) with (item_addr p a i) in Hfd. unfold bind at 1. rewrite Hfd.
  set (s2 := mk_pst _ _ _). unfold bind at 1.
  rewrite (get_page_eq s2 a _ (lookup_insert_eq _ _ _)). unfold bind at 1.
  rewrite (get_pool_eq s2 q p1 Hp1). cbn [pp_items pp_magic pp_pool pp_map].
  rewrite (proj2 (Z.eqb_neq (pp_items pg) 0)) by lia. unfold bind at 1. unfold put_page, modify.
  unfold s2. cbn [pools pages source]. rewrite insert_insert_eq.
  assert (∀ q' d' z', live s1 q' d' z' ↔ live s q' d' z') as Hl1
    by (intros; by apply live_lock).
  destruct (Z.eqb_spec (pp_items pg) 1) as [H1|H1]; cbn [negb].
  - unfold bind at 1.
    destruct (pool_free_last s1 q p1 a pg i Hinv1 Hp1 eq_refl Ha Hq H1 Hi Hset)
      as (l&src&Hl&Hfree&Hsrc&Hinv2&Hlive).
    rewrite Hl. cbn [deref]. unfold ret. unfold bind, put_pool, modify, or_panic, bind, on_source, zoom.
    cbn [pools pages source]. change (virtual p1) with (virtual p) in *.
    assert (pool_maxitems p - 1 ≤ pool_freeitems p) as Hge.
    { destruct (proj2 Hinv a pg Ha) as (p'&Hp'&Hin). rewrite Hpq in Hp'. injection Hp' as <-.
      pose proof Hok as (_&_&->&_).
      pose proof (sumZ_elem (room s p) (pool_pages p) a) as Hr. unfold room in Hr at 2.
      rewrite Ha, H1 in Hr. apply Hr; [|done]. intros x Hx. by apply (room_bounds s q p). }
    rewrite u64_small by (simpl; lia). rewrite Hfree. unfold ret. cbn beta iota.
    rewrite delete_insert_eq. cbv zeta in Hinv2, Hlive.
    set (s3 := mk_pst (<[q := set_freeitems _ (set_pages l p1)]> _) _ src) in *.
    assert (pools s3 !! q = Some (set_freeitems (pool_freeitems p1 - (pool_maxitems p1 - 1))
      (set_pages l p1))) as Hp3 by apply lookup_insert_eq.
    rewrite (POOL_UNLOCK_eq s3 q _ Hp3 eq_refl). eexists. split; [done|].
    split_and!; [by apply inv_lock| | | |eexists; split; [apply lookup_insert_eq|done]].
    + apply (quiet_unlock s); [done|done| |].
      * intros q' Hne. simpl. by rewrite !lookup_insert_ne.
      * intros b pgb. simpl. intros Hb. left. by apply lookup_delete_Some in Hb as [_ ?].
    + intros q' d' z'. rewrite live_lock, Hlive by done. by rewrite Hl1.
    + intros _ _ _. split; [apply lookup_delete_eq|]. intros Ho. apply Hsrc in Ho. tauto.
  - unfold bind, put_pool, modify. cbn [pools pages source].
    rewrite u64_small by (simpl; lia).
    set (s3 := mk_pst _ _ _).
    assert (pools s3 !! q = Some (set_freeitems (pool_freeitems p1 + 1) p1)) as Hp3
      by apply lookup_insert_eq.
    rewrite (POOL_UNLOCK_eq s3 q _ Hp3 eq_refl). eexists. split; [done|].
    assert (inv s3) as Hinv3 by (apply released_inv; done).
    split_and!; [by apply inv_lock| | |intros ? Hpg; rewrite Ha in Hpg; by injection Hpg as ->
      |eexists; split; [apply lookup_insert_eq|done]].
    + apply (quiet_unlock s); [done|done| |].
      * intros q' Hne. simpl. by rewrite !lookup_insert_ne.
      * intros b pgb. simpl. destruct (decide (a = b)) as [<-|Hne].
        -- rewrite lookup_insert_eq. intros [= <-]. right. simpl. lia.
        -- rewrite lookup_insert_ne by done. by left.
    + intros q' d' z'. rewrite live_lock by done. unfold s3. fold (released s1 q p1 a pg i).
      rewrite live_released by done. by rewrite Hl1.
Qed.

(** C15: freeing a live block always succeeds, and it is the only change to
    the set of live blocks; when it was the last block of its page, the page
    goes back to the page source. *)
Theorem pool_free_correct s q p d z :
  inv s → quiet s → pools s !! q = Some p → live s q d z →
  ∃ s', pool_free d s = Done tt s' ∧ inv s' ∧ quiet s' ∧
    (∀ q' d' z', live s' q' d' z' ↔ live s q' d' z' ∧ ¬ (q' = q ∧ d' = d)) ∧
    (∀ pg, pages s !! PAGE_FLOOR d = Some pg → pp_items pg = 1 →
       pages s' !! PAGE_FLOOR d = None ∧ ¬ ps_out (virtual p) (source s') (PAGE_FLOOR d)) ∧
    (∃ p', pools s' !! q = Some p' ∧ same_shape p p').
Proof. apply pool_free_sound. Qed.

(** * [pool_create] *)

Lemma utilization_mono n m z : 0 ≤ z → 1 ≤ n ≤ m → POOL_UTILIZATION n z ≤ POOL_UTILIZATION m z.
Proof.
  intros Hz Hn. unfold POOL_UTILIZATION. destruct (map_words n ltac:(lia)) as (->&?&?).
  destruct (map_words m ltac:(lia)) as (->&?&?). nia.
Qed.

Lemma count_items_spec z : 8 ≤ z → ∀ fuel n,
  0 ≤ n → z * n ≤ PAGE_SIZE → PAGE_SIZE < z * (n + Z.of_nat fuel) →
  ∃ m, count_items fuel z n = Some m ∧ n ≤ m ∧
    (m = n ∨ POOL_UTILIZATION m z ≤ PAGE_SIZE) ∧ PAGE_SIZE < POOL_UTILIZATION (m + 1) z.
Proof.
  intros Hz. induction fuel as [|fuel IH]; intros n Hn Hle Hf; [lia|].
  cbn [count_items]. destruct (Z.leb_spec (POOL_UTILIZATION (n + 1) z) PAGE_SIZE) as [Hu|Hu].
  - assert (z * (n + 1) ≤ PAGE_SIZE).
    { unfold POOL_UTILIZATION in Hu. destruct (map_words (n + 1) ltac:(lia)) as (Hb&_&?).
      rewrite Hb in Hu. change sizeof_pool_page with 32 in Hu. lia. }
    destruct (IH (n + 1)) as (m&->&?&Hm&?); [lia|done|lia|]. exists m.
    split_and!; [done|lia| |done]. right. destruct Hm as [->|?]; done.
  - exists n. split_and!; [done|lia|by left|done].
Qed.

Lemma virtual_valid flags : flag_set (Z.lor flags POOL_VALID) POOL_VALID = true.
Proof.
  unfold flag_set, truthy. apply negb_true_iff, Z.eqb_neq. intros Hz.
  assert (Z.testbit (Z.land (Z.lor flags POOL_VALID) POOL_VALID) 1 = false) as Hb
    by (by rewrite Hz, Z.bits_0).
  rewrite Z.land_spec, Z.lor_spec in Hb. change (Z.testbit POOL_VALID 1) with true in Hb.
  by rewrite orb_true_r in Hb.
Qed.

(** A pool without pages added to a sound state. *)
Lemma inv_new_pool s q p :
  inv s → quiet s → pools s !! q = None → geometry p → pool_pages p = [] →
  pool_freeitems p = 0 → pool_lock p = false →
  let s' := mk_pst (<[q := p]> (pools s)) (pages s) (source s) in inv s' ∧ quiet s'.
Proof.
  intros [Hpools Hpages] [Hl Hb] Hq Hg Hpg Hf Hlk. split; (split; simpl; [|try done]).
  - intros q0 p0. destruct (decide (q = q0)) as [<-|Hne].
    + rewrite lookup_insert_eq. intros [= <-]. split_and!; [done|rewrite Hpg; constructor| |].
      * by rewrite Hpg, Hf.
      * rewrite Hpg. set_solver.
    + rewrite lookup_insert_ne by done. apply Hpools.
  - intros a pg Ha. destruct (Hpages a pg Ha) as (p1&Hp1&?). exists p1.
    rewrite lookup_insert_ne; [done|]. intros ->. congruence.
  - intros q0 p0. destruct (decide (q = q0)) as [<-|Hne].
    + rewrite lookup_insert_eq. by intros [= <-].
    + rewrite lookup_insert_ne by done. apply Hl.
Qed.

(** [pool_create] panics when the rounded size is too large for a pool,
    and otherwise makes an empty pool of items of at least the size asked
    for (less than eight bytes more), with as many items to a page as fit
    and at least two; the invariant holds with the new pool. *)
Theorem pool_create_correct s q size flags :
  inv s → quiet s → pools s !! q = None → 0 < size ≤ 2 ^ 64 - 8 →
  match pool_create q size flags s with
  | Done (Ok _) s' =>
      inv s' ∧ quiet s' ∧ ∃ p, pools s' = <[q := p]> (pools s) ∧
        size ≤ pool_size p < size + 8 ∧ pool_size p ≤ MAX_ALLOC_SIZE ∧
        2 ≤ pool_maxitems p ∧
        POOL_UTILIZATION (pool_maxitems p) (pool_size p) ≤ PAGE_SIZE ∧
        PAGE_SIZE < POOL_UTILIZATION (pool_maxitems p + 1) (pool_size p) ∧
        virtual p = flag_set flags POOL_VIRTUAL
  | Done (Err _) _ => False
  | Stop w => w = Panic "don't use pool for large allocations" ∧ MAX_ALLOC_SIZE < size + 7
  end.
Proof.
  intros Hinv Hquiet Hq Hs. unfold pool_create.
  rewrite u64_small by (change (POOL_ALIGNMENT - 1) with 7; lia).
  change ((size + (POOL_ALIGNMENT - 1)) / POOL_ALIGNMENT * POOL_ALIGNMENT)
    with (ROUNDUP size 8).
  pose proof (ROUNDUP_bounds size 8 ltac:(lia)) as Hr.
  pose proof (ROUNDUP_mod size 8 ltac:(lia)) as Hm8. apply Z.div_exact in Hm8; [|lia].
  set (z := ROUNDUP size 8) in *. destruct (Z.ltb_spec MAX_ALLOC_SIZE z); [split; [done|lia]|].
  destruct (count_items_spec z ltac:(lia) pool_create_fuel 0) as (n&->&Hn&Hu&Hmax);
    [lia|rewrite Z.mul_0_r; by vm_compute| |].
  { change PAGE_SIZE with 8192. change (0 + Z.of_nat pool_create_fuel) with 8192. lia. }
  assert (2 ≤ n) as Hn2.
  { destruct (decide (2 ≤ n)) as [|Hlt]; [done|]. exfalso.
    pose proof (utilization_mono (n + 1) 2 z) as Hmono.
    change (POOL_UTILIZATION 2 z) with (32 + 8 + z * 2) in Hmono.
    change MAX_ALLOC_SIZE with 4056 in *. change PAGE_SIZE with 8192 in *. lia. }
  destruct Hu as [->|Hu]; [lia|]. unfold bind, put_pool, modify, ret.
  set (p := mk_pool _ _ _ _ _ _).
  assert (geometry p) as Hg by (split_and!; simpl; [apply virtual_valid|lia..|done]).
  destruct (inv_new_pool s q p Hinv Hquiet Hq Hg) as [Hi' Hq']; [done..|].
  split_and!; [done|apply Hq'..|]. exists p. split_and!; simpl; try done; try lia.
  unfold virtual, flag_set. simpl. f_equal. rewrite Z.land_lor_distr_l. apply Z.lor_0_r.
Qed.
End correctness.

(** * [malloc] *)

Section malloc.
Context {P : Type} `{PageSource P}.
Implicit Types (s : pst P).

(** The buckets are set up: bucket [i] serves blocks of [sizes !! i]. *)
Definition malloc_sizes : list Z := malloc_buckets ++ [MAX_ALLOC_SIZE].
Definition malloc_ready s : Prop :=
  ∀ i z, malloc_sizes !! i = Some z →
    ∃ p, pools s !! Z.of_nat i = Some p ∧ z ≤ pool_size p.

Lemma malloc_bucket_from_spec sizes : ∀ i size,
  ∃ k, malloc_bucket_from sizes i size =
       (if decide (k < length sizes)%nat then i + Z.of_nat k else malloc_bigbucket) ∧
    ∀ z, sizes !! k = Some z → size ≤ z.
Proof.
  induction sizes as [|z sizes IH]; intros i size; simpl; [by exists 0%nat|].
  destruct (Z.leb_spec size z).
  - exists 0%nat. rewrite decide_True by lia. split; [lia|]. by intros ? [= <-].
  - destruct (IH (i + 1) size) as (k&->&Hk). exists (S k). split; [|done].
    destruct (decide (k < length sizes)%nat), (decide (S k < S (length sizes))%nat); lia.
Qed.

Lemma malloc_bucket_ready s size :
  malloc_ready s → size ≤ MAX_ALLOC_SIZE →
  ∃ mb p, malloc_bucket size s = Done mb s ∧ pools s !! mb = Some p ∧ size ≤ pool_size p.
Proof.
  intros Hr Hs. unfold malloc_bucket, bind. rewrite (proj2 (Z.leb_le _ _) Hs).
  cbn [assert_]. unfold ret.
  destruct (malloc_bucket_from_spec malloc_buckets 0 size) as (k&->&Hk).
  destruct (decide (k < length malloc_buckets)%nat) as [Hlt|Hge].
  - destruct (lookup_lt_is_Some_2 _ _ Hlt) as [z Hz]. specialize (Hk z Hz).
    destruct (Hr k z) as (p&Hp&?).
    { unfold malloc_sizes. by rewrite lookup_app_l. }
    exists (0 + Z.of_nat k), p. split_and!; [done|by rewrite Z.add_0_l|lia].
  - destruct (Hr 8%nat MAX_ALLOC_SIZE) as (p&Hp&?); [done|].
    exists malloc_bigbucket, p. split_and!; [done|done|lia].
Qed.

(** once the buckets are set up, [malloc] of up to [MAX_ALLOC_SIZE]
    bytes returns a new live block of at least that size that overlaps no
    other live block, keeps every live block, and can only stop when a page
    was needed and none was to be had; a larger request fails its
    assertion. *)
Theorem malloc_correct s size :
  inv s → quiet s → malloc_ready s →
  match malloc size s with
  | Done d s' =>
      inv s' ∧ quiet s' ∧ size ≤ MAX_ALLOC_SIZE ∧
      (∃ q z, size ≤ z ∧ live s' q d z ∧
        (∀ q' d' z', live s q' d' z' →
           live s' q' d' z' ∧ (d + z ≤ d' ∨ d' + z' ≤ d)))
  | Stop w =>
      w = AssertFail "Don't be silly." ∧ MAX_ALLOC_SIZE < size ∨
      ∃ v, ∀ a src, ps_alloc v (source s) ≠ Done (Ok a) src
  end.
Proof.
  intros Hinv Hquiet Hr. unfold malloc, bind.
  destruct (decide (size ≤ MAX_ALLOC_SIZE)) as [Hs|Hs].
  - destruct (malloc_bucket_ready s size Hr Hs) as (mb&p&->&Hp&Hsz).
    pose proof (pool_allocate_sound s mb p Hinv Hquiet Hp) as Ha.
    destruct (pool_allocate mb s) as [d s'|w].
    + destruct Ha as (?&?&Hl&Hd&_). split_and!; [done..|]. exists mb, (pool_size p).
      split_and!; [done|apply Hl; by right|]. intros q' d' z' Hq'.
      split; [apply Hl; by left|by apply (Hd q')].
    + right. destruct Ha as [_ Ha]. by exists (virtual p).
  - unfold malloc_bucket, bind. rewrite (proj2 (Z.leb_gt _ _)) by lia. left. by split; [|lia].
Qed.

(** [malloc_setup] makes the buckets. *)
Definition malloc_pool (size n : Z) : pool :=
  mk_pool false size n 0 [] (Z.lor POOL_VIRTUAL POOL_VALID).
Definition malloc_pools : gmap Z pool :=
  list_to_map [(0, malloc_pool 16 506); (1, malloc_pool 32 254); (2, malloc_pool 64 127);
    (3, malloc_pool 128 63); (4, malloc_pool 256 31); (5, malloc_pool 512 15);
    (6, malloc_pool 1024 7); (7, malloc_pool 2048 3); (8, malloc_pool 4056 2)].
Lemma malloc_setup_eq src :
  malloc_setup (P := P) (mk_pst ∅ ∅ src) = Done tt (mk_pst malloc_pools ∅ src).
Proof. vm_compute. reflexivity. Qed.

Definition empty_pool (p : pool) : bool :=
  valid_pool p && (8 <=? pool_size p) && (pool_size p <=? MAX_ALLOC_SIZE) &&
  (1 <=? pool_maxitems p) &&
  (POOL_UTILIZATION (pool_maxitems p) (pool_size p) <=? PAGE_SIZE) &&
  (pool_freeitems p =? 0) && negb (pool_lock p) &&
  match pool_pages p with [] => true | _ => false end.

Lemma empty_pools_sound (m : gmap Z pool) (src : P) :
  map_Forall (λ _ p, empty_pool p = true) m →
  inv (mk_pst m ∅ src) ∧ quiet (mk_pst m ∅ src).
Proof.
  intros Hm. assert (∀ q p, m !! q = Some p → geometry p ∧ pool_freeitems p = 0 ∧
    pool_lock p = false ∧ pool_pages p = []) as Hall.
  { intros q p Hp. specialize (Hm q p Hp). unfold empty_pool in Hm.
    destruct (pool_pages p); [|by rewrite andb_false_r in Hm]. zcmp.
    split; [|done]. by split_and!. }
  split; (split; simpl; [|done]).
  - intros q p Hp. destruct (Hall q p Hp) as (Hg&Hf&_&Hpg). split_and!; [apply Hg..| | |];
      rewrite ?Hpg, ?Hf; [constructor|done|set_solver].
  - intros q p Hp. apply (Hall q p Hp).
Qed.

Lemma malloc_setup_sound (src : P) :
  let s := mk_pst malloc_pools ∅ src in inv s ∧ quiet s ∧ malloc_ready s.
Proof.
  destruct (empty_pools_sound malloc_pools src) as [? ?].
  { apply (bool_decide_unpack (map_Forall (λ _ p, empty_pool p = true) malloc_pools)).
    vm_compute. exact I. }
  split_and!; [done..|]. intros i z Hi.
  do 9 (destruct i as [|i]; [injection Hi as <-; eexists; split; [reflexivity|by vm_compute]|]).
  done.
Qed.
End malloc.

(** * The pool as an object allocator

    What the other components rely on when they keep their objects in a pool:
    an allocated object is a new one, and freeing makes exactly it free. *)

Class ObjPool (O : Type) := {
  op_inv : O → Prop;
  op_live : O → Z → Prop;
  op_alloc : M O Z;
  op_free : Z → M O unit;
  op_alloc_ok s d s' : op_inv s → op_alloc s = Done d s' →
    op_inv s' ∧ ¬ op_live s d ∧ ∀ x, op_live s' x ↔ op_live s x ∨ x = d;
  op_free_ok s d : op_inv s → op_live s d →
    ∃ s', op_free d s = Done tt s' ∧ op_inv s' ∧ ∀ x, op_live s' x ↔ op_live s x ∧ x ≠ d;
  op_live_pos s d : op_inv s → op_live s d → 0 < d
}.

Section object_pool.
Context {P : Type} `{PageSource P} (q : Z).

Definition pool_objects_inv (s : pst P) : Prop :=
  inv s ∧ quiet s ∧ ∃ p, pools s !! q = Some p.
Definition pool_objects_live (s : pst P) (d : Z) : Prop := ∃ z, live s q d z.

Lemma live_pool (s : pst P) d z : live s q d z → ∃ p, pools s !! q = Some p.
Proof. intros (a&pg&p&i&_&_&Hp&_). by exists p. Qed.

Program Definition pool_objects : ObjPool (pst P) := {|
  op_inv := pool_objects_inv;
  op_live := pool_objects_live;
  op_alloc := pool_allocate q;
  op_free := pool_free
|}.
Next Obligation.
  intros s d s' (Hi&Hq&p&Hp) Hal. pose proof (pool_allocate_sound s q p Hi Hq Hp) as Ha.
  rewrite Hal in Ha. destruct Ha as (Hi'&Hq'&Hl&Hd&_). split_and!.
  - split_and!; [done..|]. eapply (live_pool s' d). apply Hl. by right.
  - intros [z Hz]. pose proof (Hd _ _ _ Hz) as Hdj.
    destruct (proj1 Hi _ _ Hp) as ((_&?&_)&_).
    destruct Hz as (a&pg&p'&i&?&?&Hp'&?&?&?&->). rewrite Hp in Hp'. injection Hp' as <-. lia.
  - intros x. unfold pool_objects_live. setoid_rewrite Hl. naive_solver.
Qed.
Next Obligation.
  intros s d (Hi&Hq&p&Hp) [z Hz].
  destruct (pool_free_sound s q p d z Hi Hq Hp Hz) as (s'&Hf&Hi'&Hq'&Hl&_&p'&Hp'&_).
  exists s'. split; [done|]. split.
  - split_and!; [done..|]. by exists p'.
  - intros x. unfold pool_objects_live. setoid_rewrite Hl. naive_solver.
Qed.
Next Obligation.
  intros s d (Hi&_&_) (z&a&pg&p&i&Hpg&Hq&Hp&Hr&_&->&_).
  destruct (inv_page s a pg Hi Hpg) as (p'&Hp'&_&Hg&Ha&_). rewrite Hq, Hp in Hp'.
  injection Hp' as <-. destruct (item_in_page p a i Hg Hr) as [Hb _].
  destruct Ha as [Ha _]. lia.
Qed.
End object_pool.

(** Objects handed out by counting. *)
#[export] Program Instance counting_pool : ObjPool (list Z * Z) := {|
  op_inv s := 0 < s.2 ∧ ∀ x, x ∈ s.1 → 0 < x < s.2;
  op_live s x := x ∈ s.1;
  op_alloc s := Done s.2 (s.2 :: s.1, s.2 + 1);
  op_free x s := Done tt (filter (λ y, y ≠ x) s.1, s.2)
|}.
Next Obligation.
  intros [l n] d s' [Hn Hi] [= <- <-]. simpl in *. split_and!.
  - lia.
  - intros x [->|Hx]%elem_of_cons; [lia|]. specialize (Hi x Hx). lia.
  - intros Hx. specialize (Hi n Hx). lia.
  - intros x. rewrite elem_of_cons. tauto.
Qed.
Next Obligation.
  intros [l n] d [Hn Hi] Hd. eexists. split; [done|]. simpl in *. split.
  - split; [done|]. intros x [_ Hx]%list_elem_of_filter. by apply Hi.
  - intros x. rewrite list_elem_of_filter. tauto.
Qed.
Next Obligation. intros [l n] d [Hn Hi] Hd. by apply Hi. Qed.

(** * A page source to run the code on *)

(** Three pages; the state is the list of the pages handed out. *)
Definition example_pages : list Z := [8192; 16384; 24576].
Definition example_free (s : list (bool * Z)) : list Z :=
  filter (λ a, (true, a) ∉ s ∧ (false, a) ∉ s) example_pages.
#[export] Program Instance example_source : PageSource (list (bool * Z)) := {|
  ps_alloc v s := match example_free s with
                  | a :: _ => Done (Ok a) ((v, a) :: s)
                  | [] => Done (Err ERROR_EXHAUSTED) s
                  end;
  ps_free v a s := if decide ((v, a) ∈ s) then Done (Ok tt) (filter (λ x, x ≠ (v, a)) s)
                   else Done (Err ERROR_NOT_FOUND) s;
  ps_out v s a := (v, a) ∈ s
|}.
Next Obligation.
  intros v s a s' Ha. simpl in Ha. destruct (example_free s) as [|b l] eqn:Hf; [done|].
  injection Ha as <- <-.
  assert (b ∈ example_free s) as [[Ht Hff] Hb]%list_elem_of_filter by (rewrite Hf; by left).
  unfold example_pages in Hb. rewrite !elem_of_cons, elem_of_nil in Hb.
  split_and!; [lia|lia|by destruct Hb as [->|[->|[->|]]]| |].
  - by intros [].
  - intros w c. rewrite elem_of_cons. split; [intros [[= -> ->]|]; naive_solver|].
    intros [?|[-> ->]]; [by right|by left].
Qed.
Next Obligation.
  intros v s a Ha. simpl. eexists. rewrite decide_True by done. split; [done|].
  intros w b. rewrite list_elem_of_filter. naive_solver.
Qed.

Definition example_state : pst (list (bool * Z)) := mk_pst malloc_pools ∅ [].
Definition example_used : pst (list (bool * Z)) :=
  outcome_state example_state (malloc 100 example_state).

Lemma example_used_eq : malloc 100 example_state = Done 8232 example_used.
Proof. vm_compute. reflexivity. Qed.


Lemma example_sound : inv example_state ∧ quiet example_state ∧ malloc_ready example_state.
Proof. apply malloc_setup_sound. Qed.

Lemma example_pool : pools example_state !! 3 = Some (malloc_pool 128 63).
Proof. reflexivity. Qed.

Lemma example_used_sound : inv example_used ∧ quiet example_used.
Proof.
  destruct example_sound as (Hi&Hq&_).
  pose proof (pool_allocate_sound example_state 3 _ Hi Hq example_pool) as Ha.
  assert (pool_allocate 3 example_state = Done 8232 example_used) as He
    by (vm_compute; reflexivity).
  rewrite He in Ha. destruct Ha as (?&?&_). by split.
Qed.

Lemma pool_allocate_correct_witness :
  match pool_allocate 3 example_state with
  | Done d s' => inv s' ∧ d = 8232
  | Stop w => False
  end.
Proof.
  destruct example_sound as (Hi&Hq&_).
  pose proof (pool_allocate_correct example_state 3 _ Hi Hq example_pool) as Ha.
  assert (pool_allocate 3 example_state = Done 8232 example_used) as He
    by (vm_compute; reflexivity).
  rewrite He in Ha |- *. split; [apply Ha|reflexivity].
Defined.

Lemma example_live : live example_used 3 8232 128.
Proof. eexists 8192, _, _, 0. repeat split; vm_compute; congruence. Qed.

Lemma pool_free_correct_witness :
  ∃ s', pool_free 8232 example_used = Done tt s' ∧ inv s' ∧ ¬ live s' 3 8232 128.
Proof.
  destruct example_used_sound as [Hi Hq].
  destruct (pool_free_correct example_used 3 (set_freeitems 62 (set_pages [8192] (malloc_pool 128 63)))
    8232 128 Hi Hq ltac:(vm_compute; reflexivity) example_live) as (s'&He&Hi'&_&Hl&_).
  exists s'. split; [exact He|]. split; [exact Hi'|].
  intros Hlive. apply Hl in Hlive. tauto.
Defined.

Lemma pool_create_correct_witness :
  match pool_create 9 100 POOL_DEFAULT example_state with
  | Done (Ok _) s' => inv s'
  | _ => False
  end.
Proof.
  destruct example_sound as (Hi&Hq&_).
  pose proof (pool_create_correct example_state 9 100 POOL_DEFAULT Hi Hq
    ltac:(reflexivity) ltac:(lia)) as Hc.
  destruct (pool_create 9 100 POOL_DEFAULT example_state) as [[u|e] s'|w] eqn:He.
  - apply Hc.
  - exact Hc.
  - destruct Hc as [_ Hc]. vm_compute in Hc. discriminate Hc.
Defined.

Lemma malloc_correct_witness :
  ∃ s' q z, malloc 100 example_state = Done 8232 s' ∧ 100 ≤ z ∧ live s' q 8232 z.
Proof.
  destruct example_sound as (Hi&Hq&Hr).
  pose proof (malloc_correct example_state 100 Hi Hq Hr) as Hm.
  rewrite example_used_eq in Hm. destruct Hm as (_&_&_&q&z&Hz&Hl&_).
  exists example_used, q, z. split; [exact example_used_eq|]. split; [exact Hz|exact Hl].
Defined.
