(* ===== verification/VmIndex.v ===== *)
(** Address spaces ([mk/vm/vm_index.c], [mk/vm/vm.h], [vm_setup2] of
    [mk/vm/vm.c]): which ranges of pages of a [struct vm] are free and which
    are in use.

    A [vm] keeps its ranges in two trees: [vm_index], ordered by base address,
    and [vm_index_free], the free ranges, inserted by size.  A range is split
    when part of it is claimed.  The trees hold the addresses of the range
    records; the records come from a pool, of which this file knows the
    interface [ObjPool].

    The theorems describe every operation by its effect on the pages: a page
    is free, in use, or not part of the address space.  They hold under an
    invariant (ranges disjoint and aligned, the free tree holds exactly the
    free ranges) that every operation preserves. *)

From S2P Require Import Prelude MachineInt Btree Spinlock Pool.

Local Open Scope Z_scope.
Local Open Scope c_scope.

Definition VM_INDEX_FLAG_DEFAULT : Z := 0x00000000.
Definition VM_INDEX_FLAG_INUSE : Z := 0x00000001.

(** [struct vm_index] without its tree nodes. *)
Record vm_index := mk_index { vmi_base : Z; vmi_size : Z; vmi_flags : Z }.

Section vm_index.
Context {Ob : Type} `{ObjPool Ob}.

(** One [struct vm] and the range records.  [vm_lock] is how often this CPU
    holds the (recursive) lock. *)
Record vm := mk_vm {
  vm_lock : Z;
  vm_ranges : tree Z;      (* [vm->vm_index] *)
  vm_index_free : tree Z;
  vmi_store : gmap Z vm_index;
  vm_index_pool : Ob
}.

Definition set_lock (n : Z) (s : vm) : vm :=
  mk_vm n (vm_ranges s) (vm_index_free s) (vmi_store s) (vm_index_pool s).
Definition set_trees (t f : tree Z) (s : vm) : vm :=
  mk_vm (vm_lock s) t f (vmi_store s) (vm_index_pool s).
Definition set_store (m : gmap Z vm_index) (s : vm) : vm :=
  mk_vm (vm_lock s) (vm_ranges s) (vm_index_free s) m (vm_index_pool s).
Definition set_pool (o : Ob) (s : vm) : vm :=
  mk_vm (vm_lock s) (vm_ranges s) (vm_index_free s) (vmi_store s) o.

(** The record a pointer leads to. *)
Definition vmi (s : vm) (i : Z) : vm_index := default (mk_index 0 0 0) (vmi_store s !! i).
Definition write (i : Z) (x : vm_index) : M vm unit :=
  modify (λ s, set_store (<[i := x]> (vmi_store s)) s).
Definition with_size (n : Z) (x : vm_index) : vm_index := mk_index (vmi_base x) n (vmi_flags x).
Definition with_flags (f : Z) (x : vm_index) : vm_index := mk_index (vmi_base x) (vmi_size x) f.

(** [VM_LOCK], [VM_UNLOCK]: a recursive spin lock. *)
Definition VM_LOCK : M vm unit := modify (λ s, set_lock (vm_lock s + 1) s).
Definition VM_UNLOCK : M vm unit :=
  s <- get ;;
  if vm_lock s =? 0 then halt (Panic "not my lock to unlock")
  else put (set_lock (vm_lock s - 1) s).
Definition SPINLOCK_ASSERT_HELD : M vm unit :=
  s <- get ;; assert_ (negb (vm_lock s =? 0)) "Lock must be held.".

(** [vm_setup2]: an address space without ranges. *)
Definition vm_setup2 (o : Ob) : vm := mk_vm 0 Leaf Leaf ∅ o.

Definition vmi_end (x : vm_index) : Z := u64 (vmi_base x + PAGE_TO_ADDR (vmi_size x)).

Definition vm_find_index (vaddr : Z) : M vm (option Z) :=
  SPINLOCK_ASSERT_HELD ;;;
  s <- get ;;
  ret (bt_find (λ iter, vaddr <? vmi_base (vmi s iter))
               (λ iter, (vaddr =? vmi_base (vmi s iter)) ||
                        (vmi_base (vmi s iter) <? vaddr) && (vaddr <? vmi_end (vmi s iter)))
               (vm_ranges s)).

(** [BTREE_INSERT(vmi, iter, &vm->vm_index_free, ..)] *)
Definition insert_free (i : Z) : M vm unit :=
  modify (λ s, set_trees (vm_ranges s)
    (bt_insert (λ iter, vmi_size (vmi s i) <? vmi_size (vmi s iter)) i (vm_index_free s)) s).
Definition insert_range (i : Z) : M vm unit :=
  modify (λ s, set_trees
    (bt_insert (λ iter, vmi_base (vmi s i) <? vmi_base (vmi s iter)) i (vm_ranges s))
    (vm_index_free s) s).

Definition vm_insert_index (base pages : Z) : M vm (result Z) :=
  SPINLOCK_ASSERT_HELD ;;;
  found <- vm_find_index base ;;
  assert_ (match found with None => true | Some _ => false end)
    "Cannot insert an index twice!" ;;;
  i <- zoom vm_index_pool set_pool op_alloc ;;
  write i (mk_index base pages VM_INDEX_FLAG_DEFAULT) ;;;
  insert_free i ;;;
  insert_range i ;;;
  ret (Ok i).

Definition vm_use_index (i pages : Z) : M vm (result unit) :=
  s <- get ;;
  assert_ (vmi_size (vmi s i) =? pages) "You must know how much you're using." ;;;
  assert_ (negb (flag_set (vmi_flags (vmi s i)) VM_INDEX_FLAG_INUSE))
    "VM Index must not be in use." ;;;
  write i (with_flags (Z.lor (vmi_flags (vmi s i)) VM_INDEX_FLAG_INUSE) (vmi s i)) ;;;
  modify (λ s, set_trees (vm_ranges s) (bt_remove i (vm_index_free s)) s) ;;;
  ret (Ok tt).

Definition vm_free_index (i : Z) : M vm unit :=
  s <- get ;;
  assert_ (flag_set (vmi_flags (vmi s i)) VM_INDEX_FLAG_INUSE) "VM Index must be in use." ;;;
  write i (with_flags (Z.land (vmi_flags (vmi s i)) (bnot 32 VM_INDEX_FLAG_INUSE)) (vmi s i)) ;;;
  insert_free i.

(** [vm_claim_range]: split off the pages before the claimed range. *)
Definition claim_first (begin leader range : Z) (i : Z) (x : vm_index) (size : Z) :
    M vm (result Z) :=
  if negb (leader =? 0) then
    write i (with_size (ADDR_TO_PAGE leader) x) ;;;
    r <- vm_insert_index begin (ADDR_TO_PAGE range) ;;
    match r with
    | Ok n => ret (Ok n)
    | Err e => write i (with_size (ADDR_TO_PAGE size) x) ;;; ret (Err e)
    end
  else write i (with_size (ADDR_TO_PAGE range) x) ;;; ret (Ok i).

(** [vm_claim_range]: split off the pages after the claimed range. *)
Definition claim_second (end_ trailer : Z) (n : Z) : M vm (result unit) :=
  if negb (trailer =? 0) then
    r <- vm_insert_index end_ (ADDR_TO_PAGE trailer) ;;
    match r with
    | Ok _ => ret (Ok tt)
    | Err e =>
        s <- get ;;
        write n (with_size (u64 (vmi_size (vmi s n) + ADDR_TO_PAGE trailer)) (vmi s n)) ;;;
        ret (Err e)
    end
  else ret (Ok tt).

(** The part of [vm_claim_range] after the range record is known. *)
Definition vm_claim_index (begin end_ : Z) (i : Z) : M vm (result unit) :=
  let range := u64 (end_ - begin) in
  s <- get ;;
  let x := vmi s i in
  if flag_set (vmi_flags x) VM_INDEX_FLAG_INUSE then ret (Err ERROR_NOT_FREE)
  else
    let size := PAGE_TO_ADDR (vmi_size x) in
    if u64 (vmi_base x + size) <? end_ then ret (Err ERROR_NOT_IMPLEMENTED)
    else
      let leader := u64 (begin - vmi_base x) in
      let trailer := u64 (size - (leader + range)) in
      assert_ (u64 (range + leader + trailer) =? size)
        "Leader, trailer and range calculations incorrect." ;;;
      n <-? claim_first begin leader range i x size ;;
      claim_second end_ trailer n ?;;
      or_panic "vm_use_index failed" (vm_use_index n (ADDR_TO_PAGE range)) ;;;
      ret (Ok tt).

Definition vm_claim_range (begin end_ : Z) (i : option Z) : M vm (result unit) :=
  match i with
  | Some i => vm_claim_index begin end_ i
  | None =>
      found <- vm_find_index begin ;;
      match found with
      | None => ret (Err ERROR_NOT_FOUND)
      | Some i => vm_claim_index begin end_ i
      end
  end.

(** Run under the lock, as every exported function does on all its paths. *)
Definition locked {A} (m : M vm A) : M vm A :=
  VM_LOCK ;;; r <- m ;; VM_UNLOCK ;;; ret r.

(** The search of [vm_alloc_address]: the first free range, from the left or
    from the right, that is large enough. *)
Fixpoint alloc_scan (fuel : nat) (s : vm) (pages : Z) (high : bool) (cur : option Z) :
    option (option Z) :=
  match cur with
  | None => Some None
  | Some i =>
      match fuel with
      | O => None
      | S fuel =>
          if vmi_size (vmi s i) <? pages then
            alloc_scan fuel s pages high
              (if high then bt_prev i (vm_index_free s) else bt_next i (vm_index_free s))
          else Some (Some i)
      end
  end.

Definition vm_alloc_address (pages : Z) (high : bool) : M vm (result Z) :=
  locked (
    s <- get ;;
    let free := vm_index_free s in
    match alloc_scan (length (elements free)) s pages high
            (if high then bt_max free else bt_min free) with
    | None => halt OutOfFuel
    | Some None => ret (Err ERROR_NOT_IMPLEMENTED)
    | Some (Some i) =>
        let x := vmi s i in
        if vmi_size x =? pages then
          vm_use_index i pages ?;;
          ret (Ok (vmi_base x))
        else
          let start := if high then u64 (vmi_base x + PAGE_TO_ADDR (u64 (vmi_size x - pages)))
                       else vmi_base x in
          let end_ := u64 (start + PAGE_TO_ADDR pages) in
          vm_claim_range start end_ (Some i) ?;;
          ret (Ok start)
    end).

Definition vm_alloc_range (begin end_ : Z) : M vm (result unit) :=
  locked (vm_claim_range (PAGE_FLOOR begin) (PAGE_ROUNDUP end_) None).

Definition vm_free_address (vaddr : Z) : M vm (result unit) :=
  locked (
    found <- vm_find_index vaddr ;;
    match found with
    | Some i => vm_free_index i ;;; ret (Ok tt)
    | None => ret (Err ERROR_NOT_FOUND)
    end).

Definition vm_insert_range (begin end_ : Z) : M vm (result unit) :=
  locked (
    i <-? vm_insert_index begin (PAGE_COUNT (u64 (end_ - begin))) ;;
    ret (Ok tt)).
End vm_index.
Arguments vm Ob : clear implicits.

(** * The invariant and the pages of an address space *)

Definition lo (x : vm_index) : Z := vmi_base x.
Definition hi (x : vm_index) : Z := vmi_base x + 8192 * vmi_size x.
Definition inuse (x : vm_index) : bool := flag_set (vmi_flags x) VM_INDEX_FLAG_INUSE.
Definition range_ok (x : vm_index) : Prop :=
  1 ≤ vmi_size x ∧ 0 ≤ vmi_base x ∧ vmi_base x mod 8192 = 0 ∧ hi x < 2 ^ 64 ∧
  (vmi_flags x = VM_INDEX_FLAG_DEFAULT ∨ vmi_flags x = VM_INDEX_FLAG_INUSE).
Definition apart (x y : vm_index) : Prop := hi x ≤ lo y ∨ hi y ≤ lo x.

Section invariant.
Context {Ob : Type} `{ObjPool Ob}.
Implicit Types (s : vm Ob) (x y : vm_index).

Definition rng s (i : Z) : Prop := i ∈ elements (vm_ranges s).

Definition inv s : Prop :=
  bst (λ i, vmi_base (vmi s i)) (vm_ranges s) ∧
  (∀ i, rng s i → range_ok (vmi s i) ∧ op_live (vm_index_pool s) i) ∧
  (∀ i j, rng s i → rng s j → i ≠ j → apart (vmi s i) (vmi s j)) ∧
  NoDup (elements (vm_index_free s)) ∧
  (∀ i, i ∈ elements (vm_index_free s) ↔ rng s i ∧ inuse (vmi s i) = false) ∧
  op_inv (vm_index_pool s).

(** Page address [a] belongs to the address space and is in use ([b]) or
    free. *)
Definition status s (a : Z) (b : bool) : Prop :=
  ∃ i, rng s i ∧ lo (vmi s i) ≤ a < hi (vmi s i) ∧ inuse (vmi s i) = b.
Definition managed s (a : Z) : Prop := ∃ b, status s a b.

(** No live object of the record pool was freed. *)
Definition grown s s' : Prop :=
  ∀ d, op_live (vm_index_pool s) d → op_live (vm_index_pool s') d.

(** Some record holds exactly the used pages [begin .. end_). *)
Definition record_of s (begin end_ : Z) : Prop :=
  ∃ i, rng s i ∧ lo (vmi s i) = begin ∧ hi (vmi s i) = end_ ∧ inuse (vmi s i) = true.

(** Why an operation may stop: the pool of range records has no page. *)
Definition pool_stop (w : stop) : Prop := ∃ p, op_inv p ∧ op_alloc p = Stop w.

Lemma status_unique s a b b' : inv s → status s a b → status s a b' → b = b'.
Proof.
  intros (_&_&Hd&_) (i&Hi&Ha&<-) (j&Hj&Ha'&<-).
  destruct (decide (i = j)) as [->|Hne]; [done|].
  destruct (Hd i j Hi Hj Hne); lia.
Qed.

Lemma vmi_end_eq x : range_ok x → vmi_end x = hi x.
Proof.
  intros (?&?&_&Hh&_). unfold vmi_end, hi in *.
  rewrite PAGE_TO_ADDR_mul by lia. rewrite u64_small by lia. lia.
Qed.

Lemma vmi_insert s i x j :
  vmi (set_store (<[i := x]> (vmi_store s)) s) j = if decide (i = j) then x else vmi s j.
Proof.
  unfold vmi. simpl. case_decide as Hij; [subst; by rewrite lookup_insert_eq|].
  by rewrite lookup_insert_ne.
Qed.

Lemma find_ok s v :
  inv s → vm_lock s ≠ 0 →
  ∃ r, vm_find_index v s = Done r s ∧
    match r with
    | Some i => rng s i ∧ lo (vmi s i) ≤ v < hi (vmi s i)
    | None => ∀ i, rng s i → ¬ lo (vmi s i) ≤ v < hi (vmi s i)
    end.
Proof.
  intros (Hb&Hok&Hd&_) Hl. unfold vm_find_index, SPINLOCK_ASSERT_HELD, bind, get, assert_.
  rewrite (proj2 (Z.eqb_neq _ _) Hl). simpl. unfold ret. eexists. split; [done|].
  destruct (bt_find _ _ _) as [i|] eqn:Hf.
  - apply bt_find_Some in Hf as (Hi&Hc&Hm). split; [done|]. destruct (Hok i Hi) as [Hr _].
    rewrite vmi_end_eq in Hm by done. unfold lo. pose proof Hr as (?&_).
    apply orb_true_iff in Hm as [Hm|Hm]; zcmp; unfold hi in *; lia.
  - intros i Hi Hv. destruct (Hok i Hi) as [Hr _]. unfold lo in Hv.
    eapply bt_find_None in Hf; [| |exact Hi|apply Z.ltb_ge; lia].
    + apply orb_false_iff in Hf as [H1 H2]. rewrite vmi_end_eq in H2 by done. zcmp.
      rewrite (proj2 (Z.ltb_lt (vmi_base (vmi s i)) v)) in H2 by lia. zcmp. lia.
    + clear Hf Hi Hv Hr i. unfold bst in Hb.
      assert (∀ i, i ∈ elements (vm_ranges s) → rng s i) as Hsub by done. revert Hb Hsub.
      generalize (elements (vm_ranges s)). induction 1 as [|x l Hs IH Hx]; intros Hsub;
        constructor; [apply IH; set_solver|]. apply Forall_forall. intros y Hy Hc.
      rewrite Forall_forall in Hx. specialize (Hx y Hy). unfold key_lt in Hx. zcmp.
      rewrite vmi_end_eq by (apply Hok, Hsub; set_solver).
      destruct (Hd x y) as [Ha|Ha]; [apply Hsub; set_solver..| | |].
      * intros ->. lia.
      * unfold lo in Ha. split; [apply Z.ltb_ge; lia|]. apply orb_false_iff.
        split; [apply Z.eqb_neq; lia|]. apply andb_false_iff. right. apply Z.ltb_ge. lia.
      * destruct (Hok y) as [(?&_) _]; [apply Hsub; set_solver|]. unfold hi, lo in Ha. lia.
Qed.

(** * The steps of claiming a range *)

(** Shrinking a range gives up the pages at its end. *)
Lemma shrink_ok s i n :
  inv s → rng s i → 1 ≤ n ≤ vmi_size (vmi s i) →
  let s' := set_store (<[i := with_size n (vmi s i)]> (vmi_store s)) s in
  inv s' ∧ ∀ a b, status s' a b ↔
    status s a b ∧ ¬ lo (vmi s i) + 8192 * n ≤ a < hi (vmi s i).
Proof.
  intros (Hb&Hok&Hd&Hnd&Hfr&Hp) Hi Hn s'.
  assert (∀ j, vmi s' j = if decide (i = j) then with_size n (vmi s i) else vmi s j) as Hv
    by apply vmi_insert.
  assert (∀ j, vmi_base (vmi s' j) = vmi_base (vmi s j) ∧ inuse (vmi s' j) = inuse (vmi s j) ∧
    hi (vmi s' j) ≤ hi (vmi s j)) as Hsame.
  { intros j. rewrite Hv. case_decide as Hj; [subst|done]. unfold hi. simpl. split_and!; [done..|lia]. }
  split; [split_and!|].
  - eapply bst_ext; [|exact Hb]. intros j _. symmetry. apply Hsame.
  - intros j Hj. destruct (Hok j Hj) as [Hr Hlv]. split; [|done]. rewrite Hv.
    case_decide as Hij; [subst|done]. destruct Hr as (?&?&?&Hh&?). unfold range_ok, hi in *.
    split_and!; simpl; (done || lia).
  - intros j k Hj Hk Hne. specialize (Hd j k Hj Hk Hne). unfold apart, lo in *.
    destruct (Hsame j) as (->&_&?), (Hsame k) as (->&_&?). lia.
  - done.
  - intros j. change (elements (vm_index_free s')) with (elements (vm_index_free s)). rewrite (Hfr j). destruct (Hsame j) as (_&->&_). done.
  - done.
  - intros a b. split.
    + intros (j&Hj&Ha&<-). destruct (Hsame j) as (Hbj&Hu&Hh). unfold lo in Ha. rewrite Hbj in Ha.
      split; [exists j; split_and!; [done|unfold lo; lia..|done]|]. intros Hcut.
      rewrite Hv in Ha. case_decide as Hij.
      * subst j. unfold hi, lo in *. simpl in Ha. lia.
      * destruct (Hd i j Hi Hj Hij) as [Hx|Hx]; unfold lo in *; lia.
    + intros [(j&Hj&Ha&<-) Hcut]. destruct (Hsame j) as (Hbj&Hu&Hh). exists j.
      split; [done|]. rewrite Hu. split; [|done]. unfold lo. rewrite Hbj. split; [apply Ha|].
      rewrite Hv. case_decide as Hij; [subst j|lia]. unfold hi at 1. simpl. unfold lo in *. lia.
Qed.

(** Adding a free range that overlaps none. *)
Definition added (i base pages : Z) (s s' : vm Ob) : Prop :=
  inv s' ∧ vm_lock s' = vm_lock s ∧ rng s' i ∧
  vmi s' i = mk_index base pages VM_INDEX_FLAG_DEFAULT ∧
  (∀ j, rng s' j ↔ j = i ∨ rng s j) ∧ (∀ j, rng s j → j ≠ i ∧ vmi s' j = vmi s j) ∧
  (∀ a b, status s' a b ↔ status s a b ∨ (base ≤ a < base + 8192 * pages ∧ b = false)) ∧
  grown s s'.

Lemma insert_ok s base pages :
  let x := mk_index base pages VM_INDEX_FLAG_DEFAULT in
  inv s → vm_lock s ≠ 0 → range_ok x → (∀ i, rng s i → apart x (vmi s i)) →
  wp (vm_insert_index base pages)
    (λ r s', ∃ i, r = Ok i ∧ added i base pages s s') pool_stop s.
Proof.
  intros x Hinv Hl Hr Hap. destruct (find_ok s base Hinv Hl) as (r&Hf&Hfound).
  pose proof Hinv as (Hb&Hok&Hd&Hnd&Hfr&Hp).
  destruct r as [i|].
  { exfalso. destruct Hfound as [Hi Hv]. destruct (Hap i Hi) as [Hx|Hx];
      destruct Hr as (?&_); unfold hi, lo, x in *; simpl in *; lia. }
  unfold vm_insert_index. rewrite wp_bind. unfold SPINLOCK_ASSERT_HELD. rewrite !wp_bind, wp_get.
  rewrite (proj2 (Z.eqb_neq _ _) Hl). simpl. rewrite wp_ret, wp_bind.
  unfold wp at 1. rewrite Hf. rewrite wp_bind. simpl. rewrite wp_ret, wp_bind, wp_zoom.
  unfold wp at 1. destruct (op_alloc (vm_index_pool s)) as [i o|w] eqn:Hal; [|by exists (vm_index_pool s)].
  destruct (op_alloc_ok _ _ _ Hp Hal) as (Hp'&Hnew&Hlive).
  assert (¬ rng s i) as Hi by (intros Hi; apply Hnew, Hok, Hi).
  unfold write, insert_free, insert_range. autorewrite with wp. exists i. split; [done|].
  set (s' := set_trees _ _ _).
  assert (∀ j, vmi s' j = if decide (i = j) then x else vmi s j) as Hv
    by (intros j; apply (vmi_insert (set_pool o s))).
  assert (∀ j, rng s' j ↔ j = i ∨ rng s j) as Hrng by (intros j; apply elem_of_insert).
  assert (∀ j, rng s j → j ≠ i ∧ vmi s' j = vmi s j) as Hold.
  { intros j Hj. rewrite Hv. assert (i ≠ j) by congruence. by rewrite decide_False. }
  assert (vmi s' i = x) as Hvi by (rewrite Hv; by rewrite decide_True).
  assert (∀ a b, status s' a b ↔ status s a b ∨ (base ≤ a < base + 8192 * pages ∧ b = false)) as Hst.
  { intros a b. split.
    - intros (j&[->|Hj]%Hrng&Ha&<-).
      + right. rewrite Hvi in Ha |- *. by unfold lo, hi in Ha.
      + left. destruct (Hold j Hj) as [_ ->]. destruct (Hold j Hj) as [_ Hj']. rewrite Hj' in Ha.
        by exists j.
    - intros [(j&Hj&Ha&<-)|[Ha ->]].
      + exists j. destruct (Hold j Hj) as [_ ->]. split; [apply Hrng; by right|done].
      + exists i. rewrite Hvi. split; [apply Hrng; by left|done]. }
  split; [|split; [done|split; [by apply Hrng; left|]]].
  2:{ split_and!; try done. intros x' Hx. apply Hlive. by left. }
  split_and!; [| | | | |done].
  - (* the search tree *)
    assert (bst (λ j, vmi_base (vmi s' j)) (vm_ranges s)) as Hb'.
    { eapply bst_ext; [|exact Hb]. intros j Hj. simpl. by destruct (Hold j Hj) as [_ ->]. }
    assert (∀ j, j ∈ elements (vm_ranges s) → vmi_base (vmi s' j) ≠ vmi_base (vmi s' i)) as Hne.
    { intros j Hj Heq. destruct (Hold j Hj) as [_ Hj']. rewrite Hvi, Hj' in Heq.
      destruct (Hok j Hj) as [(?&_) _], Hr as (?&_).
      destruct (Hap j Hj); unfold hi, lo, x in *; simpl in *; lia. }
    pose proof (bst_insert (λ j, vmi_base (vmi s' j)) i (vm_ranges s) Hb' Hne) as Hbi.
    exact Hbi.
  - intros j [->|Hj]%Hrng.
    + rewrite Hvi. split; [done|]. apply Hlive. by right.
    + destruct (Hold j Hj) as [_ ->]. destruct (Hok j Hj). split; [done|]. apply Hlive. by left.
  - intros j k Hj%Hrng Hk%Hrng Hne. destruct Hj as [->|Hj], Hk as [->|Hk]; [done| | |].
    + rewrite Hvi. destruct (Hold k Hk) as [_ ->]. by apply Hap.
    + rewrite Hvi. destruct (Hold j Hj) as [_ ->]. destruct (Hap j Hj); [by right|by left].
    + destruct (Hold j Hj) as [_ ->], (Hold k Hk) as [_ ->]. by apply Hd.
  - apply NoDup_insert; [done|]. intros Hi'. apply Hi, Hfr, Hi'.
  - intros j. simpl. rewrite elem_of_insert. simpl. rewrite Hfr. split.
    + intros [->|[Hj Hu]]; [rewrite Hvi; by split; [apply Hrng; left|]|].
      destruct (Hold j Hj) as [_ ->]. split; [apply Hrng; by right|done].
    + intros [[->|Hj]%Hrng Hu]; [by left|]. right. destruct (Hold j Hj) as [_ Hj'].
      rewrite Hj' in Hu. done.
Qed.

(** Marking a free range in use. *)
Lemma use_ok s i :
  inv s → rng s i → inuse (vmi s i) = false →
  ∃ s', vm_use_index i (vmi_size (vmi s i)) s = Done (Ok tt) s' ∧ inv s' ∧
    vm_lock s' = vm_lock s ∧
    (∀ a b, status s' a b ↔ (status s a b ∧ ¬ lo (vmi s i) ≤ a < hi (vmi s i)) ∨
      (lo (vmi s i) ≤ a < hi (vmi s i) ∧ b = true)) ∧
    record_of s' (lo (vmi s i)) (hi (vmi s i)) ∧ grown s s'.
Proof.
  intros (Hb&Hok&Hd&Hnd&Hfr&Hp) Hi Hu. unfold vm_use_index, bind, get, assert_.
  rewrite Z.eqb_refl. simpl. unfold inuse in Hu. rewrite Hu. simpl.
  unfold write, modify, ret. eexists. split; [done|].
  set (s' := set_trees _ _ _). destruct (Hok i Hi) as [Hri Hlvi].
  assert (vmi_flags (vmi s i) = VM_INDEX_FLAG_DEFAULT) as Hf0.
  { destruct Hri as (_&_&_&_&[Hf|Hf]); [done|]. by rewrite Hf in Hu. }
  set (x := with_flags (Z.lor (vmi_flags (vmi s i)) VM_INDEX_FLAG_INUSE) (vmi s i)).
  assert (∀ j, vmi s' j = if decide (i = j) then x else vmi s j) as Hv by apply (vmi_insert s).
  assert (∀ j, rng s' j ↔ rng s j) as Hrng by done.
  assert (inuse x = true) as Hux by (unfold inuse, x; simpl; by rewrite Hf0).
  assert (∀ j, lo (vmi s' j) = lo (vmi s j) ∧ hi (vmi s' j) = hi (vmi s j)) as Hsame.
  { intros j. rewrite Hv. case_decide; [by subst|done]. }
  split; [split_and!|split; [done|split]].
  - eapply bst_ext; [|exact Hb]. intros j _. symmetry. apply (Hsame j).
  - intros j Hj. destruct (Hok j Hj) as [Hr Hlv]. split; [|done]. rewrite Hv.
    case_decide; [|done]. subst j. destruct Hr as (?&?&?&?&?).
    unfold range_ok. split_and!; try done. right. simpl. by rewrite Hf0.
  - intros j k Hj Hk Hne. unfold apart. destruct (Hsame j) as [-> ->], (Hsame k) as [-> ->].
    by apply Hd.
  - by apply NoDup_remove.
  - intros j. simpl. rewrite elem_of_remove, Hfr by done. rewrite Hv. split.
    + intros [[Hj Hju] Hne]. rewrite decide_False by congruence. done.
    + intros [Hj Hju]. case_decide; [congruence|]. done.
  - done.
  - intros a b. split.
    + intros (j&Hj&Ha&<-). destruct (Hsame j) as [Hlo Hhi]. rewrite Hlo, Hhi in Ha.
      rewrite Hv. case_decide as Hij; [subst j; by right|]. left. split; [by exists j|].
      intros Hcut. destruct (Hd i j Hi Hj Hij); lia.
    + intros [[(j&Hj&Ha&<-) Hcut]|[Ha ->]].
      * exists j. destruct (Hsame j) as [-> ->]. split_and!; [done|lia..|].
        rewrite Hv. case_decide; [subst; lia|done].
      * exists i. destruct (Hsame i) as [-> ->]. split_and!; [done|lia..|].
        rewrite Hv, decide_True by done. done.
  - split; [|by intros d]. exists i. destruct (Hsame i) as [-> ->]. split_and!; try done.
    by rewrite Hv, decide_True.
Qed.

(** After the first step of a claim: the record [n] of the claimed pages
    exists, the pages after them are given up. *)
Definition cut (n begin end_ top : Z) (s s' : vm Ob) : Prop :=
  inv s' ∧ vm_lock s' = vm_lock s ∧ rng s' n ∧
  lo (vmi s' n) = begin ∧ hi (vmi s' n) = end_ ∧ inuse (vmi s' n) = false ∧
  (∀ a b, status s' a b ↔ status s a b ∧ ¬ end_ ≤ a < top) ∧ grown s s'.

Lemma claim_first_ok s i l r size :
  let x := vmi s i in
  inv s → vm_lock s ≠ 0 → rng s i → inuse x = false →
  0 ≤ l → 1 ≤ r → l + r ≤ vmi_size x →
  let begin := vmi_base x + 8192 * l in
  wp (claim_first begin (8192 * l) (8192 * r) i x size)
    (λ o s', ∃ n, o = Ok n ∧ cut n begin (begin + 8192 * r) (hi x) s s') pool_stop s.
Proof.
  intros x Hinv Hl Hi Hu Hl0 Hr Hlr begin. unfold claim_first.
  rewrite !ADDR_TO_PAGE_div. rewrite (Z.mul_comm 8192 l), (Z.mul_comm 8192 r), !Z.div_mul by lia.
  pose proof Hinv as (_&Hok&_). destruct (Hok i Hi) as [(Hs1&Hb0&Hal&Hh&Hfl) _].
  fold x in Hs1, Hb0, Hal, Hh, Hfl.
  assert (vmi_flags x = VM_INDEX_FLAG_DEFAULT) as Hf0.
  { destruct Hfl as [Hf|Hf]; [done|]. unfold inuse in Hu. by rewrite Hf in Hu. }
  destruct (Z.eqb_spec (l * 8192) 0) as [Hz|Hz]; simpl.
  - rewrite wp_bind. unfold write. rewrite wp_modify, wp_ret. exists i. split; [done|].
    destruct (shrink_ok s i r Hinv Hi) as [Hinv' Hst]; [fold x; lia|]. fold x in Hinv', Hst.
    set (s' := set_store _ s) in *.
    assert (vmi s' i = with_size r x) as Hv by (unfold s'; by rewrite vmi_insert, decide_True).
    assert (l = 0) by lia. subst l. unfold cut. rewrite Hv. unfold lo, hi, begin. simpl.
    split_and!; [done|done|exact Hi|lia|lia|done| |by intros d]. intros a b. rewrite Hst. fold x.
    unfold lo, hi. split; intros [? ?]; (split; [done|lia]).
  - rewrite wp_bind. unfold write at 1. rewrite wp_modify.
    destruct (shrink_ok s i l Hinv Hi) as [Hinv' Hst]; [fold x; lia|]. fold x in Hinv', Hst.
    set (s' := set_store _ s) in *.
    assert (∀ j, vmi s' j = if decide (i = j) then with_size l x else vmi s j) as Hv
      by apply vmi_insert.
    assert (range_ok (mk_index begin r VM_INDEX_FLAG_DEFAULT)) as Hrok.
    { unfold range_ok, hi, begin in *. simpl. split_and!; [lia|lia| |lia|by left].
      replace (vmi_base x + 8192 * l) with (vmi_base x + l * 8192) by lia.
      by rewrite Z.mod_add by lia. }
    assert (∀ j, rng s' j → apart (mk_index begin r VM_INDEX_FLAG_DEFAULT) (vmi s' j)) as Hap.
    { intros j Hj. rewrite Hv. unfold apart, lo, hi, begin in *. simpl. case_decide as Hij.
      - right. simpl. lia.
      - destruct Hinv as (_&_&Hd&_). destruct (Hd i j Hi Hj Hij) as [Hx|Hx];
          unfold lo, hi in Hx; fold x in Hx; lia. }
    rewrite wp_bind. eapply wp_mono; [apply (insert_ok s' begin r Hinv' Hl Hrok Hap)| |done].
    intros o s1 (n&->&Hinv1&Hl1&Hn&Hvn&_&_&Hst1&Hg). simpl. exists n. split; [done|].
    unfold cut. rewrite Hvn. unfold lo, hi, inuse. simpl.
    split_and!; [done|done|done|done|lia|done| |done]. intros a b. rewrite Hst1, Hst. fold x.
    unfold lo, hi, begin in *.
    assert (vmi_base x + 8192 * l ≤ a < vmi_base x + 8192 * vmi_size x → status s a b → b = false)
      as Hfree.
    { intros Ha Hs. apply (status_unique s a b false Hinv Hs). exists i. fold x. unfold lo, hi.
      split_and!; (done || lia). }
    split.
    + intros [[Hs Hc]|[Ha ->]]; [split; [done|lia]|]. split; [|lia]. exists i. fold x.
      unfold lo, hi. split_and!; (done || lia).
    + intros [Hs Hc]. destruct (decide (vmi_base x + 8192 * l ≤ a < vmi_base x + 8192 * vmi_size x));
        [right; split; [lia|by apply Hfree]|left; by split].
Qed.

(** After the second step: the pages after the claimed ones are free again. *)
Definition carved (n begin end_ : Z) (s s' : vm Ob) : Prop :=
  inv s' ∧ vm_lock s' = vm_lock s ∧ rng s' n ∧
  lo (vmi s' n) = begin ∧ hi (vmi s' n) = end_ ∧ inuse (vmi s' n) = false ∧
  (∀ a b, status s' a b ↔ status s a b) ∧ grown s s'.

Lemma claim_second_ok s s1 n begin end_ t :
  inv s → vm_lock s1 ≠ 0 → 0 ≤ t → 0 ≤ end_ → end_ mod 8192 = 0 → end_ + 8192 * t < 2 ^ 64 →
  (∀ a, end_ ≤ a < end_ + 8192 * t → status s a false) →
  cut n begin end_ (end_ + 8192 * t) s s1 →
  wp (claim_second end_ (8192 * t) n)
    (λ o s2, o = Ok tt ∧ carved n begin end_ s s2) pool_stop s1.
Proof.
  intros Hinv Hl1 Ht He Hal Hlt Hfree (Hinv1&Hl&Hn&Hlo&Hhi&Hu&Hst&Hg). unfold claim_second.
  destruct (Z.eqb_spec (8192 * t) 0) as [Hz|Hz]; simpl.
  - rewrite wp_ret. split; [done|]. split_and!; try done. intros a b. rewrite Hst.
    assert (t = 0) by lia. subst t. split; [tauto|]. intros ?. split; [done|lia].
  - rewrite ADDR_TO_PAGE_div, (Z.mul_comm 8192 t), Z.div_mul by lia.
    assert (range_ok (mk_index end_ t VM_INDEX_FLAG_DEFAULT)) as Hrok.
    { unfold range_ok, hi. simpl. split_and!; (done || lia || by left). }
    assert (∀ j, rng s1 j → apart (mk_index end_ t VM_INDEX_FLAG_DEFAULT) (vmi s1 j)) as Hap.
    { intros j Hj. destruct Hinv1 as (_&Hok1&_). destruct (Hok1 j Hj) as [Hrj _].
      pose proof Hrj as (?&_). unfold apart, lo, hi in *. simpl.
      destruct (decide (end_ + 8192 * t ≤ vmi_base (vmi s1 j))) as [|Hn1]; [by left|].
      destruct (decide (vmi_base (vmi s1 j) + 8192 * vmi_size (vmi s1 j) ≤ end_)) as [|Hn2];
        [by right|]. exfalso.
      (* the ranges would share the page at the larger of the two bases *)
      set (m := Z.max end_ (vmi_base (vmi s1 j))).
      assert (status s1 m (inuse (vmi s1 j))) as Hsm.
      { exists j. unfold lo, hi, m. split_and!; (done || lia). }
      apply Hst in Hsm as [_ Hsm]. apply Hsm. unfold m. lia. }
    rewrite wp_bind. eapply wp_mono; [apply (insert_ok s1 end_ t Hinv1 Hl1 Hrok Hap)| |done].
    intros o s2 (k&->&Hinv2&Hl2&Hk&Hvk&Hrng2&Hold&Hst2&Hg2). simpl. rewrite wp_ret.
    split; [done|]. destruct (Hold n Hn) as [_ Hvn]. unfold carved. rewrite Hvn.
    split_and!; [done|congruence|apply Hrng2; by right|done..| |intros d Hdl; by apply Hg2, Hg].
    intros a b. rewrite Hst2, Hst. split; [|intros Hs].
    + intros [[? _]|[? ->]]; [done|]. apply Hfree. lia.
    + destruct (decide (end_ ≤ a < end_ + t * 8192)) as [Ha|Ha]; [right|left; split; [done|lia]].
      split; [lia|]. apply (status_unique s a b false Hinv Hs), Hfree. lia.
Qed.

(** What a claim of the pages [begin .. end_) does: they were free and are
    in use, every other page is as before. *)
Definition claimed (begin end_ : Z) (s s' : vm Ob) : Prop :=
  ∀ a b, status s' a b ↔ if decide (begin ≤ a < end_) then b = true else status s a b.

Lemma claim_index_ok s i begin end_ :
  let x := vmi s i in
  inv s → vm_lock s ≠ 0 → rng s i → lo x ≤ begin → begin < end_ < 2 ^ 64 →
  begin mod 8192 = 0 → end_ mod 8192 = 0 →
  wp (vm_claim_index begin end_ i)
    (λ o s', inv s' ∧ vm_lock s' = vm_lock s ∧
       match o with
       | Ok _ => inuse x = false ∧ end_ ≤ hi x ∧ claimed begin end_ s s' ∧
           record_of s' begin end_ ∧ grown s s'
       | Err e => s' = s ∧ (e = ERROR_NOT_FREE ∧ inuse x = true ∨
           e = ERROR_NOT_IMPLEMENTED ∧ inuse x = false ∧ hi x < end_)
       end) pool_stop s.
Proof.
  intros x Hinv Hl Hi Hlo Hbe Hbal Heal. pose proof Hinv as (_&Hok&_).
  destruct (Hok i Hi) as [Hrx _]. fold x in Hrx. pose proof Hrx as (Hsz&Hb0&Hxal&Hh&_).
  unfold vm_claim_index. rewrite wp_bind, wp_get. fold x. change (flag_set (vmi_flags x) _) with (inuse x).
  destruct (inuse x) eqn:Hu; [rewrite wp_ret; split_and!; [done..|]; by left; split|].
  unfold lo, hi in *. rewrite (PAGE_TO_ADDR_mul (vmi_size x)) by lia.
  rewrite (u64_small (vmi_base x + vmi_size x * 8192)) by lia.
  destruct (Z.ltb_spec (vmi_base x + vmi_size x * 8192) end_) as [Hlt|Hge].
  { rewrite wp_ret. split_and!; [done..|]. right. split_and!; (done || lia). }
  apply Z.div_exact in Hbal, Heal, Hxal; [|lia..].
  set (l := begin / 8192 - vmi_base x / 8192). set (r := end_ / 8192 - begin / 8192).
  set (t := vmi_size x - (l + r)).
  assert (begin = vmi_base x + 8192 * l) as Hb by (unfold l; lia).
  assert (end_ = begin + 8192 * r) as He by (unfold r; lia).
  assert (0 ≤ l ∧ 1 ≤ r ∧ 0 ≤ t) as (Hl0&Hr1&Ht0) by (unfold t; lia).
  clearbody l r. rewrite (u64_small (end_ - begin)), (u64_small (begin - vmi_base x)) by lia.
  replace (begin - vmi_base x) with (8192 * l) by lia.
  replace (end_ - begin) with (8192 * r) by lia.
  rewrite (u64_small (_ - (8192 * l + 8192 * r))) by lia.
  replace (vmi_size x * 8192 - (8192 * l + 8192 * r)) with (8192 * t) by (unfold t; lia).
  rewrite u64_small by lia. rewrite wp_bind, wp_assert.
  replace (8192 * r + 8192 * l + 8192 * t) with (vmi_size x * 8192) by (unfold t; lia).
  rewrite Z.eqb_refl, wp_bind_ok. rewrite Hb at 1.
  eapply wp_mono; [apply (claim_first_ok s i l r _ Hinv Hl Hi Hu Hl0 Hr1); unfold t in *; fold x; lia| |done].
  fold x. rewrite <-Hb, <-He. replace (hi x) with (end_ + 8192 * t) by (unfold hi, t; lia).
  intros o s1 (n&->&Hcut). pose proof Hcut as (_&Hl1&_).
  assert (∀ a, end_ ≤ a < end_ + 8192 * t → status s a false) as Hfree.
  { intros a Ha. exists i. fold x. unfold lo, hi. split_and!; [done|unfold t in *; lia..|done]. }
  assert (end_ mod 8192 = 0) as Hem by (apply Z.div_exact; lia).
  assert (vm_lock s1 ≠ 0) as Hl1' by congruence.
  assert (end_ + 8192 * t < 2 ^ 64) as Htop by (unfold t; lia).
  rewrite wp_bind_ok. eapply wp_mono;
    [apply (claim_second_ok s s1 n begin end_ t Hinv Hl1' Ht0 ltac:(lia) Hem Htop Hfree Hcut)| |done].
  intros o s2 (->&Hinv2&Hl2&Hn2&Hlo2&Hhi2&Hu2&Hst2&Hg2). rewrite wp_bind, wp_or_panic.
  destruct (use_ok s2 n Hinv2 Hn2 Hu2) as (s3&Hus&Hinv3&Hl3&Hst3&Hrec&Hg3).
  rewrite ADDR_TO_PAGE_div, Z.mul_comm, Z.div_mul by lia.
  replace (vmi_size (vmi s2 n)) with r in Hus by (unfold lo, hi in *; lia).
  unfold wp at 1. rewrite Hus. rewrite wp_ret. rewrite Hlo2, Hhi2 in *.
  split_and!; [done|congruence|done|unfold t in *; lia| |done|intros d Hdl; by apply Hg3, Hg2].
  intros a b. rewrite Hst3, Hst2. case_decide; naive_solver.
Qed.
End invariant.

(** * The operations *)

Section operations.
Context {Ob : Type} `{ObjPool Ob}.
Implicit Types (s : vm Ob).

Lemma wp_locked {A} (m : M (vm Ob) A) (Q : A → vm Ob → Prop) E s :
  0 ≤ vm_lock s →
  wp m (λ r s', vm_lock s' ≠ 0 ∧ Q r (set_lock (vm_lock s' - 1) s')) E
    (set_lock (vm_lock s + 1) s) →
  wp (locked m) Q E s.
Proof.
  intros Hl Hm. unfold locked, VM_LOCK, VM_UNLOCK. autorewrite with wp.
  eapply wp_mono; [exact Hm| |done]. intros r s' [Hl' HQ]. autorewrite with wp.
  rewrite (proj2 (Z.eqb_neq _ _) Hl'). autorewrite with wp. done.
Qed.

(** The lock is not part of what the theorems are about. *)
Lemma vm_inv_lock s n : inv s → inv (set_lock n s).
Proof. done. Qed.
Lemma status_lock s n a b : status (set_lock n s) a b ↔ status s a b.
Proof. done. Qed.

Lemma claimed_lock begin end_ s s' n m :
  claimed begin end_ (set_lock n s) s' → claimed begin end_ s (set_lock m s').
Proof. intros Hc a b. apply (Hc a b). Qed.

(** The scan returns the first range, in scan order, that is large enough. *)
Lemma alloc_scan_spec s pages (high : bool) all :
  all = (if high then reverse (elements (vm_index_free s)) else elements (vm_index_free s)) →
  NoDup all → ∀ ys xs fuel, all = xs ++ ys → (length ys ≤ fuel)%nat →
  alloc_scan fuel s pages high (head ys) =
  Some (head (filter (λ i, pages ≤ vmi_size (vmi s i)) ys)).
Proof.
  intros Hdef Hnd. induction ys as [|y ys IH]; intros xs [|fuel] Hall Hf; simpl in *;
    [done|done|lia|].
  rewrite filter_cons. destruct (Z.ltb_spec (vmi_size (vmi s y)) pages).
  - rewrite decide_False by lia.
    assert ((if high then bt_prev y (vm_index_free s) else bt_next y (vm_index_free s)) = head ys)
      as ->.
    { assert (after y all = head ys) as <-.
      { rewrite Hall in Hnd |- *. apply NoDup_remove_mid in Hnd as [_ Hy].
        rewrite after_app_r by set_solver. simpl. by rewrite decide_True. }
      unfold bt_prev, bt_next. rewrite Hdef. by destruct high. }
    apply (IH (xs ++ [y])); [|lia]. by rewrite Hall, <-app_assoc.
  - by rewrite decide_True by lia.
Qed.

Lemma alloc_scan_ok s pages (high : bool) :
  inv s →
  ∃ r, alloc_scan (length (elements (vm_index_free s))) s pages high
         (if high then bt_max (vm_index_free s) else bt_min (vm_index_free s)) = Some r ∧
    match r with
    | Some i => rng s i ∧ inuse (vmi s i) = false ∧ pages ≤ vmi_size (vmi s i)
    | None => ∀ i, rng s i → inuse (vmi s i) = false → vmi_size (vmi s i) < pages
    end.
Proof.
  intros (_&_&_&Hnd&Hfr&_).
  set (all := if high then reverse (elements (vm_index_free s)) else elements (vm_index_free s)).
  assert (∀ i, i ∈ all ↔ rng s i ∧ inuse (vmi s i) = false) as Hin.
  { intros i. rewrite <-Hfr. unfold all. destruct high; [apply elem_of_reverse|done]. }
  assert ((if high then bt_max (vm_index_free s) else bt_min (vm_index_free s)) = head all) as ->.
  { unfold all. destruct high; [by rewrite bt_max_last, head_reverse|apply bt_min_head]. }
  assert (NoDup all ∧ length all = length (elements (vm_index_free s))) as [Hnda Hlen].
  { unfold all. destruct high; [|done]. by rewrite reverse_Permutation. }
  rewrite (alloc_scan_spec s pages high all eq_refl Hnda all []) by (done || lia).
  eexists. split; [done|]. destruct (filter _ all) as [|i l] eqn:Hfil; simpl.
  - intros i Hi Hu. destruct (decide (pages ≤ vmi_size (vmi s i))) as [Hp|]; [|lia].
    assert (i ∈ filter (λ i, pages ≤ vmi_size (vmi s i)) all) as Hx
      by (apply list_elem_of_filter; split; [done|by apply Hin]).
    rewrite Hfil in Hx. by apply elem_of_nil in Hx.
  - assert (i ∈ filter (λ i, pages ≤ vmi_size (vmi s i)) all) as Hx by (rewrite Hfil; by left).
    apply list_elem_of_filter in Hx as [Hp [Hi Hu]%Hin]. done.
Qed.

Lemma vm_alloc_address_outcome s pages high :
  inv s → 0 ≤ vm_lock s → 1 ≤ pages →
  wp (vm_alloc_address pages high)
    (λ r s', inv s' ∧ vm_lock s' = vm_lock s ∧
       match r with
       | Ok a => a mod 8192 = 0 ∧ 0 ≤ a ∧ a + 8192 * pages < 2 ^ 64 ∧
           (∀ b, a ≤ b < a + 8192 * pages → status s b false) ∧
           claimed a (a + 8192 * pages) s s' ∧ record_of s' a (a + 8192 * pages) ∧ grown s s'
       | Err e => e = ERROR_NOT_IMPLEMENTED ∧ s' = s ∧
           ∀ i, rng s i → inuse (vmi s i) = false → vmi_size (vmi s i) < pages
       end) pool_stop s.
Proof.
  intros Hinv Hl Hp. apply wp_locked; [done|]. set (s1 := set_lock _ s).
  assert (inv s1) as Hinv1 by done. assert (vm_lock s1 ≠ 0) as Hl1 by (simpl; lia).
  rewrite wp_bind, wp_get. cbv beta zeta.
  destruct (alloc_scan_ok s1 pages high Hinv1) as ([i|]&Hsc&Hr); rewrite Hsc; last first.
  { rewrite wp_ret. split; [done|]. split; [done|]. split; [simpl; lia|].
    split; [done|]. split; [|done]. destruct s; unfold s1, set_lock; simpl. f_equal. lia. }
  destruct Hr as (Hi&Hu&Hsz). set (x := vmi s1 i) in *. pose proof Hinv1 as (_&Hok&_).
  destruct (Hok i Hi) as [Hrx _]. fold x in Hrx. pose proof Hrx as (Hs1&Hb0&Hal&Hh&_).
  unfold hi in Hh. destruct (Z.eqb_spec (vmi_size x) pages) as [Heq|Hne].
  - rewrite wp_bind_ok. destruct (use_ok s1 i Hinv1 Hi Hu) as (s2&Hus&Hinv2&Hl2&Hst2&Hrec&Hg).
    fold x in Hus, Hst2, Hrec. rewrite Heq in Hus. unfold wp at 1. rewrite Hus. rewrite wp_ret.
    split; [congruence|]. split; [done|]. split; [simpl; rewrite Hl2; simpl; lia|].
    rewrite Heq in Hh. unfold lo, hi in Hrec. rewrite Heq in Hrec.
    split_and!; [done|done|done| | |exact Hrec|exact Hg].
    + intros b Hb. exists i. split; [done|]. change (vmi s i) with x.
      unfold lo, hi. rewrite Heq. by split.
    + intros a b. rewrite status_lock, Hst2. change (status s1 a b) with (status s a b).
      unfold lo, hi. rewrite Heq.
      case_decide; naive_solver.
  - set (start := if high then _ else _).
    assert (start = vmi_base x + 8192 * (if high then vmi_size x - pages else 0)) as Hstart.
    { unfold start. destruct high; [|lia]. rewrite (u64_small (vmi_size x - pages)) by lia.
      rewrite PAGE_TO_ADDR_mul, u64_small by lia. lia. }
    clearbody start. rewrite PAGE_TO_ADDR_mul by lia.
    assert (vmi_base x ≤ start ∧ start + 8192 * pages ≤ hi x) as [Hst1 Hst2]
      by (unfold hi; destruct high; lia).
    rewrite u64_small by (unfold hi in *; lia).
    assert (start mod 8192 = 0) as Hsal.
    { rewrite Hstart, Z.mul_comm, Z.mod_add by lia. done. }
    rewrite wp_bind_ok. unfold vm_claim_range.
    eapply wp_mono; [apply (claim_index_ok s1 i); try done| |done].
    + unfold hi in *. fold x. lia.
    + by rewrite Z.mod_add by lia.
    + fold x. intros o s2 (Hinv2&Hl2&Ho). destruct o as [[]|e].
      * rewrite wp_ret. destruct Ho as (_&_&Hc&Hrec&Hg).
        split; [congruence|]. split; [done|]. split; [simpl; rewrite Hl2; simpl; lia|].
        rewrite (Z.mul_comm pages 8192) in Hc, Hrec.
        split_and!; [done|lia|unfold hi in *; lia| | |exact Hrec|exact Hg].
        -- intros b Hb. exists i. split; [done|]. change (vmi s i) with x. split; [unfold lo; lia|done].
        -- by eapply claimed_lock.
      * exfalso. destruct Ho as [_ [[_ Hux]|(_&_&Hlt)]]; [congruence|lia].
Qed.

(** C14: [vm_alloc_address] of [pages] pages fails, leaving the address
    space as it was, exactly when no free range is large enough; otherwise
    the address it returns starts [pages] pages that were free and now are
    in use, and no other page changes.  The lock is released on every
    path. *)
Theorem vm_alloc_address_correct s pages high :
  inv s → 0 ≤ vm_lock s → 1 ≤ pages →
  wp (vm_alloc_address pages high)
    (λ r s', inv s' ∧ vm_lock s' = vm_lock s ∧
       match r with
       | Ok a => a mod 8192 = 0 ∧ 0 ≤ a ∧ a + 8192 * pages < 2 ^ 64 ∧
           (∀ b, a ≤ b < a + 8192 * pages → status s b false) ∧
           claimed a (a + 8192 * pages) s s'
       | Err e => e = ERROR_NOT_IMPLEMENTED ∧ s' = s ∧
           ∀ i, rng s i → inuse (vmi s i) = false → vmi_size (vmi s i) < pages
       end) pool_stop s.
Proof.
  intros Hinv Hl Hp. eapply wp_mono; [by apply vm_alloc_address_outcome| |done].
  intros [a|e] s' (Hinv'&Hl'&Hr); split_and!; try done; naive_solver.
Qed.

Lemma vm_alloc_range_outcome s begin end_ :
  inv s → 0 ≤ vm_lock s → 0 ≤ begin < end_ → end_ + 16384 < 2 ^ 64 →
  let b := PAGE_FLOOR begin in let e := PAGE_ROUNDUP end_ in
  wp (vm_alloc_range begin end_)
    (λ r s', inv s' ∧ vm_lock s' = vm_lock s ∧
       match r with
       | Ok _ => claimed b e s s' ∧ (∀ a, b ≤ a < e → status s a false) ∧
           record_of s' b e ∧ grown s s'
       | Err err => s' = s ∧
           (err = ERROR_NOT_FOUND ∧ ¬ managed s b ∨
            err = ERROR_NOT_FREE ∧ status s b true ∨
            err = ERROR_NOT_IMPLEMENTED ∧ status s b false ∧
              ∃ a, b ≤ a < e ∧ ¬ ∃ i, rng s i ∧ lo (vmi s i) ≤ b < hi (vmi s i) ∧ a < hi (vmi s i))
       end) pool_stop s.
Proof.
  intros Hinv Hl Hbe Hlt b e. apply wp_locked; [done|]. set (s1 := set_lock _ s).
  assert (inv s1) as Hinv1 by done. assert (vm_lock s1 ≠ 0) as Hl1 by (simpl; lia).
  assert (set_lock (vm_lock s1 - 1) s1 = s) as Hback.
  { destruct s; unfold s1, set_lock; simpl. f_equal. lia. }
  assert (b mod 8192 = 0 ∧ 0 ≤ b ≤ begin) as [Hba Hb0].
  { unfold b. split; [apply PAGE_FLOOR_aligned; lia|]. rewrite PAGE_FLOOR_sub by lia.
    pose proof (Z.mod_le begin 8192). pose proof (Z.mod_pos_bound begin 8192). lia. }
  destruct (PAGE_ROUNDUP_spec end_) as [Hea Heb]; [lia|lia|]. fold e in Hea, Heb.
  unfold vm_claim_range. rewrite wp_bind. destruct (find_ok s1 b Hinv1 Hl1) as (r&Hf&Hr).
  unfold wp at 1. fold b. rewrite Hf. destruct r as [i|]; last first.
  { rewrite wp_ret, Hback. split_and!; [done..|]. left. split; [done|].
    intros (u&i&Hi&Hv&_). by apply (Hr i Hi). }
  destruct Hr as [Hi Hv]. eapply wp_mono;
    [apply (claim_index_ok s1 i b e Hinv1 Hl1 Hi); (done || lia)| |done].
  intros o s2 (Hinv2&Hl2&Ho). split; [congruence|]. split; [done|].
  split; [simpl; rewrite Hl2; simpl; lia|]. destruct o as [[]|err].
  - destruct Ho as (Hu&Hh&Hc&Hrec&Hg). split; [by eapply claimed_lock|]. split; [|by split].
    intros a Ha. exists i. split_and!; (done || (change (vmi s i) with (vmi s1 i); lia)).
  - destruct Ho as [-> Ho]. rewrite Hback. split; [done|]. right.
    destruct Ho as [[-> Hu]|(->&Hu&Hh)]; [left|right]; (split; [done|]); [by exists i|].
    split; [by exists i|]. exists (hi (vmi s i)). change (vmi s i) with (vmi s1 i).
    split; [lia|]. intros (j&Hj&Hbj&Hlj). destruct Hinv as (_&_&Hd&_).
    destruct (decide (i = j)) as [->|Hne]; [change (vmi s j) with (vmi s1 j) in Hlj; lia|].
    destruct (Hd i j Hi Hj Hne) as [Hx|Hx]; change (vmi s i) with (vmi s1 i) in Hx;
      change (vmi s j) with (vmi s1 j) in *; lia.
Qed.

(** [vm_alloc_range] claims every page that [begin .. end) touches, if
    those pages are a part of one free range; otherwise it reports why and
    changes nothing. *)
Theorem vm_alloc_range_correct s begin end_ :
  inv s → 0 ≤ vm_lock s → 0 ≤ begin < end_ → end_ + 16384 < 2 ^ 64 →
  let b := PAGE_FLOOR begin in let e := PAGE_ROUNDUP end_ in
  wp (vm_alloc_range begin end_)
    (λ r s', inv s' ∧ vm_lock s' = vm_lock s ∧
       match r with
       | Ok _ => claimed b e s s' ∧ ∀ a, b ≤ a < e → status s a false
       | Err err => s' = s ∧
           (err = ERROR_NOT_FOUND ∧ ¬ managed s b ∨
            err = ERROR_NOT_FREE ∧ status s b true ∨
            err = ERROR_NOT_IMPLEMENTED ∧ status s b false ∧
              ∃ a, b ≤ a < e ∧ ¬ ∃ i, rng s i ∧ lo (vmi s i) ≤ b < hi (vmi s i) ∧ a < hi (vmi s i))
       end) pool_stop s.
Proof.
  intros Hinv Hl Hbe Hlt b e. eapply wp_mono; [by apply vm_alloc_range_outcome| |done].
  intros [a|err] s' (Hinv'&Hl'&Hr); split_and!; try done; naive_solver.
Qed.

(** Marking a used range free. *)
Lemma free_index_ok s i :
  inv s → rng s i → inuse (vmi s i) = true →
  ∃ s', vm_free_index i s = Done tt s' ∧ inv s' ∧
    (vm_lock s' = vm_lock s ∧ vm_index_pool s' = vm_index_pool s) ∧
    ∀ a b, status s' a b ↔
      if decide (lo (vmi s i) ≤ a < hi (vmi s i)) then b = false else status s a b.
Proof.
  intros (Hb&Hok&Hd&Hnd&Hfr&Hp) Hi Hu. unfold vm_free_index, bind, get, assert_.
  unfold inuse in Hu. rewrite Hu. simpl. unfold write, insert_free, modify. eexists. split; [done|].
  set (s' := set_trees _ _ _). destruct (Hok i Hi) as [Hri Hlvi].
  assert (vmi_flags (vmi s i) = VM_INDEX_FLAG_INUSE) as Hf1.
  { destruct Hri as (_&_&_&_&[Hf|Hf]); [|done]. by rewrite Hf in Hu. }
  set (x := with_flags (Z.land (vmi_flags (vmi s i)) (bnot 32 VM_INDEX_FLAG_INUSE)) (vmi s i)).
  assert (∀ j, vmi s' j = if decide (i = j) then x else vmi s j) as Hv by apply (vmi_insert s).
  assert (vmi_flags x = VM_INDEX_FLAG_DEFAULT) as Hfx by (unfold x; simpl; by rewrite Hf1).
  assert (inuse x = false) as Hux by (unfold inuse; by rewrite Hfx).
  assert (∀ j, lo (vmi s' j) = lo (vmi s j) ∧ hi (vmi s' j) = hi (vmi s j)) as Hsame.
  { intros j. rewrite Hv. case_decide; [by subst|done]. }
  assert (i ∉ elements (vm_index_free s)) as Hni.
  { intros [_ Hif]%Hfr. unfold inuse in Hif. congruence. }
  split; [split_and!|split; [done|]].
  - eapply bst_ext; [|exact Hb]. intros j _. symmetry. apply (Hsame j).
  - intros j Hj. destruct (Hok j Hj) as [Hr Hlv]. split; [|done]. rewrite Hv.
    case_decide; [|done]. subst j. destruct Hr as (?&?&?&?&?).
    unfold range_ok. split_and!; try done. by left.
  - intros j k Hj Hk Hne. unfold apart. destruct (Hsame j) as [-> ->], (Hsame k) as [-> ->].
    by apply Hd.
  - by apply NoDup_insert.
  - intros j. simpl. rewrite elem_of_insert, Hfr, Hv. split.
    + intros [->|[Hj Hju]]; [by rewrite decide_True|].
      rewrite decide_False; [done|]. intros <-. unfold inuse in Hju. congruence.
    + intros [Hj Hju]. case_decide; [by left|]. by right.
  - done.
  - intros a b. case_decide as Ha; split.
    + intros (j&Hj&Hja&<-). destruct (Hsame j) as [Hlo Hhi]. rewrite Hlo, Hhi in Hja.
      rewrite Hv. case_decide as Hij; [done|]. destruct (Hd i j Hi Hj Hij); lia.
    + intros ->. exists i. destruct (Hsame i) as [-> ->]. by rewrite Hv, decide_True.
    + intros (j&Hj&Hja&<-). destruct (Hsame j) as [Hlo Hhi]. rewrite Hlo, Hhi in Hja.
      rewrite Hv. case_decide as Hij; [by subst j|]. by exists j.
    + intros (j&Hj&Hja&<-). exists j. destruct (Hsame j) as [-> ->]. rewrite Hv.
      case_decide as Hij; [by subst j|]. done.
Qed.

Lemma vm_free_address_outcome s vaddr :
  inv s → 0 ≤ vm_lock s →
  match vm_free_address vaddr s with
  | Done (Ok _) s' =>
      inv s' ∧ vm_lock s' = vm_lock s ∧ vm_index_pool s' = vm_index_pool s ∧ status s vaddr true ∧
      ∃ i, rng s i ∧ lo (vmi s i) ≤ vaddr < hi (vmi s i) ∧
        ∀ a b, status s' a b ↔
          if decide (lo (vmi s i) ≤ a < hi (vmi s i)) then b = false else status s a b
  | Done (Err e) s' => e = ERROR_NOT_FOUND ∧ ¬ managed s vaddr ∧ s' = s
  | Stop w => w = AssertFail "VM Index must be in use." ∧ status s vaddr false
  end.
Proof.
  intros Hinv Hl. unfold vm_free_address, locked, VM_LOCK. unfold bind at 1, modify.
  set (s1 := set_lock _ s). assert (inv s1) as Hinv1 by done.
  assert (vm_lock s1 ≠ 0) as Hl1 by (simpl; lia). unfold bind at 1. unfold bind at 1.
  destruct (find_ok s1 vaddr Hinv1 Hl1) as (r&->&Hr). destruct r as [i|].
  - destruct Hr as [Hi Hv]. destruct (inuse (vmi s1 i)) eqn:Hu.
    + destruct (free_index_ok s1 i Hinv1 Hi Hu) as (s2&Hfree&Hinv2&[Hl2 Hp2]&Hst2).
      unfold bind at 1. rewrite Hfree. unfold ret, bind, VM_UNLOCK, bind, get.
      rewrite (proj2 (Z.eqb_neq (vm_lock s2) 0)) by congruence. unfold put.
      split; [done|]. split; [simpl; rewrite Hl2; simpl; lia|]. split; [done|]. split; [by exists i|].
      exists i. split; [done|]. split; [done|]. apply Hst2.
    + unfold bind at 1, vm_free_index. unfold bind at 1, get.
      unfold inuse in Hu. rewrite Hu. split; [done|]. by exists i.
  - unfold ret, bind, VM_UNLOCK, bind, get. rewrite (proj2 (Z.eqb_neq (vm_lock s1) 0)) by done.
    unfold put. split; [done|]. split.
    + intros (b&i&Hi&Hv&_). by apply (Hr i Hi).
    + destruct s; unfold s1, set_lock; simpl. f_equal. lia.
Qed.

(** C34: [vm_free_address] frees the whole range that contains the address,
    wherever in the range the address is; an address outside the address
    space is [ERROR_NOT_FOUND]; and an address in a free range stops the
    kernel on the assertion in [vm_free_index]. *)
Theorem vm_free_address_correct s vaddr :
  inv s → 0 ≤ vm_lock s →
  match vm_free_address vaddr s with
  | Done (Ok _) s' =>
      inv s' ∧ vm_lock s' = vm_lock s ∧ status s vaddr true ∧
      ∃ i, rng s i ∧ lo (vmi s i) ≤ vaddr < hi (vmi s i) ∧
        ∀ a b, status s' a b ↔
          if decide (lo (vmi s i) ≤ a < hi (vmi s i)) then b = false else status s a b
  | Done (Err e) s' => e = ERROR_NOT_FOUND ∧ ¬ managed s vaddr ∧ s' = s
  | Stop w => w = AssertFail "VM Index must be in use." ∧ status s vaddr false
  end.
Proof.
  intros Hinv Hl. pose proof (vm_free_address_outcome s vaddr Hinv Hl) as Ho.
  destruct (vm_free_address vaddr s) as [[u|e] s'|w]; naive_solver.
Qed.

Lemma vm_insert_range_outcome s begin end_ :
  inv s → 0 ≤ vm_lock s → begin mod 8192 = 0 → 0 ≤ begin < end_ → end_ + 16384 < 2 ^ 64 →
  (∀ a, begin ≤ a < begin + PAGE_ROUNDUP (end_ - begin) → ¬ managed s a) →
  wp (vm_insert_range begin end_)
    (λ r s', r = Ok tt ∧ inv s' ∧ vm_lock s' = vm_lock s ∧
       (∀ a b, status s' a b ↔
         status s a b ∨ (begin ≤ a < begin + PAGE_ROUNDUP (end_ - begin) ∧ b = false)) ∧
       grown s s')
    pool_stop s.
Proof.
  intros Hinv Hl Hal Hbe Hlt Hfree. apply wp_locked; [done|]. set (s1 := set_lock _ s).
  assert (inv s1) as Hinv1 by done. assert (vm_lock s1 ≠ 0) as Hl1 by (simpl; lia).
  destruct (PAGE_ROUNDUP_spec (end_ - begin)) as [Hea Heb]; [lia|lia|].
  rewrite (u64_small (end_ - begin)) by lia. rewrite PAGE_COUNT_div by lia.
  set (n := (end_ - begin + 8191) / 8192) in *.
  assert (PAGE_ROUNDUP (end_ - begin) = 8192 * n) as Hn.
  { unfold n. apply Z.div_exact in Hea; [|lia].
    set (k := PAGE_ROUNDUP (end_ - begin) / 8192) in *. rewrite Hea. f_equal.
    apply Z.div_unique with (end_ - begin + 8191 - 8192 * k); lia. }
  rewrite Hn in *. clearbody n. rewrite wp_bind_ok.
  assert (range_ok (mk_index begin n VM_INDEX_FLAG_DEFAULT)) as Hrok.
  { unfold range_ok, hi. simpl. split_and!; (done || lia || by left). }
  eapply wp_mono; [apply (insert_ok s1 begin n Hinv1 Hl1 Hrok)| |done].
  - intros i Hi. destruct Hinv as (_&Hok&_). destruct (Hok i Hi) as [Hri _].
    change (vmi s i) with (vmi s1 i) in Hri. pose proof Hri as (?&_). unfold apart, lo, hi. simpl.
    destruct (decide (begin + 8192 * n ≤ vmi_base (vmi s1 i))) as [|Hn1]; [by left|].
    destruct (decide (vmi_base (vmi s1 i) + 8192 * vmi_size (vmi s1 i) ≤ begin)) as [|Hn2];
      [by right|]. exfalso.
    apply (Hfree (Z.max begin (vmi_base (vmi s1 i)))); [lia|].
    exists (inuse (vmi s1 i)), i. change (vmi s i) with (vmi s1 i). unfold lo, hi.
    split_and!; (done || lia).
  - intros o s2 (i&->&Hinv2&Hl2&_&_&_&_&Hst&Hg). rewrite wp_ret. split; [congruence|].
    split; [done|]. split; [done|]. split; [simpl; rewrite Hl2; simpl; lia|]. split; [exact Hst|exact Hg].
Qed.

(** [vm_insert_range] adds the pages of a range that overlaps no range
    of the address space, as free pages. *)
Theorem vm_insert_range_correct s begin end_ :
  inv s → 0 ≤ vm_lock s → begin mod 8192 = 0 → 0 ≤ begin < end_ → end_ + 16384 < 2 ^ 64 →
  (∀ a, begin ≤ a < begin + PAGE_ROUNDUP (end_ - begin) → ¬ managed s a) →
  wp (vm_insert_range begin end_)
    (λ r s', r = Ok tt ∧ inv s' ∧ vm_lock s' = vm_lock s ∧
       ∀ a b, status s' a b ↔
         status s a b ∨ (begin ≤ a < begin + PAGE_ROUNDUP (end_ - begin) ∧ b = false))
    pool_stop s.
Proof.
  intros Hinv Hl Hal Hbe Hlt Hfree. eapply wp_mono; [by apply vm_insert_range_outcome| |done].
  intros r s' (Hr&Hinv'&Hl'&Hst&_). by split_and!.
Qed.
End operations.

(** * An address space of sixteen pages *)

Definition empty_vm : vm (list Z * Z) := vm_setup2 ([], 1).
Definition example_vm : vm (list Z * Z) :=
  outcome_state empty_vm (vm_insert_range 0x10000 0x30000 empty_vm).
Definition example_vm_used : vm (list Z * Z) :=
  outcome_state empty_vm (vm_alloc_address 2 true example_vm).

Lemma empty_vm_inv : inv empty_vm.
Proof.
  assert (∀ i, ¬ rng empty_vm i) as Hno by (intros i Hi; by apply elem_of_nil in Hi).
  split_and!.
  - apply SSorted_nil.
  - intros i Hi. by apply Hno in Hi.
  - intros i j Hi. by apply Hno in Hi.
  - apply NoDup_nil_2.
  - intros i. split; [intros Hi; by apply elem_of_nil in Hi|intros [Hi _]; by apply Hno in Hi].
  - split; [done|]. intros x Hx. by apply elem_of_nil in Hx.
Qed.

Lemma vm_insert_range_correct_witness :
  ∃ s, vm_insert_range 0x10000 0x30000 empty_vm = Done (Ok tt) s ∧ inv s ∧ status s 0x10000 false.
Proof.
  pose proof (vm_insert_range_correct empty_vm 0x10000 0x30000 empty_vm_inv ltac:(reflexivity || (simpl; lia))
    ltac:(reflexivity) ltac:(lia) ltac:(lia)) as Hw.
  destruct (vm_insert_range 0x10000 0x30000 empty_vm) as [r s|w] eqn:He.
  - unfold wp in Hw. rewrite He in Hw. destruct Hw as (->&Hi&_&Hst).
    + intros a _ (b&i&Hr&_). unfold rng in Hr. simpl in Hr. set_solver.
    + exists s. split; [reflexivity|]. split; [exact Hi|]. apply Hst. right. split; [|reflexivity].
      vm_compute. split; congruence.
  - vm_compute in He. discriminate He.
Defined.

Lemma example_vm_eq : vm_insert_range 0x10000 0x30000 empty_vm = Done (Ok tt) example_vm.
Proof. vm_compute. reflexivity. Qed.

Lemma example_vm_sound :
  inv example_vm ∧ vm_lock example_vm = 0 ∧
  ∀ a b, status example_vm a b ↔ 0x10000 ≤ a < 0x30000 ∧ b = false.
Proof.
  pose proof vm_insert_range_correct_witness as (s&He&Hi&_).
  rewrite example_vm_eq in He. injection He as <-. split; [done|]. split; [done|].
  assert (lo (vmi example_vm 1) = 0x10000 ∧ hi (vmi example_vm 1) = 0x30000) as [Hlo Hhi]
    by (by vm_compute).
  intros a b. split.
  - intros (i&Hr&Ha&<-). assert (i = 1) as -> by (vm_compute in Hr; by apply list_elem_of_singleton in Hr).
    rewrite Hlo, Hhi in Ha. done.
  - intros [Ha ->]. exists 1. split; [by vm_compute; left|]. by rewrite Hlo, Hhi.
Qed.

Lemma vm_alloc_address_correct_witness :
  ∃ s, vm_alloc_address 2 true example_vm = Done (Ok 0x2c000) s ∧ inv s ∧
    claimed 0x2c000 0x30000 example_vm s.
Proof.
  destruct example_vm_sound as (Hi&Hl&_).
  pose proof (vm_alloc_address_correct example_vm 2 true Hi ltac:(rewrite Hl; lia) ltac:(lia)) as Hw.
  assert (vm_alloc_address 2 true example_vm = Done (Ok 0x2c000) example_vm_used) as He
    by (vm_compute; reflexivity).
  unfold wp in Hw. rewrite He in Hw. exists example_vm_used. split; [exact He|].
  destruct Hw as (Hi'&_&_&_&_&_&Hc). split; [exact Hi'|exact Hc].
Defined.

Lemma vm_alloc_range_correct_witness :
  ∃ s, vm_alloc_range 0x12345 0x15000 example_vm = Done (Ok tt) s ∧ inv s ∧
    claimed 0x12000 0x16000 example_vm s.
Proof.
  destruct example_vm_sound as (Hi&Hl&_).
  pose proof (vm_alloc_range_correct example_vm 0x12345 0x15000 Hi ltac:(rewrite Hl; lia)
    ltac:(lia) ltac:(lia)) as Hw.
  destruct (vm_alloc_range 0x12345 0x15000 example_vm) as [r s|w] eqn:He;
    [|vm_compute in He; discriminate He].
  unfold wp in Hw. rewrite He in Hw. destruct Hw as (Hi'&_&Hr).
  destruct r as [[]|e]; [|vm_compute in He; discriminate He].
  exists s. split; [reflexivity|]. split; [exact Hi'|]. exact (proj1 Hr).
Defined.

Lemma vm_free_address_correct_witness :
  match vm_free_address 0x2d000 example_vm_used with
  | Done (Ok _) s' => inv s'
  | _ => False
  end.
Proof.
  destruct vm_alloc_address_correct_witness as (s&He&Hi&_).
  assert (vm_alloc_address 2 true example_vm = Done (Ok 0x2c000) example_vm_used) as He'
    by (vm_compute; reflexivity).
  rewrite He' in He. injection He as <-.
  pose proof (vm_free_address_correct example_vm_used 0x2d000 Hi ltac:(vm_compute; congruence)) as Hf.
  destruct (vm_free_address 0x2d000 example_vm_used) as [[u|e] s|w] eqn:Hfr.
  - exact (proj1 Hf).
  - vm_compute in Hfr. discriminate Hfr.
  - vm_compute in Hfr. discriminate Hfr.
Defined.

(** A range with its end before its beginning is not refused: the assertion
    of [vm_insert_index] stops the kernel. *)
Lemma vm_alloc_range_backwards :
  vm_alloc_range 0x16000 0x12000 example_vm =
  Stop (AssertFail "Cannot insert an index twice!").
Proof. vm_compute. reflexivity. Qed.
