(* ===== verification/VmPage.v ===== *)
(** Physical pages ([mk/vm/vm_page.c], [mk/vm/vm_page.h]) and the direct map
    ([mk/cpu/mips/cpu/memory.h], [mk/cpu/mips/cpu/pmap.h]).

    Every physical page has a [struct vm_page] in a tree page: the first page
    of each run of 340 pages holds the tree node and the 340 structures of the
    run, its own first.  A structure's address is therefore enough to compute
    the page it stands for, and the tree of tree pages leads from a page's
    address to its structure.  Here a structure is its address, the two
    queues are lists of addresses, and memory is a map from the addresses of
    physical pages to their 1024 words.

    The theorems: address and structure determine each other, reference counts
    and queues agree and every operation keeps them so, and a page handed out
    comes back to the free queue exactly when its last reference goes. *)

From S2P Require Import Prelude MachineInt Btree Spinlock.

Local Open Scope Z_scope.
Local Open Scope c_scope.

(** * The direct map *)

Definition XKPHYS_BASE : Z := 0x8000000000000000.
Definition XKPHYS_END : Z := 0xbfffffffffffffff.
Definition CCA_CNC : Z := 0x03.
Definition XKPHYS_MAP (cca a : Z) : Z :=
  Z.lor (Z.lor (Z.shiftl 0x2 62) (Z.shiftl cca 59)) a.
Definition XKPHYS_EXTRACT (a : Z) : Z := Z.land a 0x07ffffffffffffff.
Definition pmap_is_direct (vaddr : Z) : bool := (XKPHYS_BASE <=? vaddr) && (vaddr <=? XKPHYS_END).

Definition PAGE_FLAG_DEFAULT : Z := 0x00000000.
Definition PAGE_FLAG_ZERO : Z := 0x00000001.

(** [sizeof (struct vm_page_tree)]: three pointers;
    [sizeof (struct vm_page)]: two pointers and an [unsigned], aligned. *)
Definition sizeof_vm_page_tree : Z := 24.
Definition sizeof_vm_page : Z := 24.
Definition VM_PAGE_TREE_ENTRIES : Z := (PAGE_SIZE - sizeof_vm_page_tree) / sizeof_vm_page.

(** [&ptp->ptp_entries[i]] *)
Definition ptp_entry (ptp i : Z) : Z := ptp + sizeof_vm_page_tree + sizeof_vm_page * i.

(** * State *)

Record pages := mk_pages {
  page_tree : tree Z;
  pg_refcnt : gmap Z Z;
  page_free_queue : list Z;
  page_use_queue : list Z;
  page_queue_lock : bool;
  memory : gmap Z (list Z)
}.

Definition set_queues (r : gmap Z Z) (f u : list Z) (s : pages) : pages :=
  mk_pages (page_tree s) r f u (page_queue_lock s) (memory s).
Definition set_pq_lock (b : bool) (s : pages) : pages :=
  mk_pages (page_tree s) (pg_refcnt s) (page_free_queue s) (page_use_queue s) b (memory s).
Definition set_page_tree (t : tree Z) (s : pages) : pages :=
  mk_pages t (pg_refcnt s) (page_free_queue s) (page_use_queue s) (page_queue_lock s) (memory s).
Definition set_memory (m : gmap Z (list Z)) (s : pages) : pages :=
  mk_pages (page_tree s) (pg_refcnt s) (page_free_queue s) (page_use_queue s) (page_queue_lock s) m.

Definition page_init (m : gmap Z (list Z)) : pages := mk_pages Leaf ∅ [] [] false m.

Definition PAGEQ_LOCK : M pages unit := zoom page_queue_lock set_pq_lock acquire.
Definition PAGEQ_UNLOCK : M pages unit := zoom page_queue_lock set_pq_lock release.
Definition PAGEQ_ASSERT_HELD : M pages unit :=
  s <- get ;; assert_ (page_queue_lock s) "Lock must be held.".
Definition refcnt (page : Z) : M pages Z :=
  s <- get ;; deref "page" (pg_refcnt s !! page).

(** [TAILQ_REMOVE] of an element of the queue. *)
Definition tailq_remove (p : Z) (q : list Z) : list Z := filter (λ x, x ≠ p) q.

(** * Reference counts *)

Definition page_ref_hold (page : Z) : M pages unit :=
  PAGEQ_ASSERT_HELD ;;;
  n <- refcnt page ;;
  (if n =? 0
   then modify (λ s, set_queues (pg_refcnt s) (tailq_remove page (page_free_queue s))
                       (page_use_queue s ++ [page]) s)
   else ret tt) ;;;
  modify (λ s, set_queues (<[page := u32 (n + 1)]> (pg_refcnt s)) (page_free_queue s)
                 (page_use_queue s) s) ;;;
  assert_ (negb (u32 (n + 1) =? 0)) "Refcount wrapped.".

Definition page_ref_drop (page : Z) : M pages unit :=
  PAGEQ_ASSERT_HELD ;;;
  n <- refcnt page ;;
  assert_ (negb (n =? 0)) "Cannot drop refcount on unheld page." ;;;
  modify (λ s, set_queues (<[page := n - 1]> (pg_refcnt s)) (page_free_queue s)
                 (page_use_queue s) s) ;;;
  if n - 1 =? 0
  then modify (λ s, set_queues (pg_refcnt s) (page_free_queue s ++ [page])
                      (tailq_remove page (page_use_queue s)) s)
  else ret tt.

Definition page_insert (page paddr : Z) : M pages unit :=
  PAGEQ_ASSERT_HELD ;;;
  modify (λ s, set_queues (<[page := 0]> (pg_refcnt s)) (page_free_queue s ++ [page])
                 (page_use_queue s) s).

Definition page_release (page : Z) : M pages unit :=
  PAGEQ_LOCK ;;;
  page_ref_drop page ;;;
  n <- refcnt page ;;
  assert_ (n =? 0) "Cannot release if refs held." ;;;
  PAGEQ_UNLOCK.

(** * Direct map ([pmap.h]); [kernel] says whether [vm] is [kernel_vm] *)

Definition pmap_extract_direct (kernel : bool) (vaddr : Z) : M pages (result Z) :=
  assert_ kernel "Only the kernel VM can direct-map." ;;;
  assert_ (pmap_is_direct vaddr) "Direct-mapped address must be in range." ;;;
  ret (Ok (XKPHYS_EXTRACT vaddr)).

Definition pmap_map_direct (kernel : bool) (paddr : Z) : M pages (result Z) :=
  assert_ kernel "Only the kernel VM can direct-map." ;;;
  ret (Ok (XKPHYS_MAP CCA_CNC paddr)).

Definition pmap_unmap_direct (kernel : bool) (vaddr : Z) : M pages (result unit) :=
  assert_ kernel "Only the kernel VM can direct-map." ;;;
  assert_ (pmap_is_direct vaddr) "Direct-mapped address must be in range." ;;;
  ret (Ok tt).

(** * Structures and addresses *)

(** [page - &ptp->ptp_entries[0]] is a division by the structure's size. *)
Definition page_index (page : Z) : Z :=
  (page - ptp_entry (PAGE_FLOOR page) 0) / sizeof_vm_page.

Definition page_address (page : Z) : M pages Z :=
  assert_ (negb (page =? 0)) "Must have a page." ;;;
  paddr <- or_panic "pmap_extract failed" (pmap_extract_direct true (PAGE_FLOOR page)) ;;
  ret (u64 (paddr + PAGE_SIZE * page_index page)).

(** The address as a value, for the comparisons inside [BTREE_FIND]. *)
Definition page_paddr (page : Z) : Z :=
  u64 (XKPHYS_EXTRACT (PAGE_FLOOR page) + PAGE_SIZE * page_index page).

Inductive order := Less | Equal (page : Z) | Greater.

Definition page_lookup_cmp (paddr ptp : Z) : order :=
  let base := page_paddr (ptp_entry ptp 0) in
  if paddr <? base then Less
  else
    let entry := u32 (ADDR_TO_PAGE (paddr - base)) in
    if entry <? VM_PAGE_TREE_ENTRIES then Equal (ptp_entry ptp entry) else Greater.

Definition is_less (o : order) : bool := match o with Less => true | _ => false end.
Definition is_equal (o : order) : bool := match o with Equal _ => true | _ => false end.

Definition page_lookup (paddr : Z) : M pages (result Z) :=
  assert_ (PAGE_ALIGNED paddr) "must be a page address" ;;;
  s <- get ;;
  match bt_find (λ iter, is_less (page_lookup_cmp paddr iter))
                (λ iter, is_equal (page_lookup_cmp paddr iter)) (page_tree s) with
  | None => ret (Err ERROR_NOT_FOUND)
  | Some ptp =>
      (* [*pagep], as the comparison that matched left it *)
      match page_lookup_cmp paddr ptp with
      | Equal page => ret (Ok page)
      | _ => halt (Undefined "pagep")
      end
  end.

(** * Allocation *)

Definition zero_page : list Z := replicate 1024 0.

Definition pmap_zero (page : Z) : M pages unit :=
  paddr <- page_address page ;;
  modify (λ s, set_memory (<[paddr := zero_page]> (memory s)) s).

Definition page_alloc (flags : Z) : M pages (result Z) :=
  PAGEQ_LOCK ;;;
  s <- get ;;
  match page_free_queue s with
  | [] => PAGEQ_UNLOCK ;;; ret (Err ERROR_EXHAUSTED)
  | page :: _ =>
      page_ref_hold page ;;;
      PAGEQ_UNLOCK ;;;
      (if flag_set flags PAGE_FLAG_ZERO then pmap_zero page else ret tt) ;;;
      ret (Ok page)
  end.

Definition page_map_direct (kernel : bool) (page : Z) : M pages (result Z) :=
  if negb kernel then halt (Panic "can't direct map for non-kernel address space.")
  else
    PAGEQ_LOCK ;;; page_ref_hold page ;;; PAGEQ_UNLOCK ;;;
    paddr <- page_address page ;;
    r <- pmap_map_direct kernel paddr ;;
    match r with
    | Ok vaddr => ret (Ok vaddr)
    | Err e => PAGEQ_LOCK ;;; page_ref_drop page ;;; PAGEQ_UNLOCK ;;; ret (Err e)
    end.

Definition page_unmap_direct (kernel : bool) (page vaddr : Z) : M pages (result unit) :=
  assert_ (PAGE_ALIGNED vaddr) "must be a page address" ;;;
  or_panic "pmap_unmap_direct failed" (pmap_unmap_direct kernel vaddr) ;;;
  PAGEQ_LOCK ;;; page_ref_drop page ;;; PAGEQ_UNLOCK ;;;
  ret (Ok tt).

Definition page_alloc_direct (kernel : bool) (flags : Z) : M pages (result Z) :=
  page <-? page_alloc flags ;;
  r <- page_map_direct kernel page ;;
  match r with
  | Ok vaddr => ret (Ok vaddr)
  | Err e => page_release page ;;; ret (Err e)
  end.

(** * [page_insert_pages] *)

(** The inner loop: entries [i ..] of the tree page [ptp]; returns the pages
    left and the next address. *)
Fixpoint insert_entries (n : nat) (ptp i base pages_ : Z) : M pages (Z * Z) :=
  match n with
  | O => ret (pages_, base)
  | S n =>
      if i <? VM_PAGE_TREE_ENTRIES then
        page_insert (ptp_entry ptp i) base ;;;
        (if i =? 0 then page_ref_hold (ptp_entry ptp i) else ret tt) ;;;
        let pages_ := pages_ - 1 in
        let base := u64 (base + PAGE_SIZE) in
        if pages_ =? 0 then ret (pages_, base)
        else insert_entries n ptp (i + 1) base pages_
      else ret (pages_, base)
  end.

Fixpoint insert_tree_pages (fuel : nat) (base pages_ : Z) : M pages unit :=
  match fuel with
  | O => halt OutOfFuel
  | S fuel =>
      if 1 <? pages_ then
        ptp <- or_panic "pmap_map_direct failed" (pmap_map_direct true base) ;;
        r <- insert_entries (Z.to_nat VM_PAGE_TREE_ENTRIES) ptp 0 base pages_ ;;
        modify (λ s, set_page_tree (bt_insert (λ iter, ptp <? iter) ptp (page_tree s)) s) ;;;
        insert_tree_pages fuel r.2 r.1
      else ret tt
  end.

Definition page_insert_pages (base pages_ : Z) : M pages (result unit) :=
  assert_ (PAGE_ALIGNED base) "must be a page address" ;;;
  PAGEQ_LOCK ;;;
  insert_tree_pages (Z.to_nat pages_ + 1) base pages_ ;;;
  PAGEQ_UNLOCK ;;;
  ret (Ok tt).

(** * Structures and addresses determine each other *)

(** A physical address the direct map reaches, with its run of 340 pages. *)
Definition run_base (base : Z) : Prop :=
  0 ≤ base ∧ base mod 8192 = 0 ∧ base + 8192 * VM_PAGE_TREE_ENTRIES < 2 ^ 59.
(** The structure of page [i] of the run at [base]. *)
Definition page_of (base i : Z) : Z := ptp_entry (XKPHYS_MAP CCA_CNC base) i.

Lemma XKPHYS_MAP_add a : 0 ≤ a < 2 ^ 59 → XKPHYS_MAP CCA_CNC a = 0x9800000000000000 + a.
Proof.
  intros Ha. unfold XKPHYS_MAP.
  change (Z.lor (Z.shiftl 2 62) (Z.shiftl CCA_CNC 59)) with (Z.shiftl 19 59).
  by rewrite lor_shiftl_add by lia.
Qed.

Lemma XKPHYS_EXTRACT_mod a : XKPHYS_EXTRACT a = a mod 2 ^ 59.
Proof. unfold XKPHYS_EXTRACT. change 0x07ffffffffffffff with (Z.ones 59). by rewrite Z.land_ones. Qed.

Lemma XKPHYS_round a : 0 ≤ a < 2 ^ 59 → XKPHYS_EXTRACT (XKPHYS_MAP CCA_CNC a) = a.
Proof.
  intros Ha. rewrite XKPHYS_EXTRACT_mod, XKPHYS_MAP_add by done.
  replace (0x9800000000000000 + a) with (a + 19 * 2 ^ 59) by lia.
  rewrite Z.mod_add by lia. by apply Z.mod_small.
Qed.

Lemma direct_is_direct a : 0 ≤ a < 2 ^ 59 → pmap_is_direct (XKPHYS_MAP CCA_CNC a) = true.
Proof.
  intros. rewrite XKPHYS_MAP_add by done. unfold pmap_is_direct, XKPHYS_BASE, XKPHYS_END.
  apply andb_true_iff. rewrite !Z.leb_le. lia.
Qed.

Lemma page_of_facts base i :
  run_base base → 0 ≤ i < VM_PAGE_TREE_ENTRIES →
  page_of base i = 0x9800000000000000 + base + 24 + 24 * i ∧
  PAGE_FLOOR (page_of base i) = XKPHYS_MAP CCA_CNC base ∧
  page_index (page_of base i) = i.
Proof.
  intros (Hb&Hal&Hlt) Hi. change VM_PAGE_TREE_ENTRIES with 340 in *.
  assert (page_of base i = 0x9800000000000000 + base + 24 + 24 * i) as Hp.
  { unfold page_of, ptp_entry. rewrite XKPHYS_MAP_add by lia.
    change sizeof_vm_page_tree with 24. change sizeof_vm_page with 24. lia. }
  assert (PAGE_FLOOR (page_of base i) = XKPHYS_MAP CCA_CNC base) as Hf.
  { rewrite PAGE_FLOOR_sub, XKPHYS_MAP_add, Hp by lia.
    replace (0x9800000000000000 + base + 24 + 24 * i)
      with (24 + 24 * i + (base / 8192 + 1337006139375616) * 8192) at 2
      by (apply Z.div_exact in Hal; lia).
    rewrite Z.mod_add, Z.mod_small by lia. lia. }
  split_and!; [done..|]. unfold page_index. rewrite Hf, Hp. unfold ptp_entry.
  rewrite XKPHYS_MAP_add by lia. change sizeof_vm_page_tree with 24. change sizeof_vm_page with 24.
  replace (_ - _) with (i * 24) by lia. by rewrite Z.div_mul.
Qed.

Lemma page_paddr_of base i :
  run_base base → 0 ≤ i < VM_PAGE_TREE_ENTRIES → page_paddr (page_of base i) = base + 8192 * i.
Proof.
  intros Hr Hi. destruct (page_of_facts base i Hr Hi) as (_&Hf&Hx). destruct Hr as (?&?&?).
  change VM_PAGE_TREE_ENTRIES with 340 in *. unfold page_paddr. rewrite Hf, Hx, XKPHYS_round by lia.
  change PAGE_SIZE with 8192. apply u64_small. lia.
Qed.

Lemma page_address_ok base i s :
  run_base base → 0 ≤ i < VM_PAGE_TREE_ENTRIES →
  page_address (page_of base i) s = Done (base + 8192 * i) s.
Proof.
  intros Hr Hi. pose proof (page_paddr_of base i Hr Hi) as Hpa.
  destruct (page_of_facts base i Hr Hi) as (Hp&Hf&_). destruct Hr as (?&?&?).
  change VM_PAGE_TREE_ENTRIES with 340 in *.
  unfold page_address, bind. rewrite (proj2 (Z.eqb_neq (page_of base i) 0)) by lia.
  unfold assert_, or_panic, pmap_extract_direct, bind, assert_, ret. simpl.
  rewrite Hf, direct_is_direct by lia. f_equal. unfold page_paddr in Hpa. by rewrite Hf in Hpa.
Qed.

(** The runs of the tree: each on its own 340 pages. *)
Definition runs_ok (t : tree Z) (bases : list Z) : Prop :=
  elements t = (λ b, XKPHYS_MAP CCA_CNC b) <$> bases ∧ Forall run_base bases ∧
  StronglySorted (λ b b', b + 8192 * VM_PAGE_TREE_ENTRIES ≤ b') bases.

Lemma lookup_cmp_spec paddr base :
  run_base base → 0 ≤ paddr < 2 ^ 44 → paddr mod 8192 = 0 →
  page_lookup_cmp paddr (XKPHYS_MAP CCA_CNC base) =
  if paddr <? base then Less
  else if paddr <? base + 8192 * VM_PAGE_TREE_ENTRIES
       then Equal (page_of base ((paddr - base) / 8192)) else Greater.
Proof.
  intros Hr Hp Hal. unfold page_lookup_cmp. fold (page_of base 0).
  rewrite (page_paddr_of base 0 Hr) by by vm_compute. rewrite Z.mul_0_r, Z.add_0_r.
  destruct (Z.ltb_spec paddr base); [done|]. rewrite ADDR_TO_PAGE_div.
  pose proof Hr as (?&Hb&?). apply Z.div_exact in Hb, Hal; [|lia..].
  assert ((paddr - base) / 8192 = paddr / 8192 - base / 8192) as Hd.
  { symmetry. apply Z.div_unique with 0; lia. }
  rewrite u32_small by lia. change VM_PAGE_TREE_ENTRIES with 340.
  destruct (Z.ltb_spec ((paddr - base) / 8192) 340), (Z.ltb_spec paddr (base + 8192 * 340));
    (done || lia).
Qed.

Lemma page_lookup_outcome s bases paddr :
  runs_ok (page_tree s) bases → 0 ≤ paddr < 2 ^ 44 → paddr mod 8192 = 0 →
  ∃ r, page_lookup paddr s = Done r s ∧
    match r with
    | Ok page => page_address page s = Done paddr s ∧
        ∃ base i, base ∈ bases ∧ 0 ≤ i < VM_PAGE_TREE_ENTRIES ∧ page = page_of base i
    | Err e => e = ERROR_NOT_FOUND ∧
        ∀ base i, base ∈ bases → 0 ≤ i < VM_PAGE_TREE_ENTRIES → paddr ≠ base + 8192 * i
    end.
Proof.
  intros (Hel&Hruns&Hsort) Hp Hal. unfold page_lookup, bind.
  rewrite (proj2 (PAGE_ALIGNED_mod paddr) Hal). unfold assert_, ret, get.
  rewrite Forall_forall in Hruns.
  assert (∀ b, b ∈ bases → run_base b) as Hr by done.
  set (cmp := λ iter, is_less (page_lookup_cmp paddr iter)).
  set (mat := λ iter, is_equal (page_lookup_cmp paddr iter)).
  assert (StronglySorted (search_rel cmp mat) (elements (page_tree s))) as Hss.
  { rewrite Hel. clear Hel. induction Hsort as [|b l Hs IH Hb]; simpl; constructor.
    - apply IH; intros; apply Hr; by right.
    - rewrite Forall_forall in Hb |- *. intros y (b'&->&Hb')%list_elem_of_fmap.
      specialize (Hb b' Hb'). unfold search_rel, cmp, mat.
      rewrite !lookup_cmp_spec by (done || (apply Hr; (by left) || by right)).
      pose proof (Hr b ltac:(by left)) as (?&_). change VM_PAGE_TREE_ENTRIES with 340 in *.
      repeat case_match; zcmp; simpl; try done; lia. }
  destruct (bt_find cmp mat (page_tree s)) as [ptp|] eqn:Hf.
  - apply bt_find_Some in Hf as (Hin&Hc&Hm). rewrite Hel in Hin.
    apply list_elem_of_fmap in Hin as (b&->&Hb). unfold cmp, mat in Hc, Hm.
    rewrite lookup_cmp_spec in Hc, Hm |- * by (done || by apply Hr).
    pose proof (Hr b Hb) as (?&Hbal&?).
    assert (paddr / 8192 * 8192 = paddr ∧ b / 8192 * 8192 = b) as [Hq1 Hq2].
    { apply Z.div_exact in Hal, Hbal; lia. }
    assert ((paddr - b) / 8192 = paddr / 8192 - b / 8192) as Hd
      by (symmetry; apply Z.div_unique with 0; lia).
    destruct (Z.ltb_spec paddr b); [done|].
    destruct (Z.ltb_spec paddr (b + 8192 * VM_PAGE_TREE_ENTRIES)) as [Hlt|]; [|done].
    eexists. split; [done|].
    assert (0 ≤ (paddr - b) / 8192 < VM_PAGE_TREE_ENTRIES) as Hi by lia. split.
    + rewrite page_address_ok by (done || by apply Hr). f_equal. lia.
    + by exists b, ((paddr - b) / 8192).
  - eexists. split; [done|]. split; [done|]. intros base i Hb Hi ->.
    pose proof (bt_find_None cmp mat (page_tree s) (XKPHYS_MAP CCA_CNC base) Hss Hf) as Hn.
    unfold cmp, mat in Hn. rewrite lookup_cmp_spec in Hn by (done || by apply Hr).
    change VM_PAGE_TREE_ENTRIES with 340 in *.
    rewrite (proj2 (Z.ltb_ge (base + 8192 * i) base)) in Hn by lia.
    rewrite (proj2 (Z.ltb_lt (base + 8192 * i) (base + 8192 * 340))) in Hn by lia.
    simpl in Hn. discriminate Hn; [|done]. rewrite Hel. apply list_elem_of_fmap. by exists base.
Qed.

(** in a tree whose runs do not overlap, the structure found for a page
    is the structure whose page it is, for every page of every run, and no
    structure is found for a page outside the runs. *)
Theorem page_lookup_correct s bases paddr :
  runs_ok (page_tree s) bases → 0 ≤ paddr < 2 ^ 44 → paddr mod 8192 = 0 →
  ∃ r, page_lookup paddr s = Done r s ∧
    match r with
    | Ok page => page_address page s = Done paddr s ∧
        ∃ base i, base ∈ bases ∧ 0 ≤ i < VM_PAGE_TREE_ENTRIES ∧ page = page_of base i
    | Err e => e = ERROR_NOT_FOUND ∧
        ∀ base i, base ∈ bases → 0 ≤ i < VM_PAGE_TREE_ENTRIES → paddr ≠ base + 8192 * i
    end.
Proof. apply page_lookup_outcome. Qed.

(** * Reference counts and queues *)

(** A page is in the free queue if nothing refers to it and in the use queue
    if something does; no page is queued twice. *)
Definition queues_ok (s : pages) : Prop :=
  NoDup (page_free_queue s ++ page_use_queue s) ∧
  (∀ p, p ∈ page_free_queue s ↔ pg_refcnt s !! p = Some 0) ∧
  (∀ p, p ∈ page_use_queue s ↔ ∃ n, pg_refcnt s !! p = Some n ∧ n ≠ 0) ∧
  (∀ p n, pg_refcnt s !! p = Some n → 0 ≤ n < 2 ^ 32).

(** The rest of the state is as it was. *)
Definition same_rest (s s' : pages) : Prop :=
  page_tree s' = page_tree s ∧ page_queue_lock s' = page_queue_lock s ∧ memory s' = memory s.

(** [p] got reference count [n]; nothing else about references changed. *)
Definition recounts (p n : Z) (s s' : pages) : Prop :=
  pg_refcnt s' = <[p := n]> (pg_refcnt s) ∧ same_rest s s' ∧ queues_ok s'.

Lemma tailq_remove_out p q : p ∉ q → tailq_remove p q = q.
Proof. intros Hp. apply filter_all. by intros x Hx ->. Qed.

Lemma elem_of_tailq_remove p q x : x ∈ tailq_remove p q ↔ x ∈ q ∧ x ≠ p.
Proof. unfold tailq_remove. rewrite list_elem_of_filter. tauto. Qed.

(** Moving a page from one queue to the end of the other. *)
Lemma NoDup_move p f u :
  NoDup (f ++ u) → p ∈ f → NoDup (tailq_remove p f ++ (u ++ [p])).
Proof.
  intros (Hf&Hd&Hu)%NoDup_app Hp. apply NoDup_app. split_and!.
  - by apply NoDup_filter.
  - intros x [Hx Hne]%elem_of_tailq_remove. rewrite elem_of_app, list_elem_of_singleton.
    intros [?|?]; [by apply (Hd x)|done].
  - apply NoDup_app. split_and!; [done| |apply NoDup_singleton].
    intros x Hx ->%list_elem_of_singleton. by apply (Hd p).
Qed.

Lemma hold_ok s p n :
  queues_ok s → page_queue_lock s = true → pg_refcnt s !! p = Some n → n + 1 < 2 ^ 32 →
  ∃ s', page_ref_hold p s = Done tt s' ∧ recounts p (n + 1) s s'.
Proof.
  intros (Hnd&Hf&Hu&Hr) Hl Hp Hn. pose proof (Hr p n Hp) as Hn0.
  unfold page_ref_hold, PAGEQ_ASSERT_HELD, refcnt, bind, get, assert_, deref. rewrite Hl. simpl.
  rewrite Hp. unfold ret, modify. cbv beta iota. rewrite u32_small by lia.
  rewrite (proj2 (Z.eqb_neq (n + 1) 0)) by lia. simpl.
  destruct (Z.eqb_spec n 0) as [->|Hne]; eexists; (split; [done|]).
  - split; [done|]. split; [done|]. split_and!; simpl.
    + apply NoDup_move; [done|by apply Hf].
    + intros q. rewrite elem_of_tailq_remove, Hf. destruct (decide (p = q)) as [<-|Hpq].
      * rewrite lookup_insert_eq. naive_solver.
      * rewrite lookup_insert_ne by done. naive_solver.
    + intros q. rewrite elem_of_app, list_elem_of_singleton, Hu.
      destruct (decide (p = q)) as [<-|Hpq].
      * rewrite lookup_insert_eq. naive_solver.
      * rewrite lookup_insert_ne by done. naive_solver.
    + intros q m [[<- <-]|[? Hq]]%lookup_insert_Some; [lia|by eapply Hr].
  - split; [done|]. split; [done|]. split_and!; simpl; [done| | |].
    + intros q. rewrite Hf. destruct (decide (p = q)) as [<-|Hpq].
      * rewrite lookup_insert_eq. split; [congruence|]. intros [= ?]. lia.
      * by rewrite lookup_insert_ne.
    + intros q. rewrite Hu. destruct (decide (p = q)) as [<-|Hpq].
      * rewrite lookup_insert_eq. split; [intros; exists (n + 1); split; [done|lia]|]. by exists n.
      * by rewrite lookup_insert_ne.
    + intros q m [[<- <-]|[? Hq]]%lookup_insert_Some; [lia|by eapply Hr].
Qed.

Lemma drop_ok s p n :
  queues_ok s → page_queue_lock s = true → pg_refcnt s !! p = Some n → n ≠ 0 →
  ∃ s', page_ref_drop p s = Done tt s' ∧ recounts p (n - 1) s s'.
Proof.
  intros (Hnd&Hf&Hu&Hr) Hl Hp Hn. pose proof (Hr p n Hp) as Hn0.
  unfold page_ref_drop, PAGEQ_ASSERT_HELD, refcnt, bind, get, assert_, deref. rewrite Hl. simpl.
  rewrite Hp. unfold ret, modify. cbv beta iota. rewrite (proj2 (Z.eqb_neq n 0)) by done. simpl.
  destruct (Z.eqb_spec (n - 1) 0) as [H1|Hne]; eexists; (split; [done|]).
  - split; [done|]. split; [done|]. split_and!; simpl.
    + rewrite (Permutation_app_comm (page_free_queue s ++ [p])).
      apply NoDup_move; [by rewrite Permutation_app_comm|]. apply Hu. by exists n.
    + intros q. rewrite elem_of_app, list_elem_of_singleton, Hf.
      destruct (decide (p = q)) as [<-|Hpq].
      * rewrite lookup_insert_eq, H1. naive_solver.
      * rewrite lookup_insert_ne by done. naive_solver.
    + intros q. rewrite elem_of_tailq_remove, Hu. destruct (decide (p = q)) as [<-|Hpq].
      * rewrite lookup_insert_eq, H1. naive_solver.
      * rewrite lookup_insert_ne by done. naive_solver.
    + intros q m [[<- <-]|[? Hq]]%lookup_insert_Some; [lia|by eapply Hr].
  - split; [done|]. split; [done|]. split_and!; simpl; [done| | |].
    + intros q. rewrite Hf. destruct (decide (p = q)) as [<-|Hpq].
      * rewrite lookup_insert_eq. split; [congruence|]. intros [= ?]. lia.
      * by rewrite lookup_insert_ne.
    + intros q. rewrite Hu. destruct (decide (p = q)) as [<-|Hpq].
      * rewrite lookup_insert_eq. split; [intros; exists (n - 1); split; [done|lia]|]. by exists n.
      * by rewrite lookup_insert_ne.
    + intros q m [[<- <-]|[? Hq]]%lookup_insert_Some; [lia|by eapply Hr].
Qed.

(** The lock around a change of one count. *)
Definition locked (m : M pages unit) : M pages unit := PAGEQ_LOCK ;;; m ;;; PAGEQ_UNLOCK.

Lemma queues_lock s b : queues_ok (set_pq_lock b s) ↔ queues_ok s.
Proof. done. Qed.

Lemma locked_ok (m : M pages unit) s p n :
  page_queue_lock s = false →
  (∃ s', m (set_pq_lock true s) = Done tt s' ∧ recounts p n (set_pq_lock true s) s') →
  ∃ s', locked m s = Done tt s' ∧ recounts p n s s'.
Proof.
  intros Hl (s1&Hm&Hrc&(Ht&Hlk&Hmem)&Hq). unfold locked, PAGEQ_LOCK, PAGEQ_UNLOCK, zoom, bind.
  unfold acquire, release, bind, get, put. rewrite Hl. rewrite Hm. rewrite Hlk. simpl.
  eexists. split; [done|]. by split_and!.
Qed.

Lemma locked_hold_ok s p n :
  queues_ok s → page_queue_lock s = false → pg_refcnt s !! p = Some n → n + 1 < 2 ^ 32 →
  ∃ s', locked (page_ref_hold p) s = Done tt s' ∧ recounts p (n + 1) s s'.
Proof. intros. apply locked_ok; [done|]. by apply hold_ok. Qed.

Lemma locked_drop_ok s p n :
  queues_ok s → page_queue_lock s = false → pg_refcnt s !! p = Some n → n ≠ 0 →
  ∃ s', locked (page_ref_drop p) s = Done tt s' ∧ recounts p (n - 1) s s'.
Proof. intros. apply locked_ok; [done|]. by apply drop_ok. Qed.

(** The structures in the queues are structures of runs. *)
Definition known (s : pages) : Prop :=
  ∀ p, p ∈ dom (pg_refcnt s) →
    ∃ base i, run_base base ∧ 0 ≤ i < VM_PAGE_TREE_ENTRIES ∧ p = page_of base i.

Definition sound (s : pages) : Prop :=
  queues_ok s ∧ known s ∧ page_queue_lock s = false.

Lemma recounts_sound p n s s' :
  is_Some (pg_refcnt s !! p) → sound s → recounts p n s s' → sound s'.
Proof.
  intros Hp (_&Hk&Hl) (Hrc&(_&Hlk&_)&Hq). split_and!; [done| |congruence].
  intros q. rewrite Hrc, dom_insert. intros [->%elem_of_singleton|Hq']%elem_of_union; [|by apply Hk].
  apply Hk. by apply elem_of_dom.
Qed.

Lemma page_alloc_outcome s flags :
  sound s →
  match page_free_queue s with
  | [] => page_alloc flags s = Done (Err ERROR_EXHAUSTED) s
  | p :: _ =>
      ∃ s' paddr, page_alloc flags s = Done (Ok p) s' ∧ sound s' ∧
        pg_refcnt s' = <[p := 1]> (pg_refcnt s) ∧ page_tree s' = page_tree s ∧
        page_address p s = Done paddr s ∧
        memory s' = if flag_set flags PAGE_FLAG_ZERO then <[paddr := zero_page]> (memory s)
                    else memory s
  end.
Proof.
  intros Hs. pose proof Hs as (Hq&Hk&Hl). destruct (page_free_queue s) as [|p f] eqn:Hf.
  - unfold page_alloc, PAGEQ_LOCK, PAGEQ_UNLOCK, zoom, bind, acquire, release, bind, get, put.
    rewrite Hl. simpl. rewrite Hf. simpl. unfold ret. f_equal. by destruct s; simpl in *; subst.
  - assert (pg_refcnt s !! p = Some 0) as Hp.
    { destruct Hq as (_&Hfq&_). apply Hfq. rewrite Hf. by left. }
    destruct (locked_hold_ok s p 0 Hq Hl Hp ltac:(lia)) as (s1&Hh&Hrc).
    assert (sound s1) as Hs1 by (by eapply recounts_sound).
    destruct (Hk p) as (base&i&Hb&Hi&Hpi); [by apply elem_of_dom|].
    assert (page_alloc flags s =
      ((if flag_set flags PAGE_FLAG_ZERO then pmap_zero p else ret tt) ;;; ret (Ok p)) s1) as ->.
    { revert Hh. unfold page_alloc, locked, PAGEQ_LOCK, PAGEQ_UNLOCK, zoom, bind.
      unfold acquire, bind at 1, get, put. rewrite Hl. simpl. rewrite Hf.
      destruct (page_ref_hold p _) as [[] s2|w]; [|done].
      unfold release, bind, get, put. destruct (page_queue_lock s2); [|done]. by intros [= <-]. }
    destruct Hrc as (Hrc&(Ht&_&Hm)&_).
    assert (page_address p s1 = Done (base + 8192 * i) s1 ∧
            page_address p s = Done (base + 8192 * i) s) as [Ha1 Ha]
      by (rewrite Hpi; split; by apply page_address_ok).
    destruct (flag_set flags PAGE_FLAG_ZERO); unfold bind.
    + unfold pmap_zero, bind. rewrite Ha1. eexists _, (base + 8192 * i).
      split; [done|]. split; [done|]. split; [done|]. split; [done|]. split; [done|].
      simpl. by rewrite Hm.
    + unfold ret. by exists s1, (base + 8192 * i).
Qed.

(** [page_alloc] fails exactly when the free queue is empty; otherwise
    it hands out the page that has been free longest, with one reference,
    its memory zeroed if asked for, and nothing else changed. *)
Theorem page_alloc_correct s flags :
  sound s →
  match page_free_queue s with
  | [] => page_alloc flags s = Done (Err ERROR_EXHAUSTED) s
  | p :: _ =>
      ∃ s' paddr, page_alloc flags s = Done (Ok p) s' ∧ sound s' ∧
        pg_refcnt s' = <[p := 1]> (pg_refcnt s) ∧ page_tree s' = page_tree s ∧
        page_address p s = Done paddr s ∧
        memory s' = if flag_set flags PAGE_FLAG_ZERO then <[paddr := zero_page]> (memory s)
                    else memory s
  end.
Proof. apply page_alloc_outcome. Qed.

(** * References taken and given back *)

Lemma page_release_ok s p :
  sound s → pg_refcnt s !! p = Some 1 →
  ∃ s', page_release p s = Done tt s' ∧ recounts p 0 s s' ∧
    page_free_queue s' = page_free_queue s ++ [p].
Proof.
  intros (Hq&Hk&Hl) Hp.
  unfold page_release, PAGEQ_LOCK, PAGEQ_UNLOCK, zoom, bind, acquire, release, bind, get, put.
  rewrite Hl. destruct (drop_ok (set_pq_lock true s) p 1 Hq eq_refl Hp ltac:(lia))
    as (s1&Hd&Hrc&(Ht&Hlk&Hm)&Hq1).
  rewrite Hd. unfold refcnt, bind, get, deref. rewrite Hrc. simpl. rewrite lookup_insert_eq.
  unfold ret, assert_. simpl. rewrite Hlk. simpl. eexists. split; [done|].
  split; [by split_and!|]. revert Hd.
  unfold page_ref_drop, PAGEQ_ASSERT_HELD, refcnt, bind, get, assert_, deref. simpl. rewrite Hp.
  unfold ret, modify. simpl. by intros [= <-].
Qed.

Lemma page_map_direct_ok s base i n :
  let p := page_of base i in
  run_base base → 0 ≤ i < VM_PAGE_TREE_ENTRIES →
  sound s → pg_refcnt s !! p = Some n → n + 1 < 2 ^ 32 →
  ∃ s', page_map_direct true p s = Done (Ok (XKPHYS_MAP CCA_CNC (base + 8192 * i))) s' ∧
    recounts p (n + 1) s s'.
Proof.
  intros p Hb Hi (Hq&Hk&Hl) Hp Hn.
  destruct (locked_hold_ok s p n Hq Hl Hp Hn) as (s1&Hh&Hrc). exists s1. split; [|done].
  assert (page_map_direct true p s =
    (paddr <- page_address p ;; r <- pmap_map_direct true paddr ;;
     match r with
     | Ok vaddr => ret (Ok vaddr)
     | Err e => PAGEQ_LOCK ;;; page_ref_drop p ;;; PAGEQ_UNLOCK ;;; ret (Err e)
     end) s1) as ->.
  { revert Hh. unfold page_map_direct, locked, PAGEQ_LOCK, PAGEQ_UNLOCK, zoom, bind. simpl.
    unfold acquire, bind, get, put. rewrite Hl.
    destruct (page_ref_hold p _) as [[] s2|w]; [|done].
    unfold release, bind, get, put. destruct (page_queue_lock s2); [|done]. by intros [= <-]. }
  unfold bind, p. by rewrite (page_address_ok base i s1).
Qed.

Lemma page_unmap_direct_ok s base i n :
  let p := page_of base i in
  run_base base → 0 ≤ i < VM_PAGE_TREE_ENTRIES →
  sound s → pg_refcnt s !! p = Some n → n ≠ 0 →
  ∃ s', page_unmap_direct true p (XKPHYS_MAP CCA_CNC (base + 8192 * i)) s = Done (Ok tt) s' ∧
    recounts p (n - 1) s s'.
Proof.
  intros p Hb Hi (Hq&Hk&Hl) Hp Hn.
  destruct (locked_drop_ok s p n Hq Hl Hp Hn) as (s1&Hd&Hrc). exists s1. split; [|done].
  pose proof Hb as (?&Hal&?). change VM_PAGE_TREE_ENTRIES with 340 in *.
  assert (PAGE_ALIGNED (XKPHYS_MAP CCA_CNC (base + 8192 * i)) = true) as Hpa.
  { apply PAGE_ALIGNED_mod. rewrite XKPHYS_MAP_add by lia. apply Z.div_exact in Hal; [|lia].
    replace (0x9800000000000000 + (base + 8192 * i))
      with ((base / 8192 + i + 1337006139375616) * 8192) by lia. by rewrite Z.mod_mul. }
  revert Hd. unfold page_unmap_direct, locked, or_panic, pmap_unmap_direct, bind, assert_, ret.
  rewrite Hpa, direct_is_direct by lia.
  destruct (PAGEQ_LOCK s) as [[] s2|w]; [|done]. destruct (page_ref_drop p s2) as [[] s3|w]; [|done].
  destruct (PAGEQ_UNLOCK s3) as [[] s4|w]; [|done]. by intros [= <-].
Qed.

(** What [page_alloc_direct] hands out. *)
Lemma page_alloc_direct_outcome s flags :
  sound s →
  match page_free_queue s with
  | [] => page_alloc_direct true flags s = Done (Err ERROR_EXHAUSTED) s
  | p :: _ =>
      ∃ s', page_alloc_direct true flags s = Done (Ok (XKPHYS_MAP CCA_CNC (page_paddr p))) s' ∧
        sound s' ∧ pg_refcnt s' = <[p := 2]> (pg_refcnt s) ∧ page_tree s' = page_tree s ∧
        memory s' = if flag_set flags PAGE_FLAG_ZERO then <[page_paddr p := zero_page]> (memory s)
                    else memory s
  end.
Proof.
  intros Hs. pose proof (page_alloc_outcome s flags Hs) as Ha. pose proof Hs as ((_&Hfq&_)&Hk&_).
  destruct (page_free_queue s) as [|p f]; unfold page_alloc_direct, bind_ok, bind; [by rewrite Ha|].
  destruct Ha as (s0&paddr&Hal&Hs0&Hrc0&Ht0&Hpa&Hm0). rewrite Hal.
  assert (pg_refcnt s !! p = Some 0) as Hp by (apply Hfq; by left).
  destruct (Hk p) as (base&i&Hb&Hi&Hpi); [by apply elem_of_dom|].
  rewrite Hpi, (page_address_ok base i s) in Hpa by done. injection Hpa as <-.
  assert (pg_refcnt s0 !! p = Some 1) as Hp0 by (rewrite Hrc0; apply lookup_insert_eq).
  rewrite Hpi in Hp0. assert (page_paddr p = base + 8192 * i) as -> by (rewrite Hpi; by apply page_paddr_of).
  destruct (page_map_direct_ok s0 base i 1 Hb Hi Hs0 Hp0 ltac:(lia)) as (s1&Hmap&Hr1).
  exists s1. rewrite Hpi, Hmap. split; [done|]. split; [by eapply recounts_sound|].
  destruct Hr1 as (Hrc1&(Ht1&_&Hm1)&_). split; [by rewrite Hrc1, Hrc0, Hpi, insert_insert_eq|].
  split; [congruence|]. by rewrite Hm1, Hm0.
Qed.

(** a page allocated through the direct map is the oldest free page, at
    the direct-mapped address of its memory and with two references; giving
    back the mapping and the page puts it at the end of the free queue with
    no reference, all other counts as they were. *)
Theorem page_alloc_direct_release s p f flags :
  sound s → page_free_queue s = p :: f →
  ∃ s1 s2 s3 paddr,
    page_alloc_direct true flags s = Done (Ok (XKPHYS_MAP CCA_CNC paddr)) s1 ∧
    page_address p s = Done paddr s ∧ pg_refcnt s1 = <[p := 2]> (pg_refcnt s) ∧ sound s1 ∧
    page_unmap_direct true p (XKPHYS_MAP CCA_CNC paddr) s1 = Done (Ok tt) s2 ∧
    page_release p s2 = Done tt s3 ∧ sound s3 ∧
    page_free_queue s3 = page_free_queue s2 ++ [p] ∧ pg_refcnt s3 = pg_refcnt s.
Proof.
  intros Hs Hf. pose proof (page_alloc_direct_outcome s flags Hs) as Ha. rewrite Hf in Ha.
  destruct Ha as (s1&Hal&Hs1&Hrc1&_&_). pose proof Hs as (Hq&Hk&_).
  assert (pg_refcnt s !! p = Some 0) as Hp by (destruct Hq as (_&Hfq&_); apply Hfq; rewrite Hf; by left).
  destruct (Hk p) as (base&i&Hb&Hi&Hpi); [by apply elem_of_dom|].
  assert (pg_refcnt s1 !! page_of base i = Some 2) as Hp1
    by (rewrite Hrc1, Hpi; apply lookup_insert_eq).
  destruct (page_unmap_direct_ok s1 base i 2 Hb Hi Hs1 Hp1 ltac:(lia)) as (s2&Hun&Hr2).
  assert (sound s2) as Hs2 by (by eapply recounts_sound). pose proof Hr2 as (Hrc2&_).
  assert (pg_refcnt s2 !! page_of base i = Some 1) as Hp2 by (rewrite Hrc2; apply lookup_insert_eq).
  destruct (page_release_ok s2 _ Hs2 Hp2) as (s3&Hrel&Hr3&Hfree3).
  assert (sound s3) as Hs3 by (by eapply recounts_sound). destruct Hr3 as (Hrc3&_).
  rewrite Hpi, page_paddr_of in Hal by done. rewrite Hpi in Hp, Hrc1 |- *.
  exists s1, s2, s3, (base + 8192 * i). split_and!; try done.
  - by apply page_address_ok.
  - rewrite Hrc3, Hrc2, Hrc1, !insert_insert_eq. by apply insert_id.
Qed.

(** * [page_insert_pages] *)

(** [s'] has the counts of [s] and, for new structures only, those of [new];
    the tree, the lock and the memory are as they were. *)
Definition adds (new : Z → Z → Prop) (s s' : pages) : Prop :=
  same_rest s s' ∧ queues_ok s' ∧
  ∀ p n, pg_refcnt s' !! p = Some n ↔ pg_refcnt s !! p = Some n ∨ new p n.

Lemma page_insert_ok s p paddr :
  queues_ok s → page_queue_lock s = true → p ∉ dom (pg_refcnt s) →
  ∃ s', page_insert p paddr s = Done tt s' ∧ same_rest s s' ∧ queues_ok s' ∧
    pg_refcnt s' = <[p := 0]> (pg_refcnt s).
Proof.
  intros (Hnd&Hf&Hu&Hr) Hl Hp. apply not_elem_of_dom in Hp.
  unfold page_insert, PAGEQ_ASSERT_HELD, bind, get, assert_. rewrite Hl. unfold ret, modify.
  eexists. split; [done|]. split; [done|]. split; [|done].
  assert (p ∉ page_free_queue s ∧ p ∉ page_use_queue s) as [Hpf Hpu].
  { rewrite Hf, Hu. split; [congruence|]. intros (n&?&_). congruence. }
  split_and!; simpl.
  - apply NoDup_app in Hnd as (?&Hd&?). rewrite <-app_assoc. apply NoDup_app. split_and!; [done| |].
    + intros x Hx. rewrite elem_of_app, list_elem_of_singleton. intros [->|?]; [done|by apply (Hd x)].
    + by apply NoDup_cons.
  - intros q. rewrite elem_of_app, list_elem_of_singleton, Hf.
    destruct (decide (p = q)) as [<-|]; [rewrite lookup_insert_eq; naive_solver|].
    rewrite lookup_insert_ne by done. naive_solver.
  - intros q. rewrite Hu. destruct (decide (p = q)) as [<-|]; [|by rewrite lookup_insert_ne].
    rewrite lookup_insert_eq. split; intros (n&?&?); congruence.
  - intros q m [[<- <-]|[? Hq]]%lookup_insert_Some; [lia|by eapply Hr].
Qed.

(** One entry of a run: free, except that entry 0, the page the structures
    of the run are in, is in use. *)
Definition entry_count (i : Z) : Z := if i =? 0 then 1 else 0.

Lemma entry_ok s ptp i base :
  queues_ok s → page_queue_lock s = true → ptp_entry ptp i ∉ dom (pg_refcnt s) →
  ∃ s', (page_insert (ptp_entry ptp i) base ;;;
         if i =? 0 then page_ref_hold (ptp_entry ptp i) else ret tt) s = Done tt s' ∧
    adds (λ p n, p = ptp_entry ptp i ∧ n = entry_count i) s s'.
Proof.
  intros Hq Hl Hp. destruct (page_insert_ok s _ base Hq Hl Hp) as (s1&Hi&(Ht&Hk&Hm)&Hq1&Hrc).
  apply not_elem_of_dom in Hp. set (p := ptp_entry ptp i) in *.
  assert (∃ s', (if i =? 0 then page_ref_hold p else ret tt) s1 = Done tt s' ∧
    same_rest s1 s' ∧ queues_ok s' ∧ pg_refcnt s' = <[p := entry_count i]> (pg_refcnt s))
    as (s2&Hh&(Ht2&Hk2&Hm2)&Hq2&Hrc2).
  { unfold entry_count. destruct (i =? 0); [|by exists s1].
    destruct (hold_ok s1 p 0) as (s2&Hh&Hrc2&Hs2&Hq2); [done|congruence| |lia|].
    - by rewrite Hrc, lookup_insert_eq.
    - exists s2. split_and!; try done. by rewrite Hrc2, Hrc, insert_insert_eq. }
  exists s2. unfold bind. rewrite Hi. split; [done|]. split; [split_and!; congruence|].
  split; [done|]. intros q n. rewrite Hrc2, lookup_insert_Some. split; [naive_solver|].
  intros [Hs|[-> ->]]; [right|by left]. split; [|done]. intros ->. congruence.
Qed.

Lemma page_of_inj b i b' i' :
  run_base b → run_base b' → 0 ≤ i < VM_PAGE_TREE_ENTRIES → 0 ≤ i' < VM_PAGE_TREE_ENTRIES →
  page_of b i = page_of b' i' → b = b' ∧ i = i'.
Proof.
  intros Hb Hb' Hi Hi' Heq. destruct (page_of_facts b i Hb Hi) as (_&Hf&Hx).
  destruct (page_of_facts b' i' Hb' Hi') as (_&Hf'&Hx'). rewrite Heq in Hf, Hx.
  split; [|congruence]. destruct Hb as (?&_&?), Hb' as (?&_&?).
  change VM_PAGE_TREE_ENTRIES with 340 in *.
  rewrite Hf' in Hf. rewrite !XKPHYS_MAP_add in Hf by lia. lia.
Qed.

(** The inner loop from entry [i] with [k] entries to go. *)
Lemma insert_entries_ok base s n i pages_ :
  run_base base → 0 ≤ i → i + Z.of_nat n = VM_PAGE_TREE_ENTRIES → (0 < n)%nat → 0 < pages_ →
  queues_ok s → page_queue_lock s = true →
  (∀ j, i ≤ j < VM_PAGE_TREE_ENTRIES → page_of base j ∉ dom (pg_refcnt s)) →
  let k := Z.min (Z.of_nat n) pages_ in
  ∃ s', insert_entries n (XKPHYS_MAP CCA_CNC base) i (base + 8192 * i) pages_ s =
        Done (pages_ - k, base + 8192 * (i + k)) s' ∧
    adds (λ p c, ∃ j, i ≤ j < i + k ∧ p = page_of base j ∧ c = entry_count j) s s'.
Proof.
  intros Hb. pose proof Hb as (Hb0&_&Hlt). revert s i pages_.
  induction n as [|n IH]; [lia|]; intros s i pages_ Hi Hn _ Hp Hq Hl Hfresh k.
  change VM_PAGE_TREE_ENTRIES with 340 in *. simpl.
  change VM_PAGE_TREE_ENTRIES with 340. rewrite (proj2 (Z.ltb_lt i 340)) by lia.
  destruct (entry_ok s (XKPHYS_MAP CCA_CNC base) i (base + 8192 * i) Hq Hl)
    as (s1&He&(Ht1&Hk1&Hm1)&Hq1&Hc1); [by apply Hfresh; lia|].
  fold (page_of base i) in *. change PAGE_SIZE with 8192.
  rewrite (bind_seq _ _ _ _ _ He).
  replace (u64 (base + 8192 * i + 8192)) with (base + 8192 * (i + 1))
    by (rewrite u64_small by lia; lia).
  assert (page_queue_lock s1 = true) as Hl1 by congruence.
  assert (∀ p c, c = entry_count i → p = page_of base i →
    ∃ j, i ≤ j < i + k ∧ p = page_of base j ∧ c = entry_count j) as Hhere.
  { intros p c -> ->. exists i. split; [lia|done]. }
  destruct (Z.eqb_spec (pages_ - 1) 0) as [H1|H1].
  { exists s1. assert (k = 1) as Hk by lia. rewrite Hk. split; [unfold ret; do 2 f_equal; lia|].
    split; [by split_and!|]. split; [done|]. intros p c. rewrite Hc1. split.
    - intros [?|[-> ->]]; [by left|right]. exists i. split; [lia|done].
    - intros [?|(j&?&->&->)]; [by left|right]. by replace j with i by lia. }
  destruct n as [|n'].
  { exists s1. assert (k = 1) as Hk by lia. rewrite Hk. split; [unfold ret; do 2 f_equal; lia|].
    split; [by split_and!|]. split; [done|]. intros p c. rewrite Hc1. split.
    - intros [?|[-> ->]]; [by left|right]. exists i. split; [lia|done].
    - intros [?|(j&?&->&->)]; [by left|right]. by replace j with i by lia. }
  destruct (IH s1 (i + 1) (pages_ - 1)) as (s2&Hr&(Ht2&Hk2&Hm2)&Hq2&Hc2); try done; try lia.
  { intros j Hj [c Hc]%elem_of_dom. apply Hc1 in Hc as [Hc|[Heq _]].
    - apply (Hfresh j); [lia|]. apply elem_of_dom. by exists c.
    - apply page_of_inj in Heq as [_ ?]; try done; change VM_PAGE_TREE_ENTRIES with 340; lia. }
  exists s2. rewrite Hr. split; [do 2 f_equal; lia|]. split; [split_and!; congruence|].
  split; [done|]. intros p c. rewrite Hc2, Hc1. split.
  - intros [[?|[-> ->]]|(j&?&->&->)]; [by left| |]; right; [exists i|exists j]; (split; [lia|done]).
  - intros [?|(j&?&->&->)]; [by left; left|]. destruct (decide (j = i)) as [->|]; [by left; right|].
    right. exists j. split; [lia|done].
Qed.

(** How many of [n] pages the outer loop takes: it stops at a single page. *)
Definition taken (n : Z) : Z := if n mod VM_PAGE_TREE_ENTRIES =? 1 then n - 1 else n.

(** The runs a region of [r] runs is cut into. *)
Definition run_bases (base : Z) (r : nat) : list Z :=
  (λ j, base + 8192 * VM_PAGE_TREE_ENTRIES * Z.of_nat j) <$> seq 0 r.

Lemma run_bases_S base r :
  run_bases base (S r) = base :: run_bases (base + 8192 * VM_PAGE_TREE_ENTRIES) r.
Proof.
  unfold run_bases. change VM_PAGE_TREE_ENTRIES with 340. simpl.
  f_equal; [lia|]. rewrite <-fmap_S_seq, <-list_fmap_compose.
  apply list_fmap_ext. intros j x _. simpl. lia.
Qed.

(** The structure and the count of page [k] of a region at [base]. *)
Definition region_entry (base n p c : Z) : Prop :=
  ∃ k, 0 ≤ k < taken n ∧ c = entry_count (k mod VM_PAGE_TREE_ENTRIES) ∧
    p = page_of (base + 8192 * VM_PAGE_TREE_ENTRIES * (k / VM_PAGE_TREE_ENTRIES))
                (k mod VM_PAGE_TREE_ENTRIES).

Definition runs_of (n : Z) : nat :=
  Z.to_nat ((taken n + VM_PAGE_TREE_ENTRIES - 1) / VM_PAGE_TREE_ENTRIES).

Lemma taken_step n :
  VM_PAGE_TREE_ENTRIES < n → taken n = VM_PAGE_TREE_ENTRIES + taken (n - VM_PAGE_TREE_ENTRIES).
Proof.
  intros Hn. unfold taken. change VM_PAGE_TREE_ENTRIES with 340 in *.
  assert (n mod 340 = (n - 340) mod 340) as ->
    by (replace n with (n - 340 + 1 * 340) at 1 by lia; by rewrite Z.mod_add by lia).
  destruct (_ =? 1); lia.
Qed.

Lemma taken_small n : 1 < n ≤ VM_PAGE_TREE_ENTRIES → taken n = n.
Proof.
  intros Hn. unfold taken. change VM_PAGE_TREE_ENTRIES with 340 in *.
  destruct (Z.eqb_spec (n mod 340) 1) as [H|]; [|done].
  destruct (decide (n = 340)) as [->|]; [done|]. rewrite Z.mod_small in H by lia. lia.
Qed.

Lemma taken_le_one n : 0 ≤ n ≤ 1 → taken n = 0.
Proof. intros Hn. assert (n = 0 ∨ n = 1) as [-> | ->] by lia; done. Qed.

Lemma taken_nonneg n : 0 ≤ n → 0 ≤ taken n.
Proof.
  intros Hn. unfold taken. change VM_PAGE_TREE_ENTRIES with 340.
  destruct (Z.eqb_spec (n mod 340) 1) as [H|]; [|done].
  pose proof (Z.mod_le n 340). lia.
Qed.

(** A region longer than a run is its first run and the region after it. *)
Lemma region_step base n p c :
  VM_PAGE_TREE_ENTRIES < n →
  region_entry base n p c ↔
  (∃ j, 0 ≤ j < VM_PAGE_TREE_ENTRIES ∧ p = page_of base j ∧ c = entry_count j) ∨
  region_entry (base + 8192 * VM_PAGE_TREE_ENTRIES) (n - VM_PAGE_TREE_ENTRIES) p c.
Proof.
  intros Hn. unfold region_entry. rewrite taken_step by done.
  assert (0 ≤ taken (n - VM_PAGE_TREE_ENTRIES)) as H0
    by (apply taken_nonneg; change VM_PAGE_TREE_ENTRIES with 340 in *; lia).
  assert (∀ k, (k + 340) / 340 = k / 340 + 1 ∧ (k + 340) mod 340 = k mod 340) as Hstep.
  { intros k. replace (k + 340) with (k + 1 * 340) by lia.
    by rewrite Z.div_add, Z.mod_add by lia. }
  change VM_PAGE_TREE_ENTRIES with 340 in *. split.
  - intros (k&Hk&->&->). destruct (Z.lt_ge_cases k 340).
    + left. exists k. rewrite Z.div_small, Z.mod_small by lia. split_and!; (done || lia || (f_equal; lia)).
    + right. exists (k - 340). destruct (Hstep (k - 340)) as [Hd Hm].
      replace (k - 340 + 340) with k in Hd, Hm by lia. rewrite Hd, Hm. split_and!; (done || lia || (f_equal; lia)).
  - intros [(j&Hj&->&->)|(k&Hk&->&->)].
    + exists j. rewrite Z.div_small, Z.mod_small by lia. split_and!; (done || lia || (f_equal; lia)).
    + exists (k + 340). destruct (Hstep k) as [-> ->]. split_and!; (done || lia || (f_equal; lia)).
Qed.

Lemma region_small base n p c :
  1 < n ≤ VM_PAGE_TREE_ENTRIES →
  region_entry base n p c ↔ ∃ j, 0 ≤ j < n ∧ p = page_of base j ∧ c = entry_count j.
Proof.
  intros Hn. unfold region_entry. rewrite taken_small by done.
  change VM_PAGE_TREE_ENTRIES with 340 in *.
  split; intros (k&Hk&Hx&Hy); exists k; rewrite Z.div_small, Z.mod_small in * by lia;
    rewrite Z.mul_0_r, Z.add_0_r in *; done.
Qed.

Lemma runs_of_step n :
  VM_PAGE_TREE_ENTRIES < n → runs_of n = S (runs_of (n - VM_PAGE_TREE_ENTRIES)).
Proof.
  intros Hn. unfold runs_of. rewrite taken_step by done.
  pose proof (taken_nonneg (n - VM_PAGE_TREE_ENTRIES)) as H0.
  change VM_PAGE_TREE_ENTRIES with 340 in *. specialize (H0 ltac:(lia)).
  rewrite <-Z2Nat.inj_succ by (apply Z.div_pos; lia). f_equal. unfold Z.succ.
  rewrite <-Z.div_add by lia. f_equal. lia.
Qed.

Lemma runs_of_small n : 1 < n ≤ VM_PAGE_TREE_ENTRIES → runs_of n = 1%nat.
Proof.
  intros Hn. unfold runs_of. rewrite taken_small by done. change VM_PAGE_TREE_ENTRIES with 340 in *.
  replace ((n + 340 - 1) / 340) with 1; [done|]. apply Z.div_unique with (n - 1); lia.
Qed.

Lemma runs_ok_snoc t bases base :
  runs_ok t bases → Forall (λ b, b + 8192 * VM_PAGE_TREE_ENTRIES ≤ base) bases → run_base base →
  runs_ok (bt_insert (λ iter, XKPHYS_MAP CCA_CNC base <? iter) (XKPHYS_MAP CCA_CNC base) t)
          (bases ++ [base]).
Proof.
  intros (Hel&Hr&Hs) Hb Hrb. rewrite Forall_forall in Hb. split; [|split].
  - rewrite elements_insert_last, Hel, fmap_app; [done|].
    intros x. rewrite Hel. intros (b&->&Hin)%list_elem_of_fmap. specialize (Hb b Hin).
    rewrite Forall_forall in Hr. destruct (Hr b Hin) as (?&_&?), Hrb as (?&_&?).
    change VM_PAGE_TREE_ENTRIES with 340 in *. rewrite !XKPHYS_MAP_add by lia. lia.
  - apply Forall_app. split; [done|]. by constructor.
  - apply StronglySorted_app_iff. split_and!; [done|by repeat constructor|].
    intros x y Hx ->%list_elem_of_singleton. by apply Hb.
Qed.

(** No structure of a run at [base] or above it is known. *)
Definition fresh_from (base : Z) (s : pages) : Prop :=
  ∀ b i, base ≤ b → run_base b → 0 ≤ i < VM_PAGE_TREE_ENTRIES → page_of b i ∉ dom (pg_refcnt s).

(** One turn of the outer loop. *)
Lemma insert_run_ok fuel base n s bases :
  1 < n → run_base base → queues_ok s → page_queue_lock s = true → fresh_from base s →
  runs_ok (page_tree s) bases → Forall (λ b, b + 8192 * VM_PAGE_TREE_ENTRIES ≤ base) bases →
  let k := Z.min VM_PAGE_TREE_ENTRIES n in
  ∃ s', insert_tree_pages (S fuel) base n s = insert_tree_pages fuel (base + 8192 * k) (n - k) s' ∧
    page_queue_lock s' = true ∧ memory s' = memory s ∧ queues_ok s' ∧
    runs_ok (page_tree s') (bases ++ [base]) ∧
    ∀ p c, pg_refcnt s' !! p = Some c ↔ pg_refcnt s !! p = Some c ∨
      ∃ j, 0 ≤ j < k ∧ p = page_of base j ∧ c = entry_count j.
Proof.
  intros Hn Hb Hq Hl Hfresh Ht Hbs k. pose proof Hb as (?&_&?).
  destruct (insert_entries_ok base s (Z.to_nat VM_PAGE_TREE_ENTRIES) 0 n)
    as (s1&Hr&(Ht1&Hk1&Hm1)&Hq1&Hc1); try done; try lia.
  { vm_compute. lia. }
  { intros j Hj. by apply Hfresh. }
  rewrite Z.mul_0_r, Z.add_0_r, Z2Nat.id, Z.add_0_l in Hr by done. fold k in Hr.
  rewrite Z2Nat.id in Hc1 by done. fold k in Hc1.
  exists (set_page_tree (bt_insert (λ iter, XKPHYS_MAP CCA_CNC base <? iter)
            (XKPHYS_MAP CCA_CNC base) (page_tree s1)) s1).
  split.
  { cbn [insert_tree_pages]. rewrite (proj2 (Z.ltb_lt 1 n)) by done.
    unfold or_panic, pmap_map_direct, assert_. unfold bind, ret, modify. by rewrite Hr. }
  split; [cbn; congruence|]. split; [cbn; congruence|]. split; [done|]. split; [|done].
  cbn [page_tree set_page_tree]. rewrite Ht1. by apply runs_ok_snoc.
Qed.

Lemma fresh_from_adds base base' s s' (new : Z → Z → Prop) :
  fresh_from base s → base ≤ base' →
  (∀ p c, pg_refcnt s' !! p = Some c ↔ pg_refcnt s !! p = Some c ∨ new p c) →
  (∀ p c b i, new p c → base' ≤ b → run_base b → 0 ≤ i < VM_PAGE_TREE_ENTRIES → p ≠ page_of b i) →
  fresh_from base' s'.
Proof.
  intros Hf Hle Hc Hnew b i Hb Hr Hi [c [H|H]%Hc]%elem_of_dom.
  - apply (Hf b i); [lia|done|done|]. apply elem_of_dom. by exists c.
  - by apply (Hnew _ _ b i H).
Qed.

Lemma insert_tree_pages_ok fuel base n s bases :
  0 ≤ n < Z.of_nat fuel → 0 ≤ base → base mod 8192 = 0 →
  base + 8192 * (n + VM_PAGE_TREE_ENTRIES) < 2 ^ 59 →
  queues_ok s → page_queue_lock s = true → fresh_from base s →
  runs_ok (page_tree s) bases → Forall (λ b, b + 8192 * VM_PAGE_TREE_ENTRIES ≤ base) bases →
  ∃ s', insert_tree_pages fuel base n s = Done tt s' ∧
    page_queue_lock s' = true ∧ memory s' = memory s ∧ queues_ok s' ∧
    runs_ok (page_tree s') (bases ++ run_bases base (runs_of n)) ∧
    ∀ p c, pg_refcnt s' !! p = Some c ↔ pg_refcnt s !! p = Some c ∨ region_entry base n p c.
Proof.
  revert base n s bases. induction fuel as [|fuel IH]; [lia|].
  intros base n s bases Hn Hb0 Hal Hlt Hq Hl Hfresh Ht Hbs.
  destruct (Z.ltb_spec 1 n) as [H1|H1].
  2:{ exists s. cbn [insert_tree_pages]. rewrite (proj2 (Z.ltb_ge 1 n)) by done.
      assert (runs_of n = 0%nat) as -> by (unfold runs_of; by rewrite taken_le_one by lia).
      rewrite app_nil_r. do 5 (split; [done|]). intros p c. split; [by left|]. intros [|(k&Hk&_)]; [done|].
      rewrite taken_le_one in Hk by lia. lia. }
  assert (run_base base) as Hrb by (split_and!; [done..|]; lia).
  destruct (insert_run_ok fuel base n s bases) as (s1&He&Hl1&Hm1&Hq1&Ht1&Hc1); try done.
  rewrite He. destruct (Z.le_gt_cases n VM_PAGE_TREE_ENTRIES) as [Hle|Hgt].
  - rewrite Z.min_r in * by done. exists s1. split.
    { destruct fuel as [|fuel]; [lia|]. by rewrite Z.sub_diag. }
    rewrite runs_of_small by done. do 3 (split; [done|]). split; [by rewrite run_bases_S|].
    intros p c. rewrite Hc1. by rewrite region_small.
  - rewrite Z.min_l in * by lia.
    destruct (IH (base + 8192 * VM_PAGE_TREE_ENTRIES) (n - VM_PAGE_TREE_ENTRIES) s1 (bases ++ [base]))
      as (s2&Hr&Hl2&Hm2&Hq2&Ht2&Hc2); try done; try (change VM_PAGE_TREE_ENTRIES with 340 in *; lia).
    + change VM_PAGE_TREE_ENTRIES with 340. replace (8192 * 340) with (340 * 8192) by lia.
      by rewrite Z.mod_add.
    + refine (fresh_from_adds base _ s s1 _ Hfresh _ Hc1 _); [change VM_PAGE_TREE_ENTRIES with 340; lia|].
      intros p c b i (j&Hj&->&->) Hb Hr Hi [-> _]%page_of_inj; try done.
      change VM_PAGE_TREE_ENTRIES with 340 in *. lia.
    + apply Forall_app. split; [|by apply Forall_singleton].
      eapply Forall_impl; [exact Hbs|]. intros b Hle. cbv beta in Hle. change VM_PAGE_TREE_ENTRIES with 340 in Hle |- *. lia.
    + exists s2. rewrite Hr. split; [done|]. split; [done|]. split; [congruence|].
      split; [done|]. split; [rewrite runs_of_step, run_bases_S by done; by rewrite <-app_assoc in Ht2|].
      intros p c. rewrite Hc2, Hc1, (region_step base n) by done. tauto.
Qed.

Lemma region_entry_known base n p c :
  0 ≤ base → base mod 8192 = 0 → base + 8192 * (n + VM_PAGE_TREE_ENTRIES) < 2 ^ 59 →
  region_entry base n p c →
  ∃ b i, run_base b ∧ 0 ≤ i < VM_PAGE_TREE_ENTRIES ∧ p = page_of b i.
Proof.
  intros Hb Hal Hlt (k&Hk&_&->). eexists _, _. split; [|split; [|done]].
  - assert (taken n ≤ n) by (unfold taken; destruct (_ =? _); lia).
    pose proof (Z.mul_div_le k 340 ltac:(lia)). pose proof (Z.div_pos k 340 ltac:(lia)).
    unfold run_base. change VM_PAGE_TREE_ENTRIES with 340 in *. split; [lia|]. split; [|lia].
    replace (base + 8192 * 340 * (k / 340)) with (base + (340 * (k / 340)) * 8192) by lia.
    by rewrite Z.mod_add.
  - by apply Z.mod_pos_bound.
Qed.

Lemma page_insert_pages_outcome s bases base n :
  sound s → runs_ok (page_tree s) bases →
  Forall (λ b, b + 8192 * VM_PAGE_TREE_ENTRIES ≤ base) bases → fresh_from base s →
  0 ≤ base → base mod 8192 = 0 → 0 ≤ n →
  base + 8192 * (n + VM_PAGE_TREE_ENTRIES) < 2 ^ 59 →
  ∃ s', page_insert_pages base n s = Done (Ok tt) s' ∧ sound s' ∧
    memory s' = memory s ∧
    runs_ok (page_tree s') (bases ++ run_bases base (runs_of n)) ∧
    ∀ p c, pg_refcnt s' !! p = Some c ↔ pg_refcnt s !! p = Some c ∨ region_entry base n p c.
Proof.
  intros (Hq&Hk&Hl) Ht Hbs Hf Hb Hal Hn Hlt.
  destruct (insert_tree_pages_ok (Z.to_nat n + 1) base n (set_pq_lock true s) bases)
    as (s1&Hr&Hl1&Hm1&Hq1&Ht1&Hc1); try done; [lia|].
  exists (set_pq_lock false s1). split; [|split; [split; [exact Hq1|split; [|done]]|done]].
  - unfold page_insert_pages. unfold PAGEQ_LOCK, PAGEQ_UNLOCK, zoom, acquire, release.
    rewrite (proj2 (PAGE_ALIGNED_mod base) Hal). unfold assert_, bind at 1, ret.
    unfold bind, get, put. rewrite Hl, Hr, Hl1. done.
  - intros p [c [Hc|Hc]%Hc1]%elem_of_dom; [apply Hk, elem_of_dom; by exists c|].
    exact (region_entry_known base n p c Hb Hal Hlt Hc).
Qed.

(** registering a region of [n] pages above everything known so far
    always succeeds; it registers, once each, the pages of the region from
    the first on (all of them, or all but a single page left over after the
    last full run of 340), the first page of every run in use, since the
    structures live there, and all others free; the search tree stays
    ordered and the queues stay consistent with the counts. *)
Theorem page_insert_pages_correct s bases base n :
  sound s → runs_ok (page_tree s) bases →
  Forall (λ b, b + 8192 * VM_PAGE_TREE_ENTRIES ≤ base) bases → fresh_from base s →
  0 ≤ base → base mod 8192 = 0 → 0 ≤ n →
  base + 8192 * (n + VM_PAGE_TREE_ENTRIES) < 2 ^ 59 →
  ∃ s', page_insert_pages base n s = Done (Ok tt) s' ∧ sound s' ∧
    memory s' = memory s ∧
    runs_ok (page_tree s') (bases ++ run_bases base (runs_of n)) ∧
    ∀ p c, pg_refcnt s' !! p = Some c ↔ pg_refcnt s !! p = Some c ∨ region_entry base n p c.
Proof. apply page_insert_pages_outcome. Qed.

(** * The pages of the runs *)

(** The structures in the queues are those of the runs of the tree. *)
Definition covered (s : pages) (bases : list Z) : Prop :=
  runs_ok (page_tree s) bases ∧
  ∀ p, p ∈ dom (pg_refcnt s) →
    ∃ base i, base ∈ bases ∧ 0 ≤ i < VM_PAGE_TREE_ENTRIES ∧ p = page_of base i.

Lemma StronglySorted_either {A} (R : relation A) l x y :
  StronglySorted R l → x ∈ l → y ∈ l → x = y ∨ R x y ∨ R y x.
Proof.
  induction 1 as [|z l Hs IH Hz]; [by intros ?%elem_of_nil|]. rewrite Forall_forall in Hz.
  intros [->|Hx]%elem_of_cons [->|Hy]%elem_of_cons; auto.
Qed.

(** Pages of runs that do not overlap are told apart by their addresses. *)
Lemma runs_paddr_inj t bases b b' i i' :
  runs_ok t bases → b ∈ bases → b' ∈ bases →
  0 ≤ i < VM_PAGE_TREE_ENTRIES → 0 ≤ i' < VM_PAGE_TREE_ENTRIES →
  b + 8192 * i = b' + 8192 * i' → b = b' ∧ i = i'.
Proof.
  intros (_&Hr&Hs) Hb Hb' Hi Hi' Heq. change VM_PAGE_TREE_ENTRIES with 340 in *.
  destruct (StronglySorted_either _ _ b b' Hs Hb Hb') as [->|[?|?]]; lia.
Qed.

Lemma covered_paddr_inj s bases p q :
  covered s bases → p ∈ dom (pg_refcnt s) → q ∈ dom (pg_refcnt s) →
  page_paddr p = page_paddr q → p = q.
Proof.
  intros (Hr&Hc) (b&i&Hb&Hi&->)%Hc (b'&i'&Hb'&Hi'&->)%Hc. pose proof Hr as (_&Hrb&_).
  rewrite Forall_forall in Hrb. rewrite !page_paddr_of by auto. intros Heq.
  by destruct (runs_paddr_inj _ _ _ _ _ _ Hr Hb Hb' Hi Hi' Heq) as [-> ->].
Qed.

(** The structure found for the page of a known structure is that structure. *)
Lemma page_lookup_known s bases p :
  covered s bases → p ∈ dom (pg_refcnt s) → page_paddr p < 2 ^ 44 →
  page_lookup (page_paddr p) s = Done (Ok p) s.
Proof.
  intros (Hr&Hc) (b&i&Hb&Hi&->)%Hc. pose proof Hr as (_&Hrb&_). rewrite Forall_forall in Hrb.
  pose proof (Hrb b Hb) as (?&Hal&?). rewrite page_paddr_of by auto. intros Hlt.
  destruct (page_lookup_outcome s bases (b + 8192 * i) Hr) as (r&Hl&Hres).
  { change VM_PAGE_TREE_ENTRIES with 340 in *. lia. }
  { replace (b + 8192 * i) with (b + i * 8192) by lia. by rewrite Z.mod_add. }
  rewrite Hl. destruct r as [p'|e].
  - destruct Hres as (Ha&b'&i'&Hb'&Hi'&->). rewrite page_address_ok in Ha by auto.
    injection Ha as Heq. by destruct (runs_paddr_inj _ _ _ _ _ _ Hr Hb' Hb Hi' Hi Heq) as [-> ->].
  - destruct Hres as [_ Hn]. by destruct (Hn b i Hb Hi).
Qed.

Lemma run_bases_elem base r j :
  (j < r)%nat → base + 8192 * VM_PAGE_TREE_ENTRIES * Z.of_nat j ∈ run_bases base r.
Proof. intros Hj. apply list_elem_of_fmap. exists j. split; [done|]. apply elem_of_seq. lia. Qed.

(** Registering a region keeps the queues covered by the runs. *)
Lemma page_insert_pages_covered s bases base n :
  sound s → covered s bases →
  Forall (λ b, b + 8192 * VM_PAGE_TREE_ENTRIES ≤ base) bases → fresh_from base s →
  0 ≤ base → base mod 8192 = 0 → 0 ≤ n →
  base + 8192 * (n + VM_PAGE_TREE_ENTRIES) < 2 ^ 59 →
  ∃ s', page_insert_pages base n s = Done (Ok tt) s' ∧ sound s' ∧
    covered s' (bases ++ run_bases base (runs_of n)).
Proof.
  intros Hs (Hr&Hc) Hbs Hf Hb Hal Hn Hlt.
  destruct (page_insert_pages_outcome s bases base n Hs Hr Hbs Hf Hb Hal Hn Hlt)
    as (s'&Hrun&Hs'&_&Hr'&Hcnt). exists s'. split; [done|]. split; [done|]. split; [done|].
  intros p [c Hp]%elem_of_dom. apply Hcnt in Hp as [Hp|(k&Hk&_&->)].
  - destruct (Hc p) as (b&i&?&?&?); [apply elem_of_dom; by exists c|]. exists b, i.
    split; [apply elem_of_app; by left|done].
  - eexists _, _. split; [|split; [|reflexivity]]; [|by apply Z.mod_pos_bound].
    apply elem_of_app. right. change VM_PAGE_TREE_ENTRIES with 340 in *.
    replace (k / 340) with (Z.of_nat (Z.to_nat (k / 340)))
      by (apply Z2Nat.id; Z.to_euclidean_division_equations; lia).
    apply (run_bases_elem base _ (Z.to_nat (k / 340))). unfold runs_of.
    change VM_PAGE_TREE_ENTRIES with 340. Z.to_euclidean_division_equations. lia.
Qed.

(** * A small machine: one region of six pages *)

Definition boot_base : Z := 0x20000.
Definition boot : pages := Eval vm_compute in
  match page_insert_pages boot_base 6 (page_init ∅) with Done _ s => s | Stop _ => page_init ∅ end.

Lemma page_init_sound m : sound (page_init m).
Proof.
  split; [|split; [|done]].
  - split; [by constructor|]. split; [|split]; simpl.
    + intros p. split; [by intros ?%elem_of_nil|done].
    + intros p. split; [by intros ?%elem_of_nil|by intros (?&?&_)].
    + done.
  - intros p. simpl. rewrite dom_empty. by intros ?%elem_of_empty.
Qed.

Lemma boot_ok : sound boot ∧ covered boot [boot_base].
Proof.
  destruct (page_insert_pages_covered (page_init ∅) [] boot_base 6) as (s'&Hr&Hs&Hc);
    [apply page_init_sound| |constructor| |done..|].
  - split; [by repeat constructor|]. intros p. simpl. rewrite dom_empty. by intros ?%elem_of_empty.
  - intros b i _ _ _. simpl. rewrite dom_empty. apply not_elem_of_empty.
  - assert (boot = s') as ->; [|done]. change boot with
      (match page_insert_pages boot_base 6 (page_init ∅) with
       | Done _ s => s | Stop _ => page_init ∅ end). by rewrite Hr.
Qed.

(** A page past the end of a short run is found all the same: the structure
    returned was never inserted. *)
Lemma page_lookup_uninitialised :
  ∃ page, page_lookup (boot_base + 8192 * 7) boot = Done (Ok page) boot ∧
    pg_refcnt boot !! page = None.
Proof. eexists. split; vm_compute; reflexivity. Qed.

Lemma page_lookup_correct_witness :
  ∃ r, page_lookup (boot_base + 8192) boot = Done r boot ∧
    match r with
    | Ok page => page_address page boot = Done (boot_base + 8192) boot ∧
        ∃ base i, base ∈ [boot_base] ∧ 0 ≤ i < VM_PAGE_TREE_ENTRIES ∧ page = page_of base i
    | Err e => e = ERROR_NOT_FOUND ∧
        ∀ base i, base ∈ [boot_base] → 0 ≤ i < VM_PAGE_TREE_ENTRIES →
          boot_base + 8192 ≠ base + 8192 * i
    end.
Proof.
  apply (page_lookup_correct boot [boot_base] (boot_base + 8192));
    [apply boot_ok|by vm_compute|reflexivity].
Defined.

Lemma page_alloc_correct_witness :
  match page_free_queue boot with
  | [] => page_alloc PAGE_FLAG_ZERO boot = Done (Err ERROR_EXHAUSTED) boot
  | p :: _ =>
      ∃ s' paddr, page_alloc PAGE_FLAG_ZERO boot = Done (Ok p) s' ∧ sound s' ∧
        pg_refcnt s' = <[p := 1]> (pg_refcnt boot) ∧ page_tree s' = page_tree boot ∧
        page_address p boot = Done paddr boot ∧
        memory s' = if flag_set PAGE_FLAG_ZERO PAGE_FLAG_ZERO
                    then <[paddr := zero_page]> (memory boot) else memory boot
  end.
Proof. apply (page_alloc_correct boot PAGE_FLAG_ZERO), boot_ok. Defined.

Lemma page_alloc_direct_release_witness :
  ∃ s1 s2 s3 paddr,
    page_alloc_direct true PAGE_FLAG_DEFAULT boot = Done (Ok (XKPHYS_MAP CCA_CNC paddr)) s1 ∧
    page_address (page_of boot_base 1) boot = Done paddr boot ∧
    pg_refcnt s1 = <[page_of boot_base 1 := 2]> (pg_refcnt boot) ∧ sound s1 ∧
    page_unmap_direct true (page_of boot_base 1) (XKPHYS_MAP CCA_CNC paddr) s1 = Done (Ok tt) s2 ∧
    page_release (page_of boot_base 1) s2 = Done tt s3 ∧ sound s3 ∧
    page_free_queue s3 = page_free_queue s2 ++ [page_of boot_base 1] ∧
    pg_refcnt s3 = pg_refcnt boot.
Proof.
  apply (page_alloc_direct_release boot (page_of boot_base 1) [page_of boot_base 2; page_of boot_base 3;
    page_of boot_base 4; page_of boot_base 5]);
    [apply boot_ok|vm_compute; reflexivity].
Defined.

(** The next region above the first one's run, 342 pages long. *)
Lemma page_insert_pages_correct_witness :
  ∃ s', page_insert_pages 0x400000 342 boot = Done (Ok tt) s' ∧ sound s' ∧
    memory s' = memory boot ∧
    runs_ok (page_tree s') ([boot_base] ++ run_bases 0x400000 (runs_of 342)) ∧
    ∀ p c, pg_refcnt s' !! p = Some c ↔
      pg_refcnt boot !! p = Some c ∨ region_entry 0x400000 342 p c.
Proof.
  apply (page_insert_pages_correct boot [boot_base] 0x400000 342);
    [apply boot_ok|apply boot_ok|by repeat constructor| |done|done|done|done].
  intros b i Hb Hr Hi Hin.
  assert (map_Forall (λ p _, p < 0x9800000000040000) (pg_refcnt boot)) as Hlow
    by (apply (bool_decide_unpack _); vm_compute; exact I).
  apply elem_of_dom in Hin as [c Hc]. specialize (Hlow _ _ Hc). cbv beta in Hlow.
  destruct (page_of_facts b i Hr Hi) as (Hp&_). lia.
Defined.
