(* ===== verification/PmapTables.v ===== *)
(** The page tables of a pmap behave as a map (the definitions of Pmap.v)

    [pmap_ok] says that the tables reachable from a pmap are distinct pages
    in use; [translate] is the mapping they stand for.  The lemmas take the
    operations apart: a new table changes no translation ([grows]), a stored
    entry changes one ([enters]); the theorems put them together for
    [pmap_map], [pmap_unmap], the pages above them, and the identifiers a
    CPU hands out. *)

From S2P Require Import Prelude MachineInt Btree Spinlock VmPage Pmap.
Local Open Scope Z_scope.
Local Open Scope c_scope.

Lemma zero_page_lookup i w : zero_page !! i = Some w → w = 0.
Proof. unfold zero_page. by intros [-> _]%lookup_replicate. Qed.

#[local] Opaque zero_page XKPHYS_MAP XKPHYS_EXTRACT.

(** * The tables of a pmap *)

Inductive path := L0 (i : nat) | L1 (i j : nat).

(** A pointer that is not null. *)
Definition nz (o : option Z) : option Z := o ≫= λ t, if decide (t = 0) then None else Some t.

(** The table at a place of the tree. *)
Definition node (s : mmu) (p : path) : option Z :=
  match p with
  | L0 i => nz (pm_level0 (m_pmap s) !! i)
  | L1 i j => nz (pm_level0 (m_pmap s) !! i) ≫= λ t0, nz (table_word s t0 j)
  end.

Definition index0 (va : Z) : nat := Z.to_nat (pmap_index0 va).
Definition index1 (va : Z) : nat := Z.to_nat (pmap_index1 va).
Definition index_pte (va : Z) : nat := Z.to_nat (pmap_index_pte va).
Arguments index0 : simpl never.
Arguments index1 : simpl never.
Arguments index_pte : simpl never.
Definition path_of (va : Z) : path := L1 (index0 va) (index1 va).

(** A table is a page in use, of 1024 words. *)
Definition is_table (ps : pages) (t : Z) : Prop :=
  ∃ p n ws, pg_refcnt ps !! p = Some n ∧ n ≠ 0 ∧ t = XKPHYS_MAP CCA_CNC (page_paddr p) ∧
    memory ps !! page_paddr p = Some ws ∧ length ws = 1024%nat.

(** Different structures stand for different pages. *)
Definition frames_ok (ps : pages) : Prop :=
  ∀ p q, p ∈ dom (pg_refcnt ps) → q ∈ dom (pg_refcnt ps) → page_paddr p = page_paddr q → p = q.

Record pmap_ok (s : mmu) : Prop := {
  ok_len : length (pm_level0 (m_pmap s)) = 128%nat;
  ok_pages : sound (m_pages s);
  ok_frames : frames_ok (m_pages s);
  ok_table p t : node s p = Some t → is_table (m_pages s) t;
  ok_inj p q t : node s p = Some t → node s q = Some t → p = q
}.

(** The entry of the page of [va]; 0 where there is no table. *)
Definition pte_of (s : mmu) (va : Z) : Z :=
  match node s (path_of va) with
  | Some t => default 0 (table_word s t (index_pte va))
  | None => 0
  end.

(** The translation. *)
Definition translate (s : mmu) (va : Z) : option Z :=
  if pte_test (pte_of s va) PG_V then Some (TLBLO_PTE_TO_PA (pte_of s va)) else None.

Definition in_range (s : mmu) (va : Z) : Prop := pm_base (m_pmap s) ≤ va < pm_end (m_pmap s).

Lemma nz_Some o t : nz o = Some t ↔ o = Some t ∧ t ≠ 0.
Proof. unfold nz. destruct o as [x|]; simpl; [|naive_solver]. case_decide; naive_solver. Qed.

Lemma known_paddr ps p :
  known ps → p ∈ dom (pg_refcnt ps) →
  0 ≤ page_paddr p < 2 ^ 59 ∧ page_paddr p mod 8192 = 0 ∧
  ∀ ps', page_address p ps' = Done (page_paddr p) ps'.
Proof.
  intros Hk Hp. destruct (Hk p Hp) as (base&i&Hb&Hi&->). rewrite page_paddr_of by done.
  destruct Hb as (?&Hal&?). change VM_PAGE_TREE_ENTRIES with 340 in *. split; [lia|]. split.
  - replace (base + 8192 * i) with (base + i * 8192) by lia. by rewrite Z.mod_add.
  - intros ps'. apply page_address_ok; [by split_and!|done].
Qed.

Lemma table_facts ps t :
  known ps → is_table ps t →
  ∃ p n ws, pg_refcnt ps !! p = Some n ∧ n ≠ 0 ∧ t = XKPHYS_MAP CCA_CNC (page_paddr p) ∧
    XKPHYS_EXTRACT t = page_paddr p ∧ t ≠ 0 ∧
    memory ps !! XKPHYS_EXTRACT t = Some ws ∧ length ws = 1024%nat.
Proof.
  intros Hk (p&n&ws&Hp&Hn&->&Hm&Hl).
  destruct (known_paddr ps p Hk) as (Hb&_); [by apply elem_of_dom|].
  assert (XKPHYS_MAP CCA_CNC (page_paddr p) ≠ 0) as H0 by (rewrite XKPHYS_MAP_add by exact Hb; lia).
  exists p, n, ws. rewrite XKPHYS_round by exact Hb. by split_and!.
Qed.

Lemma index_bounds va : (index0 va < 128)%nat ∧ (index1 va < 1024)%nat ∧ (index_pte va < 1024)%nat.
Proof. unfold index0, index1, index_pte. pose proof (pmap_index_bounds va). lia. Qed.

Lemma table_word_Some s t i :
  known (m_pages s) → is_table (m_pages s) t → (i < 1024)%nat → ∃ w, table_word s t i = Some w.
Proof.
  intros Hk Ht Hi. destruct (table_facts _ _ Hk Ht) as (p&n&ws&_&_&_&_&_&Hm&Hl).
  unfold table_word. rewrite Hm. simpl. apply lookup_lt_is_Some. lia.
Qed.

Lemma load_word_ok s t i w :
  table_word s t (Z.to_nat i) = Some w → load_word t i s = Done w s.
Proof. intros Hw. unfold load_word, bind, get, deref. by rewrite Hw. Qed.

Lemma level0_Some s va :
  pmap_ok s → ∃ t, pm_level0 (m_pmap s) !! index0 va = Some t.
Proof.
  intros H. apply lookup_lt_is_Some. rewrite (ok_len s H). apply index_bounds.
Qed.

Lemma find0_ok s va t :
  pm_level0 (m_pmap s) !! index0 va = Some t → pmap_find0 va s = Done t s.
Proof. intros Ht. unfold pmap_find0, bind, get, deref. unfold index0 in Ht. by rewrite Ht. Qed.

Definition slot (s : mmu) (va : Z) : option (Z * Z) :=
  (λ t, (t, pmap_index_pte va)) <$> node s (path_of va).

Lemma pmap_find_ok s va :
  pmap_ok s →
  pmap_find va s = Done (if decide (in_range s va) then slot s va else None) s.
Proof.
  intros H. unfold pmap_find, bind at 1, get. unfold in_range.
  destruct (Z.ltb_spec va (pm_base (m_pmap s))); simpl; [by rewrite decide_False by lia|].
  destruct (Z.leb_spec (pm_end (m_pmap s)) va); simpl; [by rewrite decide_False by lia|].
  rewrite decide_True by lia. unfold slot, node, path_of.
  destruct (level0_Some s va H) as [t0 Ht0]. unfold bind. rewrite (find0_ok s va t0 Ht0).
  rewrite Ht0. unfold nz at 1. simpl. destruct (Z.eqb_spec t0 0) as [->|Hne]; [done|].
  rewrite decide_False by done. simpl.
  assert (node s (L0 (index0 va)) = Some t0) as Hn0.
  { unfold node. rewrite Ht0. apply nz_Some. split; [reflexivity|exact Hne]. }
  destruct (table_word_Some s t0 (index1 va)) as [t1 Ht1];
    [apply (ok_pages s H)|by apply (ok_table s H _ _ Hn0)|apply index_bounds|].
  unfold pmap_find1. rewrite (proj2 (Z.eqb_neq t0 0) Hne), (load_word_ok s t0 _ t1 Ht1), Ht1.
  unfold nz. simpl. destruct (Z.eqb_spec t1 0) as [->|Hne1]; [done|].
  rewrite decide_False by done. unfold pmap_find_pte. by rewrite (proj2 (Z.eqb_neq t1 0) Hne1).
Qed.

Lemma slot_word s va t i :
  pmap_ok s → slot s va = Some (t, i) →
  i = pmap_index_pte va ∧ node s (path_of va) = Some t ∧
  table_word s t (index_pte va) = Some (pte_of s va).
Proof.
  intros H. unfold slot. destruct (node s (path_of va)) as [t'|] eqn:Hn; [|done].
  intros [= -> <-]. split; [done|]. split; [done|]. unfold pte_of. rewrite Hn.
  destruct (table_word_Some s t (index_pte va)) as [w Hw];
    [apply (ok_pages s H)|by apply (ok_table s H _ _ Hn)|apply index_bounds|]. by rewrite Hw.
Qed.

Lemma slot_None s va : slot s va = None → pte_of s va = 0.
Proof. unfold slot, pte_of. by destruct (node s (path_of va)). Qed.

(** [pmap_extract] is the translation, on the pages the pmap is for. *)
Lemma pmap_extract_ok s kernel va :
  pmap_ok s → 0 ≤ va < 2 ^ 64 → pmap_is_direct (PAGE_FLOOR va) = false →
  pmap_extract kernel va s =
  Done (if decide (in_range s (PAGE_FLOOR va)) then
          match translate s (PAGE_FLOOR va) with
          | Some pa => Ok pa
          | None => Err ERROR_NOT_FOUND
          end
        else Err ERROR_NOT_PERMITTED) s.
Proof.
  intros H Hva Hd. unfold pmap_extract. rewrite Hd. set (v := PAGE_FLOOR va).
  unfold bind at 1, get, in_range.
  destruct (Z.leb_spec (pm_end (m_pmap s)) v); simpl; [by rewrite decide_False by lia|].
  destruct (Z.ltb_spec v (pm_base (m_pmap s))); simpl; [by rewrite decide_False by lia|].
  rewrite decide_True by lia. unfold bind at 1. rewrite pmap_find_ok by done.
  rewrite decide_True by (unfold in_range; lia).
  destruct (slot s v) as [[t i]|] eqn:Hs.
  - destruct (slot_word s v t i H Hs) as (->&_&Hw). unfold bind.
    rewrite (load_word_ok s t _ _ Hw). unfold translate. by destruct (pte_test (pte_of s v) PG_V).
  - unfold translate. by rewrite (slot_None s v Hs).
Qed.

(** * Growing the tree *)

(** What changes that only add tables leave alone: the translation, the
    range, the search tree of pages, the counts of pages in use, and the
    shootdowns; at most one page is taken. *)
Record keeps (s s' : mmu) : Prop := {
  keep_range : pm_base (m_pmap s') = pm_base (m_pmap s) ∧ pm_end (m_pmap s') = pm_end (m_pmap s);
  keep_pte va : pte_of s' va = pte_of s va;
  keep_tree : page_tree (m_pages s') = page_tree (m_pages s);
  keep_dom : dom (pg_refcnt (m_pages s')) = dom (pg_refcnt (m_pages s));
  keep_used p n : n ≠ 0 → pg_refcnt (m_pages s) !! p = Some n → pg_refcnt (m_pages s') !! p = Some n;
  keep_shootdown : m_shootdown s' = m_shootdown s;
  keep_cpu : m_cpu s' = m_cpu s ∧ m_asidnext s' = m_asidnext s;
  keep_node q x : node s' q = Some x → node s q = Some x ∨
    ∃ p, pg_refcnt (m_pages s) !! p = Some 0 ∧ x = XKPHYS_MAP CCA_CNC (page_paddr p)
}.

#[export] Instance path_eq_dec : EqDecision path.
Proof. solve_decision. Defined.

(** [s'] is [s] with the free page [p] taken for a table at [pth]. *)
Record grows (s : mmu) (p : Z) (pth : path) (s' : mmu) : Prop := {
  gr_free : pg_refcnt (m_pages s) !! p = Some 0;
  gr_sound : sound (m_pages s');
  gr_refcnt : pg_refcnt (m_pages s') = <[p := 2]> (pg_refcnt (m_pages s));
  gr_tree : page_tree (m_pages s') = page_tree (m_pages s);
  gr_range : pm_base (m_pmap s') = pm_base (m_pmap s) ∧ pm_end (m_pmap s') = pm_end (m_pmap s);
  gr_shootdown : m_shootdown s' = m_shootdown s;
  gr_cpu : m_cpu s' = m_cpu s ∧ m_asidnext s' = m_asidnext s;
  gr_len : length (pm_level0 (m_pmap s')) = 128%nat;
  gr_new : node s pth = None;
  gr_node q : node s' q = if decide (q = pth) then Some (XKPHYS_MAP CCA_CNC (page_paddr p)) else node s q;
  gr_mem q x : node s q = Some x →
    ∃ ws, memory (m_pages s') !! XKPHYS_EXTRACT x = Some ws ∧ length ws = 1024%nat;
  gr_zero : memory (m_pages s') !! page_paddr p = Some zero_page;
  gr_word va x : node s (path_of va) = Some x →
    table_word s' x (index_pte va) = table_word s x (index_pte va);
  gr_frame a : (∀ q x, node s' q = Some x → XKPHYS_EXTRACT x ≠ a) →
    memory (m_pages s') !! a = memory (m_pages s) !! a
}.

(** Only memory of tables changed, the tables stayed where they were, and all
    but [n] pages kept their reference counts. *)
Record frame (n : nat) (s s' : mmu) : Prop := {
  fr_memory a : (∀ q x, node s' q = Some x → XKPHYS_EXTRACT x ≠ a) →
    memory (m_pages s') !! a = memory (m_pages s) !! a;
  fr_node q x : node s q = Some x → node s' q = Some x;
  fr_taken : ∃ l, (length l ≤ n)%nat ∧
    ∀ q, q ∉ l → pg_refcnt (m_pages s') !! q = pg_refcnt (m_pages s) !! q
}.

Lemma frame_refl n s : frame n s s.
Proof. split; [done|done|]. exists []. simpl. split; [lia|done]. Qed.

Lemma frame_trans n m s s' s'' : frame n s s' → frame m s' s'' → frame (n + m) s s''.
Proof.
  intros [Hm Hn (l&Hl&Hr)] [Hm' Hn' (l'&Hl'&Hr')]. split.
  - intros a Ha. rewrite Hm' by done. apply Hm. intros q x Hx. by apply (Ha q), Hn'.
  - intros q x Hx. by apply Hn', Hn.
  - exists (l ++ l'). rewrite length_app. split; [lia|]. intros q Hq.
    apply not_elem_of_app in Hq as [??]. by rewrite Hr', Hr.
Qed.

Lemma grows_frame s p pth s' : grows s p pth s' → frame 1 s s'.
Proof.
  intros G. split; [apply (gr_frame _ _ _ _ G)| |].
  - intros q x Hx. rewrite (gr_node _ _ _ _ G). case_decide as Hq; [|done].
    subst. by rewrite (gr_new _ _ _ _ G) in Hx.
  - exists [p]. split; [done|]. intros q Hq. rewrite (gr_refcnt _ _ _ _ G), lookup_insert_ne; [done|].
    intros ->. apply Hq. by left.
Qed.

(** A free page is not a table. *)
Lemma free_not_node s p q x :
  pmap_ok s → pg_refcnt (m_pages s) !! p = Some 0 → node s q = Some x →
  x ≠ XKPHYS_MAP CCA_CNC (page_paddr p) ∧ XKPHYS_EXTRACT x ≠ page_paddr p.
Proof.
  intros H Hp Hx. destruct (ok_pages s H) as (_&Hk&_).
  destruct (table_facts _ x Hk (ok_table s H q x Hx)) as (p'&n&ws&Hp'&Hn&Ht&He&_).
  destruct (known_paddr _ p Hk) as (Hb&_); [by apply elem_of_dom|].
  assert (page_paddr p' ≠ page_paddr p) as Hne.
  { intros Heq. assert (p' = p) as ->; [|congruence].
    apply (ok_frames s H); [by apply elem_of_dom..|done]. }
  split; [|congruence]. intros ->. rewrite XKPHYS_round in He by exact Hb. congruence.
Qed.

Lemma zero_word i : default 0 (zero_page !! i) = 0.
Proof.
  destruct (zero_page !! i) as [w|] eqn:Hw; [|done].
  by rewrite (zero_page_lookup _ _ Hw).
Qed.

Lemma grows_ok s p pth s' : pmap_ok s → grows s p pth s' → pmap_ok s' ∧ keeps s s'.
Proof.
  intros H G. pose proof (gr_free _ _ _ _ G) as Hfree. pose proof (ok_pages s H) as (_&Hk&_).
  assert (dom (pg_refcnt (m_pages s')) = dom (pg_refcnt (m_pages s))) as Hdom.
  { rewrite (gr_refcnt _ _ _ _ G), dom_insert_L. apply elem_of_dom_2 in Hfree. set_solver. }
  destruct (known_paddr _ p Hk) as (Hb&_); [by apply elem_of_dom|].
  assert (∀ q n, n ≠ 0 → pg_refcnt (m_pages s) !! q = Some n →
    pg_refcnt (m_pages s') !! q = Some n) as Hused.
  { intros q n Hn Hq. rewrite (gr_refcnt _ _ _ _ G), lookup_insert_ne; [done|].
    intros ->. congruence. }
  split.
  - split.
    + by apply (gr_len _ _ _ _ G).
    + by apply (gr_sound _ _ _ _ G).
    + intros a b. rewrite Hdom. apply (ok_frames s H).
    + intros q x. rewrite (gr_node _ _ _ _ G). case_decide as Hq.
      * intros [= <-]. exists p, 2, zero_page. rewrite (gr_refcnt _ _ _ _ G), lookup_insert_eq.
        by rewrite (gr_zero _ _ _ _ G).
      * intros Hx. destruct (table_facts _ x Hk (ok_table s H q x Hx)) as (p'&n&_&Hp'&Hn&->&He&_).
        destruct (gr_mem _ _ _ _ G q _ Hx) as (ws&Hws&Hl). rewrite He in Hws.
        exists p', n, ws. split_and!; try done. by apply Hused.
    + intros q q' x. rewrite !(gr_node _ _ _ _ G). do 2 case_decide; [congruence| | |].
      * intros [= <-] Hx. by destruct (free_not_node s p _ _ H Hfree Hx).
      * intros Hx [= <-]. by destruct (free_not_node s p _ _ H Hfree Hx).
      * apply (ok_inj s H).
  - split; try apply G; [|done..|].
    2:{ intros q x. rewrite (gr_node _ _ _ _ G). case_decide; [intros [= <-]; right; by exists p|by left]. }
    intros va. unfold pte_of. rewrite (gr_node _ _ _ _ G). case_decide as Hq.
    + rewrite Hq, (gr_new _ _ _ _ G). unfold table_word.
      rewrite XKPHYS_round, (gr_zero _ _ _ _ G) by exact Hb. apply zero_word.
    + destruct (node s (path_of va)) as [x|] eqn:Hx; [|done]. by rewrite (gr_word _ _ _ _ G va x Hx).
Qed.

Lemma alloc_table_ok s p f :
  pmap_ok s → page_free_queue (m_pages s) = p :: f →
  pg_refcnt (m_pages s) !! p = Some 0 ∧
  ∃ ps, alloc_table s = Done (Ok (XKPHYS_MAP CCA_CNC (page_paddr p))) (set_pages ps s) ∧
    sound ps ∧ pg_refcnt ps = <[p := 2]> (pg_refcnt (m_pages s)) ∧
    page_tree ps = page_tree (m_pages s) ∧
    memory ps = <[page_paddr p := zero_page]> (memory (m_pages s)).
Proof.
  intros H Hf. pose proof (page_alloc_direct_outcome (m_pages s)
    (Z.lor PAGE_FLAG_DEFAULT PAGE_FLAG_ZERO) (ok_pages s H)) as Ha. rewrite Hf in Ha.
  destruct (ok_pages s H) as ((_&Hfq&_)&_). split; [apply Hfq; rewrite Hf; by left|].
  destruct Ha as (ps&Ha&Hs&Hrc&Ht&Hm). exists ps. split; [|by rewrite Hm].
  unfold alloc_table, on_pages, zoom. by rewrite Ha.
Qed.

Definition takes_one (s s' : mmu) : Prop :=
  ∃ p, ∀ q, q ≠ p → pg_refcnt (m_pages s') !! q = pg_refcnt (m_pages s) !! q.

Lemma keeps_refl s : keeps s s.
Proof. split; try done. by left. Qed.

Lemma grows_takes_one s p pth s' : grows s p pth s' → takes_one s s'.
Proof. intros G. exists p. intros q Hq. by rewrite (gr_refcnt _ _ _ _ G), lookup_insert_ne. Qed.

Lemma nz_zero j : nz (zero_page !! j) = None.
Proof.
  destruct (zero_page !! j) as [w|] eqn:Hw; [|done].
  by rewrite (zero_page_lookup _ _ Hw).
Qed.

(** Words of the old tables survive in a memory that differs at a free page. *)
Lemma table_word_free s p ps m x q i :
  pmap_ok s → pg_refcnt (m_pages s) !! p = Some 0 → node s q = Some x →
  memory ps = <[page_paddr p := m]> (memory (m_pages s)) →
  memory ps !! XKPHYS_EXTRACT x = memory (m_pages s) !! XKPHYS_EXTRACT x ∧
  ∀ s', m_pages s' = ps → table_word s' x i = table_word s x i.
Proof.
  intros H Hp Hx Hm. destruct (free_not_node s p q x H Hp Hx) as [_ Hne].
  assert (memory ps !! XKPHYS_EXTRACT x = memory (m_pages s) !! XKPHYS_EXTRACT x) as Heq
    by (by rewrite Hm, lookup_insert_ne).
  split; [done|]. intros s' <-. unfold table_word. by rewrite Heq.
Qed.

Lemma link0_grows s va p ps :
  pmap_ok s → pm_level0 (m_pmap s) !! index0 va = Some 0 →
  pg_refcnt (m_pages s) !! p = Some 0 → sound ps →
  pg_refcnt ps = <[p := 2]> (pg_refcnt (m_pages s)) → page_tree ps = page_tree (m_pages s) →
  memory ps = <[page_paddr p := zero_page]> (memory (m_pages s)) →
  grows s p (L0 (index0 va)) (set_pmap (set_level0
    (<[index0 va := XKPHYS_MAP CCA_CNC (page_paddr p)]> (pm_level0 (m_pmap s))) (m_pmap s))
    (set_pages ps s)).
Proof.
  intros H Hl Hp Hs Hrc Ht Hm. pose proof (ok_pages s H) as (_&Hk&_).
  destruct (known_paddr _ p Hk) as (Hb&_); [by apply elem_of_dom|].
  pose proof (XKPHYS_round _ Hb) as Hext.
  assert (nz (Some (XKPHYS_MAP CCA_CNC (page_paddr p))) = Some (XKPHYS_MAP CCA_CNC (page_paddr p)))
    as Hnz by (apply nz_Some; split; [reflexivity|]; rewrite XKPHYS_MAP_add by exact Hb; lia).
  assert (index0 va < length (pm_level0 (m_pmap s)))%nat as Hlt by (by eapply lookup_lt_Some).
  split; try done.
  - cbn [m_pmap set_pmap set_level0 pm_level0]. rewrite length_insert. apply (ok_len s H).
  - unfold node. by rewrite Hl.
  - intros [k|k j]; unfold node; cbn [m_pmap set_pmap set_level0 pm_level0].
    + destruct (decide (k = index0 va)) as [->|Hne].
      * by rewrite list_lookup_insert_eq, decide_True by done.
      * rewrite list_lookup_insert_ne by done. rewrite decide_False by congruence. done.
    + rewrite decide_False by done. destruct (decide (k = index0 va)) as [->|Hne].
      * rewrite list_lookup_insert_eq, Hl, Hnz by done. change (nz (Some 0)) with (@None Z).
        cbn [mbind option_bind]. unfold table_word.
        cbn [m_pages set_pmap set_pages]. rewrite Hext, Hm, lookup_insert_eq. apply nz_zero.
      * rewrite list_lookup_insert_ne by done.
        destruct (nz (pm_level0 (m_pmap s) !! k)) as [x|] eqn:Hx; [|done].
        cbn [mbind option_bind]. destruct (table_word_free s p ps zero_page x (L0 k) j H Hp Hx Hm) as [_ Hw].
        by rewrite (Hw (set_pmap _ (set_pages ps s))).
  - intros q x Hx. destruct (table_word_free s p ps zero_page x q 0 H Hp Hx Hm) as [Hw _].
    cbn [m_pages set_pmap set_pages]. rewrite Hw.
    destruct (table_facts _ x Hk (ok_table s H q x Hx)) as (_&_&ws&_&_&_&_&_&Hws&?). by exists ws.
  - cbn [m_pages set_pmap set_pages]. rewrite Hm. apply lookup_insert_eq.
  - intros va' x Hx. destruct (table_word_free s p ps zero_page x _ (index_pte va') H Hp Hx Hm)
      as [_ Hw]. by apply Hw.
  - intros a Ha. cbn [m_pages set_pmap set_pages]. rewrite Hm, lookup_insert_ne; [done|].
    intros <-. apply (Ha (L0 (index0 va)) (XKPHYS_MAP CCA_CNC (page_paddr p))); [|exact Hext].
    unfold node. cbn [m_pmap set_pmap set_level0 pm_level0]. by rewrite list_lookup_insert_eq.
Qed.

Lemma fill0_ok s va :
  pmap_ok s → page_free_queue (m_pages s) ≠ [] →
  ∃ s' t, pmap_fill0 va s = Done (Ok tt) s' ∧ pmap_ok s' ∧ keeps s s' ∧
    (takes_one s s' ∧ frame 1 s s') ∧
    pm_level0 (m_pmap s') !! index0 va = Some t ∧ node s' (L0 (index0 va)) = Some t.
Proof.
  intros H Hf. destruct (level0_Some s va H) as [l0 Hl0].
  unfold pmap_fill0, bind at 1. rewrite (find0_ok s va l0 Hl0).
  destruct (Z.eqb_spec l0 0) as [->|Hne].
  2:{ exists s, l0. split; [done|]. split; [done|]. split; [apply keeps_refl|].
      split; [split; [by exists 0|apply frame_refl]|]. split; [done|].
      unfold node. rewrite Hl0. by apply nz_Some. }
  destruct (page_free_queue (m_pages s)) as [|p f] eqn:Hq; [done|].
  destruct (alloc_table_ok s p f H Hq) as (Hp&ps&Ha&Hs&Hrc&Ht&Hm).
  pose proof (link0_grows s va p ps H Hl0 Hp Hs Hrc Ht Hm) as G.
  destruct (grows_ok _ _ _ _ H G) as [H' K].
  eexists _, _. unfold bind_ok, bind. rewrite Ha. split; [done|]. fold (index0 va).
  split; [exact H'|]. split; [exact K|].
  split; [split; [by eapply grows_takes_one|by eapply grows_frame]|]. split.
  - cbn [m_pmap set_pmap set_level0 pm_level0]. apply list_lookup_insert_eq.
    by eapply lookup_lt_Some.
  - rewrite (gr_node _ _ _ _ G). by rewrite decide_True.
Qed.

(** Storing into a table. *)
Lemma store_word_ok s t i v ws :
  memory (m_pages s) !! XKPHYS_EXTRACT t = Some ws →
  store_word t i v s = Done tt (set_pages (set_memory
    (<[XKPHYS_EXTRACT t := <[Z.to_nat i := v]> ws]> (memory (m_pages s))) (m_pages s)) s).
Proof. intros Hm. unfold store_word, bind, get, deref. by rewrite Hm. Qed.

(** Two tables at different places are different pages. *)
Lemma node_extract s q q' x x' :
  pmap_ok s → node s q = Some x → node s q' = Some x' → q ≠ q' →
  XKPHYS_EXTRACT x ≠ XKPHYS_EXTRACT x'.
Proof.
  intros H Hx Hx' Hne Heq. pose proof (ok_pages s H) as (_&Hk&_).
  destruct (table_facts _ x Hk (ok_table s H q x Hx)) as (p&_&_&_&_&Ht&He&_).
  destruct (table_facts _ x' Hk (ok_table s H q' x' Hx')) as (p'&_&_&_&_&Ht'&He'&_).
  apply Hne, (ok_inj s H q q' x Hx). rewrite Hx'. congruence.
Qed.

Lemma link1_grows s va p ps t0 ws :
  pmap_ok s → node s (L0 (index0 va)) = Some t0 → node s (path_of va) = None →
  pg_refcnt (m_pages s) !! p = Some 0 → sound ps →
  pg_refcnt ps = <[p := 2]> (pg_refcnt (m_pages s)) → page_tree ps = page_tree (m_pages s) →
  memory ps = <[page_paddr p := zero_page]> (memory (m_pages s)) →
  memory (m_pages s) !! XKPHYS_EXTRACT t0 = Some ws → length ws = 1024%nat →
  grows s p (path_of va) (set_pages (set_memory
    (<[XKPHYS_EXTRACT t0 := <[index1 va := XKPHYS_MAP CCA_CNC (page_paddr p)]> ws]> (memory ps)) ps) s).
Proof.
  intros H Ht0 Hnone Hp Hs Hrc Ht Hm Hws Hlen. pose proof (ok_pages s H) as (_&Hk&_).
  destruct (known_paddr _ p Hk) as (Hb&_); [by apply elem_of_dom|].
  assert (nz (Some (XKPHYS_MAP CCA_CNC (page_paddr p))) = Some (XKPHYS_MAP CCA_CNC (page_paddr p)))
    as Hnz by (apply nz_Some; split; [reflexivity|]; rewrite XKPHYS_MAP_add by exact Hb; lia).
  destruct (free_not_node s p _ t0 H Hp Ht0) as [_ Hne0].
  set (s' := set_pages _ s).
  (* the words of the table written, and of all others *)
  assert (∀ j, table_word s' t0 j = <[index1 va := XKPHYS_MAP CCA_CNC (page_paddr p)]> ws !! j) as Hw0.
  { intros j. unfold table_word, s'. cbn [m_pages set_pages memory set_memory].
    by rewrite lookup_insert_eq. }
  assert (∀ q x, node s q = Some x → q ≠ L0 (index0 va) →
    memory (m_pages s') !! XKPHYS_EXTRACT x = memory (m_pages s) !! XKPHYS_EXTRACT x) as Hother.
  { intros q x Hx Hq. unfold s'. cbn [m_pages set_pages memory set_memory].
    rewrite lookup_insert_ne by (by apply (node_extract s _ q t0 x H Ht0 Hx)).
    by destruct (table_word_free s p ps zero_page x q 0 H Hp Hx Hm) as [-> _]. }
  split; try done.
  - apply (ok_len s H).
  - intros [k|k j].
    + by rewrite decide_False by done.
    + unfold node. change (m_pmap s') with (m_pmap s).
      destruct (decide (k = index0 va)) as [->|Hne].
      * change (nz (pm_level0 (m_pmap s) !! index0 va) = Some t0) in Ht0. rewrite Ht0.
        cbn [mbind option_bind]. rewrite Hw0. case_decide as Hj.
        -- injection Hj as ->. rewrite list_lookup_insert_eq; [done|].
           rewrite Hlen. apply index_bounds.
        -- rewrite list_lookup_insert_ne by (intros <-; by apply Hj).
           unfold table_word. by rewrite Hws.
      * rewrite decide_False by (intros [= ? _]; done).
        destruct (nz (pm_level0 (m_pmap s) !! k)) as [x|] eqn:Hx; [|done].
        cbn [mbind option_bind]. unfold table_word. rewrite (Hother (L0 k)); [done|done|congruence].
  - intros q x Hx. destruct (decide (q = L0 (index0 va))) as [->|Hq].
    + rewrite Ht0 in Hx. injection Hx as <-. exists (<[index1 va := XKPHYS_MAP CCA_CNC (page_paddr p)]> ws).
      unfold s'. cbn [m_pages set_pages memory set_memory]. rewrite lookup_insert_eq.
      by rewrite length_insert.
    + rewrite (Hother q x Hx Hq).
      destruct (table_facts _ x Hk (ok_table s H q x Hx)) as (_&_&ws'&_&_&_&_&_&?&?). by exists ws'.
  - unfold s'. cbn [m_pages set_pages memory set_memory].
    rewrite lookup_insert_ne by done. rewrite Hm. apply lookup_insert_eq.
  - intros va' x Hx. unfold table_word. by rewrite (Hother _ x Hx).
  - intros a Ha. unfold s'. cbn [m_pages set_pages memory set_memory].
    assert (node s' (L0 (index0 va)) = Some t0) as Ht0' by exact Ht0.
    rewrite lookup_insert_ne by (by apply (Ha _ _ Ht0')). rewrite Hm, lookup_insert_ne; [done|].
    intros <-. apply (Ha (path_of va) (XKPHYS_MAP CCA_CNC (page_paddr p))); [|by apply XKPHYS_round].
    unfold path_of, node. change (m_pmap s') with (m_pmap s).
    change (nz (pm_level0 (m_pmap s) !! index0 va) = Some t0) in Ht0. rewrite Ht0.
    cbn [mbind option_bind]. rewrite Hw0, list_lookup_insert_eq; [done|].
    rewrite Hlen. apply index_bounds.
Qed.

Lemma fill1_ok s va t0 :
  pmap_ok s → page_free_queue (m_pages s) ≠ [] → node s (L0 (index0 va)) = Some t0 →
  ∃ s' t, pmap_fill1 t0 va s = Done (Ok tt) s' ∧ pmap_ok s' ∧ keeps s s' ∧ frame 1 s s' ∧
    node s' (L0 (index0 va)) = Some t0 ∧ node s' (path_of va) = Some t.
Proof.
  intros H Hf Ht0. pose proof (ok_pages s H) as (_&Hk&_).
  destruct (table_facts _ t0 Hk (ok_table s H _ t0 Ht0)) as (_&_&ws&_&_&_&_&_&Hws&Hlen).
  destruct (table_word_Some s t0 (index1 va) Hk (ok_table s H _ t0 Ht0)) as [l1 Hl1];
    [apply index_bounds|].
  assert (node s (path_of va) = nz (Some l1)) as Hn.
  { unfold path_of, node. change (nz (pm_level0 (m_pmap s) !! index0 va) = Some t0) in Ht0.
    rewrite Ht0. cbn [mbind option_bind]. by rewrite Hl1. }
  unfold pmap_fill1, bind at 1. rewrite (load_word_ok s t0 _ l1 Hl1).
  destruct (Z.eqb_spec l1 0) as [->|Hne].
  2:{ exists s, l1. split; [done|]. split; [done|]. split; [apply keeps_refl|].
      split; [apply frame_refl|]. split; [done|]. rewrite Hn. by apply nz_Some. }
  destruct (page_free_queue (m_pages s)) as [|p f] eqn:Hq; [done|].
  destruct (alloc_table_ok s p f H Hq) as (Hp&ps&Ha&Hs&Hrc&Ht&Hm).
  assert (memory (m_pages (set_pages ps s)) !! XKPHYS_EXTRACT t0 = Some ws) as Hws'.
  { cbn [m_pages set_pages].
    by destruct (table_word_free s p ps zero_page t0 _ 0 H Hp Ht0 Hm) as [-> _]. }
  pose proof (link1_grows s va p ps t0 ws H Ht0 Hn Hp Hs Hrc Ht Hm Hws Hlen) as G.
  destruct (grows_ok _ _ _ _ H G) as [H' K].
  unfold bind_ok, bind. rewrite Ha, (store_word_ok _ t0 _ _ ws Hws'). unfold ret.
  eexists _, _. split; [reflexivity|]. split; [exact H'|]. split; [exact K|].
  split; [by eapply grows_frame|]. split; [etransitivity; [apply (gr_node _ _ _ _ G)|]|etransitivity; [apply (gr_node _ _ _ _ G)|]].
  - by rewrite decide_False.
  - by rewrite decide_True.
Qed.

Lemma keeps_trans s s' s'' : keeps s s' → keeps s' s'' → keeps s s''.
Proof.
  intros [[] Hp ? Hd Hu ? [] Hn] [[] Hp' ? ? Hu' ? [] Hn']. split; try congruence.
  - split; congruence.
  - intros p n Hnz Hpn. by apply Hu', Hu.
  - split; congruence.
  - intros q x [Hx|(p&Hp0&->)]%Hn'; [by apply Hn|]. right. exists p. split; [|done].
    destruct (pg_refcnt (m_pages s) !! p) as [n|] eqn:Hn0.
    + destruct (decide (n = 0)) as [->|Hne]; [done|]. rewrite (Hu p n Hne Hn0) in Hp0. congruence.
    + apply not_elem_of_dom in Hn0. rewrite <-Hd in Hn0. apply elem_of_dom_2 in Hp0. done.
Qed.

(** Two free pages are enough. *)
Lemma pmap_alloc_pte_ok s va :
  pmap_ok s → (2 ≤ length (page_free_queue (m_pages s)))%nat →
  ∃ s' t, pmap_alloc_pte va s = Done (Ok (Some (t, pmap_index_pte va))) s' ∧
    pmap_ok s' ∧ keeps s s' ∧ frame 2 s s' ∧ node s' (path_of va) = Some t.
Proof.
  intros H Hf. destruct (ok_pages s H) as ((Hnd&Hfq&_)&_).
  destruct (fill0_ok s va H) as (s1&t0&Hr0&H1&K1&[[p Ho] F1]&Hl0&Hn0); [intros Hq; rewrite Hq in Hf; simpl in Hf; lia|].
  assert (page_free_queue (m_pages s1) ≠ []) as Hf1.
  { destruct (page_free_queue (m_pages s)) as [|a [|b f]]; [simpl in Hf; lia..|].
    assert (∃ q, q ≠ p ∧ pg_refcnt (m_pages s) !! q = Some 0) as (q&Hq&Hq0).
    { apply NoDup_app in Hnd as (Hnd&_). apply NoDup_cons in Hnd as [Hab _].
      destruct (decide (a = p)) as [->|]; [|exists a; split; [done|apply Hfq; by left]].
      exists b. apply not_elem_of_cons in Hab as [Hab _].
      split; [congruence|]. apply Hfq. right. by left. }
    intros Hnil. destruct (ok_pages s1 H1) as ((_&Hfq1&_)&_).
    rewrite <-(Ho q Hq) in Hq0. apply Hfq1 in Hq0. rewrite Hnil in Hq0. by apply elem_of_nil in Hq0. }
  destruct (fill1_ok s1 va t0 H1 Hf1 Hn0) as (s2&t1&Hr1&H2&K2&F2&Hn0'&Hn1).
  exists s2, t1. split; [|split; [done|split; [by eapply keeps_trans|split; [by apply (frame_trans 1 1 s s1)|done]]]].
  assert (pm_level0 (m_pmap s2) !! index0 va = Some t0) as Hl0'.
  { unfold node in Hn0'. apply nz_Some in Hn0' as [? _]. done. }
  unfold pmap_alloc_pte, bind_ok, bind. rewrite Hr0, (find0_ok s1 va t0 Hl0), Hr1.
  unfold path_of, node in Hn1. apply nz_Some in Hn0 as [_ Ht0].
  rewrite Hl0' in Hn1. rewrite (proj2 (nz_Some _ t0) (conj eq_refl Ht0)) in Hn1.
  cbn [mbind option_bind] in Hn1. apply nz_Some in Hn1 as [Hw1 Ht1].
  unfold pmap_find1. rewrite (proj2 (Z.eqb_neq t0 0) Ht0), (load_word_ok s2 t0 _ t1 Hw1).
  unfold pmap_find_pte. by rewrite (proj2 (Z.eqb_neq t1 0) Ht1).
Qed.

(** * Writing an entry *)

Lemma same_index_path va va' :
  same_index va va' ↔ path_of va = path_of va' ∧ index_pte va = index_pte va'.
Proof.
  unfold same_index, path_of, index0, index1, index_pte.
  pose proof (pmap_index_bounds va). pose proof (pmap_index_bounds va'). split.
  - intros (->&->&->). done.
  - intros [[= He0 He1] He2]. split_and!; apply Z2Nat.inj; lia.
Qed.

(** [s'] is [s] with the entry of [va] replaced by [v]. *)
Record enters (va v : Z) (s s' : mmu) : Prop := {
  en_pmap : m_pmap s' = m_pmap s;
  en_tree : page_tree (m_pages s') = page_tree (m_pages s);
  en_refcnt : pg_refcnt (m_pages s') = pg_refcnt (m_pages s);
  en_cpu : m_cpu s' = m_cpu s ∧ m_asidnext s' = m_asidnext s;
  en_pte va' : pte_of s' va' = if decide (same_index va va') then v else pte_of s va';
  en_node q : node s' q = node s q;
  en_frame a : (∀ q x, node s q = Some x → XKPHYS_EXTRACT x ≠ a) →
    memory (m_pages s') !! a = memory (m_pages s) !! a
}.

Lemma store_pte_ok s va t v :
  pmap_ok s → node s (path_of va) = Some t →
  ∃ s', store_word t (pmap_index_pte va) v s = Done tt s' ∧ pmap_ok s' ∧ enters va v s s' ∧
    m_shootdown s' = m_shootdown s.
Proof.
  intros H Ht. pose proof (ok_pages s H) as (Hq&Hk&Hl).
  destruct (table_facts _ t Hk (ok_table s H _ t Ht)) as (_&_&ws&_&_&_&_&_&Hws&Hlen).
  rewrite (store_word_ok s t _ v ws Hws). eexists. split; [reflexivity|].
  set (s' := set_pages _ s). fold (index_pte va) in s'.
  assert (∀ q x, node s q = Some x → q ≠ path_of va →
    memory (m_pages s') !! XKPHYS_EXTRACT x = memory (m_pages s) !! XKPHYS_EXTRACT x) as Hother.
  { intros q x Hx Hne. unfold s'. cbn [m_pages set_pages memory set_memory].
    rewrite lookup_insert_ne; [done|]. apply (node_extract s _ q t x H Ht Hx). congruence. }
  assert (∀ j, table_word s' t j = <[index_pte va := v]> ws !! j) as Hw.
  { intros j. unfold table_word, s'. cbn [m_pages set_pages memory set_memory].
    by rewrite lookup_insert_eq. }
  assert (∀ q, node s' q = node s q) as Hnode.
  { intros [k|k j]; [done|]. unfold node. change (m_pmap s') with (m_pmap s).
    destruct (nz (pm_level0 (m_pmap s) !! k)) as [x|] eqn:Hx; [|done].
    cbn [mbind option_bind]. unfold table_word. by rewrite (Hother (L0 k)). }
  split; [|split; [split; [done..|by split| |exact Hnode|]|done]].
  - split.
    + apply (ok_len s H).
    + split; [exact Hq|]. by split.
    + apply (ok_frames s H).
    + intros q x. rewrite Hnode. intros Hx.
      destruct (ok_table s H q x Hx) as (p&n&ws'&Hp&Hn&->&Hm&Hl').
      destruct (decide (q = path_of va)) as [->|Hne].
      * exists p, n, (<[index_pte va := v]> ws). split; [done|]. split; [done|]. split; [done|].
        rewrite length_insert. split; [|done]. unfold s'. cbn [m_pages set_pages memory set_memory].
        rewrite Ht in Hx. injection Hx as ->. destruct (known_paddr _ p Hk) as (Hb&_);
          [by apply elem_of_dom|]. rewrite XKPHYS_round by exact Hb. apply lookup_insert_eq.
      * exists p, n, ws'. split; [done|]. split; [done|]. split; [done|]. split; [|done].
        specialize (Hother q _ Hx Hne). destruct (known_paddr _ p Hk) as (Hb&_);
          [by apply elem_of_dom|]. rewrite XKPHYS_round in Hother by exact Hb. by rewrite Hother.
    + intros q q' x. rewrite !Hnode. apply (ok_inj s H).
  - intros va'. unfold pte_of. rewrite Hnode. destruct (decide (path_of va' = path_of va)) as [Hp|Hp].
    + rewrite Hp, Ht, Hw. destruct (decide (index_pte va' = index_pte va)) as [Hi|Hi].
      * rewrite decide_True by (by apply same_index_path). rewrite Hi, list_lookup_insert_eq; [done|].
        rewrite Hlen. apply index_bounds.
      * rewrite decide_False by (intros [_ Heq]%same_index_path; by apply Hi).
        rewrite list_lookup_insert_ne by (intros Heq; by apply Hi). unfold table_word. by rewrite Hws.
    + rewrite decide_False by (intros [Heq _]%same_index_path; by apply Hp).
      destruct (node s (path_of va')) as [x|] eqn:Hx; [|done].
      unfold table_word. by rewrite (Hother _ x Hx Hp).
  - intros a Ha. unfold s'. cbn [m_pages set_pages memory set_memory].
    by rewrite lookup_insert_ne by (by apply (Ha _ _ Ht)).
Qed.

Lemma invalidate_ok s va : pmap_ok s → ∃ s', tlb_invalidate va s = Done tt s' ∧ pmap_ok s' ∧
  m_pages s' = m_pages s ∧ m_pmap s' = m_pmap s ∧ m_cpu s' = m_cpu s ∧
  m_asidnext s' = m_asidnext s ∧ m_shootdown s' = va :: m_shootdown s.
Proof. intros H. eexists. split; [reflexivity|]. split; [by destruct H|done]. Qed.

(** The address ranges a pmap is made for: at most a terabyte, aligned. *)
Record range_wf (s : mmu) : Prop := {
  wf_base : 0 ≤ pm_base (m_pmap s);
  wf_align : pm_base (m_pmap s) mod 8192 = 0;
  wf_span : pm_end (m_pmap s) ≤ pm_base (m_pmap s) + 2 ^ 40;
  wf_end : pm_end (m_pmap s) ≤ 2 ^ 64;
  wf_direct : pm_end (m_pmap s) ≤ XKPHYS_BASE ∨ XKPHYS_END < pm_base (m_pmap s)
}.

Lemma page_floor_facts s va :
  range_wf s → in_range s va →
  in_range s (PAGE_FLOOR va) ∧ PAGE_FLOOR va / 8192 = va / 8192 ∧ same_index (PAGE_FLOOR va) va.
Proof.
  intros [Hb Ha Hs He _] [H1 H2].
  assert (PAGE_FLOOR va = va - va mod 8192) as Hf by (apply PAGE_FLOOR_sub; lia).
  assert (in_range s (PAGE_FLOOR va) ∧ PAGE_FLOOR va / 8192 = va / 8192) as [Hr Hp].
  { unfold in_range. rewrite Hf. Z.to_euclidean_division_equations. lia. }
  split; [done|]. split; [done|].
  apply (same_index_page (pm_base (m_pmap s))); [unfold in_range in Hr; lia|lia|done|done].
Qed.

(** Two addresses of a pmap share an entry exactly when they share a page. *)
Lemma in_range_same s va va' :
  range_wf s → in_range s va → in_range s va' → same_index va va' ↔ va / 8192 = va' / 8192.
Proof.
  intros [Hb Ha Hs He _] [? ?] [? ?].
  apply (same_index_page (pm_base (m_pmap s))); [lia|lia|done].
Qed.

Lemma pte_of_same s va va' : same_index va va' → pte_of s va = pte_of s va'.
Proof. intros [Hp Hi]%same_index_path. unfold pte_of. by rewrite Hp, Hi. Qed.

Lemma translate_same s va va' : same_index va va' → translate s va = translate s va'.
Proof. intros Hs. unfold translate. by rewrite (pte_of_same s va va' Hs). Qed.

Lemma enters_shootdown va v s s1 s' :
  m_pages s1 = m_pages s → m_pmap s1 = m_pmap s → m_cpu s1 = m_cpu s →
  m_asidnext s1 = m_asidnext s → enters va v s1 s' → enters va v s s'.
Proof.
  intros Hp Hm Hc Ha [E1 E2 E3 [E4 E5] E6 E7 E8].
  assert (∀ q, node s1 q = node s q) as Hn by (intros [|]; unfold node, table_word; by rewrite ?Hp, Hm).
  assert (∀ va', pte_of s1 va' = pte_of s va') as Hpte
    by (intros va'; unfold pte_of, table_word; by rewrite Hn, Hp).
  split; [congruence|congruence|congruence|split; congruence| | |].
  - intros va'. by rewrite E6, Hpte.
  - intros q. by rewrite E7.
  - intros a Hna. rewrite E8, Hp; [done|]. intros q x. rewrite Hn. apply Hna.
Qed.

Lemma pmap_update_ok s va p t flags :
  pmap_ok s → range_wf s → in_range s va → p ∈ dom (pg_refcnt (m_pages s)) →
  node s (path_of va) = Some t → translate s va ≠ Some (page_paddr p) →
  ∃ s', pmap_update va p flags s = Done tt s' ∧ pmap_ok s' ∧
    enters va (Z.lor (TLBLO_PA_TO_PFN (page_paddr p)) flags) s s' ∧
    m_shootdown s' =
      if translate s va then PAGE_FLOOR va :: m_shootdown s else m_shootdown s.
Proof.
  intros H Hw Hr Hp Ht Hne. pose proof (ok_pages s H) as (_&Hk&_).
  destruct (known_paddr _ p Hk Hp) as (_&_&Hpa).
  destruct (page_floor_facts s va Hw Hr) as (Hrv&_&Hsame).
  unfold pmap_update, on_pages, zoom, bind at 1. rewrite Hpa.
  replace (set_pages (m_pages s) s) with s by (by destruct s).
  unfold bind at 1. rewrite pmap_find_ok, decide_True by done.
  apply same_index_path in Hsame as Hsp. destruct Hsp as [Hpath _].
  assert (pmap_index_pte (PAGE_FLOOR va) = pmap_index_pte va) as Hidx by apply Hsame.
  assert (slot s va = Some (t, pmap_index_pte va)) as Hs by (unfold slot; by rewrite Ht).
  destruct (slot_word s va t _ H Hs) as (_&_&Hword).
  unfold slot. rewrite Hpath, Ht, Hidx. cbn [fmap option_fmap option_map]. unfold bind at 1.
  rewrite (load_word_ok s t _ _ Hword). unfold translate in *.
  destruct (pte_test (pte_of s va) PG_V).
  - destruct (Z.eqb_spec (TLBLO_PTE_TO_PA (pte_of s va)) (page_paddr p)); [congruence|].
    destruct (invalidate_ok s (PAGE_FLOOR va) H) as (s1&Hi&H1&E1&E2&E3&E4&E5).
    unfold bind. rewrite Hi.
    assert (node s1 (path_of va) = Some t) as Ht1.
    { rewrite <-Ht. unfold node, path_of, table_word. by rewrite E1, E2. }
    destruct (store_pte_ok s1 va t (Z.lor (TLBLO_PA_TO_PFN (page_paddr p)) flags) H1 Ht1)
      as (s2&Hst&H2&E&Hsh). exists s2. split; [done|]. split; [done|]. split; [|congruence].
    by apply (enters_shootdown va _ s s1).
  - destruct (store_pte_ok s va t (Z.lor (TLBLO_PA_TO_PFN (page_paddr p)) flags) H Ht)
      as (s2&Hst&H2&E&Hsh). exists s2. unfold bind. by split.
Qed.

(** * What an operation on one pmap leaves alone *)

Definition not_table (s : mmu) (p : Z) : Prop :=
  ∀ q x, node s q = Some x → x ≠ XKPHYS_MAP CCA_CNC (page_paddr p).

(** Only the pages of [l] changed their counts; memory changed only in tables
    and in those pages; the tables stayed, and new ones are pages of [l] that
    were free. *)
Record touches (l : list Z) (s s' : mmu) : Prop := {
  to_tree : page_tree (m_pages s') = page_tree (m_pages s);
  to_dom : dom (pg_refcnt (m_pages s')) = dom (pg_refcnt (m_pages s));
  to_range : pm_base (m_pmap s') = pm_base (m_pmap s) ∧ pm_end (m_pmap s') = pm_end (m_pmap s);
  to_cpu : m_cpu s' = m_cpu s ∧ m_asidnext s' = m_asidnext s;
  to_refcnt q : q ∉ l → pg_refcnt (m_pages s') !! q = pg_refcnt (m_pages s) !! q;
  to_memory q : q ∈ dom (pg_refcnt (m_pages s)) → q ∉ l → not_table s q →
    memory (m_pages s') !! page_paddr q = memory (m_pages s) !! page_paddr q;
  to_node q x : node s q = Some x → node s' q = Some x;
  to_new q x : node s' q = Some x → node s q = Some x ∨
    ∃ p, p ∈ l ∧ pg_refcnt (m_pages s) !! p = Some 0 ∧ x = XKPHYS_MAP CCA_CNC (page_paddr p)
}.

Lemma touches_weaken l l' s s' : l ⊆ l' → touches l s s' → touches l' s s'.
Proof.
  intros Hl [H1 H2 H3 H4 H5 H6 H7 H8]. split; try done.
  - intros q Hq. apply H5. by intros ?%Hl.
  - intros q Hd Hq. apply H6; [done|]. by intros ?%Hl.
  - intros q x Hx. destruct (H8 q x Hx) as [?|(p&Hp&?)]; [by left|right]. exists p. by split; [apply Hl|].
Qed.

(** A page is told apart from a table by its direct-mapped address. *)
Lemma MAP_paddr_inj s p q :
  pmap_ok s → p ∈ dom (pg_refcnt (m_pages s)) → q ∈ dom (pg_refcnt (m_pages s)) →
  XKPHYS_MAP CCA_CNC (page_paddr p) = XKPHYS_MAP CCA_CNC (page_paddr q) → p = q.
Proof.
  intros H Hp Hq Heq. pose proof (ok_pages s H) as (_&Hk&_).
  destruct (known_paddr _ p Hk Hp) as (Hbp&_), (known_paddr _ q Hk Hq) as (Hbq&_).
  apply (ok_frames s H); [done..|]. rewrite <-(XKPHYS_round _ Hbp), <-(XKPHYS_round _ Hbq).
  by rewrite Heq.
Qed.

Lemma touches_not_table l s s' q :
  pmap_ok s → touches l s s' → q ∈ dom (pg_refcnt (m_pages s)) → q ∉ l →
  not_table s q → not_table s' q.
Proof.
  intros H T Hd Hq Hn k x Hx. destruct (to_new _ _ _ T k x Hx) as [Ho|(p&Hp&Hr&->)]; [by apply (Hn k)|].
  intros Heq. apply Hq. by rewrite <-(MAP_paddr_inj s p q H (elem_of_dom_2 _ _ _ Hr) Hd Heq).
Qed.

Lemma touches_trans l l' s s' s'' :
  pmap_ok s → touches l s s' → touches l' s' s'' →
  (∀ p, p ∈ l → pg_refcnt (m_pages s') !! p = Some 0 →
     pg_refcnt (m_pages s) !! p = Some 0 ∨ ∀ q, node s'' q = node s' q) →
  touches (l ++ l') s s''.
Proof.
  intros H T T' Hf. pose proof T as [H1 H2 H3 H4 H5 H6 H7 H8]. destruct T' as [G1 G2 G3 G4 G5 G6 G7 G8].
  split; try congruence.
  - destruct H3, G3. split; congruence.
  - destruct H4, G4. split; congruence.
  - intros q [??]%not_elem_of_app. by rewrite G5, H5.
  - intros q Hd [??]%not_elem_of_app Hn. rewrite G6, H6; [done..|by rewrite H2|done|].
    by apply (touches_not_table l s s').
  - intros q x Hx. by apply G7, H7.
  - intros q x Hx. destruct (G8 q x Hx) as [Hx'|(p&Hp&Hr&->)].
    + destruct (H8 q x Hx') as [?|(p&?&?)]; [by left|right]. exists p. rewrite elem_of_app. tauto.
    + destruct (decide (p ∈ l)) as [Hpl|Hpl].
      * destruct (Hf p Hpl Hr) as [Hr0|Hsame].
        { right. exists p. rewrite elem_of_app. tauto. }
        rewrite Hsame in Hx. destruct (H8 q _ Hx) as [?|(p'&?&?)]; [by left|right].
        exists p'. rewrite elem_of_app. tauto.
      * right. exists p. rewrite elem_of_app. split; [by right|]. by rewrite <-H5.
Qed.

Lemma enters_touches va v s s' : pmap_ok s → enters va v s s' → touches [] s s'.
Proof.
  intros H E. split; try apply E; try (by rewrite (en_pmap _ _ _ _ E)); try by rewrite (en_refcnt _ _ _ _ E).
  - intros q Hd _ Hn. apply (en_frame _ _ _ _ E). intros k x Hx Heq.
    pose proof (ok_pages s H) as (_&Hk&_).
    destruct (table_facts _ x Hk (ok_table s H k x Hx)) as (p&n&ws&Hp&_&->&He&_).
    destruct (known_paddr _ q Hk Hd) as (Hbq&_). apply (Hn k _ Hx). congruence.
  - intros q x. by rewrite (en_node _ _ _ _ E).
  - intros q x. rewrite (en_node _ _ _ _ E). by left.
Qed.

(** Adding tables touches only the free pages taken for them. *)
Lemma keeps_touches n s s' :
  pmap_ok s → pmap_ok s' → keeps s s' → frame n s s' →
  ∃ l, (length l ≤ n)%nat ∧ (∀ p, p ∈ l → pg_refcnt (m_pages s) !! p = Some 0) ∧ touches l s s'.
Proof.
  intros H H' K [Hm Hn (l0&Hl0&Hr)].
  set (l := filter (λ p, pg_refcnt (m_pages s') !! p ≠ pg_refcnt (m_pages s) !! p) l0).
  assert (∀ q, q ∉ l → pg_refcnt (m_pages s') !! q = pg_refcnt (m_pages s) !! q) as Hsame.
  { intros q Hq. destruct (decide (pg_refcnt (m_pages s') !! q = pg_refcnt (m_pages s) !! q))
      as [|Hne]; [done|]. destruct (decide (q ∈ l0)) as [Hin|Hout]; [|by apply Hr].
    destruct Hq. by apply list_elem_of_filter. }
  assert (∀ p, p ∈ l → pg_refcnt (m_pages s) !! p = Some 0) as Hfree.
  { intros p [Hne _]%list_elem_of_filter. destruct (pg_refcnt (m_pages s) !! p) as [m|] eqn:Hp.
    - destruct (decide (m = 0)) as [->|Hm0]; [done|]. destruct Hne. by apply (keep_used _ _ K).
    - destruct Hne. apply not_elem_of_dom. rewrite (keep_dom _ _ K). by apply not_elem_of_dom. }
  exists l. split; [etransitivity; [apply length_filter|done]|]. split; [done|].
  pose proof (ok_pages s H) as (_&Hk&_). pose proof (ok_pages s' H') as (_&Hk'&_).
  assert (∀ q x, node s' q = Some x → node s q = Some x ∨
    ∃ p, p ∈ l ∧ pg_refcnt (m_pages s) !! p = Some 0 ∧ x = XKPHYS_MAP CCA_CNC (page_paddr p)) as Hnew.
  { intros q x Hx. destruct (keep_node _ _ K q x Hx) as [?|(p&Hp&->)]; [by left|right].
    exists p. split; [|done]. destruct (decide (p ∈ l)) as [|Hpl]; [done|exfalso].
    destruct (table_facts _ _ Hk' (ok_table s' H' q _ Hx)) as (p'&m&ws&Hp'&Hm0&Heq&_).
    assert (p = p') as <-.
    { apply (MAP_paddr_inj s' p p' H'); [|by apply elem_of_dom_2 in Hp'|done].
      rewrite (keep_dom _ _ K). by apply elem_of_dom_2 in Hp. }
    rewrite (Hsame p Hpl) in Hp'. congruence. }
  split; try apply K; try done.
  intros q Hd Hq Hnt. apply Hm. intros k x Hx Heq.
  assert (∃ p, p ∈ dom (pg_refcnt (m_pages s)) ∧ x = XKPHYS_MAP CCA_CNC (page_paddr p) ∧ p ≠ q)
    as (p&Hp&->&Hne).
  { destruct (Hnew k x Hx) as [Ho|(p&Hp&Hp0&->)].
    - destruct (table_facts _ x Hk (ok_table s H k x Ho)) as (p&m&ws&Hp&_&->&_).
      exists p. split; [by apply elem_of_dom_2 in Hp|]. split; [done|]. intros ->. by apply (Hnt k _ Ho).
    - exists p. split; [by apply elem_of_dom_2 in Hp0|]. split; [done|]. by intros ->. }
  destruct (known_paddr _ p Hk Hp) as (Hbp&_). rewrite XKPHYS_round in Heq by done.
  by apply Hne, (ok_frames s H).
Qed.

Lemma pmap_map_outcome s kernel va p :
  pmap_ok s → range_wf s → in_range s va → p ∈ dom (pg_refcnt (m_pages s)) →
  page_paddr p < 2 ^ 36 → translate s va ≠ Some (page_paddr p) →
  (2 ≤ length (page_free_queue (m_pages s)))%nat →
  ∃ s', pmap_map kernel va p s = Done (Ok tt) s' ∧ pmap_ok s' ∧ range_wf s' ∧
    page_tree (m_pages s') = page_tree (m_pages s) ∧
    dom (pg_refcnt (m_pages s')) = dom (pg_refcnt (m_pages s)) ∧
    (∀ q n, n ≠ 0 → pg_refcnt (m_pages s) !! q = Some n → pg_refcnt (m_pages s') !! q = Some n) ∧
    (∀ va', in_range s' va' ↔ in_range s va') ∧
    (∀ q x, node s' q = Some x → node s q = Some x ∨
      ∃ p, pg_refcnt (m_pages s) !! p = Some 0 ∧ x = XKPHYS_MAP CCA_CNC (page_paddr p)) ∧
    (∀ va', in_range s va' →
      translate s' va' = if decide (va' / 8192 = va / 8192) then Some (page_paddr p)
                         else translate s va') ∧
    m_shootdown s' =
      (if translate s va then PAGE_FLOOR va :: m_shootdown s else m_shootdown s) ∧
    ∃ l, (length l ≤ 2)%nat ∧ (∀ p, p ∈ l → pg_refcnt (m_pages s) !! p = Some 0) ∧
      touches l s s'.
Proof.
  intros H Hw Hr Hp Hpa Hne Hf. pose proof (ok_pages s H) as (_&Hk&_).
  destruct (known_paddr _ p Hk Hp) as (Hb&Hal&_).
  destruct (pmap_alloc_pte_ok s va H Hf) as (s1&t&Hal1&H1&K&F&Ht).
  destruct (keep_range _ _ K) as [Eb Ee].
  assert (range_wf s1) as Hw1 by (destruct Hw; split; congruence).
  assert (in_range s1 va) as Hr1 by (unfold in_range; by rewrite Eb, Ee).
  assert (∀ va', translate s1 va' = translate s va') as Htr.
  { intros va'. unfold translate. by rewrite (keep_pte _ _ K). }
  destruct (pmap_update_ok s1 va p t (map_flags kernel) H1 Hw1 Hr1) as (s2&Hup&H2&E&Hsh).
  { by rewrite (keep_dom _ _ K). } { done. } { by rewrite Htr. }
  pose proof (en_pmap _ _ _ _ E) as Em. pose proof (en_refcnt _ _ _ _ E) as Er.
  exists s2. split.
  { unfold pmap_map, bind at 1, get. destruct Hr as [Hlo Hhi].
    rewrite (proj2 (Z.leb_gt _ _) Hhi), (proj2 (Z.ltb_ge _ _) Hlo). cbn [orb].
    unfold bind. rewrite Hal1. fold (map_flags kernel). by rewrite Hup. }
  split; [done|]. split; [destruct Hw1; split; by rewrite Em|].
  split; [rewrite (en_tree _ _ _ _ E); apply (keep_tree _ _ K)|].
  split; [rewrite Er; apply (keep_dom _ _ K)|].
  split; [intros q n Hn Hq; rewrite Er; by apply (keep_used _ _ K)|].
  assert (∀ va', in_range s2 va' ↔ in_range s va') as Hrr
    by (intros va'; unfold in_range; by rewrite Em, Eb, Ee).
  split; [done|].
  split; [intros q x; rewrite (en_node _ _ _ _ E); apply (keep_node _ _ K)|]. split.
  - intros va' Hr'. pose proof (in_range_same s va va' Hw Hr Hr') as Hsame.
    unfold translate. rewrite (en_pte _ _ _ _ E).
    destruct (decide (same_index va va')) as [Hs|Hs].
    + rewrite decide_True by (symmetry; by apply Hsame).
      assert (0 ≤ page_paddr p < 2 ^ 36) as Hb' by lia.
      rewrite (pte_valid _ kernel Hb'), pte_to_pa; [done|done| |apply map_flags_bounds].
      Z.to_euclidean_division_equations. lia.
    + rewrite decide_False by (intros Heq; by apply Hs, Hsame).
      rewrite (keep_pte _ _ K). done.
  - split; [by rewrite Hsh, Htr, (keep_shootdown _ _ K)|].
    destruct (keeps_touches 2 s s1 H H1 K F) as (l&Hl&Hfree&T). exists l. split; [done|].
    split; [done|]. rewrite <-(app_nil_r l). apply (touches_trans l [] s s1); [done..| |].
    { by apply (enters_touches va _ _ _ H1 E). }
    intros p' Hp' _. left. by apply Hfree.
Qed.

(** What [pmap_extract] gives on the range of a pmap. *)
Definition extracted (s : mmu) (va : Z) : result Z :=
  match translate s va with Some pa => Ok pa | None => Err ERROR_NOT_FOUND end.

Lemma pmap_extract_range s kernel va :
  pmap_ok s → range_wf s → in_range s va → pmap_extract kernel va s = Done (extracted s va) s.
Proof.
  intros H Hw Hr. destruct (page_floor_facts s va Hw Hr) as (Hrv&_&Hsame).
  pose proof Hw as [Hb _ _ He Hd]. pose proof Hr as [??]. pose proof Hrv as [??].
  rewrite pmap_extract_ok; [|done|lia|].
  - rewrite decide_True by done. unfold extracted. by rewrite (translate_same s _ _ Hsame).
  - unfold pmap_is_direct. apply andb_false_iff.
    destruct Hd; [left; apply Z.leb_gt; lia|right; apply Z.leb_gt; lia].
Qed.

Lemma extracted_cases s s' va va' pa :
  (∀ va', in_range s va' →
    translate s' va' = if decide (va' / 8192 = va / 8192) then pa else translate s va') →
  in_range s va' →
  extracted s' va' = if decide (va' / 8192 = va / 8192)
    then match pa with Some pa => Ok pa | None => Err ERROR_NOT_FOUND end else extracted s va'.
Proof. intros Ht Hr. unfold extracted. rewrite (Ht va' Hr). by case_decide. Qed.

(** C8: with two free pages to spare, [pmap_map] enters a page, whose physical
    address is below 2^36, at any address of the range where it is not entered
    yet: afterwards
    [pmap_extract] gives the page's physical address at every address of that
    virtual page and what it gave before everywhere else; the tables stay
    distinct pages in use, no page that was in use loses or gains a
    reference, and a translation that was replaced is shot down. *)
Theorem pmap_map_correct s kernel va p :
  pmap_ok s → range_wf s → in_range s va → p ∈ dom (pg_refcnt (m_pages s)) →
  page_paddr p < 2 ^ 36 → pmap_extract kernel va s ≠ Done (Ok (page_paddr p)) s →
  (2 ≤ length (page_free_queue (m_pages s)))%nat →
  ∃ s', pmap_map kernel va p s = Done (Ok tt) s' ∧ pmap_ok s' ∧ range_wf s' ∧
    (∀ q n, n ≠ 0 → pg_refcnt (m_pages s) !! q = Some n → pg_refcnt (m_pages s') !! q = Some n) ∧
    (∀ va', in_range s va' → ∃ r, pmap_extract kernel va' s = Done r s ∧
      pmap_extract kernel va' s' =
        Done (if decide (va' / 8192 = va / 8192) then Ok (page_paddr p) else r) s') ∧
    m_shootdown s' =
      if extracted s va then PAGE_FLOOR va :: m_shootdown s else m_shootdown s.
Proof.
  intros H Hw Hr Hp Hpa Hne Hf.
  assert (translate s va ≠ Some (page_paddr p)) as Hne'.
  { intros Heq. apply Hne. rewrite pmap_extract_range by done. unfold extracted. by rewrite Heq. }
  destruct (pmap_map_outcome s kernel va p H Hw Hr Hp Hpa Hne' Hf)
    as (s'&Hm&H'&Hw'&_&_&Hu&Hrr&_&Htr&Hsh&_).
  exists s'. split; [done|]. split; [done|]. split; [done|]. split; [done|]. split.
  - intros va' Hr'. exists (extracted s va'). rewrite !pmap_extract_range by (done || by apply Hrr).
    split; [done|]. by rewrite (extracted_cases s s' va va' (Some (page_paddr p)) Htr Hr').
  - rewrite Hsh. unfold extracted. by destruct (translate s va).
Qed.

Lemma pmap_unmap_outcome s va :
  pmap_ok s → range_wf s → in_range s va →
  ∃ r s', pmap_unmap va s = Done r s' ∧ pmap_ok s' ∧ range_wf s' ∧
    page_tree (m_pages s') = page_tree (m_pages s) ∧
    pg_refcnt (m_pages s') = pg_refcnt (m_pages s) ∧
    (∀ va', in_range s' va' ↔ in_range s va') ∧ (∀ q, node s' q = node s q) ∧
    (∀ va', in_range s va' →
      translate s' va' = if decide (va' / 8192 = va / 8192) then None else translate s va') ∧
    match translate s va with
    | Some _ => r = Ok tt ∧ m_shootdown s' = va :: m_shootdown s ∧ touches [] s s'
    | None => s' = s ∧ (r = Ok tt ∨ r = Err ERROR_NOT_FOUND)
    end.
Proof.
  intros H Hw Hr.
  assert (∀ va', in_range s va' → translate s va = None →
    translate s va' = if decide (va' / 8192 = va / 8192) then None else translate s va') as Hsame.
  { intros va' Hr' Hn. case_decide as Heq; [|done]. rewrite <-Hn. apply translate_same.
    by apply (in_range_same s). }
  unfold pmap_unmap, bind at 1. rewrite pmap_find_ok, decide_True by done.
  destruct (slot s va) as [[t i]|] eqn:Hs.
  2:{ assert (translate s va = None) as Hn by (unfold translate; by rewrite (slot_None s va Hs)).
      eexists _, s. split; [reflexivity|]. rewrite Hn. split; [done|]. split; [done|].
      split; [done|]. split; [done|]. split; [done|]. split; [done|]. split; [by auto|]. by auto. }
  destruct (slot_word s va t i H Hs) as (->&Ht&Hword).
  unfold bind at 1. rewrite (load_word_ok s t _ _ Hword). unfold translate at 2 3.
  destruct (pte_test (pte_of s va) PG_V) eqn:Hv; cbn [negb].
  2:{ assert (translate s va = None) as Hn by (unfold translate; by rewrite Hv).
      eexists _, s. split; [reflexivity|]. split; [done|]. split; [done|].
      split; [done|]. split; [done|]. split; [done|]. split; [done|]. split; [|by auto].
      intros va' Hr'. by apply Hsame. }
  destruct (invalidate_ok s va H) as (s1&Hi&H1&E1&E2&E3&E4&E5).
  assert (node s1 (path_of va) = Some t) as Ht1.
  { rewrite <-Ht. unfold node, path_of, table_word. by rewrite E1, E2. }
  destruct (store_pte_ok s1 va t 0 H1 Ht1) as (s2&Hst&H2&E&Hsh).
  apply (enters_shootdown va _ s s1 s2 E1 E2 E3 E4) in E.
  pose proof (en_pmap _ _ _ _ E) as Em.
  eexists _, s2. unfold bind. rewrite Hi, Hst. split; [reflexivity|]. split; [done|].
  split; [destruct Hw; split; by rewrite Em|]. split; [apply E|]. split; [apply E|].
  split; [intros va'; unfold in_range; by rewrite Em|].
  split; [apply E|]. split; [|split; [done|split; [congruence|by apply (enters_touches va 0)]]].
  intros va' Hr'. pose proof (in_range_same s va va' Hw Hr Hr') as Heq.
  unfold translate. rewrite (en_pte _ _ _ _ E). destruct (decide (same_index va va')) as [Hd|Hd].
  - by rewrite decide_True by (symmetry; by apply Heq).
  - rewrite decide_False by (intros Hx; by apply Hd, Heq). done.
Qed.

(** after [pmap_unmap] of an address of the range, no address of that
    virtual page translates and all others translate as before; the tables
    stay sound and no reference count changes.  It fails, changing nothing,
    only if the page did not translate, and shoots down a page that did. *)
Theorem pmap_unmap_correct s kernel va :
  pmap_ok s → range_wf s → in_range s va →
  ∃ r s', pmap_unmap va s = Done r s' ∧ pmap_ok s' ∧ range_wf s' ∧
    pg_refcnt (m_pages s') = pg_refcnt (m_pages s) ∧
    (∀ va', in_range s va' → ∃ r, pmap_extract kernel va' s = Done r s ∧
      pmap_extract kernel va' s' =
        Done (if decide (va' / 8192 = va / 8192) then Err ERROR_NOT_FOUND else r) s') ∧
    match extracted s va with
    | Ok _ => r = Ok tt ∧ m_shootdown s' = va :: m_shootdown s
    | Err _ => s' = s ∧ (r = Ok tt ∨ r = Err ERROR_NOT_FOUND)
    end.
Proof.
  intros H Hw Hr. destruct (pmap_unmap_outcome s va H Hw Hr) as (r&s'&Hu&H'&Hw'&_&Hrc&Hrr&_&Htr&Hres).
  exists r, s'. split; [done|]. split; [done|]. split; [done|]. split; [done|]. split.
  - intros va' Hr'. exists (extracted s va'). rewrite !pmap_extract_range by (done || by apply Hrr).
    split; [done|]. by rewrite (extracted_cases s s' va va' None Htr Hr').
  - unfold extracted. destruct (translate s va); [|done]. by destruct Hres as (?&?&_).
Qed.

(** * Pages through the pmap *)

(** Changes to the pages that leave the tables alone. *)
Lemma pages_change_ok s ps :
  pmap_ok s → sound ps → dom (pg_refcnt ps) = dom (pg_refcnt (m_pages s)) →
  (∀ p n, n ≠ 0 → pg_refcnt (m_pages s) !! p = Some n →
     not_table s p ∨ ∃ n', n' ≠ 0 ∧ pg_refcnt ps !! p = Some n') →
  (∀ q x, node s q = Some x →
     memory ps !! XKPHYS_EXTRACT x = memory (m_pages s) !! XKPHYS_EXTRACT x) →
  pmap_ok (set_pages ps s) ∧ (∀ q, node (set_pages ps s) q = node s q) ∧
  (∀ va, translate (set_pages ps s) va = translate s va).
Proof.
  intros H Hs Hd Hu Hm.
  assert (∀ q x i, node s q = Some x → table_word (set_pages ps s) x i = table_word s x i) as Hw.
  { intros q x i Hx. unfold table_word. cbn [m_pages set_pages]. by rewrite (Hm q x Hx). }
  assert (∀ q, node (set_pages ps s) q = node s q) as Hn.
  { intros [i|i j]; [done|]. unfold node. cbn [m_pmap set_pages].
    destruct (nz (pm_level0 (m_pmap s) !! i)) as [x|] eqn:Hx; [|done]. cbn [mbind option_bind].
    by rewrite (Hw (L0 i) x j). }
  split; [|split; [done|]].
  - split; [apply (ok_len s H)|done| | |].
    + intros p q. cbn [m_pages set_pages]. rewrite Hd. apply (ok_frames s H).
    + intros q x. rewrite Hn. intros Hx.
      destruct (ok_pages s H) as (_&Hk&_).
      destruct (table_facts _ x Hk (ok_table s H q x Hx)) as (p&n&ws&Hp&Hn0&->&He&_&Hws&Hl).
      destruct (Hu p n Hn0 Hp) as [Hnt|(n'&Hn'&Hp')]; [by destruct (Hnt q _ Hx)|].
      exists p, n', ws. split_and!; try done. cbn [m_pages set_pages].
      by rewrite <-He, (Hm q _ Hx).
    + intros q q' x. rewrite !Hn. apply (ok_inj s H).
  - intros va. unfold translate, pte_of. rewrite Hn.
    destruct (node s (path_of va)) as [x|] eqn:Hx; [|done]. by rewrite (Hw _ x _ Hx).
Qed.

Lemma pages_change_range s ps : range_wf s → range_wf (set_pages ps s).
Proof. intros []. by split. Qed.

(** Holding or dropping a reference of a page that is no table, or of a page
    that keeps one. *)
Lemma recount_ok s ps p n :
  pmap_ok s → is_Some (pg_refcnt (m_pages s) !! p) → recounts p n (m_pages s) ps →
  (n ≠ 0 ∨ not_table s p) →
  pmap_ok (set_pages ps s) ∧ (∀ q, node (set_pages ps s) q = node s q) ∧
  (∀ va, translate (set_pages ps s) va = translate s va).
Proof.
  intros H Hp Hr Hn. pose proof Hr as (Hrc&(_&_&Hm)&_). apply pages_change_ok; [done| | | |].
  - eapply recounts_sound; [exact Hp|apply (ok_pages s H)|done].
  - rewrite Hrc, dom_insert_L. apply elem_of_dom in Hp. set_solver.
  - intros q m Hm0 Hq. destruct (decide (q = p)) as [->|Hne].
    + destruct Hn; [right|by left]. exists n. split; [done|]. by rewrite Hrc, lookup_insert_eq.
    + right. exists m. by rewrite Hrc, lookup_insert_ne.
  - intros q x _. by rewrite Hm.
Qed.

(** A change to the count and the memory of one page touches that page. *)
Lemma pages_touches s ps p :
  pmap_ok s → p ∈ dom (pg_refcnt (m_pages s)) → page_tree ps = page_tree (m_pages s) →
  (∃ n, pg_refcnt ps = <[p := n]> (pg_refcnt (m_pages s))) →
  (∀ a, a ≠ page_paddr p → memory ps !! a = memory (m_pages s) !! a) →
  (∀ q, node (set_pages ps s) q = node s q) →
  touches [p] s (set_pages ps s).
Proof.
  intros H Hp Ht [n Hr] Hm Hn. split; cbn [m_pages m_pmap m_cpu m_asidnext set_pages]; try done.
  - rewrite Hr, dom_insert_L. set_solver.
  - intros q Hq. rewrite Hr, lookup_insert_ne; [done|]. intros ->. apply Hq. by left.
  - intros q Hd Hq _. apply Hm. intros Heq. apply Hq. apply list_elem_of_singleton.
    by apply (ok_frames s H).
  - intros q x. by rewrite Hn.
  - intros q x. rewrite Hn. by left.
Qed.

Lemma recount_touches s ps p n :
  pmap_ok s → is_Some (pg_refcnt (m_pages s) !! p) → recounts p n (m_pages s) ps →
  (n ≠ 0 ∨ not_table s p) → touches [p] s (set_pages ps s).
Proof.
  intros H Hp Hr Hn. destruct (recount_ok s ps p n H Hp Hr Hn) as (_&Hnode&_).
  destruct Hr as (Hrc&(Ht&_&Hm)&_).
  apply pages_touches; [done|by apply elem_of_dom|done|by exists n|by rewrite Hm|done].
Qed.

Lemma free_not_table s p : pmap_ok s → pg_refcnt (m_pages s) !! p = Some 0 → not_table s p.
Proof. intros H Hp q x Hx. by destruct (free_not_node s p q x H Hp Hx). Qed.

Lemma on_pages_ok {A} (m : M pages A) s a ps :
  m (m_pages s) = Done a ps → on_pages m s = Done a (set_pages ps s).
Proof. intros Hm. unfold on_pages, zoom. by rewrite Hm. Qed.

(** The state after [page_alloc] of the head of the free queue. *)
Lemma page_alloc_pmap s p f flags :
  pmap_ok s → page_free_queue (m_pages s) = p :: f →
  ∃ ps, on_pages (page_alloc flags) s = Done (Ok p) (set_pages ps s) ∧
    pmap_ok (set_pages ps s) ∧ not_table (set_pages ps s) p ∧
    pg_refcnt ps = <[p := 1]> (pg_refcnt (m_pages s)) ∧ page_tree ps = page_tree (m_pages s) ∧
    touches [p] s (set_pages ps s) ∧
    (∀ va, translate (set_pages ps s) va = translate s va).
Proof.
  intros H Hf. pose proof (ok_pages s H) as Hs. pose proof Hs as ((_&Hfq&_)&Hk&_).
  assert (pg_refcnt (m_pages s) !! p = Some 0) as Hp by (apply Hfq; rewrite Hf; by left).
  pose proof (page_alloc_outcome (m_pages s) flags Hs) as Ha. rewrite Hf in Ha.
  destruct Ha as (ps&paddr&Ha&Hs'&Hrc&Ht&Hpa&Hm). exists ps. split; [by apply on_pages_ok|].
  destruct (known_paddr _ p Hk) as (_&_&Haddr); [by eapply elem_of_dom_2|].
  rewrite Haddr in Hpa. injection Hpa as <-.
  destruct (pages_change_ok s ps H Hs') as (H'&Hn&Htr).
  - rewrite Hrc, dom_insert_L. apply elem_of_dom_2 in Hp. set_solver.
  - intros q n Hn Hq. right. exists n. split; [done|]. rewrite Hrc, lookup_insert_ne; [done|].
    intros ->. congruence.
  - intros q x Hx. rewrite Hm. destruct (flag_set _ _); [|done].
    destruct (free_not_node s p q x H Hp Hx) as [_ Hne]. by rewrite lookup_insert_ne.
  - split; [done|]. split; [intros q x; rewrite Hn; by apply free_not_table|].
    split; [done|]. split; [done|]. split; [|done].
    apply pages_touches; [done|by apply elem_of_dom_2 in Hp|done|by exists 1| |done].
    intros a Hne. rewrite Hm. destruct (flag_set _ _); [by rewrite lookup_insert_ne|done].
Qed.

Lemma two_free s a b :
  pmap_ok s → a ≠ b → pg_refcnt (m_pages s) !! a = Some 0 → pg_refcnt (m_pages s) !! b = Some 0 →
  (2 ≤ length (page_free_queue (m_pages s)))%nat.
Proof.
  intros H Hab Ha Hb. destruct (ok_pages s H) as ((_&Hfq&_)&_).
  apply Hfq in Ha, Hb. destruct (page_free_queue (m_pages s)) as [|x [|y f]]; simpl; [|..|lia].
  - by apply elem_of_nil in Ha.
  - apply list_elem_of_singleton in Ha, Hb. congruence.
Qed.

(** Entering a page whose references are counted. *)
Lemma page_map_outcome s kernel va p n a b :
  pmap_ok s → range_wf s → in_range s va → va mod 8192 = 0 →
  pg_refcnt (m_pages s) !! p = Some n → n ≠ 0 → n + 1 < 2 ^ 32 →
  page_paddr p < 2 ^ 36 → translate s va = None → not_table s p →
  a ≠ b → pg_refcnt (m_pages s) !! a = Some 0 → pg_refcnt (m_pages s) !! b = Some 0 →
  ∃ s', page_map kernel va p s = Done (Ok tt) s' ∧ pmap_ok s' ∧ range_wf s' ∧
    page_tree (m_pages s') = page_tree (m_pages s) ∧
    dom (pg_refcnt (m_pages s')) = dom (pg_refcnt (m_pages s)) ∧
    pg_refcnt (m_pages s') !! p = Some (n + 1) ∧ not_table s' p ∧
    (∀ q m, q ≠ p → m ≠ 0 → pg_refcnt (m_pages s) !! q = Some m →
       pg_refcnt (m_pages s') !! q = Some m) ∧
    (∀ va', in_range s' va' ↔ in_range s va') ∧
    (∀ va', in_range s va' →
      translate s' va' = if decide (va' / 8192 = va / 8192) then Some (page_paddr p)
                         else translate s va') ∧
    ∃ l, (length l ≤ 2)%nat ∧ (∀ q, q ∈ l → pg_refcnt (m_pages s) !! q = Some 0) ∧
      touches (p :: l) s s' ∧
      memory (m_pages s') !! page_paddr p = memory (m_pages s) !! page_paddr p.
Proof.
  intros H Hw Hr Hal Hp Hn0 Hn Hpa Htr Hnt Hab Ha Hb.
  pose proof (ok_pages s H) as (Hq&Hk&Hl).
  destruct (locked_hold_ok (m_pages s) p n Hq Hl Hp Hn) as (ps&Hh&Hrec).
  destruct (recount_ok s ps p (n + 1) H) as (H1&Hnode1&Htr1); [by exists n|done|right; done|].
  pose proof Hrec as (Hrc&(Ht&_&Hmem)&_). set (s1 := set_pages ps s) in *.
  assert (pg_refcnt (m_pages s1) !! p = Some (n + 1)) as Hp1
    by (unfold s1; cbn [m_pages set_pages]; rewrite Hrc; apply lookup_insert_eq).
  assert (∀ q m, q ≠ p → pg_refcnt (m_pages s) !! q = Some m →
    pg_refcnt (m_pages s1) !! q = Some m) as Hkeep.
  { intros q m Hne Hm. unfold s1. cbn [m_pages set_pages]. by rewrite Hrc, lookup_insert_ne. }
  assert (a ≠ p ∧ b ≠ p) as [Hap Hbp] by (split; congruence).
  destruct (pmap_map_outcome s1 kernel va p H1) as (s2&Hm&H2&Hw2&Ht2&Hd2&Hu2&Hr2&Hnode2&Htr2&_&l&Hl2&Hfree&T2).
  { by apply pages_change_range. } { exact Hr. } { by apply elem_of_dom_2 in Hp1. } { done. }
  { by rewrite Htr1, Htr. }
  { apply (two_free s1 a b H1 Hab); by apply Hkeep. }
  exists s2. split.
  { unfold page_map. rewrite (proj2 (PAGE_ALIGNED_mod va) Hal). unfold assert_, bind at 1, ret at 1.
    unfold bind at 1. change (PAGEQ_LOCK ;;; page_ref_hold p ;;; PAGEQ_UNLOCK)%c
      with (locked (page_ref_hold p)).
    rewrite (on_pages_ok _ s tt ps Hh). fold s1. unfold bind. by rewrite Hm. }
  split; [done|]. split; [done|]. split; [by rewrite Ht2|].
  split.
  { rewrite Hd2. unfold s1. cbn [m_pages set_pages]. rewrite Hrc, dom_insert_L.
    apply elem_of_dom_2 in Hp. set_solver. }
  split; [apply (Hu2 p (n + 1)); [|done]|]. { destruct Hq as (_&_&_&Hb32). specialize (Hb32 p n Hp). lia. }
  split.
  { intros q x Hx. destruct (Hnode2 q x Hx) as [Hx1|(p'&Hp'&->)].
    - rewrite Hnode1 in Hx1. by apply (Hnt q).
    - intros Heq. pose proof (ok_pages s1 H1) as (_&Hk1&_).
      assert (p' = p) as ->; [|destruct Hq as (_&_&_&Hb32); specialize (Hb32 p n Hp);
        rewrite Hp1 in Hp'; injection Hp'; lia].
      apply (ok_frames s1 H1); [by apply elem_of_dom_2 in Hp'|by apply elem_of_dom_2 in Hp1|].
      destruct (known_paddr _ p' Hk1) as (Hb1&_); [by apply elem_of_dom_2 in Hp'|].
      destruct (known_paddr _ p Hk1) as (Hb2&_); [by apply elem_of_dom_2 in Hp1|].
      rewrite <-(XKPHYS_round _ Hb1), <-(XKPHYS_round _ Hb2). by rewrite Heq. }
  split; [intros q m Hne Hm0 Hqm; apply Hu2; [done|by apply Hkeep]|].
  split; [exact Hr2|]. split; [intros va' Hr'; rewrite (Htr2 va' Hr'); by rewrite Htr1|].
  assert (touches [p] s s1) as T1 by (apply (recount_touches s ps p (n + 1) H); [by exists n|done|right; done]).
  assert (n + 1 ≠ 0) as Hn1 by (destruct Hq as (_&_&_&Hb32); specialize (Hb32 p n Hp); lia).
  exists l. split; [done|]. split.
  - intros q Hq0. destruct (decide (q = p)) as [->|Hne].
    + specialize (Hfree p Hq0). rewrite Hp1 in Hfree. by injection Hfree.
    + rewrite <-(Hfree q Hq0). symmetry. apply (to_refcnt _ _ _ T1).
      by intros ?%list_elem_of_singleton.
  - split.
    + apply (touches_trans [p] l s s1 s2 H T1 T2). intros q ->%list_elem_of_singleton Hq0.
      rewrite Hp1 in Hq0. by injection Hq0.
    + rewrite (to_memory _ _ _ T2 p); [unfold s1; cbn [m_pages set_pages]; by rewrite Hmem| | |].
      * by apply elem_of_dom_2 in Hp1.
      * intros Hpl. specialize (Hfree p Hpl). rewrite Hp1 in Hfree. by injection Hfree.
      * intros q x. rewrite Hnode1. apply Hnt.
Qed.

(** The structure of the page an address translates to. *)
Lemma page_extract_ok s kernel va p bases :
  pmap_ok s → range_wf s → in_range s va → covered (m_pages s) bases →
  p ∈ dom (pg_refcnt (m_pages s)) → page_paddr p < 2 ^ 36 → translate s va = Some (page_paddr p) →
  page_extract kernel va s = Done (Ok p) s.
Proof.
  intros H Hw Hr Hc Hp Hpa Htr. unfold page_extract, bind_ok, bind.
  rewrite (pmap_extract_range s kernel va H Hw Hr). unfold extracted. rewrite Htr.
  unfold on_pages, zoom. rewrite (page_lookup_known _ bases p Hc Hp) by lia. by destruct s.
Qed.

(** Taking a page out of a pmap. *)
Lemma page_unmap_outcome s va p n :
  pmap_ok s → range_wf s → in_range s va → va mod 8192 = 0 →
  pg_refcnt (m_pages s) !! p = Some n → n ≠ 0 → n - 1 ≠ 0 →
  translate s va = Some (page_paddr p) → not_table s p →
  ∃ s', page_unmap va p s = Done (Ok tt) s' ∧ pmap_ok s' ∧ range_wf s' ∧
    pg_refcnt (m_pages s') = <[p := n - 1]> (pg_refcnt (m_pages s)) ∧
    (∀ va', in_range s' va' ↔ in_range s va') ∧ touches [p] s s' ∧ (∀ q, node s' q = node s q) ∧
    (∀ va', in_range s va' →
      translate s' va' = if decide (va' / 8192 = va / 8192) then None else translate s va') ∧
    memory (m_pages s') !! page_paddr p = memory (m_pages s) !! page_paddr p.
Proof.
  intros H Hw Hr Hal Hp Hn0 Hn1 Htr Hnt.
  destruct (pmap_unmap_outcome s va H Hw Hr) as (r&s1&Hu&H1&Hw1&_&Hrc1&Hr1&Hnode1&Htr1&Hres).
  rewrite Htr in Hres. destruct Hres as (->&_&T1).
  pose proof Hp as Hp0. rewrite <-Hrc1 in Hp. pose proof (ok_pages s1 H1) as (Hq&Hk&Hl).
  destruct (locked_drop_ok (m_pages s1) p n Hq Hl Hp Hn0) as (ps2&Hd&Hrec2).
  destruct (recount_ok s1 ps2 p (n - 1) H1) as (H2&Hn2&Htr2); [by exists n|done|by left|].
  pose proof Hrec2 as (Hrc2&(_&_&Hm2)&_). exists (set_pages ps2 s1). split.
  { unfold page_unmap. rewrite (proj2 (PAGE_ALIGNED_mod va) Hal). unfold assert_.
    unfold bind_ok, bind, ret. rewrite Hu.
    pose proof (on_pages_ok _ s1 tt ps2 Hd) as Hd'. unfold locked in Hd'. unfold bind in Hd'.
    by rewrite Hd'. }
  split; [done|]. split; [by apply pages_change_range|]. split.
  { cbn [m_pages set_pages]. by rewrite Hrc2, Hrc1. }
  split; [exact Hr1|]. split; [|split; [intros q; by rewrite Hn2, Hnode1|split]].
  - apply (touches_weaken ([] ++ [p])); [done|].
    apply (touches_trans [] _ s s1 _ H T1); [|by intros q ?%elem_of_nil].
    apply (recount_touches s1 ps2 p (n - 1) H1); [by exists n|done|by left].
  - intros va' Hr'. by rewrite Htr2, (Htr1 va' Hr').
  - cbn [m_pages set_pages]. rewrite Hm2. apply (to_memory _ _ _ T1); [|apply not_elem_of_nil|done].
    by apply elem_of_dom_2 in Hp0.
Qed.

(** Taking a page out of a pmap and giving it back. *)
Lemma page_free_map_outcome s kernel va p bases :
  pmap_ok s → range_wf s → in_range s va → va mod 8192 = 0 → covered (m_pages s) bases →
  pg_refcnt (m_pages s) !! p = Some 2 → page_paddr p < 2 ^ 36 →
  translate s va = Some (page_paddr p) → not_table s p →
  ∃ s', page_free_map kernel va s = Done (Ok tt) s' ∧ pmap_ok s' ∧ range_wf s' ∧
    pg_refcnt (m_pages s') = <[p := 0]> (pg_refcnt (m_pages s)) ∧
    (∀ va', in_range s' va' ↔ in_range s va') ∧ touches [p] s s' ∧ (∀ q, node s' q = node s q) ∧
    (∀ va', in_range s va' →
      translate s' va' = if decide (va' / 8192 = va / 8192) then None else translate s va').
Proof.
  intros H Hw Hr Hal Hc Hp Hpa Htr Hnt.
  destruct (page_unmap_outcome s va p 2 H Hw Hr Hal Hp ltac:(lia) ltac:(lia) Htr Hnt)
    as (s2&Hu&H2&Hw2&Hrc2&Hr2&T2&Hn2&Htr2&_).
  assert (pg_refcnt (m_pages s2) !! p = Some 1) as Hp2 by (by rewrite Hrc2, lookup_insert_eq).
  destruct (page_release_ok (m_pages s2) p (ok_pages s2 H2) Hp2) as (ps3&Hrel&Hrec3&_).
  assert (not_table s2 p) as Hnt2 by (intros q x; rewrite Hn2; apply Hnt).
  destruct (recount_ok s2 ps3 p 0 H2) as (H3&Hn3&Htr3); [by exists 1|done|by right|].
  pose proof Hrec3 as (Hrc3&_). exists (set_pages ps3 s2). split.
  { unfold page_free_map. rewrite (proj2 (PAGE_ALIGNED_mod va) Hal). unfold assert_, bind at 1, ret at 1.
    unfold bind_ok at 1, bind at 1. rewrite (page_extract_ok s kernel va p bases); try done.
    2:{ by apply elem_of_dom_2 in Hp. }
    unfold bind_ok, bind. rewrite Hu. by rewrite (on_pages_ok _ s2 tt ps3 Hrel). }
  split; [done|]. split; [by apply pages_change_range|]. split.
  { cbn [m_pages set_pages]. by rewrite Hrc3, Hrc2, insert_insert_eq. }
  split; [exact Hr2|]. split; [|split; [|intros va' Hr'; by rewrite Htr3, (Htr2 va' Hr')]].
  2:{ intros q. by rewrite Hn3, Hn2. }
  apply (touches_weaken ([p] ++ [p])); [set_solver|].
  apply (touches_trans [p] [p] s s2 _ H T2).
  - apply (recount_touches s2 ps3 p 0 H2); [by exists 1|done|by right].
  - intros q _ _. right. exact Hn3.
Qed.

(** C26: with three free pages, [page_alloc_map] at an aligned address that
    does not translate enters the oldest free page, whose physical address is
    below 2^36, with two references, and
    [page_extract] finds that page's structure; [page_free_map] then undoes
    it: the page is free again and every address of the range translates as
    it did before. *)
Theorem page_alloc_free_map s kernel flags va bases p a b f :
  pmap_ok s → range_wf s → covered (m_pages s) bases → in_range s va → va mod 8192 = 0 →
  page_free_queue (m_pages s) = p :: a :: b :: f → page_paddr p < 2 ^ 36 →
  pmap_extract kernel va s = Done (Err ERROR_NOT_FOUND) s →
  ∃ s1 s2, page_alloc_map kernel flags va s = Done (Ok tt) s1 ∧ pmap_ok s1 ∧
    pg_refcnt (m_pages s1) !! p = Some 2 ∧ page_extract kernel va s1 = Done (Ok p) s1 ∧
    page_free_map kernel va s1 = Done (Ok tt) s2 ∧ pmap_ok s2 ∧
    pg_refcnt (m_pages s2) !! p = Some 0 ∧
    ∀ va', in_range s va' → ∃ r, pmap_extract kernel va' s = Done r s ∧
      pmap_extract kernel va' s2 = Done r s2.
Proof.
  intros H Hw Hc Hr Hal Hf Hpa Hx.
  assert (translate s va = None) as Htr.
  { rewrite pmap_extract_range in Hx by done. unfold extracted in Hx.
    by destruct (translate s va). }
  pose proof (ok_pages s H) as ((Hnd&Hfq&_)&_). apply NoDup_app in Hnd as (Hnd&_).
  rewrite Hf in Hnd. apply NoDup_cons in Hnd as [Hp Hnd]. apply NoDup_cons in Hnd as [Hab _].
  apply not_elem_of_cons in Hp as [Hpa' Hp]. apply not_elem_of_cons in Hp as [Hpb _].
  apply not_elem_of_cons in Hab as [Hab _].
  assert (pg_refcnt (m_pages s) !! a = Some 0 ∧ pg_refcnt (m_pages s) !! b = Some 0) as [Ha Hb].
  { split; apply Hfq; rewrite Hf; right; [by left|right; by left]. }
  assert (pg_refcnt (m_pages s) !! p = Some 0) as Hp0 by (apply Hfq; rewrite Hf; by left).
  destruct (page_alloc_pmap s p _ flags H Hf) as (ps&Hal0&H0&Hnt0&Hrc0&Ht0&_&Htr0).
  set (s0 := set_pages ps s) in *.
  destruct (page_map_outcome s0 kernel va p 1 a b) as
    (s1&Hm&H1&Hw1&Ht1&Hd1&Hp1&Hnt1&_&Hr1&Htr1&_); try done; try lia.
  { by apply pages_change_range. }
  { unfold s0. cbn [m_pages set_pages]. rewrite Hrc0. apply lookup_insert_eq. }
  { by rewrite Htr0. }
  { unfold s0. cbn [m_pages set_pages]. by rewrite Hrc0, lookup_insert_ne. }
  { unfold s0. cbn [m_pages set_pages]. by rewrite Hrc0, lookup_insert_ne. }
  assert (covered (m_pages s1) bases) as Hc1.
  { destruct Hc as [Hruns Hcov]. unfold covered. rewrite Ht1, Hd1. unfold s0. cbn [m_pages set_pages].
    rewrite Ht0, Hrc0, dom_insert_L. split; [done|]. intros q [->%elem_of_singleton|Hq]%elem_of_union;
      apply Hcov; [by apply elem_of_dom_2 in Hp0|done]. }
  assert (translate s1 va = Some (page_paddr p)) as Hva by (rewrite Htr1 by done; by rewrite decide_True).
  destruct (page_free_map_outcome s1 kernel va p bases H1 Hw1) as (s2&Hfr&H2&Hw2&Hrc2&Hr2&_&_&Htr2);
    try done; [by apply Hr1|].
  exists s1, s2. split.
  { unfold page_alloc_map, bind_ok, bind. rewrite Hal0. fold s0. by rewrite Hm. }
  split; [done|]. split; [done|]. split.
  { apply (page_extract_ok s1 kernel va p bases); try done; [by apply Hr1|].
    by apply elem_of_dom_2 in Hp1. }
  split; [done|]. split; [done|]. split; [rewrite Hrc2; apply lookup_insert_eq|].
  intros va' Hr'. exists (extracted s va').
  assert (in_range s1 va') as Hr1' by (by apply Hr1).
  rewrite !pmap_extract_range by (done || by apply Hr2). split; [done|]. f_equal.
  unfold extracted. rewrite (Htr2 va' Hr1'), (Htr1 va' Hr'), Htr0.
  destruct (decide (va' / 8192 = va / 8192)) as [Heq|]; [|done].
  assert (translate s va' = None) as ->; [|done]. rewrite <-Htr. apply translate_same.
  by apply (in_range_same s).
Qed.

(** * Setting a pmap up *)

(** A pmap without tables is well formed. *)
Lemma empty_pmap_ok s :
  sound (m_pages s) → frames_ok (m_pages s) →
  pm_level0 (m_pmap s) = replicate (Z.to_nat NL0PMAP) 0 → pmap_ok s.
Proof.
  intros Hs Hf Hl. assert (∀ q, node s q = None) as Hn.
  { assert (∀ i, nz (pm_level0 (m_pmap s) !! i) = None) as H0.
    { intros i. rewrite Hl. destruct (replicate _ 0 !! i) as [x|] eqn:Hx; [|done].
      by apply lookup_replicate in Hx as [-> _]. }
    intros [i|i j]; unfold node; by rewrite H0. }
  split; [by rewrite Hl|done|done| |]; intros q; rewrite Hn; done.
Qed.

Definition USER_BASE : Z := 0x0000000000000000.
Definition USER_END : Z := 0x000000ffffffffff.
Definition KERNEL_BASE : Z := 0xc000000000000000.
Definition KERNEL_END : Z := 0xc00000ff7fffffff.

(** * Example: an empty user pmap over a small machine *)

Definition example_mmu : mmu :=
  mk_mmu boot (mk_pmap (replicate (Z.to_nat NL0PMAP) 0) USER_BASE USER_END 0 [])
    (mk_cpu false 1 false true) 1 [].

Lemma example_mmu_ok : pmap_ok example_mmu ∧ range_wf example_mmu.
Proof.
  destruct boot_ok as [Hs Hc]. split.
  - apply empty_pmap_ok; [exact Hs| |reflexivity].
    intros p q Hp Hq. by apply (covered_paddr_inj boot [boot_base]).
  - split; vm_compute; try done. by left.
Qed.

Lemma pmap_map_correct_witness :
  ∃ s', pmap_map false 0x4000 (page_of boot_base 0) example_mmu = Done (Ok tt) s' ∧
    pmap_ok s' ∧ range_wf s' ∧
    (∀ q n, n ≠ 0 → pg_refcnt (m_pages example_mmu) !! q = Some n →
       pg_refcnt (m_pages s') !! q = Some n) ∧
    (∀ va', in_range example_mmu va' → ∃ r, pmap_extract false va' example_mmu = Done r example_mmu ∧
      pmap_extract false va' s' =
        Done (if decide (va' / 8192 = 0x4000 / 8192) then Ok (page_paddr (page_of boot_base 0))
              else r) s') ∧
    m_shootdown s' =
      if extracted example_mmu 0x4000 then PAGE_FLOOR 0x4000 :: m_shootdown example_mmu
      else m_shootdown example_mmu.
Proof.
  apply (pmap_map_correct example_mmu false 0x4000 (page_of boot_base 0)).
  - apply example_mmu_ok.
  - apply example_mmu_ok.
  - by split; vm_compute.
  - apply elem_of_dom. exists 1. vm_compute. reflexivity.
  - by vm_compute.
  - rewrite (pmap_extract_range example_mmu false 0x4000);
      [|apply example_mmu_ok|apply example_mmu_ok|by split; vm_compute].
    intros H. assert (extracted example_mmu 0x4000 = Err ERROR_NOT_FOUND) as E by (vm_compute; reflexivity).
    rewrite E in H. discriminate H.
  - vm_compute. lia.
Defined.

Lemma pmap_unmap_correct_witness :
  ∃ r s', pmap_unmap 0x4000 example_mmu = Done r s' ∧ pmap_ok s' ∧ range_wf s' ∧
    pg_refcnt (m_pages s') = pg_refcnt (m_pages example_mmu) ∧
    (∀ va', in_range example_mmu va' → ∃ r, pmap_extract false va' example_mmu = Done r example_mmu ∧
      pmap_extract false va' s' =
        Done (if decide (va' / 8192 = 0x4000 / 8192) then Err ERROR_NOT_FOUND else r) s') ∧
    match extracted example_mmu 0x4000 with
    | Ok _ => r = Ok tt ∧ m_shootdown s' = 0x4000 :: m_shootdown example_mmu
    | Err _ => s' = example_mmu ∧ (r = Ok tt ∨ r = Err ERROR_NOT_FOUND)
    end.
Proof.
  apply (pmap_unmap_correct example_mmu false 0x4000);
    [apply example_mmu_ok|apply example_mmu_ok|by split; vm_compute].
Defined.

Lemma page_alloc_free_map_witness :
  ∃ s1 s2, page_alloc_map false PAGE_FLAG_ZERO 0x4000 example_mmu = Done (Ok tt) s1 ∧ pmap_ok s1 ∧
    pg_refcnt (m_pages s1) !! page_of boot_base 1 = Some 2 ∧
    page_extract false 0x4000 s1 = Done (Ok (page_of boot_base 1)) s1 ∧
    page_free_map false 0x4000 s1 = Done (Ok tt) s2 ∧ pmap_ok s2 ∧
    pg_refcnt (m_pages s2) !! page_of boot_base 1 = Some 0 ∧
    ∀ va', in_range example_mmu va' → ∃ r, pmap_extract false va' example_mmu = Done r example_mmu ∧
      pmap_extract false va' s2 = Done r s2.
Proof.
  apply (page_alloc_free_map example_mmu false PAGE_FLAG_ZERO 0x4000 [boot_base]
    (page_of boot_base 1) (page_of boot_base 2) (page_of boot_base 3)
    [page_of boot_base 4; page_of boot_base 5]);
    [apply example_mmu_ok|apply example_mmu_ok|apply boot_ok|by split; vm_compute|reflexivity
    |vm_compute; reflexivity|vm_compute; reflexivity|].
  rewrite (pmap_extract_range example_mmu false 0x4000);
    [|apply example_mmu_ok|apply example_mmu_ok|by split; vm_compute]. f_equal.
Defined.

(** * Address space identifiers *)

Section asids.
Context (whoami : Z) (Hwho : 0 ≤ whoami < MAXCPUS).

(** [n] user pmaps, one after the other, given an identifier on this CPU. *)
Fixpoint alloc_asids (n : nat) : M mmu (list Z) :=
  match n with
  | O => ret []
  | S n =>
      pmap_alloc_asid whoami false ;;;
      a <- pmap_asid whoami ;;
      l <- alloc_asids n ;;
      ret (a :: l)
  end.

(** The CPU is past early startup and in a critical section, as
    [pmap_alloc_asid] demands. *)
Definition asid_ready (s : mmu) : Prop :=
  startup_early (m_cpu s) = false ∧ 0 < critical_count (m_cpu s) < 2 ^ 32 - 1 ∧
  PMAP_ASID_FIRST ≤ m_asidnext s ≤ PMAP_ASID_MAX ∧
  length (pm_asid (m_pmap s)) = Z.to_nat MAXCPUS.

(** A nested critical section. *)
Lemma critical_nested c :
  startup_early c = false → 0 < critical_count c < 2 ^ 32 - 1 →
  cpu_critical_section c = Done true c ∧
  ∃ c1 c2, cpu_critical_enter c = Done tt c1 ∧ cpu_critical_exit c1 = Done tt c2 ∧
    startup_early c2 = false ∧ critical_count c2 = critical_count c.
Proof.
  destruct c as [se cc cs ir]. cbn [startup_early critical_count]. intros -> Hc. split.
  - unfold cpu_critical_section, bind, get, assert_, ret. simpl.
    by rewrite (proj2 (Z.ltb_lt 0 cc)) by lia.
  - eexists _, _. split; [|split; [|split]].
    + unfold cpu_critical_enter, bind, get, assert_, ret, put. simpl.
      rewrite (proj2 (Z.eqb_neq cc 0)) by lia. simpl. rewrite u32_small by lia.
      rewrite (proj2 (Z.ltb_lt 0 (cc + 1))) by lia. reflexivity.
    + unfold cpu_critical_exit, bind, get, assert_, ret, put.
      cbn [startup_early critical_count negb].
      rewrite (proj2 (Z.ltb_lt 0 (cc + 1))), (proj2 (Z.eqb_neq (cc + 1) 1)) by lia. reflexivity.
    + reflexivity.
    + cbn [critical_count]. rewrite u32_small by lia. lia.
Qed.

Lemma alloc_asid_ok s :
  asid_ready s →
  ∃ s', pmap_alloc_asid whoami false s = Done tt s' ∧
    pmap_asid whoami s' = Done (m_asidnext s) s' ∧ asid_ready s' ∧
    m_asidnext s' = 1 + m_asidnext s mod 255 ∧
    m_pages s' = m_pages s ∧ critical_count (m_cpu s') = critical_count (m_cpu s).
Proof.
  intros (He&Hc&Ha&Hl). unfold PMAP_ASID_FIRST, PMAP_ASID_MAX in Ha.
  assert (Z.to_nat whoami < length (pm_asid (m_pmap s)))%nat as Hlt by (rewrite Hl; lia).
  destruct (critical_nested (m_cpu s) He Hc) as (Hsec&c1&c2&Hen&Hex&He2&Hc2).
  assert (∃ s', pmap_alloc_asid whoami false s = Done tt s' ∧
    pm_asid (m_pmap s') = <[Z.to_nat whoami := m_asidnext s]> (pm_asid (m_pmap s)) ∧
    m_cpu s' = c2 ∧ m_pages s' = m_pages s ∧
    m_asidnext s' = 1 + m_asidnext s mod 255) as (s'&Hr&Hm&Hcpu&Hpg&Hn).
  { unfold pmap_alloc_asid, on_cpu, zoom, get, put, modify, assert_, bind, ret.
    rewrite Hsec. cbn [m_cpu set_cpu]. rewrite Hen. cbn [m_asidnext set_cpu].
    destruct (Z.eqb_spec (m_asidnext s) PMAP_ASID_MAX) as [->|Hne]; cbn [m_cpu set_cpu];
      rewrite Hex; (eexists; split; [reflexivity|]); (split; [reflexivity|]);
      (split; [reflexivity|]); (split; [reflexivity|]); [reflexivity|].
    cbn [m_asidnext set_cpu set_pmap]. unfold PMAP_ASID_MAX in Hne.
    rewrite u32_small, Z.mod_small by lia. lia. }
  exists s'. split; [done|]. split; [|split; [|split; [done|split; [done|congruence]]]].
  - unfold pmap_asid, bind, get, deref. rewrite Hm.
    by rewrite list_lookup_insert_eq.
  - unfold asid_ready. rewrite Hcpu, He2, Hc2, Hm, Hn, length_insert.
    unfold PMAP_ASID_FIRST, PMAP_ASID_MAX. split_and!; try done; try lia;
      pose proof (Z.mod_pos_bound (m_asidnext s) 255); lia.
Qed.

(** on one CPU, user pmaps are given the identifiers 1 to 255 in turn,
    round and round, never the kernel's 0: [n] pmaps set up from [a] on get
    [a], [a + 1], ... modulo 255, so any 255 consecutive ones differ and the
    next one repeats the first. *)
Theorem pmap_asids_cycle s n :
  asid_ready s →
  ∃ s', alloc_asids n s =
    Done ((λ k, 1 + (m_asidnext s - 1 + Z.of_nat k) mod 255) <$> seq 0 n) s'.
Proof.
  revert s. induction n as [|n IH]; intros s Hs; [by exists s|].
  destruct (alloc_asid_ok s Hs) as (s1&Hr&Ha&Hs1&Hn&_). destruct (IH s1 Hs1) as (s2&Hr2).
  exists s2. cbn [alloc_asids]. unfold bind. rewrite Hr, Ha, Hr2. unfold ret. f_equal.
  destruct Hs as (_&_&Hb&_). unfold PMAP_ASID_FIRST, PMAP_ASID_MAX in Hb.
  cbn [seq fmap list_fmap]. f_equal.
  - rewrite Z.add_0_r, Z.mod_small by lia. lia.
  - rewrite <-fmap_S_seq, <-list_fmap_compose. apply list_fmap_ext. intros i k _.
    cbn [compose]. rewrite Hn. replace (1 + m_asidnext s mod 255 - 1 + Z.of_nat k)
      with (m_asidnext s mod 255 + Z.of_nat k) by lia.
    rewrite Z.add_mod_idemp_l by lia. do 2 f_equal. lia.
Qed.
End asids.

Lemma pmap_asids_cycle_witness :
  ∃ s', alloc_asids 2 3 (mk_mmu boot (mk_pmap [] 0 0 0 (replicate 64 0)) (mk_cpu false 1 false true) 254 [])
    = Done [254; 255; 1] s'.
Proof.
  apply (pmap_asids_cycle 2 ltac:(done)
    (mk_mmu boot (mk_pmap [] 0 0 0 (replicate 64 0)) (mk_cpu false 1 false true) 254 []) 3).
  split; [reflexivity|]. split; [by vm_compute|]. split; [by vm_compute|reflexivity].
Defined.
