(* ===== verification/VmSpace.v ===== *)
(** Address spaces put together ([mk/vm/vm.c], [pmap_init] of
    [mk/cpu/mips/cpu/cpu_pmap.c])

    The state of the virtual memory system: the physical pages, the pool of
    range records and, for every [struct vm], its ranges (VmIndex.v) and its
    page tables (Pmap.v).  An operation of one component runs on its part of
    the state.

    The invariant [sane] says of all address spaces together that their tables
    are different pages, that every page an address translates to is in use
    and no table, and that free addresses do not translate.  The step lemmas
    reduce an operation on one address space to what it touches there: every
    other address space translates as before. *)

From S2P Require Import Prelude MachineInt Btree Spinlock Pool VmIndex VmPage Pmap PmapTables.

Local Open Scope Z_scope.
Local Open Scope c_scope.

Section machine.
Context {Ob : Type} `{ObjPool Ob}.

(** A [struct vm]; [sp_pmap] is [None] while [vm_pmap] is null. *)
Record space := mk_space {
  sp_lock : Z;
  sp_ranges : tree Z;
  sp_free : tree Z;
  sp_store : gmap Z vm_index;
  sp_pmap : option pmap;
  sp_shootdown : list Z
}.

(** [mc_index_pool], [mc_vm_pool] and [mc_pmap_pool] are [vm_index_pool],
    [vm_pool] and [pmap_pool]. *)
Record machine := mk_machine {
  mc_pages : pages;
  mc_cpu : cpu;
  mc_asidnext : Z;
  mc_index_pool : Ob;
  mc_vm_pool : Ob;
  mc_pmap_pool : Ob;
  mc_spaces : gmap Z space
}.

(** * The parts of the state *)

Definition vm_of (s : machine) (sp : space) : vm Ob :=
  mk_vm (sp_lock sp) (sp_ranges sp) (sp_free sp) (sp_store sp) (mc_index_pool s).
Definition mmu_of (s : machine) (sp : space) (pm : pmap) : mmu :=
  mk_mmu (mc_pages s) pm (mc_cpu s) (mc_asidnext s) (sp_shootdown sp).

Definition space_vm (s : machine) (v : Z) : option (vm Ob) := vm_of s <$> mc_spaces s !! v.
Definition space_mmu (s : machine) (v : Z) : option mmu :=
  sp ← mc_spaces s !! v; pm ← sp_pmap sp; Some (mmu_of s sp pm).

Definition put_vm (v : Z) (x : vm Ob) (s : machine) : machine :=
  mk_machine (mc_pages s) (mc_cpu s) (mc_asidnext s) (vm_index_pool x) (mc_vm_pool s)
    (mc_pmap_pool s)
    (alter (λ sp, mk_space (vm_lock x) (vm_ranges x) (vm_index_free x) (vmi_store x)
                    (sp_pmap sp) (sp_shootdown sp)) v (mc_spaces s)).
Definition put_mmu (v : Z) (m : mmu) (s : machine) : machine :=
  mk_machine (m_pages m) (m_cpu m) (m_asidnext m) (mc_index_pool s) (mc_vm_pool s)
    (mc_pmap_pool s)
    (alter (λ sp, mk_space (sp_lock sp) (sp_ranges sp) (sp_free sp) (sp_store sp)
                    (Some (m_pmap m)) (m_shootdown m)) v (mc_spaces s)).

(** An operation on the ranges, or on the page tables, of [v]. *)
Definition on_vm {A} (v : Z) (op : M (vm Ob) A) : M machine A := λ s,
  match space_vm s v with
  | None => Stop (Undefined "vm")
  | Some x => match op x with Done a x' => Done a (put_vm v x' s) | Stop w => Stop w end
  end.
Definition on_mmu {A} (v : Z) (op : M mmu A) : M machine A := λ s,
  match space_mmu s v with
  | None => Stop (Undefined "vm_pmap")
  | Some m => match op m with Done a m' => Done a (put_mmu v m' s) | Stop w => Stop w end
  end.
Definition set_mc_pages (p : pages) (s : machine) : machine :=
  mk_machine p (mc_cpu s) (mc_asidnext s) (mc_index_pool s) (mc_vm_pool s) (mc_pmap_pool s)
    (mc_spaces s).
Definition set_mc_cpu (c : cpu) (s : machine) : machine :=
  mk_machine (mc_pages s) c (mc_asidnext s) (mc_index_pool s) (mc_vm_pool s) (mc_pmap_pool s)
    (mc_spaces s).
Definition set_mc_vm_pool (o : Ob) (s : machine) : machine :=
  mk_machine (mc_pages s) (mc_cpu s) (mc_asidnext s) (mc_index_pool s) o (mc_pmap_pool s)
    (mc_spaces s).
Definition set_mc_pmap_pool (o : Ob) (s : machine) : machine :=
  mk_machine (mc_pages s) (mc_cpu s) (mc_asidnext s) (mc_index_pool s) (mc_vm_pool s) o
    (mc_spaces s).
Definition on_mc_pages {A} (m : M pages A) : M machine A := zoom mc_pages set_mc_pages m.
Definition on_mc_cpu {A} (m : M cpu A) : M machine A := zoom mc_cpu set_mc_cpu m.

(** * Setting up an address space ([vm_setup]) *)

Section setup.
(** [&kernel_vm], [mp_whoami()], [mp_cpu_present_mask()], and what the memory
    a new pmap gets from its pool held before. *)
Context (kernel_vm whoami present : Z) (recycled : pmap).

Definition is_kernel (v : Z) : bool := v =? kernel_vm.

Definition set_space (v : Z) (sp : space) : M machine unit :=
  modify (λ s, mk_machine (mc_pages s) (mc_cpu s) (mc_asidnext s) (mc_index_pool s)
    (mc_vm_pool s) (mc_pmap_pool s) (<[v := sp]> (mc_spaces s))).

Definition vm_setup_space (v : Z) : M machine (result unit) :=
  set_space v (mk_space 0 Leaf Leaf ∅ None []) ;;; ret (Ok tt).

(** [VM_LOCK] and [VM_UNLOCK] of a lock not held, with the critical section
    the spin lock is held in. *)
Definition vm_lock_enter (v : Z) : M machine unit :=
  on_mc_cpu cpu_critical_enter ;;; on_vm v VM_LOCK.
Definition vm_lock_exit (v : Z) : M machine unit :=
  on_vm v VM_UNLOCK ;;; on_mc_cpu cpu_critical_exit.

Definition set_vm_pmap (v : Z) (pm : pmap) : M machine unit :=
  s <- get ;;
  sp <- deref "vm" (mc_spaces s !! v) ;;
  set_space v (mk_space (sp_lock sp) (sp_ranges sp) (sp_free sp) (sp_store sp) (Some pm)
    (sp_shootdown sp)).

(** [vm->vm_pmap = pool_allocate(&pmap_pool)] and [pmap_pinit] *)
Definition pmap_new (v base end_ : Z) : M machine Z :=
  pm <- zoom mc_pmap_pool set_mc_pmap_pool op_alloc ;;
  set_vm_pmap v recycled ;;;
  on_mmu v (pmap_pinit whoami (is_kernel v) present base end_) ;;;
  ret pm.

Definition pmap_init (v base end_ : Z) : M machine (result unit) :=
  pm <- pmap_new v base end_ ;;
  r <- on_vm v (vm_insert_range (u64 (base + PAGE_SIZE)) end_) ;;
  match r with
  | Err e => zoom mc_pmap_pool set_mc_pmap_pool (op_free pm) ;;; ret (Err e)
  | Ok _ => ret (Ok tt)
  end.

Definition vm_setup (base end_ : Z) : M machine (result Z) :=
  v <- zoom mc_vm_pool set_mc_vm_pool op_alloc ;;
  r <- vm_setup_space v ;;
  match r with
  | Err e => zoom mc_vm_pool set_mc_vm_pool (op_free v) ;;; ret (Err e)
  | Ok _ =>
      vm_lock_enter v ;;;
      r <- pmap_init v base end_ ;;
      match r with
      | Err e =>
          vm_lock_exit v ;;; zoom mc_vm_pool set_mc_vm_pool (op_free v) ;;; ret (Err e)
      | Ok _ => vm_lock_exit v ;;; ret (Ok v)
      end
  end.
End setup.
End machine.
Arguments machine Ob : clear implicits.

(** * Reading the parts back *)

Section parts.
Context {Ob : Type} `{ObjPool Ob}.
Implicit Types (s : machine Ob) (m : mmu) (x : vm Ob).

Lemma space_vm_put_vm s v x : is_Some (mc_spaces s !! v) → space_vm (put_vm v x s) v = Some x.
Proof. intros [sp Hsp]. unfold space_vm. cbn. rewrite lookup_alter_eq, Hsp. cbn. by destruct x. Qed.

Lemma space_vm_put_vm_ne s v w x :
  w ≠ v → space_vm (put_vm v x s) w = set_pool (vm_index_pool x) <$> space_vm s w.
Proof.
  intros Hne. unfold space_vm. cbn. rewrite lookup_alter_ne by done.
  by destruct (mc_spaces s !! w).
Qed.

Lemma space_mmu_put_vm s v w x : space_mmu (put_vm v x s) w = space_mmu s w.
Proof.
  unfold space_mmu. cbn. destruct (decide (w = v)) as [->|Hne].
  - rewrite lookup_alter_eq. by destruct (mc_spaces s !! v).
  - by rewrite lookup_alter_ne.
Qed.

Lemma space_vm_put_mmu s v w m : space_vm (put_mmu v m s) w = space_vm s w.
Proof.
  unfold space_vm. cbn. destruct (decide (w = v)) as [->|Hne].
  - rewrite lookup_alter_eq. by destruct (mc_spaces s !! v).
  - by rewrite lookup_alter_ne.
Qed.

Lemma space_mmu_put_mmu s v m : is_Some (mc_spaces s !! v) → space_mmu (put_mmu v m s) v = Some m.
Proof. intros [sp Hsp]. unfold space_mmu. cbn. rewrite lookup_alter_eq, Hsp. cbn. by destruct m. Qed.

Lemma space_mmu_put_mmu_ne s v w m :
  w ≠ v → m_cpu m = mc_cpu s → m_asidnext m = mc_asidnext s →
  space_mmu (put_mmu v m s) w = set_pages (m_pages m) <$> space_mmu s w.
Proof.
  intros Hne Hc Ha. unfold space_mmu. cbn. rewrite lookup_alter_ne by done.
  destruct (mc_spaces s !! w) as [sp|]; [|done]. cbn. destruct (sp_pmap sp); [|done]. cbn.
  unfold mmu_of, set_pages. cbn. by rewrite Hc, Ha.
Qed.

Lemma space_mmu_spaces s v m : space_mmu s v = Some m → is_Some (mc_spaces s !! v).
Proof. unfold space_mmu. destruct (mc_spaces s !! v); [by eauto|done]. Qed.

Lemma space_vm_spaces s v x : space_vm s v = Some x → is_Some (mc_spaces s !! v).
Proof. unfold space_vm. destruct (mc_spaces s !! v); [by eauto|done]. Qed.

(** All parts share the pages, the CPU and the pool of range records. *)
Lemma space_mmu_shared s v m :
  space_mmu s v = Some m →
  m_pages m = mc_pages s ∧ m_cpu m = mc_cpu s ∧ m_asidnext m = mc_asidnext s.
Proof.
  unfold space_mmu. destruct (mc_spaces s !! v) as [sp|]; [|done]. cbn.
  destruct (sp_pmap sp); [|done]. cbn. by intros [= <-].
Qed.

Lemma space_vm_shared s v x : space_vm s v = Some x → vm_index_pool x = mc_index_pool s.
Proof. unfold space_vm. destruct (mc_spaces s !! v); [|done]. cbn. by intros [= <-]. Qed.

Lemma on_mmu_ok {A} s v m (op : M mmu A) a m' :
  space_mmu s v = Some m → op m = Done a m' → on_mmu v op s = Done a (put_mmu v m' s).
Proof. intros Hm Ho. unfold on_mmu. by rewrite Hm, Ho. Qed.

Lemma put_vm_same s v x : space_vm s v = Some x → put_vm v x s = s.
Proof.
  unfold space_vm, put_vm. destruct (mc_spaces s !! v) as [sp|] eqn:Hsp; [|done]. cbn.
  intros [= <-]. cbn. destruct s. cbn in *. f_equal. apply map_eq. intros w.
  destruct (decide (w = v)) as [->|Hne]; [|by rewrite lookup_alter_ne].
  rewrite lookup_alter_eq, Hsp. by destruct sp.
Qed.

Lemma put_mmu_same s v m : space_mmu s v = Some m → put_mmu v m s = s.
Proof.
  unfold space_mmu, put_mmu. destruct (mc_spaces s !! v) as [sp|] eqn:E; [|done]. cbn.
  destruct (sp_pmap sp) as [pm|] eqn:E2; [|done]. intros [= <-]. cbn.
  destruct s. cbn in *. f_equal. apply map_eq. intros w.
  destruct (decide (w = v)) as [->|]; [|by rewrite lookup_alter_ne].
  rewrite lookup_alter_eq, E. cbn. destruct sp; cbn in *. by rewrite <-E2.
Qed.

Lemma on_vm_inv {A} s v x (op : M (vm Ob) A) a s' :
  space_vm s v = Some x → on_vm v op s = Done a s' → ∃ x', op x = Done a x' ∧ s' = put_vm v x' s.
Proof.
  intros Hx. unfold on_vm. rewrite Hx. destruct (op x) as [a' x'|w]; [|done].
  intros [= <- <-]. by exists x'.
Qed.

Lemma wp_on_vm {A} s v x (op : M (vm Ob) A) (Q : A → machine Ob → Prop) E :
  space_vm s v = Some x → wp op (λ a x', Q a (put_vm v x' s)) E x → wp (on_vm v op) Q E s.
Proof. intros Hx Hop. unfold wp, on_vm in *. rewrite Hx. by destruct (op x). Qed.
End parts.

(** * The invariant *)

Section sane.
Context {Ob : Type} `{ObjPool Ob}.
Implicit Types (s : machine Ob) (m : mmu) (x : vm Ob).

(** Page [p] is a table of no address space. *)
Definition no_table s (p : Z) : Prop := ∀ w m, space_mmu s w = Some m → not_table m p.

Record sane s : Prop := {
  mi_vm v x : space_vm s v = Some x → inv x ∧ vm_lock x = 0;
  mi_pool : op_inv (mc_index_pool s);
  mi_pmap v m : space_mmu s v = Some m → pmap_ok m ∧ range_wf m;
  mi_apart v w m m' q q' t : v ≠ w → space_mmu s v = Some m → space_mmu s w = Some m' →
    node m q = Some t → node m' q' ≠ Some t;
  mi_mapped v m va pa : space_mmu s v = Some m → in_range m va → translate m va = Some pa →
    ∃ p n, pa = page_paddr p ∧ pg_refcnt (mc_pages s) !! p = Some n ∧ n ≠ 0 ∧ no_table s p;
  mi_free v x m a : space_vm s v = Some x → space_mmu s v = Some m → a mod 8192 = 0 →
    status x a false → translate m a = None;
  mi_span v x m a b : space_vm s v = Some x → space_mmu s v = Some m → a mod 8192 = 0 →
    status x a b → in_range m a;
  mi_sound : sound (mc_pages s);
  mi_covered : ∃ bases, covered (mc_pages s) bases;
  mi_paddr p : p ∈ dom (pg_refcnt (mc_pages s)) → page_paddr p < 2 ^ 36
}.

(** The same pages are free and in use; the same addresses translate to the
    same pages. *)
Definition same_ranges x x' : Prop := ∀ a b, status x' a b ↔ status x a b.
Definition same_translation m m' : Prop :=
  (∀ va, in_range m' va ↔ in_range m va) ∧ ∀ va, translate m' va = translate m va.

#[export] Instance same_ranges_equiv : Equivalence same_ranges.
Proof.
  split; [done| |]; unfold same_ranges.
  - intros x y Hs a b. by rewrite Hs.
  - intros x y z H1 H2 a b. by rewrite H2, H1.
Qed.
#[export] Instance same_translation_equiv : Equivalence same_translation.
Proof.
  split; [done| |].
  - intros m m' [Hr Ht]. split; intros va; [by rewrite Hr|by rewrite Ht].
  - intros m m' m'' [Hr Ht] [Hr' Ht']. split; intros va; [by rewrite Hr', Hr|by rewrite Ht', Ht].
Qed.

(** The address spaces other than [v] are the same, translate as before and
    keep their ranges. *)
Definition others_same (v : Z) s s' : Prop :=
  ∀ w, w ≠ v → option_Forall2 same_ranges (space_vm s w) (space_vm s' w) ∧
    option_Forall2 same_translation (space_mmu s w) (space_mmu s' w).

#[export] Instance others_same_equiv v : Equivalence (others_same v).
Proof.
  split.
  - intros s w _. by split.
  - intros s s' Ho w Hw. destruct (Ho w Hw) as [H1 H2]. split; by symmetry.
  - intros s s' s'' Ho Ho' w Hw. destruct (Ho w Hw) as [H1 H2], (Ho' w Hw) as [H3 H4].
    split; by etransitivity.
Qed.

(** A step of the ranges of [v]: it keeps the invariant if what becomes free
    does not translate and what is managed is in the range of the pmap. *)
Lemma vm_step s v x x' :
  sane s → space_vm s v = Some x → inv x' → vm_lock x' = 0 → grown x x' →
  (∀ m a, space_mmu s v = Some m → a mod 8192 = 0 → status x' a false → translate m a = None) →
  (∀ m a b, space_mmu s v = Some m → a mod 8192 = 0 → status x' a b → in_range m a) →
  sane (put_vm v x' s) ∧ others_same v s (put_vm v x' s).
Proof.
  intros S Hx Hi Hl Hg Hfree Hspan. pose proof (space_vm_shared s v x Hx) as Hp.
  pose proof Hi as (_&_&_&_&_&Hop).
  assert (∀ w y, w ≠ v → space_vm s w = Some y → inv y → inv (set_pool (vm_index_pool x') y)) as Hinv.
  { intros w y _ Hy (H1&H2&H3&H4&H5&_). split_and!; try done. intros i Hri.
    destruct (H2 i Hri) as [Hr Hlv]. split; [done|]. cbn. apply Hg. rewrite Hp.
    by rewrite <-(space_vm_shared s w y Hy). }
  assert (∀ w y, space_vm (put_vm v x' s) w = Some y →
    (w = v ∧ y = x') ∨ w ≠ v ∧ ∃ y0, space_vm s w = Some y0 ∧ y = set_pool (vm_index_pool x') y0) as Hinvert.
  { intros w y. destruct (decide (w = v)) as [->|Hne].
    - rewrite space_vm_put_vm by (by eapply space_vm_spaces). intros [= <-]. by left.
    - rewrite space_vm_put_vm_ne by done. intros (y0&Hy0&->)%fmap_Some. right. split; [done|]. by exists y0. }
  split.
  - split.
    + intros w y [[-> ->]|(Hne&y0&Hy0&->)]%Hinvert; [done|]. destruct (mi_vm s S w y0 Hy0) as [Hy Hl0].
      split; [by apply (Hinv w)|done].
    + done.
    + intros w m. rewrite space_mmu_put_vm. apply (mi_pmap s S).
    + intros w w' m m' q q' t. rewrite !space_mmu_put_vm. apply (mi_apart s S).
    + intros w m va pa. rewrite space_mmu_put_vm. intros Hm Hr Ht.
      destruct (mi_mapped s S w m va pa Hm Hr Ht) as (p&n&E1&E2&E3&Hnt). exists p, n.
      split_and!; try done. intros w' m'. rewrite space_mmu_put_vm. apply Hnt.
    + intros w y m a Hy. rewrite space_mmu_put_vm. intros Hm Ha.
      apply Hinvert in Hy as [[-> ->]|(Hne&y0&Hy0&->)]; [by apply Hfree|].
      apply (mi_free s S w y0); done.
    + intros w y m a b Hy. rewrite space_mmu_put_vm. intros Hm Ha.
      apply Hinvert in Hy as [[-> ->]|(Hne&y0&Hy0&->)]; [by apply Hspan|].
      apply (mi_span s S w y0); done.
    + apply (mi_sound s S).
    + apply (mi_covered s S).
    + apply (mi_paddr s S).
  - intros w Hne. rewrite space_vm_put_vm_ne, space_mmu_put_vm by done. split; [|done].
    destruct (space_vm s w); by constructor.
Qed.

(** The tables of another address space survive what an operation on [v]
    touches, if none of the pages it touches is one of them. *)
Lemma touches_other s v w m m' mw l :
  sane s → w ≠ v → space_mmu s v = Some m → space_mmu s w = Some mw → pmap_ok m' →
  touches l m m' →
  (∀ p, p ∈ l → pg_refcnt (mc_pages s) !! p = Some 0 ∨ not_table mw p) →
  pmap_ok (set_pages (m_pages m') mw) ∧ (∀ q, node (set_pages (m_pages m') mw) q = node mw q) ∧
  (∀ va, translate (set_pages (m_pages m') mw) va = translate mw va).
Proof.
  intros S Hne Hm Hmw H' T Hl.
  destruct (space_mmu_shared s v m Hm) as (Ep&_), (space_mmu_shared s w mw Hmw) as (Epw&_).
  destruct (mi_pmap s S w mw Hmw) as [Hok _]. pose proof (ok_pages mw Hok) as (_&Hk&_).
  assert (∀ p n, n ≠ 0 → pg_refcnt (m_pages mw) !! p = Some n → p ∈ l → not_table mw p) as Hout.
  { intros p n Hn Hp Hpl. destruct (Hl p Hpl) as [H0|]; [|done]. rewrite Epw in Hp. congruence. }
  apply pages_change_ok; [done|apply (ok_pages m' H')| | |].
  - by rewrite (to_dom _ _ _ T), Ep, Epw.
  - intros p n Hn Hp. destruct (decide (p ∈ l)) as [Hpl|Hpl]; [left; by eapply Hout|].
    right. exists n. split; [done|]. rewrite (to_refcnt _ _ _ T p Hpl), Ep, <-Epw. done.
  - intros q x Hx. destruct (table_facts _ x Hk (ok_table mw Hok q x Hx))
      as (p&n&ws&Hp&Hn&->&He&_). rewrite He.
    assert (p ∉ l) as Hpl by (intros Hpl; by apply (Hout p n Hn Hp Hpl q _ Hx)).
    rewrite (to_memory _ _ _ T p); [by rewrite Ep, Epw| |done|].
    + rewrite Ep, <-Epw. by apply elem_of_dom_2 in Hp.
    + intros q' x' Hx' ->. by apply (mi_apart s S v w m mw q' q _ (not_eq_sym Hne) Hm Hmw Hx').
Qed.

(** Pages the operation may touch without harm to the others: free ones, and
    pages that are no table elsewhere and that nobody else translates to
    unless they stay in use. *)
Definition harmless s (v : Z) (m' : mmu) (p : Z) : Prop :=
  pg_refcnt (mc_pages s) !! p = Some 0 ∨
  ∀ w mw, w ≠ v → space_mmu s w = Some mw → not_table mw p ∧
    ((∃ n, n ≠ 0 ∧ pg_refcnt (m_pages m') !! p = Some n) ∨
     ∀ va, in_range mw va → translate mw va ≠ Some (page_paddr p)).

Lemma mmu_step s v m m' l :
  sane s → space_mmu s v = Some m → pmap_ok m' → range_wf m' → touches l m m' →
  (∀ p, p ∈ l → harmless s v m' p) →
  (∀ va pa, in_range m va → translate m' va = Some pa →
     ∃ p n, pa = page_paddr p ∧ pg_refcnt (m_pages m') !! p = Some n ∧ n ≠ 0 ∧ not_table m' p ∧
       ∀ w mw, w ≠ v → space_mmu s w = Some mw → not_table mw p) →
  (∀ x a, space_vm s v = Some x → a mod 8192 = 0 → status x a false → translate m' a = None) →
  sane (put_mmu v m' s) ∧ others_same v s (put_mmu v m' s).
Proof.
  intros S Hm H' Hw' T Hl Hmap Hfree.
  destruct (space_mmu_shared s v m Hm) as (Ep&Ec&Ea). destruct (to_cpu _ _ _ T) as [Tc Ta].
  destruct (mi_pmap s S v m Hm) as [Hok Hw]. pose proof (space_mmu_spaces s v m Hm) as Hsp.
  assert (∀ va, in_range m' va ↔ in_range m va) as Hrr
    by (intros va; unfold in_range; by destruct (to_range _ _ _ T) as [-> ->]).
  assert (∀ w mw, w ≠ v → space_mmu s w = Some mw →
    pmap_ok (set_pages (m_pages m') mw) ∧
    (∀ q, node (set_pages (m_pages m') mw) q = node mw q) ∧
    (∀ va, translate (set_pages (m_pages m') mw) va = translate mw va)) as Hother.
  { intros w mw Hne Hmw. apply (touches_other s v w m m' mw l); try done.
    intros p Hp. destruct (Hl p Hp) as [|Hh]; [by left|right]. by apply (Hh w mw). }
  assert (∀ w mw, space_mmu (put_mmu v m' s) w = Some mw →
    (w = v ∧ mw = m') ∨ w ≠ v ∧ ∃ m0, space_mmu s w = Some m0 ∧ mw = set_pages (m_pages m') m0)
    as Hinvert.
  { intros w mw. destruct (decide (w = v)) as [->|Hne].
    - rewrite space_mmu_put_mmu by done. intros [= <-]. by left.
    - rewrite space_mmu_put_mmu_ne by (done || congruence).
      intros (m0&Hm0&->)%fmap_Some. right. split; [done|]. by exists m0. }
  (* a page in use that is no table of [v] does not become one *)
  assert (∀ p n, n ≠ 0 → pg_refcnt (mc_pages s) !! p = Some n → not_table m p → not_table m' p) as Hstay.
  { intros p n Hn Hp Hnt q x Hx. destruct (to_new _ _ _ T q x Hx) as [Ho|(p0&Hp0&Hr0&->)]; [by apply (Hnt q)|].
    intros Heq. apply (MAP_paddr_inj m p0 p Hok) in Heq as ->.
    - rewrite Ep in Hr0. congruence.
    - by apply elem_of_dom_2 in Hr0.
    - rewrite Ep. by apply elem_of_dom_2 in Hp. }
  split; [split|].
  - intros w x. rewrite space_vm_put_mmu. apply (mi_vm s S).
  - apply (mi_pool s S).
  - intros w mw [[-> ->]|(Hne&m0&Hm0&->)]%Hinvert; [done|].
    split; [by destruct (Hother w m0 Hne Hm0)|]. apply pages_change_range. by apply (mi_pmap s S w).
  - intros w w' mw mw' q q' t Hww [[-> ->]|(Hne&m0&Hm0&->)]%Hinvert
      [[-> ->]|(Hne'&m0'&Hm0'&->)]%Hinvert; [done|..].
    + destruct (Hother w' m0' Hne' Hm0') as (_&Hn&_). rewrite Hn. intros Hx Hx'.
      destruct (to_new _ _ _ T q t Hx) as [Ho|(p&_&Hr&->)].
      * by apply (mi_apart s S v w' m m0' q q' t Hww Hm Hm0' Ho).
      * destruct (mi_pmap s S w' m0' Hm0') as [Hok0 _].
        destruct (space_mmu_shared s w' m0' Hm0') as (E0&_).
        apply (free_not_table m0' p Hok0) in Hx'; [done|]. by rewrite E0, <-Ep.
    + destruct (Hother w m0 Hne Hm0) as (_&Hn&_). rewrite Hn. intros Hx Hx'.
      destruct (to_new _ _ _ T q' t Hx') as [Ho|(p&_&Hr&->)].
      * by apply (mi_apart s S w v m0 m q q' t Hww Hm0 Hm Hx).
      * destruct (mi_pmap s S w m0 Hm0) as [Hok0 _].
        destruct (space_mmu_shared s w m0 Hm0) as (E0&_).
        apply (free_not_table m0 p Hok0) in Hx; [done|]. by rewrite E0, <-Ep.
    + destruct (Hother w m0 Hne Hm0) as (_&Hn&_), (Hother w' m0' Hne' Hm0') as (_&Hn'&_).
      rewrite Hn, Hn'. apply (mi_apart s S w w' m0 m0' q q' t Hww Hm0 Hm0').
  - intros w mw va pa [[-> ->]|(Hne&m0&Hm0&->)]%Hinvert Hr Ht.
    + destruct (Hmap va pa ltac:(by apply Hrr) Ht) as (p&n&E&Hp&Hn&Hnt&Hnt'). exists p, n.
      split_and!; try done. intros w' mw' [[-> ->]|(Hne'&m0'&Hm0'&->)]%Hinvert; [done|].
      intros q x. destruct (Hother w' m0' Hne' Hm0') as (_&->&_). by apply (Hnt' w' m0').
    + destruct (Hother w m0 Hne Hm0) as (_&_&Htr). rewrite Htr in Ht.
      destruct (mi_mapped s S w m0 va pa Hm0 Hr Ht) as (p&n&E&Hp&Hn&Hnt).
      assert (∃ n', pg_refcnt (m_pages m') !! p = Some n' ∧ n' ≠ 0) as (n'&Hp'&Hn').
      { destruct (decide (p ∈ l)) as [Hpl|Hpl].
        - destruct (Hl p Hpl) as [H0|Hh]; [congruence|].
          destruct (Hh w m0 Hne Hm0) as [_ [(n'&?&?)|Hno]]; [by exists n'|].
          subst pa. by destruct (Hno va Hr).
        - exists n. by rewrite (to_refcnt _ _ _ T p Hpl), Ep. }
      exists p, n'. split_and!; try done.
      intros w' mw' [[-> ->]|(Hne'&m0'&Hm0'&->)]%Hinvert.
      * apply (Hstay p n Hn Hp). by apply (Hnt v).
      * intros q x. destruct (Hother w' m0' Hne' Hm0') as (_&->&_). by apply (Hnt w' m0').
  - intros w x mw a. rewrite space_vm_put_mmu. intros Hx [[-> ->]|(Hne&m0&Hm0&->)]%Hinvert Ha Hst.
    + by apply (Hfree x a).
    + destruct (Hother w m0 Hne Hm0) as (_&_&->). by apply (mi_free s S w x).
  - intros w x mw a b. rewrite space_vm_put_mmu. intros Hx [[-> ->]|(Hne&m0&Hm0&->)]%Hinvert Ha Hst.
    + apply Hrr. by apply (mi_span s S v x m a b).
    + by apply (mi_span s S w x m0 a b).
  - apply (ok_pages m' H').
  - destruct (mi_covered s S) as [bases [Hb Hc]]. exists bases. unfold covered. cbn.
    rewrite (to_tree _ _ _ T), (to_dom _ _ _ T), Ep. done.
  - intros p. cbn. rewrite (to_dom _ _ _ T), Ep. apply (mi_paddr s S).
  - intros w Hne. rewrite space_vm_put_mmu, space_mmu_put_mmu_ne by (done || congruence).
    split; [done|]. destruct (space_mmu s w) as [mw|] eqn:Hmw; constructor. split; [done|].
    apply (Hother w mw Hne Hmw).
Qed.
End sane.

(** * Setting up *)

Lemma critical_enter_counts c :
  startup_early c = false → 0 ≤ critical_count c < 2 ^ 32 - 1 →
  ∃ c', cpu_critical_enter c = Done tt c' ∧ startup_early c' = false ∧
    critical_count c' = critical_count c + 1.
Proof.
  destruct c as [se cc cs ir]. cbn [startup_early critical_count]. intros -> Hc.
  unfold cpu_critical_enter, bind, get, assert_, put. cbn [startup_early critical_count negb].
  destruct (Z.eqb_spec cc 0) as [->|Hne]; [by eexists|]. cbn [critical_count].
  rewrite u32_small, (proj2 (Z.ltb_lt 0 (cc + 1))) by lia. by eexists.
Qed.

Lemma critical_exit_counts c :
  startup_early c = false → 0 < critical_count c < 2 ^ 32 →
  ∃ c', cpu_critical_exit c = Done tt c' ∧ startup_early c' = false ∧
    critical_count c' = critical_count c - 1.
Proof.
  destruct c as [se cc cs ir]. cbn [startup_early critical_count]. intros -> Hc.
  unfold cpu_critical_exit, bind, get, assert_, put. cbn [startup_early critical_count negb].
  rewrite (proj2 (Z.ltb_lt 0 cc)) by lia.
  destruct (Z.eqb_spec cc 1) as [->|Hne]; [by eexists|].
  cbn. rewrite u32_small by lia. by eexists.
Qed.

(** An address no table index of which is set: the start of a pmap. *)
Definition table_aligned (base : Z) : Prop :=
  pmap_index0 base = 0 ∧ pmap_index1 base = 0 ∧ pmap_index_pte base = 0.

Lemma pmap_pinit_ok whoami present base end_ m :
  0 ≤ whoami < MAXCPUS → asid_ready m → table_aligned base →
  ∃ m', pmap_pinit whoami false present base end_ m = Done tt m' ∧
    m_pages m' = m_pages m ∧ startup_early (m_cpu m') = false ∧
    critical_count (m_cpu m') = critical_count (m_cpu m) ∧
    PMAP_ASID_FIRST ≤ m_asidnext m' ≤ PMAP_ASID_MAX ∧
    pm_level0 (m_pmap m') = replicate (Z.to_nat NL0PMAP) 0 ∧
    pm_base (m_pmap m') = base ∧ pm_end (m_pmap m') = end_.
Proof.
  intros Hw Ha (H0&H1&Hp). unfold pmap_pinit, modify. unfold bind at 1.
  set (m1 := set_pmap _ m). assert (asid_ready m1) as Ha1 by exact Ha.
  destruct (alloc_asid_ok whoami Hw m1 Ha1) as (m2&Hr&_&(He&_&Hn&_)&_&Hpg&Hc).
  unfold bind at 1. rewrite Hr, H0, H1, Hp. unfold assert_, bind, ret. rewrite Z.eqb_refl.
  eexists. split; [reflexivity|]. cbn [m_pages m_cpu m_asidnext m_pmap set_pmap]. split_and!; try done; apply Hn.
Qed.

(** A pmap without tables translates nothing. *)
Lemma empty_translate m va :
  pm_level0 (m_pmap m) = replicate (Z.to_nat NL0PMAP) 0 →
  (∀ q, node m q = None) ∧ translate m va = None.
Proof.
  intros Hl. assert (∀ i, nz (pm_level0 (m_pmap m) !! i) = None) as H0.
  { intros i. rewrite Hl. destruct (replicate _ 0 !! i) as [x|] eqn:Hx; [|done].
    by apply lookup_replicate in Hx as [-> _]. }
  assert (∀ q, node m q = None) as Hn by (intros [i|i j]; unfold node; by rewrite H0).
  split; [done|]. unfold translate, pte_of. by rewrite Hn.
Qed.

Section setup_correct.
Context {Ob : Type} `{ObjPool Ob}.
Implicit Types (s : machine Ob) (m : mmu) (x : vm Ob).

(** A new address space whose ranges are free and whose pmap has no tables. *)
Lemma sane_add s s' v x m :
  sane s → mc_spaces s !! v = None → mc_pages s' = mc_pages s →
  (∀ w, w ≠ v → mc_spaces s' !! w = mc_spaces s !! w) →
  space_vm s' v = Some x → space_mmu s' v = Some m →
  (∀ d, op_live (mc_index_pool s) d → op_live (mc_index_pool s') d) →
  inv x → vm_lock x = 0 → range_wf m → pm_level0 (m_pmap m) = replicate (Z.to_nat NL0PMAP) 0 →
  (∀ a b, a mod 8192 = 0 → status x a b → in_range m a) →
  sane s' ∧ others_same v s s'.
Proof.
  intros S Hv Ep Es Hx Hm Hg Hi Hl Hw He Hspan.
  pose proof Hi as (_&_&_&_&_&Hop). rewrite (space_vm_shared s' v x Hx) in Hop.
  destruct (space_mmu_shared s' v m Hm) as (Epm&_).
  assert (∀ q, node m q = None) as Hn by (intros q; by apply (empty_translate m 0)).
  assert (∀ va, translate m va = None) as Ht by (intros va; by apply empty_translate).
  assert (frames_ok (mc_pages s)) as Hfr.
  { destruct (mi_covered s S) as [bases Hc]. intros p q. by apply (covered_paddr_inj _ bases). }
  assert (∀ w y, w ≠ v → space_vm s' w = Some y →
    ∃ y0, space_vm s w = Some y0 ∧ y = set_pool (mc_index_pool s') y0) as Hvm.
  { intros w y Hne. unfold space_vm. rewrite Es by done. destruct (mc_spaces s !! w) as [sp|]; [|done].
    cbn. intros [= <-]. by eexists. }
  assert (∀ w mw, w ≠ v → space_mmu s' w = Some mw → ∃ m0, space_mmu s w = Some m0 ∧
    mw = mk_mmu (m_pages m0) (m_pmap m0) (mc_cpu s') (mc_asidnext s') (m_shootdown m0)) as Hmm.
  { intros w mw Hne. unfold space_mmu. rewrite Es by done.
    destruct (mc_spaces s !! w) as [sp|]; [|done]. cbn. destruct (sp_pmap sp) as [pm|]; [|done]. cbn.
    intros [= <-]. eexists. split; [done|]. unfold mmu_of. cbn. by rewrite Ep. }
  assert (∀ m0 q, node (mk_mmu (m_pages m0) (m_pmap m0) (mc_cpu s') (mc_asidnext s')
    (m_shootdown m0)) q = node m0 q) as Hnode by (by intros m0 [|]).
  assert (∀ m0 va, translate (mk_mmu (m_pages m0) (m_pmap m0) (mc_cpu s') (mc_asidnext s')
    (m_shootdown m0)) va = translate m0 va) as Htr by done.
  assert (∀ m0, pmap_ok m0 → pmap_ok (mk_mmu (m_pages m0) (m_pmap m0) (mc_cpu s') (mc_asidnext s')
    (m_shootdown m0))) as Hokk.
  { intros m0 [H1 H2 H3 H4 H5]. by split. }
  split; [split|].
  - intros w y Hy. destruct (decide (w = v)) as [->|Hne].
    { rewrite Hx in Hy. by injection Hy as <-. }
    destruct (Hvm w y Hne Hy) as (y0&Hy0&->). destruct (mi_vm s S w y0 Hy0) as [(I1&I2&I3&I4&I5&_) Hl0].
    split; [|done]. split_and!; try done. intros i Hri. destruct (I2 i Hri) as [Hr Hlv].
    split; [done|]. cbn. apply Hg. by rewrite <-(space_vm_shared s w y0 Hy0).
  - done.
  - intros w mw Hmw. destruct (decide (w = v)) as [->|Hne].
    { rewrite Hm in Hmw. injection Hmw as <-. split; [|done].
      apply empty_pmap_ok; [rewrite Epm, Ep; apply (mi_sound s S)|by rewrite Epm, Ep|done]. }
    destruct (Hmm w mw Hne Hmw) as (m0&Hm0&->). destruct (mi_pmap s S w m0 Hm0) as [Hok Hwf].
    split; [by apply Hokk|]. by destruct Hwf.
  - intros w w' mw mw' q q' t Hww Hmw Hmw'.
    destruct (decide (w = v)) as [->|Hne]; [rewrite Hm in Hmw; injection Hmw as <-; by rewrite Hn|].
    destruct (decide (w' = v)) as [->|Hne']; [rewrite Hm in Hmw'; injection Hmw' as <-; by rewrite Hn|].
    destruct (Hmm w mw Hne Hmw) as (m0&Hm0&->), (Hmm w' mw' Hne' Hmw') as (m0'&Hm0'&->).
    rewrite !Hnode. apply (mi_apart s S w w'); done.
  - intros w mw va pa Hmw Hr Htw.
    destruct (decide (w = v)) as [->|Hne]; [rewrite Hm in Hmw; injection Hmw as <-; by rewrite Ht in Htw|].
    destruct (Hmm w mw Hne Hmw) as (m0&Hm0&->). rewrite Htr in Htw.
    destruct (mi_mapped s S w m0 va pa Hm0 Hr Htw) as (p&n&E1&E2&E3&Hnt). rewrite Ep.
    exists p, n. split_and!; try done. intros w' mw' Hmw' q y.
    destruct (decide (w' = v)) as [->|Hne']; [rewrite Hm in Hmw'; injection Hmw' as <-; by rewrite Hn|].
    destruct (Hmm w' mw' Hne' Hmw') as (m0'&Hm0'&->). rewrite Hnode. by apply (Hnt w').
  - intros w y mw a Hy Hmw Ha Hst.
    destruct (decide (w = v)) as [->|Hne]; [rewrite Hm in Hmw; injection Hmw as <-; by rewrite Ht|].
    destruct (Hmm w mw Hne Hmw) as (m0&Hm0&->), (Hvm w y Hne Hy) as (y0&Hy0&->).
    rewrite Htr. by apply (mi_free s S w y0).
  - intros w y mw a b Hy Hmw Ha Hst. destruct (decide (w = v)) as [->|Hne].
    { rewrite Hm in Hmw. injection Hmw as <-. rewrite Hx in Hy. injection Hy as <-. by apply (Hspan a b). }
    destruct (Hmm w mw Hne Hmw) as (m0&Hm0&->), (Hvm w y Hne Hy) as (y0&Hy0&->).
    by apply (mi_span s S w y0 m0 a b).
  - rewrite Ep. apply (mi_sound s S).
  - rewrite Ep. apply (mi_covered s S).
  - intros p. rewrite Ep. apply (mi_paddr s S).
  - intros w Hne. split.
    + unfold space_vm. rewrite Es by done. destruct (mc_spaces s !! w); by constructor.
    + unfold space_mmu. rewrite Es by done. destruct (mc_spaces s !! w) as [sp|]; [|constructor]. cbn.
      destruct (sp_pmap sp); [|constructor]. cbn. constructor. unfold mmu_of. by rewrite Ep.
Qed.

(** What [vm_setup] relies on: the CPU is past early startup, the pools of
    address spaces and pmaps are sound, and the address spaces so far are
    [kernel_vm] and objects of the pool, where [kernel_vm] is not. *)
Record setup_ready (kernel_vm whoami : Z) (recycled : pmap) s : Prop := {
  su_cpu : startup_early (mc_cpu s) = false ∧ 0 ≤ critical_count (mc_cpu s) < 2 ^ 32 - 2;
  su_asid : PMAP_ASID_FIRST ≤ mc_asidnext s ≤ PMAP_ASID_MAX;
  su_whoami : 0 ≤ whoami < MAXCPUS;
  su_recycled : length (pm_asid recycled) = Z.to_nat MAXCPUS;
  su_vm_pool : op_inv (mc_vm_pool s);
  su_pmap_pool : op_inv (mc_pmap_pool s);
  su_live v : is_Some (mc_spaces s !! v) → v = kernel_vm ∨ op_live (mc_vm_pool s) v;
  su_static o v o' : op_inv o → op_alloc o = Done v o' → v ≠ kernel_vm
}.

(** The user or kernel addresses a pmap can be for. *)
Record span_ok (base end_ : Z) : Prop := {
  sp_aligned : table_aligned base ∧ base mod 8192 = 0;
  sp_order : 0 ≤ base ∧ base + 8192 < end_;
  sp_size : end_ ≤ base + 2 ^ 40 ∧ end_ + 16384 < 2 ^ 64;
  sp_direct : end_ ≤ XKPHYS_BASE ∨ XKPHYS_END < base
}.

(** The address space without its ranges, locked, as [pmap_pinit] leaves it. *)
Lemma setup_pmap_ok kernel_vm whoami present recycled base end_ s v o :
  setup_ready kernel_vm whoami recycled s → op_alloc (mc_vm_pool s) = Done v o →
  span_ok base end_ →
  let s0 := mk_machine (mc_pages s) (mc_cpu s) (mc_asidnext s) (mc_index_pool s) o (mc_pmap_pool s)
              (<[v := mk_space 0 Leaf Leaf ∅ None []]> (mc_spaces s)) in
  mc_spaces s !! v = None ∧ v ≠ kernel_vm ∧
  ∃ s1, vm_lock_enter v s0 = Done tt s1 ∧
    wp (pmap_new kernel_vm whoami present recycled v base end_)
    (λ _ s', mc_pages s' = mc_pages s ∧ mc_index_pool s' = mc_index_pool s ∧
       startup_early (mc_cpu s') = false ∧ 0 < critical_count (mc_cpu s') < 2 ^ 32 ∧
       ∃ pm l, mc_spaces s' = <[v := mk_space 1 Leaf Leaf ∅ (Some pm) l]> (mc_spaces s) ∧
         pm_level0 pm = replicate (Z.to_nat NL0PMAP) 0 ∧ pm_base pm = base ∧ pm_end pm = end_)
    pool_stop s1.
Proof.
  intros R Hal Sp s0. destruct (op_alloc_ok _ _ _ (su_vm_pool _ _ _ _ R) Hal) as (_&Hnew&_).
  pose proof (su_static _ _ _ _ R _ _ _ (su_vm_pool _ _ _ _ R) Hal) as Hv.
  assert (mc_spaces s !! v = None) as Hnone.
  { apply eq_None_not_Some. intros [?|?]%(su_live _ _ _ _ R); [done|by apply Hnew]. }
  split; [done|]. split; [done|].
  destruct (su_cpu _ _ _ _ R) as [He Hc].
  destruct (critical_enter_counts (mc_cpu s) He) as (c1&Hen&He1&Hc1); [lia|].
  eexists. split.
  { unfold vm_lock_enter, bind, on_mc_cpu, zoom. cbn [mc_cpu s0]. rewrite Hen.
    unfold on_vm, space_vm. cbn. rewrite lookup_insert_eq. cbn. reflexivity. }
  unfold pmap_new. rewrite wp_bind, wp_zoom. unfold wp at 1. cbn.
  destruct (op_alloc (mc_pmap_pool s)) as [pm o'|w] eqn:Hal';
    [|exists (mc_pmap_pool s); split; [apply (su_pmap_pool _ _ _ _ R)|done]].
  rewrite wp_bind. unfold set_vm_pmap, set_space. rewrite wp_bind, wp_get, wp_bind, wp_deref. cbn.
  rewrite lookup_alter_eq, lookup_insert_eq. cbn. rewrite wp_bind.
  unfold wp at 1, on_mmu. match goal with |- context [space_mmu ?t v] => set (s2 := t) end.
  set (m0 := mk_mmu (mc_pages s) recycled c1 (mc_asidnext s) []).
  assert (space_mmu s2 v = Some m0) as ->
    by (unfold s2, space_mmu; cbn; by rewrite lookup_insert_eq).
  assert (is_kernel kernel_vm v = false) as -> by (by apply Z.eqb_neq).
  destruct (pmap_pinit_ok whoami present base end_ m0) as
    (m'&Hpi&Hpg&He'&Hc'&_&Hl0&Hb&Hend); [apply R| |apply (sp_aligned _ _ Sp)|].
  { split; [done|]. cbn. split; [lia|]. split; [apply (su_asid _ _ _ _ R)|apply (su_recycled _ _ _ _ R)]. }
  rewrite Hpi, wp_ret. cbn. split; [done|]. split; [done|]. split; [done|]. cbn in Hc'. split; [lia|].
  exists (m_pmap m'), (m_shootdown m'). split; [|done]. apply map_eq. intros w.
  destruct (decide (w = v)) as [->|Hne].
  - by rewrite lookup_alter_eq, !lookup_insert_eq.
  - by rewrite lookup_alter_ne, !lookup_insert_ne, lookup_alter_ne, lookup_insert_ne by done.
Qed.

(** An address space of nothing but a lock and the pool. *)
Lemma bare_inv (o : Ob) n : op_inv o → inv (mk_vm n Leaf Leaf ∅ o) ∧
  ∀ a b, ¬ status (mk_vm n Leaf Leaf ∅ o) a b.
Proof.
  intros Ho. assert (∀ i, ¬ rng (mk_vm n Leaf Leaf ∅ o) i) as Hno by (intros i Hi; by apply elem_of_nil in Hi).
  split; [split_and!|by intros a b (i&Hi%Hno&_)].
  - apply SSorted_nil.
  - intros i Hi. by apply Hno in Hi.
  - intros i j Hi. by apply Hno in Hi.
  - apply NoDup_nil_2.
  - intros i. split; [intros Hi; by apply elem_of_nil in Hi|intros [Hi _]; by apply Hno in Hi].
  - done.
Qed.

Lemma vm_setup_outcome kernel_vm whoami present recycled base end_ s :
  sane s → setup_ready kernel_vm whoami recycled s → span_ok base end_ →
  let top := base + PAGE_SIZE + PAGE_ROUNDUP (end_ - (base + PAGE_SIZE)) in
  wp (vm_setup kernel_vm whoami present recycled base end_)
    (λ r s', ∃ v x m, r = Ok v ∧ mc_spaces s !! v = None ∧ sane s' ∧
       space_vm s' v = Some x ∧ space_mmu s' v = Some m ∧
       (∀ a b, status x a b ↔ base + PAGE_SIZE ≤ a < top ∧ b = false) ∧
       (∀ va, in_range m va ↔ base ≤ va < end_) ∧ (∀ va, translate m va = None) ∧
       mc_pages s' = mc_pages s ∧ others_same v s s')
    pool_stop s.
Proof.
  intros S R Sp top. pose proof Sp as [[_ Hbal] [Hb0 Hbe] [Hspan Hend] Hdir].
  change PAGE_SIZE with 8192 in *.
  unfold vm_setup. rewrite wp_bind, wp_zoom. unfold wp at 1.
  destruct (op_alloc (mc_vm_pool s)) as [v o|w] eqn:Hal;
    [|exists (mc_vm_pool s); split; [apply (su_vm_pool _ _ _ _ R)|done]].
  destruct (setup_pmap_ok kernel_vm whoami present recycled base end_ s v o R Hal Sp)
    as (Hnone&Hv&s1&Hlock&Hnew).
  rewrite wp_bind. unfold vm_setup_space, set_space. rewrite wp_bind, wp_modify, wp_ret, wp_bind.
  unfold wp at 1. cbn [mc_pages mc_cpu mc_asidnext mc_index_pool mc_pmap_pool mc_spaces mc_vm_pool set_mc_vm_pool].
  rewrite Hlock, wp_bind. unfold pmap_init. rewrite wp_bind.
  eapply wp_mono; [exact Hnew| |done].
  intros pm s2 (Ep&Eo&He2&Hc2&pmp&l&Es&Hl0&Hpb&Hpe).
  rewrite wp_bind. set (x2 := mk_vm 1 Leaf Leaf ∅ (mc_index_pool s2)).
  assert (space_vm s2 v = Some x2) as Hx2 by (unfold space_vm; rewrite Es, lookup_insert_eq; done).
  apply (wp_on_vm s2 v x2 _ _ _ Hx2).
  destruct (bare_inv (mc_index_pool s2) 1) as [Hinv2 Hno2]; [rewrite Eo; apply (mi_pool s S)|].
  fold x2 in Hinv2, Hno2. change PAGE_SIZE with 8192. rewrite u64_small by lia.
  eapply wp_mono; [apply (vm_insert_range_outcome x2 (base + 8192) end_ Hinv2)| |done]; try done; try lia.
  { replace (base + 8192) with (base + 1 * 8192) by lia. by rewrite Z.mod_add. }
  { intros a _ (b&Hst). by apply (Hno2 a b). }
  intros r x3 (->&Hinv3&Hl3&Hst3&Hg3). rewrite wp_ret, wp_bind.
  (* releasing the lock *)
  assert (space_vm (put_vm v x3 s2) v = Some x3) as Hx3 by (apply space_vm_put_vm; by eapply space_vm_spaces).
  destruct (critical_exit_counts (mc_cpu s2) He2 Hc2) as (c3&Hex&_).
  unfold vm_lock_exit. rewrite wp_bind. unfold wp at 1, on_vm. rewrite Hx3.
  unfold VM_UNLOCK, bind at 1, get. rewrite Hl3. cbn [vm_lock x2 Z.eqb put].
  unfold on_mc_cpu. rewrite wp_zoom. unfold wp at 1. cbn [mc_cpu put_vm]. rewrite Hex, wp_ret.
  set (x4 := set_lock (1 - 1) x3).
  match goal with |- context [sane ?t] => set (s4 := t) end.
  set (m4 := mk_mmu (mc_pages s2) pmp c3 (mc_asidnext s2) l).
  assert (mc_spaces s4 !! v = Some (mk_space 0 (vm_ranges x3) (vm_index_free x3) (vmi_store x3) (Some pmp) l))
    as Hsp4 by (unfold s4; cbn; by rewrite !lookup_alter_eq, Es, lookup_insert_eq).
  assert (space_vm s4 v = Some x4) as Hx4 by (unfold space_vm; rewrite Hsp4; by destruct x3).
  assert (space_mmu s4 v = Some m4) as Hm4 by (unfold space_mmu; by rewrite Hsp4).
  assert (∀ va, in_range m4 va ↔ base ≤ va < end_) as Hr4
    by (intros va; unfold in_range; cbn; by rewrite Hpb, Hpe).
  assert (∀ a b, status x4 a b ↔ base + 8192 ≤ a < top ∧ b = false) as Hst4.
  { intros a b. unfold x4. rewrite status_lock, Hst3. split; [|by right].
    intros [Hs|?]; [by apply Hno2 in Hs|done]. }
  destruct (sane_add s s4 v x4 m4 S Hnone) as [S4 O4]; try done.
  - intros w Hne. unfold s4. cbn. rewrite !lookup_alter_ne, Es, lookup_insert_ne by done. done.
  - intros d Hd. unfold s4. cbn. apply Hg3. unfold x2. cbn. by rewrite Eo.
  - split; cbn; rewrite ?Hpb, ?Hpe; lia.
  - intros a b Ha Hs. apply Hr4. apply Hst4 in Hs as [Hs _].
    destruct (PAGE_ROUNDUP_spec (end_ - (base + 8192))) as [Hpr1 Hpr2]; [lia|lia|].
    unfold top in Hs. Z.to_euclidean_division_equations. lia.
  - exists v, x4, m4. split_and!; try done. intros va. by apply empty_translate.
Qed.

(** C25: [vm_setup] makes an address space that was not there: all its pages
    but the first are free, no address translates, and no other address space
    changes.  The lock it takes is released. *)
Theorem vm_setup_correct kernel_vm whoami present recycled base end_ s :
  sane s → setup_ready kernel_vm whoami recycled s → span_ok base end_ →
  let top := base + PAGE_SIZE + PAGE_ROUNDUP (end_ - (base + PAGE_SIZE)) in
  wp (vm_setup kernel_vm whoami present recycled base end_)
    (λ r s', ∃ v x m, r = Ok v ∧ mc_spaces s !! v = None ∧ sane s' ∧
       space_vm s' v = Some x ∧ space_mmu s' v = Some m ∧
       (∀ a b, status x a b ↔ base + PAGE_SIZE ≤ a < top ∧ b = false) ∧
       (∀ va, in_range m va ↔ base ≤ va < end_) ∧ (∀ va, translate m va = None) ∧
       mc_pages s' = mc_pages s ∧ others_same v s s')
    pool_stop s.
Proof. apply vm_setup_outcome. Qed.
End setup_correct.

(** * Example: the kernel's address space and a user's *)

Section no_spaces.
Context {Ob : Type} `{ObjPool Ob}.

(** Before there is any address space. *)
Lemma no_spaces_sane (s : machine Ob) bases :
  mc_spaces s = ∅ → op_inv (mc_index_pool s) → sound (mc_pages s) → covered (mc_pages s) bases →
  (∀ p, p ∈ dom (pg_refcnt (mc_pages s)) → page_paddr p < 2 ^ 36) → sane s.
Proof.
  intros Hs Ho Hp Hc Hpa.
  assert (∀ v, space_vm s v = None ∧ space_mmu s v = None) as Hno
    by (intros v; unfold space_vm, space_mmu; by rewrite Hs, lookup_empty).
  split; try done.
  - intros v x Hx. destruct (Hno v). congruence.
  - intros v m Hm. destruct (Hno v). congruence.
  - intros v w m m' q q' t _ Hm. destruct (Hno v). congruence.
  - intros v m va pa Hm. destruct (Hno v). congruence.
  - intros v x m a Hx. destruct (Hno v). congruence.
  - intros v x m a b Hx. destruct (Hno v). congruence.
  - by exists bases.
Qed.
End no_spaces.

(** [kernel_vm] is at address 0, which no pool hands out. *)
Definition bare_machine : machine (list Z * Z) :=
  mk_machine boot (mk_cpu false 0 false true) 1 ([], 1) ([], 0x100) ([], 0x200) ∅.
Definition empty_pmap (base end_ : Z) : pmap :=
  mk_pmap (replicate (Z.to_nat NL0PMAP) 0) base end_ 0 (replicate (Z.to_nat MAXCPUS) 0).
Definition kernel_machine : machine (list Z * Z) :=
  mk_machine boot (mk_cpu false 0 false true) 1 ([], 1) ([], 0x100) ([], 0x200)
    {[0 := mk_space 0 Leaf Leaf ∅ (Some (empty_pmap KERNEL_BASE KERNEL_END)) []]}.

Lemma kernel_machine_sane : sane kernel_machine.
Proof.
  assert (sane bare_machine) as S.
  { apply (no_spaces_sane _ [boot_base]); [done| |apply boot_ok|apply boot_ok|].
    - split; [done|]. intros x Hx. by apply elem_of_nil in Hx.
    - intros p Hp. destruct boot_ok as [_ [_ Hc]]. destruct (Hc p Hp) as (b&i&Hb&Hi&->).
      apply list_elem_of_singleton in Hb as ->. rewrite page_paddr_of; [|by vm_compute|done].
      change VM_PAGE_TREE_ENTRIES with 340 in Hi. unfold boot_base. lia. }
  set (o := ([], 1) : list Z * Z).
  destruct (bare_inv o 0) as [Hi Hno]; [split; [done|]; intros x Hx; by apply elem_of_nil in Hx|].
  apply (sane_add bare_machine kernel_machine 0 (mk_vm 0 Leaf Leaf ∅ o)
    (mk_mmu boot (empty_pmap KERNEL_BASE KERNEL_END) (mk_cpu false 0 false true) 1 [])); try done.
  - intros w Hw. unfold kernel_machine. cbn. by rewrite lookup_singleton_ne.
  - split; vm_compute; try done. by right.
  - intros a b _ Hs. by apply Hno in Hs.
Qed.

Definition user_setup : M (machine (list Z * Z)) (result Z) :=
  vm_setup 0 0 1 (empty_pmap 0 0) USER_BASE USER_END.
Definition user_machine : machine (list Z * Z) :=
  Eval vm_compute in outcome_state kernel_machine (user_setup kernel_machine).

Lemma user_setup_run : user_setup kernel_machine = Done (Ok 0x100) user_machine.
Proof. vm_compute. reflexivity. Qed.

Lemma vm_setup_correct_witness :
  ∃ v x m, user_setup kernel_machine = Done (Ok v) user_machine ∧ sane user_machine ∧
    space_vm user_machine v = Some x ∧ space_mmu user_machine v = Some m ∧
    (∀ a b, status x a b ↔ 0x2000 ≤ a < 0x10000000000 ∧ b = false) ∧
    (∀ va, translate m va = None).
Proof.
  assert (setup_ready 0 0 (empty_pmap 0 0) kernel_machine) as R.
  { split; try (by vm_compute).
    - split; [done|]. intros x Hx. by apply elem_of_nil in Hx.
    - split; [done|]. intros x Hx. by apply elem_of_nil in Hx.
    - intros v [sp Hsp]. left. unfold kernel_machine in Hsp. cbn in Hsp.
      by apply lookup_singleton_Some in Hsp as [<- _].
    - intros o v o' Ho Hal. destruct (op_alloc_ok o v o' Ho Hal) as (Ho'&_&Hl).
      assert (0 < v) by (apply (op_live_pos o' v Ho'), Hl; by right). lia. }
  assert (span_ok USER_BASE USER_END) as Sp by (split; [by vm_compute|by vm_compute|by vm_compute|by left]).
  pose proof (vm_setup_correct 0 0 1 (empty_pmap 0 0) USER_BASE USER_END kernel_machine
    kernel_machine_sane R Sp) as Hw.
  unfold wp in Hw. fold user_setup in Hw. rewrite user_setup_run in Hw.
  destruct Hw as (v&x&m&Hv&_&S&Hx&Hm&Hst&_&Ht&_). injection Hv as <-.
  exists 0x100, x, m. split; [apply user_setup_run|]. split; [exact S|]. split; [exact Hx|].
  split; [exact Hm|]. split; [exact Hst|exact Ht].
Defined.
