(* ===== verification/VmAlloc.v ===== *)
(** Virtual memory allocation ([mk/vm/vm_alloc.c], [mk/vm/vm_fault.c])

    The functions the rest of the kernel gets memory from: they claim
    addresses of an address space (VmIndex.v) and enter pages for them
    (VmPage.v, PmapTables.v).  The state is the one of VmSpace.v.

    The theorems are about the composition: what is allocated is mapped to
    pages that were free, each to its own, and no other address of any
    address space changes its translation; freeing undoes it; and memory wired
    into the kernel is the user's memory. *)

From S2P Require Import Prelude MachineInt Btree Spinlock Pool.
From S2P Require Import VmIndex VmPage Pmap PmapTables VmSpace.

Local Open Scope Z_scope.
Local Open Scope c_scope.

Definition VM_ALLOC_DEFAULT : Z := 0x00000000.
Definition VM_ALLOC_HIGH : Z := 0x00000001.

(** * The loops over the pages of a range *)

Fixpoint alloc_map_pages (kernel : bool) (n : nat) (vaddr o : Z) : M mmu unit :=
  match n with
  | O => ret tt
  | S n =>
      or_panic "page_alloc_map failed"
        (page_alloc_map kernel PAGE_FLAG_DEFAULT (u64 (vaddr + u64 (o * PAGE_SIZE)))) ;;;
      alloc_map_pages kernel n vaddr (o + 1)
  end.

Fixpoint free_map_pages (kernel : bool) (n : nat) (vaddr o : Z) : M mmu unit :=
  match n with
  | O => ret tt
  | S n =>
      or_panic "page_free_map failed"
        (page_free_map kernel (u64 (vaddr + u64 (o * PAGE_SIZE)))) ;;;
      free_map_pages kernel n vaddr (o + 1)
  end.

Section vm_alloc.
Context {Ob : Type} `{ObjPool Ob}.
Context (kernel_vm : Z).

Definition vm_alloc (v size : Z) (flags : Z) : M (machine Ob) (result Z) :=
  if is_kernel kernel_vm v && (size <? MAX_ALLOC_SIZE)
  then halt (Panic "allocation too small, use pool instead.")
  else
    let pages := PAGE_COUNT size in
    if is_kernel kernel_vm v && (pages =? 1)
    then on_mmu v (on_pages (page_alloc_direct (is_kernel kernel_vm v) PAGE_FLAG_DEFAULT))
    else
      vaddr <-? on_vm v (vm_alloc_address pages (flag_set flags VM_ALLOC_HIGH)) ;;
      on_mmu v (alloc_map_pages (is_kernel kernel_vm v) (Z.to_nat pages) vaddr 0) ;;;
      ret (Ok vaddr).

Definition vm_alloc_page (v : Z) : M (machine Ob) (result Z) :=
  if is_kernel kernel_vm v
  then on_mmu v (on_pages (page_alloc_direct (is_kernel kernel_vm v) PAGE_FLAG_DEFAULT))
  else
    vaddr <-? on_vm v (vm_alloc_address 1 false) ;;
    or_panic "page_alloc_map failed"
      (on_mmu v (page_alloc_map (is_kernel kernel_vm v) PAGE_FLAG_DEFAULT vaddr)) ;;;
    ret (Ok vaddr).

Definition vm_free (v size vaddr : Z) : M (machine Ob) (result unit) :=
  let pages := PAGE_COUNT size in
  if is_kernel kernel_vm v && (pages =? 1)
  then on_mmu v (page_free_direct (is_kernel kernel_vm v) vaddr)
  else
    on_mmu v (free_map_pages (is_kernel kernel_vm v) (Z.to_nat pages) vaddr 0) ;;;
    or_panic "failed to free address" (on_vm v (vm_free_address vaddr)) ;;;
    ret (Ok tt).

Definition vm_free_page (v vaddr : Z) : M (machine Ob) (result unit) :=
  vm_free v PAGE_SIZE vaddr ?;;
  ret (Ok tt).

(** * Wiring *)

(** The page of [vaddr], entered now if [fault] allows it. *)
Definition wire_page (v vaddr : Z) (fault : bool) : M (machine Ob) Z :=
  r <- on_mmu v (page_extract (is_kernel kernel_vm v) vaddr) ;;
  match r with
  | Ok page => ret page
  | Err e =>
      if fault && (e =? ERROR_NOT_FOUND) then
        page <- or_panic "page_alloc failed" (on_mc_pages (page_alloc PAGE_FLAG_ZERO)) ;;
        or_panic "page_map failed" (on_mmu v (page_map (is_kernel kernel_vm v) vaddr page)) ;;;
        ret page
      else halt (Panic "page_extract failed")
  end.

Fixpoint wire_pages (v : Z) (n : nat) (vaddr kvaddr o : Z) (fault : bool) : M (machine Ob) unit :=
  match n with
  | O => ret tt
  | S n =>
      page <- wire_page v (u64 (vaddr + u64 (o * PAGE_SIZE))) fault ;;
      or_panic "page_map (kernel_vm) failed"
        (on_mmu kernel_vm (page_map true (u64 (kvaddr + u64 (o * PAGE_SIZE))) page)) ;;;
      wire_pages v n vaddr kvaddr (o + 1) fault
  end.

Definition vm_wire (v uvaddr len : Z) (fault : bool) : M (machine Ob) (result (Z * Z)) :=
  let vaddr := PAGE_FLOOR uvaddr in
  let pages := PAGE_COUNT (u64 (u64 (uvaddr + len) - vaddr)) in
  if is_kernel kernel_vm v then halt (Panic "can't wire from kernel to kernel.")
  else if pages =? 1 then
    page <- wire_page v vaddr fault ;;
    kvaddr <- or_panic "page_map_direct failed"
                (on_mmu kernel_vm (on_pages (page_map_direct true page))) ;;
    ret (Ok (kvaddr, PAGE_OFFSET uvaddr))
  else
    kvaddr <- or_panic "vm_alloc_address failed"
                (on_vm kernel_vm (vm_alloc_address pages false)) ;;
    wire_pages v (Z.to_nat pages) vaddr kvaddr 0 fault ;;;
    ret (Ok (kvaddr, PAGE_OFFSET uvaddr)).

Fixpoint unwire_pages (n : nat) (kvaddr o : Z) : M mmu unit :=
  match n with
  | O => ret tt
  | S n =>
      let a := u64 (kvaddr + u64 (o * PAGE_SIZE)) in
      page <- or_panic "page_extract failed" (page_extract true a) ;;
      or_panic "page_unmap failed" (page_unmap a page) ;;;
      unwire_pages n kvaddr (o + 1)
  end.

Definition vm_unwire (v uvaddr len kvaddr : Z) : M (machine Ob) (result unit) :=
  let vaddr := PAGE_FLOOR uvaddr in
  let pages := PAGE_COUNT (u64 (u64 (uvaddr + len) - vaddr)) in
  if is_kernel kernel_vm v then halt (Panic "can't unwire from kernel to kernel.")
  else if pages =? 1 then
    page <- or_panic "page_extract failed"
              (on_mmu v (page_extract (is_kernel kernel_vm v) vaddr)) ;;
    or_panic "page_map_direct failed"
      (on_mmu kernel_vm (on_pages (page_unmap_direct true page kvaddr))) ;;;
    ret (Ok tt)
  else
    on_mmu kernel_vm (unwire_pages (Z.to_nat pages) kvaddr 0) ;;;
    or_panic "failed to free address" (on_vm kernel_vm (vm_free_address kvaddr)) ;;;
    ret (Ok tt).

Definition vm_alloc_range_wire (v begin end_ : Z) : M (machine Ob) (result (Z * Z)) :=
  if is_kernel kernel_vm v then halt (Panic "can't wire from kernel to kernel.")
  else
    on_vm v (vm_alloc_range begin end_) ?;;
    p <- or_panic "vm_wire failed" (vm_wire v begin (u64 (end_ - begin)) true) ;;
    ret (Ok p).

(** [vm_fault_stack]; [v] is the address space of the thread's task. *)
Definition vm_fault_stack (v vaddr : Z) : M (machine Ob) (result unit) :=
  let vaddr := PAGE_FLOOR vaddr in
  on_mmu v (page_alloc_map (is_kernel kernel_vm v) PAGE_FLAG_ZERO vaddr) ?;;
  ret (Ok tt).
End vm_alloc.

(** * Counting free pages *)

(** Every page that is not touched and was free still is. *)
Lemma free_count l m m' :
  pmap_ok m → pmap_ok m' → touches l m m' →
  (length (page_free_queue (m_pages m)) ≤
     length (page_free_queue (m_pages m')) + length l)%nat.
Proof.
  intros H H' T. destruct (ok_pages m H) as ((Hnd&Hf&_)&_), (ok_pages m' H') as ((_&Hf'&_)&_).
  apply NoDup_app in Hnd as (Hnd&_). rewrite <-length_app.
  apply submseteq_length, NoDup_submseteq; [done|]. intros p Hp%Hf. rewrite elem_of_app, Hf'.
  destruct (decide (p ∈ l)) as [|Hpl]; [by right|left]. by rewrite (to_refcnt _ _ _ T p Hpl).
Qed.

(** * A range of pages *)

(** The page of the list [ps], mapped from [b] on, at [va]. *)
Definition run_page (b : Z) (ps : list Z) (va : Z) : option Z :=
  let i := va / 8192 - b / 8192 in if decide (0 ≤ i) then ps !! Z.to_nat i else None.

Lemma run_page_nil b va : run_page b [] va = None.
Proof. unfold run_page. case_decide; [apply lookup_nil|done]. Qed.

Lemma run_page_cons b p ps va :
  run_page b (p :: ps) va =
  if decide (va / 8192 = b / 8192) then Some p else run_page (b + 8192) ps va.
Proof.
  unfold run_page. replace (b + 8192) with (b + 1 * 8192) by lia. rewrite Z.div_add by lia.
  destruct (decide (va / 8192 = b / 8192)) as [->|Hne].
  - rewrite Z.sub_diag. by rewrite decide_True by lia.
  - destruct (decide (0 ≤ va / 8192 - b / 8192)).
    + rewrite decide_True by lia.
      replace (Z.to_nat (va / 8192 - b / 8192)) with (S (Z.to_nat (va / 8192 - (b / 8192 + 1)))) by lia.
      done.
    + by rewrite decide_False by lia.
Qed.

Lemma run_page_elem b ps va p : run_page b ps va = Some p → p ∈ ps.
Proof. unfold run_page. case_decide; [apply list_elem_of_lookup_2|done]. Qed.

Lemma run_page_inside b ps va :
  b mod 8192 = 0 → is_Some (run_page b ps va) ↔ b ≤ va < b + 8192 * Z.of_nat (length ps).
Proof.
  intros Hb. apply Z.div_exact in Hb; [|lia]. unfold run_page. case_decide as Hi.
  - rewrite lookup_lt_is_Some. Z.to_euclidean_division_equations. lia.
  - split; [by intros [? ?]|]. intros ?. exfalso. Z.to_euclidean_division_equations. lia.
Qed.

(** * Allocating and freeing mapped pages *)

(** What [page_alloc_map] and the loop of [vm_alloc] do on success: the free
    pages [ps] are mapped from [b] on, with two references each, at the cost of at most
    three free pages each. *)
Record allocates (b : Z) (ps : list Z) (m m' : mmu) : Prop := {
  al_ok : pmap_ok m' ∧ range_wf m';
  al_touches : ∃ l, touches l m m' ∧ (length l ≤ 3 * length ps)%nat ∧ ps ⊆ l ∧
    ∀ q, q ∈ l → pg_refcnt (m_pages m) !! q = Some 0;
  al_pages p : p ∈ ps → pg_refcnt (m_pages m') !! p = Some 2 ∧ not_table m' p;
  al_nodup : NoDup ps;
  al_translate va : in_range m va →
    translate m' va = match run_page b ps va with
                      | Some p => Some (page_paddr p)
                      | None => translate m va
                      end
}.

Lemma touches_in_range l m m' va : touches l m m' → in_range m' va ↔ in_range m va.
Proof. intros T. unfold in_range. by destruct (to_range _ _ _ T) as [-> ->]. Qed.

(** A page in use keeps its count when only free pages are touched. *)
Lemma touches_used l m m' p n :
  touches l m m' → (∀ q, q ∈ l → pg_refcnt (m_pages m) !! q = Some 0) →
  n ≠ 0 → pg_refcnt (m_pages m) !! p = Some n → pg_refcnt (m_pages m') !! p = Some n.
Proof.
  intros T Hl Hn Hp. rewrite (to_refcnt _ _ _ T); [done|]. intros Hpl%Hl. congruence.
Qed.

Lemma page_alloc_map_outcome m kernel flags va p a b f :
  pmap_ok m → range_wf m → in_range m va → va mod 8192 = 0 → translate m va = None →
  page_free_queue (m_pages m) = p :: a :: b :: f → page_paddr p < 2 ^ 36 →
  ∃ ps m', page_alloc flags (m_pages m) = Done (Ok p) ps ∧
    page_map kernel va p (set_pages ps m) = Done (Ok tt) m' ∧
    page_alloc_map kernel flags va m = Done (Ok tt) m' ∧ allocates va [p] m m'.
Proof.
  intros H Hw Hr Hal Htr Hf Hpa.
  pose proof (ok_pages m H) as ((Hnd&Hfq&_)&_). apply NoDup_app in Hnd as (Hnd&_).
  rewrite Hf in Hnd. apply NoDup_cons in Hnd as [Hp Hnd]. apply NoDup_cons in Hnd as [Hab _].
  assert (p ≠ a ∧ p ≠ b ∧ a ≠ b) as (Hna&Hnb&Hne) by (split_and!; set_solver).
  assert (∀ q, q ∈ [p; a; b] → pg_refcnt (m_pages m) !! q = Some 0) as H0.
  { intros q Hq. apply Hfq. rewrite Hf. set_solver. }
  destruct (page_alloc_pmap m p _ flags H Hf) as (ps&Hal0&H1&Hnt0&Hrc0&Ht0&T0&Htr0).
  set (m1 := set_pages ps m) in *.
  assert (∀ q, q ≠ p → pg_refcnt (m_pages m1) !! q = pg_refcnt (m_pages m) !! q) as Hrc1.
  { intros q Hq. unfold m1. cbn [m_pages set_pages]. by rewrite Hrc0, lookup_insert_ne. }
  assert (pg_refcnt (m_pages m1) !! p = Some 1) as Hp1.
  { unfold m1. cbn [m_pages set_pages]. rewrite Hrc0. apply lookup_insert_eq. }
  destruct (page_map_outcome m1 kernel va p 1 a b) as
    (m2&Hm&H2&Hw2&_&_&Hp2&Hnt2&_&_&Htr2&l&Hl&Hlf&T2&_); try done; try lia.
  { by apply pages_change_range. } { by rewrite Htr0. }
  { rewrite Hrc1 by done. apply H0. set_solver. } { rewrite Hrc1 by done. apply H0. set_solver. }
  exists ps, m2. split.
  { revert Hal0. unfold on_pages, zoom. destruct (page_alloc flags (m_pages m)) as [r ps'|w]; [|done].
    by intros [= -> ->]. }
  split; [done|]. split; [unfold page_alloc_map, bind_ok, bind; rewrite Hal0; fold m1; by rewrite Hm|].
  split; [done| | |apply NoDup_singleton|].
  - exists (p :: l). split; [|split; [simpl; lia|split; [set_solver|]]].
    + apply (touches_weaken ([p] ++ p :: l)); [set_solver|].
      apply (touches_trans [p] _ m m1); [done..|].
      intros q ->%list_elem_of_singleton. intros Hc. rewrite Hp1 in Hc. by injection Hc.
    + intros q [->|Hq]%elem_of_cons; [apply H0; set_solver|].
      destruct (decide (q = p)) as [->|Hqp]; [apply H0; set_solver|]. rewrite <-Hrc1 by done. by apply Hlf.
  - by intros q ->%list_elem_of_singleton.
  - intros va' Hr'. rewrite run_page_cons, run_page_nil, (Htr2 va' Hr'), Htr0.
    by destruct (decide _).
Qed.

Lemma allocates_cons b p ps m m1 m2 :
  pmap_ok m → allocates b [p] m m1 → allocates (b + 8192) ps m1 m2 → allocates b (p :: ps) m m2.
Proof.
  intros H [[H1 Hw1] (l&T&Hl&Hpl&Hl0) Hp _ Htr] [[H2 Hw2] (l'&T'&Hl'&Hpl'&Hl0') Hps Hnd Htr'].
  assert (p ∈ l) as Hpin by (apply Hpl; by left).
  destruct (Hp p ltac:(by left)) as [Hp2 Hpn].
  assert (p ∉ l') as Hpl0 by (intros Hc%Hl0'; congruence).
  assert (∀ q, q ∈ l' → pg_refcnt (m_pages m) !! q = Some 0) as Hl0m.
  { intros q Hq%Hl0'. destruct (decide (q ∈ l)) as [Hin|Hout]; [by apply Hl0|].
    by rewrite <-(to_refcnt _ _ _ T q Hout). }
  split; [done| | | |].
  - exists (l ++ l'). split; [|split; [|split]].
    + apply (touches_trans l l' m m1 m2 H T T'). intros q Hq _. left. by apply Hl0.
    + rewrite length_app. simpl in *. lia.
    + set_solver.
    + intros q [Hq|Hq]%elem_of_app; [by apply Hl0|by apply Hl0m].
  - intros q [->|Hq]%elem_of_cons; [|by apply Hps]. split.
    + by rewrite (to_refcnt _ _ _ T' p Hpl0).
    + apply (touches_not_table l' m1 m2); try done. by apply elem_of_dom_2 in Hp2.
  - apply NoDup_cons. split; [|done]. intros Hin. by apply Hpl0, Hpl'.
  - intros va Hr. rewrite run_page_cons, Htr' by (by apply (touches_in_range l m m1)).
    rewrite (Htr va Hr), run_page_cons, run_page_nil.
    destruct (decide (va / 8192 = b / 8192)) as [Heq|]; [|done].
    unfold run_page. rewrite decide_False; [done|].
    replace (b + 8192) with (b + 1 * 8192) by lia. rewrite Z.div_add by lia. lia.
Qed.

(** The loop of [vm_alloc]. *)
Lemma alloc_map_pages_ok kernel n vaddr o m :
  let b := vaddr + 8192 * o in
  pmap_ok m → range_wf m → (∀ p, p ∈ dom (pg_refcnt (m_pages m)) → page_paddr p < 2 ^ 36) →
  vaddr mod 8192 = 0 → 0 ≤ vaddr → 0 ≤ o → b + 8192 * Z.of_nat n < 2 ^ 64 →
  (∀ va, b ≤ va < b + 8192 * Z.of_nat n → va mod 8192 = 0 → in_range m va ∧ translate m va = None) →
  (3 * n ≤ length (page_free_queue (m_pages m)))%nat →
  ∃ m' ps, alloc_map_pages kernel n vaddr o m = Done tt m' ∧ length ps = n ∧ allocates b ps m m'.
Proof.
  revert o m. induction n as [|n IH]; intros o m b H Hw Hpd Hal Hv Ho Hb Hva Hf.
  { exists m, []. split; [done|]. split; [done|]. split; [done| | |apply NoDup_nil_2|].
    - exists []. split; [by split; try done; left|]. split; [simpl; lia|]. split; [done|].
      by intros q ?%elem_of_nil.
    - by intros p ?%elem_of_nil.
    - intros va _. by rewrite run_page_nil. }
  destruct (page_free_queue (m_pages m)) as [|p [|a [|c f]]] eqn:Hfq; simpl in Hf; try lia.
  assert (u64 (vaddr + u64 (o * PAGE_SIZE)) = b) as Eb.
  { change PAGE_SIZE with 8192. rewrite (u64_small (o * 8192)), u64_small; unfold b; lia. }
  assert (b mod 8192 = 0) as Hbal.
  { unfold b. replace (vaddr + 8192 * o) with (vaddr + o * 8192) by lia. by rewrite Z.mod_add. }
  destruct (Hva b) as [Hr Htr]; [lia|done|].
  destruct (page_alloc_map_outcome m kernel PAGE_FLAG_DEFAULT b p a c f H Hw Hr Hbal Htr Hfq)
    as (ps1&m1&_&_&Hm1&A1).
  { apply Hpd. apply elem_of_dom. exists 0. destruct (ok_pages m H) as ((_&Hq&_)&_).
    apply Hq. rewrite Hfq. by left. }
  pose proof A1 as [[H1 Hw1] (l&T&Hl&_&Hl0) _ _ Htr1].
  destruct (IH (o + 1) m1) as (m2&ps&Hm2&Hlen&A2); try done; try lia.
  - intros q. rewrite (to_dom _ _ _ T). apply Hpd.
  - intros va Hin Haln. destruct (Hva va) as [Hr' Htr']; [unfold b; lia|done|].
    split; [by apply (touches_in_range l m m1)|]. rewrite (Htr1 va Hr'), run_page_cons, run_page_nil.
    rewrite decide_False; [done|]. unfold b. Z.to_euclidean_division_equations. lia.
  - pose proof (free_count l m m1 H H1 T) as Hc. rewrite Hfq in Hc. simpl in Hc, Hl. lia.
  - exists m2, (p :: ps). split; [|split; [simpl; lia|]].
    + cbn [alloc_map_pages]. rewrite Eb. unfold or_panic, bind. by rewrite Hm1.
    + apply (allocates_cons b p ps m m1 m2 H A1).
      by replace (b + 8192) with (vaddr + 8192 * (o + 1)) by (unfold b; lia).
Qed.

(** * Freeing *)

(** The pages of [ps] are unmapped from [b] on and free. *)
Record releases (b : Z) (ps : list Z) (m m' : mmu) : Prop := {
  rl_ok : pmap_ok m' ∧ range_wf m';
  rl_touches : touches ps m m';
  rl_node q : node m' q = node m q;
  rl_pages p : p ∈ ps → pg_refcnt (m_pages m') !! p = Some 0;
  rl_translate va : in_range m va →
    translate m' va = match run_page b ps va with Some _ => None | None => translate m va end
}.

(** The pages [ps] are mapped from [b] on with two references each and are no tables. *)
Definition mapped_run (b : Z) (ps : list Z) (m : mmu) : Prop :=
  NoDup ps ∧
  (∀ p, p ∈ ps → pg_refcnt (m_pages m) !! p = Some 2 ∧ not_table m p ∧ page_paddr p < 2 ^ 36) ∧
  ∀ va p, va mod 8192 = 0 → run_page b ps va = Some p →
    in_range m va ∧ translate m va = Some (page_paddr p).

Lemma free_map_pages_ok kernel bases ps vaddr o m :
  let b := vaddr + 8192 * o in
  pmap_ok m → range_wf m → covered (m_pages m) bases →
  vaddr mod 8192 = 0 → 0 ≤ vaddr → 0 ≤ o → b + 8192 * Z.of_nat (length ps) < 2 ^ 64 →
  mapped_run b ps m →
  ∃ m', free_map_pages kernel (length ps) vaddr o m = Done tt m' ∧ releases b ps m m'.
Proof.
  revert o m. induction ps as [|p ps IH]; intros o m b H Hw Hc Hal Hv Ho Hb (Hnd&Hps&Hrun).
  { exists m. split; [done|]. split; try done.
    - split; try done. by left.
    - by intros p ?%elem_of_nil.
    - intros va _. by rewrite run_page_nil. }
  apply NoDup_cons in Hnd as [Hp Hnd]. cbn [length] in Hb.
  assert (u64 (vaddr + u64 (o * PAGE_SIZE)) = b) as Eb.
  { change PAGE_SIZE with 8192. rewrite (u64_small (o * 8192)), u64_small; unfold b; lia. }
  assert (b mod 8192 = 0) as Hbal.
  { unfold b. replace (vaddr + 8192 * o) with (vaddr + o * 8192) by lia. by rewrite Z.mod_add. }
  destruct (Hps p ltac:(by left)) as (Hp2&Hnt&Hpa).
  destruct (Hrun b p Hbal) as [Hr Htr]; [rewrite run_page_cons; by rewrite decide_True|].
  destruct (page_free_map_outcome m kernel b p bases H Hw Hr Hbal Hc Hp2 Hpa Htr Hnt)
    as (m1&Hf&H1&Hw1&Hrc&Hr1&T1&Hn1&Htr1).
  assert (∀ q, q ∈ ps → pg_refcnt (m_pages m1) !! q = pg_refcnt (m_pages m) !! q) as Hrc1.
  { intros q Hq. rewrite Hrc, lookup_insert_ne; [done|]. by intros ->. }
  assert (∀ va, run_page (b + 8192) ps va = None ∨ va / 8192 ≠ b / 8192) as Hdiff.
  { intros va. destruct (decide (va / 8192 = b / 8192)) as [Heq|]; [left|by right].
    unfold run_page. rewrite decide_False; [done|].
    replace (b + 8192) with (b + 1 * 8192) by lia. rewrite Z.div_add by lia. lia. }
  destruct (IH (o + 1) m1) as (m2&Hf2&R2); try done; try lia.
  { unfold covered. by rewrite (to_tree _ _ _ T1), (to_dom _ _ _ T1). }
  { split; [done|]. split.
    - intros q Hq. rewrite Hrc1 by done. destruct (Hps q ltac:(by right)) as (Hq2&Hqn&Hqa).
      split; [done|]. split; [|done]. intros k x. rewrite Hn1. apply Hqn.
    - intros va q Hva. replace (vaddr + 8192 * (o + 1)) with (b + 8192) by (unfold b; lia).
      intros Hq. destruct (Hdiff va) as [Hd|Hd]; [congruence|].
      destruct (Hrun va q Hva) as [Hr' Htr']; [rewrite run_page_cons; by rewrite decide_False|].
      split; [by apply Hr1|]. rewrite (Htr1 va Hr'). by rewrite decide_False. }
  replace (vaddr + 8192 * (o + 1)) with (b + 8192) in R2 by (unfold b; lia).
  destruct R2 as [Hok2 T2 Hn2 Hp0 Htr2]. exists m2. split.
  { cbn [length free_map_pages]. rewrite Eb. unfold or_panic, bind. by rewrite Hf. }
  split; [done| | | |].
  - change (p :: ps) with ([p] ++ ps). apply (touches_trans [p] ps m m1 m2 H T1 T2).
    intros q _ _. right. exact Hn2.
  - intros q. by rewrite Hn2, Hn1.
  - intros q [->|Hq]%elem_of_cons; [|by apply Hp0].
    rewrite (to_refcnt _ _ _ T2) by done. rewrite Hrc. apply lookup_insert_eq.
  - intros va Hva. rewrite run_page_cons, Htr2, (Htr1 va Hva) by (by apply Hr1).
    destruct (decide (va / 8192 = b / 8192)) as [Heq|]; [|done]. by destruct (run_page _ _ _).
Qed.

Section correctness.
Context {Ob : Type} `{ObjPool Ob} (kernel_vm : Z).
Implicit Types (s : machine Ob) (m : mmu) (x : vm Ob).

(** Mapping free pages at addresses that are in use keeps the invariant. *)
Lemma sane_allocates s v m m' b ps :
  sane s → space_mmu s v = Some m → allocates b ps m m' →
  (∀ x a, space_vm s v = Some x → a mod 8192 = 0 → status x a false → run_page b ps a = None) →
  sane (put_mmu v m' s) ∧ others_same v s (put_mmu v m' s).
Proof.
  intros S Hm [[H' Hw'] (l&T&Hl&Hpl&Hl0) Hps Hnd Htr] Hfree.
  destruct (space_mmu_shared s v m Hm) as (Ep&_). destruct (mi_pmap s S v m Hm) as [Hok _].
  apply (mmu_step s v m m' l); try done.
  - intros p Hp. left. rewrite <-Ep. by apply Hl0.
  - intros va pa Hr Ht. rewrite (Htr va Hr) in Ht. destruct (run_page b ps va) as [p|] eqn:Hrun.
    + injection Ht as <-. apply run_page_elem in Hrun. destruct (Hps p Hrun) as [Hp Hnt].
      exists p, 2. split_and!; try done. intros w mw _ Hmw. apply free_not_table.
      * by apply (mi_pmap s S w).
      * destruct (space_mmu_shared s w mw Hmw) as (->&_). rewrite <-Ep. by apply Hl0, Hpl.
    + destruct (mi_mapped s S v m va pa Hm Hr Ht) as (p&n&->&Hp&Hn&Hnt). rewrite <-Ep in Hp.
      assert (p ∉ l) as Hpl' by (intros Hin%Hl0; congruence).
      exists p, n. split_and!; [done| |done| |].
      * by rewrite (to_refcnt _ _ _ T p Hpl').
      * apply (touches_not_table l m m'); try done; [by apply elem_of_dom_2 in Hp|by apply (Hnt v)].
      * intros w mw _. apply Hnt.
  - intros x a Hx Ha Hst. rewrite Htr by (by apply (mi_span s S v x m a false)).
    rewrite (Hfree x a) by done. by apply (mi_free s S v x m a).
Qed.

(** Entering a page in use at an address in use that does not translate. *)
Lemma sane_page_map s v m a p n :
  sane s → space_mmu s v = Some m → in_range m a → a mod 8192 = 0 → translate m a = None →
  (∀ x, space_vm s v = Some x → ¬ status x a false) →
  pg_refcnt (mc_pages s) !! p = Some n → n ≠ 0 → n + 1 < 2 ^ 32 → no_table s p →
  (2 ≤ length (page_free_queue (mc_pages s)))%nat → ∀ kernel,
  ∃ m' l, page_map kernel a p m = Done (Ok tt) m' ∧ sane (put_mmu v m' s) ∧
    others_same v s (put_mmu v m' s) ∧ touches (p :: l) m m' ∧ (length l ≤ 2)%nat ∧
    (∀ q, q ∈ l → pg_refcnt (mc_pages s) !! q = Some 0) ∧
    pg_refcnt (m_pages m') !! p = Some (n + 1) ∧ no_table (put_mmu v m' s) p ∧
    (∀ va', in_range m va' →
      translate m' va' = if decide (va' / 8192 = a / 8192) then Some (page_paddr p)
                         else translate m va') ∧
    memory (m_pages m') !! page_paddr p = memory (mc_pages s) !! page_paddr p.
Proof.
  intros S Hm Hr Hal Htr Hst Hp Hn Hn1 Hnt Hf kernel.
  destruct (space_mmu_shared s v m Hm) as (Ep&_). destruct (mi_pmap s S v m Hm) as [Hok Hw].
  assert (∃ c d, c ≠ d ∧ pg_refcnt (mc_pages s) !! c = Some 0 ∧ pg_refcnt (mc_pages s) !! d = Some 0)
    as (c&d&Hcd&Hc&Hd).
  { destruct (mi_sound s S) as ((Hnd&Hfq&_)&_). apply NoDup_app in Hnd as (Hnd&_).
    destruct (page_free_queue (mc_pages s)) as [|c [|d f]] eqn:E; simpl in Hf; try lia.
    apply NoDup_cons in Hnd as [Hc _]. exists c, d. split; [set_solver|].
    split; apply Hfq; [by left|right; by left]. }
  assert (is_Some (mc_spaces s !! v)) as Hsp by (by eapply space_mmu_spaces).
  destruct (page_map_outcome m kernel a p n c d) as
    (m'&Hrun&H'&Hw'&_&_&Hp'&Hnt'&_&_&Htr'&l&Hl&Hl0&T&Hmp); rewrite ?Ep; try done; try lia.
  { apply (mi_paddr s S). by eapply elem_of_dom_2. } { by apply (Hnt v). }
  rewrite Ep in Hl0.
  assert (∀ w mw, w ≠ v → space_mmu s w = Some mw → not_table mw p) as Hnt0 by (intros w mw _; apply Hnt).
  destruct (mmu_step s v m m' (p :: l)) as [S' O']; try done.
  - intros q [->|Hq]%elem_of_cons; [right|left; by apply Hl0].
    intros w mw Hne Hmw. split; [by apply (Hnt0 w)|]. left. exists (n + 1). split; [|done].
    destruct (mi_sound s S) as ((_&_&_&Hb)&_). specialize (Hb p n Hp). lia.
  - intros va pa Hva Ht. rewrite (Htr' va Hva) in Ht. case_decide as Hd'.
    + injection Ht as <-. exists p, (n + 1). split_and!; try done.
      destruct (mi_sound s S) as ((_&_&_&Hb)&_). specialize (Hb p n Hp). lia.
    + destruct (mi_mapped s S v m va pa Hm Hva Ht) as (q&k&->&Hq&Hk&Hqn).
      destruct (decide (q = p)) as [->|Hqp].
      { exists p, (n + 1). split_and!; try done.
        destruct (mi_sound s S) as ((_&_&_&Hb)&_). specialize (Hb p n Hp). lia. }
      assert (q ∉ p :: l) as Hout.
      { intros [?|Hin%Hl0]%elem_of_cons; congruence. }
      exists q, k. split_and!; [done| |done| |intros w mw _; apply Hqn].
      * by rewrite (to_refcnt _ _ _ T q Hout), Ep.
      * apply (touches_not_table (p :: l) m m'); try done; [|by apply (Hqn v)].
        rewrite Ep. by eapply elem_of_dom_2.
  - intros x a' Hx Ha' Hs. rewrite Htr' by (by apply (mi_span s S v x m a' false)).
    rewrite decide_False; [by apply (mi_free s S v x m a')|]. intros Heq. apply (Hst x Hx).
    replace a with a'; [done|]. apply Z.div_exact in Hal, Ha'; lia.
  - exists m', l. split; [done|]. split; [done|]. split; [done|]. split; [done|].
    split; [done|]. split; [done|]. split; [done|]. split; [|split; [done|by rewrite Hmp, Ep]].
    intros w mw. destruct (decide (w = v)) as [->|Hne].
    + rewrite space_mmu_put_mmu by done. by intros [= <-].
    + destruct (to_cpu _ _ _ T) as [Tc Ta]. destruct (space_mmu_shared s v m Hm) as (_&Ec&Ea).
      rewrite space_mmu_put_mmu_ne by (done || congruence).
      intros (m0&Hm0&->)%fmap_Some. intros q x.
      destruct (touches_other s v w m m' m0 (p :: l) S Hne Hm Hm0 H' T) as (_&->&_); [|by apply (Hnt w)].
      intros q' [->|Hq']%elem_of_cons; [right; by apply (Hnt w)|left; by apply Hl0].
Qed.

(** Taking out of [v] a page that keeps a reference. *)
Lemma sane_page_unmap s v m a p n :
  sane s → space_mmu s v = Some m → in_range m a → a mod 8192 = 0 →
  translate m a = Some (page_paddr p) → no_table s p →
  pg_refcnt (mc_pages s) !! p = Some n → n ≠ 0 → n - 1 ≠ 0 →
  ∃ m', page_unmap a p m = Done (Ok tt) m' ∧ sane (put_mmu v m' s) ∧
    others_same v s (put_mmu v m' s) ∧
    pg_refcnt (m_pages m') = <[p := n - 1]> (pg_refcnt (mc_pages s)) ∧
    (∀ va', in_range m' va' ↔ in_range m va') ∧ no_table (put_mmu v m' s) p ∧
    (∀ va', in_range m va' →
      translate m' va' = if decide (va' / 8192 = a / 8192) then None else translate m va') ∧
    memory (m_pages m') !! page_paddr p = memory (mc_pages s) !! page_paddr p.
Proof.
  intros S Hm Hr Hal Htr Hnt Hp Hn Hn1.
  destruct (space_mmu_shared s v m Hm) as (Ep&_). destruct (mi_pmap s S v m Hm) as [Hok Hw].
  assert (is_Some (mc_spaces s !! v)) as Hsp by (by eapply space_mmu_spaces).
  destruct (page_unmap_outcome m a p n) as (m'&Hrun&H'&Hw'&Hrc&Hrr&T&Hnode&Htr'&Hmp);
    rewrite ?Ep; try done; [by apply (Hnt v)|].
  rewrite Ep in Hrc, Hmp.
  assert (∀ w mw, w ≠ v → space_mmu s w = Some mw → not_table mw p) as Hnt0 by (intros w mw _; apply Hnt).
  destruct (mmu_step s v m m' [p]) as [S' O']; try done.
  - intros q ->%list_elem_of_singleton. right. intros w mw Hne Hmw. split; [by apply (Hnt0 w)|].
    left. exists (n - 1). split; [done|]. by rewrite Hrc, lookup_insert_eq.
  - intros va pa Hva Ht. rewrite (Htr' va Hva) in Ht. case_decide as Hd; [done|].
    destruct (mi_mapped s S v m va pa Hm Hva Ht) as (q&k&->&Hq&Hk&Hqn).
    exists q, (if decide (q = p) then n - 1 else k). split; [done|]. split.
    { rewrite Hrc. case_decide as E; [subst; apply lookup_insert_eq|by rewrite lookup_insert_ne]. }
    split; [by case_decide|]. split; [|intros w mw _; apply Hqn].
    intros q' x. rewrite Hnode. by apply (Hqn v).
  - intros x a' Hx Ha' Hs. rewrite Htr' by (by apply (mi_span s S v x m a' false)).
    case_decide; [done|]. by apply (mi_free s S v x m a').
  - exists m'. split; [done|]. split; [done|]. split; [done|]. split; [done|]. split; [done|].
    split; [|done]. intros w mw. destruct (decide (w = v)) as [->|Hne].
    + rewrite space_mmu_put_mmu by done. intros [= <-] q x. rewrite Hnode. by apply (Hnt v).
    + destruct (to_cpu _ _ _ T) as [Tc Ta]. destruct (space_mmu_shared s v m Hm) as (_&Ec&Ea).
      rewrite space_mmu_put_mmu_ne by (done || congruence).
      intros (m0&Hm0&->)%fmap_Some. intros q x.
      destruct (touches_other s v w m m' m0 [p] S Hne Hm Hm0 H' T) as (_&->&_); [|by apply (Hnt w)].
      intros q' ->%list_elem_of_singleton. right. by apply (Hnt w).
Qed.

(** [n] pages from [va] on were free addresses of [v]; now they are in use
    and mapped to the pages [ps], which were free; nothing else is mapped
    or claimed, in [v] or elsewhere. *)
Record allocated (v va : Z) (ps : list Z) s s' : Prop := {
  ad_bounds : va mod 8192 = 0 ∧ 0 ≤ va ∧ va + 8192 * Z.of_nat (length ps) < 2 ^ 64;
  ad_ranges : ∃ x x', space_vm s v = Some x ∧ space_vm s' v = Some x' ∧
    (∀ a, va ≤ a < va + 8192 * Z.of_nat (length ps) → status x a false) ∧
    claimed va (va + 8192 * Z.of_nat (length ps)) x x' ∧
    record_of x' va (va + 8192 * Z.of_nat (length ps));
  ad_pages p : p ∈ ps → pg_refcnt (mc_pages s) !! p = Some 0 ∧
    pg_refcnt (mc_pages s') !! p = Some 2;
  ad_used p n : n ≠ 0 → pg_refcnt (mc_pages s) !! p = Some n →
    pg_refcnt (mc_pages s') !! p = Some n;
  ad_distinct : NoDup ps;
  ad_mapped : ∃ m m', space_mmu s v = Some m ∧ space_mmu s' v = Some m' ∧
    (∀ va', in_range m' va' ↔ in_range m va') ∧ ∀ va', in_range m va' → translate m' va' =
      match run_page va ps va' with Some p => Some (page_paddr p) | None => translate m va' end;
  ad_others : others_same v s s'
}.

(** Claiming free addresses of [v] keeps the invariant. *)
Lemma sane_claim s v x x' b e :
  sane s → space_vm s v = Some x → inv x' → vm_lock x' = 0 → grown x x' →
  (∀ a, b ≤ a < e → status x a false) → claimed b e x x' →
  sane (put_vm v x' s) ∧ others_same v s (put_vm v x' s).
Proof.
  intros S Hx Hinv' Hl' Hg Hfree Hc.
  assert (∀ a u, status x' a u → ∃ u', status x a u' ∧ (u = false → u' = false)) as Hback.
  { intros a u Hst. apply Hc in Hst. case_decide as Ha; [|by exists u].
    exists false. split; [by apply Hfree|done]. }
  apply (vm_step s v x x' S Hx Hinv' Hl' Hg).
  - intros m a Hm Ha Hst. destruct (Hback a false Hst) as (u&Hst'&Hu).
    rewrite Hu in Hst' by done. by apply (mi_free s S v x m a).
  - intros m a u Hm Ha Hst. destruct (Hback a u Hst) as (u'&Hst'&_).
    by apply (mi_span s S v x m a u').
Qed.

(** The common part of [vm_alloc] and [vm_alloc_page]. *)
Lemma alloc_outcome s v kernel n high x m :
  sane s → space_vm s v = Some x → space_mmu s v = Some m → (1 ≤ n)%nat →
  (3 * n ≤ length (page_free_queue (mc_pages s)))%nat →
  wp (vaddr <-? on_vm v (vm_alloc_address (Z.of_nat n) high) ;;
      on_mmu v (alloc_map_pages kernel n vaddr 0) ;;; ret (Ok vaddr))
    (λ r s', sane s' ∧ match r with
       | Ok va => ∃ ps, length ps = n ∧ allocated v va ps s s'
       | Err e => e = ERROR_NOT_IMPLEMENTED ∧ s' = s ∧
           ∀ i, rng x i → inuse (vmi x i) = false → vmi_size (vmi x i) < Z.of_nat n
       end) pool_stop s.
Proof.
  intros S Hx Hm Hn Hf. destruct (mi_vm s S v x Hx) as [Hinv Hl].
  rewrite wp_bind_ok. apply (wp_on_vm s v x _ _ _ Hx).
  eapply wp_mono; [apply (vm_alloc_address_outcome x (Z.of_nat n) high Hinv); lia| |done].
  intros r x' (Hinv'&Hl'&Hr). destruct r as [va|e]; last first.
  { destruct Hr as (->&->&Hno). rewrite (put_vm_same s v x Hx). done. }
  destruct Hr as (Hal&Hva&Hend&Hfree&Hc&Hrec&Hg).
  destruct (sane_claim s v x x' va _ S Hx Hinv' ltac:(congruence) Hg Hfree Hc) as [S1 O1].
  set (s1 := put_vm v x' s) in *.
  assert (space_mmu s1 v = Some m) as Hm1 by (by unfold s1; rewrite space_mmu_put_vm).
  assert (space_vm s1 v = Some x') as Hx1
    by (apply space_vm_put_vm; by eapply space_vm_spaces).
  destruct (mi_pmap s S v m Hm) as [Hok Hw]. destruct (space_mmu_shared s v m Hm) as (Ep&_).
  destruct (alloc_map_pages_ok kernel n va 0 m) as (m'&ps&Hrun&Hlen&A); try done; try lia.
  { intros p. rewrite Ep. apply (mi_paddr s S). }
  { intros a Ha Haal. rewrite Z.mul_0_r, Z.add_0_r in Ha. specialize (Hfree a Ha). split.
    - by apply (mi_span s S v x m a false).
    - by apply (mi_free s S v x m a). }
  { by rewrite Ep. }
  rewrite Z.mul_0_r, Z.add_0_r in A. rewrite wp_bind. unfold wp at 1.
  rewrite (on_mmu_ok s1 v m _ _ m' Hm1 Hrun), wp_ret.
  destruct (sane_allocates s1 v m m' va ps S1 Hm1 A) as [S2 O2].
  { intros y a Hy Ha Hst. rewrite Hx1 in Hy. injection Hy as <-.
    destruct (run_page va ps a) as [p|] eqn:Hrun'; [|done]. exfalso.
    assert (is_Some (run_page va ps a)) as Hin by eauto. apply run_page_inside in Hin; [|done].
    rewrite Hlen in Hin. apply Hc in Hst. by rewrite decide_True in Hst by lia. }
  split; [done|]. exists ps. split; [done|]. destruct A as [_ (l&T&_&Hpl&Hl0) Hps Hnd Htr].
  split; rewrite ?Hlen; [done| | | |done| |].
  - exists x, x'. split; [done|]. split; [by rewrite space_vm_put_mmu|]. done.
  - intros p Hp. split; [rewrite <-Ep; by apply Hl0, Hpl|]. by apply Hps.
  - intros p k Hk Hp. rewrite <-Ep in Hp. apply (touches_used l m m' p k T Hl0 Hk Hp).
  - exists m, m'. split; [done|]. split; [apply space_mmu_put_mmu; by eapply space_mmu_spaces|].
    split; [|done]. intros va'. by apply (touches_in_range l).
  - by etransitivity.
Qed.

(** The arguments [vm_alloc] takes: in the kernel's address space, sizes that
    are not for the pools and that take more than a page. *)
Definition vm_alloc_size (v size : Z) : Prop :=
  0 < size ∧ size + 8191 < 2 ^ 64 ∧ (v = kernel_vm → MAX_ALLOC_SIZE ≤ size ∧ 8192 < size).

Lemma vm_alloc_count v size :
  vm_alloc_size v size → PAGE_COUNT size = (size + 8191) / 8192 ∧ 1 ≤ PAGE_COUNT size ∧
  (v = kernel_vm → PAGE_COUNT size ≠ 1).
Proof.
  intros (Hs&Ho&Hk). rewrite PAGE_COUNT_div by lia. split; [done|].
  split; [|intros Hv; destruct (Hk Hv)]; Z.to_euclidean_division_equations; lia.
Qed.

Lemma is_kernel_spec v : is_kernel kernel_vm v = true ↔ v = kernel_vm.
Proof. apply Z.eqb_eq. Qed.

Lemma vm_alloc_outcome s v size flags x m :
  sane s → space_vm s v = Some x → space_mmu s v = Some m → vm_alloc_size v size →
  let n := Z.to_nat (PAGE_COUNT size) in
  (3 * n ≤ length (page_free_queue (mc_pages s)))%nat →
  wp (vm_alloc kernel_vm v size flags)
    (λ r s', sane s' ∧ match r with
       | Ok va => ∃ ps, length ps = n ∧ allocated v va ps s s'
       | Err e => e = ERROR_NOT_IMPLEMENTED ∧ s' = s ∧
           ∀ i, rng x i → inuse (vmi x i) = false → vmi_size (vmi x i) < PAGE_COUNT size
       end) pool_stop s.
Proof.
  intros S Hx Hm Hsz n Hf. destruct (vm_alloc_count v size Hsz) as (_&Hn1&Hk).
  destruct Hsz as (_&_&Hks). unfold vm_alloc.
  assert (is_kernel kernel_vm v && (size <? MAX_ALLOC_SIZE) = false) as ->.
  { apply andb_false_iff. destruct (is_kernel kernel_vm v) eqn:E; [right|by left].
    apply is_kernel_spec in E. apply Z.ltb_ge. by destruct (Hks E). }
  assert (is_kernel kernel_vm v && (PAGE_COUNT size =? 1) = false) as ->.
  { apply andb_false_iff. destruct (is_kernel kernel_vm v) eqn:E; [right|by left].
    apply is_kernel_spec in E. apply Z.eqb_neq. by apply Hk. }
  fold n. pose proof (alloc_outcome s v (is_kernel kernel_vm v) n
    (flag_set flags VM_ALLOC_HIGH) x m S Hx Hm ltac:(lia) Hf) as Ho.
  unfold n in Ho at 1. rewrite Z2Nat.id in Ho by lia.
  eapply wp_mono; [exact Ho| |done]. intros [va|e] s'; [done|].
  unfold n. rewrite Z2Nat.id by lia. done.
Qed.

(** C3: [vm_alloc] in an address space, with three free pages for each page
    asked for, either finds no range of free addresses large enough, and then
    changes nothing, or returns the start of a range of addresses that were
    free: the range is now in use and its pages translate to as many
    different physical pages that were free before; every other address, of
    this address space and of any other, translates as before, and no page
    that was in use changes its reference count. *)
Theorem vm_alloc_correct s v size flags x m :
  sane s → space_vm s v = Some x → space_mmu s v = Some m → vm_alloc_size v size →
  let n := Z.to_nat (PAGE_COUNT size) in
  (3 * n ≤ length (page_free_queue (mc_pages s)))%nat →
  wp (vm_alloc kernel_vm v size flags)
    (λ r s', sane s' ∧ match r with
       | Ok va => ∃ ps, length ps = n ∧ allocated v va ps s s'
       | Err e => e = ERROR_NOT_IMPLEMENTED ∧ s' = s ∧
           ∀ i, rng x i → inuse (vmi x i) = false → vmi_size (vmi x i) < PAGE_COUNT size
       end) pool_stop s.
Proof. apply vm_alloc_outcome. Qed.

(** * Freeing what was allocated *)

Lemma sane_inj s p q :
  sane s → p ∈ dom (pg_refcnt (mc_pages s)) → q ∈ dom (pg_refcnt (mc_pages s)) →
  page_paddr p = page_paddr q → p = q.
Proof. intros S Hp Hq. destruct (mi_covered s S) as [bases Hc]. by apply (covered_paddr_inj (mc_pages s) bases). Qed.

(** Nobody translated to the pages before they were allocated. *)
Lemma allocated_fresh s s' v va ps w m va' p :
  sane s → allocated v va ps s s' → space_mmu s w = Some m → in_range m va' → p ∈ ps →
  translate m va' ≠ Some (page_paddr p).
Proof.
  intros S A Hm Hr Hp Ht. destruct (ad_pages _ _ _ _ _ A p Hp) as [H0 _].
  destruct (mi_mapped s S w m va' _ Hm Hr Ht) as (q&n&Heq&Hq&Hn&_).
  assert (p = q) as <- by (apply (sane_inj s); [done|by eapply elem_of_dom_2..|done]). congruence.
Qed.

Lemma allocated_run s s' v va ps :
  sane s → sane s' → allocated v va ps s s' →
  ∃ m', space_mmu s' v = Some m' ∧ mapped_run va ps m' ∧ ∀ p, p ∈ ps → no_table s' p.
Proof.
  intros S S' A. destruct (ad_mapped _ _ _ _ _ A) as (m&m'&Hm&Hm'&_&Htr).
  destruct (ad_ranges _ _ _ _ _ A) as (x&x'&Hx&Hx'&Hfree&_).
  destruct (ad_bounds _ _ _ _ _ A) as (Hal&_).
  assert (∀ va' p, va' mod 8192 = 0 → run_page va ps va' = Some p →
    in_range m' va' ∧ translate m' va' = Some (page_paddr p)) as Hrun.
  { intros va' p Hva' Hp. assert (is_Some (run_page va ps va')) as Hin by eauto.
    apply run_page_inside in Hin; [|done].
    assert (in_range m va') as Hr by (apply (mi_span s S v x m va' false); auto).
    assert (translate m' va' = Some (page_paddr p)) as Ht by (rewrite Htr, Hp by done; done).
    split; [|done]. destruct (ad_ranges _ _ _ _ _ A) as (y&y'&Hy&Hy'&_&Hc&_).
    apply (mi_span s' S' v y' m' va' true); [done..|]. apply Hc. by rewrite decide_True by lia. }
  assert (∀ p, p ∈ ps → no_table s' p) as Hnt.
  { intros p [i Hi]%list_elem_of_lookup. assert (run_page va ps (va + Z.of_nat i * 8192) = Some p) as Hp.
    { unfold run_page. rewrite Z.div_add by lia. rewrite decide_True by lia.
      by replace (Z.to_nat _) with i by lia. }
    destruct (Hrun _ p ltac:(by rewrite Z.mod_add) Hp) as [Hr Ht].
    destruct (mi_mapped s' S' v m' _ _ Hm' Hr Ht) as (q&n&Heq&Hq&_&Hnt).
    assert (p = q) as <-; [|done]. apply (sane_inj s'); [done| |by eapply elem_of_dom_2|done].
    eapply elem_of_dom_2, (ad_pages _ _ _ _ _ A). by eapply list_elem_of_lookup_2. }
  exists m'. split; [done|]. split; [|done]. split; [apply A|]. split; [|done].
  intros p Hp. destruct (ad_pages _ _ _ _ _ A p Hp) as [_ H2].
  destruct (space_mmu_shared s' v m' Hm') as (->&_). split; [done|]. split; [by apply (Hnt p Hp v)|].
  apply (mi_paddr s' S'). by eapply elem_of_dom_2.
Qed.

(** Unmapping the pages keeps the invariant. *)
Lemma sane_releases s s' v va ps m' m'' :
  sane s → sane s' → allocated v va ps s s' → space_mmu s' v = Some m' → releases va ps m' m'' →
  sane (put_mmu v m'' s') ∧ others_same v s' (put_mmu v m'' s').
Proof.
  intros S S' A Hm' [[H2 Hw2] T Hn Hp0 Htr].
  destruct (allocated_run s s' v va ps S S' A) as (m0&Hm0&(Hnd&Hps&_)&Hnt).
  rewrite Hm' in Hm0. injection Hm0 as <-.
  destruct (ad_mapped _ _ _ _ _ A) as (m&m0&Hm&Hm0&Hrr&Htr0). rewrite Hm' in Hm0. injection Hm0 as <-.
  destruct (space_mmu_shared s' v m' Hm') as (Ep&_).
  apply (mmu_step s' v m' m'' ps); try done.
  - intros p Hp. right. intros w mw Hne Hmw. split; [by apply (Hnt p Hp w)|]. right. intros va' Hr.
    destruct (ad_others _ _ _ _ _ A w Hne) as [_ Hsame]. rewrite Hmw in Hsame.
    inversion Hsame as [mw0 ? [Hr0 Ht0] Hmw0|]; subst. rewrite Ht0.
    apply (allocated_fresh s s' v va ps w); try done. by apply Hr0.
  - intros va' pa Hr Ht. rewrite (Htr va' Hr) in Ht.
    destruct (run_page va ps va') as [p|] eqn:Hrun; [done|].
    destruct (mi_mapped s' S' v m' va' pa Hm' Hr Ht) as (p&n&->&Hp&Hn0&Hnop).
    assert (p ∉ ps) as Hout.
    { intros Hin. apply (allocated_fresh s s' v va ps v m va' p); try done.
      - by apply Hrr.
      - rewrite Htr0, Hrun in Ht; [done|by apply Hrr]. }
    exists p, n. split_and!; [done| |done| |].
    + by rewrite (to_refcnt _ _ _ T p Hout), Ep.
    + intros q x. rewrite Hn. by apply (Hnop v).
    + intros w mw _. apply Hnop.
  - intros x a Hx Ha Hst. rewrite Htr by (by apply (mi_span s' S' v x m' a false)).
    destruct (run_page va ps a); [done|]. by apply (mi_free s' S' v x m' a).
Qed.

(** Freeing exactly the range of a record. *)
Lemma free_record_ok x va end_ :
  inv x → vm_lock x = 0 → record_of x va end_ → va < end_ →
  ∃ x', vm_free_address va x = Done (Ok tt) x' ∧ inv x' ∧ vm_lock x' = 0 ∧ grown x x' ∧
    ∀ a b, status x' a b ↔ if decide (va ≤ a < end_) then b = false else status x a b.
Proof.
  intros Hinv Hl (i&Hi&Hlo&Hhi&Hu) Hlt.
  assert (status x va true) as Hst by (exists i; split_and!; (done || lia)).
  pose proof (vm_free_address_outcome x va Hinv ltac:(lia)) as Ho.
  destruct (vm_free_address va x) as [[[]|e] x'|w].
  - destruct Ho as (Hinv'&Hl'&Hp&_&j&Hj&Hv&Hs). exists x'. split; [done|]. split; [done|].
    split; [congruence|]. split; [by intros d; rewrite Hp|].
    assert (i = j) as <-.
    { destruct (decide (i = j)) as [|Hne]; [done|]. destruct Hinv as (_&_&Hd&_).
      destruct (Hd i j Hi Hj Hne); lia. }
    by rewrite Hlo, Hhi in Hs.
  - destruct Ho as (_&Hn&_). destruct Hn. by exists true.
  - destruct Ho as [_ Hf]. by pose proof (status_unique x va true false Hinv Hst Hf).
Qed.

Lemma vm_free_outcome s s1 v size va ps :
  sane s → sane s1 → vm_alloc_size v size → length ps = Z.to_nat (PAGE_COUNT size) →
  allocated v va ps s s1 →
  ∃ s2 x m x2 m2, vm_free kernel_vm v size va s1 = Done (Ok tt) s2 ∧ sane s2 ∧
    (∀ p, p ∈ ps → pg_refcnt (mc_pages s2) !! p = Some 0) ∧
    space_vm s v = Some x ∧ space_vm s2 v = Some x2 ∧ same_ranges x x2 ∧
    space_mmu s v = Some m ∧ space_mmu s2 v = Some m2 ∧
    (∀ va', in_range m va' → translate m2 va' = translate m va') ∧ others_same v s s2.
Proof.
  intros S S1 Hsz Hlen A. destruct (vm_alloc_count v size Hsz) as (_&Hn1&Hk).
  destruct (ad_ranges _ _ _ _ _ A) as (x&x1&Hx&Hx1&Hfree&Hc&Hrec).
  destruct (ad_mapped _ _ _ _ _ A) as (m&m1&Hm&Hm1&Hrr&Htr).
  destruct (ad_bounds _ _ _ _ _ A) as (Hal&Hv0&Hend).
  destruct (allocated_run s s1 v va ps S S1 A) as (m0&Hm0&Hrun&_).
  rewrite Hm1 in Hm0. injection Hm0 as <-.
  destruct (mi_pmap s1 S1 v m1 Hm1) as [H1 Hw1]. destruct (mi_covered s1 S1) as [bases Hcov].
  destruct (space_mmu_shared s1 v m1 Hm1) as (Ep1&_).
  destruct (free_map_pages_ok (is_kernel kernel_vm v) bases ps va 0 m1) as (m2&Hf&R);
    rewrite ?Z.mul_0_r, ?Z.add_0_r; try done; [by rewrite Ep1|].
  rewrite Z.mul_0_r, Z.add_0_r in R.
  destruct (sane_releases s s1 v va ps m1 m2 S S1 A Hm1 R) as [S2 O2].
  set (s2 := put_mmu v m2 s1) in *.
  assert (space_vm s2 v = Some x1) as Hx2 by (by unfold s2; rewrite space_vm_put_mmu).
  assert (space_mmu s2 v = Some m2) as Hm2
    by (apply space_mmu_put_mmu; by eapply space_mmu_spaces).
  destruct (mi_vm s1 S1 v x1 Hx1) as [Hinv1 Hl1].
  destruct (free_record_ok x1 va _ Hinv1 Hl1 Hrec) as (x3&Hfr&Hinv3&Hl3&Hg3&Hst3); [lia|].
  assert (same_ranges x x3) as Hsame.
  { intros a b. rewrite Hst3. case_decide as Ha.
    - split; [intros ->; by apply Hfree|]. intros Hs. destruct (mi_vm s S v x Hx) as [Hinv _].
      apply (status_unique x a b false Hinv Hs). by apply Hfree.
    - rewrite (Hc a b). by rewrite decide_False. }
  destruct R as [_ T2 _ Hp0 Htr2].
  assert (∀ va', in_range m va' → translate m2 va' = translate m va') as Hback.
  { intros va' Hr. rewrite Htr2 by (by apply Hrr). rewrite (Htr va' Hr).
    destruct (run_page va ps va') as [p|] eqn:Hrp; [|done].
    assert (is_Some (run_page va ps va')) as Hin by eauto. apply run_page_inside in Hin; [|done].
    set (f := 8192 * (va' / 8192)). apply Z.div_exact in Hal; [|lia].
    assert (va ≤ f < va + 8192 * Z.of_nat (length ps) ∧ f mod 8192 = 0 ∧ f / 8192 = va' / 8192)
      as (Hfin&Hfal&Hfd) by (unfold f; Z.to_euclidean_division_equations; lia).
    rewrite <-(translate_same m f va').
    - symmetry. by apply (mi_free s S v x m f); [..|apply Hfree].
    - apply (in_range_same m); [by apply (mi_pmap s S v)| |done|done].
      by apply (mi_span s S v x m f false); [..|apply Hfree]. }
  destruct (vm_step s2 v x1 x3 S2 Hx2 Hinv3 Hl3 Hg3) as [S3 O3].
  { intros m' a Hm' Ha Hs. rewrite Hm2 in Hm'. injection Hm' as <-. apply Hsame in Hs.
    rewrite Hback by (by apply (mi_span s S v x m a false)). by apply (mi_free s S v x m a). }
  { intros m' a b Hm' Ha Hs. rewrite Hm2 in Hm'. injection Hm' as <-. apply Hsame in Hs.
    apply (touches_in_range _ _ _ _ T2), Hrr. by apply (mi_span s S v x m a b). }
  exists (put_vm v x3 s2), x, m, x3, m2. split.
  { unfold vm_free. assert (is_kernel kernel_vm v && (PAGE_COUNT size =? 1) = false) as ->.
    { apply andb_false_iff. destruct (is_kernel kernel_vm v) eqn:E; [right|by left].
      apply is_kernel_spec in E. apply Z.eqb_neq. by apply Hk. }
    rewrite <-Hlen. unfold bind, or_panic, bind, ret. rewrite (on_mmu_ok s1 v m1 _ _ m2 Hm1 Hf).
    fold s2. unfold on_vm. by rewrite Hx2, Hfr. }
  split; [done|]. split; [done|]. split; [done|].
  split; [apply space_vm_put_vm; by eapply space_vm_spaces|]. split; [done|]. split; [done|].
  split; [by rewrite space_mmu_put_vm|]. split; [done|].
  transitivity s1; [apply A|]. by transitivity s2.
Qed.

(** C23: [vm_free] of what [vm_alloc] returned succeeds and undoes it: the
    physical pages that were mapped are free again, the addresses are free
    again, and every address of every address space translates as it did
    before the allocation. *)
Theorem vm_alloc_free s s1 v size flags va x m :
  sane s → space_vm s v = Some x → space_mmu s v = Some m → vm_alloc_size v size →
  (3 * Z.to_nat (PAGE_COUNT size) ≤ length (page_free_queue (mc_pages s)))%nat →
  vm_alloc kernel_vm v size flags s = Done (Ok va) s1 →
  ∃ ps s2 x2 m2, allocated v va ps s s1 ∧
    vm_free kernel_vm v size va s1 = Done (Ok tt) s2 ∧ sane s2 ∧
    (∀ p, p ∈ ps → pg_refcnt (mc_pages s2) !! p = Some 0) ∧
    space_vm s2 v = Some x2 ∧ same_ranges x x2 ∧
    space_mmu s2 v = Some m2 ∧ (∀ va', in_range m va' → translate m2 va' = translate m va') ∧
    others_same v s s2.
Proof.
  intros S Hx Hm Hsz Hf Hal. pose proof (vm_alloc_outcome s v size flags x m S Hx Hm Hsz Hf) as Ho.
  unfold wp in Ho. rewrite Hal in Ho. destruct Ho as [S1 (ps&Hlen&A)].
  destruct (vm_free_outcome s s1 v size va ps S S1 Hsz Hlen A)
    as (s2&y&m0&x2&m2&Hfree&S2&Hp0&Hy&Hx2&Hsame&Hm0&Hm2&Ht&Ho).
  rewrite Hx in Hy. injection Hy as <-. rewrite Hm in Hm0. injection Hm0 as <-.
  by exists ps, s2, x2, m2.
Qed.

(** * Wiring user memory into the kernel *)

(** Running page operations on the pages of the machine, then on [v]. *)
Lemma space_mmu_set_pages s v m ps :
  space_mmu s v = Some m → space_mmu (set_mc_pages ps s) v = Some (set_pages ps m).
Proof.
  unfold space_mmu. cbn. destruct (mc_spaces s !! v) as [sp|]; [|done]. cbn.
  destruct (sp_pmap sp); [|done]. cbn. by intros [= <-].
Qed.

(** A user page that can be wired: it is mapped, with room for [r] more
    references, or it may be faulted in. *)
Definition wirable s (v : Z) (fault : bool) (r : Z) m (a : Z) : Prop :=
  in_range m a ∧
  ((∃ p c, translate m a = Some (page_paddr p) ∧ pg_refcnt (mc_pages s) !! p = Some c ∧
     c + r < 2 ^ 32) ∨
   (fault = true ∧ translate m a = None ∧ ∀ x, space_vm s v = Some x → ¬ status x a false)).

Lemma wire_page_ok s v m a fault r :
  sane s → space_mmu s v = Some m → a mod 8192 = 0 → 1 ≤ r < 2 ^ 31 →
  wirable s v fault r m a → (3 ≤ length (page_free_queue (mc_pages s)))%nat →
  ∃ p n s1 m1, wire_page kernel_vm v a fault s = Done p s1 ∧ sane s1 ∧ others_same v s s1 ∧
    (∀ w, space_vm s1 w = space_vm s w) ∧ space_mmu s1 v = Some m1 ∧
    pg_refcnt (mc_pages s1) !! p = Some n ∧ n ≠ 0 ∧ n + r < 2 ^ 32 ∧ no_table s1 p ∧
    (∀ q c, c ≠ 0 → pg_refcnt (mc_pages s) !! q = Some c → pg_refcnt (mc_pages s1) !! q = Some c) ∧
    (length (page_free_queue (mc_pages s)) ≤ length (page_free_queue (mc_pages s1)) + 3)%nat ∧
    (∀ va, in_range m1 va ↔ in_range m va) ∧
    (∀ va pa, in_range m va → translate m va = Some pa → translate m1 va = Some pa) ∧
    (∀ va, in_range m va → translate m1 va =
       if decide (va / 8192 = a / 8192) then Some (page_paddr p) else translate m va).
Proof.
  intros S Hm Hal Hr [Hra Hc] Hf.
  destruct (space_mmu_shared s v m Hm) as (Ep&_). destruct (mi_pmap s S v m Hm) as [Hok Hw].
  assert (is_Some (mc_spaces s !! v)) as Hsp by (by eapply space_mmu_spaces).
  unfold wire_page. destruct Hc as [(p&c&Ht&Hp&Hcr)|(->&Ht&Hst)].
  - destruct (mi_covered s S) as [bases Hcov].
    destruct (mi_mapped s S v m a _ Hm Hra Ht) as (q&n&Heq&Hq&Hn&Hnt).
    assert (p = q) as <- by (apply (sane_inj s); [done|by eapply elem_of_dom_2..|done]).
    assert (n = c) as -> by congruence.
    exists p, c, s, m. split.
    { unfold bind. erewrite on_mmu_ok; [|done|].
      2:{ apply (page_extract_ok m _ a p bases Hok Hw Hra); [by rewrite Ep| | |done].
          - rewrite Ep. by eapply elem_of_dom_2.
          - apply (mi_paddr s S). by eapply elem_of_dom_2. }
      by rewrite put_mmu_same. }
    split; [done|]. split; [done|]. split_and!; try done; [lia|].
    intros va Hva. case_decide as Hd; [|done]. rewrite <-Ht. apply translate_same.
    by apply (in_range_same m).
  - destruct (page_free_queue (mc_pages s)) as [|p [|c [|d f]]] eqn:Hfq; simpl in Hf; try lia.
    destruct (page_alloc_map_outcome m (is_kernel kernel_vm v) PAGE_FLAG_ZERO a p c d f)
      as (ps&m1&Hpa&Hpm&_&A); rewrite ?Ep; try done.
    { apply (mi_paddr s S). apply elem_of_dom. exists 0. destruct (mi_sound s S) as ((_&Hq&_)&_).
      apply Hq. rewrite Hfq. by left. }
    destruct (sane_allocates s v m m1 a [p] S Hm A) as [S1 O1].
    { intros x a' Hx Ha' Hs. rewrite run_page_cons, run_page_nil. rewrite decide_False; [done|].
      intros Heq. apply (Hst x Hx). replace a with a'; [done|]. apply Z.div_exact in Hal, Ha'; lia. }
    pose proof A as [[H1 Hw1] (l&T&Hl&Hpl&Hl0) Hps _ Htr].
    destruct (Hps p ltac:(by left)) as [Hp2 Hnt2].
    exists p, 2, (put_mmu v m1 s), m1. split.
    { unfold bind at 1. unfold on_mmu at 1. rewrite Hm. unfold page_extract at 1.
      unfold bind_ok at 1, bind at 1. rewrite (pmap_extract_range m _ a Hok Hw Hra).
      unfold extracted. rewrite Ht. unfold ret at 1.
      assert (put_mmu v m s = put_mmu v m s) as _ by done.
      cbn [andb]. rewrite Z.eqb_refl. unfold or_panic at 1, bind at 1 2, on_mc_pages, zoom.
      cbn [mc_pages put_mmu]. rewrite Hpa. unfold ret at 1, or_panic, bind.
      erewrite on_mmu_ok; [|apply (space_mmu_set_pages _ v m); by apply space_mmu_put_mmu|exact Hpm].
      cbn. unfold ret. f_equal. unfold put_mmu. cbn. f_equal. apply map_eq. intros w.
      destruct (decide (w = v)) as [->|]; [|by rewrite !lookup_alter_ne].
      rewrite !lookup_alter_eq. by destruct (mc_spaces s !! v). }
    split; [done|]. split; [done|]. split; [intros w; apply space_vm_put_mmu|].
    split; [by apply space_mmu_put_mmu|]. split; [done|]. split; [done|]. split; [lia|]. split.
    { intros w mw. destruct (decide (w = v)) as [->|Hne].
      - rewrite space_mmu_put_mmu by done. by intros [= <-].
      - destruct (to_cpu _ _ _ T) as [Tc Ta]. destruct (space_mmu_shared s v m Hm) as (_&Ec&Ea).
        rewrite space_mmu_put_mmu_ne by (done || congruence).
        intros (m0&Hm0&->)%fmap_Some. intros q x.
        destruct (touches_other s v w m m1 m0 l S Hne Hm Hm0 H1 T) as (_&->&_).
        + intros q' Hq'. left. rewrite <-Ep. by apply Hl0.
        + apply free_not_table; [by apply (mi_pmap s S w)|].
          destruct (space_mmu_shared s w m0 Hm0) as (->&_). rewrite <-Ep. by apply Hl0, Hpl; left. }
    split; [intros q n Hn; rewrite <-Ep; by apply (touches_used l m m1)|]. split.
    { pose proof (free_count l m m1 Hok H1 T) as Hcnt. rewrite Ep, Hfq in Hcnt. simpl in *. lia. }
    split; [intros va; by apply (touches_in_range l)|].
    split; intros va; [intros pa|]; intros Hva; [intros Hpa0|];
      rewrite (Htr va Hva), run_page_cons, run_page_nil; [|by case_decide].
    case_decide as Hd; [|done]. rewrite (translate_same m va a) in Hpa0; [congruence|].
    by apply (in_range_same m).
Qed.

(** From [b] on in [m'], and nowhere else differently from [m]: the pages [ps]. *)
Definition maps_run (b : Z) (ps : list Z) m m' : Prop :=
  (∀ va, in_range m' va ↔ in_range m va) ∧
  ∀ va, in_range m va → translate m' va =
    match run_page b ps va with Some p => Some (page_paddr p) | None => translate m va end.

Lemma maps_run_cons b p ps m m1 m2 :
  maps_run b [p] m m1 → maps_run (b + 8192) ps m1 m2 → maps_run b (p :: ps) m m2.
Proof.
  intros [Hr1 Ht1] [Hr2 Ht2]. split; [intros va; by rewrite Hr2|]. intros va Hr.
  rewrite Ht2, Ht1, !run_page_cons, run_page_nil by (done || by apply Hr1).
  case_decide as Heq; [|done]. unfold run_page. rewrite decide_False; [done|].
  replace (b + 8192) with (b + 1 * 8192) by lia. rewrite Z.div_add by lia. lia.
Qed.

Lemma maps_run_same b ps m m' m'' :
  same_translation m' m'' → maps_run b ps m m' → maps_run b ps m m''.
Proof.
  intros [Hr Ht] [Hr' Ht']. split; [intros va; by rewrite Hr|]. intros va Hva. by rewrite Ht, Ht'.
Qed.

Lemma maps_run_same_l b ps m m' m'' :
  same_translation m m' → maps_run b ps m' m'' → maps_run b ps m m''.
Proof.
  intros [Hr Ht] [Hr' Ht']. split; [intros va; by rewrite Hr'|]. intros va Hva.
  rewrite Ht' by (by apply Hr). by rewrite Ht.
Qed.

(** The pages [ps] are mapped in [v] from [b] on, what was mapped staying
    where it was, and in the kernel from [kb] on. *)
Record wired (v b kb : Z) (ps : list Z) s s' : Prop := {
  wi_vm w : space_vm s' w = space_vm s w;
  wi_others w : w ≠ v → w ≠ kernel_vm →
    option_Forall2 same_translation (space_mmu s w) (space_mmu s' w);
  wi_user : ∃ m m', space_mmu s v = Some m ∧ space_mmu s' v = Some m' ∧ maps_run b ps m m' ∧
    ∀ va pa, in_range m va → translate m va = Some pa → translate m' va = Some pa;
  wi_kernel : ∃ k k', space_mmu s kernel_vm = Some k ∧ space_mmu s' kernel_vm = Some k' ∧
    maps_run kb ps k k'
}.

Lemma wired_cons v b kb p ps s s1 s2 :
  wired v b kb [p] s s1 → wired v (b + 8192) (kb + 8192) ps s1 s2 → wired v b kb (p :: ps) s s2.
Proof.
  intros [V1 O1 (m&m1&Hm&Hm1&M1&K1) (k&k1&Hk&Hk1&R1)]
    [V2 O2 (m'&m2&Hm'&Hm2&M2&K2) (k'&k2&Hk'&Hk2&R2)].
  rewrite Hm1 in Hm'. injection Hm' as <-. rewrite Hk1 in Hk'. injection Hk' as <-. split.
  - intros w. by rewrite V2.
  - intros w Hw Hw'. etransitivity; [by apply O1|by apply O2].
  - exists m, m2. split; [done|]. split; [done|]. split; [by eapply maps_run_cons|].
    intros va pa Hva Ht. apply K2; [by apply M1|by apply K1].
  - exists k, k2. split; [done|]. split; [done|]. by eapply maps_run_cons.
Qed.

(** An address of the kernel a page can be mapped at. *)
Definition mappable s k (a : Z) : Prop :=
  in_range k a ∧ translate k a = None ∧
  ∀ x, space_vm s kernel_vm = Some x → ¬ status x a false.

Lemma wire_step s v m k b kb fault r :
  sane s → v ≠ kernel_vm → space_mmu s v = Some m → space_mmu s kernel_vm = Some k →
  b mod 8192 = 0 → kb mod 8192 = 0 → 1 ≤ r < 2 ^ 31 → wirable s v fault r m b →
  mappable s k kb → (5 ≤ length (page_free_queue (mc_pages s)))%nat →
  ∃ p s1 s2, wire_page kernel_vm v b fault s = Done p s1 ∧
    on_mmu kernel_vm (page_map true kb p) s1 = Done (Ok tt) s2 ∧ sane s2 ∧
    wired v b kb [p] s s2 ∧
    (∀ q c, c ≠ 0 → pg_refcnt (mc_pages s) !! q = Some c →
       ∃ c', pg_refcnt (mc_pages s2) !! q = Some c' ∧ c' ≤ c + 1) ∧
    (length (page_free_queue (mc_pages s)) ≤ length (page_free_queue (mc_pages s2)) + 5)%nat.
Proof.
  intros S Hv Hm Hk Hb Hkb Hr Hwb (Hkr&Hkt&Hks) Hf.
  destruct (wire_page_ok s v m b fault r S Hm Hb Hr Hwb) as
    (p&n&s1&m1&Hrun&S1&O1&V1&Hm1&Hp&Hn&Hn1&Hnt&Hc1&Hf1&Hr1&Hk1&Ht1); [lia|].
  destruct (O1 kernel_vm ltac:(done)) as [_ Hsame]. rewrite Hk in Hsame.
  inversion Hsame as [? k1 [Hkr1 Hkt1] E1 E2|]; subst. symmetry in E2.
  destruct (sane_page_map s1 kernel_vm k1 kb p n S1 E2) with (kernel := true)
    as (k2&l&Hmap&S2&O2&T2&Hl&Hl0&Hp2&_&Ht2&_); try done; try lia.
  { by apply Hkr1. } { by rewrite Hkt1. } { intros x. rewrite V1. apply Hks. }
  destruct (O2 v Hv) as [_ Hsame2]. rewrite Hm1 in Hsame2.
  inversion Hsame2 as [? m2 St2 E3 E4|]; subst. symmetry in E4.
  assert (is_Some (mc_spaces s1 !! kernel_vm)) as Hsp by (by eapply space_mmu_spaces).
  destruct (space_mmu_shared s1 kernel_vm k1 E2) as (Epk&_).
  exists p, s1, (put_mmu kernel_vm k2 s1). split; [done|].
  split; [by apply (on_mmu_ok s1 kernel_vm k1)|]. split; [done|]. split; [split|split].
  - intros w. by rewrite space_vm_put_mmu, V1.
  - intros w Hw Hw'. destruct (O1 w Hw) as [_ ?], (O2 w Hw') as [_ ?]. by etransitivity.
  - exists m, m2. split; [done|]. split; [done|]. split.
    + apply (maps_run_same _ _ _ m1); [done|]. split; [done|]. intros va Hva.
      rewrite Ht1, run_page_cons, run_page_nil by done. by case_decide.
    + intros va pa Hva Htr. destruct St2 as [_ ->]. by apply Hk1.
  - exists k, k2. split; [done|]. split; [by apply space_mmu_put_mmu|].
    apply (maps_run_same_l _ _ k k1); [done|]. split; [intros va; by apply (touches_in_range (p :: l))|].
    intros va Hva. rewrite Ht2, run_page_cons, run_page_nil by done. by case_decide.
  - intros q c Hc Hq. specialize (Hc1 q c Hc Hq). cbn. destruct (decide (q = p)) as [->|Hqp].
    + exists (n + 1). split; [done|]. assert (n = c) by congruence. lia.
    + exists c. split; [|lia]. rewrite (to_refcnt _ _ _ T2), Epk; [done|].
      intros [?|Hin%Hl0]%elem_of_cons; congruence.
  - destruct (mi_pmap s1 S1 kernel_vm k1 E2) as [Hok1 _].
    destruct (mi_pmap _ S2 kernel_vm k2) as [Hok2 _]; [by apply space_mmu_put_mmu|].
    (* the page itself was in use *)
    destruct (mi_sound s1 S1) as ((Hnd&Hfq&_)&_). apply NoDup_app in Hnd as (Hnd&_).
    pose proof (ok_pages k2 Hok2) as ((_&Hfq2&_)&_). cbn.
    assert (length (page_free_queue (mc_pages s1)) ≤
      length (page_free_queue (m_pages k2)) + length l)%nat; [|lia].
    rewrite <-length_app. apply submseteq_length, NoDup_submseteq; [done|].
    intros q Hq%Hfq. rewrite elem_of_app, Hfq2. destruct (decide (q ∈ l)) as [|Hql]; [by right|left].
    rewrite (to_refcnt _ _ _ T2), Epk; [done|]. intros [->|?]%elem_of_cons; [congruence|done].
Qed.

(** The loop of [vm_wire]. *)
Lemma wire_pages_ok n v vaddr kvaddr fault o s m k :
  let b := vaddr + 8192 * o in let kb := kvaddr + 8192 * o in
  sane s → v ≠ kernel_vm → space_mmu s v = Some m → space_mmu s kernel_vm = Some k →
  vaddr mod 8192 = 0 → kvaddr mod 8192 = 0 → 0 ≤ vaddr → 0 ≤ kvaddr → 0 ≤ o →
  b + 8192 * Z.of_nat n < 2 ^ 64 → kb + 8192 * Z.of_nat n < 2 ^ 64 → Z.of_nat n < 2 ^ 31 →
  (∀ a, b ≤ a < b + 8192 * Z.of_nat n → a mod 8192 = 0 → wirable s v fault (Z.of_nat n) m a) →
  (∀ a, kb ≤ a < kb + 8192 * Z.of_nat n → a mod 8192 = 0 → mappable s k a) →
  (5 * n ≤ length (page_free_queue (mc_pages s)))%nat →
  ∃ s' ps, wire_pages kernel_vm v n vaddr kvaddr o fault s = Done tt s' ∧ length ps = n ∧
    sane s' ∧ wired v b kb ps s s'.
Proof.
  revert o s m k. induction n as [|n IH]; intros o s m k b kb S Hv Hm Hk Hva Hka Hv0 Hk0 Ho Hb Hkb Hn
    Hw Hmp Hf.
  { exists s, []. split; [done|]. split; [done|]. split; [done|]. split; [done|done| |].
    - exists m, m. split_and!; try done. split; [done|]. intros va _. by rewrite run_page_nil.
    - exists k, k. split_and!; try done. split; [done|]. intros va _. by rewrite run_page_nil. }
  assert (u64 (vaddr + u64 (o * PAGE_SIZE)) = b ∧ u64 (kvaddr + u64 (o * PAGE_SIZE)) = kb) as [Eb Ekb].
  { change PAGE_SIZE with 8192. rewrite (u64_small (o * 8192)) by lia.
    split; rewrite u64_small; unfold b, kb; lia. }
  assert (b mod 8192 = 0 ∧ kb mod 8192 = 0) as [Hbal Hkal].
  { unfold b, kb. rewrite (Z.mul_comm 8192 o). by rewrite !Z.mod_add. }
  destruct (wire_step s v m k b kb fault (Z.of_nat (1 + n)) S Hv Hm Hk Hbal Hkal)
    as (p&s1&s2&Hr1&Hr2&S2&W1&Hc&Hf2); [lia|apply Hw; lia|apply Hmp; lia|lia|].
  pose proof W1 as [V1 _ (m'&m2&Hm'&Hm2&[Mr Mt]&Mk) (k'&k2&Hk'&Hk2&[Kr Kt])].
  rewrite Hm in Hm'. injection Hm' as <-. rewrite Hk in Hk'. injection Hk' as <-.
  assert (∀ c a, c mod 8192 = 0 → c + 8192 ≤ a → a / 8192 ≠ c / 8192) as Hfar.
  { intros c a Hc0 Hca. Z.to_euclidean_division_equations. lia. }
  destruct (IH (o + 1) s2 m2 k2) as (s3&ps&Hr3&Hlen&S3&W3); try done; try lia.
  - intros a Ha Haal. destruct (Hw a) as [Hra Hcase]; [unfold b; lia|done|].
    split; [by apply Mr|]. destruct Hcase as [(q&c&Hta&Hq&Hcr)|(->&Hta&Hst)].
    + left. destruct (mi_mapped s S v m a _ Hm Hra Hta) as (q'&c'&Heq&Hq'&Hc'&_).
      assert (q = q') as <- by (apply (sane_inj s); [done|by eapply elem_of_dom_2..|done]).
      assert (c' = c) as -> by congruence. destruct (Hc q c Hc' Hq) as (c2&Hq2&Hle).
      exists q, c2. split; [by apply Mk|]. split; [done|]. lia.
    + right. split; [done|]. rewrite V1. split; [|done].
      rewrite Mt, run_page_cons, run_page_nil by done. rewrite decide_False; [done|].
      apply Hfar; [done|]. unfold b. lia.
  - intros a Ha Haal. destruct (Hmp a) as (Hra&Hta&Hst); [unfold kb; lia|done|].
    split; [by apply Kr|]. rewrite V1. split; [|done].
    rewrite Kt, run_page_cons, run_page_nil by done. rewrite decide_False; [done|].
    apply Hfar; [done|]. unfold kb. lia.
  - exists s3, (p :: ps). split.
    { cbn [wire_pages]. rewrite Eb, Ekb. unfold bind at 1. rewrite Hr1. unfold or_panic, bind.
      by rewrite Hr2. }
    split; [simpl; lia|]. split; [done|]. apply (wired_cons v b kb p ps s s2 s3 W1).
    replace (b + 8192) with (vaddr + 8192 * (o + 1)) by (unfold b; lia).
    by replace (kb + 8192) with (kvaddr + 8192 * (o + 1)) by (unfold kb; lia).
Qed.

(** Another reference to a page that is no table. *)
Lemma sane_recount s v m p n n' ps :
  sane s → space_mmu s v = Some m → pg_refcnt (mc_pages s) !! p = Some n → n' ≠ 0 →
  no_table s p → recounts p n' (mc_pages s) ps →
  sane (put_mmu v (set_pages ps m) s) ∧ others_same v s (put_mmu v (set_pages ps m) s) ∧
  same_translation m (set_pages ps m).
Proof.
  intros S Hm Hp Hn' Hnt Hrec. destruct (space_mmu_shared s v m Hm) as (Ep&_).
  destruct (mi_pmap s S v m Hm) as [Hok Hw]. rewrite <-Ep in Hp, Hrec.
  destruct (recount_ok m ps p n' Hok) as (H'&Hnode&Htr); [by exists n|done|by left|].
  assert (touches [p] m (set_pages ps m)) as T
    by (apply (recount_touches m ps p n'); [done|by exists n|done|by left]).
  pose proof Hrec as (Hrc&_).
  destruct (mmu_step s v m (set_pages ps m) [p]) as [S' O']; try done.
  - by apply pages_change_range.
  - intros q ->%list_elem_of_singleton. right. intros w mw _ Hmw. split; [by apply (Hnt w)|left].
    exists n'. split; [done|]. cbn. rewrite Hrc. apply lookup_insert_eq.
  - intros va pa Hva. rewrite Htr. intros Ht.
    destruct (mi_mapped s S v m va pa Hm Hva Ht) as (q&k&->&Hq&Hk&Hqn). rewrite <-Ep in Hq.
    exists q, (if decide (q = p) then n' else k). split; [done|]. split_and!.
    + cbn. rewrite Hrc. case_decide as E; [subst; apply lookup_insert_eq|by rewrite lookup_insert_ne].
    + by case_decide.
    + intros q' x. rewrite Hnode. by apply (Hqn v).
    + intros w mw _. apply Hqn.
  - intros x a Hx Ha Hs. rewrite Htr. by apply (mi_free s S v x m a).
Qed.

(** [pmap_extract] looks at the page of its argument. *)
Lemma pmap_extract_floor kernel a m :
  0 ≤ a < 2 ^ 64 → pmap_extract kernel a m = pmap_extract kernel (PAGE_FLOOR a) m.
Proof.
  intros Ha. unfold pmap_extract. assert (PAGE_FLOOR (PAGE_FLOOR a) = PAGE_FLOOR a) as ->; [|done].
  pose proof (PAGE_FLOOR_aligned a Ha) as Hf. pose proof (PAGE_FLOOR_sub a Ha) as Hs.
  pose proof (Z.mod_pos_bound a 8192). pose proof (Z.mod_le a 8192).
  rewrite (PAGE_FLOOR_sub (PAGE_FLOOR a)) by lia. lia.
Qed.

(** Address [a] of [v] translates to the physical address [pa] of a page. *)
Definition extracts s (v a pa : Z) : Prop :=
  on_mmu v (pmap_extract (is_kernel kernel_vm v) a) s = Done (Ok pa) s.

Lemma extracts_translate s v m a f pa :
  sane s → space_mmu s v = Some m → 0 ≤ a < 2 ^ 64 → PAGE_FLOOR a = f → in_range m f →
  translate m f = Some pa → extracts s v a pa.
Proof.
  intros S Hm Ha Hf Hr Ht. destruct (mi_pmap s S v m Hm) as [Hok Hw].
  unfold extracts. erewrite on_mmu_ok; [by rewrite put_mmu_same|done|].
  rewrite pmap_extract_floor, Hf, (pmap_extract_range m) by done. unfold extracted. by rewrite Ht.
Qed.

Lemma extracts_direct s m p a :
  space_mmu s kernel_vm = Some m → 0 ≤ page_paddr p < 2 ^ 59 → page_paddr p mod 8192 = 0 →
  0 ≤ a < 8192 → extracts s kernel_vm (XKPHYS_MAP CCA_CNC (page_paddr p) + a) (page_paddr p).
Proof.
  intros Hm Hp Hal Ha. unfold extracts. erewrite on_mmu_ok; [by rewrite put_mmu_same|done|].
  rewrite XKPHYS_MAP_add by done. unfold pmap_extract.
  apply Z.div_exact in Hal; [|lia].
  assert (PAGE_FLOOR (0x9800000000000000 + page_paddr p + a) = 0x9800000000000000 + page_paddr p) as ->.
  { rewrite PAGE_FLOOR_sub by lia. Z.to_euclidean_division_equations. lia. }
  rewrite <-XKPHYS_MAP_add, direct_is_direct by done.
  rewrite (proj2 (is_kernel_spec kernel_vm) eq_refl). cbn [negb]. by rewrite XKPHYS_round.
Qed.

(** Why [vm_wire] may stop: no page for a range record, or no range of kernel
    addresses. *)
Definition wire_stop s (pages_ : Z) (w : stop) : Prop :=
  pool_stop w ∨ w = Panic "vm_alloc_address failed" ∧
    ∀ x i, space_vm s kernel_vm = Some x → rng x i → inuse (vmi x i) = false →
      vmi_size (vmi x i) < pages_.

(** The memory of [v] at [uvaddr] is the kernel's at [kva]; what [v]
    translated to and all other address spaces are as before. *)
Record aliased (v uvaddr len kva : Z) s s' : Prop := {
  as_same a : uvaddr ≤ a < uvaddr + len →
    ∃ pa, extracts s' v a pa ∧ extracts s' kernel_vm (kva + (a - PAGE_FLOOR uvaddr)) pa;
  as_user m va pa : space_mmu s v = Some m → in_range m va → translate m va = Some pa →
    ∃ m', space_mmu s' v = Some m' ∧ translate m' va = Some pa;
  as_others w : w ≠ v → w ≠ kernel_vm →
    option_Forall2 same_ranges (space_vm s w) (space_vm s' w) ∧
    option_Forall2 same_translation (space_mmu s w) (space_mmu s' w)
}.

(** A page of the address range, from the first. *)
Lemma wire_address uvaddr len a :
  0 ≤ uvaddr → 0 < len → uvaddr + len + 16384 < 2 ^ 64 → uvaddr ≤ a < uvaddr + len →
  let b := PAGE_FLOOR uvaddr in let n := PAGE_COUNT (uvaddr + len - b) in
  b mod 8192 = 0 ∧ 0 ≤ b ≤ uvaddr ∧ uvaddr < b + 8192 ∧ 1 ≤ n ∧ b + 8192 * n < 2 ^ 64 ∧
  PAGE_FLOOR a = b + 8192 * ((a - b) / 8192) ∧ 0 ≤ (a - b) / 8192 < n.
Proof.
  intros Hu Hlen Hend Ha b n. assert (b = uvaddr - uvaddr mod 8192) as Hb by (apply PAGE_FLOOR_sub; lia).
  pose proof (Z.mod_pos_bound uvaddr 8192). pose proof (Z.mod_le uvaddr 8192).
  assert (n = (uvaddr + len - b + 8191) / 8192) as Hn by (apply PAGE_COUNT_div; lia).
  assert (b mod 8192 = 0) as Hal by (apply PAGE_FLOOR_aligned; lia).
  split; [done|]. clearbody b n. rewrite PAGE_FLOOR_sub by lia.
  Z.to_euclidean_division_equations. lia.
Qed.

Lemma page_map_direct_known ps p n :
  sound ps → pg_refcnt ps !! p = Some n → n + 1 < 2 ^ 32 →
  ∃ ps', page_map_direct true p ps = Done (Ok (XKPHYS_MAP CCA_CNC (page_paddr p))) ps' ∧
    recounts p (n + 1) ps ps'.
Proof.
  intros Hs Hp Hn. pose proof Hs as (_&Hk&_).
  destruct (Hk p) as (base&i&Hb&Hi&Hpi); [by eapply elem_of_dom_2|].
  rewrite Hpi in Hp |- *. rewrite page_paddr_of by done.
  by apply (page_map_direct_ok ps base i n).
Qed.

(** Whole pages of addresses that do not wrap around. *)
Definition kernel_range (kva n : Z) : Prop := kva mod 8192 = 0 ∧ 0 ≤ kva ∧ kva + 8192 * n ≤ 2 ^ 64.

Lemma wire_one s v m k uvaddr len fault :
  sane s → v ≠ kernel_vm → space_mmu s v = Some m → space_mmu s kernel_vm = Some k →
  0 ≤ uvaddr → 0 < len → uvaddr + len + 16384 < 2 ^ 64 →
  let b := PAGE_FLOOR uvaddr in PAGE_COUNT (uvaddr + len - b) = 1 →
  wirable s v fault 1 m b → (3 ≤ length (page_free_queue (mc_pages s)))%nat →
  ∃ kva p s1 s2, wire_page kernel_vm v b fault s = Done p s1 ∧
    on_mmu kernel_vm (on_pages (page_map_direct true p)) s1 = Done (Ok kva) s2 ∧ sane s2 ∧
    kernel_range kva 1 ∧ aliased v uvaddr len kva s s2.
Proof.
  intros S Hv Hm Hk Hu Hlen Hend b Hn1 Hw Hf.
  destruct (wire_address uvaddr len uvaddr Hu Hlen Hend ltac:(lia)) as (Hbal&Hb0&_). fold b in Hbal, Hb0.
  destruct (wire_page_ok s v m b fault 1 S Hm Hbal ltac:(lia) Hw Hf) as
    (p&n&s1&m1&Hrun&S1&O1&V1&Hm1&Hp&Hn&Hn2&Hnt&_&_&Hr1&Hk1&Ht1).
  destruct (O1 kernel_vm ltac:(done)) as [_ Hsame]. rewrite Hk in Hsame.
  inversion Hsame as [? k1 Sk1 E1 E2|]; subst. symmetry in E2.
  destruct (space_mmu_shared s1 kernel_vm k1 E2) as (Epk&_).
  destruct (mi_sound s1 S1) as (Hq&Hkn&Hlk).
  destruct (page_map_direct_known (mc_pages s1) p n) as (ps&Hmd&Hrec); [done..|lia|].
  destruct (sane_recount s1 kernel_vm k1 p n (n + 1) ps S1 E2 Hp) as (S2&O2&Sk2); try done.
  { destruct Hq as (_&_&_&Hb32). specialize (Hb32 p n Hp). lia. }
  set (s2 := put_mmu kernel_vm (set_pages ps k1) s1) in *.
  destruct (O2 v Hv) as [_ Hsame2]. rewrite Hm1 in Hsame2.
  inversion Hsame2 as [? m2 [Sr2 St2] E3 E4|]; subst x. symmetry in E4.
  assert (space_mmu s2 kernel_vm = Some (set_pages ps k1)) as Hk2
    by (apply space_mmu_put_mmu; by eapply space_mmu_spaces).
  destruct (known_paddr (mc_pages s1) p Hkn) as (Hpb&Hpal&_); [by eapply elem_of_dom_2|].
  pose proof Hw as [Hrb _].
  exists (XKPHYS_MAP CCA_CNC (page_paddr p)), p, s1, s2. split; [done|]. split.
  { apply (on_mmu_ok s1 kernel_vm k1 _ _ (set_pages ps k1) E2). apply on_pages_ok. by rewrite Epk. }
  split; [done|]. split.
  { unfold kernel_range. rewrite XKPHYS_MAP_add by done. Z.to_euclidean_division_equations. lia. }
  split.
  - intros a Ha. destruct (wire_address uvaddr len a Hu Hlen Hend Ha) as (_&_&_&_&_&Hfl&Hix).
    fold b in Hfl, Hix |- *. assert (PAGE_FLOOR a = b) as Hfa by (rewrite Hfl; lia).
    exists (page_paddr p). split.
    + apply (extracts_translate s2 v m2 a b); try done; [lia|by apply Sr2, Hr1|].
      rewrite St2, Ht1 by done. by rewrite decide_True.
    + apply (extracts_direct s2 (set_pages ps k1)); [done..|]. Z.to_euclidean_division_equations. lia.
  - intros m0 va pa Hm0 Hva Ht. rewrite Hm in Hm0. injection Hm0 as <-.
    exists m2. split; [done|]. rewrite St2. by apply Hk1.
  - intros w Hw1 Hw2. unfold s2. rewrite space_vm_put_mmu, V1. split; [done|].
    destruct (O1 w Hw1) as [_ ?], (O2 w Hw2) as [_ ?]. by etransitivity.
Qed.

Lemma vm_wire_outcome s v m k uvaddr len fault :
  sane s → v ≠ kernel_vm → space_mmu s v = Some m → space_mmu s kernel_vm = Some k →
  0 ≤ uvaddr → 0 < len → uvaddr + len + 16384 < 2 ^ 64 →
  let b := PAGE_FLOOR uvaddr in let n := PAGE_COUNT (uvaddr + len - b) in
  n < 2 ^ 31 → 5 * n ≤ Z.of_nat (length (page_free_queue (mc_pages s))) →
  (∀ a, b ≤ a < b + 8192 * n → a mod 8192 = 0 → wirable s v fault n m a) →
  wp (vm_wire kernel_vm v uvaddr len fault)
    (λ r s', ∃ kva, r = Ok (kva, uvaddr mod 8192) ∧ sane s' ∧ kernel_range kva n ∧ aliased v uvaddr len kva s s')
    (wire_stop s n) s.
Proof.
  intros S Hv Hm Hk Hu Hlen Hend b n Hn31 Hf Hw.
  destruct (wire_address uvaddr len uvaddr Hu Hlen Hend ltac:(lia)) as (Hbal&Hb0&_&Hn1&Hbn&_).
  fold b n in Hbal, Hb0, Hn1, Hbn. unfold vm_wire. rewrite PAGE_OFFSET_mod.
  rewrite (u64_small (uvaddr + len)) by lia. fold b. rewrite u64_small by lia. fold n.
  assert (is_kernel kernel_vm v = false) as -> by (by apply Z.eqb_neq).
  destruct (Z.eqb_spec n 1) as [H1|H1].
  { destruct (wire_one s v m k uvaddr len fault S Hv Hm Hk Hu Hlen Hend) as
      (kva&p&s1&s2&Hr1&Hr2&S2&K&A); [done| |lia|].
    { rewrite <-H1. apply Hw; [lia|done]. }
    fold b in Hr1. unfold wp, bind, or_panic. rewrite Hr1. unfold bind. rewrite Hr2. exists kva. by rewrite H1. }
  assert (is_Some (mc_spaces s !! kernel_vm)) as [spk Hspk] by (by eapply space_mmu_spaces).
  assert (space_vm s kernel_vm = Some (vm_of s spk)) as Hx by (unfold space_vm; by rewrite Hspk).
  set (x := vm_of s spk) in *. destruct (mi_vm s S kernel_vm x Hx) as [Hinv Hl].
  rewrite wp_bind, wp_or_panic. apply (wp_on_vm s kernel_vm x _ _ _ Hx).
  eapply wp_mono; [apply (vm_alloc_address_outcome x n false Hinv); lia| |by left].
  intros r x' (Hinv'&Hl'&Hr). destruct r as [kva|e]; last first.
  { right. split; [done|]. intros y i Hy. rewrite Hx in Hy. injection Hy as <-. by apply Hr. }
  destruct Hr as (Hkal&Hkva&Hkend&Hfree&Hc&_&Hg).
  destruct (sane_claim s kernel_vm x x' kva _ S Hx Hinv' ltac:(congruence) Hg Hfree Hc) as [S1 O1].
  set (s1 := put_vm kernel_vm x' s) in *.
  assert (∀ w, space_mmu s1 w = space_mmu s w) as Hmm by (intros w; apply space_mmu_put_vm).
  destruct (wire_pages_ok (Z.to_nat n) v b kva fault 0 s1 m k) as (s2&ps&Hrun&Hlps&S2&W);
    rewrite ?Z.mul_0_r, ?Z.add_0_r, ?Z2Nat.id by lia; rewrite ?Hmm; try done; try lia.
  { intros a Ha Haal. destruct (Hw a Ha Haal) as [Hra Hcase]. split; [done|].
    destruct Hcase as [?|(?&?&Hst)]; [by left|right]. split; [done|]. split; [done|].
    unfold s1. rewrite space_vm_put_vm_ne by done. by intros y (y0&Hy0%Hst&->)%fmap_Some. }
  { intros a Ha Haal. specialize (Hfree a Ha). split; [by apply (mi_span s S kernel_vm x k a false)|].
    split; [by apply (mi_free s S kernel_vm x k a)|]. unfold s1. intros y Hy.
    rewrite space_vm_put_vm in Hy by (by eapply space_vm_spaces). injection Hy as <-.
    intros Hst%Hc. by rewrite decide_True in Hst. }
  { change (mc_pages s1) with (mc_pages s). lia. }
  rewrite !Z.mul_0_r, !Z.add_0_r in W. rewrite wp_bind. unfold wp at 1. rewrite Hrun, wp_ret.
  exists kva. split; [done|]. split; [done|]. split; [unfold kernel_range; lia|].
  destruct W as [V2 O2 (m0&m2&Hm0&Hm2&[Mr Mt]&Mk) (k0&k2&Hk0&Hk2&[Kr Kt])].
  rewrite Hmm, Hm in Hm0. injection Hm0 as <-. rewrite Hmm, Hk in Hk0. injection Hk0 as <-.
  split.
  - intros a Ha. destruct (wire_address uvaddr len a Hu Hlen Hend Ha) as (_&_&_&_&_&Hfl&Hix).
    fold b n in Hfl, Hix |- *. set (i := (a - b) / 8192) in *.
    assert (∀ c, c mod 8192 = 0 → run_page c ps (c + 8192 * i) = ps !! Z.to_nat i) as Hat.
    { intros c _. unfold run_page. rewrite (Z.mul_comm 8192 i), Z.div_add by lia.
      rewrite decide_True by lia. f_equal. lia. }
    destruct (ps !! Z.to_nat i) as [p|] eqn:Hpi; [|apply lookup_ge_None in Hpi; lia].
    destruct (Hw (b + 8192 * i)) as [Hra _]; [lia| |].
    { rewrite (Z.mul_comm 8192 i). by rewrite Z.mod_add. }
    assert (in_range k (kva + 8192 * i)) as Hka.
    { apply (mi_span s S kernel_vm x k _ false); try done; [|apply Hfree; lia].
      rewrite (Z.mul_comm 8192 i). by rewrite Z.mod_add. }
    exists (page_paddr p). split.
    + apply (extracts_translate s2 v m2 a (b + 8192 * i)); try done; [lia|by apply Mr|].
      by rewrite Mt, Hat by done.
    + assert (a - b < 8192 * n) as Hlt by (unfold i in *; Z.to_euclidean_division_equations; lia).
      apply (extracts_translate s2 kernel_vm k2 _ (kva + 8192 * i)); try done; [lia| |by apply Kr|].
      * rewrite PAGE_FLOOR_sub by lia. unfold i. apply Z.div_exact in Hkal; [|lia].
        Z.to_euclidean_division_equations. lia.
      * by rewrite Kt, Hat by done.
  - intros m0 va pa Hm0 Hva Ht. rewrite Hm in Hm0. injection Hm0 as <-.
    exists m2. split; [done|]. by apply Mk.
  - intros w Hw1 Hw2. rewrite V2. split.
    + by apply (O1 w Hw2).
    + rewrite <-(Hmm w). by apply O2.
Qed.

(** C4: [vm_wire], for memory of a user address space that is mapped or may be
    faulted in, gives the kernel an address at which it sees that memory:
    every address of the range and the kernel address at the same distance
    translate to the same physical page.  What the address space translated
    to before stays, and no third address space changes.  This is for a
    machine that meets [sane], a range of [n] < 2^31 pages, five free pages
    for each of them (the page and the tables on both sides) and a reference
    count with room for [n] more on each page that is mapped ([wirable]); then
    it stops only for want of kernel addresses or of memory for a range
    record. *)
Theorem vm_wire_correct s v m k uvaddr len fault :
  sane s → v ≠ kernel_vm → space_mmu s v = Some m → space_mmu s kernel_vm = Some k →
  0 ≤ uvaddr → 0 < len → uvaddr + len + 16384 < 2 ^ 64 →
  let b := PAGE_FLOOR uvaddr in let n := PAGE_COUNT (uvaddr + len - b) in
  n < 2 ^ 31 → 5 * n ≤ Z.of_nat (length (page_free_queue (mc_pages s))) →
  (∀ a, b ≤ a < b + 8192 * n → a mod 8192 = 0 → wirable s v fault n m a) →
  wp (vm_wire kernel_vm v uvaddr len fault)
    (λ r s', ∃ kva, r = Ok (kva, uvaddr mod 8192) ∧ sane s' ∧ aliased v uvaddr len kva s s')
    (wire_stop s n) s.
Proof.
  intros S Hv Hm Hk Hu Hlen Hend b n Hn31 Hf Hw. eapply wp_mono; [by eapply vm_wire_outcome| |done].
  cbv beta. intros r s' (kva&->&S'&_&A). by exists kva.
Qed.
End correctness.

(** * Example: a page of a new address space *)

Definition user_alloc_machine : machine (list Z * Z) :=
  outcome_state user_machine (vm_alloc 0 0x100 5000 VM_ALLOC_HIGH user_machine).

Lemma user_alloc_run :
  vm_alloc 0 0x100 5000 VM_ALLOC_HIGH user_machine = Done (Ok 0xffffffe000) user_alloc_machine.
Proof. vm_compute. reflexivity. Qed.

Lemma user_machine_ready :
  sane user_machine ∧ ∃ x m, space_vm user_machine 0x100 = Some x ∧
    space_mmu user_machine 0x100 = Some m ∧ in_range m 0x4000 ∧ translate m 0x4000 = None.
Proof.
  destruct vm_setup_correct_witness as (v&x&m&Hr&S&Hx&Hm&Hst&Ht).
  rewrite user_setup_run in Hr. injection Hr as <-.
  split; [done|]. exists x, m. split_and!; [done|done| |apply Ht].
  apply (mi_span _ S 0x100 x m 0x4000 false); [done|done|done|]. by apply Hst.
Qed.

Lemma vm_alloc_correct_witness :
  ∃ ps, length ps = 1%nat ∧ vm_alloc 0 0x100 5000 VM_ALLOC_HIGH user_machine =
      Done (Ok 0xffffffe000) user_alloc_machine ∧ sane user_alloc_machine ∧
    allocated 0x100 0xffffffe000 ps user_machine user_alloc_machine.
Proof.
  destruct user_machine_ready as (S&x&m&Hx&Hm&_).
  assert (vm_alloc_size 0 0x100 5000) as Hs by (split; [lia|split; [lia|discriminate]]).
  pose proof (vm_alloc_correct 0 user_machine 0x100 5000 VM_ALLOC_HIGH x m S Hx Hm Hs
    ltac:(vm_compute; lia)) as Hw.
  destruct (wp_done _ _ _ _ _ _ Hw user_alloc_run) as [S1 (ps&Hl&A)]. exists ps. split; [exact Hl|]. split; [exact user_alloc_run|].
  split; [exact S1|exact A].
Defined.

Lemma vm_alloc_free_witness :
  ∃ s2, vm_free 0 0x100 5000 0xffffffe000 user_alloc_machine = Done (Ok tt) s2 ∧ sane s2 ∧
    others_same 0x100 user_machine s2.
Proof.
  destruct user_machine_ready as (S&x&m&Hx&Hm&_).
  assert (vm_alloc_size 0 0x100 5000) as Hs by (split; [lia|split; [lia|discriminate]]).
  destruct (vm_alloc_free 0 user_machine user_alloc_machine 0x100 5000 VM_ALLOC_HIGH 0xffffffe000
    x m S Hx Hm Hs ltac:(vm_compute; lia) user_alloc_run) as (ps&s2&x2&m2&_&Hf&S2&_&_&_&_&_&O).
  exists s2. split; [exact Hf|]. split; [exact S2|exact O].
Defined.
