(* ===== verification/VmExample.v ===== *)
(** A machine with thirty-two pages, whose kernel has addresses to give, and a
    user's address space: [vm_wire] over two pages, the first of them faulted
    in. *)

From S2P Require Import Prelude MachineInt Btree Spinlock Pool VmIndex VmPage Pmap PmapTables VmSpace VmAlloc.

Local Open Scope Z_scope.
Local Open Scope c_scope.

(** * The machine *)

Definition store_pages : pages := Eval vm_compute in
  match page_insert_pages boot_base 32 (page_init ∅) with Done _ s => s | Stop _ => page_init ∅ end.
Lemma store_pages_ok : sound store_pages ∧ covered store_pages [boot_base].
Proof.
  destruct (page_insert_pages_covered (page_init ∅) [] boot_base 32) as (s'&Hr&Hs&Hc);
    [apply page_init_sound| |constructor| |done..|].
  - split; [by repeat constructor|]. intros p. simpl. rewrite dom_empty. by intros ?%elem_of_empty.
  - intros b i _ _ _. simpl. rewrite dom_empty. apply not_elem_of_empty.
  - assert (store_pages = s') as ->; [|done]. change store_pages with
      (match page_insert_pages boot_base 32 (page_init ∅) with
       | Done _ s => s | Stop _ => page_init ∅ end). by rewrite Hr.
Qed.

(** The ranges of the kernel: all its pages but the first, free. *)
Definition no_ranges : vm (list Z * Z) := mk_vm 1 Leaf Leaf ∅ ([], 1).
Definition kernel_ranges : vm (list Z * Z) := Eval vm_compute in
  outcome_state no_ranges (vm_insert_range (KERNEL_BASE + 8192) KERNEL_END no_ranges).
Lemma kernel_ranges_run : vm_insert_range (KERNEL_BASE + 8192) KERNEL_END no_ranges = Done (Ok tt) kernel_ranges.
Proof. vm_compute. reflexivity. Qed.

Definition store_bare : machine (list Z * Z) :=
  mk_machine store_pages (mk_cpu false 0 false true) 1 ([], 1) ([], 0x100) ([], 0x200) ∅.
Definition store_kernel : machine (list Z * Z) :=
  mk_machine store_pages (mk_cpu false 0 false true) 1 (vm_index_pool kernel_ranges) ([], 0x100) ([], 0x200)
    {[0 := mk_space 0 (vm_ranges kernel_ranges) (vm_index_free kernel_ranges) (vmi_store kernel_ranges)
             (Some (empty_pmap KERNEL_BASE KERNEL_END)) []]}.

Lemma no_objects : op_inv (([], 1) : list Z * Z).
Proof. split; [done|]. intros x Hx. by apply elem_of_nil in Hx. Qed.

Lemma store_bare_sane : sane store_bare.
Proof.
  apply (no_spaces_sane _ [boot_base]); [done|apply no_objects|apply store_pages_ok|apply store_pages_ok|].
  intros p Hp. destruct store_pages_ok as [_ [_ Hc]]. destruct (Hc p Hp) as (b&i&Hb&Hi&->).
  apply list_elem_of_singleton in Hb as ->. rewrite page_paddr_of; [|by vm_compute|done].
  change VM_PAGE_TREE_ENTRIES with 340 in Hi. unfold boot_base. lia.
Qed.

Lemma store_kernel_sane : sane store_kernel.
Proof.
  destruct (bare_inv (([], 1) : list Z * Z) 1 no_objects) as [Hi Hno].
  pose proof (vm_insert_range_outcome no_ranges (KERNEL_BASE + 8192) KERNEL_END Hi ltac:(simpl; lia) ltac:(done)
    ltac:(done) ltac:(done)) as Hw.
  assert (∀ a, KERNEL_BASE + 8192 ≤ a < KERNEL_BASE + 8192 + PAGE_ROUNDUP (KERNEL_END - (KERNEL_BASE + 8192)) →
    ¬ managed no_ranges a) as Hfree by (intros a _ (b&Hst); by apply (Hno a b)).
  specialize (Hw Hfree). destruct (wp_done _ _ _ _ _ _ Hw kernel_ranges_run) as (_&Hinv&Hl&Hst&Hg).
  apply (sane_add store_bare store_kernel 0 (set_lock 0 kernel_ranges)
    (mk_mmu store_pages (empty_pmap KERNEL_BASE KERNEL_END) (mk_cpu false 0 false true) 1 [])); try done.
  - apply store_bare_sane.
  - intros w Hw'. unfold store_kernel. cbn. by rewrite lookup_singleton_ne.
  - split; vm_compute; try done. by right.
  - intros a b Ha Hs. rewrite status_lock, Hst in Hs. destruct Hs as [Hs|[Hs _]]; [by apply Hno in Hs|].
    change (PAGE_ROUNDUP (KERNEL_END - (KERNEL_BASE + 8192))) with 0xff7fffe000 in Hs.
    unfold in_range. cbn. unfold KERNEL_BASE, KERNEL_END in *. Z.to_euclidean_division_equations. lia.
Qed.

(** A user's address space, with one page. *)
Definition store_user : machine (list Z * Z) :=
  outcome_state store_kernel (vm_setup 0 0 1 (empty_pmap 0 0) USER_BASE USER_END store_kernel).
Lemma store_user_run : vm_setup 0 0 1 (empty_pmap 0 0) USER_BASE USER_END store_kernel = Done (Ok 0x100) store_user.
Proof. vm_compute. reflexivity. Qed.
#[local] Opaque store_user.

Lemma store_user_ready :
  sane store_user ∧ ∃ x m, space_vm store_user 0x100 = Some x ∧ space_mmu store_user 0x100 = Some m ∧
    (∀ a b, status x a b ↔ 0x2000 ≤ a < 0x10000000000 ∧ b = false) ∧ (∀ va, translate m va = None).
Proof.
  assert (setup_ready 0 0 (empty_pmap 0 0) store_kernel) as R.
  { split; try (by vm_compute); try apply (no_objects).
    - split; [done|]. intros x Hx. by apply elem_of_nil in Hx.
    - split; [done|]. intros x Hx. by apply elem_of_nil in Hx.
    - intros v [sp Hsp]. left. unfold store_kernel in Hsp. cbn in Hsp.
      by apply lookup_singleton_Some in Hsp as [<- _].
    - intros o v o' Ho Hal. destruct (op_alloc_ok o v o' Ho Hal) as (Ho'&_&Hl).
      assert (0 < v) by (apply (op_live_pos o' v Ho'), Hl; by right). lia. }
  assert (span_ok USER_BASE USER_END) as Sp by (split; [by vm_compute|by vm_compute|by vm_compute|by left]).
  pose proof (vm_setup_outcome 0 0 1 (empty_pmap 0 0) USER_BASE USER_END store_kernel store_kernel_sane R Sp) as Hw.
  destruct (wp_done _ _ _ _ _ _ Hw store_user_run) as (v&x&m&Hv&_&S&Hx&Hm&Hst&_&Ht&_). injection Hv as <-.
  split; [exact S|]. exists x, m. split; [exact Hx|]. split; [exact Hm|]. split; [exact Hst|exact Ht].
Qed.

(** The page at [user_page], and the one before it claimed. *)
Definition user_page : Z := 0xffffffe000.
Definition store_alloc : machine (list Z * Z) :=
  outcome_state store_user (vm_alloc 0 0x100 5000 VM_ALLOC_HIGH store_user).
Lemma store_alloc_run : vm_alloc 0 0x100 5000 VM_ALLOC_HIGH store_user = Done (Ok user_page) store_alloc.
Proof. vm_compute. reflexivity. Qed.
#[local] Opaque store_alloc.
Definition store_claim : machine (list Z * Z) :=
  outcome_state store_alloc (on_vm 0x100 (vm_alloc_range (user_page - 8192) user_page) store_alloc).
Lemma store_claim_run :
  on_vm 0x100 (vm_alloc_range (user_page - 8192) user_page) store_alloc = Done (Ok tt) store_claim.
Proof. vm_compute. reflexivity. Qed.
#[local] Opaque store_claim.

(** What is known of the address spaces: the page is mapped with two
    references, the one before it is not mapped and not free. *)
Lemma store_alloc_ready :
  sane store_alloc ∧ ∃ x m p, space_vm store_alloc 0x100 = Some x ∧ space_mmu store_alloc 0x100 = Some m ∧
    in_range m (user_page - 8192) ∧ in_range m user_page ∧
    translate m (user_page - 8192) = None ∧ translate m user_page = Some (page_paddr p) ∧
    pg_refcnt (mc_pages store_alloc) !! p = Some 2.
Proof.
  destruct store_user_ready as (S&x&m&Hx&Hm&Hst&Ht).
  assert (vm_alloc_size 0 0x100 5000) as Hs by (split; [lia|split; [lia|discriminate]]).
  pose proof (vm_alloc_outcome 0 store_user 0x100 5000 VM_ALLOC_HIGH x m S Hx Hm Hs ltac:(vm_compute; lia)) as Hw.
  destruct (wp_done _ _ _ _ _ _ Hw store_alloc_run) as [S1 (ps&Hl&A)]. split; [exact S1|].
  destruct ps as [|p [|q ps]]; [discriminate Hl| |discriminate Hl].
  destruct (ad_mapped _ _ _ _ _ A) as (m0&m1&Hm0&Hm1&Hr&Htr). pose proof (eq_trans (eq_sym Hm0) Hm) as E. injection E as ->. clear Hm0.
  destruct (ad_ranges _ _ _ _ _ A) as (x0&x1&_&Hx1&_).
  assert (∀ a, 0x2000 ≤ a < 0x10000000000 → a mod 8192 = 0 → in_range m a) as Hin.
  { intros a Ha Hal. apply (mi_span _ S 0x100 x m a false Hx Hm Hal). apply Hst. by split. }
  assert (in_range m (user_page - 8192)) as H1 by (apply Hin; [by unfold user_page; lia|reflexivity]).
  assert (in_range m user_page) as H2 by (apply Hin; [by unfold user_page; lia|reflexivity]).
  exists x1, m1, p. split; [exact Hx1|]. split; [exact Hm1|]. split; [apply Hr, H1|]. split; [apply Hr, H2|].
  rewrite (Htr _ H1), (Htr _ H2). split; [|split].
  - exact (Ht _).
  - reflexivity.
  - apply (ad_pages _ _ _ _ _ A). by left.
Qed.

Lemma put_vm_pages {Ob} (s : machine Ob) v x : mc_pages (put_vm v x s) = mc_pages s.
Proof. done. Qed.
Lemma store_claim_ready :
  sane store_claim ∧ ∃ m k, space_mmu store_claim 0x100 = Some m ∧ space_mmu store_claim 0 = Some k ∧
    wirable store_claim 0x100 true 2 m (user_page - 8192) ∧ wirable store_claim 0x100 true 2 m user_page.
Proof.
  destruct store_alloc_ready as (S&x&m&p&Hx&Hm&H1&H2&Ht1&Ht2&Hp).
  destruct (mi_vm _ S 0x100 x Hx) as [Hinv Hl].
  pose proof (vm_alloc_range_outcome x (user_page - 8192) user_page Hinv ltac:(lia) ltac:(unfold user_page; lia)
    ltac:(unfold user_page; lia)) as Hw.
  change (PAGE_FLOOR (user_page - 8192)) with (user_page - 8192) in Hw. change (PAGE_ROUNDUP user_page) with user_page in Hw.
  destruct (on_vm_inv _ _ x _ _ _ Hx store_claim_run) as (x'&Hrun&Hs).
  destruct (wp_done _ _ _ _ _ _ Hw Hrun) as (Hinv'&Hl'&Hc&Hfree&_&Hg).
  destruct (sane_claim store_alloc 0x100 x x' _ _ S Hx Hinv' ltac:(congruence) Hg Hfree Hc) as [S1 O1].
  assert (∃ k, space_mmu store_alloc 0 = Some k) as [k Hk] by (eexists; vm_compute; reflexivity).
  rewrite Hs. split; [exact S1|]. exists m, k. rewrite !space_mmu_put_vm. split; [exact Hm|].
  split; [exact Hk|]. split; (split; [done|]).
  - right. split; [done|]. split; [exact Ht1|]. intros y Hy Hst. rewrite space_vm_put_vm in Hy by (by eapply space_vm_spaces).
    injection Hy as <-. apply Hc in Hst. by rewrite decide_True in Hst by (unfold user_page; lia).
  - left. exists p, 2. split; [exact Ht2|]. rewrite put_vm_pages. split; [exact Hp|lia].
Qed.

(** * Two pages of the user's wired

    The kernel sees ten thousand bytes from the middle of the first page on. *)

Definition store_wire : machine (list Z * Z) :=
  outcome_state store_claim (vm_wire 0 0x100 (user_page - 8000) 10000 true store_claim).
Lemma store_wire_run :
  ∃ r, vm_wire 0 0x100 (user_page - 8000) 10000 true store_claim = Done r store_wire.
Proof. eexists. vm_compute. reflexivity. Qed.
#[local] Opaque store_wire.

Lemma vm_wire_correct_witness :
  ∃ kva, vm_wire 0 0x100 (user_page - 8000) 10000 true store_claim = Done (Ok (kva, 192)) store_wire ∧
    sane store_wire ∧ aliased 0 0x100 (user_page - 8000) 10000 kva store_claim store_wire.
Proof.
  destruct store_claim_ready as (S&m&k&Hm&Hk&Hw1&Hw2).
  pose proof (vm_wire_correct 0 store_claim 0x100 m k (user_page - 8000) 10000 true S ltac:(lia) Hm Hk
    ltac:(unfold user_page; lia) ltac:(lia) ltac:(unfold user_page; lia)) as Ho. cbv zeta in Ho.
  change (PAGE_FLOOR (user_page - 8000)) with (user_page - 8192) in Ho.
  change (PAGE_COUNT (user_page - 8000 + 10000 - (user_page - 8192))) with 2 in Ho.
  specialize (Ho ltac:(lia) ltac:(vm_compute; discriminate)).
  assert (∀ a, user_page - 8192 ≤ a < user_page - 8192 + 8192 * 2 → a mod 8192 = 0 →
    wirable store_claim 0x100 true 2 m a) as Hall.
  { intros a Ha Hal. assert (a = user_page - 8192 ∨ a = user_page) as [->| ->]; [|exact Hw1|exact Hw2].
    unfold user_page in *. Z.to_euclidean_division_equations. lia. }
  specialize (Ho Hall).
  destruct store_wire_run as [r Hrun]. destruct (wp_done _ _ _ _ _ _ Ho Hrun) as (kva&->&S2&A).
  exists kva. split; [exact Hrun|]. split; [exact S2|exact A].
Defined.

(** Both pages have one more reference, and the kernel has two pages less to
    give. *)
Example store_wire_runs :
  match vm_wire 0 0x100 (user_page - 8000) 10000 true store_claim with
  | Done (Ok (kva, o)) s => o = 192 ∧ kva mod 8192 = 0 ∧ KERNEL_BASE < kva
  | _ => False
  end.
Proof. vm_compute. split_and!; reflexivity. Qed.
