(* ===== verification/CString.v ===== *)
(** Memory and string functions ([mk/core/string.h]).

    Memory is a map from addresses to bytes; an address that is not there must
    not be read or written.  [char] is signed, as it is on MIPS.  Loops that
    end at a zero byte take fuel.

    The theorems: the functions that copy by words of several sizes do what a
    copy by bytes does, [memmove] also when the ranges overlap; the string
    functions do what they say of the sequence of characters before the zero
    byte, and [strlcpy] never writes outside the buffer. *)

From S2P Require Import Prelude.

Local Open Scope Z_scope.
Local Open Scope c_scope.

Notation mem := (gmap Z Z).

Definition load8 (a : Z) : M mem Z := m <- get ;; deref "byte" (m !! a).
Definition store8 (a b : Z) : M mem unit :=
  m <- get ;; _ <- deref "byte" (m !! a) ;; put (<[a := b]> m).

(** The bytes of a word. *)
Fixpoint load_bytes (w : nat) (a : Z) : M mem (list Z) :=
  match w with
  | O => ret []
  | S w => b <- load8 a ;; l <- load_bytes w (a + 1) ;; ret (b :: l)
  end.
Fixpoint store_bytes (a : Z) (l : list Z) : M mem unit :=
  match l with
  | [] => ret tt
  | b :: l => store8 a b ;;; store_bytes (a + 1) l
  end.

(** [char] *)
Definition char_of (b : Z) : Z := if b <? 128 then b else b - 256.

Section string.
(** The byte order of the machine: most significant byte first or last. *)
Context (big : bool).

Fixpoint to_bytes (w : nat) (v : Z) : list Z :=
  match w with O => [] | S w => v mod 256 :: to_bytes w (v / 256) end.
Definition word_bytes (w : nat) (v : Z) : list Z :=
  if big then reverse (to_bytes w v) else to_bytes w v.

(** * Memory *)

Fixpoint memchr (p ch : Z) (len : nat) : M mem (option Z) :=
  match len with
  | O => ret None
  | S len =>
      b <- load8 p ;;
      if char_of b =? ch then ret (Some p) else memchr (p + 1) ch len
  end.

Fixpoint memcmp_loop (a b : Z) (len : nat) : M mem Z :=
  x <- load8 a ;;
  y <- load8 b ;;
  match len with
  | S (S _ as len') => if x =? y then memcmp_loop (a + 1) (b + 1) len' else ret (x - y)
  | _ => ret (x - y)
  end.
Definition memcmp (p q : Z) (len : nat) : M mem Z :=
  match len with O => ret 0 | _ => memcmp_loop p q len end.

(** [while (len--) *d++ = *s++] for words of [w] bytes. *)
Fixpoint copy_loop (w n : nat) (d s : Z) : M mem unit :=
  match n with
  | O => ret tt
  | S n =>
      l <- load_bytes w s ;;
      store_bytes d l ;;;
      copy_loop w n (d + Z.of_nat w) (s + Z.of_nat w)
  end.

Definition memcpy (dst src : Z) (len : nat) : M mem unit :=
  let bits := Z.lor (Z.lor dst src) (Z.of_nat len) in
  if Z.land bits 7 =? 0 then copy_loop 8 (len `div` 8) dst src
  else if Z.land bits 3 =? 0 then copy_loop 4 (len `div` 4) dst src
  else if Z.land bits 1 =? 0 then copy_loop 2 (len `div` 2) dst src
  else copy_loop 1 len dst src.

Fixpoint copy_back (n : nat) (d s : Z) : M mem unit :=
  match n with
  | O => ret tt
  | S n =>
      b <- load8 (s - 1) ;;
      store8 (d - 1) b ;;;
      copy_back n (d - 1) (s - 1)
  end.

Definition memmove (dst src : Z) (len : nat) : M mem unit :=
  if dst <? src then copy_loop 1 len dst src
  else copy_back len (dst + Z.of_nat len) (src + Z.of_nat len).

(** [while (len--) *d++ = v] for words of [w] bytes. *)
Fixpoint set_loop (w n : nat) (d v : Z) : M mem unit :=
  match n with
  | O => ret tt
  | S n => store_bytes d (word_bytes w v) ;;; set_loop w n (d + Z.of_nat w) v
  end.

Definition shifts (val : Z) (l : list Z) : Z := foldr (λ k v, Z.lor (Z.shiftl val k) v) 0 l.

Definition memset (dst val : Z) (len : nat) : M mem unit :=
  let val := Z.land val 0xff in
  let bits := Z.lor dst (Z.of_nat len) in
  if Z.land bits 7 =? 0 then
    set_loop 8 (len `div` 8) dst (shifts val [0; 8; 16; 24; 32; 40; 48; 56; 56])
  else if Z.land bits 3 =? 0 then
    set_loop 4 (len `div` 4) dst (shifts val [0; 8; 16; 24])
  else if Z.land bits 1 =? 0 then set_loop 2 (len `div` 2) dst (shifts val [0; 8])
  else set_loop 1 len dst val.
End string.

(** * Strings *)

Fixpoint strchr (fuel : nat) (str ch : Z) : M mem (option Z) :=
  match fuel with
  | O => halt OutOfFuel
  | S fuel =>
      b <- load8 str ;;
      if b =? 0 then ret None
      else if b =? ch then ret (Some str) else strchr fuel (str + 1) ch
  end.

Fixpoint strcmp (fuel : nat) (a b : Z) : M mem Z :=
  match fuel with
  | O => halt OutOfFuel
  | S fuel =>
      x <- load8 a ;;
      if x =? 0 then y <- load8 b ;; ret (char_of x - char_of y)
      else
        y <- load8 b ;;
        if x =? y then strcmp fuel (a + 1) (b + 1) else ret (char_of x - char_of y)
  end.

(** The loop at [count:]. *)
Fixpoint count_loop (fuel : nat) (s src : Z) : M mem Z :=
  match fuel with
  | O => halt OutOfFuel
  | S fuel =>
      b <- load8 s ;;
      if b =? 0 then ret (s + 1 - src) else count_loop fuel (s + 1) src
  end.

(** [while (--len)], and what follows. *)
Fixpoint strlcpy_loop (fuel : nat) (dst s src len : Z) : M mem Z :=
  match fuel with
  | O => halt OutOfFuel
  | S fuel' =>
      let len := len - 1 in
      if len =? 0 then store8 dst 0 ;;; count_loop fuel s src
      else
        b <- load8 s ;;
        store8 dst b ;;;
        if b =? 0 then ret (s + 1 - src) else strlcpy_loop fuel' (dst + 1) (s + 1) src len
  end.

Definition strlcpy (fuel : nat) (dst src len : Z) : M mem Z :=
  let s := src in
  let src := src + 1 in
  if len =? 0 then count_loop fuel s src else strlcpy_loop fuel dst s src len.

Fixpoint strlen_loop (fuel : nat) (p s : Z) : M mem Z :=
  match fuel with
  | O => halt OutOfFuel
  | S fuel =>
      b <- load8 p ;; if b =? 0 then ret (p - s) else strlen_loop fuel (p + 1) s
  end.
Definition strlen (fuel : nat) (s : Z) : M mem Z := strlen_loop fuel s s.

Definition strlcat (fuel : nat) (dst src len : Z) : M mem Z :=
  dlen <- strlen fuel dst ;;
  n <- strlcpy fuel (dst + dlen) src (u64 (len - dlen)) ;;
  ret (u64 (dlen + n)).

Fixpoint strncmp (fuel : nat) (a b n : Z) : M mem Z :=
  match fuel with
  | O => halt OutOfFuel
  | S fuel =>
      let differ := x <- load8 a ;; y <- load8 b ;; ret (char_of x - char_of y) in
      if n =? 0 then differ
      else
        x <- load8 a ;;
        if x =? 0 then differ
        else
          y <- load8 b ;;
          if negb (x =? y) then differ
          else if n - 1 =? 0 then ret 0
          else strncmp fuel (a + 1) (b + 1) (n - 1)
  end.

(** * Ranges of memory *)

(** The bytes [l] are at [a]. *)
Definition bytes_at (m : mem) (a : Z) (l : list Z) : Prop :=
  ∀ i b, l !! i = Some b → m !! (a + Z.of_nat i) = Some b.
Definition allocated (m : mem) (a : Z) (n : nat) : Prop :=
  ∀ i, (i < n)%nat → is_Some (m !! (a + Z.of_nat i)).
Fixpoint write_bytes (a : Z) (l : list Z) (m : mem) : mem :=
  match l with [] => m | b :: l => write_bytes (a + 1) l (<[a := b]> m) end.
(** The characters [l] and the zero byte are at [a]. *)
Definition cstring (m : mem) (a : Z) (l : list Z) : Prop :=
  bytes_at m a (l ++ [0]) ∧ 0 ∉ l.

Lemma write_bytes_out a l : ∀ m x,
  (x < a ∨ a + Z.of_nat (length l) ≤ x) → write_bytes a l m !! x = m !! x.
Proof.
  revert a. induction l as [|b l IH]; intros a m x Hx; simpl in *; [done|].
  rewrite IH by lia. by rewrite lookup_insert_ne by lia.
Qed.

Lemma write_bytes_in a l : ∀ m i b,
  l !! i = Some b → write_bytes a l m !! (a + Z.of_nat i) = Some b.
Proof.
  revert a. induction l as [|b0 l IH]; intros a m [|i] b Hi; simpl in *; try done.
  - injection Hi as <-. rewrite write_bytes_out by lia. by rewrite Z.add_0_r, lookup_insert_eq.
  - replace (a + Z.of_nat (S i)) with (a + 1 + Z.of_nat i) by lia. by apply IH.
Qed.

Lemma write_bytes_some a l m x : is_Some (m !! x) → is_Some (write_bytes a l m !! x).
Proof.
  revert a m. induction l as [|b l IH]; intros a m Hx; simpl; [done|]. apply IH.
  destruct (decide (a = x)) as [->|]; [by rewrite lookup_insert_eq|by rewrite lookup_insert_ne].
Qed.

Lemma write_bytes_app a l1 l2 m :
  write_bytes a (l1 ++ l2) m = write_bytes (a + Z.of_nat (length l1)) l2 (write_bytes a l1 m).
Proof.
  revert a m. induction l1 as [|b l1 IH]; intros a m; simpl; [by rewrite Z.add_0_r|].
  rewrite IH. f_equal. lia.
Qed.

Lemma bytes_at_app m a l1 l2 :
  bytes_at m a (l1 ++ l2) ↔ bytes_at m a l1 ∧ bytes_at m (a + Z.of_nat (length l1)) l2.
Proof.
  unfold bytes_at. split.
  - intros Hb. split; intros i b Hi.
    + apply Hb. rewrite lookup_app_l; [done|]. by eapply lookup_lt_Some.
    + rewrite <-Z.add_assoc, <-Nat2Z.inj_add. apply Hb. by rewrite lookup_app_r, Nat.add_sub' by lia.
  - intros [H1 H2] i b. destruct (decide (i < length l1)%nat) as [Hl|Hl].
    + rewrite lookup_app_l by done. apply H1.
    + rewrite lookup_app_r by lia. intros Hi. apply H2 in Hi.
      by replace (a + Z.of_nat (length l1) + Z.of_nat (i - length l1)) with (a + Z.of_nat i) in Hi by lia.
Qed.

Lemma bytes_at_cons m a b l : bytes_at m a (b :: l) ↔ m !! a = Some b ∧ bytes_at m (a + 1) l.
Proof.
  rewrite (bytes_at_app m a [b] l). unfold bytes_at at 1. split.
  - intros [H1 H2]. split; [|done]. specialize (H1 0%nat b eq_refl). by rewrite Z.add_0_r in H1.
  - intros [H1 H2]. split; [|done]. intros [|i] x Hi; simpl in *; [|done].
    injection Hi as <-. by rewrite Z.add_0_r.
Qed.

Lemma allocated_cons m a n : allocated m a (S n) ↔ is_Some (m !! a) ∧ allocated m (a + 1) n.
Proof.
  unfold allocated. split.
  - intros Ha. split.
    + specialize (Ha 0%nat). rewrite Z.add_0_r in Ha. apply Ha. lia.
    + intros i Hi. specialize (Ha (S i)). replace (a + 1 + Z.of_nat i) with (a + Z.of_nat (S i)) by lia.
      apply Ha. lia.
  - intros [H0 Ha] [|i] Hi; [by rewrite Z.add_0_r|].
    replace (a + Z.of_nat (S i)) with (a + 1 + Z.of_nat i) by lia. apply Ha. lia.
Qed.

Lemma load8_eq m a b : m !! a = Some b → load8 a m = Done b m.
Proof. intros Ha. unfold load8, bind, get. by rewrite Ha. Qed.
Lemma store8_eq m a b : is_Some (m !! a) → store8 a b m = Done tt (<[a := b]> m).
Proof. intros [x Ha]. unfold store8, bind, get. by rewrite Ha. Qed.

Lemma load_bytes_eq m l : ∀ a, bytes_at m a l → load_bytes (length l) a m = Done l m.
Proof.
  induction l as [|b l IH]; intros a Hb; [done|]. apply bytes_at_cons in Hb as [Hb Hl].
  simpl. unfold bind. rewrite (load8_eq _ _ b) by done. by rewrite IH.
Qed.

Lemma allocated_write m x n a l : allocated m x n → allocated (write_bytes a l m) x n.
Proof. intros Ha i Hi. by apply write_bytes_some, Ha. Qed.

Lemma store_bytes_eq l : ∀ a m,
  allocated m a (length l) → store_bytes a l m = Done tt (write_bytes a l m).
Proof.
  induction l as [|b l IH]; intros a m Ha; [done|]. apply allocated_cons in Ha as [H0 Ha].
  simpl. unfold bind. rewrite store8_eq by done. apply IH. by apply (allocated_write m _ _ a [b]).
Qed.

Lemma bytes_at_write m x l a l' :
  bytes_at m x l → (a + Z.of_nat (length l') ≤ x ∨ x + Z.of_nat (length l) ≤ a) →
  bytes_at (write_bytes a l' m) x l.
Proof.
  intros Hb Hd i b Hi. rewrite write_bytes_out; [by apply Hb|].
  apply lookup_lt_Some in Hi. lia.
Qed.

(** * Copying *)

Lemma split_list {A} (l : list A) (w n : nat) :
  length l = (w + n)%nat → ∃ l1 l2, l = l1 ++ l2 ∧ length l1 = w ∧ length l2 = n.
Proof.
  intros Hl. exists (take w l), (drop w l). rewrite take_drop, length_take, length_drop.
  split_and!; [done|lia..].
Qed.

Lemma copy_loop_eq w n l : ∀ d s m,
  length l = (w * n)%nat → bytes_at m s l → allocated m d (w * n) →
  (d ≤ s ∨ s + Z.of_nat (w * n) ≤ d) →
  copy_loop w n d s m = Done tt (write_bytes d l m).
Proof.
  revert l. induction n as [|n IH]; intros l d s m Hl Hb Ha Ho; simpl.
  { rewrite Nat.mul_0_r in Hl. by apply nil_length_inv in Hl as ->. }
  rewrite Nat.mul_succ_r, Nat.add_comm in Hl.
  destruct (split_list l w (w * n) Hl) as (l1&l2&->&H1&H2).
  apply bytes_at_app in Hb as [Hb1 Hb2]. unfold bind. rewrite <-H1 at 1.
  rewrite load_bytes_eq by done.
  rewrite store_bytes_eq by (intros i Hi; apply Ha; lia).
  rewrite write_bytes_app. rewrite H1 in Hb2 |- *.
  apply IH; [done| | |lia].
  - apply bytes_at_write; [done|]. lia.
  - apply allocated_write. intros i Hi.
    replace (d + Z.of_nat w + Z.of_nat i) with (d + Z.of_nat (w + i)) by lia. apply Ha. lia.
Qed.

Lemma copy_back_eq l : ∀ d s m,
  bytes_at m s l → allocated m d (length l) → s ≤ d →
  ∃ m', copy_back (length l) (d + Z.of_nat (length l)) (s + Z.of_nat (length l)) m = Done tt m' ∧
    ∀ x, m' !! x = write_bytes d l m !! x.
Proof.
  induction l as [|b l IH] using rev_ind; intros d s m Hb Ha Ho; [by exists m|].
  rewrite length_app, Nat.add_comm in *. simpl in *. apply bytes_at_app in Hb as [Hb1 Hb2].
  apply bytes_at_cons in Hb2 as [Hb2 _]. unfold bind.
  replace (s + Z.of_nat (S (length l)) - 1) with (s + Z.of_nat (length l)) by lia.
  replace (d + Z.of_nat (S (length l)) - 1) with (d + Z.of_nat (length l)) by lia.
  rewrite (load8_eq _ _ b), store8_eq by (try done; apply Ha; lia).
  destruct (IH d s (<[d + Z.of_nat (length l) := b]> m)) as (m'&Hm'&He).
  - apply (bytes_at_write m s l _ [b]); [done|]. simpl. lia.
  - apply (allocated_write m _ _ _ [b]). intros i Hi. apply Ha. lia.
  - done.
  - exists m'. split; [done|]. intros x. rewrite He, write_bytes_app. simpl.
    destruct (decide (d ≤ x < d + Z.of_nat (length l))) as [Hx|Hx].
    + assert (∃ i c, x = d + Z.of_nat i ∧ l !! i = Some c) as (i&c&->&Hi).
      { destruct (lookup_lt_is_Some_2 l (Z.to_nat (x - d))) as [c Hc]; [lia|].
        exists (Z.to_nat (x - d)), c. split; [lia|done]. }
      apply lookup_lt_Some in Hi as Hlt.
      rewrite lookup_insert_ne by lia. by rewrite !(write_bytes_in _ _ _ _ c).
    + rewrite write_bytes_out by lia.
      destruct (decide (x = d + Z.of_nat (length l))) as [->|Hne].
      * by rewrite !lookup_insert_eq.
      * rewrite !lookup_insert_ne by done. by rewrite write_bytes_out by lia.
Qed.

Lemma low_bits a b k : 0 ≤ k → 0 ≤ b → Z.land (Z.lor a b) (Z.ones k) = 0 → b mod 2 ^ k = 0.
Proof.
  intros Hk Hb Hl. rewrite Z.land_lor_distr_l in Hl. apply Z.lor_eq_0_iff in Hl as [_ Hl].
  by rewrite Z.land_ones in Hl.
Qed.

Lemma whole_words a (len w : nat) k :
  0 ≤ k → Z.of_nat w = 2 ^ k → Z.land (Z.lor a (Z.of_nat len)) (Z.ones k) = 0 →
  len = (w * (len `div` w))%nat.
Proof.
  intros Hk Hw Hl. apply low_bits in Hl; [|lia..]. rewrite <-Hw in Hl.
  assert (0 < 2 ^ k) by (apply Z.pow_pos_nonneg; lia).
  pose proof (Z.div_mod (Z.of_nat len) (Z.of_nat w)). rewrite <-Nat2Z.inj_div in *. lia.
Qed.

(** * Setting *)

Lemma set_loop_eq big w n v b : ∀ d m,
  word_bytes big w v = replicate w b → allocated m d (w * n) →
  set_loop big w n d v m = Done tt (write_bytes d (replicate (w * n) b) m).
Proof.
  induction n as [|n IH]; intros d m Hw Ha; simpl; [by rewrite Nat.mul_0_r|].
  unfold bind. rewrite Hw, store_bytes_eq by (rewrite length_replicate; intros i Hi; apply Ha; lia).
  rewrite IH, Nat.mul_succ_r, Nat.add_comm, replicate_add, write_bytes_app, length_replicate; try done.
  apply allocated_write. intros i Hi.
  replace (d + Z.of_nat w + Z.of_nat i) with (d + Z.of_nat (w + i)) by lia. apply Ha. lia.
Qed.

(** A statement about every byte, decided. *)
Lemma for_bytes (P : Z → bool) :
  forallb P (Z.of_nat <$> seq 0 256) = true → ∀ b, 0 ≤ b < 256 → P b = true.
Proof.
  intros Hp b Hb. rewrite forallb_forall in Hp. apply Hp. apply list_elem_of_In, list_elem_of_fmap.
  exists (Z.to_nat b). rewrite elem_of_seq. lia.
Qed.

Lemma shifts_bytes big b : 0 ≤ b < 256 →
  word_bytes big 8 (shifts b [0; 8; 16; 24; 32; 40; 48; 56; 56]) = replicate 8 b ∧
  word_bytes big 4 (shifts b [0; 8; 16; 24]) = replicate 4 b ∧
  word_bytes big 2 (shifts b [0; 8]) = replicate 2 b ∧ word_bytes big 1 b = [b].
Proof.
  intros Hb.
  set (P := λ b, bool_decide (word_bytes big 8 (shifts b [0; 8; 16; 24; 32; 40; 48; 56; 56]) = replicate 8 b ∧
    word_bytes big 4 (shifts b [0; 8; 16; 24]) = replicate 4 b ∧
    word_bytes big 2 (shifts b [0; 8]) = replicate 2 b ∧ word_bytes big 1 b = [b])).
  assert (P b = true) as Hp; [|by apply bool_decide_eq_true in Hp].
  apply for_bytes; [|done]. by destruct big; vm_compute.
Qed.

Lemma memset_ok big dst val len m :
  allocated m dst len →
  memset big dst val len m = Done tt (write_bytes dst (replicate len (val mod 256)) m).
Proof.
  intros Ha. unfold memset. change 0xff with (Z.ones 8). rewrite Z.land_ones by lia.
  change (2 ^ 8) with 256. set (b := val mod 256).
  assert (0 ≤ b < 256) as Hb by (apply Z.mod_pos_bound; lia).
  destruct (shifts_bytes big b Hb) as (H8&H4&H2&H1).
  destruct (Z.land (Z.lor dst (Z.of_nat len)) 7 =? 0) eqn:E8; zcmp.
  { apply (whole_words dst len 8 3) in E8; [|done..]. rewrite E8 in Ha |- * at 2.
    by erewrite set_loop_eq. }
  destruct (Z.land (Z.lor dst (Z.of_nat len)) 3 =? 0) eqn:E4; zcmp.
  { apply (whole_words dst len 4 2) in E4; [|done..]. rewrite E4 in Ha |- * at 2.
    by erewrite set_loop_eq. }
  destruct (Z.land (Z.lor dst (Z.of_nat len)) 1 =? 0) eqn:E2; zcmp.
  { apply (whole_words dst len 2 1) in E2; [|done..]. rewrite E2 in Ha |- * at 2.
    by erewrite set_loop_eq. }
  rewrite (set_loop_eq _ _ _ _ b); rewrite ?Nat.mul_1_l; done.
Qed.

(** * [memcpy] and [memmove] *)

Lemma memcpy_ok dst src l m :
  bytes_at m src l → allocated m dst (length l) →
  (dst ≤ src ∨ src + Z.of_nat (length l) ≤ dst) →
  memcpy dst src (length l) m = Done tt (write_bytes dst l m).
Proof.
  intros Hb Ha Hd. unfold memcpy. set (len := length l) in *.
  assert (∀ w k, 0 ≤ k → Z.of_nat w = 2 ^ k →
    Z.land (Z.lor (Z.lor dst src) (Z.of_nat len)) (Z.ones k) = 0 →
    copy_loop w (len `div` w) dst src m = Done tt (write_bytes dst l m)) as Hw.
  { intros w k Hk Hwk Hl. apply (whole_words _ len w k) in Hl; [|done..].
    apply copy_loop_eq; rewrite <- ?Hl; done. }
  destruct (Z.land _ 7 =? 0) eqn:E8; zcmp; [by apply (Hw 8%nat 3)|].
  destruct (Z.land _ 3 =? 0) eqn:E4; zcmp; [by apply (Hw 4%nat 2)|].
  destruct (Z.land _ 1 =? 0) eqn:E2; zcmp; [by apply (Hw 2%nat 1)|].
  apply copy_loop_eq; rewrite ?Nat.mul_1_l; done.
Qed.

Lemma memmove_ok dst src l m :
  bytes_at m src l → allocated m dst (length l) →
  memmove dst src (length l) m = Done tt (write_bytes dst l m).
Proof.
  intros Hb Ha. unfold memmove. destruct (dst <? src) eqn:E; zcmp.
  - apply copy_loop_eq; rewrite ?Nat.mul_1_l; try done. lia.
  - destruct (copy_back_eq l dst src m Hb Ha ltac:(lia)) as (m'&->&He). f_equal.
    by apply map_eq.
Qed.

(** * Strings *)

Lemma cstring_nil m a : cstring m a [] ↔ m !! a = Some 0.
Proof.
  unfold cstring. simpl. rewrite bytes_at_cons. split; [by intros [[]]|]. intros Ha.
  split; [split; [done|]|apply not_elem_of_nil]. intros i b Hi. by rewrite lookup_nil in Hi.
Qed.

Lemma cstring_cons m a b l :
  cstring m a (b :: l) ↔ m !! a = Some b ∧ b ≠ 0 ∧ cstring m (a + 1) l.
Proof.
  unfold cstring. simpl. rewrite bytes_at_cons, not_elem_of_cons. naive_solver.
Qed.

Lemma strlen_loop_ok m l : ∀ fuel p s,
  cstring m p l → (length l < fuel)%nat →
  strlen_loop fuel p s m = Done (p + Z.of_nat (length l) - s) m.
Proof.
  induction l as [|b l IH]; intros [|fuel] p s Hc Hf; simpl in *; try lia; unfold bind.
  - apply cstring_nil in Hc. rewrite (load8_eq _ _ 0) by done. simpl. unfold ret. f_equal. lia.
  - apply cstring_cons in Hc as (Hb&Hne&Hc). rewrite (load8_eq _ _ b) by done.
    rewrite (proj2 (Z.eqb_neq b 0)) by done. rewrite IH by (done || lia). f_equal. lia.
Qed.

Lemma strlen_ok m l fuel s :
  cstring m s l → (length l < fuel)%nat → strlen fuel s m = Done (Z.of_nat (length l)) m.
Proof. intros Hc Hf. unfold strlen. rewrite (strlen_loop_ok m l) by done. f_equal. lia. Qed.

Lemma count_loop_ok m l : ∀ fuel s src,
  cstring m s l → (length l < fuel)%nat →
  count_loop fuel s src m = Done (s + Z.of_nat (length l) + 1 - src) m.
Proof.
  induction l as [|b l IH]; intros [|fuel] s src Hc Hf; simpl in *; try lia; unfold bind.
  - apply cstring_nil in Hc. rewrite (load8_eq _ _ 0) by done. simpl. unfold ret. f_equal. lia.
  - apply cstring_cons in Hc as (Hb&Hne&Hc). rewrite (load8_eq _ _ b) by done.
    rewrite (proj2 (Z.eqb_neq b 0)) by done. rewrite IH by (done || lia). f_equal. lia.
Qed.

#[local] Arguments count_loop : simpl never.

(** A string is not touched by a write elsewhere. *)
Lemma cstring_write m s l a l' :
  cstring m s l → (a + Z.of_nat (length l') ≤ s ∨ s + Z.of_nat (length l) + 1 ≤ a) →
  cstring (write_bytes a l' m) s l.
Proof.
  intros [Hb Hn] Hd. split; [|done]. apply bytes_at_write; [done|].
  rewrite length_app. simpl. lia.
Qed.

(** What [strlcpy] leaves in a buffer of [len] bytes. *)
Definition truncated (len : Z) (l : list Z) : list Z := take (Z.to_nat (len - 1)) l ++ [0].

Lemma strlcpy_loop_ok l : ∀ fuel m dst s src len,
  0 < len → cstring m s l → (length l < fuel)%nat →
  allocated m dst (length (truncated len l)) →
  (dst + len ≤ s ∨ s + Z.of_nat (length l) + 1 ≤ dst) →
  strlcpy_loop fuel dst s src len m =
  Done (s + Z.of_nat (length l) + 1 - src) (write_bytes dst (truncated len l) m).
Proof.
  induction l as [|b l IH]; intros [|fuel] m dst s src len Hlen Hc Hf Ha Hd;
    [simpl in Hf; lia| |simpl in Hf; lia|]; unfold truncated in *; simpl.
  - rewrite take_nil in *. simpl in *. apply allocated_cons in Ha as [H0 _].
    destruct (len - 1 =? 0) eqn:E; zcmp; unfold bind.
    + rewrite store8_eq by done.
      assert (cstring (<[dst:=0]> m) s []) as Hc' by (apply (cstring_write m s [] dst [0]); [done|simpl in *; lia]).
      by rewrite (count_loop_ok _ [] (S fuel)) by (done || simpl; lia).
    + apply cstring_nil in Hc. rewrite (load8_eq _ _ 0), store8_eq by done. simpl. unfold ret.
      f_equal. lia.
  - destruct (len - 1 =? 0) eqn:E; zcmp; unfold bind.
    + assert (Z.to_nat (len - 1) = 0%nat) as Hz by lia. rewrite Hz in *. simpl in *.
      apply allocated_cons in Ha as [H0 _]. rewrite store8_eq by done.
      assert (cstring (<[dst:=0]> m) s (b :: l)) as Hc'
        by (apply (cstring_write m s (b :: l) dst [0]); [done|simpl in *; lia]).
      by rewrite (count_loop_ok _ (b :: l) (S fuel)) by (done || simpl in *; lia).
    + destruct (Z.to_nat (len - 1)) as [|k] eqn:Ek; [lia|]. simpl in *.
      apply cstring_cons in Hc as (Hb&Hne&Hc). apply allocated_cons in Ha as [H0 Ha].
      rewrite (load8_eq _ _ b), store8_eq by done. rewrite (proj2 (Z.eqb_neq b 0)) by done.
      assert (Z.to_nat (len - 1 - 1) = k) as Hk by lia.
      rewrite IH; rewrite ?Hk; try lia.
      * f_equal. lia.
      * apply (cstring_write m (s + 1) l dst [b]); [done|simpl in *; lia].
      * by apply (allocated_write m _ _ dst [b]).
Qed.

Lemma strlcpy_ok fuel m dst src l len :
  0 < len → cstring m src l → (length l < fuel)%nat →
  allocated m dst (length (truncated len l)) →
  (dst + len ≤ src ∨ src + Z.of_nat (length l) + 1 ≤ dst) →
  strlcpy fuel dst src len m =
  Done (Z.of_nat (length l)) (write_bytes dst (truncated len l) m).
Proof.
  intros Hlen Hc Hf Ha Hd. unfold strlcpy. rewrite (proj2 (Z.eqb_neq len 0)) by lia.
  rewrite (strlcpy_loop_ok l) by done. f_equal. lia.
Qed.

(** The difference of the first characters that are not the same. *)
Fixpoint chars_cmp (l1 l2 : list Z) : Z :=
  match l1, l2 with
  | [], [] => 0
  | [], b :: _ => - char_of b
  | a :: _, [] => char_of a
  | a :: l1, b :: l2 => if a =? b then chars_cmp l1 l2 else char_of a - char_of b
  end.

Lemma strcmp_ok m l1 : ∀ l2 fuel a b,
  cstring m a l1 → cstring m b l2 → (length l1 < fuel)%nat →
  strcmp fuel a b m = Done (chars_cmp l1 l2) m.
Proof.
  induction l1 as [|x l1 IH]; intros l2 [|fuel] a b H1 H2 Hf; simpl in *; try lia; unfold bind.
  - apply cstring_nil in H1. rewrite (load8_eq _ _ 0) by done. simpl.
    destruct l2 as [|y l2].
    + apply cstring_nil in H2. by rewrite (load8_eq _ _ 0).
    + apply cstring_cons in H2 as (Hy&_). by rewrite (load8_eq _ _ y).
  - apply cstring_cons in H1 as (Hx&Hx0&H1). rewrite (load8_eq _ _ x) by done.
    rewrite (proj2 (Z.eqb_neq x 0)) by done. destruct l2 as [|y l2].
    + apply cstring_nil in H2. rewrite (load8_eq _ _ 0) by done.
      rewrite (proj2 (Z.eqb_neq x 0)) by done. unfold ret. f_equal. change (char_of 0) with 0. lia.
    + apply cstring_cons in H2 as (Hy&_&H2). rewrite (load8_eq _ _ y) by done.
      destruct (x =? y); [by apply IH; [..|lia]|done].
Qed.

(** [strncmp] of at least one character compares the prefixes. *)
Lemma strncmp_ok m l1 : ∀ l2 fuel a b n,
  cstring m a l1 → cstring m b l2 → (length l1 < fuel)%nat → 0 < n →
  strncmp fuel a b n m = Done (chars_cmp (take (Z.to_nat n) l1) (take (Z.to_nat n) l2)) m.
Proof.
  induction l1 as [|x l1 IH]; intros l2 [|fuel] a b n H1 H2 Hf Hn; simpl in *; try lia; unfold bind;
    rewrite (proj2 (Z.eqb_neq n 0)) by lia; destruct (Z.to_nat n) as [|k] eqn:Ek; try lia.
  - apply cstring_nil in H1. rewrite ?take_nil.
    do 2 (rewrite (load8_eq _ a 0) by done; simpl).
    destruct l2 as [|y l2].
    + apply cstring_nil in H2. by rewrite (load8_eq _ _ 0).
    + apply cstring_cons in H2 as (Hy&_). by rewrite (load8_eq _ _ y).
  - apply cstring_cons in H1 as (Hx&Hx0&H1). rewrite (load8_eq _ a x) by done.
    rewrite (proj2 (Z.eqb_neq x 0)) by done. destruct l2 as [|y l2].
    + apply cstring_nil in H2. rewrite (load8_eq _ b 0) by done.
      rewrite (proj2 (Z.eqb_neq x 0)) by done. simpl. rewrite (load8_eq _ a x), (load8_eq _ b 0) by done.
      unfold ret. f_equal. change (char_of 0) with 0. lia.
    + apply cstring_cons in H2 as (Hy&_&H2). rewrite (load8_eq _ b y) by done. simpl.
      destruct (x =? y) eqn:Exy; simpl; [|by rewrite (load8_eq _ a x), (load8_eq _ b y)]. destruct (n - 1 =? 0) eqn:En; zcmp.
      * assert (k = 0%nat) as -> by lia. by rewrite !take_0.
      * rewrite (IH l2) by (try done; lia). by replace (Z.to_nat (n - 1)) with k by lia.
Qed.

Lemma chars_cmp_eq l1 : ∀ l2,
  Forall (λ b, 0 < b < 256) l1 → Forall (λ b, 0 < b < 256) l2 →
  chars_cmp l1 l2 = 0 ↔ l1 = l2.
Proof.
  assert (∀ b, 0 < b < 256 → char_of b ≠ 0) as Hnz
    by (intros b Hb; unfold char_of; case_match; lia).
  assert (∀ b c, 0 < b < 256 → 0 < c < 256 → char_of b = char_of c → b = c) as Hinj
    by (intros b c Hb Hc; unfold char_of; case_match; case_match; zcmp; lia).
  induction l1 as [|x l1 IH]; intros [|y l2] H1 H2; simpl; try done.
  - apply Forall_cons in H2 as [Hy _]. pose proof (Hnz y Hy). split; [lia|done].
  - apply Forall_cons in H1 as [Hx _]. pose proof (Hnz x Hx). split; [lia|done].
  - apply Forall_cons in H1 as [Hx H1], H2 as [Hy H2]. destruct (x =? y) eqn:E; zcmp.
    + subst. rewrite IH by done. split; [by intros ->|by intros [= ->]].
    + split; [|by intros [= ? _]]. intros Hd. exfalso. apply E, Hinj; [done..|lia].
Qed.

(** * The theorems *)

(** C39: whatever the alignment of the pointers and the length, and so whichever
    of the word sizes is used, [memcpy] of ranges that do not overlap writes
    exactly the source bytes to the destination; [memmove] does so for any two
    ranges; and [memset] writes [len] copies of the low byte of [val]. *)
Theorem memory_functions_correct big dst src val l m :
  allocated m dst (length l) →
  memset big dst val (length l) m =
    Done tt (write_bytes dst (replicate (length l) (val mod 256)) m) ∧
  (bytes_at m src l →
    memmove dst src (length l) m = Done tt (write_bytes dst l m) ∧
    (dst ≤ src ∨ src + Z.of_nat (length l) ≤ dst →
      memcpy dst src (length l) m = Done tt (write_bytes dst l m))).
Proof.
  intros Ha. split; [by apply memset_ok|]. intros Hb.
  split; [by apply memmove_ok|]. intros Hd. by apply memcpy_ok.
Qed.

(** [strlcpy] into a buffer of [len > 0] bytes writes the string, cut to
    [len - 1] characters, and a zero byte, nothing else; it returns the length
    of the whole source, so a result of at least [len] says that it was cut. *)
Theorem strlcpy_correct fuel m dst src l len :
  0 < len → cstring m src l → (length l < fuel)%nat →
  allocated m dst (length (truncated len l)) →
  (dst + len ≤ src ∨ src + Z.of_nat (length l) + 1 ≤ dst) →
  strlcpy fuel dst src len m =
    Done (Z.of_nat (length l)) (write_bytes dst (truncated len l) m) ∧
  Z.of_nat (length (truncated len l)) ≤ len ∧
  cstring (write_bytes dst (truncated len l) m) dst (take (Z.to_nat (len - 1)) l).
Proof.
  intros Hlen Hc Hf Ha Hd. split; [by apply strlcpy_ok|]. split.
  - unfold truncated. rewrite length_app, length_take. simpl. lia.
  - split; [|destruct Hc as [_ Hn]; intros Hin; apply Hn; by eapply subseteq_take].
    intros i b. apply write_bytes_in.
Qed.

(** [strcmp] and, for [n > 0], [strncmp] return zero exactly on equal
    strings and equal prefixes, and otherwise the difference of the first two
    characters that differ. *)
Theorem string_compare_correct fuel m a b l1 l2 n :
  cstring m a l1 → cstring m b l2 → (length l1 < fuel)%nat →
  Forall (λ c, 0 < c < 256) l1 → Forall (λ c, 0 < c < 256) l2 →
  strcmp fuel a b m = Done (chars_cmp l1 l2) m ∧ (chars_cmp l1 l2 = 0 ↔ l1 = l2) ∧
  (0 < n → ∃ r, strncmp fuel a b n m = Done r m ∧
     (r = 0 ↔ take (Z.to_nat n) l1 = take (Z.to_nat n) l2)).
Proof.
  intros H1 H2 Hf Hl1 Hl2. split; [by apply strcmp_ok|]. split; [by apply chars_cmp_eq|].
  intros Hn. eexists. split; [by apply strncmp_ok|]. apply chars_cmp_eq; by apply Forall_take.
Qed.

(** A buffer of 8 bytes at 100 and the string "abc" at 200. *)
Definition memory0 : mem :=
  list_to_map ((λ i, (100 + Z.of_nat i, 0xff)) <$> seq 0 8) ∪
  list_to_map [(200, 97); (201, 98); (202, 99); (203, 0)].

Lemma memory0_alloc n : (n ≤ 8)%nat → allocated memory0 100 n.
Proof.
  intros Hn i Hi. do 8 (destruct i as [|i]; [vm_compute; by eexists|]). lia.
Qed.
Lemma memory0_string : cstring memory0 200 [97; 98; 99].
Proof.
  split; [|intros Hin; repeat apply elem_of_cons in Hin as [?|Hin]; try done; by apply elem_of_nil in Hin].
  intros i b Hi. do 4 (destruct i as [|i]; [vm_compute in Hi |- *; exact Hi|]). done.
Qed.

Lemma memory_functions_correct_witness :
  memset true 100 0x145 3 memory0 = Done tt (write_bytes 100 [0x45; 0x45; 0x45] memory0) ∧
  memmove 100 200 3 memory0 = Done tt (write_bytes 100 [97; 98; 99] memory0).
Proof.
  destruct (memory_functions_correct true 100 200 0x145 [97; 98; 99] memory0
    (memory0_alloc 3 ltac:(lia))) as [H1 H2].
  destruct H2 as [H3 _]; [|split; [exact H1|exact H3]].
  intros i b Hi. apply (proj1 memory0_string). by apply lookup_app_l_Some.
Defined.

Lemma strlcpy_correct_witness :
  strlcpy 4 100 200 3 memory0 = Done 3 (write_bytes 100 [97; 98; 0] memory0).
Proof.
  apply (strlcpy_correct 4 memory0 100 200 [97; 98; 99] 3); [lia|exact memory0_string|simpl; lia| |simpl; lia].
  apply memory0_alloc. simpl. lia.
Defined.

Lemma string_compare_correct_witness : strcmp 4 200 200 memory0 = Done 0 memory0.
Proof.
  apply (string_compare_correct 4 memory0 200 200 [97; 98; 99] [97; 98; 99] 2);
    [exact memory0_string..|simpl; lia| |]; repeat constructor; lia.
Defined.
