(* ===== verification/Printf.v ===== *)
(** Formatted output ([mk/core/core_printf.c], the messages of
    [mk/core/error.h]).

    A format is the list of its characters before the zero byte.  The
    functions [putc] and [puts] are arguments, as in the code; [snputc] and
    [snputs], which fill a buffer, are one choice, collecting the output in a
    list is another, and the theorem about [vsnprintf] compares the two.

    An argument of the caller is an integer register or a string. *)

From Stdlib Require Import Ascii String.
From S2P Require Import Prelude CString.

Local Open Scope Z_scope.
Local Open Scope c_scope.

Definition ord (c : ascii) : Z := Z.of_N (N_of_ascii c).
Fixpoint chars (s : string) : list Z :=
  match s with EmptyString => [] | String c s => ord c :: chars s end.

(** * [error_strings] *)

Definition error_strings : list string := [
  "Sterling Void."; "Resource not found."; "Operation not permitted.";
  "Resource exhausted."; "Lazy programmer."; "Try again as needed.";
  "Invalid parameter or value."; "Unexpected result."; "Resource in use.";
  "No right to perform operation."; "Wrong number of arguments.";
  "Facility not available."; "No space available."; "Wrong kind of component."]%string.

(** * Arguments *)

Inductive va := VInt (n : Z) | VStr (s : option (list Z)).

(** [intmax_t] of an argument read as a signed or unsigned [w]-bit integer. *)
Definition intmax (n : Z) : Z := signed 64 n.
Definition va_int (w : Z) (ap : list va) : option (Z * list va) :=
  match ap with VInt n :: ap => Some (signed w n, ap) | _ => None end.
Definition va_unsigned (w : Z) (ap : list va) : option (Z * list va) :=
  match ap with VInt n :: ap => Some (intmax (wrap w n), ap) | _ => None end.
Definition va_string (ap : list va) : option (option (list Z) * list va) :=
  match ap with VStr s :: ap => Some (s, ap) | _ => None end.

Definition digit_set : list Z := chars "0123456789abcdef".

Section printf.
Context {S : Type} (putc : Z → M S unit) (puts : list Z → M S unit).

(** * [kfformat] *)

(** [do str[i++] = set[val % base] while (val /= base)]; the buffer has 64
    bytes. *)
Fixpoint format_loop (fuel : nat) (str : list Z) (val base : Z) : M S (list Z) :=
  match fuel with
  | O => halt OutOfFuel
  | Datatypes.S fuel =>
      if (64 <=? List.length str)%nat then halt (Undefined "str")
      else
        c <- deref "set" (digit_set !! Z.to_nat (val mod base)) ;;
        let str := str ++ [c] in
        let val := val / base in
        if val =? 0 then ret str else format_loop fuel str val base
  end.

(** [while (i--) putc(arg, str[i])] *)
Fixpoint put_all (l : list Z) : M S unit :=
  match l with [] => ret tt | c :: l => putc c ;;; put_all l end.

Definition kfformat (val base : Z) (sign : bool) : M S unit :=
  let val := u64 val in
  val <- (if sign then
            if signed 64 val <? 0 then
              putc (ord "-") ;;; ret (u64 (bnot 64 val + 1))
            else ret val
          else ret val) ;;
  str <- format_loop 65 [] val base ;;
  put_all (reverse str).

(** * [kfvprintf] *)

(** From [again:], [s] being what follows [p]; the result is the rest of the
    format and of the arguments.  A format that ends here makes the loop go on
    after its zero byte. *)
Fixpoint directive (s : list Z) (lmod alt : bool) (val : Z) (ap : list va) :
    M S (list Z * list va) :=
  match s with
  | [] => putc (ord "%") ;;; halt (Undefined "format string")
  | c :: s =>
      if c =? ord "#" then directive s lmod true val ap
      else if c =? ord "%" then putc (ord "%") ;;; ret (s, ap)
      else if c =? ord "d" then
        r <- (if negb lmod then deref "va_arg" (va_int 32 ap) else ret (val, ap)) ;;
        kfformat r.1 10 true ;;; ret (s, r.2)
      else if c =? ord "l" then
        r <- (if negb lmod then deref "va_arg" (va_int 64 ap) else ret (val, ap)) ;;
        directive s true alt r.1 r.2
      else if c =? ord "p" then
        r <- deref "va_arg" (va_unsigned 64 ap) ;;
        puts (chars "0x") ;;;
        kfformat r.1 0x10 false ;;; ret (s, r.2)
      else if c =? ord "c" then
        r <- deref "va_arg" (va_int 32 ap) ;;
        putc (u8 r.1) ;;; ret (s, r.2)
      else if c =? ord "j" then
        r <- (if negb lmod then deref "va_arg" (va_int 64 ap) else ret (val, ap)) ;;
        directive s true alt r.1 r.2
      else if c =? ord "m" then
        r <- deref "va_arg" (va_int 32 ap) ;;
        q <- (if (r.1 <? 0) || (ERROR_COUNT <=? r.1)
              then ret (chars "Unknown, likely invalid error")
              else e <- deref "error_strings" (error_strings !! Z.to_nat r.1) ;; ret (chars e)) ;;
        puts q ;;; ret (s, r.2)
      else if c =? ord "o" then
        r <- (if negb lmod then deref "va_arg" (va_unsigned 32 ap) else ret (val, ap)) ;;
        (if alt && negb (r.1 =? 0) then putc (ord "0") else ret tt) ;;;
        kfformat r.1 8 false ;;; ret (s, r.2)
      else if c =? ord "s" then
        r <- deref "va_arg" (va_string ap) ;;
        puts (default (chars "(null)") r.1) ;;; ret (s, r.2)
      else if c =? ord "u" then
        r <- (if negb lmod then deref "va_arg" (va_unsigned 32 ap) else ret (val, ap)) ;;
        kfformat r.1 10 false ;;; ret (s, r.2)
      else if c =? ord "x" then
        r <- (if negb lmod then deref "va_arg" (va_unsigned 32 ap) else ret (val, ap)) ;;
        (if alt && negb (r.1 =? 0) then puts (chars "0x") else ret tt) ;;;
        kfformat r.1 0x10 false ;;; ret (s, r.2)
      else if c =? ord "z" then
        r <- (if negb lmod then deref "va_arg" (va_int 64 ap) else ret (val, ap)) ;;
        directive s true alt r.1 r.2
      else putc (ord "%") ;;; putc c ;;; ret (s, ap)
  end.

(** The characters before the next ['%'], and those after it if there is one. *)
Fixpoint split_percent (s : list Z) : list Z * option (list Z) :=
  match s with
  | [] => ([], None)
  | c :: s => if c =? ord "%" then ([], Some s)
              else let r := split_percent s in (c :: r.1, r.2)
  end.

(** The loop; every turn uses a character of the format. *)
Fixpoint kfvprintf (fuel : nat) (s : list Z) (ap : list va) : M S unit :=
  match s, fuel with
  | [], _ => ret tt
  | _, O => halt OutOfFuel
  | c :: _, Datatypes.S fuel =>
      let r := split_percent s in
      (if negb (c =? ord "%") then puts r.1 else ret tt) ;;;
      match r.2 with
      | None => ret tt
      | Some s =>
          r <- directive s false false (-1) ap ;;
          kfvprintf fuel r.1 r.2
      end
  end.
End printf.

(** * [vsnprintf] *)

Record sntring := mk_sntring { sn_p : Z; sn_avail : Z; sn_mem : gmap Z Z }.

Definition on_mem {A} (m : M (gmap Z Z) A) : M sntring A :=
  zoom sn_mem (λ m s, mk_sntring (sn_p s) (sn_avail s) m) m.

Definition snputc (ch : Z) : M sntring unit :=
  s <- get ;;
  if sn_avail s =? 0 then ret tt
  else
    modify (λ s, mk_sntring (sn_p s) (sn_avail s - 1) (sn_mem s)) ;;;
    on_mem (store8 (sn_p s) ch) ;;;
    modify (λ s, mk_sntring (sn_p s + 1) (sn_avail s) (sn_mem s)).

Fixpoint snputs (str : list Z) : M sntring unit :=
  match str with
  | [] => ret tt
  | c :: str =>
      s <- get ;;
      if sn_avail s =? 0 then ret tt
      else
        modify (λ s, mk_sntring (sn_p s) (sn_avail s - 1) (sn_mem s)) ;;;
        on_mem (store8 (sn_p s) c) ;;;
        modify (λ s, mk_sntring (sn_p s + 1) (sn_avail s) (sn_mem s)) ;;;
        snputs str
  end.

Definition vsnprintf (p len : Z) (fmt : list Z) (ap : list va) : M (gmap Z Z) unit :=
  λ m,
    match kfvprintf snputc snputs (List.length fmt) fmt ap (mk_sntring p len m) with
    | Done _ sn =>
        if negb (sn_avail sn =? 0) then store8 (sn_p sn) 0 (sn_mem sn)
        else store8 (p + (len - 1)) 0 (sn_mem sn)
    | Stop w => Stop w
    end.
Definition snprintf := vsnprintf.

(** Output collected in a list. *)
Definition emit (c : Z) : M (list Z) unit := modify (λ l, l ++ [c]).
Definition emits (l : list Z) : M (list Z) unit := modify (λ l0, l0 ++ l).
Definition printed (fmt : list Z) (ap : list va) : outcome (list Z) unit :=
  kfvprintf emit emits (List.length fmt) fmt ap [].

Definition text (l : list Z) : string :=
  string_of_list_ascii ((λ c, ascii_of_N (Z.to_N c)) <$> l).
Definition show (fmt : string) (ap : list va) : option string :=
  match printed (chars fmt) ap with Done _ l => Some (text l) | Stop _ => None end.

Example show_mixed :
  show "%s: got %d of %#x (%m)" [VStr (Some (chars "ufs")); VInt (-12); VInt 255; VInt 6] =
  Some "ufs: got -12 of 0xff (Invalid parameter or value.)"%string.
Proof. vm_compute. reflexivity. Qed.
Example show_long : show "%ju%%%c|%lo" [VInt (2 ^ 64 - 1); VInt 65; VInt 8] =
  Some "18446744073709551615%A|10"%string.
Proof. vm_compute. reflexivity. Qed.
Example show_min : show "%jd" [VInt (2 ^ 63)] = Some "-9223372036854775808"%string.
Proof. vm_compute. reflexivity. Qed.

(** * Numbers *)

Definition digit_value (c : Z) : Z := if c <? 58 then c - 48 else c - 87.
(** The number a sequence of digits stands for. *)
Definition number (base : Z) (l : list Z) : Z := fold_left (λ n c, n * base + digit_value c) l 0.
(** No superfluous zero in front. *)
Definition canonical (l : list Z) : Prop := l ≠ [] ∧ (hd_error l = Some (ord "0") → l = [ord "0"]).

Lemma number_snoc base l c : number base (l ++ [c]) = number base l * base + digit_value c.
Proof. unfold number. by rewrite fold_left_app. Qed.

Lemma digit_set_lookup k : 0 ≤ k < 16 →
  ∃ c, digit_set !! Z.to_nat k = Some c ∧ digit_value c = k ∧ (c = ord "0" → k = 0).
Proof.
  intros Hk.
  assert (k ∈ (Z.of_nat <$> seq 0 16)) as Hin.
  { apply list_elem_of_fmap. exists (Z.to_nat k). rewrite elem_of_seq. lia. }
  simpl in Hin. repeat (apply elem_of_cons in Hin as [->|Hin];
    [eexists; split; [reflexivity|split; [reflexivity|done]]|]).
  by apply elem_of_nil in Hin.
Qed.

Section format.
Context {S : Type} (putc : Z → M S unit) (puts : list Z → M S unit).

Lemma format_loop_ok base (k : nat) : ∀ fuel str val,
  2 ≤ base ≤ 16 → 0 ≤ val < base ^ Z.of_nat (Datatypes.S k) →
  (List.length str + k < 64)%nat → (k < fuel)%nat →
  ∃ ds, (∀ s, format_loop fuel str val base s = Done (str ++ ds) (s : S)) ∧
    number base (reverse ds) = val ∧ canonical (reverse ds) ∧
    (List.length ds ≤ Datatypes.S k)%nat ∧ (val ≠ 0 → hd_error (reverse ds) ≠ Some (ord "0")).
Proof.
  induction k as [|k IH]; intros [|fuel] str val Hb Hv Hl Hf; try lia; cbn [format_loop].
  - rewrite (proj2 (Nat.leb_gt 64 (List.length str))) by lia.
    change (Z.of_nat 1) with 1 in Hv. rewrite Z.pow_1_r in Hv.
    rewrite Z.mod_small, Z.div_small by done.
    destruct (digit_set_lookup val) as (c&Hc&Hd&H0); [lia|]. unfold bind. rewrite Hc. cbn [deref ret].
    exists [c]. split_and!; [done| | |simpl; lia|].
    + unfold number. simpl. lia.
    + split; [done|]. by intros [= ->].
    + intros Hne [= ->]. by apply Hne, H0.
  - rewrite (proj2 (Nat.leb_gt 64 (List.length str))) by lia.
    pose proof (Z.mod_pos_bound val base) as Hm.
    destruct (digit_set_lookup (val mod base)) as (c&Hc&Hd&H0); [lia|]. unfold bind. rewrite Hc. cbn [deref ret].
    destruct (val / base =? 0) eqn:E; zcmp.
    + assert (val = val mod base) as Hval by (rewrite (Z.div_mod val base) at 1; lia).
      exists [c]. split_and!; [done| | |simpl; lia|].
      * unfold number. simpl. lia.
      * split; [done|]. by intros [= ->].
      * intros Hne [= ->]. apply Hne. rewrite Hval. by apply H0.
    + assert (0 ≤ val / base < base ^ Z.of_nat (Datatypes.S k)) as Hq.
      { split; [apply Z.div_pos; lia|]. apply Z.div_lt_upper_bound; [lia|].
        rewrite <-Z.pow_succ_r by lia. replace (Z.succ (Z.of_nat (Datatypes.S k)))
          with (Z.of_nat (Datatypes.S (Datatypes.S k))) by lia. lia. }
      destruct (IH fuel (str ++ [c]) (val / base)) as (ds&Hrun&Hn&[Hne Hcan]&Hlen&Hnz);
        [done..|rewrite length_app; simpl; lia|lia|].
      exists (c :: ds). rewrite reverse_cons. split_and!.
      * intros s. rewrite Hrun. by rewrite <-app_assoc.
      * rewrite number_snoc, Hn, Hd. rewrite (Z.div_mod val base) at 3 by lia. lia.
      * split; [by destruct (reverse ds)|]. destruct (reverse ds) as [|x l]; [done|].
        simpl in *. intros [= ->]. by destruct (Hnz E).
      * simpl. lia.
      * intros _. destruct (reverse ds) as [|x l]; [done|]. simpl in *. by apply Hnz.
Qed.

Lemma bnot_eq v : 0 ≤ v < 2 ^ 64 → bnot 64 v = 2 ^ 64 - 1 - v.
Proof.
  intros Hv. unfold bnot. rewrite wrap_small by done.
  assert (Z.ldiff v (Z.ones 64) = 0) as Hd by (apply Z.ldiff_ones_r_low; [lia|];
    destruct (decide (v = 0)) as [->|]; [simpl; lia|apply Z.log2_lt_pow2; lia]).
  assert (Z.lxor v (Z.ones 64) = Z.ldiff (Z.ones 64) v) as ->.
  { apply Z.bits_inj'. intros n Hn. rewrite Z.lxor_spec, Z.ldiff_spec.
    assert (Z.testbit (Z.ldiff v (Z.ones 64)) n = false) as Hb by (by rewrite Hd, Z.bits_0).
    rewrite Z.ldiff_spec in Hb. by destruct (Z.testbit v n), (Z.testbit (Z.ones 64) n). }
  rewrite <-Z.sub_nocarry_ldiff by done. reflexivity.
Qed.

Lemma pow_base base : 2 ≤ base → 2 ^ 64 ≤ base ^ 64.
Proof. intros. apply Z.pow_le_mono_l. lia. Qed.

(** An unsigned number. *)
Lemma kfformat_unsigned val base :
  2 ≤ base ≤ 16 → ∃ ds, (∀ s, kfformat putc val base false s = put_all putc ds s) ∧
    number base ds = u64 val ∧ canonical ds ∧ (List.length ds ≤ 64)%nat.
Proof.
  intros Hb. assert (0 ≤ u64 val < 2 ^ 64) as Hv by (apply Z.mod_pos_bound; lia).
  pose proof (pow_base base) as Hp.
  destruct (format_loop_ok base 63 65 [] (u64 val)) as (ds&Hrun&Hn&Hcan&Hlen&_);
    [done|change (Z.of_nat 64) with 64; lia|simpl; lia|lia|].
  exists (reverse ds). split_and!; [|done|done|by rewrite length_reverse].
  intros s. unfold kfformat, bind. cbn [ret]. by rewrite Hrun.
Qed.

Lemma signed_cases v : 0 ≤ v < 2 ^ 64 →
  signed 64 v = if v <? 2 ^ 63 then v else v - 2 ^ 64.
Proof.
  intros Hv. unfold signed. rewrite wrap_small by done. change (64 - 1) with 63.
  destruct (v <? 2 ^ 63) eqn:E; zcmp; case_decide; try lia; done.
Qed.

(** A signed number: a minus sign and the absolute value if it is negative. *)
Lemma kfformat_signed val base :
  2 ≤ base ≤ 16 → ∃ ds,
    (∀ s, kfformat putc val base true s =
       (if signed 64 (u64 val) <? 0 then putc (ord "-") ;;; put_all putc ds else put_all putc ds) s) ∧
    number base ds = Z.abs (signed 64 (u64 val)) ∧ canonical ds ∧ (List.length ds ≤ 64)%nat.
Proof.
  intros Hb. assert (0 ≤ u64 val < 2 ^ 64) as Hv by (apply Z.mod_pos_bound; lia).
  pose proof (pow_base base) as Hp. pose proof (signed_cases _ Hv) as Hs.
  set (v := if signed 64 (u64 val) <? 0 then u64 (bnot 64 (u64 val) + 1) else u64 val).
  assert (v = Z.abs (signed 64 (u64 val))) as Hva.
  { unfold v. rewrite Hs. destruct (u64 val <? 2 ^ 63) eqn:E; zcmp.
    - rewrite (proj2 (Z.ltb_ge _ 0)) by lia. lia.
    - rewrite (proj2 (Z.ltb_lt _ 0)) by lia. rewrite bnot_eq by done.
      rewrite u64_small by lia. lia. }
  destruct (format_loop_ok base 63 65 [] v) as (ds&Hrun&Hn&Hcan&Hlen&_);
    [done| |simpl; lia|lia|].
  { change (Z.of_nat 64) with 64. rewrite Hva, Hs. case_match; zcmp; lia. }
  exists (reverse ds). split_and!; [|by rewrite Hn|done|by rewrite length_reverse].
  intros s. unfold kfformat, bind. unfold v in Hrun.
  destruct (signed 64 (u64 val) <? 0); cbn [ret].
  - destruct (putc (ord "-") s) as [[] s1|w]; [|done]. unfold ret. by rewrite Hrun.
  - unfold ret. by rewrite Hrun.
Qed.
End format.

(** * Two choices of [putc] and [puts] *)

Section simulation.
Context {S1 S2 : Type} (R : S1 → S2 → Prop).

(** The same result from related states. *)
Definition alike {A} (m1 : M S1 A) (m2 : M S2 A) : Prop :=
  ∀ s1 s2, R s1 s2 →
    match m1 s1, m2 s2 with
    | Done a s1', Done b s2' => a = b ∧ R s1' s2'
    | Stop w, Stop w' => w = w'
    | _, _ => False
    end.

Lemma alike_ret {A} (a : A) : alike (ret a) (ret a).
Proof. by intros s1 s2 Hs. Qed.
Lemma alike_halt {A} w : alike (A := A) (halt w) (halt w).
Proof. by intros s1 s2 Hs. Qed.
Lemma alike_deref {A} why (o : option A) : alike (deref why o) (deref why o).
Proof. destruct o; [apply alike_ret|apply alike_halt]. Qed.
Lemma alike_bind {A B} (m1 : M S1 A) (m2 : M S2 A) (k1 : A → M S1 B) (k2 : A → M S2 B) :
  alike m1 m2 → (∀ a, alike (k1 a) (k2 a)) → alike (bind m1 k1) (bind m2 k2).
Proof.
  intros Hm Hk s1 s2 Hs. specialize (Hm s1 s2 Hs). unfold bind.
  destruct (m1 s1) as [a s1'|], (m2 s2) as [b s2'|]; [|done..]. destruct Hm as [<- Hs']. by apply Hk.
Qed.
Lemma alike_if {A} (b : bool) (m1 m1' : M S1 A) (m2 m2' : M S2 A) :
  alike m1 m2 → alike m1' m2' → alike (if b then m1 else m1') (if b then m2 else m2').
Proof. by destruct b. Qed.

Context (putc1 : Z → M S1 unit) (puts1 : list Z → M S1 unit).
Context (putc2 : Z → M S2 unit) (puts2 : list Z → M S2 unit).
Context (Hputc : ∀ c, alike (putc1 c) (putc2 c)) (Hputs : ∀ l, alike (puts1 l) (puts2 l)).

Create HintDb alike.
#[local] Hint Resolve alike_ret alike_halt alike_deref alike_bind alike_if Hputc Hputs : alike.

Lemma format_loop_alike fuel : ∀ str val base,
  alike (format_loop fuel str val base) (format_loop fuel str val base).
Proof. induction fuel; intros; simpl; eauto 6 with alike. Qed.
Lemma put_all_alike l : alike (put_all putc1 l) (put_all putc2 l).
Proof. induction l; simpl; eauto with alike. Qed.
#[local] Hint Resolve format_loop_alike put_all_alike : alike.
Lemma kfformat_alike val base sign : alike (kfformat putc1 val base sign) (kfformat putc2 val base sign).
Proof. unfold kfformat. eauto 8 with alike. Qed.
#[local] Hint Resolve kfformat_alike : alike.

Lemma directive_alike s : ∀ lmod alt val ap,
  alike (directive putc1 puts1 s lmod alt val ap) (directive putc2 puts2 s lmod alt val ap).
Proof.
  induction s as [|c s IH]; intros lmod alt val ap; cbn [directive]; [eauto with alike|].
  repeat (apply alike_if; [eauto 8 with alike|]). eauto with alike.
Qed.
#[local] Hint Resolve directive_alike : alike.

Lemma kfvprintf_alike fuel : ∀ s ap,
  alike (kfvprintf putc1 puts1 fuel s ap) (kfvprintf putc2 puts2 fuel s ap).
Proof.
  induction fuel as [|fuel IH]; intros [|c s] ap; cbn [kfvprintf]; eauto with alike.
  destruct (split_percent (c :: s)) as [l [s'|]]; simpl; eauto 8 with alike.
Qed.
End simulation.

(** * The buffer of [vsnprintf] *)

Section buffer.
Context (p len : Z) (m0 : mem) (Hlen : 0 < len) (Ha : allocated m0 p (Z.to_nat len)).

(** [out] was printed; the buffer has the first [len] characters. *)
Record filled (out : list Z) (sn : sntring) : Prop := {
  fl_avail : sn_avail sn = Z.max 0 (len - Z.of_nat (List.length out));
  fl_p : sn_p sn = p + Z.min len (Z.of_nat (List.length out));
  fl_mem : sn_mem sn = write_bytes p (take (Z.to_nat len) out) m0
}.

Lemma take_short {A} (l : list A) (n : nat) : (List.length l ≤ n)%nat → take n l = l.
Proof. intros Hl. by apply take_ge. Qed.

(** One character when there is room. *)
Lemma snput_room c out sn :
  filled out sn → sn_avail sn ≠ 0 →
  ∃ sn', (modify (λ s, mk_sntring (sn_p s) (sn_avail s - 1) (sn_mem s)) ;;;
          on_mem (store8 (sn_p sn) c) ;;;
          modify (λ s, mk_sntring (sn_p s + 1) (sn_avail s) (sn_mem s))) sn = Done tt sn' ∧
    filled (out ++ [c]) sn'.
Proof.
  intros [Hv Hp Hm] Hne. destruct sn as [q a m]. simpl in *.
  assert (Z.of_nat (List.length out) < len) as Hl by lia.
  rewrite take_short in Hm by lia.
  assert (is_Some (m !! q)) as Hq.
  { rewrite Hm, Hp. apply write_bytes_some. rewrite Z.min_r by lia. apply Ha. lia. }
  eexists. unfold bind, modify, on_mem, zoom. simpl. rewrite store8_eq by done.
  split; [done|]. split; simpl; rewrite ?length_app; simpl; try lia.
  rewrite take_short by (rewrite length_app; simpl; lia).
  rewrite write_bytes_app, <-Hm, Hp. simpl. by rewrite Z.min_r by lia.
Qed.

(** No room: the output goes on, the buffer stays. *)
Lemma filled_full out l sn : filled out sn → sn_avail sn = 0 → filled (out ++ l) sn.
Proof.
  intros [Hv Hp Hm] H0. rewrite H0 in Hv. split; rewrite ?length_app; try lia.
  rewrite Hm, take_app_le by lia. done.
Qed.

Lemma snputc_alike c : alike filled (emit c) (snputc c).
Proof.
  intros out sn Hf. unfold snputc, bind at 1, get. simpl. destruct (sn_avail sn =? 0) eqn:E; zcmp.
  - split; [done|]. by apply filled_full.
  - destruct (snput_room c out sn Hf E) as (sn'&Hrun&Hf'). by rewrite Hrun.
Qed.

Lemma snputs_alike l : alike filled (emits l) (snputs l).
Proof.
  induction l as [|c l IH]; intros out sn Hf.
  - simpl. split; [done|]. by rewrite app_nil_r.
  - cbn [snputs]. unfold bind at 1, get. destruct (sn_avail sn =? 0) eqn:E; zcmp.
    + split; [done|]. by apply filled_full.
    + destruct (snput_room c out sn Hf E) as (sn'&Hrun&Hf').
      specialize (IH (out ++ [c]) sn' Hf'). simpl in IH. rewrite <-app_assoc in IH.
      unfold bind in Hrun |- *. simpl in Hrun |- *.
      destruct (on_mem (store8 (sn_p sn) c) _) as [[] sn1|]; [|done].
      injection Hrun as ->. exact IH.
Qed.

Lemma vsnprintf_ok fmt ap :
  match printed fmt ap with
  | Done _ out => vsnprintf p len fmt ap m0 = Done tt (write_bytes p (truncated len out) m0)
  | Stop w => vsnprintf p len fmt ap m0 = Stop w
  end.
Proof.
  unfold printed, vsnprintf.
  assert (filled [] (mk_sntring p len m0)) as H0.
  { split; simpl; [lia|lia|by rewrite take_nil]. }
  pose proof (kfvprintf_alike filled emit emits snputc snputs snputc_alike snputs_alike
    (List.length fmt) fmt ap [] _ H0) as Hrel.
  destruct (kfvprintf emit emits _ fmt ap []) as [[] out|w],
    (kfvprintf snputc snputs _ fmt ap _) as [[] sn|w']; [|done|done|by f_equal].
  destruct Hrel as [_ [Hv Hp Hm]]. destruct (sn_avail sn =? 0) eqn:E; zcmp; simpl.
  - assert (len ≤ Z.of_nat (List.length out)) as Hl by lia.
    rewrite store8_eq.
    2:{ rewrite Hm. apply write_bytes_some.
        replace (p + (len - 1)) with (p + Z.of_nat (Z.to_nat (len - 1))) by lia. apply Ha. lia. }
    f_equal. rewrite Hm. unfold truncated.
    destruct (lookup_lt_is_Some_2 out (Z.to_nat (len - 1))) as [x Hx]; [lia|].
    replace (Z.to_nat len) with (Datatypes.S (Z.to_nat (len - 1))) by lia.
    rewrite (take_S_r _ _ x) by done. rewrite !write_bytes_app. simpl.
    rewrite length_take, Nat.min_l, Z2Nat.id by lia. by rewrite insert_insert_eq.
  - assert (Z.of_nat (List.length out) < len) as Hl by lia.
    rewrite take_short in Hm by lia. rewrite Z.min_r in Hp by lia.
    rewrite store8_eq.
    2:{ rewrite Hm, Hp. apply write_bytes_some, Ha. lia. }
    f_equal. rewrite Hm, Hp. unfold truncated. rewrite take_short by lia.
    by rewrite write_bytes_app.
Qed.
End buffer.

(** * The theorems *)

(** a number printed by [kfformat] reads back as the number: for every
    base the formats use, the digits are at most 64, so the buffer [str] is
    never overrun, there is no superfluous zero, and they stand for [val];
    for a signed number they stand for its absolute value, and a minus sign is
    printed first exactly if it is negative ([-2^63] included). *)
Theorem kfformat_reads_back val base :
  2 ≤ base ≤ 16 →
  (∃ ds, kfformat emit val base false [] = Done tt ds ∧
     number base ds = u64 val ∧ canonical ds ∧ (List.length ds ≤ 64)%nat) ∧
  (∃ ds, kfformat emit val base true [] =
       Done tt (if signed 64 (u64 val) <? 0 then ord "-" :: ds else ds) ∧
     number base ds = Z.abs (signed 64 (u64 val)) ∧ canonical ds ∧ (List.length ds ≤ 64)%nat).
Proof.
  intros Hb.
  assert (∀ l out, put_all emit l out = Done tt (out ++ l)) as Hput.
  { induction l as [|c l IH]; intros out; simpl; [by rewrite app_nil_r|].
    unfold bind, emit, modify. rewrite IH. by rewrite <-app_assoc. }
  split.
  - destruct (kfformat_unsigned emit val base Hb) as (ds&Hrun&Hds). exists ds.
    by rewrite Hrun, Hput.
  - destruct (kfformat_signed emit val base Hb) as (ds&Hrun&Hds). exists ds. rewrite Hrun.
    split; [|done]. case_match; [|by rewrite Hput]. unfold bind, emit at 1, modify. by rewrite Hput.
Qed.

(** C38: [vsnprintf] into a buffer of [len > 0] bytes leaves there what
    [kfvprintf] prints, cut to [len - 1] characters, and a zero byte, and
    writes no byte outside the buffer; it stops exactly if [kfvprintf] does. *)
Theorem vsnprintf_correct p len m fmt ap :
  0 < len → allocated m p (Z.to_nat len) →
  match printed fmt ap with
  | Done _ out => vsnprintf p len fmt ap m = Done tt (write_bytes p (truncated len out) m) ∧
      Z.of_nat (List.length (truncated len out)) ≤ len
  | Stop w => vsnprintf p len fmt ap m = Stop w
  end.
Proof.
  intros Hlen Ha. pose proof (vsnprintf_ok p len m Hlen Ha fmt ap) as Hok.
  destruct (printed fmt ap) as [u out|w]; [|done]. split; [done|].
  unfold truncated. rewrite length_app, length_take. simpl. lia.
Qed.

(** A format that ends after a ['%'] and flags makes [kfvprintf] go on reading
    after the zero byte. *)
Lemma kfvprintf_reads_past_end (l : list Z) (ap : list va) :
  Forall (λ c, c = ord "#") l →
  printed (ord "%" :: l) ap = Stop (Undefined "format string").
Proof.
  intros Hl. unfold printed. cbn [List.length kfvprintf split_percent]. rewrite Z.eqb_refl. simpl.
  unfold bind. simpl.
  enough (∀ alt out, directive emit emits l false alt (-1) ap out = Stop (Undefined "format string")) as He
    by (unfold ret; by rewrite He).
  induction l as [|c l IH]; intros alt out; [done|]. apply Forall_cons in Hl as [-> Hl].
  cbn [directive]. rewrite Z.eqb_refl. by apply IH.
Qed.

Lemma kfformat_reads_back_witness :
  ∃ ds, kfformat emit (2 ^ 63) 10 true [] = Done tt (ord "-" :: ds) ∧ number 10 ds = 2 ^ 63.
Proof.
  destruct (kfformat_reads_back (2 ^ 63) 10 ltac:(lia)) as [_ (ds&Hrun&Hn&_)].
  exists ds. split; [exact Hrun|rewrite Hn; vm_compute; reflexivity].
Defined.

Lemma vsnprintf_correct_witness :
  vsnprintf 100 5 (chars "%d left") [VInt 17] memory0 =
    Done tt (write_bytes 100 (chars "17 l" ++ [0]) memory0).
Proof.
  pose proof (vsnprintf_correct 100 5 memory0 (chars "%d left") [VInt 17] ltac:(lia)
    (memory0_alloc 5 ltac:(lia))) as Hv.
  exact (proj1 Hv).
Defined.
