(* ===== verification/Mutex.v ===== *)
(** Sleep queues, mutexes and condition variables ([mk/core/core_sleepq.c],
    [mk/core/core_mutex.c], [mk/core/core_cv.c]).

    A sleep queue is the list of the threads in it: the entry a thread puts
    there is allocated when it goes to sleep and freed by the same call, so the
    thread stands for it.  A thread is a number, 0 is [NULL].

    The functions are given twice.  Sequentially, as the client of a free lock
    sees them; and as steps of any number of threads, one step for what the
    code does under the spin lock of the mutex or of the condition variable
    (Spinlock.v shows that those are exclusive) and one for every access
    outside.  The theorems about the steps: a mutex has one owner, and a
    condition variable does not miss a signal sent after the waiter gave up
    the mutex.  Two runs show where wake-ups are lost: [mtx_waiters--] runs
    without the spin lock, and a signal goes to the first thread of the queue
    even if that thread is awake already. *)

From S2P Require Import Prelude.
From stdpp Require Import functions relations.

Local Open Scope Z_scope.
Local Open Scope c_scope.

(** * Sleep queues *)

(** The threads a signal makes runnable. *)
Definition sleepq_signal (q : list Z) : list Z := q.
Definition sleepq_signal_one (q : list Z) : list Z :=
  match q with [] => [] | td :: _ => [td] end.
(** [TAILQ_INSERT_TAIL] and [TAILQ_REMOVE] of [sleepq_enter]. *)
Definition sleepq_insert (td : Z) (q : list Z) : list Z := q ++ [td].
Definition sleepq_remove (td : Z) (q : list Z) : list Z := filter (λ t, t ≠ td) q.

(** * Mutexes *)

Record mutex := mk_mutex {
  mtx_owner : Z;
  mtx_waiters : Z;
  mtx_sleepq : list Z;
  mtx_flags : Z
}.

Definition MUTEX_FLAG_DEFAULT : Z := 0x00000000.
Definition mutex_init (flags : Z) : mutex := mk_mutex 0 0 [] flags.
Definition set_owner (td : Z) (m : mutex) : mutex :=
  mk_mutex td (mtx_waiters m) (mtx_sleepq m) (mtx_flags m).
Definition set_waiters (n : Z) (m : mutex) : mutex :=
  mk_mutex (mtx_owner m) n (mtx_sleepq m) (mtx_flags m).
Definition set_sleepq (q : list Z) (m : mutex) : mutex :=
  mk_mutex (mtx_owner m) (mtx_waiters m) q (mtx_flags m).
Definition MUTEX_HELD (td : Z) (m : mutex) : bool :=
  negb (mtx_owner m =? 0) && (mtx_owner m =? td).

(** One turn of the loop of [mutex_lock], under the spin lock. *)
Inductive attempt :=
| Recursed
| Acquired (m : mutex)
| Again (tries : Z)
| Sleeps (tries : Z) (m : mutex).

Definition mutex_attempt (td tries : Z) (m : mutex) : attempt :=
  if mtx_owner m =? td then Recursed
  else if mtx_owner m =? 0 then Acquired (set_owner td m)
  else if tries <? 10 then Again (u32 (tries + 1))
  else Sleeps (u32 (tries + 1))
    (set_sleepq (sleepq_insert td (mtx_sleepq m)) (set_waiters (u32 (mtx_waiters m + 1)) m)).

(** [mutex_lock] while no other thread runs: a lock that somebody else holds
    is never given back, so the loop does not end. *)
Definition mutex_lock (td : Z) : M mutex unit :=
  assert_ (negb (td =? 0)) "Must have a thread." ;;;
  m <- get ;;
  match mutex_attempt td 0 m with
  | Recursed => halt (Panic "cannot recurse on mutex")
  | Acquired m' => put m'
  | Again _ | Sleeps _ _ => halt OutOfFuel
  end.

(** The result is the threads made runnable. *)
Definition mutex_unlock (td : Z) : M mutex (list Z) :=
  assert_ (negb (td =? 0)) "Must have a thread." ;;;
  m <- get ;;
  assert_ (mtx_owner m =? td) "Not my lock to unlock." ;;;
  put (set_owner 0 m) ;;;
  ret (if negb (mtx_waiters m =? 0) then sleepq_signal_one (mtx_sleepq m) else []).

Lemma mutex_lock_free td m :
  td ≠ 0 → mtx_owner m = 0 → mutex_lock td m = Done tt (set_owner td m).
Proof.
  intros Htd Ho. unfold mutex_lock, mutex_attempt.
  rewrite (proj2 (Z.eqb_neq td 0)) by done. cbn. rewrite Ho.
  by rewrite (proj2 (Z.eqb_neq 0 td)) by done.
Qed.

Lemma mutex_unlock_held td m :
  td ≠ 0 → mtx_owner m = td → ∃ l, mutex_unlock td m = Done l (set_owner 0 m).
Proof.
  intros Htd Ho. unfold mutex_unlock. rewrite (proj2 (Z.eqb_neq td 0)) by done. cbn.
  rewrite Ho, Z.eqb_refl. eexists. reflexivity.
Qed.

Lemma mutex_lock_recurse td m :
  td ≠ 0 → mtx_owner m = td → mutex_lock td m = Stop (Panic "cannot recurse on mutex").
Proof.
  intros Htd Ho. unfold mutex_lock, mutex_attempt. rewrite (proj2 (Z.eqb_neq td 0)) by done.
  cbn. by rewrite Ho, Z.eqb_refl.
Qed.

(** * Condition variables *)

(** [cv_mutex] is the argument [m] of the operations.  [cv_spinlock] is the
    thread in it, 0 when it is free. *)
Record cv := mk_cv { cv_spinlock : Z; cv_sleepq : list Z }.
Definition cv_create : cv := mk_cv 0 [].

Definition CV_LOCK (td : Z) : M cv unit :=
  c <- get ;;
  if cv_spinlock c =? 0 then put (mk_cv td (cv_sleepq c)) else halt OutOfFuel.
Definition CV_UNLOCK : M cv unit := modify (λ c, mk_cv 0 (cv_sleepq c)).

Definition cv_signal (td : Z) (m : mutex) : M cv (list Z) :=
  assert_ (MUTEX_HELD td m) "Mutex must protect condition variable operations." ;;;
  CV_LOCK td ;;;
  c <- get ;;
  CV_UNLOCK ;;;
  ret (sleepq_signal_one (cv_sleepq c)).
Definition cv_signal_broadcast (td : Z) (m : mutex) : M cv (list Z) :=
  assert_ (MUTEX_HELD td m) "Mutex must protect condition variable operations." ;;;
  CV_LOCK td ;;;
  c <- get ;;
  CV_UNLOCK ;;;
  ret (sleepq_signal (cv_sleepq c)).

(** [cv_wait]: [CV_LOCK] and [mutex_unlock]; the first part of [sleepq_enter],
    to the moment the thread is asleep and the spin lock is free again. *)
Definition cv_wait_unlock (td : Z) : M (mutex * cv) (list Z) :=
  s <- get ;;
  assert_ (MUTEX_HELD td s.1) "Mutex must protect condition variable operations." ;;;
  zoom snd (λ c s, (s.1, c)) (CV_LOCK td) ;;;
  zoom fst (λ m s, (m, s.2)) (mutex_unlock td).
Definition cv_wait_sleep (td : Z) : M cv unit :=
  modify (λ c, mk_cv 0 (sleepq_insert td (cv_sleepq c))).
Definition cv_wait (td : Z) : M (mutex * cv) (list Z) :=
  woken <- cv_wait_unlock td ;;
  zoom snd (λ c s, (s.1, c)) (cv_wait_sleep td) ;;;
  ret woken.

(** * Threads that interleave *)

Module Mtx.
(** Where a thread is.  [tries] is the local variable of [mutex_lock]. *)
Inductive place :=
| Outside
| Locking (tries : Z)      (* before [MTX_SPINLOCK] *)
| Asleep (tries : Z)       (* in [sleepq_enter], not runnable *)
| Woken (tries : Z)        (* made runnable, still in the queue *)
| Leaving (tries : Z)      (* back from [sleepq_enter] *)
| Storing (tries n : Z)    (* [mtx_waiters--] has read [n] *)
| Held
| CvEnter                  (* in [cv_wait], holding the condition variable's
                              spin lock but no longer the mutex *)
| CvAsleep
| CvWoken.

Record world := mk_world { w_mtx : mutex; w_cv : cv; w_at : Z → place }.

Definition go (td : Z) (p : place) (m : mutex) (c : cv) (g : world) : world :=
  mk_world m c (<[td := p]> (w_at g)).

(** [scheduler_thread_runnable] for every thread of a list. *)
Definition wake_place (p : place) : place :=
  match p with Asleep n => Woken n | CvAsleep => CvWoken | _ => p end.
Definition wake (l : list Z) (g : world) : world :=
  mk_world (w_mtx g) (w_cv g)
    (λ t, if bool_decide (t ∈ l) then wake_place (w_at g t) else w_at g t).

(** One step of thread [td]. *)
Inductive step (td : Z) (g : world) : world → Prop :=
| S_lock : w_at g td = Outside → step td g (go td (Locking 0) (w_mtx g) (w_cv g) g)
| S_acquire n m : w_at g td = Locking n → mutex_attempt td n (w_mtx g) = Acquired m →
    step td g (go td Held m (w_cv g) g)
| S_again n n' : w_at g td = Locking n → mutex_attempt td n (w_mtx g) = Again n' →
    step td g (go td (Locking n') (w_mtx g) (w_cv g) g)
| S_sleep n n' m : w_at g td = Locking n → mutex_attempt td n (w_mtx g) = Sleeps n' m →
    step td g (go td (Asleep n') m (w_cv g) g)
| S_remove n : w_at g td = Woken n →
    step td g (go td (Leaving n)
      (set_sleepq (sleepq_remove td (mtx_sleepq (w_mtx g))) (w_mtx g)) (w_cv g) g)
| S_read n : w_at g td = Leaving n →
    step td g (go td (Storing n (mtx_waiters (w_mtx g))) (w_mtx g) (w_cv g) g)
| S_store n k : w_at g td = Storing n k →
    step td g (go td (Locking n) (set_waiters (u32 (k - 1)) (w_mtx g)) (w_cv g) g)
| S_unlock l m : w_at g td = Held → mutex_unlock td (w_mtx g) = Done l m →
    step td g (wake l (go td Outside m (w_cv g) g))
| S_signal l c : w_at g td = Held → cv_signal td (w_mtx g) (w_cv g) = Done l c →
    step td g (wake l (go td Held (w_mtx g) c g))
| S_broadcast l c : w_at g td = Held →
    cv_signal_broadcast td (w_mtx g) (w_cv g) = Done l c →
    step td g (wake l (go td Held (w_mtx g) c g))
| S_wait l m c : w_at g td = Held → cv_wait_unlock td (w_mtx g, w_cv g) = Done l (m, c) →
    step td g (wake l (go td CvEnter m c g))
| S_wait_sleep c : w_at g td = CvEnter → cv_wait_sleep td (w_cv g) = Done tt c →
    step td g (go td CvAsleep (w_mtx g) c g)
| S_wait_return : w_at g td = CvWoken → cv_spinlock (w_cv g) = 0 →
    step td g (go td Outside (w_mtx g)
      (mk_cv 0 (sleepq_remove td (cv_sleepq (w_cv g)))) g).

Definition next (g g' : world) : Prop := ∃ td, td ≠ 0 ∧ step td g g'.
Definition start : world := mk_world (mutex_init MUTEX_FLAG_DEFAULT) cv_create (λ _, Outside).
Definition reachable (g : world) : Prop := rtc next start g.

(** In the queue of the mutex; in the queue of the condition variable. *)
Definition queued (p : place) : Prop := match p with Asleep _ | Woken _ => True | _ => False end.
Definition cv_queued (p : place) : Prop := match p with CvAsleep | CvWoken => True | _ => False end.

Record inv (g : world) : Prop := {
  inv_null : w_at g 0 = Outside;
  inv_owner t : t ≠ 0 → w_at g t = Held ↔ mtx_owner (w_mtx g) = t;
  inv_queue t : t ∈ mtx_sleepq (w_mtx g) ↔ queued (w_at g t);
  inv_cv t : t ∈ cv_sleepq (w_cv g) ↔ cv_queued (w_at g t);
  inv_enter t : t ≠ 0 → w_at g t = CvEnter ↔ cv_spinlock (w_cv g) = t
}.

Lemma wake_place_queued p : queued (wake_place p) ↔ queued p.
Proof. by destruct p. Qed.
Lemma wake_place_cv p : cv_queued (wake_place p) ↔ cv_queued p.
Proof. by destruct p. Qed.
Lemma wake_place_held p : wake_place p = Held ↔ p = Held.
Proof. destruct p; simpl; split; congruence. Qed.
Lemma wake_place_enter p : wake_place p = CvEnter ↔ p = CvEnter.
Proof. destruct p; simpl; split; congruence. Qed.
Lemma wake_place_outside p : wake_place p = Outside ↔ p = Outside.
Proof. destruct p; simpl; split; congruence. Qed.

Lemma wake_inv l g : inv g → inv (wake l g).
Proof.
  intros [H0 Ho Hq Hc He]. split; simpl.
  - case_bool_decide; [by rewrite H0|done].
  - intros t Ht. rewrite <-(Ho t Ht). case_bool_decide; [apply wake_place_held|done].
  - intros t. rewrite (Hq t). case_bool_decide; [by rewrite wake_place_queued|done].
  - intros t. rewrite (Hc t). case_bool_decide; [by rewrite wake_place_cv|done].
  - intros t Ht. rewrite <-(He t Ht). case_bool_decide; [apply wake_place_enter|done].
Qed.

(** The condition on the new place [p] of thread [td] and the new locks that
    keeps the invariant. *)
Lemma go_inv td p m c g :
  inv g → td ≠ 0 →
  (p = Held ↔ mtx_owner m = td) →
  (∀ t, t ≠ 0 → t ≠ td → mtx_owner m = t ↔ mtx_owner (w_mtx g) = t) →
  (td ∈ mtx_sleepq m ↔ queued p) →
  (∀ t, t ≠ td → t ∈ mtx_sleepq m ↔ t ∈ mtx_sleepq (w_mtx g)) →
  (td ∈ cv_sleepq c ↔ cv_queued p) →
  (∀ t, t ≠ td → t ∈ cv_sleepq c ↔ t ∈ cv_sleepq (w_cv g)) →
  (p = CvEnter ↔ cv_spinlock c = td) →
  (∀ t, t ≠ 0 → t ≠ td → cv_spinlock c = t ↔ cv_spinlock (w_cv g) = t) →
  inv (go td p m c g).
Proof.
  intros [H0 Ho Hq Hc He] Htd Hp Ho' Hqp Hq' Hcp Hc' Hep He'. split; simpl.
  - by rewrite fn_lookup_insert_ne by done.
  - intros t Ht. destruct (decide (td = t)) as [<-|Hne]; [by rewrite fn_lookup_insert|].
    rewrite fn_lookup_insert_ne, Ho' by done. by apply Ho.
  - intros t. destruct (decide (td = t)) as [<-|Hne]; [by rewrite fn_lookup_insert|].
    rewrite fn_lookup_insert_ne, Hq' by done. apply Hq.
  - intros t. destruct (decide (td = t)) as [<-|Hne]; [by rewrite fn_lookup_insert|].
    rewrite fn_lookup_insert_ne, Hc' by done. apply Hc.
  - intros t Ht. destruct (decide (td = t)) as [<-|Hne]; [by rewrite fn_lookup_insert|].
    rewrite fn_lookup_insert_ne, He' by done. by apply He.
Qed.

Lemma attempt_acquired td n m m' :
  mutex_attempt td n m = Acquired m' → mtx_owner m = 0 ∧ m' = set_owner td m.
Proof.
  unfold mutex_attempt. repeat case_match; zcmp; try done. by intros [= <-].
Qed.

Lemma attempt_sleeps td n n' m m' :
  mutex_attempt td n m = Sleeps n' m' →
  mtx_owner m ≠ 0 ∧ mtx_owner m ≠ td ∧
  m' = set_sleepq (sleepq_insert td (mtx_sleepq m)) (set_waiters (u32 (mtx_waiters m + 1)) m).
Proof.
  unfold mutex_attempt. repeat case_match; zcmp; try done. by intros [= <- <-].
Qed.

Lemma unlock_done td m l m' :
  mutex_unlock td m = Done l m' → mtx_owner m = td ∧ m' = set_owner 0 m ∧
  l = if negb (mtx_waiters m =? 0) then sleepq_signal_one (mtx_sleepq m) else [].
Proof.
  unfold mutex_unlock, assert_, bind, get, put, ret.
  destruct (negb (td =? 0)); [|done]. destruct (mtx_owner m =? td) eqn:E; [|done].
  zcmp. by intros [= <- <-].
Qed.

Lemma elem_of_sleepq_insert td q t : t ∈ sleepq_insert td q ↔ t ∈ q ∨ t = td.
Proof. unfold sleepq_insert. rewrite elem_of_app, list_elem_of_singleton. done. Qed.
Lemma elem_of_sleepq_remove td q t : t ∈ sleepq_remove td q ↔ t ∈ q ∧ t ≠ td.
Proof. unfold sleepq_remove. rewrite list_elem_of_filter. tauto. Qed.

Lemma owner_not td g : inv g → td ≠ 0 → w_at g td ≠ Held → mtx_owner (w_mtx g) ≠ td.
Proof. intros Hi Htd Hp Ho. by apply Hp, (inv_owner _ Hi td Htd). Qed.

Lemma queue_not td g :
  inv g → ¬ queued (w_at g td) → td ∉ mtx_sleepq (w_mtx g).
Proof. intros Hi Hp Hq. by apply Hp, (inv_queue _ Hi). Qed.
Lemma cv_queue_not td g :
  inv g → ¬ cv_queued (w_at g td) → td ∉ cv_sleepq (w_cv g).
Proof. intros Hi Hp Hq. by apply Hp, (inv_cv _ Hi). Qed.

Lemma signal_done td m c l c' :
  cv_signal td m c = Done l c' →
  cv_spinlock c = 0 ∧ c' = mk_cv 0 (cv_sleepq c) ∧ l = sleepq_signal_one (cv_sleepq c).
Proof.
  unfold cv_signal, CV_LOCK, CV_UNLOCK, assert_, bind, get, put, modify, ret.
  destruct (MUTEX_HELD td m); [|done].
  destruct (cv_spinlock c =? 0) eqn:E; [|done]. zcmp. by intros [= <- <-].
Qed.
Lemma broadcast_done td m c l c' :
  cv_signal_broadcast td m c = Done l c' →
  cv_spinlock c = 0 ∧ c' = mk_cv 0 (cv_sleepq c) ∧ l = cv_sleepq c.
Proof.
  unfold cv_signal_broadcast, CV_LOCK, CV_UNLOCK, assert_, bind, get, put, modify, ret.
  destruct (MUTEX_HELD td m); [|done].
  destruct (cv_spinlock c =? 0) eqn:E; [|done]. zcmp. by intros [= <- <-].
Qed.
Lemma wait_done td m c l m' c' :
  cv_wait_unlock td (m, c) = Done l (m', c') →
  mtx_owner m = td ∧ m' = set_owner 0 m ∧ cv_spinlock c = 0 ∧ c' = mk_cv td (cv_sleepq c).
Proof.
  unfold cv_wait_unlock, CV_LOCK, zoom, bind, get, put, assert_. cbn.
  destruct (MUTEX_HELD td m); cbn; [|done].
  destruct (cv_spinlock c =? 0) eqn:E; cbn; [|done]. zcmp.
  destruct (mutex_unlock td m) as [l1 m1|] eqn:Hu; [|done].
  apply unlock_done in Hu as (?&->&_). by intros [= <- <- <-].
Qed.

(** Reduce [inv (go ..)] to its conditions; [Hp] is the thread's old place. *)
Ltac keep_inv Hi Htd Hp :=
  apply go_inv; [exact Hi|exact Htd|..]; cbn [mtx_owner mtx_sleepq set_owner set_waiters
     set_sleepq cv_sleepq cv_spinlock]; rewrite ?(inv_queue _ Hi), ?(inv_cv _ Hi),
     ?Hp; cbn [queued cv_queued]; try done; try (split; congruence);
  try (rewrite <-(inv_owner _ Hi _ Htd), Hp; split; congruence);
  try (rewrite <-(inv_enter _ Hi _ Htd), Hp; split; congruence).

Lemma step_inv td g g' : inv g → td ≠ 0 → step td g g' → inv g'.
Proof.
  intros Hi Htd Hs.
  destruct Hs as [Hp|n m Hp Ha|n n' Hp Ha|n n' m Hp Ha|n Hp|n Hp|n k Hp|l m Hp Hu|l c Hp Hsg
    |l c Hp Hsg|l m c Hp Hu|c Hp Hu|Hp Hcu].
  - keep_inv Hi Htd Hp.
  - apply attempt_acquired in Ha as [Ho ->]. keep_inv Hi Htd Hp.
  - keep_inv Hi Htd Hp.
  - apply attempt_sleeps in Ha as (Ho&_&->). keep_inv Hi Htd Hp.
    all: setoid_rewrite elem_of_sleepq_insert; naive_solver.
  - keep_inv Hi Htd Hp; setoid_rewrite elem_of_sleepq_remove; naive_solver.
  - keep_inv Hi Htd Hp.
  - keep_inv Hi Htd Hp.
  - apply unlock_done in Hu as (Ho&->&_). apply wake_inv. keep_inv Hi Htd Hp.
  - apply signal_done in Hsg as (Hz&->&_). apply wake_inv. keep_inv Hi Htd Hp.
  - apply broadcast_done in Hsg as (Hz&->&_). apply wake_inv. keep_inv Hi Htd Hp.
  - apply wait_done in Hu as (Ho&->&Hz&->). apply wake_inv. keep_inv Hi Htd Hp.
  - injection Hu as <-. pose proof (proj1 (inv_enter _ Hi _ Htd) Hp) as Ho.
    keep_inv Hi Htd Hp; setoid_rewrite elem_of_sleepq_insert; naive_solver.
  - keep_inv Hi Htd Hp; setoid_rewrite elem_of_sleepq_remove; naive_solver.
Qed.

Lemma start_inv : inv start.
Proof.
  split; simpl; try done.
  all: intros t; split; (intros Ht; by apply elem_of_nil in Ht) || done.
Qed.

Lemma mutex_reachable_inv g : reachable g → inv g.
Proof.
  intros Hr. enough (∀ g0, inv g0 → rtc next g0 g → inv g) as He by eauto using start_inv.
  intros g0 H0 Hr'. induction Hr' as [|g1 g2 g3 (td&Htd&Hs) _ IH]; [done|].
  eauto using step_inv.
Qed.

(** The thread waits on the condition variable. *)
Definition waiting (p : place) : Prop :=
  match p with CvEnter | CvAsleep | CvWoken => True | _ => False end.

(** C19: whatever the threads do, at most one holds a mutex, the others find
    it owned, and the holder's [mutex_unlock] and [cv_signal] do not fail
    their assertions. *)
Theorem mutex_exclusion g t t' :
  reachable g → w_at g t = Held →
  (w_at g t' = Held → t = t') ∧
  (t' ≠ 0 → t' ≠ t → ∀ n m, mutex_attempt t' n (w_mtx g) ≠ Acquired m) ∧
  (∃ l, mutex_unlock t (w_mtx g) = Done l (set_owner 0 (w_mtx g))) ∧
  MUTEX_HELD t (w_mtx g) = true.
Proof.
  intros Hr%mutex_reachable_inv Ht.
  assert (t ≠ 0) as Ht0 by (intros ->; by rewrite (inv_null _ Hr) in Ht).
  pose proof (proj1 (inv_owner _ Hr t Ht0) Ht) as Ho. split_and!.
  - intros Ht'. destruct (decide (t' = 0)) as [->|Hn]; [by rewrite (inv_null _ Hr) in Ht'|].
    pose proof (proj1 (inv_owner _ Hr t' Hn) Ht'). congruence.
  - intros _ _ n m Ha. apply attempt_acquired in Ha as [Ha _]. congruence.
  - by apply mutex_unlock_held.
  - unfold MUTEX_HELD. rewrite Ho, Z.eqb_refl. by rewrite (proj2 (Z.eqb_neq t 0)).
Qed.

(** a condition variable does not miss a signal.  Once a thread in
    [cv_wait] has given up the mutex, the next [cv_signal] wakes a waiting
    thread: the waiter's spin lock keeps the signal out until it is in the
    queue. *)
Theorem cv_signal_wakes g td l c t :
  reachable g → cv_signal td (w_mtx g) (w_cv g) = Done l c → waiting (w_at g t) →
  ∃ t', waiting (w_at g t') ∧ w_at (wake l g) t' = CvWoken.
Proof.
  intros Hr%mutex_reachable_inv (Hz&_&->)%signal_done Hw.
  assert (t ∈ cv_sleepq (w_cv g)) as Hin.
  { apply (inv_cv _ Hr). destruct (w_at g t) eqn:E; try done.
    assert (t ≠ 0) as Ht by (intros ->; by rewrite (inv_null _ Hr) in E).
    apply (inv_enter _ Hr _ Ht) in E. congruence. }
  destruct (cv_sleepq (w_cv g)) as [|t' q] eqn:Hq; [by apply elem_of_nil in Hin|].
  exists t'. assert (cv_queued (w_at g t')) as Ht'
    by (apply (inv_cv _ Hr); rewrite Hq; by left).
  simpl. rewrite bool_decide_true by (by left). by destruct (w_at g t').
Qed.

(** * Runs *)

(** The next step of a thread, as a function; a thread that holds the mutex
    has a choice. *)
Inductive choice := Unlock | Signal | Wait | Go.
Definition move (td : Z) (ch : choice) (g : world) : option world :=
  let m := w_mtx g in let c := w_cv g in
  match w_at g td, ch with
  | Outside, Go => Some (go td (Locking 0) m c g)
  | Locking n, Go =>
      match mutex_attempt td n m with
      | Recursed => None
      | Acquired m' => Some (go td Held m' c g)
      | Again n' => Some (go td (Locking n') m c g)
      | Sleeps n' m' => Some (go td (Asleep n') m' c g)
      end
  | Woken n, Go => Some (go td (Leaving n) (set_sleepq (sleepq_remove td (mtx_sleepq m)) m) c g)
  | Leaving n, Go => Some (go td (Storing n (mtx_waiters m)) m c g)
  | Storing n k, Go => Some (go td (Locking n) (set_waiters (u32 (k - 1)) m) c g)
  | Held, Unlock =>
      match mutex_unlock td m with
      | Done l m' => Some (wake l (go td Outside m' c g)) | Stop _ => None end
  | Held, Signal =>
      match cv_signal td m c with
      | Done l c' => Some (wake l (go td Held m c' g)) | Stop _ => None end
  | Held, Wait =>
      match cv_wait_unlock td (m, c) with
      | Done l (m', c') => Some (wake l (go td CvEnter m' c' g)) | Stop _ => None end
  | CvEnter, Go =>
      match cv_wait_sleep td c with
      | Done _ c' => Some (go td CvAsleep m c' g) | Stop _ => None end
  | CvWoken, Go =>
      if cv_spinlock c =? 0
      then Some (go td Outside m (mk_cv 0 (sleepq_remove td (cv_sleepq c))) g) else None
  | _, _ => None
  end.

Lemma move_step td ch g g' : move td ch g = Some g' → step td g g'.
Proof.
  unfold move. intros Hm.
  repeat (case_match; try done); simplify_eq; zcmp; eauto using step.
  all: match goal with u : unit |- _ => destruct u end; eauto using step.
Qed.

Fixpoint run (script : list (Z * choice)) (g : world) : option world :=
  match script with
  | [] => Some g
  | (td, ch) :: rest => if td =? 0 then None else g' ← move td ch g; run rest g'
  end.

Lemma run_reachable script g : run script start = Some g → reachable g.
Proof.
  unfold reachable. generalize start. induction script as [|[td ch] rest IH]; simpl.
  - intros g0 [= ->]. apply rtc_refl.
  - intros g0. case_match; [done|]. zcmp. destruct (move td ch g0) as [g1|] eqn:Hm; [|done].
    intros Hr. apply rtc_l with g1; [|by apply IH].
    exists td. split; [done|]. by apply (move_step _ ch).
Qed.

Definition goes (td : Z) (n : nat) : list (Z * choice) := replicate n (td, Go).

(** C40: the race on [mtx_waiters].  Thread 2 is back from [sleepq_enter] and
    has read the counter; thread 3 goes to sleep and increments it; thread 2
    stores its stale value.  Thread 1's [mutex_unlock] then sees no waiters:
    the mutex is free, every other thread is done with it, and thread 3 is
    asleep. *)
Theorem mutex_lost_wakeup :
  ∃ g, reachable g ∧ mtx_owner (w_mtx g) = 0 ∧ mtx_waiters (w_mtx g) = 0 ∧
    w_at g 1 = Outside ∧ w_at g 2 = Outside ∧ w_at g 3 = Asleep 11.
Proof.
  destruct (run (goes 1 2 ++ goes 2 12 ++ [(1, Unlock)] ++ goes 2 2 ++ goes 1 2 ++ goes 3 12
    ++ goes 2 1 ++ [(1, Unlock)] ++ goes 2 1 ++ [(2, Unlock)]) start) as [g|] eqn:Hr;
    [|by vm_compute in Hr].
  exists g. split; [by eapply run_reachable|]. vm_compute in Hr. injection Hr as <-.
  by vm_compute.
Qed.

(** Two signals wake one thread.  Threads 1 and 2 wait; thread 3 signals
    twice before either runs.  Both signals go to thread 1, which is still the
    first of the queue, and thread 2 stays asleep. *)
Theorem cv_signals_collapse :
  ∃ g, reachable g ∧ w_at g 1 = Outside ∧ w_at g 2 = CvAsleep ∧ w_at g 3 = Outside.
Proof.
  destruct (run (goes 1 2 ++ [(1, Wait)] ++ goes 1 1 ++ goes 2 2 ++ [(2, Wait)] ++ goes 2 1
    ++ goes 3 2 ++ [(3, Signal); (3, Signal); (3, Unlock)] ++ goes 1 1) start) as [g|] eqn:Hr;
    [|by vm_compute in Hr].
  exists g. split; [by eapply run_reachable|]. vm_compute in Hr. injection Hr as <-.
  by vm_compute.
Qed.

Lemma mutex_exclusion_witness :
  ∃ g, reachable g ∧ w_at g 1 = Held ∧ MUTEX_HELD 1 (w_mtx g) = true.
Proof.
  destruct (run (goes 1 2) start) as [g|] eqn:Hr; [|by vm_compute in Hr].
  pose proof (run_reachable _ _ Hr) as Hg.
  assert (w_at g 1 = Held) as Hh by (vm_compute in Hr; injection Hr as <-; by vm_compute).
  exists g. split; [exact Hg|]. split; [exact Hh|].
  exact (proj2 (proj2 (proj2 (mutex_exclusion g 1 1 Hg Hh)))).
Defined.

Lemma cv_signal_wakes_witness :
  ∃ g l, reachable g ∧ waiting (w_at g 1) ∧ ∃ t', w_at (wake l g) t' = CvWoken.
Proof.
  destruct (run (goes 1 2 ++ [(1, Wait)] ++ goes 1 1 ++ goes 2 2) start) as [g|] eqn:Hr;
    [|by vm_compute in Hr].
  pose proof (run_reachable _ _ Hr) as Hg.
  destruct (cv_signal 2 (w_mtx g) (w_cv g)) as [l c|] eqn:Hs;
    [|vm_compute in Hr; injection Hr as <-; by vm_compute in Hs].
  assert (waiting (w_at g 1)) as Hw by (vm_compute in Hr; injection Hr as <-; by vm_compute).
  destruct (cv_signal_wakes g 2 l c 1 Hg Hs Hw) as (t'&_&Ht').
  exists g, l. split; [exact Hg|]. split; [exact Hw|]. by exists t'.
Defined.
End Mtx.
