(* ===== verification/Directory.v ===== *)
(** The directory of services ([mk/ns/service_directory.c]).

    A service is known by its name.  The directory is a search tree of
    entries in the order of [strcmp]; abstractly it is a finite map from names
    to ports.  A name is the list of the characters of a C string; CString.v
    shows what [strcmp] and [strlcpy] do to those. *)

From S2P Require Import Prelude MachineInt Btree Mutex Pool CString.

Local Open Scope Z_scope.
Local Open Scope c_scope.

Definition NS_SERVICE_NAME_LENGTH : Z := 24.
(** What [strlcpy] leaves of a name in [NS_SERVICE_NAME_LENGTH] bytes. *)
Definition service_name (name : list Z) : list Z := take (Z.to_nat (NS_SERVICE_NAME_LENGTH - 1)) name.

Record service_directory_entry := mk_sde { sde_name : list Z; sde_port : Z }.

Section directory.
Context {Ob : Type} `{ObjPool Ob}.

(** With the threads woken by the unlocking, latest first. *)
Record directory := mk_dir {
  service_directory : tree Z;
  sde_store : gmap Z service_directory_entry;
  service_directory_entry_pool : Ob;
  service_directory_lock : mutex;
  dir_woken : list Z
}.
Definition set_tree (t : tree Z) (d : directory) : directory :=
  mk_dir t (sde_store d) (service_directory_entry_pool d) (service_directory_lock d) (dir_woken d).
Definition set_store (m : gmap Z service_directory_entry) (d : directory) : directory :=
  mk_dir (service_directory d) m (service_directory_entry_pool d) (service_directory_lock d) (dir_woken d).
Definition set_pool (o : Ob) (d : directory) : directory :=
  mk_dir (service_directory d) (sde_store d) o (service_directory_lock d) (dir_woken d).
Definition set_lock (m : mutex) (d : directory) : directory :=
  mk_dir (service_directory d) (sde_store d) (service_directory_entry_pool d) m (dir_woken d).
Definition set_woken (l : list Z) (d : directory) : directory :=
  mk_dir (service_directory d) (sde_store d) (service_directory_entry_pool d) (service_directory_lock d) l.

Definition sdev (d : directory) (a : Z) : service_directory_entry :=
  default (mk_sde [] 0) (sde_store d !! a).
Definition put_sde (a : Z) (x : service_directory_entry) : M directory unit :=
  modify (λ d, set_store (<[a := x]> (sde_store d)) d).
Definition strcmp_names (d : directory) (name : list Z) (iter : Z) : Z :=
  chars_cmp name (sde_name (sdev d iter)).

(** [service_directory_init], the pool made. *)
Definition service_directory_init (pool : Ob) : directory :=
  mk_dir Leaf ∅ pool (mutex_init MUTEX_FLAG_DEFAULT) [].

Section run.
(** [current_thread()] *)
Context (self : Z).

Definition SERVICE_DIRECTORY_LOCK : M directory unit := zoom service_directory_lock set_lock (mutex_lock self).
Definition SERVICE_DIRECTORY_UNLOCK : M directory unit :=
  l <- zoom service_directory_lock set_lock (mutex_unlock self) ;;
  modify (λ d, set_woken (l ++ dir_woken d) d).

Definition service_directory_enter (name : list Z) (port : Z) : M directory (result unit) :=
  match name with
  | [] => ret (Err ERROR_INVALID)
  | _ =>
      sde <- zoom service_directory_entry_pool set_pool op_alloc ;;
      put_sde sde (mk_sde (service_name name) port) ;;;
      SERVICE_DIRECTORY_LOCK ;;;
      d <- get ;;
      let mine := sde_name (sdev d sde) in
      match bt_find (λ iter, strcmp_names d mine iter <? 0) (λ iter, strcmp_names d mine iter =? 0)
              (service_directory d) with
      | Some old =>
          SERVICE_DIRECTORY_UNLOCK ;;;
          modify (λ d, set_store (delete sde (sde_store d)) d) ;;;
          zoom service_directory_entry_pool set_pool (op_free sde) ;;;
          ret (Err ERROR_NOT_FREE)
      | None =>
          modify (λ d, set_tree (bt_insert (λ iter, strcmp_names d mine iter <? 0) sde (service_directory d)) d) ;;;
          SERVICE_DIRECTORY_UNLOCK ;;;
          ret (Ok tt)
      end
  end.

(** [*portp] *)
Definition service_directory_lookup (name : list Z) : M directory (result Z) :=
  SERVICE_DIRECTORY_LOCK ;;;
  d <- get ;;
  match bt_find (λ iter, strcmp_names d name iter <? 0) (λ iter, strcmp_names d name iter =? 0)
          (service_directory d) with
  | None => SERVICE_DIRECTORY_UNLOCK ;;; ret (Err ERROR_NOT_FOUND)
  | Some sde =>
      x <- (d <- get ;; deref "struct service_directory_entry" (sde_store d !! sde)) ;;
      SERVICE_DIRECTORY_UNLOCK ;;;
      ret (Ok (sde_port x))
  end.
End run.
End directory.

(** * The order of [strcmp] *)

Definition is_char (c : Z) : Prop := 0 < c < 256.

(** The first [n] characters as a number, the end of the string between the
    characters that are negative and those that are positive. *)
Fixpoint skey (n : nat) (l : list Z) : Z :=
  match n with
  | O => 0
  | S n => (match l with [] => 128 | c :: _ => char_of c + 128 end) * 256 ^ Z.of_nat n + skey n (tail l)
  end.

Lemma char_of_digit c : is_char c → 0 ≤ char_of c + 128 < 256.
Proof. unfold is_char, char_of. intros. case_match; zcmp; lia. Qed.
Lemma char_of_nonzero c : is_char c → char_of c ≠ 0.
Proof. unfold is_char, char_of. intros. case_match; zcmp; lia. Qed.
Lemma char_of_inj b c : is_char b → is_char c → char_of b = char_of c → b = c.
Proof. unfold is_char, char_of. intros. case_match; case_match; zcmp; lia. Qed.

Lemma skey_range n : ∀ l, Forall is_char l → 0 ≤ skey n l < 256 ^ Z.of_nat n.
Proof.
  induction n as [|n IH]; intros l Hl; [done|]. cbn [skey]. rewrite Nat2Z.inj_succ, Z.pow_succ_r by lia.
  assert (0 ≤ skey n (tail l) < 256 ^ Z.of_nat n) as Hr by (apply IH; destruct l; [done|by inversion Hl]).
  assert (0 ≤ match l with [] => 128 | c :: _ => char_of c + 128 end < 256) as Hd.
  { destruct l as [|c l]; [lia|]. apply Forall_cons in Hl as [Hc _]. by apply char_of_digit. }
  nia.
Qed.

(** Comparing strings is comparing their numbers. *)
Lemma skey_cmp n : ∀ l1 l2,
  (length l1 ≤ n)%nat → (length l2 ≤ n)%nat → Forall is_char l1 → Forall is_char l2 →
  Z.sgn (chars_cmp l1 l2) = Z.sgn (skey n l1 - skey n l2).
Proof.
  induction n as [|n IH]; intros l1 l2 H1 H2 V1 V2.
  - by destruct l1, l2; try (simpl in *; lia).
  - cbn [skey]. set (p := 256 ^ Z.of_nat n).
    assert (0 < p) as Hp by (unfold p; lia).
    assert (Forall is_char (tail l1) ∧ Forall is_char (tail l2)) as [T1 T2]
      by (split; [destruct l1|destruct l2]; try done; [by inversion V1|by inversion V2]).
    pose proof (skey_range n _ T1) as R1. pose proof (skey_range n _ T2) as R2. fold p in R1, R2.
    assert (∀ a b, a ≠ b → Z.sgn (a - b) = Z.sgn ((a + 128) * p + skey n (tail l1) - ((b + 128) * p + skey n (tail l2)))) as Hab.
    { intros a b Hne. destruct (Z.lt_total a b) as [?|[?|?]]; [|done|].
      - rewrite !Z.sgn_neg; [done|nia|lia].
      - rewrite !Z.sgn_pos; [done|nia|lia]. }
    destruct l1 as [|x l1], l2 as [|y l2]; cbn [chars_cmp tail length] in *.
    + f_equal. lia.
    + apply Forall_cons in V2 as [Hy _]. change 128 with (0 + 128). rewrite <-Hab by (by apply not_eq_sym, char_of_nonzero). done.
    + apply Forall_cons in V1 as [Hx _]. change 128 with (0 + 128) at 2. rewrite <-Hab by (by apply char_of_nonzero). f_equal. lia.
    + apply Forall_cons in V1 as [Hx V1], V2 as [Hy V2]. destruct (Z.eqb_spec x y) as [->|Hne].
      * rewrite (IH l1 l2) by (done || lia). f_equal. lia.
      * apply Hab. intros E. by apply Hne, char_of_inj.
Qed.

Lemma skey_ltb n l1 l2 :
  (length l1 ≤ n)%nat → (length l2 ≤ n)%nat → Forall is_char l1 → Forall is_char l2 →
  (chars_cmp l1 l2 <? 0) = (skey n l1 <? skey n l2) ∧ (chars_cmp l1 l2 =? 0) = (skey n l1 =? skey n l2).
Proof.
  intros H1 H2 V1 V2. pose proof (skey_cmp n l1 l2 H1 H2 V1 V2) as Hs.
  split; [destruct (Z.ltb_spec (chars_cmp l1 l2) 0), (Z.ltb_spec (skey n l1) (skey n l2))
         |destruct (Z.eqb_spec (chars_cmp l1 l2) 0), (Z.eqb_spec (skey n l1) (skey n l2))]; try done; exfalso; lia.
Qed.

(** * The directory as a finite map *)

Definition spec_enter (name : list Z) (port : Z) (m : gmap (list Z) Z) : result unit * gmap (list Z) Z :=
  match name with
  | [] => (Err ERROR_INVALID, m)
  | _ =>
      match m !! service_name name with
      | Some _ => (Err ERROR_NOT_FREE, m)
      | None => (Ok tt, <[service_name name := port]> m)
      end
  end.
Definition spec_lookup (name : list Z) (m : gmap (list Z) Z) : result Z :=
  match m !! name with Some port => Ok port | None => Err ERROR_NOT_FOUND end.

Lemma bt_insert_ext {A} (cmp cmp' : A → bool) v (t : tree A) :
  (∀ x, x ∈ elements t → cmp x = cmp' x) → bt_insert cmp v t = bt_insert cmp' v t.
Proof.
  induction t as [|l IHl y r IHr]; simpl; [done|]. intros Hc. rewrite <-(Hc y) by set_solver.
  by rewrite IHl, IHr by set_solver.
Qed.

Section refinement.
Context {Ob : Type} `{ObjPool Ob} (self : Z) (Hself : self ≠ 0).
Notation directory := (@directory Ob).
Implicit Types (d : directory) (a x : Z) (name : list Z).

Definition name_of d a : list Z := sde_name (sdev d a).
Definition names d : gmap (list Z) Z :=
  list_to_map ((λ a, (name_of d a, sde_port (sdev d a))) <$> elements (service_directory d)).

Record dir_ok d : Prop := {
  dk_sorted : StronglySorted (λ x y, chars_cmp (name_of d x) (name_of d y) < 0) (elements (service_directory d));
  dk_in a : a ∈ elements (service_directory d) → is_Some (sde_store d !! a);
  dk_name a e : sde_store d !! a = Some e → Forall is_char (sde_name e) ∧ (length (sde_name e) ≤ 23)%nat;
  dk_pool : op_inv (service_directory_entry_pool d);
  dk_live a : is_Some (sde_store d !! a) → op_live (service_directory_entry_pool d) a;
  dk_lock : mtx_owner (service_directory_lock d) = 0
}.

Lemma sdev_in d a : is_Some (sde_store d !! a) → sde_store d !! a = Some (sdev d a).
Proof. unfold sdev. by intros [e ->]. Qed.
Lemma name_ok d a : dir_ok d → is_Some (sde_store d !! a) → Forall is_char (name_of d a) ∧ (length (name_of d a) ≤ 23)%nat.
Proof. intros Hd Ha. apply (dk_name _ Hd a). by apply sdev_in. Qed.

(** The tree, searched by the numbers of the names. *)
Definition dkey n d a : Z := skey n (name_of d a).

Lemma dir_bst n d : dir_ok d → (23 ≤ n)%nat → bst (dkey n d) (service_directory d).
Proof.
  intros Hd Hn. eapply StronglySorted_weaken; [|apply (dk_sorted _ Hd)]. intros x y Hx Hy Hlt. cbv beta in Hlt. unfold key_lt, dkey.
  destruct (name_ok d x Hd (dk_in _ Hd x Hx)), (name_ok d y Hd (dk_in _ Hd y Hy)).
  pose proof (skey_cmp n (name_of d x) (name_of d y) ltac:(lia) ltac:(lia) ltac:(done) ltac:(done)). lia.
Qed.

(** [BTREE_FIND] in the order of [strcmp] *)
Lemma dir_find n d name :
  dir_ok d → (23 ≤ n)%nat → (length name ≤ n)%nat → Forall is_char name →
  bt_find (λ iter, strcmp_names d name iter <? 0) (λ iter, strcmp_names d name iter =? 0) (service_directory d) =
  find_key (dkey n d) (skey n name) (service_directory d).
Proof.
  intros Hd Hn Hl Hc. apply bt_find_ext. intros x Hx. unfold strcmp_names, dkey.
  destruct (name_ok d x Hd (dk_in _ Hd x Hx)). apply (skey_ltb n); (done || (unfold name_of in *; lia)).
Qed.

Lemma skey_inj n l1 l2 : (length l1 ≤ n)%nat → (length l2 ≤ n)%nat → Forall is_char l1 → Forall is_char l2 →
  skey n l1 = skey n l2 → l1 = l2.
Proof.
  intros H1 H2 V1 V2 E. apply chars_cmp_eq; [done..|]. pose proof (skey_cmp n l1 l2 H1 H2 V1 V2). lia.
Qed.

Lemma names_lookup n d name :
  dir_ok d → (23 ≤ n)%nat → (length name ≤ n)%nat → Forall is_char name →
  names d !! name = (λ a, sde_port (sdev d a)) <$> find_key (dkey n d) (skey n name) (service_directory d).
Proof.
  intros Hd Hn Hl Hc. unfold names. pose proof (dir_bst n d Hd Hn) as Hb.
  assert (NoDup ((λ a, (name_of d a, sde_port (sdev d a))) <$> elements (service_directory d)).*1) as Hnd.
  { rewrite <-list_fmap_compose. apply NoDup_fmap_2_strong; [|by eapply bst_NoDup].
    intros x y Hx Hy Hk. eapply bst_inj; [exact Hb|done|done|]. unfold dkey. simpl in Hk. by rewrite Hk. }
  destruct (find_key _ _ _) as [a|] eqn:Hf; simpl.
  - apply find_key_Some in Hf as [Ha Hk]; [|done]. apply elem_of_list_to_map; [done|]. apply list_elem_of_fmap.
    exists a. split; [|done]. destruct (name_ok d a Hd (dk_in _ Hd a Ha)). f_equal.
    symmetry. apply (skey_inj n); (done || lia).
  - apply not_elem_of_list_to_map. rewrite <-list_fmap_compose. intros (a&Hname&Ha)%list_elem_of_fmap.
    rewrite find_key_None in Hf by done. apply (Hf a Ha). unfold dkey. simpl in Hname. by rewrite Hname.
Qed.

Lemma service_name_ok name : Forall is_char name →
  Forall is_char (service_name name) ∧ (length (service_name name) ≤ 23)%nat.
Proof.
  intros Hc. split; [by apply Forall_take|]. unfold service_name, NS_SERVICE_NAME_LENGTH. rewrite length_take. lia.
Qed.

Lemma wp_dir_lock d (Q : unit → directory → Prop) E :
  mtx_owner (service_directory_lock d) = 0 →
  (∀ m, mtx_owner m = self → Q tt (set_lock m d)) → wp (SERVICE_DIRECTORY_LOCK self) Q E d.
Proof.
  intros Ho HQ. unfold SERVICE_DIRECTORY_LOCK. rewrite wp_zoom. unfold wp. rewrite mutex_lock_free by done. by apply HQ.
Qed.
Lemma wp_dir_unlock d (Q : unit → directory → Prop) E :
  mtx_owner (service_directory_lock d) = self →
  (∀ m l, mtx_owner m = 0 → Q tt (set_woken l (set_lock m d))) → wp (SERVICE_DIRECTORY_UNLOCK self) Q E d.
Proof.
  intros Ho HQ. unfold SERVICE_DIRECTORY_UNLOCK. rewrite wp_bind, wp_zoom. unfold wp at 1.
  destruct (mutex_unlock_held self _ Hself Ho) as [w ->]. rewrite wp_modify. by apply HQ.
Qed.

(** Only the lock and the woken threads changed. *)
Lemma dir_ok_lock d m l : dir_ok d → mtx_owner m = 0 → dir_ok (set_woken l (set_lock m d)).
Proof. intros [? ? ? ? ? ?] Hm. by split. Qed.

Lemma dir_lookup_ok d name : dir_ok d → Forall is_char name →
  wp (service_directory_lookup self name)
    (λ r d', r = spec_lookup name (names d) ∧ dir_ok d' ∧ names d' = names d) never d.
Proof.
  intros Hd Hc. unfold service_directory_lookup. rewrite wp_bind. apply wp_dir_lock; [apply Hd|]. intros m Hm.
  rewrite wp_bind, wp_get. set (n := Nat.max 23 (length name)).
  change (strcmp_names (set_lock m d)) with (strcmp_names d). cbn [service_directory set_lock].
  rewrite (dir_find n) by (done || lia). unfold spec_lookup. rewrite (names_lookup n) by (done || lia).
  destruct (find_key _ _ _) as [a|] eqn:Hf; cbn [fmap option_fmap option_map].
  - apply find_key_Some in Hf as [Ha _]; [|apply dir_bst; (done || lia)].
    rewrite !wp_bind, wp_get, wp_deref. cbn [sde_store set_lock]. rewrite (sdev_in d a) by (by apply (dk_in _ Hd)).
    rewrite wp_bind. apply wp_dir_unlock; [done|]. intros m2 l Hm2. rewrite wp_ret. split_and!; [done|by apply (dir_ok_lock d)|done].
  - rewrite wp_bind. apply wp_dir_unlock; [done|]. intros m2 l Hm2. rewrite wp_ret.
    split_and!; [done|by apply (dir_ok_lock d)|done].
Qed.

(** A new entry that is not in the tree yet. *)
Lemma sdev_fresh d a x e o : ¬ is_Some (sde_store d !! a) → is_Some (sde_store d !! x) →
  sdev (set_store (<[a := e]> (sde_store d)) (set_pool o d)) x = sdev d x.
Proof. intros Ha Hx. unfold sdev. cbn. rewrite lookup_insert_ne; [done|]. by intros ->. Qed.

Lemma dir_ok_fresh d a e o :
  dir_ok d → op_inv o → ¬ op_live (service_directory_entry_pool d) a →
  (∀ y, op_live o y ↔ op_live (service_directory_entry_pool d) y ∨ y = a) →
  Forall is_char (sde_name e) ∧ (length (sde_name e) ≤ 23)%nat →
  let d' := set_store (<[a := e]> (sde_store d)) (set_pool o d) in
  dir_ok d' ∧ names d' = names d ∧ a ∉ elements (service_directory d').
Proof.
  intros Hd Ho Hl Hlive He d'. assert (¬ is_Some (sde_store d !! a)) as Ha by (intros Ha; by apply Hl, (dk_live _ Hd)).
  assert (∀ x, x ∈ elements (service_directory d) → sdev d' x = sdev d x) as Hs
    by (intros x Hx; apply sdev_fresh; [done|by apply (dk_in _ Hd)]).
  split_and!; [split|..].
  - eapply StronglySorted_weaken; [|apply (dk_sorted _ Hd)]. intros x y Hx Hy. unfold name_of. by rewrite !Hs.
  - intros x Hx. cbn. apply lookup_insert_is_Some'. right. by apply (dk_in _ Hd).
  - intros x e'. cbn. intros [[<- <-]|[_ Hx]]%lookup_insert_Some; [done|by apply (dk_name _ Hd x)].
  - done.
  - intros x. cbn. rewrite lookup_insert_is_Some', Hlive. intros [->|Hx]; [by right|left; by apply (dk_live _ Hd)].
  - apply (dk_lock _ Hd).
  - unfold names. f_equal. apply list_fmap_ext. intros i x Hx%list_elem_of_lookup_2. unfold name_of. by rewrite !Hs.
  - cbn. intros Hin. by apply Ha, (dk_in _ Hd).
Qed.

(** Taking it away again. *)
Lemma dir_ok_drop d a o :
  dir_ok d → a ∉ elements (service_directory d) → op_inv o →
  (∀ y, op_live o y ↔ op_live (service_directory_entry_pool d) y ∧ y ≠ a) →
  let d' := set_pool o (set_store (delete a (sde_store d)) d) in
  dir_ok d' ∧ names d' = names d.
Proof.
  intros Hd Ha Ho Hlive d'.
  assert (∀ x, x ∈ elements (service_directory d) → sdev d' x = sdev d x) as Hs.
  { intros x Hx. unfold sdev. cbn. rewrite lookup_delete_ne; [done|]. by intros ->. }
  split; [split|].
  - eapply StronglySorted_weaken; [|apply (dk_sorted _ Hd)]. intros x y Hx Hy. unfold name_of. by rewrite !Hs.
  - intros x Hx. cbn. rewrite lookup_delete_ne by (by intros ->). by apply (dk_in _ Hd).
  - intros x e'. cbn. intros [_ Hx]%lookup_delete_Some. by apply (dk_name _ Hd x).
  - done.
  - intros x. cbn. intros [e [Hne Hx]%lookup_delete_Some]. apply Hlive. split; [apply (dk_live _ Hd); by exists e|done].
  - apply (dk_lock _ Hd).
  - unfold names. f_equal. apply list_fmap_ext. intros i x Hx%list_elem_of_lookup_2. unfold name_of. by rewrite !Hs.
Qed.

(** Entering it. *)
Lemma dir_ok_insert d a :
  dir_ok d → a ∉ elements (service_directory d) → is_Some (sde_store d !! a) → names d !! name_of d a = None →
  let d' := set_tree (bt_insert (λ iter, strcmp_names d (name_of d a) iter <? 0) a (service_directory d)) d in
  dir_ok d' ∧ names d' = <[name_of d a := sde_port (sdev d a)]> (names d).
Proof.
  intros Hd Ha Hin Hnone d'. destruct (name_ok d a Hd Hin) as [Hc Hl].
  rewrite (names_lookup 23) in Hnone by (done || lia).
  destruct (find_key _ _ _) eqn:Hf in Hnone; [done|]. pose proof (dir_bst 23 d Hd ltac:(lia)) as Hb.
  rewrite find_key_None in Hf by done.
  assert (∀ x, x ∈ elements (service_directory d) → dkey 23 d x ≠ dkey 23 d a) as Hne by (intros x Hx; by apply Hf).
  assert (bt_insert (λ iter, strcmp_names d (name_of d a) iter <? 0) a (service_directory d) =
          insert_key (dkey 23 d) a (service_directory d)) as E.
  { unfold insert_key. apply bt_insert_ext. intros x Hx. destruct (name_ok d x Hd (dk_in _ Hd x Hx)).
    apply (skey_ltb 23); (done || (unfold name_of in *; lia)). }
  pose proof (bst_insert (dkey 23 d) a _ Hb Hne) as Hb'. rewrite <-E in Hb'.
  assert (∀ x, x ∈ elements (service_directory d') → is_Some (sde_store d !! x)) as Hin'
    by (intros x [->|Hx]%elem_of_insert; [done|by apply (dk_in _ Hd)]).
  assert (dir_ok d') as Hd'.
  { split; [|done|apply (dk_name _ Hd)|apply (dk_pool _ Hd)|apply (dk_live _ Hd)|apply (dk_lock _ Hd)].
    eapply StronglySorted_weaken; [|exact Hb']. intros x y Hx Hy Hlt. unfold key_lt, dkey in Hlt.
    destruct (name_ok d x Hd (Hin' x Hx)), (name_ok d y Hd (Hin' y Hy)).
    pose proof (skey_cmp 23 (name_of d x) (name_of d y) ltac:(lia) ltac:(lia) ltac:(done) ltac:(done)).
    change (name_of d') with (name_of d). lia. }
  split; [done|]. apply map_eq. intros k.
  unfold names at 1. change (name_of d') with (name_of d). change (sdev d') with (sdev d).
  cbn [service_directory d' set_tree]. rewrite (list_to_map_proper _ ((λ x, (name_of d x, sde_port (sdev d x))) <$> (a :: elements (service_directory d)))).
  - reflexivity.
  - rewrite <-list_fmap_compose. apply NoDup_fmap_2_strong; [|by eapply bst_NoDup].
    intros x y Hx Hy Hk. eapply bst_inj; [exact Hb'|done|done|]. unfold dkey. simpl in Hk. by rewrite Hk.
  - apply fmap_Permutation, elements_insert_perm.
Qed.

Lemma dir_enter_ok d name port : dir_ok d → Forall is_char name →
  wp (service_directory_enter self name port)
    (λ r d', dir_ok d' ∧ spec_enter name port (names d) = (r, names d'))
    (λ w, ∃ o : Ob, op_inv o ∧ op_alloc o = Stop w) d.
Proof.
  intros Hd Hc. unfold service_directory_enter, spec_enter. destruct name as [|c name']; [by rewrite wp_ret|].
  set (name := c :: name') in *. destruct (service_name_ok name Hc) as [Hsc Hsl].
  rewrite wp_bind, wp_zoom. unfold wp at 1. destruct (op_alloc _) as [a o|w] eqn:Hal; [|by eexists; split; [apply Hd|]].
  destruct (op_alloc_ok _ _ _ (dk_pool _ Hd) Hal) as (Ho&Hfresh&Hlive).
  set (e := mk_sde (service_name name) port).
  destruct (dir_ok_fresh d a e o Hd Ho Hfresh Hlive (conj Hsc Hsl)) as (Hd1&Hn1&Hni). 
  unfold put_sde. rewrite wp_bind, wp_modify. cbn [sde_store set_pool].
  set (d1 := set_store (<[a:=e]> (sde_store d)) (set_pool o d)) in *. rewrite <-Hn1.
  assert (sdev d1 a = e) as Hsa by (unfold sdev, d1; cbn; by rewrite lookup_insert_eq).
  assert (is_Some (sde_store d1 !! a)) as Hina by (cbn; rewrite lookup_insert_eq; by eexists).
  rewrite wp_bind. apply wp_dir_lock; [apply (dk_lock _ Hd1)|]. intros m Hm. rewrite wp_bind, wp_get.
  change (strcmp_names (set_lock m d1)) with (strcmp_names d1). change (sdev (set_lock m d1)) with (sdev d1).
  cbn [service_directory set_lock]. rewrite Hsa. cbn [sde_name e]. rewrite (dir_find 23) by (done || lia).
  pose proof (names_lookup 23 d1 (service_name name) Hd1 ltac:(lia) Hsl Hsc) as Hlook.
  destruct (find_key _ _ _) as [old|] eqn:Hf; rewrite Hlook; cbn [fmap option_fmap option_map].
  - rewrite wp_bind. apply wp_dir_unlock; [done|]. intros m2 l Hm2. rewrite wp_bind, wp_modify, wp_bind, wp_zoom.
    assert (op_live (service_directory_entry_pool d1) a) as Hla by (by apply (dk_live _ Hd1)).
    destruct (op_free_ok _ _ (dk_pool _ Hd1) Hla) as (o2&Hfr&Ho2&Hl2). unfold wp at 1.
    cbn [service_directory_entry_pool set_store set_woken set_lock]. rewrite Hfr, wp_ret.
    destruct (dir_ok_drop d1 a o2 Hd1 Hni Ho2 Hl2) as [Hd2 Hn2]. split; [by apply (dir_ok_lock _ m2 l) in Hd2|]. by rewrite <-Hn2.
  - rewrite wp_bind, wp_modify, wp_bind. apply wp_dir_unlock; [done|]. intros m2 l Hm2. rewrite wp_ret.
    assert (names d1 !! name_of d1 a = None) as Hnone by (unfold name_of; rewrite Hsa; exact Hlook).
    destruct (dir_ok_insert d1 a Hd1 Hni Hina Hnone) as [Hd2 Hn2].
    unfold name_of in Hd2, Hn2. rewrite Hsa in Hd2, Hn2. cbn [sde_name sde_port e] in Hd2, Hn2. split.
    + by apply (dir_ok_lock _ m2 l) in Hd2.
    + by rewrite <-Hn2.
Qed.

(** C21: The directory is a finite map from names, cut to 23 characters, to ports:
    entering a name that is free adds it, entering one that is taken or empty
    changes nothing, and looking one up finds what was entered.  Nothing but
    the pool of entries can stop it. *)
Theorem service_directory_correct d name port :
  dir_ok d → Forall is_char name →
  wp (service_directory_enter self name port)
    (λ r d', dir_ok d' ∧ spec_enter name port (names d) = (r, names d'))
    (λ w, ∃ o : Ob, op_inv o ∧ op_alloc o = Stop w) d ∧
  wp (service_directory_lookup self name)
    (λ r d', r = spec_lookup name (names d) ∧ dir_ok d' ∧ names d' = names d) never d.
Proof. intros. split; [by apply dir_enter_ok|by apply dir_lookup_ok]. Qed.

(** A service is found by the name it was entered with only if the name fits:
    of a longer name the directory keeps 23 characters, and nobody who looks
    for the whole name finds it. *)
Theorem service_directory_truncates d name port :
  dir_ok d → Forall is_char name → name ≠ [] → names d = ∅ →
  wp (_ <- service_directory_enter self name port ;; service_directory_lookup self name)
    (λ r _, r = if decide (Z.of_nat (length name) < NS_SERVICE_NAME_LENGTH) then Ok port else Err ERROR_NOT_FOUND)
    (λ w, ∃ o : Ob, op_inv o ∧ op_alloc o = Stop w) d.
Proof.
  intros Hd Hc Hne Hn. rewrite wp_bind. eapply wp_mono; [by apply dir_enter_ok| |done]. intros r d1 [Hd1 He].
  eapply wp_mono; [by apply dir_lookup_ok| |done]. intros r2 d2 (->&_&_).
  unfold spec_enter in He. destruct name as [|c name]; [done|]. rewrite Hn, lookup_empty in He. injection He as _ <-.
  unfold spec_lookup. unfold service_name, NS_SERVICE_NAME_LENGTH. case_decide as Hl.
  - rewrite take_ge by lia. by rewrite lookup_insert_eq.
  - rewrite lookup_insert_ne; [done|]. intros E. apply (f_equal length) in E. rewrite length_take in E. lia.
Qed.
End refinement.

(** * An empty directory, and two services *)

Definition dir0 : @directory (list Z * Z) := service_directory_init ([], 1).
Lemma dir0_ok : dir_ok dir0.
Proof.
  split; cbn; [by constructor|by intros a Ha%elem_of_nil|..|done].
  - intros a e. by rewrite lookup_empty.
  - split; [lia|]. by intros x Hx%elem_of_nil.
  - intros a. rewrite lookup_empty. by intros [? ?].
Qed.

(** The service "ns" *)
Lemma service_directory_correct_witness :
  dir_ok dir0 ∧ Forall is_char [110; 115] ∧
  wp (service_directory_enter 1 [110; 115] 1)
    (λ r d', dir_ok d' ∧ spec_enter [110; 115] 1 (names dir0) = (r, names d'))
    (λ w, ∃ o, op_inv o ∧ op_alloc o = Stop w) dir0.
Proof.
  assert (Forall is_char [110; 115]) as Hc by (repeat constructor).
  split_and!; [apply dir0_ok|done|]. apply (service_directory_correct 1 ltac:(lia) dir0 [110; 115] 1 dir0_ok Hc).
Defined.

Lemma service_directory_truncates_witness :
  let name := replicate 30 120 in
  wp (_ <- service_directory_enter 1 name 9 ;; service_directory_lookup 1 name)
    (λ r _, r = Err ERROR_NOT_FOUND) (λ w, ∃ o, op_inv o ∧ op_alloc o = Stop w) dir0.
Proof.
  apply (service_directory_truncates 1 ltac:(lia) dir0 (replicate 30 120) 9 dir0_ok); try done.
  by apply Forall_replicate.
Defined.
