(* ===== verification/Sched.v ===== *)
(** The scheduler ([mk/core/core_scheduler.c], [thread_switch] of
    [mk/core/core_thread.c]).

    A [struct scheduler_entry] is part of its [struct thread], so one number
    names both; 0 is [NULL].  The functions are run by a CPU, [self].  A call
    of [scheduler_schedule] that switches comes back, for the CPU, in the
    thread it switched to: [cpu_context_save] and [cpu_context_restore] are
    assembly code, their effect here is the new [current_thread()].

    The steps of the machine are the regions that hold the scheduler lock: a
    [scheduler_schedule] that finds a dead thread drops the lock while it frees
    it, and other CPUs run.  The theorems: no thread runs on two CPUs, a pinned
    one runs on its CPU, a running one is not freed; [scheduler_schedule] ends
    and picks the first thread that may run; and a thread that may run moves up
    the queue each time another is picked. *)

From S2P Require Import Prelude Spinlock.
From stdpp Require Import functions relations.

Local Open Scope Z_scope.
Local Open Scope c_scope.

Definition SCHEDULER_DEFAULT : Z := 0x00000000.
Definition SCHEDULER_RUNNING : Z := 0x00000001.
Definition SCHEDULER_PINNED : Z := 0x00000002.
Definition SCHEDULER_SLEEPING : Z := 0x00000004.
Definition SCHEDULER_RUNNABLE : Z := 0x00000008.
Definition SCHEDULER_EXITING : Z := 0x00000010.

Record scheduler_entry := mk_entry { se_flags : Z; se_oncpu : Z }.
Definition with_flags (f : Z → Z) (e : scheduler_entry) : scheduler_entry :=
  mk_entry (f (se_flags e)) (se_oncpu e).
Definition with_oncpu (c : Z) (e : scheduler_entry) : scheduler_entry :=
  mk_entry (se_flags e) c.

(** [current_thread()] and the critical section count of a CPU. *)
Record pcpu := mk_pcpu { pc_thread : Z; pc_critical : Z }.

(** The scheduler's data; [sc_locks], the spin locks of its callers that are
    held; [sc_freed], the threads [thread_free] was called for, latest first. *)
Record sched := mk_sched {
  scheduler_lock : bool;
  sq_queue : list Z;
  sq_exiting : list Z;
  sc_entry : gmap Z scheduler_entry;
  sc_cpu : gmap Z pcpu;     (* a CPU that is not there has run nothing *)
  sc_locks : gset Z;
  sc_freed : list Z
}.

Definition set_lock (b : bool) (s : sched) : sched :=
  mk_sched b (sq_queue s) (sq_exiting s) (sc_entry s) (sc_cpu s) (sc_locks s) (sc_freed s).
Definition set_queues (q x : list Z) (s : sched) : sched :=
  mk_sched (scheduler_lock s) q x (sc_entry s) (sc_cpu s) (sc_locks s) (sc_freed s).
Definition set_entry (e : gmap Z scheduler_entry) (s : sched) : sched :=
  mk_sched (scheduler_lock s) (sq_queue s) (sq_exiting s) e (sc_cpu s) (sc_locks s) (sc_freed s).
Definition set_cpu (c : gmap Z pcpu) (s : sched) : sched :=
  mk_sched (scheduler_lock s) (sq_queue s) (sq_exiting s) (sc_entry s) c (sc_locks s) (sc_freed s).
Definition set_locks (l : gset Z) (s : sched) : sched :=
  mk_sched (scheduler_lock s) (sq_queue s) (sq_exiting s) (sc_entry s) (sc_cpu s) l (sc_freed s).
Definition set_freed (l : list Z) (s : sched) : sched :=
  mk_sched (scheduler_lock s) (sq_queue s) (sq_exiting s) (sc_entry s) (sc_cpu s) (sc_locks s) l.

(** [TAILQ_REMOVE] *)
Definition tailq_remove (td : Z) (q : list Z) : list Z := filter (λ t, t ≠ td) q.

Definition scheduler_init (c : gmap Z pcpu) : sched := mk_sched false [] [] ∅ c ∅ [].

Definition cpu_of (s : sched) (c : Z) : pcpu := default (mk_pcpu 0 0) (sc_cpu s !! c).
Definition cur (s : sched) (c : Z) : Z := pc_thread (cpu_of s c).
Definition crit (s : sched) (c : Z) : Z := pc_critical (cpu_of s c).

Definition entry (td : Z) : M sched scheduler_entry :=
  s <- get ;; deref "scheduler entry" (sc_entry s !! td).
Definition update (td : Z) (f : scheduler_entry → scheduler_entry) : M sched unit :=
  e <- entry td ;; modify (λ s, set_entry (<[td := f e]> (sc_entry s)) s).
Definition or_flags (td bit : Z) : M sched unit := update td (with_flags (λ f, Z.lor f bit)).
Definition clear_flags (td bit : Z) : M sched unit :=
  update td (with_flags (λ f, Z.land f (bnot 32 bit))).

Section self.
Context (self : Z).

Definition critical_add (n : Z) : M sched unit :=
  modify (λ s, set_cpu (<[self := mk_pcpu (cur s self) (crit s self + n)]> (sc_cpu s)) s).
Definition critical_section : M sched bool :=
  gets (λ s, negb (crit s self =? 0)).
Definition current_thread : M sched Z := gets (λ s, cur s self).

Definition SCHEDULER_LOCK : M sched unit :=
  zoom scheduler_lock set_lock acquire ;;; critical_add 1.
Definition SCHEDULER_UNLOCK : M sched unit :=
  zoom scheduler_lock set_lock release ;;; critical_add (-1).
Definition SCHEDULER_ASSERT_LOCKED : M sched unit :=
  s <- get ;; assert_ (scheduler_lock s) "Lock must be held.".
(** [spinlock_unlock(lock)] of the caller's lock. *)
Definition spinlock_unlock (lock : Z) : M sched unit :=
  s <- get ;;
  if bool_decide (lock ∈ sc_locks s) then
    put (set_locks (sc_locks s ∖ {[lock]}) s) ;;; critical_add (-1)
  else halt (Panic "not my lock to unlock").

Definition scheduler_activate (td : Z) : M sched unit := SCHEDULER_UNLOCK.

Definition scheduler_cpu_pin (td : Z) : M sched unit :=
  SCHEDULER_LOCK ;;;
  e <- entry td ;;
  if flag_set (se_flags e) (Z.lor SCHEDULER_RUNNING SCHEDULER_RUNNABLE)
  then halt (Panic "called for running and/or runnable thread.")
  else if flag_set (se_flags e) SCHEDULER_PINNED then halt (Panic "thread already pinned.")
  else
    or_flags td SCHEDULER_PINNED ;;;
    update td (with_oncpu self) ;;;
    SCHEDULER_UNLOCK.

(** The test shared by [scheduler_idle] and [scheduler_schedule]. *)
Definition may_run (e : scheduler_entry) : bool :=
  if negb (flag_set (se_flags e) SCHEDULER_RUNNABLE) then false
  else if flag_set (se_flags e) SCHEDULER_RUNNING then false
  else if flag_set (se_flags e) SCHEDULER_PINNED then se_oncpu e =? self
  else true.

Fixpoint idle_scan (ose : Z) (q : list Z) : M sched bool :=
  match q with
  | [] => ret true
  | se :: q =>
      if se =? ose then idle_scan ose q
      else
        e <- entry se ;;
        if may_run e then ret false else idle_scan ose q
  end.

Definition scheduler_idle : M sched bool :=
  SCHEDULER_LOCK ;;;
  ose <- current_thread ;;
  s <- get ;;
  r <- idle_scan ose (sq_queue s) ;;
  SCHEDULER_UNLOCK ;;;
  ret r.

(** [thread_switch]: [cpu_context_restore] calls [cpu_thread_activate], which
    sets [current_thread()]. *)
Definition thread_switch (otd td : Z) : M sched unit :=
  c <- critical_section ;;
  assert_ c "cannot switch outside a critical section." ;;;
  cur <- current_thread ;;
  let otd := if otd =? 0 then cur else otd in
  assert_ (negb (otd =? td)) "cannot switch from a thread to itself." ;;;
  modify (λ s, set_cpu (<[self := mk_pcpu td (crit s self)]> (sc_cpu s)) s).

Definition scheduler_switch (ose se : Z) : M sched unit :=
  SCHEDULER_ASSERT_LOCKED ;;;
  modify (λ s, set_queues (tailq_remove se (sq_queue s) ++ [se]) (sq_exiting s) s) ;;;
  (if negb (ose =? 0) then
     clear_flags ose SCHEDULER_RUNNING ;;;
     o <- entry ose ;;
     if negb (flag_set (se_flags o) SCHEDULER_PINNED)
     then update se (with_oncpu CPU_ID_INVALID) else ret tt
   else ret tt) ;;;
  or_flags se SCHEDULER_RUNNING ;;;
  update se (with_oncpu self) ;;;
  (if negb (ose =? se) then thread_switch ose se else ret tt) ;;;
  SCHEDULER_UNLOCK ;;;
  c <- critical_section ;;
  assert_ (negb c) "Must not be in a critical section post-switch.".

(** The first exiting thread that does not run any more. *)
Fixpoint exiting_scan (q : list Z) : M sched (option Z) :=
  match q with
  | [] => ret None
  | se :: q =>
      e <- entry se ;;
      assert_ (flag_set (se_flags e) SCHEDULER_EXITING) "exiting thread must not be in queue." ;;;
      if flag_set (se_flags e) SCHEDULER_RUNNING then exiting_scan q else ret (Some se)
  end.

Definition thread_free (td : Z) : M sched unit :=
  modify (λ s, set_freed (td :: sc_freed s) (set_entry (delete td (sc_entry s)) s)).

(** One pass from [restart]: free a thread without the lock and say so, or
    keep the lock. *)
Definition schedule_reap : M sched bool :=
  s <- get ;;
  r <- exiting_scan (sq_exiting s) ;;
  match r with
  | Some se =>
      modify (λ s, set_queues (sq_queue s) (tailq_remove se (sq_exiting s)) s) ;;;
      SCHEDULER_UNLOCK ;;;
      thread_free se ;;;
      ret true
  | None => ret false
  end.
Fixpoint schedule_restart (fuel : nat) : M sched unit :=
  match fuel with
  | O => halt OutOfFuel
  | S fuel =>
      again <- schedule_reap ;;
      if again then SCHEDULER_LOCK ;;; schedule_restart fuel else ret tt
  end.

(** The first thread of the queue that may run; [td], if not [NULL], is the
    only one wanted. *)
Fixpoint queue_scan (td : Z) (q : list Z) : M sched (option Z) :=
  match q with
  | [] => ret None
  | se :: q =>
      e <- entry se ;;
      assert_ (negb (flag_set (se_flags e) SCHEDULER_EXITING))
        "exiting thread must not be in queue." ;;;
      if negb (may_run e) then queue_scan td q
      else if negb (td =? 0) && negb (se =? td) then queue_scan td q
      else ret (Some se)
  end.

Definition schedule_pick (ose : Z) (canrun : bool) (td : Z) : M sched unit :=
  s <- get ;;
  r <- queue_scan td (sq_queue s) ;;
  match r with
  | Some se => scheduler_switch ose se
  | None =>
      if canrun then scheduler_switch ose ose
      else SCHEDULER_UNLOCK ;;; halt (Panic "no threads are runnable.")
  end.

(** Up to [restart]: [ose] and [canrun]. *)
Definition schedule_begin (lock : Z) : M sched (Z * bool) :=
  SCHEDULER_LOCK ;;;
  ose <- current_thread ;;
  canrun <- (if ose =? 0 then ret false
             else e <- entry ose ;; ret (flag_set (se_flags e) SCHEDULER_RUNNABLE)) ;;
  (if negb (lock =? 0) then spinlock_unlock lock else ret tt) ;;;
  ret (ose, canrun).

Definition scheduler_schedule (fuel : nat) (td lock : Z) : M sched unit :=
  oc <- schedule_begin lock ;;
  schedule_restart fuel ;;;
  schedule_pick oc.1 oc.2 td.

Definition scheduler_thread_exiting : M sched unit :=
  se <- current_thread ;;
  SCHEDULER_LOCK ;;;
  e <- entry se ;;
  if flag_set (se_flags e) SCHEDULER_EXITING then halt (Panic "thread already exiting.")
  else
    clear_flags se SCHEDULER_RUNNABLE ;;;
    or_flags se SCHEDULER_EXITING ;;;
    modify (λ s, set_queues (tailq_remove se (sq_queue s)) (sq_exiting s ++ [se]) s) ;;;
    SCHEDULER_UNLOCK.

Definition scheduler_thread_runnable (td : Z) : M sched unit :=
  SCHEDULER_LOCK ;;;
  clear_flags td SCHEDULER_SLEEPING ;;;
  or_flags td SCHEDULER_RUNNABLE ;;;
  SCHEDULER_UNLOCK.

(** [td] is a new thread: its entry is the one written here. *)
Definition scheduler_thread_setup (td : Z) : M sched unit :=
  SCHEDULER_LOCK ;;;
  modify (λ s, set_entry (<[td := mk_entry SCHEDULER_DEFAULT CPU_ID_INVALID]> (sc_entry s)) s) ;;;
  modify (λ s, set_queues (sq_queue s ++ [td]) (sq_exiting s) s) ;;;
  SCHEDULER_UNLOCK.

Definition scheduler_thread_sleeping (td : Z) : M sched unit :=
  SCHEDULER_LOCK ;;;
  e <- entry td ;;
  if flag_set (se_flags e) SCHEDULER_SLEEPING then halt (Panic "thread already sleeping.")
  else
    clear_flags td SCHEDULER_RUNNABLE ;;;
    or_flags td SCHEDULER_SLEEPING ;;;
    SCHEDULER_UNLOCK.

(** [thread_exit]: comes back only in another thread. *)
Definition thread_exit (fuel : nat) : M sched unit :=
  scheduler_thread_exiting ;;; scheduler_schedule fuel 0 0.
End self.

(** * Flags *)

Lemma flag_set_bit f k : 0 ≤ k → flag_set f (2 ^ k) = Z.testbit f k.
Proof.
  intros Hk. unfold flag_set, truthy. destruct (Z.testbit f k) eqn:Hb.
  - apply negb_true_iff, Z.eqb_neq. intros H0.
    assert (Z.testbit (Z.land f (2 ^ k)) k = true) as Ht
      by (rewrite Z.land_spec, Z.pow2_bits_true, Hb; done).
    rewrite H0, Z.bits_0 in Ht. done.
  - apply negb_false_iff, Z.eqb_eq. apply Z.bits_inj'. intros n Hn.
    rewrite Z.land_spec, Z.bits_0, Z.pow2_bits_eqb by lia.
    destruct (k =? n) eqn:E; zcmp; subst; rewrite ?Hb; by rewrite ?andb_false_r.
Qed.

(** The flags as bits. *)
Definition flag (k : Z) (e : scheduler_entry) : bool := Z.testbit (se_flags e) k.
Notation running := (flag 0).
Notation pinned := (flag 1).
Notation sleeping := (flag 2).
Notation runnable := (flag 3).
Notation exiting := (flag 4).

Arguments flag : simpl never.

Lemma flag_running e : flag_set (se_flags e) SCHEDULER_RUNNING = running e.
Proof. by apply (flag_set_bit _ 0). Qed.
Lemma flag_pinned e : flag_set (se_flags e) SCHEDULER_PINNED = pinned e.
Proof. by apply (flag_set_bit _ 1). Qed.
Lemma flag_sleeping e : flag_set (se_flags e) SCHEDULER_SLEEPING = sleeping e.
Proof. by apply (flag_set_bit _ 2). Qed.
Lemma flag_runnable e : flag_set (se_flags e) SCHEDULER_RUNNABLE = runnable e.
Proof. by apply (flag_set_bit _ 3). Qed.
Lemma flag_exiting e : flag_set (se_flags e) SCHEDULER_EXITING = exiting e.
Proof. by apply (flag_set_bit _ 4). Qed.

Lemma flag_or k j e : 0 ≤ k → 0 ≤ j →
  flag j (with_flags (λ f, Z.lor f (2 ^ k)) e) = flag j e || (k =? j).
Proof. intros. unfold flag. simpl. by rewrite Z.lor_spec, Z.pow2_bits_eqb. Qed.

Lemma flag_clear k j e : 0 ≤ k < 32 → 0 ≤ j < 32 →
  flag j (with_flags (λ f, Z.land f (bnot 32 (2 ^ k))) e) = flag j e && negb (k =? j).
Proof.
  intros Hk Hj. unfold flag, bnot. simpl. rewrite Z.land_spec, Z.lxor_spec.
  assert (2 ^ k < 2 ^ 32) by (apply Z.pow_lt_mono_r; lia).
  assert (0 < 2 ^ k) by (apply Z.pow_pos_nonneg; lia).
  rewrite wrap_small by (unfold in_range; lia).
  rewrite Z.pow2_bits_eqb, Z.ones_spec_low by lia. by destruct (k =? j).
Qed.

Lemma flag_oncpu k c e : flag k (with_oncpu c e) = flag k e.
Proof. done. Qed.

(** [flag j] of the flag updates of the code. *)
Lemma or_running j e : 0 ≤ j →
  flag j (with_flags (λ f, Z.lor f SCHEDULER_RUNNING) e) = flag j e || (0 =? j).
Proof. by apply (flag_or 0). Qed.
Lemma or_pinned j e : 0 ≤ j →
  flag j (with_flags (λ f, Z.lor f SCHEDULER_PINNED) e) = flag j e || (1 =? j).
Proof. by apply (flag_or 1). Qed.
Lemma or_sleeping j e : 0 ≤ j →
  flag j (with_flags (λ f, Z.lor f SCHEDULER_SLEEPING) e) = flag j e || (2 =? j).
Proof. by apply (flag_or 2). Qed.
Lemma or_runnable j e : 0 ≤ j →
  flag j (with_flags (λ f, Z.lor f SCHEDULER_RUNNABLE) e) = flag j e || (3 =? j).
Proof. by apply (flag_or 3). Qed.
Lemma or_exiting j e : 0 ≤ j →
  flag j (with_flags (λ f, Z.lor f SCHEDULER_EXITING) e) = flag j e || (4 =? j).
Proof. by apply (flag_or 4). Qed.
Lemma clear_running j e : 0 ≤ j < 32 →
  flag j (with_flags (λ f, Z.land f (bnot 32 SCHEDULER_RUNNING)) e) = flag j e && negb (0 =? j).
Proof. by apply (flag_clear 0). Qed.
Lemma clear_sleeping j e : 0 ≤ j < 32 →
  flag j (with_flags (λ f, Z.land f (bnot 32 SCHEDULER_SLEEPING)) e) = flag j e && negb (2 =? j).
Proof. by apply (flag_clear 2). Qed.
Lemma clear_runnable j e : 0 ≤ j < 32 →
  flag j (with_flags (λ f, Z.land f (bnot 32 SCHEDULER_RUNNABLE)) e) = flag j e && negb (3 =? j).
Proof. by apply (flag_clear 3). Qed.

Create Rewrite HintDb flags.
#[export] Hint Rewrite flag_running flag_pinned flag_sleeping flag_runnable flag_exiting flag_oncpu
  : flags.
#[export] Hint Rewrite or_running or_pinned or_sleeping or_runnable or_exiting
  clear_running clear_sleeping clear_runnable using lia : flags.
Ltac flags := autorewrite with flags; cbn [Z.eqb Pos.eqb negb];
  rewrite ?orb_false_r, ?orb_true_r, ?andb_true_r, ?andb_false_r.

(** * The invariant *)

Record sane (s : sched) : Prop := {
  sane_nodup : NoDup (sq_queue s ++ sq_exiting s);
  sane_listed td : td ∈ sq_queue s ++ sq_exiting s ↔ is_Some (sc_entry s !! td);
  sane_null : sc_entry s !! 0 = None;
  sane_exiting td e : sc_entry s !! td = Some e → exiting e = true ↔ td ∈ sq_exiting s;
  sane_running td e : sc_entry s !! td = Some e → running e = true ↔ ∃ c, cur s c = td;
  sane_current c : cur s c ≠ 0 → is_Some (sc_entry s !! cur s c);
  sane_once c c' : cur s c = cur s c' → cur s c ≠ 0 → c = c';
  sane_pinned c e : sc_entry s !! cur s c = Some e → pinned e = true → se_oncpu e = c;
  sane_final td e : sc_entry s !! td = Some e → exiting e = true → runnable e = false
}.

(** The invariant reads the queues, the entries and the current threads. *)
Lemma sane_ext s s' :
  sq_queue s' = sq_queue s → sq_exiting s' = sq_exiting s → sc_entry s' = sc_entry s →
  (∀ c, cur s' c = cur s c) → sane s → sane s'.
Proof.
  intros Hq Hx He Hc [Hnd Hl Hn Hex Hr Hcu Ho Hp Hfin].
  split; rewrite ?Hq, ?Hx, ?He in *; try done.
  - intros td e Hs. rewrite (Hr td e Hs). by setoid_rewrite Hc.
  - intros c. rewrite Hc. apply Hcu.
  - intros c c'. rewrite !Hc. apply Ho.
  - intros c e. rewrite Hc. apply Hp.
Qed.

(** Writing a CPU's data. *)
Definition put_cpu (self td n : Z) (s : sched) : sched :=
  set_cpu (<[self := mk_pcpu td n]> (sc_cpu s)) s.

Lemma cpu_of_put self td n s c :
  cpu_of (put_cpu self td n s) c = if decide (c = self) then mk_pcpu td n else cpu_of s c.
Proof.
  unfold cpu_of, put_cpu. simpl. case_decide as Hc; [subst; by rewrite lookup_insert_eq|].
  by rewrite lookup_insert_ne.
Qed.
Lemma cur_put self td n s c :
  cur (put_cpu self td n s) c = if decide (c = self) then td else cur s c.
Proof. unfold cur. rewrite cpu_of_put. by case_decide. Qed.
Lemma crit_put self td n s c :
  crit (put_cpu self td n s) c = if decide (c = self) then n else crit s c.
Proof. unfold crit. rewrite cpu_of_put. by case_decide. Qed.

(** A change of one entry. *)
Lemma sane_update s td e e' :
  sane s → sc_entry s !! td = Some e → running e' = running e → exiting e' = exiting e →
  (running e = true → pinned e' = pinned e ∧ se_oncpu e' = se_oncpu e) →
  (exiting e = true → runnable e' = false) →
  sane (set_entry (<[td := e']> (sc_entry s)) s).
Proof.
  intros [Hnd Hl Hn Hex Hr Hcu Ho Hp Hfin] He Hr' Hx' Hpin Hfin'.
  assert (∀ x, is_Some (<[td := e']> (sc_entry s) !! x) ↔ is_Some (sc_entry s !! x)) as Hsome.
  { intros x. rewrite lookup_insert_is_Some. destruct (decide (td = x)) as [<-|];
      rewrite ?He; naive_solver. }
  split; simpl; try done.
  - intros x. rewrite Hsome. apply Hl.
  - rewrite lookup_insert_ne; [done|]. intros ->. congruence.
  - intros x y [[<- <-]|[Hne Hy]]%lookup_insert_Some; [rewrite Hx'; by apply Hex|by apply Hex].
  - intros x y [[<- <-]|[Hne Hy]]%lookup_insert_Some; [rewrite Hr'; by apply Hr|by apply Hr].
  - intros c Hc. apply Hsome. by apply Hcu.
  - intros c y [[Hc <-]|[Hne Hy]]%lookup_insert_Some; [|by apply Hp].
    change (cur _ c) with (cur s c) in Hc.
    assert (running e = true) as He' by (apply (Hr _ _ He); by exists c).
    destruct (Hpin He') as [-> ->]. apply Hp. by rewrite <-Hc.
  - intros x y [[<- <-]|[Hne Hy]]%lookup_insert_Some; [|by eapply Hfin].
    rewrite Hx'. apply Hfin'.
Qed.

Lemma sane_queue_perm s q :
  sane s → q ≡ₚ sq_queue s → sane (set_queues q (sq_exiting s) s).
Proof.
  intros [Hnd Hl Hn Hex Hr Hcu Ho Hp Hfin] Hq. split; simpl; try done.
  - by rewrite Hq.
  - intros td. rewrite Hq. apply Hl.
Qed.

(** * The effect of the primitives *)

Section effects.
Context (self : Z).

Definition locked (s : sched) : sched :=
  put_cpu self (cur s self) (crit s self + 1) (set_lock true s).
Definition unlocked (s : sched) : sched :=
  put_cpu self (cur s self) (crit s self + -1) (set_lock false s).

Lemma wp_lock (Q : unit → sched → Prop) E s :
  wp (SCHEDULER_LOCK self) Q E s ↔
  if scheduler_lock s then E (Panic "cannot recurse on spinlock") else Q tt (locked s).
Proof. unfold wp, SCHEDULER_LOCK, zoom, bind, acquire, get. by destruct (scheduler_lock s). Qed.
Lemma wp_unlock (Q : unit → sched → Prop) E s :
  wp (SCHEDULER_UNLOCK self) Q E s ↔
  if scheduler_lock s then Q tt (unlocked s) else E (Panic "not my lock to unlock").
Proof. unfold wp, SCHEDULER_UNLOCK, zoom, bind, release, get. by destruct (scheduler_lock s). Qed.
Lemma wp_entry td (Q : scheduler_entry → sched → Prop) E s :
  wp (entry td) Q E s ↔
  match sc_entry s !! td with Some e => Q e s | None => E (Undefined "scheduler entry") end.
Proof. unfold wp, entry, bind, get. by destruct (sc_entry s !! td). Qed.
Lemma wp_update td f (Q : unit → sched → Prop) E s :
  wp (update td f) Q E s ↔
  match sc_entry s !! td with
  | Some e => Q tt (set_entry (<[td := f e]> (sc_entry s)) s)
  | None => E (Undefined "scheduler entry") end.
Proof. unfold wp, update, entry, bind, get. by destruct (sc_entry s !! td). Qed.

Lemma cur_locked s c : cur (locked s) c = cur s c.
Proof. unfold locked. rewrite cur_put. case_decide; by subst. Qed.
Lemma cur_unlocked s c : cur (unlocked s) c = cur s c.
Proof. unfold unlocked. rewrite cur_put. case_decide; by subst. Qed.
Lemma crit_locked s c : crit (locked s) c = if decide (c = self) then crit s c + 1 else crit s c.
Proof. unfold locked. rewrite crit_put. case_decide; by subst. Qed.
Lemma crit_unlocked s c :
  crit (unlocked s) c = if decide (c = self) then crit s c - 1 else crit s c.
Proof. unfold unlocked. rewrite crit_put. case_decide; by subst. Qed.

Lemma sane_put n s : sane (put_cpu self (cur s self) n s) ↔ sane s.
Proof.
  assert (∀ c, cur (put_cpu self (cur s self) n s) c = cur s c) as Hc.
  { intros c. rewrite cur_put. case_decide; by subst. }
  split; apply sane_ext; done.
Qed.
Lemma sane_locked s : sane (locked s) ↔ sane s.
Proof.
  unfold locked. change (cur s self) with (cur (set_lock true s) self). rewrite sane_put.
  split; by apply sane_ext.
Qed.
Lemma sane_unlocked s : sane (unlocked s) ↔ sane s.
Proof.
  unfold unlocked. change (cur s self) with (cur (set_lock false s) self). rewrite sane_put.
  split; by apply sane_ext.
Qed.

(** * The scans *)

(** The thread is one [scheduler_schedule] can switch to when [td] is wanted. *)
Definition wants (td : Z) (s : sched) (t : Z) : bool :=
  match sc_entry s !! t with
  | Some e => may_run self e && ((td =? 0) || (t =? td))
  | None => false
  end.
(** It is exiting and does not run. *)
Definition gone (e : scheduler_entry) : bool := exiting e && negb (running e).
Definition dead (s : sched) (t : Z) : bool :=
  match sc_entry s !! t with Some e => gone e | None => false end.

Lemma head_filter_cons (f : Z → bool) t q :
  head (filter (λ t, f t) (t :: q)) = if f t then Some t else head (filter (λ t, f t) q).
Proof.
  destruct (f t) eqn:Hf.
  - rewrite filter_cons_True; [done|]. by rewrite Hf.
  - rewrite filter_cons_False; [done|]. rewrite Hf. tauto.
Qed.

Lemma queue_scan_eq td s q :
  (∀ t, t ∈ q → ∃ e, sc_entry s !! t = Some e ∧ exiting e = false) →
  queue_scan self td q s = Done (head (filter (λ t, wants td s t) q)) s.
Proof.
  induction q as [|t q IH]; intros Hq; [done|]. simpl.
  destruct (Hq t) as (e&He&Hx); [by left|].
  unfold bind, entry, get, deref, bind, assert_, ret. rewrite He, flag_exiting, Hx. simpl.
  rewrite head_filter_cons.
  assert (wants td s t = may_run self e && ((td =? 0) || (t =? td))) as ->
    by (unfold wants; by rewrite He).
  destruct (may_run self e); simpl; [|apply IH; intros; apply Hq; by right].
  destruct (td =? 0); simpl; [done|].
  destruct (t =? td); simpl; [done|]. apply IH. intros. apply Hq. by right.
Qed.

Lemma exiting_scan_eq s q :
  (∀ t, t ∈ q → ∃ e, sc_entry s !! t = Some e ∧ exiting e = true) →
  exiting_scan q s = Done (head (filter (λ t, dead s t) q)) s.
Proof.
  induction q as [|t q IH]; intros Hq; [done|]. simpl.
  destruct (Hq t) as (e&He&Hx); [by left|].
  unfold bind, entry, get, deref, bind, assert_, ret. rewrite He, flag_exiting, flag_running, Hx. simpl.
  rewrite head_filter_cons.
  assert (dead s t = negb (running e)) as -> by (unfold dead, gone; by rewrite He, Hx).
  destruct (running e); simpl; [|done]. apply IH. intros. apply Hq. by right.
Qed.

Lemma idle_scan_eq ose s q :
  (∀ t, t ∈ q → is_Some (sc_entry s !! t)) →
  idle_scan self ose q s = Done (forallb (λ t, (t =? ose) || negb (wants 0 s t)) q) s.
Proof.
  induction q as [|t q IH]; intros Hq; [done|]. simpl.
  destruct (Hq t) as [e He]; [by left|].
  assert (idle_scan self ose q s =
    Done (forallb (λ t, (t =? ose) || negb (wants 0 s t)) q) s) as IH'
    by (apply IH; intros; apply Hq; by right).
  destruct (t =? ose); simpl; [done|].
  unfold bind, entry, get, deref, bind, ret. rewrite He.
  assert (wants 0 s t = may_run self e) as ->
    by (unfold wants; rewrite He; by rewrite andb_true_r).
  by destruct (may_run self e).
Qed.

(** Looking up in the queues. *)
Lemma sane_in_queue s td :
  sane s → td ∈ sq_queue s → ∃ e, sc_entry s !! td = Some e ∧ exiting e = false.
Proof.
  intros Hs Hq. destruct (proj1 (sane_listed _ Hs td)) as [e He]; [set_solver|].
  exists e. split; [done|]. destruct (exiting e) eqn:Hx; [|done]. exfalso.
  apply (sane_exiting _ Hs td e He) in Hx.
  pose proof (sane_nodup _ Hs) as (_&Hd&_)%NoDup_app. by apply (Hd td).
Qed.

Lemma sane_in_exiting s td :
  sane s → td ∈ sq_exiting s → ∃ e, sc_entry s !! td = Some e ∧ exiting e = true.
Proof.
  intros Hs Hq. destruct (proj1 (sane_listed _ Hs td)) as [e He]; [set_solver|].
  exists e. split; [done|]. by apply (sane_exiting _ Hs td e He).
Qed.

Lemma sane_entry_queue s td e :
  sane s → sc_entry s !! td = Some e → exiting e = false → td ∈ sq_queue s.
Proof.
  intros Hs He Hx. assert (td ∈ sq_queue s ++ sq_exiting s) as [Hq|Hq]%elem_of_app; [|done|].
  - apply (sane_listed _ Hs). by exists e.
  - apply (sane_exiting _ Hs td e He) in Hq. congruence.
Qed.

(** * Switching *)

(** The entries after [scheduler_switch]. *)
Definition stopped (ose : Z) (m : gmap Z scheduler_entry) : gmap Z scheduler_entry :=
  match m !! ose with
  | Some o => <[ose := with_flags (λ f, Z.land f (bnot 32 SCHEDULER_RUNNING)) o]> m
  | None => m
  end.
Definition started (se : Z) (m : gmap Z scheduler_entry) : gmap Z scheduler_entry :=
  match m !! se with
  | Some e => <[se := mk_entry (Z.lor (se_flags e) SCHEDULER_RUNNING) self]> m
  | None => m
  end.
Definition switched (ose se : Z) (s : sched) : sched :=
  mk_sched false (tailq_remove se (sq_queue s) ++ [se]) (sq_exiting s)
    (started se (stopped ose (sc_entry s))) (<[self := mk_pcpu se 0]> (sc_cpu s))
    (sc_locks s) (sc_freed s).

(** The writes to the entries. *)
Lemma switch_entries {A} ose se (rest : M sched A) s :
  (ose ≠ 0 → is_Some (sc_entry s !! ose)) → sc_entry s !! 0 = None →
  is_Some (sc_entry s !! se) →
  bind (if negb (ose =? 0) then
     bind (clear_flags ose SCHEDULER_RUNNING) (λ _,
     bind (entry ose) (λ o,
     if negb (flag_set (se_flags o) SCHEDULER_PINNED)
     then update se (with_oncpu CPU_ID_INVALID) else ret tt))
   else ret tt) (λ _,
  bind (or_flags se SCHEDULER_RUNNING) (λ _, bind (update se (with_oncpu self)) (λ _, rest))) s
  = rest (set_entry (started se (stopped ose (sc_entry s))) s).
Proof.
  intros Hose H0 [e He]. unfold stopped, clear_flags, or_flags, update, entry, modify, get.
  destruct (ose =? 0) eqn:E0; zcmp; simpl.
  - subst. rewrite H0. unfold started. unfold bind, deref, ret. simpl. rewrite He. simpl.
    rewrite lookup_insert_eq. simpl. by rewrite insert_insert_eq.
  - destruct (Hose E0) as [o Ho]. unfold bind, deref, ret. rewrite Ho. simpl.
    rewrite lookup_insert_eq. set (o' := with_flags _ o). unfold started.
    assert (∃ e1, <[ose:=o']> (sc_entry s) !! se = Some e1) as [e1 He1].
    { apply lookup_insert_is_Some'. right. by exists e. }
    rewrite He1. destruct (negb (flag_set (se_flags o') SCHEDULER_PINNED)); simpl.
    + rewrite He1. simpl. rewrite !lookup_insert_eq. simpl. rewrite lookup_insert_eq. simpl.
      by rewrite !insert_insert_eq.
    + rewrite He1. simpl. rewrite lookup_insert_eq. simpl. by rewrite insert_insert_eq.
Qed.

(** A switch succeeds when the scheduler's lock is all the CPU holds. *)
Lemma scheduler_switch_eq ose se s :
  sane s → scheduler_lock s = true → ose = cur s self → is_Some (sc_entry s !! se) →
  if decide (crit s self = 1)
  then scheduler_switch self ose se s = Done tt (switched ose se s)
  else ∃ why, scheduler_switch self ose se s = Stop (AssertFail why).
Proof.
  intros Hs Hl Hose Hse.
  assert (∃ rest, scheduler_switch self ose se s =
    bind (if negb (ose =? se) then thread_switch self ose se else ret tt) rest
      (set_entry (started se (stopped ose (sc_entry s)))
        (set_queues (tailq_remove se (sq_queue s) ++ [se]) (sq_exiting s) s)) ∧
    rest = λ _, bind (SCHEDULER_UNLOCK self) (λ _, bind (critical_section self) (λ c,
       assert_ (negb c) "Must not be in a critical section post-switch."))) as (rest&->&->).
  { eexists. split; [|reflexivity]. unfold scheduler_switch, SCHEDULER_ASSERT_LOCKED, assert_.
    unfold bind at 1 2 3, get, modify. rewrite Hl. unfold ret at 1.
    apply (switch_entries ose se _
      (set_queues (tailq_remove se (sq_queue s) ++ [se]) (sq_exiting s) s)); [|apply Hs|done].
    intros Hne. rewrite Hose. apply (sane_current _ Hs). by rewrite <-Hose. }
  set (s1 := set_entry _ _).
  assert (cur s1 self = ose) as Hcur by (by rewrite Hose).
  assert (crit s1 self = crit s self) as Hcrit by done.
  assert (scheduler_lock s1 = true) as Hl1 by done.
  assert (∀ s', scheduler_lock s' = true →
    bind (SCHEDULER_UNLOCK self) (λ _, bind (critical_section self) (λ c,
       assert_ (negb c) "Must not be in a critical section post-switch.")) s' =
    if crit s' self =? 1 then Done tt (put_cpu self (cur s' self) 0 (set_lock false s'))
    else Stop (AssertFail "Must not be in a critical section post-switch.")) as Hun.
  { intros s' Hl'. unfold SCHEDULER_UNLOCK, zoom, release, bind, get, put, critical_add, modify,
      critical_section, gets. rewrite Hl'.
    change (cur (set_lock false s') self) with (cur s' self).
    change (crit (set_lock false s') self) with (crit s' self).
    fold (put_cpu self (cur s' self) (crit s' self + -1) (set_lock false s')).
    rewrite crit_put, decide_True by done.
    destruct (crit s' self =? 1) eqn:E; zcmp.
    - by rewrite E.
    - rewrite (proj2 (Z.eqb_neq (crit s' self + -1) 0)) by lia. done. }
  destruct (ose =? se) eqn:E; zcmp; simpl.
  - assert (∀ k : unit → M sched unit, bind (ret tt) k s1 = k tt s1) as Hret by done.
    case_decide as Hc; [|eexists]; rewrite Hret.
    + rewrite Hun, Hcrit, Hc by done. simpl. unfold switched, put_cpu. rewrite Hcur. by subst se.
    + rewrite Hun, Hcrit by done. by rewrite (proj2 (Z.eqb_neq (crit s self) 1)).
  - assert (thread_switch self ose se s1 =
      if crit s self =? 0 then Stop (AssertFail "cannot switch outside a critical section.")
      else Done tt (put_cpu self se (crit s1 self) s1)) as Hsw.
    { unfold thread_switch, critical_section, current_thread, gets, assert_, bind.
      rewrite Hcrit. destruct (crit s self =? 0); simpl; [done|]. rewrite Hcur.
      assert ((if ose =? 0 then ose else ose) =? se = false) as ->
        by (destruct (ose =? 0); by apply Z.eqb_neq). done. }
    assert (∀ k : unit → M sched unit, bind (thread_switch self ose se) k s1 =
      if crit s self =? 0 then Stop (AssertFail "cannot switch outside a critical section.")
      else k tt (put_cpu self se (crit s1 self) s1)) as Hsw'.
    { intros k. unfold bind. rewrite Hsw. by destruct (crit s self =? 0). }
    case_decide as Hc; [rewrite Hsw'|].
    + rewrite Hc. simpl. rewrite Hun, crit_put, cur_put, !decide_True, Hcrit, Hc by done. simpl.
      unfold switched, put_cpu, set_lock, set_cpu, s1. simpl. by rewrite insert_insert_eq.
    + destruct (crit s self =? 0); eexists; rewrite Hsw'; [reflexivity|].
      rewrite Hun, crit_put, cur_put, !decide_True, Hcrit by done.
      by rewrite (proj2 (Z.eqb_neq (crit s self) 1)).
Qed.

Definition switch_entry (ose se t : Z) (e : scheduler_entry) : scheduler_entry :=
  let e := if decide (t = ose)
    then with_flags (λ f, Z.land f (bnot 32 SCHEDULER_RUNNING)) e else e in
  if decide (t = se)
  then with_oncpu self (with_flags (λ f, Z.lor f SCHEDULER_RUNNING) e) else e.

Lemma lookup_switched ose se s t :
  sc_entry (switched ose se s) !! t = switch_entry ose se t <$> sc_entry s !! t.
Proof.
  assert (∀ m, stopped ose m !! t = (λ e, if decide (t = ose)
    then with_flags (λ f, Z.land f (bnot 32 SCHEDULER_RUNNING)) e else e) <$> m !! t) as Hst.
  { intros m. unfold stopped. destruct (decide (t = ose)) as [->|Hne].
    - destruct (m !! ose) eqn:E; [by rewrite lookup_insert_eq|by rewrite E].
    - destruct (m !! ose); rewrite ?lookup_insert_ne by done; by destruct (m !! t). }
  simpl. unfold started, switch_entry. destruct (decide (t = se)) as [->|Hne].
  - rewrite Hst. destruct (sc_entry s !! se) eqn:E; simpl; [by rewrite lookup_insert_eq|].
    by rewrite Hst, E.
  - destruct (stopped ose (sc_entry s) !! se); rewrite ?lookup_insert_ne by done; by rewrite Hst.
Qed.

Lemma lookup_switched_Some ose se s t e' :
  sc_entry (switched ose se s) !! t = Some e' →
  ∃ e, e' = switch_entry ose se t e ∧ sc_entry s !! t = Some e.
Proof. rewrite lookup_switched, fmap_Some. naive_solver. Qed.

Lemma switch_running ose se t e :
  running (switch_entry ose se t e) = bool_decide (t = se) || negb (bool_decide (t = ose)) && running e.
Proof.
  unfold switch_entry. repeat case_decide; repeat case_bool_decide; try congruence; flags;
    try done; by destruct (running e).
Qed.
Lemma switch_flag ose se t e k : 1 ≤ k < 32 → flag k (switch_entry ose se t e) = flag k e.
Proof.
  intros Hk. unfold switch_entry. assert (0 =? k = false) as H0 by (apply Z.eqb_neq; lia).
  repeat case_decide; rewrite ?flag_oncpu, ?or_running, ?clear_running, ?H0 by lia;
    by rewrite ?orb_false_r, ?andb_true_r.
Qed.
Lemma switch_oncpu ose se t e :
  se_oncpu (switch_entry ose se t e) = if decide (t = se) then self else se_oncpu e.
Proof. unfold switch_entry. by repeat case_decide. Qed.

Lemma cur_switched ose se s c : cur (switched ose se s) c = if decide (c = self) then se else cur s c.
Proof. apply (cur_put self se 0 s c). Qed.
Lemma crit_switched ose se s c : crit (switched ose se s) c = if decide (c = self) then 0 else crit s c.
Proof. apply (crit_put self se 0 s c). Qed.

Lemma rotate_perm td q : NoDup q → td ∈ q → tailq_remove td q ++ [td] ≡ₚ q.
Proof.
  intros Hnd [q1 [q2 ->]]%list_elem_of_split.
  destruct (NoDup_remove_mid _ _ _ Hnd) as [Hnd' Hni].
  assert (tailq_remove td (q1 ++ td :: q2) = q1 ++ q2) as ->.
  { unfold tailq_remove. rewrite filter_app, filter_cons_False by tauto.
    rewrite !filter_all; [done|..]; intros x Hx ->; apply Hni, elem_of_app; auto. }
  rewrite <-app_assoc. apply Permutation_app_head. by rewrite Permutation_app_comm.
Qed.

Lemma sane_switched ose se s e :
  sane s → ose = cur s self → sc_entry s !! se = Some e → exiting e = false →
  se = ose ∨ running e = false → sane (switched ose se s).
Proof.
  intros Hs Hose He Hx Hrun. pose proof Hs as [Hnd Hl Hn Hex Hr Hcu Ho Hp Hfin].
  assert (se ≠ 0) as Hse0 by (intros ->; congruence).
  assert (se ∈ sq_queue s) as Hseq by (by eapply sane_entry_queue).
  assert (∀ c, cur s c = se → c = self) as Hon.
  { intros c Hc. destruct Hrun as [->|Hrun].
    - apply Ho; congruence.
    - assert (running e = true) by (apply (Hr se e He); by exists c). congruence. }
  assert (sq_queue (switched ose se s) ≡ₚ sq_queue s) as Hperm.
  { apply rotate_perm; [|done]. by apply NoDup_app in Hnd as [? _]. }
  split.
  - change (sq_exiting (switched ose se s)) with (sq_exiting s). by rewrite Hperm.
  - intros t. change (sq_exiting (switched ose se s)) with (sq_exiting s).
    rewrite Hperm, lookup_switched, fmap_is_Some. apply Hl.
  - by rewrite lookup_switched, Hn.
  - intros t e' (e0&->&He0)%lookup_switched_Some. rewrite switch_flag by lia. by apply Hex.
  - intros t e' (e0&->&He0)%lookup_switched_Some. rewrite switch_running.
    setoid_rewrite cur_switched. destruct (decide (t = se)) as [->|Hne].
    { rewrite bool_decide_true by done. split; [|done]. intros _. exists self. by rewrite decide_True. }
    rewrite (bool_decide_false (t = se)) by done. simpl.
    destruct (decide (t = ose)) as [->|Hne'].
    + rewrite bool_decide_true by done. simpl. split; [done|]. intros (c&Hc). exfalso.
      case_decide; [by symmetry in Hc|]. apply H. apply Ho; [congruence|].
      intros H0. rewrite <-Hc, H0 in He0. congruence.
    + rewrite bool_decide_false by done. simpl. rewrite (Hr t e0 He0). split; intros [c Hc]; exists c.
      * case_decide; [|done]. subst. done.
      * case_decide; [by symmetry in Hc|done].
  - intros c. rewrite cur_switched, lookup_switched, fmap_is_Some. case_decide; [by exists e|].
    apply Hcu.
  - intros c c'. rewrite !cur_switched. repeat case_decide; subst; try done.
    + intros Hc. by rewrite (Hon c').
    + intros Hc. by rewrite (Hon c).
    + apply Ho.
  - intros c e'. rewrite cur_switched. intros (e0&->&He0)%lookup_switched_Some.
    rewrite switch_flag, switch_oncpu by lia. case_decide as Hc; [by rewrite decide_True|].
    intros Hpin. case_decide as Hd.
    + exfalso. apply Hc. by apply Hon.
    + by apply Hp.
  - intros t e' (e0&->&He0)%lookup_switched_Some. rewrite !switch_flag by lia. by eapply Hfin.
Qed.

(** * Freeing *)

Definition freed (se : Z) (s : sched) : sched :=
  unlocked (mk_sched (scheduler_lock s) (sq_queue s) (tailq_remove se (sq_exiting s))
    (delete se (sc_entry s)) (sc_cpu s) (sc_locks s) (se :: sc_freed s)).

Lemma elem_of_queue_remove td q x : x ∈ tailq_remove td q ↔ x ∈ q ∧ x ≠ td.
Proof. unfold tailq_remove. rewrite list_elem_of_filter. tauto. Qed.

Lemma sane_freed se s e :
  sane s → sc_entry s !! se = Some e → gone e = true → sane (freed se s).
Proof.
  intros Hs He [Hx Hrun]%andb_true_iff. apply negb_true_iff in Hrun. apply sane_unlocked.
  pose proof Hs as [Hnd Hl Hn Hex Hr Hcu Ho Hp Hfin].
  assert (∀ c, cur s c ≠ se) as Hno.
  { intros c Hc. assert (running e = true) by (apply (Hr se e He); by exists c). congruence. }
  assert (se ∈ sq_exiting s) as Hin by by apply (Hex se e He).
  apply NoDup_app in Hnd as (Hnd1&Hd&Hnd2).
  assert (∀ x, x ∈ sq_queue s → x ≠ se) as Hq by (intros x Hx' ->; by apply (Hd se)).
  split; simpl.
  - apply NoDup_app. split_and!; [done| |by apply NoDup_filter].
    intros x Hxq [Hxe _]%elem_of_queue_remove. by apply (Hd x).
  - intros t. rewrite elem_of_app, elem_of_queue_remove, lookup_delete_is_Some, <-Hl, elem_of_app.
    specialize (Hq t). naive_solver.
  - rewrite lookup_delete_None. by right.
  - intros t e' [Hne He']%lookup_delete_Some. rewrite elem_of_queue_remove, (Hex t e' He').
    naive_solver.
  - intros t e' [Hne He']%lookup_delete_Some. by apply Hr.
  - intros c Hc. apply lookup_delete_is_Some. split; [|by apply Hcu].
    intros Hse. by apply (Hno c).
  - done.
  - intros c e' [Hne He']%lookup_delete_Some. by apply Hp.
  - intros t e' [Hne He']%lookup_delete_Some. by eapply Hfin.
Qed.

(** One pass from [restart]. *)
Lemma schedule_reap_eq s :
  sane s → scheduler_lock s = true →
  schedule_reap self s =
  match head (filter (λ t, dead s t) (sq_exiting s)) with
  | Some se => Done true (freed se s)
  | None => Done false s
  end.
Proof.
  intros Hs Hl. unfold schedule_reap. unfold bind at 1 2, get.
  rewrite exiting_scan_eq by (intros; by apply sane_in_exiting).
  destruct (head _) as [se|]; [|done].
  unfold bind, modify, SCHEDULER_UNLOCK, zoom, release, bind, get. simpl. by rewrite Hl.
Qed.

Lemma head_dead s se :
  head (filter (λ t, dead s t) (sq_exiting s)) = Some se →
  se ∈ sq_exiting s ∧ ∃ e, sc_entry s !! se = Some e ∧ gone e = true.
Proof.
  intros [q Hq]%head_Some. assert (se ∈ filter (λ t, dead s t) (sq_exiting s)) as Hin
    by (rewrite Hq; by left).
  apply list_elem_of_filter in Hin as [Hd Hin]. split; [done|].
  unfold dead in Hd. destruct (sc_entry s !! se) as [e|]; [|done].
  exists e. split; [done|]. by apply Is_true_true.
Qed.

(** [s'] is [s] with the threads freed that are exiting and do not run. *)
Record reaped (s s' : sched) : Prop := {
  reaped_queue : sq_queue s' = sq_queue s;
  reaped_entry td : sc_entry s' !! td =
    (e ← sc_entry s !! td; if gone e then None else Some e);
  reaped_cur c : cur s' c = cur s c;
  reaped_crit c : crit s' c = crit s c;
  reaped_lock : scheduler_lock s' = scheduler_lock s;
  reaped_locks : sc_locks s' = sc_locks s
}.

Lemma schedule_restart_ok fuel s :
  sane s → scheduler_lock s = true → (length (sq_exiting s) < fuel)%nat →
  ∃ s', schedule_restart self fuel s = Done tt s' ∧ sane s' ∧ reaped s s'.
Proof.
  revert s. induction fuel as [|fuel IH]; intros s Hs Hl Hf; [lia|].
  cbn [schedule_restart]. unfold bind at 1. rewrite schedule_reap_eq by done.
  destruct (head (filter _ _)) as [se|] eqn:Hh.
  - destruct (head_dead _ _ Hh) as (Hin&e&He&Hg).
    pose proof (sane_freed se s e Hs He Hg) as Hs1.
    set (s2 := locked (freed se s)).
    assert (bind (SCHEDULER_LOCK self) (λ _, schedule_restart self fuel) (freed se s) =
      schedule_restart self fuel s2) as -> by done.
    destruct (IH s2) as (s'&He'&Hs'&[Hq Hen Hcu Hcr Hl' Hll]).
    + by apply sane_locked.
    + done.
    + assert (length (tailq_remove se (sq_exiting s)) < length (sq_exiting s))%nat; [|simpl; lia].
      unfold tailq_remove. apply length_filter_lt with se; [done|]. tauto.
    + exists s'. split; [done|]. split; [done|]. split.
      * done.
      * intros td. rewrite Hen. simpl. destruct (decide (td = se)) as [->|Hne].
        { rewrite lookup_delete_eq, He. simpl. by rewrite Hg. }
        by rewrite lookup_delete_ne.
      * intros c. rewrite Hcu. unfold s2, freed. by rewrite cur_locked, cur_unlocked.
      * intros c. rewrite Hcr. unfold s2, freed. rewrite crit_locked, crit_unlocked.
        case_decide; [|done]. change (crit s c - 1 + 1 = crit s c). lia.
      * by rewrite Hl', Hl.
      * done.
  - exists s. split; [done|]. split; [done|]. split; try done.
    intros td. destruct (sc_entry s !! td) as [e|] eqn:He; [|done]. simpl.
    destruct (gone e) eqn:Hg; [|done]. exfalso.
    assert (td ∈ filter (λ t, dead s t) (sq_exiting s)) as Hin.
    { apply list_elem_of_filter. split; [unfold dead; rewrite He, Hg; done|].
      apply (sane_exiting _ Hs td e He). unfold gone in Hg. by apply andb_true_iff in Hg as [? _]. }
    destruct (filter _ _); [by apply elem_of_nil in Hin|done].
Qed.

(** * [scheduler_schedule] *)

Definition can_run (s : sched) (ose : Z) : bool :=
  match sc_entry s !! ose with Some e => runnable e | None => false end.
(** The thread that runs next; [canrun] says that the current one may. *)
Definition pick (s : sched) (canrun : bool) (td : Z) : option Z :=
  match head (filter (λ t, wants td s t) (sq_queue s)) with
  | Some se => Some se
  | None => if canrun then Some (cur s self) else None
  end.

Lemma pick_queue s canrun td se :
  sane s → (canrun = true → cur s self ∈ sq_queue s) → pick s canrun td = Some se →
  ∃ e, sc_entry s !! se = Some e ∧ exiting e = false ∧ (se = cur s self ∨ running e = false).
Proof.
  intros Hs Hc. unfold pick. destruct (head _) as [t|] eqn:Hh.
  - intros [= ->]. apply head_Some in Hh as [q Hq].
    assert (se ∈ filter (λ t, wants td s t) (sq_queue s)) as Hin by (rewrite Hq; by left).
    apply list_elem_of_filter in Hin as [Hw Hin].
    destruct (sane_in_queue s se Hs Hin) as (e&He&Hx). exists e. split; [done|]. split; [done|].
    right. unfold wants, may_run in Hw. rewrite He, flag_runnable, flag_running in Hw.
    destruct (runnable e), (running e); simpl in Hw; done.
  - destruct canrun; [|done]. intros [= <-].
    destruct (sane_in_queue s (cur s self) Hs (Hc eq_refl)) as (e&He&Hx). exists e. auto.
Qed.

Lemma schedule_pick_eq canrun td s :
  sane s → scheduler_lock s = true → (canrun = true → cur s self ∈ sq_queue s) →
  match pick s canrun td with
  | Some se =>
      if decide (crit s self = 1)
      then schedule_pick self (cur s self) canrun td s = Done tt (switched (cur s self) se s)
      else ∃ why, schedule_pick self (cur s self) canrun td s = Stop (AssertFail why)
  | None =>
      schedule_pick self (cur s self) canrun td s = Stop (Panic "no threads are runnable.")
  end.
Proof.
  intros Hs Hl Hc. pose proof (pick_queue s canrun td) as Hpq. unfold pick in *.
  assert (schedule_pick self (cur s self) canrun td s =
    match head (filter (λ t, wants td s t) (sq_queue s)) with
    | Some se => scheduler_switch self (cur s self) se
    | None => if canrun then scheduler_switch self (cur s self) (cur s self)
        else bind (SCHEDULER_UNLOCK self) (λ _, halt (Panic "no threads are runnable."))
    end s) as Heq.
  { unfold schedule_pick. unfold bind at 1 2, get.
    by rewrite queue_scan_eq by (intros; by apply sane_in_queue). }
  destruct (head _) as [se|]; [|destruct canrun].
  - destruct (Hpq se Hs Hc eq_refl) as (e&He&_). rewrite Heq.
    apply scheduler_switch_eq; [done..|by exists e].
  - destruct (Hpq (cur s self) Hs Hc eq_refl) as (e&He&_). rewrite Heq.
    apply scheduler_switch_eq; [done..|by exists e].
  - rewrite Heq. unfold bind, SCHEDULER_UNLOCK, zoom, release, bind, get, put. simpl. by rewrite Hl.
Qed.

Lemma sane_can_run s : sane s → can_run s (cur s self) = true → cur s self ∈ sq_queue s.
Proof.
  intros Hs. unfold can_run. destruct (sc_entry s !! cur s self) as [e|] eqn:He; [|done].
  intros Hr. eapply sane_entry_queue; [done..|]. destruct (exiting e) eqn:Hx; [|done].
  pose proof (sane_final _ Hs _ e He Hx). congruence.
Qed.

(** [SCHEDULER_LOCK] and the release of the caller's lock. *)
Definition begun (lock : Z) (s : sched) : sched :=
  if lock =? 0 then locked s
  else put_cpu self (cur s self) (crit s self) (set_locks (sc_locks s ∖ {[lock]}) (set_lock true s)).

Lemma schedule_begin_eq lock s :
  sane s → scheduler_lock s = false → (lock ≠ 0 → lock ∈ sc_locks s) →
  schedule_begin self lock s = Done (cur s self, can_run s (cur s self)) (begun lock s).
Proof.
  intros Hs Hl Hlk. unfold schedule_begin.
  assert (∀ A (k : unit → M sched A), bind (SCHEDULER_LOCK self) k s = k tt (locked s)) as Hlock.
  { intros A k. unfold bind, SCHEDULER_LOCK, zoom, bind, acquire, get. by rewrite Hl. }
  rewrite Hlock. unfold bind at 1, current_thread at 1, gets at 1. rewrite cur_locked.
  assert (∀ A (k : bool → M sched A), bind (if cur s self =? 0 then ret false
    else bind (entry (cur s self)) (λ e, ret (flag_set (se_flags e) SCHEDULER_RUNNABLE))) k
    (locked s) = k (can_run s (cur s self)) (locked s)) as Hcan.
  { intros A k. unfold can_run. destruct (cur s self =? 0) eqn:E; zcmp.
    - rewrite E. by rewrite (sane_null _ Hs).
    - destruct (sane_current _ Hs self E) as [e He].
      unfold bind, entry, bind, get, deref. change (sc_entry (locked s)) with (sc_entry s).
      rewrite He. unfold ret. by rewrite flag_runnable. }
  rewrite Hcan. unfold begun. destruct (lock =? 0) eqn:E; zcmp; [done|]. simpl.
  unfold bind, spinlock_unlock, bind, get. rewrite bool_decide_true by (by apply Hlk).
  unfold put, critical_add, modify, ret. f_equal.
  change (cur (set_locks ?l ?x) ?c) with (cur x c).
  change (crit (set_locks ?l ?x) ?c) with (crit x c).
  rewrite cur_locked, crit_locked, decide_True by done.
  replace (crit s self + 1 + -1) with (crit s self) by lia.
  unfold locked, put_cpu, set_cpu, set_locks, set_lock. simpl. by rewrite insert_insert_eq.
Qed.
End effects.

Section operations.
Context (self : Z).
Notation locked := (locked self).
Notation unlocked := (unlocked self).

Lemma sane_begun lock s : sane s → sane (begun self lock s).
Proof.
  intros Hs. unfold begun. destruct (lock =? 0); [by apply sane_locked|].
  change (cur s self) with (cur (set_locks (sc_locks s ∖ {[lock]}) (set_lock true s)) self).
  apply sane_put. revert Hs. by apply sane_ext.
Qed.
Lemma cur_begun lock s c : cur (begun self lock s) c = cur s c.
Proof.
  unfold begun. destruct (lock =? 0); [apply cur_locked|]. rewrite cur_put. case_decide; by subst.
Qed.
Lemma crit_begun lock s :
  crit (begun self lock s) self = if lock =? 0 then crit s self + 1 else crit s self.
Proof.
  unfold begun. destruct (lock =? 0).
  - by rewrite crit_locked, decide_True.
  - by rewrite crit_put, decide_True.
Qed.

Lemma filter_ext_in (f g : Z → bool) (q : list Z) :
  (∀ t, t ∈ q → f t = g t) → filter (λ t, f t) q = filter (λ t, g t) q.
Proof.
  induction q as [|t q IH]; intros Hfg; [done|]. rewrite !filter_cons, IH, (Hfg t);
    [done|by left|]. intros. apply Hfg. by right.
Qed.

(** The choice does not depend on the threads freed before it. *)
Lemma pick_reaped s s' canrun td :
  sane s → reaped s s' → pick self s' canrun td = pick self s canrun td.
Proof.
  intros Hs [Hq He Hc _ _ _]. unfold pick. rewrite Hq, Hc.
  assert (filter (λ t, wants self td s' t) (sq_queue s) =
          filter (λ t, wants self td s t) (sq_queue s)) as ->; [|done].
  apply filter_ext_in. intros t Ht. destruct (sane_in_queue s t Hs Ht) as (e&He'&Hx).
  unfold wants. rewrite He, He'. simpl. unfold gone. by rewrite Hx.
Qed.

Lemma scheduler_schedule_outcome fuel td lock s :
  sane s → scheduler_lock s = false →
  (lock ≠ 0 → lock ∈ sc_locks s) → crit s self = (if lock =? 0 then 0 else 1) →
  (length (sq_exiting s) < fuel)%nat →
  match pick self s (can_run s (cur s self)) td with
  | Some se => ∃ s',
      scheduler_schedule self fuel td lock s = Done tt s' ∧ sane s' ∧
      cur s' self = se ∧ (∀ c, c ≠ self → cur s' c = cur s c) ∧
      sq_queue s' = tailq_remove se (sq_queue s) ++ [se] ∧
      (∀ t, sc_entry s' !! t = (e ← sc_entry s !! t; if gone e then None
        else Some (switch_entry self (cur s self) se t e))) ∧
      scheduler_lock s' = false ∧ crit s' self = 0 ∧
      sc_locks s' = (if lock =? 0 then sc_locks s else sc_locks s ∖ {[lock]})
  | None =>
      scheduler_schedule self fuel td lock s = Stop (Panic "no threads are runnable.")
  end.
Proof.
  intros Hs Hl Hlk Hcrit Hf. set (canrun := can_run s (cur s self)).
  destruct (schedule_restart_ok self fuel (begun self lock s)) as (s1&Hre&Hs1&Hreap).
  { by apply sane_begun. }
  { unfold begun. by destruct (lock =? 0). }
  { unfold begun. by destruct (lock =? 0). }
  pose proof (pick_reaped _ s1 canrun td (sane_begun lock s Hs) Hreap) as Hpick.
  destruct Hreap as [Hq He Hc Hcr Hll Hls].
  assert (scheduler_schedule self fuel td lock s = schedule_pick self (cur s self) canrun td s1)
    as Heq.
  { unfold scheduler_schedule. unfold bind at 1. rewrite schedule_begin_eq by done.
    unfold bind at 1. by rewrite Hre. }
  assert (pick self s1 canrun td = pick self s canrun td) as Hp.
  { rewrite Hpick. unfold pick. rewrite cur_begun. unfold begun. by destruct (lock =? 0). }
  assert (cur s1 self = cur s self) as Hcur by (by rewrite Hc, cur_begun).
  assert (sq_queue s1 = sq_queue s) as Hqueue
    by (rewrite Hq; unfold begun; by destruct (lock =? 0)).
  pose proof (schedule_pick_eq self canrun td s1 Hs1) as Hpk.
  rewrite Hp, Hcur, Hqueue in Hpk.
  specialize (Hpk ltac:(rewrite Hll; unfold begun; by destruct (lock =? 0)) (sane_can_run self s Hs)).
  assert (∀ t, sc_entry s1 !! t = (e ← sc_entry s !! t; if gone e then None else Some e)) as He1.
  { intros t. rewrite He. unfold begun. by destruct (lock =? 0). }
  assert (crit s1 self = 1) as Hc1.
  { rewrite Hcr, crit_begun, Hcrit. by destruct (lock =? 0). }
  destruct (pick self s canrun td) as [se|] eqn:Hse; [|by rewrite Heq]. rewrite decide_True in Hpk by done.
  destruct (pick_queue self s canrun td se Hs (sane_can_run self s Hs) Hse) as (e&Hee&Hx&Hr).
  exists (switched self (cur s self) se s1). split; [by rewrite Heq|]. split_and!.
  - eapply sane_switched; [done|by rewrite Hcur| |exact Hx|done].
    rewrite He1, Hee. simpl. unfold gone. by rewrite Hx.
  - by rewrite cur_switched, decide_True.
  - intros c Hne. by rewrite cur_switched, decide_False, Hc, cur_begun.
  - simpl. by rewrite Hqueue.
  - intros t. rewrite lookup_switched, He1. destruct (sc_entry s !! t) as [e'|]; [|done]. simpl.
    by destruct (gone e').
  - done.
  - by rewrite crit_switched, decide_True.
  - simpl. rewrite Hls. unfold begun. by destruct (lock =? 0).
Qed.

(** [scheduler_schedule] comes back whatever the queues hold.  It frees
    the exiting threads that do not run, releases the caller's lock, and
    switches to the first thread of the queue that is runnable, does not run,
    is not pinned elsewhere and is the one asked for; to the current thread if
    there is none and it is runnable; and panics otherwise.  The chosen thread
    goes to the end of the queue; nothing else changes. *)
Theorem scheduler_schedule_correct fuel td lock s :
  sane s → scheduler_lock s = false →
  (lock ≠ 0 → lock ∈ sc_locks s) → crit s self = (if lock =? 0 then 0 else 1) →
  (length (sq_exiting s) < fuel)%nat →
  match pick self s (can_run s (cur s self)) td with
  | Some se => ∃ s',
      scheduler_schedule self fuel td lock s = Done tt s' ∧ sane s' ∧
      cur s' self = se ∧ (∀ c, c ≠ self → cur s' c = cur s c) ∧
      sq_queue s' = tailq_remove se (sq_queue s) ++ [se] ∧
      (∀ t, sc_entry s' !! t = (e ← sc_entry s !! t; if gone e then None
        else Some (switch_entry self (cur s self) se t e))) ∧
      scheduler_lock s' = false ∧ crit s' self = 0 ∧
      sc_locks s' = (if lock =? 0 then sc_locks s else sc_locks s ∖ {[lock]})
  | None =>
      scheduler_schedule self fuel td lock s = Stop (Panic "no threads are runnable.")
  end.
Proof. intros. by apply scheduler_schedule_outcome. Qed.

(** * The other operations keep the invariant *)

Definition unlocked_sane (s : sched) : Prop := sane s ∧ scheduler_lock s = false.
Definition any : stop → Prop := λ _, True.

Lemma wp_seq_lock {A} (k : M sched A) Q E s :
  scheduler_lock s = false → wp k Q E (locked s) →
  wp (bind (SCHEDULER_LOCK self) (λ _, k)) Q E s.
Proof. intros Hl Hk. rewrite wp_bind, wp_lock, Hl. done. Qed.

(** Flag updates of one thread under the lock. *)
Lemma update_wp td f (Q : unit → sched → Prop) s e :
  sc_entry s !! td = Some e → Q tt (set_entry (<[td := f e]> (sc_entry s)) s) →
  wp (update td f) Q any s.
Proof. intros He HQ. rewrite wp_update, He. done. Qed.

(** Two updates of an entry and the unlock. *)
Lemma updates_ok td f g e s :
  sane s → scheduler_lock s = true → sc_entry s !! td = Some e →
  running (g (f e)) = running e → exiting (g (f e)) = exiting e →
  (running e = true → pinned (g (f e)) = pinned e ∧ se_oncpu (g (f e)) = se_oncpu e) →
  (exiting e = true → runnable (g (f e)) = false) →
  wp (bind (update td f) (λ _, bind (update td g) (λ _, SCHEDULER_UNLOCK self)))
    (λ _ s', unlocked_sane s' ∧ sq_queue s' = sq_queue s ∧ (∀ c, cur s' c = cur s c) ∧
       sc_entry s' = <[td := g (f e)]> (sc_entry s)) any s.
Proof.
  intros Hs Hl He Hr Hx Hp Hf. rewrite wp_bind. apply (update_wp td f _ s e He).
  rewrite wp_bind. apply (update_wp td g _ _ (f e)); [apply lookup_insert_eq|].
  simpl. rewrite insert_insert_eq, wp_unlock. simpl. rewrite Hl.
  split; [split; [|done]|split; [done|]].
  - apply sane_unlocked. change (sane (set_entry (<[td := g (f e)]> (sc_entry s)) s)).
    by eapply sane_update.
  - split; [|done]. intros c. by rewrite cur_unlocked.
Qed.

(** A pinned thread stays pinned, to the same CPU, until it is freed. *)
Definition stays_pinned (e : scheduler_entry) (o : option scheduler_entry) : Prop :=
  match o with Some e' => pinned e = true → pinned e' = true ∧ se_oncpu e' = se_oncpu e | None => True end.
Definition pins (s s' : sched) : Prop := ∀ t e, sc_entry s !! t = Some e → stays_pinned e (sc_entry s' !! t).

Lemma pins_same s s' : sc_entry s' = sc_entry s → pins s s'.
Proof. intros E t e He. by rewrite E, He. Qed.
Lemma pins_update s s' td e e' :
  sc_entry s !! td = Some e → sc_entry s' = <[td := e']> (sc_entry s) →
  (pinned e = true → pinned e' = true ∧ se_oncpu e' = se_oncpu e) → pins s s'.
Proof.
  intros He E Hp t x Hx. rewrite E. destruct (decide (t = td)) as [->|Hne].
  - rewrite lookup_insert_eq. by replace x with e by congruence.
  - by rewrite lookup_insert_ne, Hx.
Qed.

Definition kept (s : sched) (s' : sched) : Prop :=
  unlocked_sane s' ∧ (∀ td, td ∈ sq_queue s → td ≠ cur s self → td ∈ sq_queue s') ∧
  (∀ c, cur s' c = cur s c) ∧ pins s s'.

Lemma kept_update s s' td e e' :
  sc_entry s !! td = Some e → (pinned e = true → pinned e' = true ∧ se_oncpu e' = se_oncpu e) →
  unlocked_sane s' ∧ sq_queue s' = sq_queue s ∧ (∀ c, cur s' c = cur (locked s) c) ∧ sc_entry s' = <[td := e']> (sc_entry s) →
  kept s s'.
Proof.
  intros He Hp (?&Hq&Hc&E). split_and!; [done|by rewrite Hq|intros c; by rewrite Hc, cur_locked|by eapply pins_update].
Qed.

Lemma pin_ok td s :
  unlocked_sane s → wp (scheduler_cpu_pin self td) (λ _, kept s) any s.
Proof.
  intros [Hs Hl]. apply wp_seq_lock; [done|]. rewrite wp_bind, wp_entry.
  change (sc_entry (locked s)) with (sc_entry s).
  destruct (sc_entry s !! td) as [e|] eqn:He; [|done]. case_match; [done|].
  destruct (flag_set (se_flags e) SCHEDULER_PINNED) eqn:Hpe; [done|]. rewrite flag_pinned in Hpe.
  assert (running e = false) as Hr.
  { destruct (running e) eqn:Hr; [|done]. rewrite <-flag_running in Hr.
    match goal with H : flag_set _ (Z.lor _ _) = false |- _ => rename H into Hf end.
    unfold flag_set, truthy in *. apply negb_false_iff, Z.eqb_eq in Hf.
    apply negb_true_iff, Z.eqb_neq in Hr. exfalso. apply Hr.
    rewrite Z.land_lor_distr_r in Hf. by apply Z.lor_eq_0_iff in Hf as [? _]. }
  eapply wp_mono; [eapply (updates_ok td); [by apply sane_locked|done|exact He|..]|..];
    flags; rewrite ?Hr; try done.
  - by apply (sane_final _ Hs td).
  - intros _ s' Hk. eapply kept_update; [exact He| |exact Hk]. by rewrite Hpe.
Qed.

Lemma runnable_ok td s :
  unlocked_sane s → (∀ e, sc_entry s !! td = Some e → exiting e = false) →
  wp (scheduler_thread_runnable self td) (λ _, kept s) any s.
Proof.
  intros [Hs Hl] Hx. apply wp_seq_lock; [done|].
  destruct (sc_entry s !! td) as [e|] eqn:He.
  - eapply wp_mono; [eapply (updates_ok td); [by apply sane_locked|done|exact He|..]|..];
      flags; rewrite ?(Hx e eq_refl); try done.
    intros _ s' Hk. eapply kept_update; [exact He| |exact Hk]. intros Hpe. by flags.
  - unfold clear_flags. rewrite wp_bind, wp_update. change (sc_entry (locked s)) with (sc_entry s).
    by rewrite He.
Qed.

Lemma sleeping_ok td s :
  unlocked_sane s → wp (scheduler_thread_sleeping self td) (λ _, kept s) any s.
Proof.
  intros [Hs Hl]. apply wp_seq_lock; [done|]. rewrite wp_bind, wp_entry.
  change (sc_entry (locked s)) with (sc_entry s).
  destruct (sc_entry s !! td) as [e|] eqn:He; [|done].
  destruct (flag_set (se_flags e) SCHEDULER_SLEEPING); [done|].
  eapply wp_mono; [eapply (updates_ok td); [by apply sane_locked|done|exact He|..]|..];
    flags; try done.
  intros _ s' Hk. eapply kept_update; [exact He| |exact Hk]. intros Hpe. by flags.
Qed.

Lemma setup_ok td s :
  unlocked_sane s → td ≠ 0 → sc_entry s !! td = None →
  wp (scheduler_thread_setup self td) (λ _, kept s) any s.
Proof.
  intros [Hs Hl] H0 He. apply wp_seq_lock; [done|].
  unfold modify. rewrite !wp_bind. unfold wp at 1. rewrite wp_bind. unfold wp at 1.
  rewrite wp_unlock. simpl.
  assert (td ∉ sq_queue s ++ sq_exiting s) as Hni.
  { rewrite (sane_listed _ Hs), He. by intros [? [=]]. }
  assert (∀ c, cur s c ≠ td) as Hno.
  { intros c Hc. destruct (sane_current _ Hs c) as [e Hce]; [congruence|]. congruence. }
  split; [split; [|done]|split].
  - apply sane_unlocked. change (sane (set_queues (sq_queue s ++ [td]) (sq_exiting s)
      (set_entry (<[td := mk_entry SCHEDULER_DEFAULT CPU_ID_INVALID]> (sc_entry s)) (locked s)))).
    apply (proj2 (sane_locked self s)) in Hs. destruct Hs as [Hnd Hls Hn Hex Hr Hcu Ho Hp Hfin].
    change (sq_queue (locked s)) with (sq_queue s) in *.
    change (sq_exiting (locked s)) with (sq_exiting s) in *.
    change (sc_entry (locked s)) with (sc_entry s) in *.
    assert ((sq_queue s ++ [td]) ++ sq_exiting s ≡ₚ td :: sq_queue s ++ sq_exiting s) as Hperm.
    { rewrite <-app_assoc. simpl. by rewrite Permutation_middle. }
    split; cbn [sq_queue sq_exiting sc_entry set_queues set_entry].
    + rewrite Hperm. by apply NoDup_cons.
    + intros t. rewrite Hperm, elem_of_cons, lookup_insert_is_Some, Hls.
      destruct (decide (t = td)) as [Heq|Hne]; [rewrite Heq; split; intros _; by left|].
      split; (intros [?|?]; [congruence|right; tauto]) || (intros [?|[? ?]]; [congruence|by right]).
    + by rewrite lookup_insert_ne.
    + intros t e [[<- <-]|[Hne Ht]]%lookup_insert_Some; [|by apply Hex].
      split; [done|]. intros Hin. exfalso. apply Hni, elem_of_app. by right.
    + intros t e [[<- <-]|[Hne Ht]]%lookup_insert_Some; [|by apply Hr].
      split; [done|]. intros [c Hc]. exfalso. apply (Hno c). rewrite <-Hc. symmetry. apply cur_locked.
    + intros c Hc. apply lookup_insert_is_Some'. right. by apply Hcu.
    + done.
    + intros c e [[Hc _]|[Hne Ht]]%lookup_insert_Some; [|by apply Hp].
      exfalso. apply (Hno c). rewrite Hc. symmetry. apply cur_locked.
    + intros t e [[<- <-]|[Hne Ht]]%lookup_insert_Some; [done|by eapply Hfin].
  - intros t Ht _. simpl. apply elem_of_app. by left.
  - split; [intros c; rewrite cur_unlocked; apply cur_locked|]. intros t e Ht. cbn.
    rewrite lookup_insert_ne by congruence. by rewrite Ht.
Qed.

Lemma exiting_ok s :
  unlocked_sane s → wp (scheduler_thread_exiting self) (λ _, kept s) any s.
Proof.
  intros [Hs Hl]. unfold scheduler_thread_exiting, current_thread.
  rewrite wp_bind, wp_gets. apply wp_seq_lock; [done|]. rewrite wp_bind, wp_entry.
  change (sc_entry (locked s)) with (sc_entry s). set (td := cur s self).
  destruct (sc_entry s !! td) as [e|] eqn:He; [|done]. rewrite flag_exiting.
  destruct (exiting e) eqn:Hx; [done|]. unfold clear_flags, or_flags.
  rewrite wp_bind. apply (update_wp td _ _ _ e); [done|]. rewrite wp_bind.
  eapply (update_wp td); [apply lookup_insert_eq|]. simpl. rewrite insert_insert_eq.
  unfold modify. rewrite wp_bind. unfold wp at 1. rewrite wp_unlock. simpl.
  set (e' := with_flags _ _).
  assert (exiting e' = true ∧ running e' = running e ∧ runnable e' = false ∧
    pinned e' = pinned e ∧ se_oncpu e' = se_oncpu e) as (Hx'&Hr'&Hrn'&Hp'&Ho').
  { unfold e'. split_and!; flags; done. }
  pose proof (sane_entry_queue s td e Hs He Hx) as Hin.
  split; [split; [|done]|split].
  - apply sane_unlocked. change (sane (set_queues (tailq_remove td (sq_queue s))
      (sq_exiting s ++ [td]) (set_entry (<[td := e']> (sc_entry s)) (locked s)))).
    apply (proj2 (sane_locked self s)) in Hs. destruct Hs as [Hnd Hls Hn Hex Hr Hcu Ho Hp Hfin].
    change (sq_queue (locked s)) with (sq_queue s) in *.
    change (sq_exiting (locked s)) with (sq_exiting s) in *.
    change (sc_entry (locked s)) with (sc_entry s) in *.
    assert (tailq_remove td (sq_queue s) ++ sq_exiting s ++ [td] ≡ₚ sq_queue s ++ sq_exiting s)
      as Hperm.
    { rewrite <-(rotate_perm td (sq_queue s)) at 2; [|by apply NoDup_app in Hnd as [? _]|done].
      rewrite <-!app_assoc. apply Permutation_app_head, Permutation_app_comm. }
    assert (td ∉ sq_exiting s) as Hnx by (intros Ht; apply (Hex td e He) in Ht; congruence).
    assert (∀ t, is_Some (<[td := e']> (sc_entry s) !! t) ↔ is_Some (sc_entry s !! t)) as Hsome.
    { intros t. rewrite lookup_insert_is_Some'. split; [|by right].
      intros [<-|?]; [by exists e|done]. }
    split; cbn [sq_queue sq_exiting sc_entry set_queues set_entry].
    + by rewrite Hperm.
    + intros t. rewrite Hperm, Hsome. apply Hls.
    + rewrite lookup_insert_ne; [done|]. intros Ht. rewrite Ht in He. congruence.
    + intros t y [[<- <-]|[Hne Ht]]%lookup_insert_Some.
      * split; [|done]. intros _. apply elem_of_app. right. by left.
      * rewrite elem_of_app, list_elem_of_singleton, (Hex t y Ht). split; [by left|].
        intros [?|?]; [done|congruence].
    + intros t y [[<- <-]|[Hne Ht]]%lookup_insert_Some; [rewrite Hr'|]; by apply Hr.
    + intros c Hc. apply Hsome. by apply Hcu.
    + done.
    + intros c y [[Hc <-]|[Hne Ht]]%lookup_insert_Some; [|by apply Hp].
      change (td = cur (locked s) c) in Hc. rewrite Hp', Ho'. apply Hp. by rewrite <-Hc.
    + intros t y [[<- <-]|[Hne Ht]]%lookup_insert_Some; [done|by eapply Hfin].
  - intros t Ht Hne. simpl. by apply elem_of_queue_remove.
  - split; [intros c; rewrite cur_unlocked; apply cur_locked|]. eapply (pins_update s _ td e e'); [done|done|].
    by rewrite Hp', Ho'.
Qed.
End operations.

(** * The machine *)

(** [in_schedule] of a CPU that has dropped the lock in [scheduler_schedule]
    to free a thread: [canrun] and the thread wanted. *)
Record world := mk_world { w_sched : sched; in_schedule : gmap Z (bool * Z) }.

(** What a CPU does outside [scheduler_schedule].  A thread in a sleep queue
    is not exiting, so nobody makes an exiting thread runnable. *)
Inductive operation (c : Z) (s : sched) : sched → Prop :=
| O_runnable td s' : (∀ e, sc_entry s !! td = Some e → exiting e = false) →
    scheduler_thread_runnable c td s = Done tt s' → operation c s s'
| O_sleeping s' : scheduler_thread_sleeping c (cur s c) s = Done tt s' → operation c s s'
| O_exiting s' : scheduler_thread_exiting c s = Done tt s' → operation c s s'
| O_pin td s' : scheduler_cpu_pin c td s = Done tt s' → operation c s s'
| O_setup td s' : td ≠ 0 → sc_entry s !! td = None →
    scheduler_thread_setup c td s = Done tt s' → operation c s s'
(* taking and releasing other spin locks *)
| O_locks l n : operation c s (set_locks l (put_cpu c (cur s c) n s)).

(** A region of [scheduler_schedule] that holds the lock, from [restart]. *)
Inductive region (c : Z) (canrun : bool) (td : Z) (i : gmap Z (bool * Z)) (s : sched) :
    world → Prop :=
| R_free s' : schedule_reap c s = Done true s' →
    region c canrun td i s (mk_world s' (<[c := (canrun, td)]> i))
| R_switch s' s'' : schedule_reap c s = Done false s' →
    schedule_pick c (cur s c) canrun td s' = Done tt s'' →
    region c canrun td i s (mk_world s'' (delete c i)).

Inductive step (c : Z) (w : world) : world → Prop :=
| S_operation s' : in_schedule w !! c = None → operation c (w_sched w) s' →
    step c w (mk_world s' (in_schedule w))
| S_schedule td lock canrun s' w' : in_schedule w !! c = None →
    (lock ≠ 0 → lock ∈ sc_locks (w_sched w)) →
    schedule_begin c lock (w_sched w) = Done (cur (w_sched w) c, canrun) s' →
    region c canrun td (in_schedule w) s' w' → step c w w'
| S_restart td canrun s' w' : in_schedule w !! c = Some (canrun, td) →
    SCHEDULER_LOCK c (w_sched w) = Done tt s' →
    region c canrun td (in_schedule w) s' w' → step c w w'.

Definition boot : world := mk_world (scheduler_init ∅) ∅.
Definition next (w w' : world) : Prop := ∃ c, step c w w'.
Definition reachable (w : world) : Prop := rtc next boot w.

Definition inv (w : world) : Prop :=
  unlocked_sane (w_sched w) ∧
  ∀ c td, in_schedule w !! c = Some (true, td) → cur (w_sched w) c ∈ sq_queue (w_sched w).

Lemma boot_inv : inv boot.
Proof.
  split; [split; [|done]|].
  - split; simpl; try done.
    + apply NoDup_nil_2.
    + intros td. rewrite lookup_empty. split; [intros H; by apply elem_of_nil in H|by intros [? [=]]].
  - intros c td. simpl. by rewrite lookup_empty.
Qed.

Lemma operation_kept c s s' : unlocked_sane s → operation c s s' → kept c s s'.
Proof.
  intros Hs Ho.
  destruct Ho as [td s' Hx Hd|s' Hd|s' Hd|td s' Hd|td s' H0 He Hd|l n].
  - pose proof (runnable_ok c td s Hs Hx) as Hw. unfold wp in Hw. by rewrite Hd in Hw.
  - pose proof (sleeping_ok c (cur s c) s Hs) as Hw. unfold wp in Hw. by rewrite Hd in Hw.
  - pose proof (exiting_ok c s Hs) as Hw. unfold wp in Hw. by rewrite Hd in Hw.
  - pose proof (pin_ok c td s Hs) as Hw. unfold wp in Hw. by rewrite Hd in Hw.
  - pose proof (setup_ok c td s Hs H0 He) as Hw. unfold wp in Hw. by rewrite Hd in Hw.
  - assert (∀ x, cur (set_locks l (put_cpu c (cur s c) n s)) x = cur s x) as Hc.
    { intros x. change (cur (put_cpu c (cur s c) n s) x = cur s x).
      rewrite cur_put. case_decide; by subst. }
    destruct Hs as [Hs Hl]. split; [split; [|done]|split; [done|split; [done|by apply pins_same]]].
    revert Hs. by apply sane_ext.
Qed.

Lemma region_inv c canrun td i s w :
  sane s → scheduler_lock s = true →
  (canrun = true → cur s c ∈ sq_queue s) →
  (∀ c' td', c' ≠ c → i !! c' = Some (true, td') → cur s c' ∈ sq_queue s) →
  region c canrun td i s w → inv w.
Proof.
  intros Hs Hl Hc Hi Hr. destruct Hr as [s' Hd|s' s'' Hd Hp]; rewrite schedule_reap_eq in Hd by done.
  - destruct (head _) as [se|] eqn:Hh; [|done]. injection Hd as <-.
    destruct (head_dead _ _ Hh) as (_&e&He&Hg).
    split; [split; [by eapply sane_freed|done]|]. intros c' td'. simpl.
    change (sq_queue (freed c se s)) with (sq_queue s).
    assert (cur (freed c se s) c' = cur s c') as -> by (unfold freed; by rewrite cur_unlocked).
    intros [[<- Hp]|[Hne Hp]]%lookup_insert_Some; [|by eapply Hi]. injection Hp as -> _. by apply Hc.
  - destruct (head _) as [se|] eqn:Hh; [done|]. injection Hd as <-.
    pose proof (schedule_pick_eq c canrun td s Hs Hl Hc) as Hpk.
    pose proof (pick_queue c s canrun td) as Hpq.
    destruct (pick c s canrun td) as [se|]; [|congruence].
    destruct (Hpq se Hs Hc eq_refl) as (e&He&Hx&Hrun).
    case_decide; [|destruct Hpk as [why Hpk]; congruence].
    rewrite Hp in Hpk. injection Hpk as ->.
    split; [split; [by eapply sane_switched|done]|]. intros c' td'. simpl.
    intros [Hne Hi']%lookup_delete_Some. rewrite cur_switched, decide_False by done.
    rewrite rotate_perm; [by eapply Hi| |by eapply sane_entry_queue].
    pose proof (sane_nodup _ Hs) as Hnd. by apply NoDup_app in Hnd as [? _].
Qed.

(** A pinned thread is picked by its CPU only. *)
Lemma picked_oncpu c s canrun td se e :
  sane s → pick c s canrun td = Some se → sc_entry s !! se = Some e → pinned e = true → se_oncpu e = c.
Proof.
  intros Hs. unfold pick. destruct (head _) as [t|] eqn:Hh.
  - intros [= ->] He Hp. apply head_Some in Hh as [q Hq].
    assert (se ∈ filter (λ t, wants c td s t) (sq_queue s)) as Hin by (rewrite Hq; by left).
    apply list_elem_of_filter in Hin as [Hw _]. unfold wants, may_run in Hw.
    rewrite He, flag_runnable, flag_running, flag_pinned, Hp in Hw.
    destruct (runnable e), (running e); try done. simpl in Hw. apply Z.eqb_eq.
    by destruct (se_oncpu e =? c).
  - destruct canrun; [|done]. intros [= <-]. apply (sane_pinned _ Hs).
Qed.

Lemma region_pins c canrun td i s w :
  sane s → scheduler_lock s = true → (canrun = true → cur s c ∈ sq_queue s) →
  region c canrun td i s w → pins s (w_sched w).
Proof.
  intros Hs Hl Hc Hr. destruct Hr as [s' Hd|s' s'' Hd Hp]; rewrite schedule_reap_eq in Hd by done.
  - destruct (head _) as [se|] eqn:Hh; [|done]. injection Hd as <-. intros t e He. cbn.
    destruct (decide (t = se)) as [->|Hne]; [by rewrite lookup_delete_eq|by rewrite lookup_delete_ne, He].
  - destruct (head _) as [se|] eqn:Hh; [done|]. injection Hd as <-.
    pose proof (schedule_pick_eq c canrun td s Hs Hl Hc) as Hpk.
    pose proof (picked_oncpu c s canrun td) as Hon.
    destruct (pick c s canrun td) as [se|]; [|congruence].
    case_decide; [|destruct Hpk as [why Hpk]; congruence].
    rewrite Hp in Hpk. injection Hpk as ->. intros t e He. cbn [w_sched]. rewrite lookup_switched, He. cbn.
    intros Hpe. rewrite switch_flag by lia. split; [done|]. rewrite switch_oncpu. case_decide as Ht; [|done].
    symmetry. subst t. by apply (Hon se e).
Qed.

Lemma machine_step_pins c w w' : inv w → step c w w' → pins (w_sched w) (w_sched w').
Proof.
  intros [[Hs Hl] Hq] Hst. destruct Hst as [s' Hn Ho|td lock canrun s' w' Hn Hlk Hb Hr|td canrun s' w' Hn Hlo Hr].
  - by destruct (operation_kept c (w_sched w) s' (conj Hs Hl) Ho) as (_&_&_&Hp).
  - rewrite schedule_begin_eq in Hb by done. injection Hb as Hcr <-.
    assert (sc_entry (begun c lock (w_sched w)) = sc_entry (w_sched w)) as E by (unfold begun; by destruct (lock =? 0)).
    intros t e He. rewrite <-E in He. eapply region_pins; [by apply sane_begun| | |exact Hr|exact He].
    + unfold begun. by destruct (lock =? 0).
    + rewrite cur_begun. intros ->. unfold begun. destruct (lock =? 0); by apply (sane_can_run c (w_sched w)).
  - assert (s' = locked c (w_sched w)) as ->.
    { unfold SCHEDULER_LOCK, zoom, bind, acquire, get, put, critical_add, modify in Hlo.
      rewrite Hl in Hlo. by injection Hlo as <-. }
    intros t e He. eapply region_pins; [by apply sane_locked|done| |exact Hr|exact He].
    intros ->. rewrite cur_locked. by eapply Hq.
Qed.

Lemma machine_step_inv c w w' : inv w → step c w w' → inv w'.
Proof.
  intros [[Hs Hl] Hq] Hst. destruct Hst as [s' Hn Ho|td lock canrun s' w' Hn Hlk Hb Hr|td canrun s' w' Hn Hlo Hr].
  - destruct (operation_kept c (w_sched w) s' (conj Hs Hl) Ho) as (Hs'&Hkq&Hkc&_).
    split; [done|]. intros c' td Hi. simpl in *. rewrite Hkc.
    assert (c' ≠ c) as Hne by (intros ->; congruence). specialize (Hq c' td Hi).
    apply Hkq; [done|]. intros Heq. apply Hne, (sane_once _ Hs); [done|].
    intros H0. rewrite H0 in Hq. destruct (sane_in_queue _ _ Hs Hq) as (e&He&_).
    by rewrite (sane_null _ Hs) in He.
  - rewrite schedule_begin_eq in Hb by done. injection Hb as Hcr <-.
    eapply region_inv; [by apply sane_begun| | | |exact Hr].
    + unfold begun. by destruct (lock =? 0).
    + rewrite cur_begun. intros ->. unfold begun.
      destruct (lock =? 0); by apply (sane_can_run c (w_sched w)).
    + intros c' td' _ Hi. rewrite cur_begun. unfold begun. destruct (lock =? 0); by eapply Hq.
  - assert (s' = locked c (w_sched w)) as ->.
    { unfold SCHEDULER_LOCK, zoom, bind, acquire, get, put, critical_add, modify in Hlo.
      rewrite Hl in Hlo. by injection Hlo as <-. }
    eapply region_inv; [by apply sane_locked|done| | |exact Hr].
    + intros ->. rewrite cur_locked. by eapply Hq.
    + intros c' td' _ Hi. rewrite cur_locked. by eapply Hq.
Qed.

Lemma sched_reachable_inv w : reachable w → inv w.
Proof.
  intros Hr. enough (∀ w0, inv w0 → rtc next w0 w → inv w) as He by eauto using boot_inv.
  intros w0 H0 Hr'. induction Hr' as [|w1 w2 w3 [c Hs] _ IH]; [done|]. eauto using machine_step_inv.
Qed.

(** C10: whatever the CPUs do, and although [scheduler_schedule] drops the
    lock in the middle, no thread runs on two CPUs, the thread a CPU runs has
    not been freed and is marked running; and a thread that
    [scheduler_cpu_pin] pinned to a CPU runs on no other: no step unpins it or
    moves it to another CPU before it is freed, and where it runs is that
    CPU. *)
Theorem scheduler_safety w :
  reachable w →
  (∀ c c', cur (w_sched w) c = cur (w_sched w) c' → cur (w_sched w) c ≠ 0 → c = c') ∧
  (∀ c, cur (w_sched w) c ≠ 0 → ∃ e, sc_entry (w_sched w) !! cur (w_sched w) c = Some e ∧
    flag_set (se_flags e) SCHEDULER_RUNNING = true ∧
    (flag_set (se_flags e) SCHEDULER_PINNED = true → se_oncpu e = c)) ∧
  ∀ w' t e e', next w w' → sc_entry (w_sched w) !! t = Some e → sc_entry (w_sched w') !! t = Some e' →
    flag_set (se_flags e) SCHEDULER_PINNED = true →
    flag_set (se_flags e') SCHEDULER_PINNED = true ∧ se_oncpu e' = se_oncpu e.
Proof.
  intros Hr%sched_reachable_inv. pose proof Hr as [[Hs _] _]. split; [apply (sane_once _ Hs)|split].
  - intros c Hc. destruct (sane_current _ Hs c Hc) as [e He]. exists e. split; [done|].
    rewrite flag_running, flag_pinned. split; [|by apply (sane_pinned _ Hs)].
    apply (sane_running _ Hs _ e He). by exists c.
  - intros w' t e e' [c Hst] He He' Hp. pose proof (machine_step_pins c w w' Hr Hst t e He) as Hpin.
    rewrite He' in Hpin. rewrite flag_pinned in Hp |- *. by apply Hpin.
Qed.

(** * Round robin *)

Section fair.
Context (self : Z) (fuel : nat).

Fixpoint schedules (n : nat) : M sched unit :=
  match n with O => ret tt | S n => scheduler_schedule self fuel 0 0 ;;; schedules n end.

Definition ready (s : sched) : Prop :=
  sane s ∧ scheduler_lock s = false ∧ crit s self = 0 ∧ (length (sq_exiting s) < fuel)%nat.

Lemma exiting_shrinks s s' m :
  sane s → sane s' →
  (∀ t, sc_entry s' !! t = (e ← sc_entry s !! t; if gone e then None else Some (m t e))) →
  (∀ t e, exiting (m t e) = exiting e) →
  (length (sq_exiting s') ≤ length (sq_exiting s))%nat.
Proof.
  intros Hs Hs' He Hm. apply submseteq_length, NoDup_submseteq.
  - pose proof (sane_nodup _ Hs') as Hnd. by apply NoDup_app in Hnd as (_&_&?).
  - intros t Ht. destruct (sane_in_exiting _ _ Hs' Ht) as (e'&He'&Hx). rewrite He in He'.
    destruct (sc_entry s !! t) as [e|] eqn:Hen; [|done]. simpl in He'.
    destruct (gone e); [done|]. injection He' as <-. rewrite Hm in Hx.
    by apply (sane_exiting _ Hs t e).
Qed.

(** A thread that may run is picked, or moves up the queue. *)
Lemma schedule_advances s q1 t q2 :
  ready s → sq_queue s = q1 ++ t :: q2 → wants self 0 s t = true →
  ∃ s', scheduler_schedule self fuel 0 0 s = Done tt s' ∧ ready s' ∧
    (cur s' self = t ∨ ∃ q1' q2', sq_queue s' = q1' ++ t :: q2' ∧
      (length q1' < length q1)%nat ∧ wants self 0 s' t = true).
Proof.
  intros (Hs&Hl&Hc&Hf) Hq Hw.
  pose proof (scheduler_schedule_outcome self fuel 0 0 s Hs Hl ltac:(done) Hc Hf) as Hsch.
  set (canrun := can_run s (cur s self)) in *.
  assert (∃ se q1' q2', pick self s canrun 0 = Some se ∧
    (se = t ∨ se ≠ t ∧ q1 = q1' ++ se :: q2')) as (se&a&b&Hp&Hse).
  { unfold pick. rewrite Hq, filter_app, filter_cons_True by (by rewrite Hw).
    destruct (filter _ q1) as [|se q'] eqn:Hf1; simpl; [by exists t, [], []; auto|].
    assert (se ∈ filter (λ x, wants self 0 s x) q1) as Hin by (rewrite Hf1; by left).
    apply list_elem_of_filter in Hin as [_ Hin]. apply list_elem_of_split in Hin as (a&b&->).
    exists se, a, b. split; [done|]. destruct (decide (se = t)); auto. }
  rewrite Hp in Hsch. destruct Hsch as (s'&Hd&Hs'&Hcu&_&Hq'&He'&Hl'&Hc'&_).
  assert (∃ e, sc_entry s !! t = Some e ∧ may_run self e = true) as (e&He&Hmay).
  { unfold wants in Hw. destruct (sc_entry s !! t) as [e|]; [|done].
    exists e. split; [done|]. by apply andb_true_iff in Hw as [? _]. }
  exists s'. split; [done|]. split.
  { split_and!; try done. eapply Nat.le_lt_trans; [|exact Hf].
    eapply (exiting_shrinks s s' (λ t, switch_entry self (cur s self) se t)); [done..|].
    intros. by rewrite switch_flag. }
  destruct Hse as [->|[Hne Hq1]]; [by left|]. right.
  assert (gone e = false) as Hg.
  { destruct (sane_in_queue s t Hs) as (e2&He2&Hx); [rewrite Hq; set_solver|].
    unfold gone. rewrite He in He2. injection He2 as <-. by rewrite Hx. }
  assert (running e = false) as Hrun.
  { unfold may_run in Hmay. rewrite flag_runnable, flag_running in Hmay.
    by destruct (runnable e), (running e). }
  assert (t ≠ cur s self) as Hto.
  { intros ->. assert (running e = true) by (apply (sane_running _ Hs _ e He); by exists self).
    congruence. }
  pose proof (sane_nodup _ Hs) as Hnd. apply NoDup_app in Hnd as (Hnd&_).
  exists (tailq_remove se q1), (tailq_remove se q2 ++ [se]). split_and!.
  - rewrite Hq', Hq. unfold tailq_remove. rewrite filter_app, filter_cons_True by done.
    by rewrite <-app_assoc.
  - unfold tailq_remove. apply length_filter_lt with se; [|tauto]. rewrite Hq1. set_solver.
  - unfold wants. rewrite He', He. simpl. rewrite Hg.
    unfold switch_entry. rewrite !decide_False by done. by rewrite Hmay.
Qed.

(** C36: round robin.  A thread that may run on this CPU, with [q1] before it
    in the queue, is running after at most [length q1 + 1] calls of
    [scheduler_schedule], whatever the other threads are. *)
Theorem scheduler_round_robin s q1 t q2 :
  ready s → sq_queue s = q1 ++ t :: q2 → wants self 0 s t = true →
  ∃ n s', (n ≤ length q1)%nat ∧ schedules (S n) s = Done tt s' ∧ cur s' self = t.
Proof.
  remember (length q1) as k eqn:Hk. revert s q1 q2 Hk.
  induction k as [k IH] using lt_wf_ind; intros s q1 q2 -> Hr Hq Hw.
  destruct (schedule_advances s q1 t q2 Hr Hq Hw) as (s1&Hd&Hr1&[Hc|(a&b&Hq1&Hlen&Hw1)]).
  - exists 0%nat, s1. split; [lia|]. split; [|done]. simpl. unfold bind. by rewrite Hd.
  - destruct (IH (length a) Hlen s1 a b eq_refl Hr1 Hq1 Hw1) as (n&s'&Hn&Hd'&Hc').
    exists (S n), s'. split; [lia|]. split; [|done].
    change (schedules (S (S n))) with
      (bind (scheduler_schedule self fuel 0 0) (λ _, schedules (S n))).
    unfold bind. by rewrite Hd.
Qed.
End fair.

(** * A machine with two threads *)

Definition after_op (m : M sched unit) (s : sched) : sched := outcome_state s (m s).
Definition threads0 : sched := scheduler_init ∅.
Definition threads1 : sched := after_op (scheduler_thread_setup 0 100) threads0.
Definition threads2 : sched := after_op (scheduler_thread_runnable 0 100) threads1.
Definition threads3 : sched := after_op (scheduler_thread_setup 0 200) threads2.
Definition two_threads : sched := after_op (scheduler_thread_runnable 0 200) threads3.

Lemma next_operation s s' : operation 0 s s' → next (mk_world s ∅) (mk_world s' ∅).
Proof. intros Ho. exists 0. by apply (S_operation 0 (mk_world s ∅) s'). Qed.

Lemma two_threads_reachable : reachable (mk_world two_threads ∅).
Proof.
  apply rtc_l with (mk_world threads1 ∅).
  { apply next_operation, (O_setup _ _ 100); [done|reflexivity|vm_compute; reflexivity]. }
  apply rtc_l with (mk_world threads2 ∅).
  { apply next_operation, (O_runnable _ _ 100); [|vm_compute; reflexivity].
    intros e He. vm_compute in He. by injection He as <-. }
  apply rtc_l with (mk_world threads3 ∅).
  { apply next_operation, (O_setup _ _ 200); [done|vm_compute; reflexivity..]. }
  apply rtc_l with (mk_world two_threads ∅); [|apply rtc_refl].
  apply next_operation, (O_runnable _ _ 200); [|vm_compute; reflexivity].
  intros e He. vm_compute in He. by injection He as <-.
Qed.

Lemma two_threads_ready : ready 0 1 two_threads.
Proof.
  pose proof (sched_reachable_inv _ two_threads_reachable) as [[Hs Hl] _].
  split; [exact Hs|]. split; [exact Hl|]. split; [by vm_compute|vm_compute; lia].
Qed.

Lemma scheduler_schedule_correct_witness :
  ∃ s', scheduler_schedule 0 1 0 0 two_threads = Done tt s' ∧ cur s' 0 = 100 ∧
    sq_queue s' = [200; 100].
Proof.
  destruct two_threads_ready as (Hs&Hl&Hc&Hf).
  pose proof (scheduler_schedule_correct 0 1 0 0 two_threads Hs Hl ltac:(done) Hc Hf) as Hw.
  change (pick 0 two_threads _ 0) with (Some 100) in Hw.
  destruct Hw as (s'&Hd&_&Hcu&_&Hq&_). exists s'. split; [exact Hd|]. split; [exact Hcu|exact Hq].
Defined.

Lemma scheduler_safety_witness :
  reachable (mk_world two_threads ∅) ∧ ∀ c, cur two_threads c ≠ 0 →
    ∃ e, sc_entry two_threads !! cur two_threads c = Some e.
Proof.
  split; [exact two_threads_reachable|]. intros c Hc.
  destruct (proj1 (proj2 (scheduler_safety _ two_threads_reachable)) c Hc) as (e&He&_). by exists e.
Defined.

Lemma scheduler_round_robin_witness :
  ∃ n s', (n ≤ 1)%nat ∧ schedules 0 1 (S n) two_threads = Done tt s' ∧ cur s' 0 = 200.
Proof.
  exact (scheduler_round_robin 0 1 two_threads [100] 200 [] two_threads_ready eq_refl eq_refl).
Defined.
