(* ===== verification/IpcPort.v ===== *)
(** Ports, rights and messages ([mk/ipc/ipc_port.c], [mk/ipc/ipc.h],
    [mk/ipc/port.h]).

    A port has a queue of messages and, for every task, the rights the task
    holds on it.  Ports, rights and messages are objects of pools (the
    interface [ObjPool]) named by their addresses.  The memory system is the
    interface [TaskMemory]: its operations are those the code calls on pages
    and address spaces, its laws what those operations document.

    The functions are run by the thread [self] of the task [task].  This file
    holds the data and the functions; IpcSpec.v and IpcAlloc.v show that every
    one does what an operation on a finite map from port numbers to ports
    does, and Ipc.v what follows from that. *)

From S2P Require Import Prelude MachineInt Btree Mutex Pool.

Local Open Scope Z_scope.
Local Open Scope c_scope.

(** * [mk/ipc/ipc.h] and [mk/ipc/port.h] *)

Definition IPC_PORT_UNKNOWN : Z := 0.
Definition IPC_PORT_NS : Z := 1.
Definition IPC_PORT_CONSOLE : Z := 2.
Definition IPC_PORT_UNRESERVED_START : Z := 3.

Definition IPC_PORT_RIGHT_NONE : Z := 0x0000.
Definition IPC_PORT_RIGHT_SEND : Z := 0x0001.
Definition IPC_PORT_RIGHT_SEND_ONCE : Z := 0x0002.
Definition IPC_PORT_RIGHT_RECEIVE : Z := 0x0004.

Record ipc_header := mk_header {
  ipchdr_src : Z;
  ipchdr_dst : Z;
  ipchdr_right : Z;
  ipchdr_msg : Z;
  ipchdr_cookie : Z;
  ipchdr_param : Z
}.

Definition IPC_MSG_NONE : Z := 0.
Definition IPC_MSG_FLAG_MASK : Z := 0xf000.
Definition IPC_MSG_MASK : Z := 0x0fff.
Definition IPC_MSG_FLAG_REQUEST : Z := 0x0000.
Definition IPC_MSG_FLAG_REPLY : Z := 0x1000.
Definition IPC_MSG_FLAG_ERROR : Z := 0x2000.
Definition IPC_MSG_REQUEST (msg : Z) : Z := Z.lor IPC_MSG_FLAG_REQUEST (Z.land msg IPC_MSG_MASK).
Definition IPC_MSG_REPLY (msg : Z) : Z := Z.lor IPC_MSG_FLAG_REPLY (Z.land msg IPC_MSG_MASK).
Definition IPC_MSG_ERROR (msg : Z) : Z := Z.lor IPC_MSG_FLAG_ERROR (Z.land msg IPC_MSG_MASK).

Definition IPC_HEADER_REPLY (h : ipc_header) : ipc_header :=
  mk_header (ipchdr_dst h) (ipchdr_src h) IPC_PORT_RIGHT_NONE
    (IPC_MSG_REPLY (ipchdr_msg h)) (ipchdr_cookie h) 0.
Definition IPC_HEADER_ERROR (h : ipc_header) (error : Z) : ipc_header :=
  mk_header (ipchdr_dst h) (ipchdr_src h) IPC_PORT_RIGHT_NONE
    (IPC_MSG_ERROR (ipchdr_msg h)) (ipchdr_cookie h) error.

Definition IPC_PORT_FLAG_DEFAULT : Z := 0x00000000.
Definition IPC_PORT_FLAG_NEW : Z := 0x00000001.
Definition IPC_PORT_FLAG_PUBLIC : Z := 0x00000002.

Definition TASK_DEFAULT : Z := 0x00000000.
Definition TASK_KERNEL : Z := 0x00000001.

(** * The memory system, as ports use it

    An address space is named by its [struct vm *]; a page by its
    [struct vm_page *]. *)

Class TaskMemory (V : Type) := {
  kernel_vm : Z;
  tm_page_alloc : M V (result Z);                   (* [page_alloc(PAGE_FLAG_DEFAULT, &page)] *)
  tm_page_release : Z → M V unit;
  tm_page_extract : Z → Z → M V (result Z);
  tm_page_map : Z → Z → Z → M V (result unit);
  tm_page_unmap : Z → Z → Z → M V (result unit);
  tm_page_map_direct : Z → M V (result Z);          (* into [kernel_vm] *)
  tm_page_unmap_direct : Z → Z → M V (result unit);
  tm_vm_alloc_address : Z → Z → bool → M V (result Z);
  tm_vm_free_address : Z → Z → M V (result unit);
  tm_write : Z → list Z → M V unit                  (* bytes to a direct-mapped address *)
}.

(** * Data *)

Record ipc_message := mk_message { ipcmsg_header : ipc_header; ipcmsg_page : Z }.
Record ipc_port_right := mk_right { ipcpr_task : Z; ipcpr_right : Z }.
(** [struct ipc_port] without [ipcp_mutex] and [ipcp_cv], which are in
    [port_sync] below. *)
Record ipc_port := mk_port {
  ipcp_port : Z;
  ipcp_flags : Z;
  ipcp_msgs : list Z;
  ipcp_rights : tree Z
}.
(** [struct task] and [struct ipc_task], as far as they are used here. *)
Record task := mk_task {
  t_flags : Z;
  t_vm : Z;
  ipct_rights : list Z;
  ipct_task_port : Z
}.

Section ipc.
Context {Ob : Type} `{ObjPool Ob}.

(** The ports, rights, messages and tasks. *)
Record ipc_data := mk_data {
  ipc_ports : tree Z;
  ipc_port_next : Z;
  port_store : gmap Z ipc_port;
  right_store : gmap Z ipc_port_right;
  msg_store : gmap Z ipc_message;
  ipc_port_pool : Ob;
  ipc_port_right_pool : Ob;
  msg_pool : Ob;              (* the bucket of [malloc] messages come from *)
  tasks : gmap Z task
}.

Definition set_ports (t : tree Z) (d : ipc_data) : ipc_data :=
  mk_data t (ipc_port_next d) (port_store d) (right_store d) (msg_store d)
    (ipc_port_pool d) (ipc_port_right_pool d) (msg_pool d) (tasks d).
Definition set_next (n : Z) (d : ipc_data) : ipc_data :=
  mk_data (ipc_ports d) n (port_store d) (right_store d) (msg_store d)
    (ipc_port_pool d) (ipc_port_right_pool d) (msg_pool d) (tasks d).
Definition set_port_store (m : gmap Z ipc_port) (d : ipc_data) : ipc_data :=
  mk_data (ipc_ports d) (ipc_port_next d) m (right_store d) (msg_store d)
    (ipc_port_pool d) (ipc_port_right_pool d) (msg_pool d) (tasks d).
Definition set_right_store (m : gmap Z ipc_port_right) (d : ipc_data) : ipc_data :=
  mk_data (ipc_ports d) (ipc_port_next d) (port_store d) m (msg_store d)
    (ipc_port_pool d) (ipc_port_right_pool d) (msg_pool d) (tasks d).
Definition set_msg_store (m : gmap Z ipc_message) (d : ipc_data) : ipc_data :=
  mk_data (ipc_ports d) (ipc_port_next d) (port_store d) (right_store d) m
    (ipc_port_pool d) (ipc_port_right_pool d) (msg_pool d) (tasks d).
Definition set_port_pool (o : Ob) (d : ipc_data) : ipc_data :=
  mk_data (ipc_ports d) (ipc_port_next d) (port_store d) (right_store d) (msg_store d)
    o (ipc_port_right_pool d) (msg_pool d) (tasks d).
Definition set_right_pool (o : Ob) (d : ipc_data) : ipc_data :=
  mk_data (ipc_ports d) (ipc_port_next d) (port_store d) (right_store d) (msg_store d)
    (ipc_port_pool d) o (msg_pool d) (tasks d).
Definition set_msg_pool (o : Ob) (d : ipc_data) : ipc_data :=
  mk_data (ipc_ports d) (ipc_port_next d) (port_store d) (right_store d) (msg_store d)
    (ipc_port_pool d) (ipc_port_right_pool d) o (tasks d).
Definition set_tasks (m : gmap Z task) (d : ipc_data) : ipc_data :=
  mk_data (ipc_ports d) (ipc_port_next d) (port_store d) (right_store d) (msg_store d)
    (ipc_port_pool d) (ipc_port_right_pool d) (msg_pool d) m.

(** [ipc_port_init] *)
Definition ipc_port_init (ports rights msgs : Ob) (t : gmap Z task) : ipc_data :=
  mk_data Leaf IPC_PORT_UNRESERVED_START ∅ ∅ ∅ ports rights msgs t.

Definition portv (d : ipc_data) (p : Z) : ipc_port :=
  default (mk_port 0 0 [] Leaf) (port_store d !! p).
Definition rightv (d : ipc_data) (r : Z) : ipc_port_right :=
  default (mk_right 0 0) (right_store d !! r).

Definition get_port (p : Z) : M ipc_data ipc_port :=
  d <- get ;; deref "struct ipc_port" (port_store d !! p).
Definition put_port (p : Z) (x : ipc_port) : M ipc_data unit :=
  modify (λ d, set_port_store (<[p := x]> (port_store d)) d).
Definition get_right (r : Z) : M ipc_data ipc_port_right :=
  d <- get ;; deref "struct ipc_port_right" (right_store d !! r).
Definition put_right (r : Z) (x : ipc_port_right) : M ipc_data unit :=
  modify (λ d, set_right_store (<[r := x]> (right_store d)) d).
(** A message that has been freed is not there any more. *)
Definition get_msg (m : Z) : M ipc_data ipc_message :=
  d <- get ;; deref "struct ipc_message" (msg_store d !! m).
Definition get_task (t : Z) : M ipc_data task :=
  d <- get ;; deref "struct task" (tasks d !! t).

Definition with_msgs (l : list Z) (x : ipc_port) : ipc_port :=
  mk_port (ipcp_port x) (ipcp_flags x) l (ipcp_rights x).
Definition with_rights (t : tree Z) (x : ipc_port) : ipc_port :=
  mk_port (ipcp_port x) (ipcp_flags x) (ipcp_msgs x) t.
Definition with_right (r : Z) (x : ipc_port_right) : ipc_port_right :=
  mk_right (ipcpr_task x) r.

(** * Rights *)

Definition ipc_port_right_lookup (p task : Z) : M ipc_data (option Z) :=
  x <- get_port p ;;
  d <- get ;;
  ret (bt_find (λ iter, task <? ipcpr_task (rightv d iter))
               (λ iter, task =? ipcpr_task (rightv d iter)) (ipcp_rights x)).

Definition ipc_port_right_check (p task right : Z) : M ipc_data bool :=
  if flag_set right IPC_PORT_RIGHT_SEND_ONCE
  then halt (Panic "must check for a send right, not a reply right.")
  else
    found <- ipc_port_right_lookup p task ;;
    match found with
    | None => ret false
    | Some r =>
        x <- get_right r ;;
        if flag_set (ipcpr_right x) IPC_PORT_RIGHT_RECEIVE then ret true
        else if negb (right =? IPC_PORT_RIGHT_SEND) then ret false
        else if flag_set (ipcpr_right x) IPC_PORT_RIGHT_SEND then ret true
        else if flag_set (ipcpr_right x) IPC_PORT_RIGHT_SEND_ONCE then
          put_right r (with_right
            (Z.land (ipcpr_right x) (bnot 16 IPC_PORT_RIGHT_SEND_ONCE)) x) ;;;
          ret true
        else ret false
    end.

Definition ipc_port_right_insert (p task right : Z) : M ipc_data (result unit) :=
  x <- get_port p ;;
  if negb (flag_set right IPC_PORT_RIGHT_RECEIVE) && flag_set (ipcp_flags x) IPC_PORT_FLAG_PUBLIC
  then ret (Ok tt)
  else
    found <- ipc_port_right_lookup p task ;;
    match found with
    | Some r =>
        y <- get_right r ;;
        put_right r (with_right (Z.lor (ipcpr_right y) right) y) ;;;
        ret (Ok tt)
    | None =>
        r <- zoom ipc_port_right_pool set_right_pool op_alloc ;;
        put_right r (mk_right task right) ;;;
        d <- get ;;
        put_port p (with_rights (bt_insert
          (λ iter, ipcpr_task (rightv d r) <? ipcpr_task (rightv d iter)) r (ipcp_rights x)) x) ;;;
        t <- get_task task ;;
        modify (λ d, set_tasks (<[task := mk_task (t_flags t) (t_vm t) (ipct_rights t ++ [r])
          (ipct_task_port t)]> (tasks d)) d) ;;;
        ret (Ok tt)
    end.

Definition ipc_port_right_remove (p task right : Z) : M ipc_data (result unit) :=
  found <- ipc_port_right_lookup p task ;;
  match found with
  | None => ret (Err ERROR_NO_RIGHT)
  | Some r =>
      y <- get_right r ;;
      put_right r (with_right (Z.land (ipcpr_right y) (bnot 16 right)) y) ;;;
      ret (Ok tt)
  end.

(** * The machine *)

Context {V : Type} `{TaskMemory V}.

(** The data; [ipc_ports_lock]; [ipcp_mutex] and [ipcp_cv] of every port; the
    threads made runnable, latest first; the memory system. *)
Record ipc := mk_ipc {
  data : ipc_data;
  ipc_ports_lock : mutex;
  port_sync : gmap Z (mutex * cv);
  ipc_woken : list Z;
  memory : V
}.

Definition set_data (d : ipc_data) (s : ipc) : ipc :=
  mk_ipc d (ipc_ports_lock s) (port_sync s) (ipc_woken s) (memory s).
Definition set_ports_lock (m : mutex) (s : ipc) : ipc :=
  mk_ipc (data s) m (port_sync s) (ipc_woken s) (memory s).
Definition set_sync (y : gmap Z (mutex * cv)) (s : ipc) : ipc :=
  mk_ipc (data s) (ipc_ports_lock s) y (ipc_woken s) (memory s).
Definition set_memory (v : V) (s : ipc) : ipc :=
  mk_ipc (data s) (ipc_ports_lock s) (port_sync s) (ipc_woken s) v.

Definition on_data {A} (m : M ipc_data A) : M ipc A := zoom data set_data m.
Definition on_memory {A} (m : M V A) : M ipc A := zoom memory set_memory m.

(** [scheduler_thread_runnable] for the threads of a list. *)
Definition wake (l : list Z) : M ipc unit :=
  modify (λ s, mk_ipc (data s) (ipc_ports_lock s) (port_sync s) (l ++ ipc_woken s) (memory s)).

Section run.
(** [current_thread()] and [current_task()]. *)
Context (self : Z) (current_task : Z).

Definition IPC_PORTS_LOCK : M ipc unit := zoom ipc_ports_lock set_ports_lock (mutex_lock self).
Definition IPC_PORTS_UNLOCK : M ipc unit :=
  l <- zoom ipc_ports_lock set_ports_lock (mutex_unlock self) ;; wake l.

(** An operation on the mutex and the condition variable of a port. *)
Definition on_sync {A} (p : Z) (m : M (mutex * cv) A) : M ipc A :=
  s <- get ;;
  y <- deref "struct ipc_port" (port_sync s !! p) ;;
  zoom (λ _, y) (λ y' s, set_sync (<[p := y']> (port_sync s)) s) m.
Definition IPC_PORT_LOCK (p : Z) : M ipc unit :=
  on_sync p (zoom fst (λ m y, (m, y.2)) (mutex_lock self)).
Definition IPC_PORT_UNLOCK (p : Z) : M ipc unit :=
  l <- on_sync p (zoom fst (λ m y, (m, y.2)) (mutex_unlock self)) ;; wake l.

Definition ipc_port_lookup (port : Z) : M ipc (option Z) :=
  s <- get ;;
  match bt_find (λ iter, port <? ipcp_port (portv (data s) iter))
                (λ iter, port =? ipcp_port (portv (data s) iter)) (ipc_ports (data s)) with
  | Some p => IPC_PORT_LOCK p ;;; ret (Some p)
  | None => ret None
  end.

Definition ipc_port_alloc : M ipc Z :=
  p <- on_data (zoom ipc_port_pool set_port_pool op_alloc) ;;
  modify (λ s, set_sync (<[p := (mutex_init MUTEX_FLAG_DEFAULT, cv_create)]> (port_sync s)) s) ;;;
  on_data (put_port p (mk_port IPC_PORT_UNKNOWN IPC_PORT_FLAG_NEW [] Leaf)) ;;;
  or_panic "ipc_port_right_insert failed"
    (on_data (ipc_port_right_insert p current_task IPC_PORT_RIGHT_RECEIVE)) ;;;
  ret p.

Definition ipc_port_register (p port flags : Z) : M ipc (result unit) :=
  old <- ipc_port_lookup port ;;
  match old with
  | Some q => IPC_PORT_UNLOCK q ;;; ret (Err ERROR_NOT_FREE)
  | None =>
      x <- on_data (get_port p) ;;
      assert_ (ipcp_port x =? IPC_PORT_UNKNOWN) "Can't reuse ipc_port." ;;;
      on_data (put_port p (mk_port port (ipcp_flags x) (ipcp_msgs x) (ipcp_rights x))) ;;;
      on_data (modify (λ d, set_ports (bt_insert
        (λ iter, ipcp_port (portv d p) <? ipcp_port (portv d iter)) p (ipc_ports d)) d)) ;;;
      x <- on_data (get_port p) ;;
      on_data (put_port p (mk_port (ipcp_port x)
        (Z.lor (Z.land (ipcp_flags x) (bnot 32 IPC_PORT_FLAG_NEW)) flags)
        (ipcp_msgs x) (ipcp_rights x))) ;;;
      ret (Ok tt)
  end.

(** The loop of [ipc_port_allocate], with the list locked. *)
Fixpoint allocate_loop (fuel : nat) (p flags : Z) : M ipc (result Z) :=
  match fuel with
  | O => halt OutOfFuel
  | S fuel =>
      s <- get ;;
      if ipc_port_next (data s) <? IPC_PORT_UNRESERVED_START then
        on_data (modify (set_next IPC_PORT_UNRESERVED_START)) ;;;
        allocate_loop fuel p flags
      else
        let port := ipc_port_next (data s) in
        on_data (modify (set_next (u32 (port + 1)))) ;;;
        old <- ipc_port_lookup port ;;
        match old with
        | Some q => IPC_PORT_UNLOCK q ;;; allocate_loop fuel p flags
        | None =>
            IPC_PORT_LOCK p ;;;
            or_panic "ipc_port_register failed" (ipc_port_register p port flags) ;;;
            IPC_PORT_UNLOCK p ;;;
            IPC_PORTS_UNLOCK ;;;
            ret (Ok port)
        end
  end.

Definition ipc_port_allocate (fuel : nat) (flags : Z) : M ipc (result Z) :=
  p <- ipc_port_alloc ;;
  if p =? 0 then ret (Err ERROR_EXHAUSTED)
  else IPC_PORTS_LOCK ;;; allocate_loop fuel p flags.

Definition ipc_port_allocate_reserved (port flags : Z) : M ipc (result unit) :=
  if (port =? IPC_PORT_UNKNOWN) || (IPC_PORT_UNRESERVED_START <=? port)
  then ret (Err ERROR_INVALID)
  else
    IPC_PORTS_LOCK ;;;
    old <- ipc_port_lookup port ;;
    match old with
    | Some q => IPC_PORT_UNLOCK q ;;; IPC_PORTS_UNLOCK ;;; ret (Err ERROR_NOT_FREE)
    | None =>
        IPC_PORTS_UNLOCK ;;;
        p <- ipc_port_alloc ;;
        if p =? 0 then ret (Err ERROR_EXHAUSTED)
        else
          IPC_PORTS_LOCK ;;;
          IPC_PORT_LOCK p ;;;
          or_panic "ipc_port_register failed" (ipc_port_register p port flags) ;;;
          IPC_PORT_UNLOCK p ;;;
          IPC_PORTS_UNLOCK ;;;
          ret (Ok tt)
    end.

(** The lookup most functions begin with: the list locked around it. *)
Definition locked_lookup (port : Z) : M ipc (option Z) :=
  IPC_PORTS_LOCK ;;;
  r <- ipc_port_lookup port ;;
  IPC_PORTS_UNLOCK ;;;
  ret r.

Definition ipc_port_right_drop (port right : Z) : M ipc (result unit) :=
  r <- locked_lookup port ;;
  match r with
  | None => ret (Err ERROR_NOT_FOUND)
  | Some p =>
      error <- on_data (ipc_port_right_remove p current_task right) ;;
      IPC_PORT_UNLOCK p ;;;
      ret error
  end.

Definition ipc_port_right_grant (task src right : Z) : M ipc (result unit) :=
  r <- locked_lookup src ;;
  match r with
  | None => ret (Err ERROR_NOT_FOUND)
  | Some p =>
      ok <- on_data (ipc_port_right_check p current_task IPC_PORT_RIGHT_RECEIVE) ;;
      if negb ok then IPC_PORT_UNLOCK p ;;; ret (Err ERROR_NO_RIGHT)
      else
        error <- on_data (ipc_port_right_insert p task right) ;;
        IPC_PORT_UNLOCK p ;;;
        ret error
  end.

(** The loop of [ipc_port_right_send] over the rights of the destination, in
    order; the tree of the destination does not change in it. *)
Fixpoint right_send_loop (srcp : Z) (right : Z) (l : list Z) : M ipc unit :=
  match l with
  | [] => ret tt
  | r :: l =>
      x <- on_data (get_right r) ;;
      (if flag_set (ipcpr_right x) IPC_PORT_RIGHT_RECEIVE then
         error <- on_data (ipc_port_right_insert srcp (ipcpr_task x) right) ;; ret tt
       else ret tt) ;;;
      right_send_loop srcp right l
  end.

Definition ipc_port_right_send (dst src right : Z) : M ipc (result unit) :=
  r <- locked_lookup src ;;
  match r with
  | None => ret (Err ERROR_NOT_FOUND)
  | Some srcp =>
      ok <- on_data (ipc_port_right_check srcp current_task IPC_PORT_RIGHT_RECEIVE) ;;
      if negb ok then IPC_PORT_UNLOCK srcp ;;; ret (Err ERROR_NO_RIGHT)
      else
        r <- ipc_port_lookup dst ;;
        match r with
        | None => IPC_PORT_UNLOCK srcp ;;; ret (Err ERROR_NOT_FOUND)
        | Some dstp =>
            x <- on_data (get_port dstp) ;;
            right_send_loop srcp right (elements (ipcp_rights x)) ;;;
            IPC_PORT_UNLOCK dstp ;;;
            IPC_PORT_UNLOCK srcp ;;;
            ret (Ok tt)
        end
  end.

(** * Messages *)

Definition ipc_port_send_page (ipch : ipc_header) (page : Z) : M ipc (result unit) :=
  if (ipchdr_msg ipch =? IPC_MSG_NONE) && negb (page =? 0) then ret (Err ERROR_INVALID)
  else
    IPC_PORTS_LOCK ;;;
    src <- ipc_port_lookup (ipchdr_src ipch) ;;
    match src with
    | None => IPC_PORTS_UNLOCK ;;; ret (Err ERROR_INVALID)
    | Some p =>
        ok <- on_data (ipc_port_right_check p current_task IPC_PORT_RIGHT_RECEIVE) ;;
        if negb ok then IPC_PORT_UNLOCK p ;;; IPC_PORTS_UNLOCK ;;; ret (Err ERROR_NO_RIGHT)
        else
          IPC_PORT_UNLOCK p ;;;
          dst <- ipc_port_lookup (ipchdr_dst ipch) ;;
          IPC_PORTS_UNLOCK ;;;
          match dst with
          | None => ret (Err ERROR_NOT_FOUND)
          | Some p =>
              x <- on_data (get_port p) ;;
              ok <- (if negb (flag_set (ipcp_flags x) IPC_PORT_FLAG_PUBLIC) &&
                        negb (ipchdr_msg ipch =? IPC_MSG_NONE)
                     then on_data (ipc_port_right_check p current_task IPC_PORT_RIGHT_SEND)
                     else ret true) ;;
              if negb ok then IPC_PORT_UNLOCK p ;;; ret (Err ERROR_NO_RIGHT)
              else
                m <- on_data (zoom msg_pool set_msg_pool op_alloc) ;;
                on_data (modify (λ d, set_msg_store (<[m := mk_message ipch page]>
                  (msg_store d)) d)) ;;;
                x <- on_data (get_port p) ;;
                on_data (put_port p (with_msgs (ipcp_msgs x ++ [m]) x)) ;;;
                l <- on_sync p (y <- get ;; zoom snd (λ c y, (y.1, c)) (cv_signal self y.1)) ;;
                wake l ;;;
                IPC_PORT_UNLOCK p ;;;
                ret (Ok tt)
          end
    end.

(** [task->t_vm] of the current task, or [&kernel_vm]. *)
Definition current_vm : M ipc Z :=
  t <- on_data (get_task current_task) ;;
  ret (if negb (flag_set (t_flags t) TASK_KERNEL) then t_vm t else kernel_vm).

(** The page at [vpage], taken from the sender. *)
Definition take_page (vpage : Z) : M ipc (result Z) :=
  if vpage =? 0 then ret (Ok 0)
  else
    vm <- current_vm ;;
    page <-? on_memory (tm_page_extract vm vpage) ;;
    (if vm =? kernel_vm then
       or_panic "could not unmap direct page" (on_memory (tm_page_unmap_direct page vpage))
     else
       or_panic "could not unmap source page" (on_memory (tm_page_unmap vm vpage page)) ;;;
       or_panic "could not free source page address" (on_memory (tm_vm_free_address vm vpage))) ;;;
    ret (Ok page).

(** [page_release] when the message was not sent. *)
Definition release_unsent (page : Z) (error : result unit) : M ipc (result unit) :=
  match error with
  | Ok _ => ret (Ok tt)
  | Err e =>
      (if negb (page =? 0) then on_memory (tm_page_release page) else ret tt) ;;;
      ret (Err e)
  end.

Definition ipc_port_send (ipch : ipc_header) (vpage : Z) : M ipc (result unit) :=
  page <-? take_page vpage ;;
  error <- ipc_port_send_page ipch page ;;
  release_unsent page error.

(** [p]: [None] is [NULL]; otherwise the bytes at [p]. *)
Definition ipc_port_send_data (ipch : ipc_header) (p : option (list Z)) (len : Z) :
    M ipc (result unit) :=
  match p with
  | None =>
      assert_ (len =? 0) "Cannot send no data with a set data length." ;;;
      ipc_port_send_page ipch 0
  | Some bytes =>
      assert_ (negb (len =? 0)) "Cannot send data without data length." ;;;
      assert_ (len <=? PAGE_SIZE) "Cannot send more than a page." ;;;
      page <-? on_memory tm_page_alloc ;;
      vaddr <- on_memory (tm_page_map_direct page) ;;
      match vaddr with
      | Err e => on_memory (tm_page_release page) ;;; ret (Err e)
      | Ok vaddr =>
          on_memory (tm_write vaddr (take (Z.to_nat len) bytes)) ;;;
          (if negb (len =? PAGE_SIZE) then
             on_memory (tm_write (u64 (vaddr + len)) (replicate (Z.to_nat (PAGE_SIZE - len)) 0))
           else ret tt) ;;;
          or_panic "page_unmap_direct failed" (on_memory (tm_page_unmap_direct page vaddr)) ;;;
          error <- ipc_port_send_page ipch page ;;
          release_unsent page error
      end
  end.

Definition free_msg (m : Z) : M ipc unit :=
  on_data (modify (λ d, set_msg_store (delete m (msg_store d)) d)) ;;;
  on_data (zoom msg_pool set_msg_pool (op_free m)).

(** [ipc_port_receive] up to the page: the message, taken off the queue, with
    the right it grants inserted. *)
Definition receive_message (port : Z) : M ipc (result Z) :=
  r <- locked_lookup port ;;
  match r with
  | None => ret (Err ERROR_NOT_FOUND)
  | Some p =>
      ok <- on_data (ipc_port_right_check p current_task IPC_PORT_RIGHT_RECEIVE) ;;
      if negb ok then IPC_PORT_UNLOCK p ;;; ret (Err ERROR_NO_RIGHT)
      else
        x <- on_data (get_port p) ;;
        match ipcp_msgs x with
        | [] => IPC_PORT_UNLOCK p ;;; ret (Err ERROR_AGAIN)
        | m :: rest =>
            msg <- on_data (get_msg m) ;;
            assert_ (ipchdr_dst (ipcmsg_header msg) =? ipcp_port x)
              "Destination must be this port." ;;;
            on_data (put_port p (with_msgs rest x)) ;;;
            IPC_PORT_UNLOCK p ;;;
            let h := ipcmsg_header msg in
            (if negb (ipchdr_right h =? IPC_PORT_RIGHT_NONE) then
               r <- ipc_port_lookup (ipchdr_src h) ;;
               match r with
               | None => halt (Panic "port disappeared.")
               | Some q =>
                   or_panic "grating rights failed"
                     (on_data (ipc_port_right_insert q current_task (ipchdr_right h))) ;;;
                   IPC_PORT_UNLOCK q
               end
             else ret tt) ;;;
            ret (Ok m)
        end
  end.

(** The page of a message that has one, with [vpagep] set: where it is mapped.
    When [page_map] fails, the message is freed but the function goes on. *)
Definition receive_page (m page : Z) : M ipc (result Z) :=
  t <- on_data (get_task current_task) ;;
  if negb (flag_set (t_flags t) TASK_KERNEL) then
    r <- on_memory (tm_vm_alloc_address (t_vm t) 1 false) ;;
    match r with
    | Err e => on_memory (tm_page_release page) ;;; free_msg m ;;; ret (Err e)
    | Ok vaddr =>
        error <- on_memory (tm_page_map (t_vm t) vaddr page) ;;
        match error with
        | Err e =>
            or_panic "vm_free_address failed" (on_memory (tm_vm_free_address (t_vm t) vaddr)) ;;;
            on_memory (tm_page_release page) ;;;
            free_msg m
        | Ok _ => ret tt
        end ;;;
        ret (Ok vaddr)
    end
  else
    r <- on_memory (tm_page_map_direct page) ;;
    match r with
    | Err e => on_memory (tm_page_release page) ;;; free_msg m ;;; ret (Err e)
    | Ok vaddr => ret (Ok vaddr)
    end.

(** [want]: [vpagep] is not [NULL].  The result is the header and [*vpagep]. *)
Definition ipc_port_receive (port : Z) (want : bool) : M ipc (result (ipc_header * Z)) :=
  m <-? receive_message port ;;
  msg <- on_data (get_msg m) ;;
  vaddr <-? (if ipcmsg_page msg =? 0 then ret (Ok 0)
             else if negb want then on_memory (tm_page_release (ipcmsg_page msg)) ;;; ret (Ok 0)
             else receive_page m (ipcmsg_page msg)) ;;
  msg <- on_data (get_msg m) ;;
  free_msg m ;;;
  ret (Ok (ipcmsg_header msg, vaddr)).

(** [ipc_port_wait]; when it waits, up to the moment the thread is asleep. *)
Definition ipc_port_wait (port : Z) : M ipc (result unit) :=
  r <- locked_lookup port ;;
  match r with
  | None => ret (Err ERROR_NOT_FOUND)
  | Some p =>
      x <- on_data (get_port p) ;;
      match ipcp_msgs x with
      | _ :: _ => IPC_PORT_UNLOCK p ;;; ret (Ok tt)
      | [] =>
          ok <- on_data (ipc_port_right_check p current_task IPC_PORT_RIGHT_RECEIVE) ;;
          if negb ok then IPC_PORT_UNLOCK p ;;; ret (Err ERROR_NO_RIGHT)
          else
            l <- on_sync p (cv_wait self) ;;
            wake l ;;;
            ret (Ok tt)
      end
  end.
End run.
End ipc.
