(* ===== verification/IpcSpec.v ===== *)
(** What the operations on ports do ([mk/ipc/ipc_port.c]), as operations on a
    finite map.

    A port is abstractly its flags, the rights of every task, and its queue:
    the headers of the messages and their pages.  The first section gives the
    abstract operations, the second the invariant of the implementation's data
    and the abstraction function [abs], and the rest shows that the
    implementation refines the abstract operations. *)

From S2P Require Import Prelude MachineInt Btree Mutex Pool IpcPort.

Local Open Scope Z_scope.
Local Open Scope c_scope.

(** * The abstract operations *)

Record aport := mk_aport {
  a_flags : Z;
  a_rights : gmap Z Z;
  a_msgs : list (ipc_header * Z)
}.
Notation aports := (gmap Z aport).

(** The rights of a task; a task the port does not know has none. *)
Definition a_right (t : Z) (a : aport) : Z := default 0 (a_rights a !! t).
Definition set_right (t r : Z) (a : aport) : aport :=
  mk_aport (a_flags a) (<[t := r]> (a_rights a)) (a_msgs a).
Definition set_msgs (l : list (ipc_header * Z)) (a : aport) : aport :=
  mk_aport (a_flags a) (a_rights a) l.
Definition public (a : aport) : bool := flag_set (a_flags a) IPC_PORT_FLAG_PUBLIC.
Definition may_receive (t : Z) (a : aport) : bool :=
  flag_set (a_right t a) IPC_PORT_RIGHT_RECEIVE.

(** Sending by a right: a receive or send right allows it, a send-once right
    allows it and is gone. *)
Definition use_send (t : Z) (a : aport) : option aport :=
  let r := a_right t a in
  if flag_set r IPC_PORT_RIGHT_RECEIVE || flag_set r IPC_PORT_RIGHT_SEND then Some a
  else if flag_set r IPC_PORT_RIGHT_SEND_ONCE
  then Some (set_right t (Z.land r (bnot 16 IPC_PORT_RIGHT_SEND_ONCE)) a)
  else None.

(** Nobody needs a right to send to a public port. *)
Definition give (t right : Z) (a : aport) : aport :=
  if negb (flag_set right IPC_PORT_RIGHT_RECEIVE) && public a then a
  else set_right t (Z.lor (a_right t a) right) a.
Definition drop_right (t right : Z) (a : aport) : option aport :=
  r ← a_rights a !! t; Some (set_right t (Z.land r (bnot 16 right)) a).

Definition new_port (t flags : Z) : aport :=
  mk_aport flags {[ t := IPC_PORT_RIGHT_RECEIVE ]} [].

Definition spec_send (t : Z) (h : ipc_header) (page : Z) (A : aports) : result unit * aports :=
  if (ipchdr_msg h =? IPC_MSG_NONE) && negb (page =? 0) then (Err ERROR_INVALID, A)
  else match A !! ipchdr_src h with
  | None => (Err ERROR_INVALID, A)
  | Some src =>
      if negb (may_receive t src) then (Err ERROR_NO_RIGHT, A)
      else match A !! ipchdr_dst h with
      | None => (Err ERROR_NOT_FOUND, A)
      | Some dst =>
          match (if public dst || (ipchdr_msg h =? IPC_MSG_NONE) then Some dst
                 else use_send t dst) with
          | None => (Err ERROR_NO_RIGHT, A)
          | Some dst' =>
              (Ok tt, <[ipchdr_dst h := set_msgs (a_msgs dst' ++ [(h, page)]) dst']> A)
          end
      end
  end.

(** The right a message gives its receiver on the port it comes from. *)
Definition grant (t : Z) (h : ipc_header) (A : aports) : aports :=
  if ipchdr_right h =? IPC_PORT_RIGHT_NONE then A
  else alter (give t (ipchdr_right h)) (ipchdr_src h) A.

Definition spec_receive (t n : Z) (A : aports) : result (ipc_header * Z) * aports :=
  match A !! n with
  | None => (Err ERROR_NOT_FOUND, A)
  | Some a =>
      if negb (may_receive t a) then (Err ERROR_NO_RIGHT, A)
      else match a_msgs a with
      | [] => (Err ERROR_AGAIN, A)
      | (h, page) :: rest => (Ok (h, page), grant t h (<[n := set_msgs rest a]> A))
      end
  end.

Definition spec_right_drop (t n right : Z) (A : aports) : result unit * aports :=
  match A !! n with
  | None => (Err ERROR_NOT_FOUND, A)
  | Some a =>
      match drop_right t right a with
      | None => (Err ERROR_NO_RIGHT, A)
      | Some a' => (Ok tt, <[n := a']> A)
      end
  end.

Definition spec_right_grant (t task n right : Z) (A : aports) : result unit * aports :=
  match A !! n with
  | None => (Err ERROR_NOT_FOUND, A)
  | Some a =>
      if negb (may_receive t a) then (Err ERROR_NO_RIGHT, A)
      else (Ok tt, <[n := give task right a]> A)
  end.

(** Every task that may receive on [dst] is given the right on [a]. *)
Definition give_all (right : Z) (dst a : aport) : aport :=
  if negb (flag_set right IPC_PORT_RIGHT_RECEIVE) && public a then a
  else mk_aport (a_flags a)
    (merge (λ r s, match s with
       | Some s => if flag_set s IPC_PORT_RIGHT_RECEIVE then Some (Z.lor (default 0 r) right) else r
       | None => r end) (a_rights a) (a_rights dst)) (a_msgs a).

(** [dst] and [src] are different ports. *)
Definition spec_right_send (t dst src right : Z) (A : aports) : result unit * aports :=
  match A !! src with
  | None => (Err ERROR_NOT_FOUND, A)
  | Some a =>
      if negb (may_receive t a) then (Err ERROR_NO_RIGHT, A)
      else match A !! dst with
      | None => (Err ERROR_NOT_FOUND, A)
      | Some d => (Ok tt, <[src := give_all right d a]> A)
      end
  end.

(** * Search trees as finite maps *)

Definition tree_map {B : Type} (key : Z → Z) (f : Z → B) (t : tree Z) : gmap Z B :=
  list_to_map ((λ x, (key x, f x)) <$> elements t).

Section tree_map.
Context {B : Type}.
Implicit Types (f : Z → B) (key : Z → Z).

Lemma tree_map_lookup key f t k :
  bst key t → tree_map key f t !! k = f <$> find_key key k t.
Proof.
  intros Hb. unfold tree_map.
  assert (NoDup ((λ x, (key x, f x)) <$> elements t).*1) as Hnd.
  { rewrite <-list_fmap_compose. apply NoDup_fmap_2_strong; [|by eapply bst_NoDup].
    intros x y Hx Hy Hk. by eapply bst_inj. }
  destruct (find_key key k t) as [x|] eqn:Hf; simpl.
  - apply find_key_Some in Hf as [Hx <-]; [|done]. apply elem_of_list_to_map; [done|].
    apply list_elem_of_fmap. by exists x.
  - apply not_elem_of_list_to_map. rewrite <-list_fmap_compose. intros (x&->&Hx)%list_elem_of_fmap.
    rewrite find_key_None in Hf by done. by apply (Hf x).
Qed.

Lemma tree_map_ext key key' f f' t :
  (∀ x, x ∈ elements t → key x = key' x ∧ f x = f' x) → tree_map key f t = tree_map key' f' t.
Proof.
  intros He. unfold tree_map. f_equal. apply list_fmap_ext. intros i x Hx%list_elem_of_lookup_2.
  by destruct (He x Hx) as [-> ->].
Qed.

Lemma tree_map_insert key f v t :
  bst key t → (∀ x, x ∈ elements t → key x ≠ key v) →
  tree_map key f (insert_key key v t) = <[key v := f v]> (tree_map key f t).
Proof.
  intros Hb Hv. apply map_eq. intros k.
  rewrite tree_map_lookup by (by apply bst_insert). rewrite find_key_insert by done.
  case_decide as Hk; [by rewrite Hk, lookup_insert_eq|].
  rewrite lookup_insert_ne by done. by rewrite tree_map_lookup.
Qed.

Lemma tree_map_update key f f' v t :
  bst key t → v ∈ elements t → (∀ x, x ∈ elements t → x ≠ v → f' x = f x) →
  tree_map key f' t = <[key v := f' v]> (tree_map key f t).
Proof.
  intros Hb Hv He. apply map_eq. intros k. rewrite tree_map_lookup by done.
  destruct (decide (k = key v)) as [->|Hne].
  - rewrite lookup_insert_eq. by rewrite (proj2 (find_key_Some key (key v) t v Hb)).
  - rewrite lookup_insert_ne, tree_map_lookup by done.
    destruct (find_key key k t) as [x|] eqn:Hf; [|done].
    apply find_key_Some in Hf as [Hx <-]; [|done]. simpl. f_equal. apply He; congruence.
Qed.
End tree_map.

(** * The invariant and the abstraction *)

Section data.
Context {Ob : Type} `{ObjPool Ob}.
Notation ipc_data := (@ipc_data Ob).
Implicit Types (d : ipc_data) (p q r m t : Z) (x y : ipc_port).

Definition pkey d p : Z := ipcp_port (portv d p).
Definition rkey d r : Z := ipcpr_task (rightv d r).
Definition msgv d m : ipc_header * Z :=
  match msg_store d !! m with
  | Some x => (ipcmsg_header x, ipcmsg_page x)
  | None => (mk_header 0 0 0 0 0 0, 0)
  end.

Definition aport_of d x : aport :=
  mk_aport (ipcp_flags x) (tree_map (rkey d) (λ r, ipcpr_right (rightv d r)) (ipcp_rights x))
    (msgv d <$> ipcp_msgs x).
Definition at_port d p : aport := aport_of d (portv d p).
Definition abs d : aports := tree_map (pkey d) (at_port d) (ipc_ports d).
(** The port with a number. *)
Definition port_at d n : option Z := find_key (pkey d) n (ipc_ports d).

Record wf d : Prop := {
  wf_tree : bst (pkey d) (ipc_ports d);
  wf_in p : p ∈ elements (ipc_ports d) → is_Some (port_store d !! p);
  wf_number p : p ∈ elements (ipc_ports d) → 0 < pkey d p < 2 ^ 32;
  wf_next : 0 ≤ ipc_port_next d < 2 ^ 32;
  wf_rights p x : port_store d !! p = Some x → bst (rkey d) (ipcp_rights x);
  wf_right_in p x r : port_store d !! p = Some x → r ∈ elements (ipcp_rights x) →
    is_Some (right_store d !! r) ∧ is_Some (tasks d !! rkey d r);
  wf_right_own p x q y r : port_store d !! p = Some x → port_store d !! q = Some y →
    r ∈ elements (ipcp_rights x) → r ∈ elements (ipcp_rights y) → p = q;
  wf_msg_nodup p x : port_store d !! p = Some x → NoDup (ipcp_msgs x);
  wf_msg_in p x m : port_store d !! p = Some x → m ∈ ipcp_msgs x →
    is_Some (msg_store d !! m) ∧ ipchdr_dst (msgv d m).1 = ipcp_port x ∧
    (ipchdr_right (msgv d m).1 ≠ IPC_PORT_RIGHT_NONE →
     is_Some (port_at d (ipchdr_src (msgv d m).1)));
  wf_msg_own p x q y m : port_store d !! p = Some x → port_store d !! q = Some y →
    m ∈ ipcp_msgs x → m ∈ ipcp_msgs y → p = q;
  wf_port_pool : op_inv (ipc_port_pool d) ∧
    ∀ p, is_Some (port_store d !! p) → op_live (ipc_port_pool d) p;
  wf_right_pool : op_inv (ipc_port_right_pool d) ∧
    ∀ r, is_Some (right_store d !! r) → op_live (ipc_port_right_pool d) r;
  wf_msg_pool : op_inv (msg_pool d) ∧ ∀ m, is_Some (msg_store d !! m) → op_live (msg_pool d) m
}.

Lemma abs_lookup d n : wf d → abs d !! n = at_port d <$> port_at d n.
Proof. intros Hw. apply tree_map_lookup, Hw. Qed.

Lemma port_at_Some d n p : wf d → port_at d n = Some p ↔ p ∈ elements (ipc_ports d) ∧ pkey d p = n.
Proof. intros Hw. apply find_key_Some, Hw. Qed.

Lemma portv_eq d p x : port_store d !! p = Some x → portv d p = x.
Proof. unfold portv. by intros ->. Qed.
Lemma portv_in d p : is_Some (port_store d !! p) → port_store d !! p = Some (portv d p).
Proof. intros [x Hx]. by rewrite (portv_eq d p x). Qed.
Lemma port_at_in d n p : wf d → port_at d n = Some p → port_store d !! p = Some (portv d p).
Proof. intros Hw [Hp _]%port_at_Some; [|done]. by apply portv_in, (wf_in _ Hw). Qed.
Lemma rightv_in d r : is_Some (right_store d !! r) → right_store d !! r = Some (rightv d r).
Proof. unfold rightv. intros [y ->]. done. Qed.

(** The right record of a task. *)
Definition right_at d p t : option Z := find_key (rkey d) t (ipcp_rights (portv d p)).

Lemma a_rights_lookup d p t :
  wf d → is_Some (port_store d !! p) →
  a_rights (at_port d p) !! t = (λ r, ipcpr_right (rightv d r)) <$> right_at d p t.
Proof.
  intros Hw Hp. apply tree_map_lookup. eapply (wf_rights _ Hw p). by apply portv_in.
Qed.

Lemma right_at_Some d p t r :
  wf d → is_Some (port_store d !! p) →
  right_at d p t = Some r ↔ r ∈ elements (ipcp_rights (portv d p)) ∧ rkey d r = t.
Proof. intros Hw Hp. apply find_key_Some. eapply (wf_rights _ Hw p). by apply portv_in. Qed.

(** * Changes of one port *)

(** [d'] is [d] with the port at [p] changed to [a']. *)
Record port_update p (a' : aport) d d' : Prop := {
  pu_wf : wf d';
  pu_tree : ipc_ports d' = ipc_ports d;
  pu_next : ipc_port_next d' = ipc_port_next d;
  pu_task t : (λ k, (t_flags k, t_vm k, ipct_task_port k)) <$> tasks d' !! t = (λ k, (t_flags k, t_vm k, ipct_task_port k)) <$> tasks d !! t;
  pu_key q : pkey d' q = pkey d q;
  pu_store q : is_Some (port_store d' !! q) ↔ is_Some (port_store d !! q);
  pu_port : at_port d' p = a';
  pu_other q : q ≠ p → is_Some (port_store d !! q) → at_port d' q = at_port d q
}.

Lemma port_at_ext d d' n :
  ipc_ports d' = ipc_ports d → (∀ q, pkey d' q = pkey d q) → port_at d' n = port_at d n.
Proof.
  intros Ht Hk. unfold port_at. rewrite Ht. unfold find_key.
  apply bt_find_ext. intros q _. by rewrite Hk.
Qed.
Lemma pu_port_at p a' d d' n : port_update p a' d d' → port_at d' n = port_at d n.
Proof. intros Hu. apply port_at_ext; apply Hu. Qed.

Lemma pu_abs p a' d d' :
  wf d → port_update p a' d d' → p ∈ elements (ipc_ports d) →
  abs d' = <[pkey d p := a']> (abs d).
Proof.
  intros Hw Hu Hp. unfold abs. rewrite (pu_tree _ _ _ _ Hu).
  rewrite (tree_map_ext (pkey d') (pkey d) (at_port d') (at_port d'))
    by (intros; split; [apply (pu_key _ _ _ _ Hu)|done]).
  rewrite (tree_map_update (pkey d) (at_port d) (at_port d') p) by
    (first [apply Hw | exact Hp | intros x Hx Hne; apply (pu_other _ _ _ _ Hu);
      [done|by apply (wf_in _ Hw)]]).
  by rewrite (pu_port _ _ _ _ Hu).
Qed.

Lemma pu_abs_out p a' d d' :
  wf d → port_update p a' d d' → p ∉ elements (ipc_ports d) → abs d' = abs d.
Proof.
  intros Hw Hu Hp. unfold abs. rewrite (pu_tree _ _ _ _ Hu). apply tree_map_ext.
  intros q Hq. split; [apply (pu_key _ _ _ _ Hu)|]. apply (pu_other _ _ _ _ Hu).
  - intros ->. done.
  - by apply (wf_in _ Hw).
Qed.

Lemma pu_trans p a1 a2 d d1 d2 :
  port_update p a1 d d1 → port_update p a2 d1 d2 → port_update p a2 d d2.
Proof.
  intros H1 H2. split.
  - apply H2.
  - rewrite (pu_tree _ _ _ _ H2). apply H1.
  - rewrite (pu_next _ _ _ _ H2). apply H1.
  - intros t. rewrite (pu_task _ _ _ _ H2). apply H1.
  - intros q. rewrite (pu_key _ _ _ _ H2). apply H1.
  - intros q. rewrite (pu_store _ _ _ _ H2). apply H1.
  - apply H2.
  - intros q Hq Hs. rewrite (pu_other _ _ _ _ H2 q Hq) by (by apply (pu_store _ _ _ _ H1)).
    by apply H1.
Qed.

Lemma pu_refl p d : wf d → port_update p (at_port d p) d d.
Proof. by split. Qed.

Lemma pu_tasks_in p a d d' t :
  port_update p a d d' → is_Some (tasks d !! t) → is_Some (tasks d' !! t).
Proof.
  intros Hu Ht. pose proof (pu_task _ _ _ _ Hu t) as He. apply fmap_is_Some with (f := λ k, (t_flags k, t_vm k, ipct_task_port k)) in Ht.
  rewrite <-He in Ht. by apply fmap_is_Some in Ht.
Qed.

(** The queues and the messages are the same. *)
Definition same_msgs d d' : Prop :=
  msg_store d' = msg_store d ∧ ∀ q, ipcp_msgs (portv d' q) = ipcp_msgs (portv d q).
(** The right records of the ports but [p] are the same. *)
Definition same_rights p d d' : Prop :=
  ∀ q, q ≠ p → is_Some (port_store d !! q) → ipcp_rights (portv d' q) = ipcp_rights (portv d q) ∧
    ∀ r, r ∈ elements (ipcp_rights (portv d q)) → rightv d' r = rightv d r.

(** Writing a right that is there. *)
Definition write_right d r v : ipc_data :=
  set_right_store (<[r := with_right v (rightv d r)]> (right_store d)) d.

Lemma rightv_write d r v r' :
  rightv (write_right d r v) r' = if decide (r' = r) then with_right v (rightv d r) else rightv d r'.
Proof.
  unfold rightv at 1. simpl. case_decide as Hr; [subst; by rewrite lookup_insert_eq|].
  by rewrite lookup_insert_ne.
Qed.
Lemma rkey_write d r v r' : rkey (write_right d r v) r' = rkey d r'.
Proof. unfold rkey. rewrite rightv_write. by case_decide; subst. Qed.

Lemma write_right_update d p r v :
  wf d → is_Some (port_store d !! p) → r ∈ elements (ipcp_rights (portv d p)) →
  port_update p (set_right (rkey d r) v (at_port d p)) d (write_right d r v).
Proof.
  intros Hw Hp Hr. set (d' := write_right d r v).
  assert (∀ r', rkey d' r' = rkey d r') as Hk by apply rkey_write.
  assert (∀ q x, port_store d !! q = Some x → bst (rkey d') (ipcp_rights x)) as Hb.
  { intros q x Hx. eapply bst_ext; [|by eapply (wf_rights _ Hw)]. intros. by rewrite Hk. }
  split; try done.
  - destruct Hw. split; try done.
    + intros q x r' Hx Hr'. rewrite Hk. destruct (wf_right_in0 q x r' Hx Hr') as [Hs Ht].
      split; [|done]. apply lookup_insert_is_Some'. by right.
    + destruct wf_right_pool0 as [Hi Hl]. split; [done|]. intros r' Hs.
      simpl in Hs. apply lookup_insert_is_Some' in Hs as [<-|Hs]; [|by apply Hl]. apply Hl.
      by apply (wf_right_in0 p _ r (portv_in _ _ Hp) Hr).
  - unfold at_port, aport_of, set_right. simpl. f_equal.
    etrans; [apply (tree_map_ext (rkey d') (rkey d) _ (λ r', ipcpr_right (rightv d' r')));
      intros r' _; split; [apply Hk|reflexivity]|].
    rewrite (tree_map_update (rkey d) (λ r', ipcpr_right (rightv d r')) _ r).
    + unfold d' at 1. by rewrite rightv_write, decide_True.
    + exact (wf_rights _ Hw p _ (portv_in d p Hp)).
    + done.
    + intros r' _ Hne. unfold d'. by rewrite rightv_write, decide_False.
  - intros q Hne Hq. unfold at_port, aport_of. simpl. f_equal. apply tree_map_ext.
    intros r' Hr'. split; [apply Hk|]. unfold d'. rewrite rightv_write, decide_False; [done|].
    intros ->. apply Hne.
    by apply (wf_right_own _ Hw q _ p _ r (portv_in d q Hq) (portv_in d p Hp)).
Qed.

(** A right that is not there yet: the record [r] comes from the pool. *)
Definition add_right d p r t v (o : Ob) (k : task) : ipc_data :=
  let d1 := set_right_store (<[r := mk_right t v]> (right_store d)) (set_right_pool o d) in
  set_tasks (<[t := mk_task (t_flags k) (t_vm k) (ipct_rights k ++ [r]) (ipct_task_port k)]>
      (tasks d))
    (set_port_store (<[p := with_rights (insert_key (rkey d1) r (ipcp_rights (portv d p)))
      (portv d p)]> (port_store d)) d1).

Lemma add_right_update d p r t v o k :
  wf d → is_Some (port_store d !! p) → right_at d p t = None →
  op_inv o → ¬ op_live (ipc_port_right_pool d) r →
  (∀ q, op_live o q ↔ op_live (ipc_port_right_pool d) q ∨ q = r) →
  tasks d !! t = Some k →
  port_update p (set_right t v (at_port d p)) d (add_right d p r t v o k).
Proof.
  intros Hw Hp Hnone Ho Hnew Hlive Htk. set (d' := add_right d p r t v o k).
  set (d1 := set_right_store (<[r := mk_right t v]> (right_store d)) (set_right_pool o d)).
  assert (right_store d !! r = None) as Hr.
  { destruct (right_store d !! r) eqn:E; [|done]. exfalso. apply Hnew.
    apply (wf_right_pool _ Hw). by eexists. }
  assert (∀ r', r' ≠ r → rightv d' r' = rightv d r') as Hv.
  { intros r' Hne. unfold rightv. simpl. by rewrite lookup_insert_ne. }
  assert (rightv d' r = mk_right t v) as Hvr by (unfold rightv; simpl; by rewrite lookup_insert_eq).
  assert (∀ q x r', port_store d !! q = Some x → r' ∈ elements (ipcp_rights x) → r' ≠ r) as Hne.
  { intros q x r' Hx Hr' ->. destruct (wf_right_in _ Hw q x r Hx Hr') as [[? ?] _]. congruence. }
  set (x0 := portv d p). pose proof (portv_in d p Hp) as Hx0. fold x0 in Hx0.
  assert (∀ r', r' ∈ elements (ipcp_rights x0) → rkey d' r' = rkey d r') as Hk0.
  { intros r' Hr'. unfold rkey. by rewrite Hv by (by eapply Hne). }
  assert (bst (rkey d') (ipcp_rights x0)) as Hb0.
  { eapply bst_ext; [|by eapply (wf_rights _ Hw)]. intros r' Hr'. by rewrite Hk0. }
  assert (∀ r', r' ∈ elements (ipcp_rights x0) → rkey d' r' ≠ rkey d' r) as Hfresh.
  { intros r' Hr'. rewrite (Hk0 r' Hr'). unfold rkey at 2. rewrite Hvr. simpl.
    unfold right_at in Hnone. rewrite find_key_None in Hnone by (by eapply (wf_rights _ Hw)).
    by apply Hnone. }
  set (x1 := with_rights (insert_key (rkey d') r (ipcp_rights x0)) x0).
  assert (port_store d' = <[p := x1]> (port_store d)) as Hst by done.
  assert (portv d' p = x1) as Hpv by (unfold portv; rewrite Hst; by rewrite lookup_insert_eq).
  assert (∀ q, q ≠ p → portv d' q = portv d q) as Hpo
    by (intros q Hq; unfold portv; rewrite Hst; by rewrite lookup_insert_ne).
  assert (∀ q, pkey d' q = pkey d q) as Hpk.
  { intros q. unfold pkey. destruct (decide (q = p)) as [->|]; [by rewrite Hpv|by rewrite Hpo]. }
  assert (∀ q, is_Some (port_store d' !! q) ↔ is_Some (port_store d !! q)) as Hsome.
  { intros q. rewrite Hst, lookup_insert_is_Some'. split; [intros [<-|?]; done|by right]. }
  assert (∀ q y, port_store d' !! q = Some y → ∃ y0, port_store d !! q = Some y0 ∧
    ipcp_msgs y = ipcp_msgs y0 ∧ ipcp_port y = ipcp_port y0 ∧
    (∀ r', r' ∈ elements (ipcp_rights y) → r' ∈ elements (ipcp_rights y0) ∨ r' = r ∧ q = p)) as Hold.
  { intros q y. rewrite Hst. intros [[<- <-]|[Hq Hy]]%lookup_insert_Some.
    - exists x0. split_and!; try done. intros r' [->|?]%elem_of_insert; auto.
    - exists y. auto. }
  split; try done.
  - destruct Hw. split.
    + eapply bst_ext; [|exact wf_tree0]. intros. by rewrite Hpk.
    + intros q Hq. apply Hsome. by apply wf_in0.
    + intros q Hq. rewrite Hpk. by apply wf_number0.
    + done.
    + intros q y. rewrite Hst. intros [[<- <-]|[Hq Hy]]%lookup_insert_Some.
      * by apply bst_insert.
      * eapply bst_ext; [|by eapply wf_rights0]. intros r' Hr'. unfold rkey.
        by rewrite Hv by (by eapply Hne).
    + intros q y r' Hy Hr'. destruct (Hold q y Hy) as (y0&Hy0&_&_&Hin).
      destruct (decide (r' = r)) as [->|Hr'n].
      * split; [apply lookup_insert_is_Some'; by left|]. unfold rkey. rewrite Hvr.
        apply lookup_insert_is_Some'. by left.
      * destruct (Hin r' Hr') as [Hr0|[? _]]; [|done].
        destruct (wf_right_in0 q y0 r' Hy0 Hr0) as [Hs Ht]. unfold rkey. rewrite Hv by done.
        split; apply lookup_insert_is_Some'; by right.
    + intros q y q' y' r' Hy Hy' Hr' Hr''.
      destruct (Hold q y Hy) as (y0&Hy0&_&_&Hin), (Hold q' y' Hy') as (y0'&Hy0'&_&_&Hin').
      destruct (Hin r' Hr') as [Hr0|[Er Eq]], (Hin' r' Hr'') as [Hr0'|[Er' Eq']];
        subst; try done.
      * by eapply wf_right_own0.
      * by destruct (Hne q y0 r Hy0 Hr0).
      * by destruct (Hne q' y0' r Hy0' Hr0').
    + intros q y Hy. destruct (Hold q y Hy) as (y0&Hy0&->&_). by eapply wf_msg_nodup0.
    + intros q y m Hy. destruct (Hold q y Hy) as (y0&Hy0&->&->&_). intros Hm.
      destruct (wf_msg_in0 q y0 m Hy0 Hm) as (?&?&Hsrc). split_and!; [done..|].
      intros Hright. specialize (Hsrc Hright). by rewrite (port_at_ext d d').
    + intros q y q' y' m Hy Hy'.
      destruct (Hold q y Hy) as (y0&Hy0&->&_), (Hold q' y' Hy') as (y0'&Hy0'&->&_).
      by eapply wf_msg_own0.
    + destruct wf_port_pool0 as [Hi Hl]. split; [done|]. intros q Hq. apply Hl. by apply Hsome.
    + destruct wf_right_pool0 as [Hi Hl]. split; [done|]. intros r' Hr'. simpl in *.
      apply Hlive. apply lookup_insert_is_Some' in Hr' as [<-|Hr']; [by right|left; by apply Hl].
    + done.
  - intros t'. simpl. destruct (decide (t' = t)) as [->|Hnt].
    + by rewrite lookup_insert_eq, Htk.
    + by rewrite lookup_insert_ne.
  - unfold at_port, aport_of. rewrite Hpv. unfold set_right. simpl. f_equal.
    rewrite tree_map_insert by done. unfold rkey at 1. rewrite Hvr. simpl. f_equal.
    apply tree_map_ext. intros r' Hr'. split; [by apply Hk0|].
    by rewrite Hv by (by eapply Hne).
  - intros q Hqp Hq. unfold at_port, aport_of. rewrite Hpo by done. f_equal. apply tree_map_ext.
    intros r' Hr'. assert (r' ≠ r) as Hn by (eapply Hne; [by apply portv_in|exact Hr']).
    unfold rkey. by rewrite Hv.
Qed.

(** * The operations on rights *)

(** Why an operation may stop: a pool has no page left. *)
Definition alloc_stop (w : stop) : Prop := ∃ o : Ob, op_inv o ∧ op_alloc o = Stop w.

Lemma get_port_eq d p : is_Some (port_store d !! p) → get_port p d = Done (portv d p) d.
Proof. intros Hp. unfold get_port, bind, get. by rewrite (portv_in d p Hp). Qed.
Lemma get_right_eq d r : is_Some (right_store d !! r) → get_right r d = Done (rightv d r) d.
Proof. intros Hr. unfold get_right, bind, get. by rewrite (rightv_in d r Hr). Qed.

Lemma right_lookup_eq d p t :
  is_Some (port_store d !! p) → ipc_port_right_lookup p t d = Done (right_at d p t) d.
Proof. intros Hp. unfold ipc_port_right_lookup, bind. by rewrite get_port_eq. Qed.

(** What [right_at] finds is a record of the store. *)
Lemma right_at_in d p t r :
  wf d → is_Some (port_store d !! p) → right_at d p t = Some r →
  is_Some (right_store d !! r) ∧ r ∈ elements (ipcp_rights (portv d p)) ∧ rkey d r = t.
Proof.
  intros Hw Hp [Hr Hk]%right_at_Some; [|done..]. split; [|done].
  by apply (wf_right_in _ Hw p _ r (portv_in d p Hp)).
Qed.

Lemma a_right_at d p t :
  wf d → is_Some (port_store d !! p) →
  a_right t (at_port d p) = match right_at d p t with Some r => ipcpr_right (rightv d r) | None => 0 end.
Proof.
  intros Hw Hp. unfold a_right. rewrite a_rights_lookup by done. by destruct (right_at d p t).
Qed.

Lemma check_receive_eq d p t :
  wf d → is_Some (port_store d !! p) →
  ipc_port_right_check p t IPC_PORT_RIGHT_RECEIVE d = Done (may_receive t (at_port d p)) d.
Proof.
  intros Hw Hp. unfold may_receive. rewrite a_right_at by done.
  unfold ipc_port_right_check. cbn [flag_set]. change (flag_set IPC_PORT_RIGHT_RECEIVE _) with false.
  unfold bind at 1. rewrite right_lookup_eq by done.
  destruct (right_at d p t) as [r|] eqn:Hr; [|done].
  destruct (right_at_in d p t r Hw Hp Hr) as (Hs&_). unfold bind. rewrite get_right_eq by done.
  destruct (flag_set _ _); done.
Qed.

Lemma check_send_ok d p t :
  wf d → is_Some (port_store d !! p) →
  match use_send t (at_port d p) with
  | Some a' => ∃ d', ipc_port_right_check p t IPC_PORT_RIGHT_SEND d = Done true d' ∧
                 port_update p a' d d'
  | None => ipc_port_right_check p t IPC_PORT_RIGHT_SEND d = Done false d
  end.
Proof.
  intros Hw Hp. unfold use_send. rewrite a_right_at by done.
  unfold ipc_port_right_check. change (flag_set IPC_PORT_RIGHT_SEND _) with false.
  assert (∀ A (k : option Z → M ipc_data A),
    bind (ipc_port_right_lookup p t) k d = k (right_at d p t) d) as Hlk.
  { intros A k. unfold bind. by rewrite right_lookup_eq. }
  destruct (right_at d p t) as [r|] eqn:Hr; [|by rewrite Hlk].
  destruct (right_at_in d p t r Hw Hp Hr) as (Hs&Hin&Hk).
  assert (∀ A (k : ipc_port_right → M ipc_data A), bind (get_right r) k d = k (rightv d r) d) as Hget.
  { intros A k. unfold bind. by rewrite get_right_eq. }
  set (v := ipcpr_right (rightv d r)).
  destruct (flag_set v IPC_PORT_RIGHT_RECEIVE) eqn:Hrecv; simpl.
  { exists d. rewrite Hlk, Hget. fold v. rewrite Hrecv. split; [done|by apply pu_refl]. }
  destruct (flag_set v IPC_PORT_RIGHT_SEND) eqn:Hsend; simpl.
  { exists d. rewrite Hlk, Hget. fold v. rewrite Hrecv, Hsend. split; [done|by apply pu_refl]. }
  destruct (flag_set v IPC_PORT_RIGHT_SEND_ONCE) eqn:Honce; simpl.
  - eexists. rewrite Hlk, Hget. fold v. rewrite Hrecv, Hsend, Honce. split; [reflexivity|].
    rewrite <-Hk. by apply write_right_update.
  - rewrite Hlk, Hget. fold v. by rewrite Hrecv, Hsend, Honce.
Qed.

Lemma right_insert_ok d p t right :
  wf d → is_Some (port_store d !! p) → is_Some (tasks d !! t) →
  wp (ipc_port_right_insert p t right)
    (λ e d', e = Ok tt ∧ port_update p (give t right (at_port d p)) d d' ∧ same_msgs d d' ∧
       same_rights p d d')
    alloc_stop d.
Proof.
  intros Hw Hp [k Hk]. unfold ipc_port_right_insert. rewrite wp_bind. unfold wp at 1.
  rewrite get_port_eq by done. unfold give, public. change (a_flags (at_port d p)) with (ipcp_flags (portv d p)).
  destruct (negb (flag_set right IPC_PORT_RIGHT_RECEIVE) && _).
  { split; [done|]. split; [by apply pu_refl|]. split; [done|]. done. }
  rewrite wp_bind. unfold wp at 1. rewrite right_lookup_eq by done.
  rewrite a_right_at by done.
  destruct (right_at d p t) as [r|] eqn:Hr.
  - destruct (right_at_in d p t r Hw Hp Hr) as (Hs&Hin&Hkey).
    rewrite wp_bind. unfold wp at 1. rewrite get_right_eq by done.
    split; [done|]. split; [rewrite <-Hkey; by apply write_right_update|]. split; [done|].
    intros q Hq Hqs. split; [done|]. intros r' Hr'.
    change (rightv (write_right d r (Z.lor (ipcpr_right (rightv d r)) right)) r' = rightv d r').
    rewrite rightv_write, decide_False; [done|]. intros ->. apply Hq.
    by apply (wf_right_own _ Hw q _ p _ r (portv_in d q Hqs) (portv_in d p Hp)).
  - rewrite wp_bind, wp_zoom. unfold wp at 1.
    destruct (wf_right_pool _ Hw) as [Hi _].
    destruct (op_alloc (ipc_port_right_pool d)) as [r o|w] eqn:Hal; [|by eexists].
    destruct (op_alloc_ok _ _ _ Hi Hal) as (Ho&Hnew&Hlive).
    unfold put_right, put_port, get_task, modify. rewrite !wp_bind. unfold wp at 1.
    rewrite wp_bind. unfold wp at 1, get at 1. rewrite wp_bind. unfold wp at 1.
    rewrite wp_bind. unfold wp at 1, bind at 1, get at 1.
    cbn [tasks set_port_store set_right_store set_right_pool]. rewrite Hk.
    cbn [deref ret]. rewrite wp_bind. unfold wp at 1. split; [done|].
    split; [by apply (add_right_update d p r t right o k)|]. split; [split; [done|]|].
    + intros q. unfold portv. simpl. destruct (decide (q = p)) as [->|].
      * by rewrite lookup_insert_eq.
      * by rewrite lookup_insert_ne.
    + intros q Hq Hqs. unfold portv, rightv. simpl. rewrite lookup_insert_ne by done.
      split; [done|]. intros r' Hr'. rewrite lookup_insert_ne; [done|]. intros <-. apply Hnew.
      apply (wf_right_pool _ Hw). by apply (wf_right_in _ Hw q _ r (portv_in d q Hqs)).
Qed.

Lemma right_remove_ok d p t right :
  wf d → is_Some (port_store d !! p) →
  match drop_right t right (at_port d p) with
  | Some a' => ∃ d', ipc_port_right_remove p t right d = Done (Ok tt) d' ∧ port_update p a' d d'
  | None => ipc_port_right_remove p t right d = Done (Err ERROR_NO_RIGHT) d
  end.
Proof.
  intros Hw Hp. unfold drop_right. rewrite a_rights_lookup by done.
  unfold ipc_port_right_remove. unfold bind. rewrite right_lookup_eq by done.
  destruct (right_at d p t) as [r|] eqn:Hr; simpl; [|done].
  destruct (right_at_in d p t r Hw Hp Hr) as (Hs&Hin&Hkey). rewrite get_right_eq by done.
  eexists. split; [reflexivity|]. rewrite <-Hkey. by apply write_right_update.
Qed.

(** * The queues *)

(** The port [p] with the queue [l], and the messages [ms]. *)
Definition write_msgs d p (l : list Z) (ms : gmap Z ipc_message) (o : Ob) : ipc_data :=
  set_port_store (<[p := with_msgs l (portv d p)]> (port_store d))
    (set_msg_store ms (set_msg_pool o d)).

Definition good_msg d p m : Prop :=
  is_Some (msg_store d !! m) ∧ ipchdr_dst (msgv d m).1 = pkey d p ∧
  (ipchdr_right (msgv d m).1 ≠ IPC_PORT_RIGHT_NONE → is_Some (port_at d (ipchdr_src (msgv d m).1))).

Lemma write_msgs_update d p l ms o :
  let d' := write_msgs d p l ms o in
  wf d → is_Some (port_store d !! p) → NoDup l → (∀ m, m ∈ l → good_msg d' p m) →
  (∀ q y m, q ≠ p → port_store d !! q = Some y → m ∈ ipcp_msgs y →
     m ∉ l ∧ ms !! m = msg_store d !! m) →
  op_inv o → (∀ m, is_Some (ms !! m) → op_live o m) →
  port_update p (set_msgs (msgv d' <$> l) (at_port d p)) d d'.
Proof.
  intros d' Hw Hp Hl Hgood Hother Ho Hlive.
  pose proof (portv_in d p Hp) as Hx0. set (x0 := portv d p) in *.
  set (x1 := with_msgs l x0).
  assert (port_store d' = <[p := x1]> (port_store d)) as Hst by done.
  assert (portv d' p = x1) as Hpv by (unfold portv; rewrite Hst; by rewrite lookup_insert_eq).
  assert (∀ q, q ≠ p → portv d' q = portv d q) as Hpo
    by (intros q Hq; unfold portv; rewrite Hst; by rewrite lookup_insert_ne).
  assert (∀ q, pkey d' q = pkey d q) as Hpk.
  { intros q. unfold pkey. destruct (decide (q = p)) as [->|]; [by rewrite Hpv|by rewrite Hpo]. }
  assert (∀ n, port_at d' n = port_at d n) as Hpa by (intros; by apply port_at_ext).
  assert (∀ q, is_Some (port_store d' !! q) ↔ is_Some (port_store d !! q)) as Hsome.
  { intros q. rewrite Hst, lookup_insert_is_Some'. split; [intros [<-|?]; done|by right]. }
  assert (∀ q y, port_store d' !! q = Some y →
    q = p ∧ y = x1 ∨ q ≠ p ∧ port_store d !! q = Some y) as Hold.
  { intros q y. rewrite Hst. intros [[<- <-]|[Hq Hy]]%lookup_insert_Some; auto. }
  assert (∀ q y, port_store d' !! q = Some y → ∃ y0, port_store d !! q = Some y0 ∧
    ipcp_rights y = ipcp_rights y0) as Hr.
  { intros q y [[-> ->]|[? Hy]]%Hold; [by exists x0|by exists y]. }
  assert (∀ q y m, q ≠ p → port_store d !! q = Some y → m ∈ ipcp_msgs y → msgv d' m = msgv d m)
    as Hmv.
  { intros q y m Hq Hy Hm. destruct (Hother q y m Hq Hy Hm) as [_ He]. unfold msgv. simpl.
    by rewrite He. }
  split; try done.
  - destruct Hw. split.
    + eapply bst_ext; [|exact wf_tree0]. intros. by rewrite Hpk.
    + intros q Hq. apply Hsome. by apply wf_in0.
    + intros q Hq. rewrite Hpk. by apply wf_number0.
    + done.
    + intros q y Hy. destruct (Hr q y Hy) as (y0&Hy0&->). by eapply (wf_rights0 q).
    + intros q y r Hy. destruct (Hr q y Hy) as (y0&Hy0&->). by eapply (wf_right_in0 q).
    + intros q y q' y' r Hy Hy'.
      destruct (Hr q y Hy) as (y0&Hy0&->), (Hr q' y' Hy') as (y0'&Hy0'&->).
      by eapply (wf_right_own0 q y0 q' y0').
    + intros q y [[-> ->]|[Hq Hy]]%Hold; [done|by eapply wf_msg_nodup0].
    + intros q y m [[-> ->]|[Hq Hy]]%Hold Hm.
      * destruct (Hgood m Hm) as (?&Hd&?). split; [done|]. rewrite Hpk in Hd. done.
      * destruct (Hother q y m Hq Hy Hm) as [_ He]. rewrite (Hmv q y m Hq Hy Hm), Hpa.
        destruct (wf_msg_in0 q y m Hy Hm) as (?&?&?). split; [|done]. simpl. by rewrite He.
    + intros q y q' y' m [[-> ->]|[Hq Hy]]%Hold [[-> ->]|[Hq' Hy']]%Hold Hm Hm'; try done.
      * by destruct (Hother q' y' m Hq' Hy' Hm') as [? _].
      * by destruct (Hother q y m Hq Hy Hm) as [? _].
      * by eapply (wf_msg_own0 q y q' y' m).
    + destruct wf_port_pool0 as [Hi Hlv]. split; [done|]. intros q Hq. apply Hlv. by apply Hsome.
    + done.
    + done.
  - unfold at_port, aport_of, set_msgs. rewrite Hpv. done.
  - intros q Hqp Hq. unfold at_port, aport_of. rewrite Hpo by done. f_equal.
    apply list_fmap_ext. intros i m Hm%list_elem_of_lookup_2. by apply (Hmv q (portv d q));
      [|apply portv_in|].
Qed.

(** [TAILQ_INSERT_TAIL] of a new message. *)
Lemma enqueue_update d p m h page o :
  wf d → is_Some (port_store d !! p) → ipchdr_dst h = pkey d p →
  (ipchdr_right h ≠ IPC_PORT_RIGHT_NONE → is_Some (port_at d (ipchdr_src h))) →
  op_inv o → ¬ op_live (msg_pool d) m → (∀ q, op_live o q ↔ op_live (msg_pool d) q ∨ q = m) →
  port_update p (set_msgs (a_msgs (at_port d p) ++ [(h, page)]) (at_port d p)) d
    (write_msgs d p (ipcp_msgs (portv d p) ++ [m]) (<[m := mk_message h page]> (msg_store d)) o).
Proof.
  intros Hw Hp Hd Hs Ho Hnew Hlive.
  assert (msg_store d !! m = None) as Hm.
  { destruct (msg_store d !! m) eqn:E; [|done]. exfalso. apply Hnew.
    apply (wf_msg_pool _ Hw). by eexists. }
  assert (∀ q y, port_store d !! q = Some y → m ∉ ipcp_msgs y) as Hno.
  { intros q y Hy Hin. destruct (wf_msg_in _ Hw q y m Hy Hin) as ([? ?]&_). congruence. }
  set (ms := <[m := mk_message h page]> (msg_store d)).
  set (l := ipcp_msgs (portv d p)). pose proof (portv_in d p Hp) as Hx.
  set (d' := write_msgs d p (l ++ [m]) ms o).
  assert (∀ m', m' ∈ l → m' ≠ m) as Hne by (intros m' Hin ->; by apply (Hno p _ Hx)).
  assert (msgv d' <$> (l ++ [m]) = a_msgs (at_port d p) ++ [(h, page)]) as Hmsgs.
  { rewrite fmap_app. f_equal.
    - apply list_fmap_ext. intros i m' Hi%list_elem_of_lookup_2. unfold msgv. simpl.
      unfold ms. by rewrite lookup_insert_ne by (symmetry; by apply Hne).
    - simpl. unfold msgv. simpl. unfold ms. by rewrite lookup_insert_eq. }
  rewrite <-Hmsgs. apply write_msgs_update; try done.
  - apply NoDup_app. split_and!; [by eapply (wf_msg_nodup _ Hw)| |apply NoDup_singleton].
    intros m' Hin Heq%list_elem_of_singleton. by apply (Hne m').
  - assert (pkey d' p = pkey d p ∧ ∀ n, port_at d' n = port_at d n) as [Hpk Hpa].
    { assert (∀ q, pkey d' q = pkey d q) as Hpk.
      { intros q. unfold pkey, portv at 1. simpl. destruct (decide (q = p)) as [->|].
        - by rewrite lookup_insert_eq.
        - by rewrite lookup_insert_ne. }
      split; [done|]. intros n. by apply port_at_ext. }
    intros m' [Hin|Heq%list_elem_of_singleton]%elem_of_app;
      [change (good_msg d' p m')|subst m'; change (good_msg d' p m)].
    + destruct (wf_msg_in _ Hw p _ m' Hx Hin) as (?&?&?). unfold good_msg.
      assert (msgv d' m' = msgv d m') as ->.
      { unfold msgv. simpl. unfold ms. by rewrite lookup_insert_ne by (symmetry; by apply Hne). }
      rewrite Hpk, Hpa. split; [|done]. apply lookup_insert_is_Some'. by right.
    + unfold good_msg. assert (msgv d' m = (h, page)) as ->
        by (unfold msgv; simpl; unfold ms; by rewrite lookup_insert_eq).
      rewrite Hpk, Hpa. split; [|done]. apply lookup_insert_is_Some'. by left.
  - intros q y m' Hq Hy Hin. assert (m' ≠ m) by (intros ->; by apply (Hno q y)).
    split; [|unfold ms; by rewrite lookup_insert_ne].
    intros [Hin'|Heq%list_elem_of_singleton]%elem_of_app; [|done].
    apply Hq. by apply (wf_msg_own _ Hw q y p _ m' Hy Hx).
  - intros m' Hsome. apply Hlive. apply lookup_insert_is_Some' in Hsome as [<-|Hs']; [by right|].
    left. by apply (wf_msg_pool _ Hw).
Qed.

(** A message that is in no queue, as between [TAILQ_REMOVE] and [free]. *)
Definition off_queue d m : Prop :=
  is_Some (msg_store d !! m) ∧ ∀ p x, port_store d !! p = Some x → m ∉ ipcp_msgs x.

Definition write_queue d p (l : list Z) : ipc_data :=
  set_port_store (<[p := with_msgs l (portv d p)]> (port_store d)) d.

(** [TAILQ_REMOVE] of the first message. *)
Lemma dequeue_update d p m l :
  wf d → is_Some (port_store d !! p) → ipcp_msgs (portv d p) = m :: l →
  port_update p (set_msgs (msgv d <$> l) (at_port d p)) d (write_queue d p l) ∧
  off_queue (write_queue d p l) m.
Proof.
  intros Hw Hp Hm. pose proof (portv_in d p Hp) as Hx.
  pose proof (wf_msg_nodup _ Hw p _ Hx) as Hnd. rewrite Hm in Hnd.
  apply NoDup_cons in Hnd as [Hni Hnd].
  assert (∀ q, pkey (write_queue d p l) q = pkey d q) as Hpk.
  { intros q. unfold pkey, portv at 1. simpl. destruct (decide (q = p)) as [->|].
    - by rewrite lookup_insert_eq.
    - by rewrite lookup_insert_ne. }
  split.
  - apply (write_msgs_update d p l (msg_store d) (msg_pool d)); try done.
    + intros m' Hin. change (good_msg (write_queue d p l) p m').
      destruct (wf_msg_in _ Hw p _ m' Hx) as (?&?&?); [rewrite Hm; by right|].
      unfold good_msg. change (msgv (write_queue d p l) m') with (msgv d m').
      rewrite Hpk, (port_at_ext d) by done. done.
    + intros q y m' Hq Hy Hin. split; [|done]. intros Hin'. apply Hq.
      apply (wf_msg_own _ Hw q y p _ m' Hy Hx Hin). rewrite Hm. by right.
    + apply (wf_msg_pool _ Hw).
    + apply (wf_msg_pool _ Hw).
  - split.
    + apply (wf_msg_in _ Hw p _ m Hx). rewrite Hm. by left.
    + intros q y. simpl. intros [[<- <-]|[Hq Hy]]%lookup_insert_Some; [done|].
      intros Hin. apply Hq. apply (wf_msg_own _ Hw p _ q y m Hx Hy); [|done].
      rewrite Hm. by left.
Qed.

Lemma off_queue_same d d' m p a :
  same_msgs d d' → port_update p a d d' → off_queue d m → off_queue d' m.
Proof.
  intros [Hs Hq] Hu [Hm Ho]. split; [by rewrite Hs|]. intros q x Hx.
  rewrite <-(portv_eq d' q x Hx), Hq. apply (Ho q). apply portv_in, (pu_store _ _ _ _ Hu). by exists x.
Qed.

(** [free] of such a message. *)
Definition drop_msg d m (o : Ob) : ipc_data :=
  set_msg_pool o (set_msg_store (delete m (msg_store d)) d).

Lemma drop_msg_ok d m o :
  wf d → off_queue d m → op_inv o →
  (∀ q, op_live o q ↔ op_live (msg_pool d) q ∧ q ≠ m) →
  wf (drop_msg d m o) ∧ abs (drop_msg d m o) = abs d.
Proof.
  intros Hw [_ Hoff] Ho Hlive.
  assert (∀ p x m', port_store d !! p = Some x → m' ∈ ipcp_msgs x →
    msgv (drop_msg d m o) m' = msgv d m' ∧ is_Some (delete m (msg_store d) !! m')) as Hmv.
  { intros p x m' Hx Hin. assert (m' ≠ m) as Hne by (intros ->; by apply (Hoff p x)).
    unfold msgv. simpl. rewrite lookup_delete_ne by done. split; [done|].
    by apply (wf_msg_in _ Hw p x). }
  split.
  - destruct Hw. split; try done.
    + intros p x m' Hx Hin. destruct (Hmv p x m' Hx Hin) as [-> Hs].
      split; [exact Hs|]. by apply (wf_msg_in0 p x).
    + simpl. split; [done|]. intros m' [Hne Hs]%lookup_delete_is_Some. apply Hlive.
      split; [by apply wf_msg_pool0|done].
  - apply tree_map_ext. intros p Hp. split; [done|]. unfold at_port, aport_of. f_equal.
    apply list_fmap_ext. intros i m' Hin%list_elem_of_lookup_2.
    by apply (Hmv p (portv d p) m'); [apply portv_in, (wf_in _ Hw)|].
Qed.

(** * New ports *)

(** The data with a port record [p] just made by [ipc_port_alloc]. *)
Definition fresh_port d p (o : Ob) : ipc_data :=
  set_port_store (<[p := mk_port IPC_PORT_UNKNOWN IPC_PORT_FLAG_NEW [] Leaf]> (port_store d))
    (set_port_pool o d).

Lemma fresh_port_ok d p o :
  wf d → op_inv o → ¬ op_live (ipc_port_pool d) p →
  (∀ q, op_live o q ↔ op_live (ipc_port_pool d) q ∨ q = p) →
  wf (fresh_port d p o) ∧ abs (fresh_port d p o) = abs d ∧
  (∀ q, is_Some (port_store d !! q) → q ≠ p ∧ at_port (fresh_port d p o) q = at_port d q) ∧
  p ∉ elements (ipc_ports d).
Proof.
  intros Hw Ho Hnew Hlive. set (d' := fresh_port d p o).
  assert (∀ q, is_Some (port_store d !! q) → q ≠ p) as Hne.
  { intros q Hq ->. by apply Hnew, (wf_port_pool _ Hw). }
  assert (∀ q, is_Some (port_store d !! q) → portv d' q = portv d q) as Hpv.
  { intros q Hq. unfold portv. simpl. by rewrite lookup_insert_ne by (symmetry; by apply Hne). }
  assert (∀ q, q ∈ elements (ipc_ports d) → pkey d' q = pkey d q) as Hpk.
  { intros q Hq. unfold pkey. by rewrite Hpv by by apply (wf_in _ Hw). }
  assert (∀ n, port_at d' n = port_at d n) as Hpa.
  { intros n. unfold port_at, find_key. apply bt_find_ext. intros q Hq. by rewrite Hpk. }
  assert (∀ q y, port_store d' !! q = Some y →
    y = mk_port IPC_PORT_UNKNOWN IPC_PORT_FLAG_NEW [] Leaf ∨ port_store d !! q = Some y) as Hold.
  { intros q y. unfold d'. simpl. intros [[<- <-]|[_ Hy]]%lookup_insert_Some; auto. }
  split; [|split; [|split]].
  - destruct Hw. split.
    + eapply bst_ext; [|exact wf_tree0]. intros. by rewrite Hpk.
    + intros q Hq. apply lookup_insert_is_Some'. right. by apply wf_in0.
    + intros q Hq. rewrite Hpk by done. by apply wf_number0.
    + done.
    + intros q y [->|Hy]%Hold; [apply SSorted_nil|by eapply (wf_rights0 q)].
    + intros q y r [->|Hy]%Hold; [intros Hr; by apply elem_of_nil in Hr|by eapply (wf_right_in0 q)].
    + intros q y q' y' r [->|Hy]%Hold [->|Hy']%Hold; try (intros ? Hr; by apply elem_of_nil in Hr).
      * intros Hr. by apply elem_of_nil in Hr.
      * by eapply (wf_right_own0 q y q' y').
    + intros q y [->|Hy]%Hold; [apply NoDup_nil_2|by eapply (wf_msg_nodup0 q)].
    + intros q y m [->|Hy]%Hold Hm; [by apply elem_of_nil in Hm|].
      rewrite Hpa. by apply (wf_msg_in0 q y m).
    + intros q y q' y' m [->|Hy]%Hold [->|Hy']%Hold Hm Hm';
        try (by apply elem_of_nil in Hm); try (by apply elem_of_nil in Hm').
      by eapply (wf_msg_own0 q y q' y').
    + split; [done|]. intros q Hq. simpl in *. apply Hlive.
      apply lookup_insert_is_Some' in Hq as [<-|Hq]; [by right|]. left. by apply wf_port_pool0.
    + done.
    + done.
  - apply tree_map_ext. intros q Hq. split; [by apply Hpk|]. unfold at_port.
    by rewrite Hpv by by apply (wf_in _ Hw).
  - intros q Hq. split; [by apply Hne|]. unfold at_port. by rewrite Hpv.
  - intros Hp. apply (Hne p); [by apply (wf_in _ Hw)|done].
Qed.

(** The data after [ipc_port_register]. *)
Definition numbered d p n f : ipc_data :=
  set_port_store (<[p := mk_port n f (ipcp_msgs (portv d p)) (ipcp_rights (portv d p))]>
    (port_store d)) d.
Definition registered d p n f f' : ipc_data :=
  set_ports (insert_key (pkey (numbered d p n f)) p (ipc_ports d)) (numbered d p n f').

Lemma registered_ok d p n f f' :
  wf d → is_Some (port_store d !! p) → p ∉ elements (ipc_ports d) →
  ipcp_msgs (portv d p) = [] → port_at d n = None → 0 < n < 2 ^ 32 →
  wf (registered d p n f f') ∧
  abs (registered d p n f f') = <[n := mk_aport f' (a_rights (at_port d p)) []]> (abs d).
Proof.
  intros Hw Hp Hni Hm Hfree Hn. pose proof (portv_in d p Hp) as Hx. set (x := portv d p) in *.
  set (d' := registered d p n f f'). set (x' := mk_port n f' (ipcp_msgs x) (ipcp_rights x)).
  assert (∀ g, pkey (numbered d p n g) p = n) as Hkn.
  { intros g. unfold pkey, portv. simpl. by rewrite lookup_insert_eq. }
  assert (∀ g q, q ≠ p → pkey (numbered d p n g) q = pkey d q) as Hkq.
  { intros g q Hq. unfold pkey, portv. simpl. by rewrite lookup_insert_ne. }
  assert (∀ q, pkey d' q = pkey (numbered d p n f) q) as Hk.
  { intros q. change (pkey d' q) with (pkey (numbered d p n f') q).
    destruct (decide (q = p)) as [->|]; [by rewrite !Hkn|by rewrite !Hkq]. }
  assert (∀ q, q ∈ elements (ipc_ports d) → q ≠ p) as Hne by (by intros q Hq ->).
  assert (bst (pkey (numbered d p n f)) (ipc_ports d)) as Hb0.
  { eapply bst_ext; [|apply Hw]. intros q Hq. by rewrite Hkq by by apply Hne. }
  assert (∀ q, q ∈ elements (ipc_ports d) →
    pkey (numbered d p n f) q ≠ pkey (numbered d p n f) p) as Hfresh.
  { intros q Hq. rewrite Hkn, Hkq by by apply Hne. unfold port_at in Hfree.
    rewrite find_key_None in Hfree by apply Hw. by apply Hfree. }
  pose proof (bst_insert _ p (ipc_ports d) Hb0 Hfresh) as Hb.
  assert (∀ k, is_Some (port_at d k) → is_Some (port_at d' k)) as Hpa.
  { intros k [q Hq]. apply port_at_Some in Hq as [Hq <-]; [|done]. exists q.
    apply find_key_Some; [eapply bst_ext; [|exact Hb]; intros; by rewrite Hk|].
    split; [apply elem_of_insert; by right|]. rewrite Hk. by rewrite Hkq by by apply Hne. }
  assert (∀ q y, port_store d' !! q = Some y → ∃ y0, port_store d !! q = Some y0 ∧
    ipcp_msgs y = ipcp_msgs y0 ∧ ipcp_rights y = ipcp_rights y0 ∧ (q ≠ p → y = y0)) as Hold.
  { intros q y. simpl. intros [[<- <-]|[Hq Hy]]%lookup_insert_Some.
    - by exists x.
    - by exists y. }
  split.
  - destruct Hw. split.
    + eapply bst_ext; [|exact Hb]. intros. by rewrite Hk.
    + intros q. simpl. intros [->|Hq]%elem_of_insert; apply lookup_insert_is_Some';
        [by left|right; by apply wf_in0].
    + intros q. simpl. intros [->|Hq]%elem_of_insert; rewrite Hk; [by rewrite Hkn|].
      rewrite Hkq by by apply Hne. by apply wf_number0.
    + done.
    + intros q y Hy. destruct (Hold q y Hy) as (y0&Hy0&_&->&_). by eapply (wf_rights0 q).
    + intros q y r Hy. destruct (Hold q y Hy) as (y0&Hy0&_&->&_). by eapply (wf_right_in0 q).
    + intros q y q' y' r Hy Hy'.
      destruct (Hold q y Hy) as (y0&Hy0&_&->&_), (Hold q' y' Hy') as (y0'&Hy0'&_&->&_).
      by eapply (wf_right_own0 q y0 q' y0').
    + intros q y Hy. destruct (Hold q y Hy) as (y0&Hy0&->&_). by eapply (wf_msg_nodup0 q).
    + intros q y m Hy. destruct (Hold q y Hy) as (y0&Hy0&->&_&Hq). intros Hin.
      assert (q ≠ p) as Hqp.
      { intros ->. rewrite Hx in Hy0. injection Hy0 as <-. rewrite Hm in Hin.
        by apply elem_of_nil in Hin. }
      rewrite (Hq Hqp). destruct (wf_msg_in0 q y0 m Hy0 Hin) as (?&?&Hs).
      split_and!; [done..|]. intros Hr. by apply Hpa, Hs.
    + intros q y q' y' m Hy Hy'.
      destruct (Hold q y Hy) as (y0&Hy0&->&_), (Hold q' y' Hy') as (y0'&Hy0'&->&_).
      by eapply (wf_msg_own0 q y0 q' y0').
    + destruct wf_port_pool0 as [Hi Hl]. split; [done|]. intros q [y Hy].
      destruct (Hold q y Hy) as (y0&Hy0&_). apply Hl. by exists y0.
    + done.
    + done.
  - unfold abs. simpl. rewrite (tree_map_ext (pkey d') (pkey (numbered d p n f)) _ (at_port d')) by
      (intros; split; [apply Hk|done]).
    rewrite tree_map_insert by done. rewrite Hkn. f_equal.
    + unfold at_port, aport_of, portv. simpl. rewrite lookup_insert_eq. simpl. fold x.
      by rewrite Hm.
    + apply tree_map_ext. intros q Hq. rewrite Hkq by by apply Hne. split; [done|].
      unfold at_port, aport_of, portv. simpl. by rewrite lookup_insert_ne by (symmetry; by apply Hne).
Qed.

Lemma set_next_ok d n : 0 ≤ n < 2 ^ 32 → wf d → wf (set_next n d) ∧ abs (set_next n d) = abs d.
Proof. intros Hn Hw. split; [|done]. destruct Hw. by split. Qed.
End data.

(** * Locks *)

Section locks.
Context {Ob V : Type} `{ObjPool Ob} `{TaskMemory V}.
Context (self me : Z) (Hself : self ≠ 0).
Notation ipc := (@ipc Ob V).
Implicit Types (s : ipc) (p n t : Z) (l : list Z).

(** The list of ports is locked if [g]; the ports of [l] are locked, the
    others are not. *)
Record locks (g : bool) l s : Prop := {
  lk_ports : mtx_owner (ipc_ports_lock s) = if g then self else 0;
  lk_dom p : is_Some (port_sync s !! p) ↔ is_Some (port_store (data s) !! p);
  lk_port p y : port_sync s !! p = Some y →
    mtx_owner y.1 = (if bool_decide (p ∈ l) then self else 0) ∧ cv_spinlock y.2 = 0
}.

(** Only locks changed, and threads were made runnable. *)
Definition same s s' : Prop := data s' = data s ∧ memory s' = memory s.

Lemma same_refl s : same s s.
Proof. done. Qed.
Lemma same_trans s1 s2 s3 : same s1 s2 → same s2 s3 → same s1 s3.
Proof. intros [? ?] [? ?]. split; congruence. Qed.

Lemma wp_wake w (Q : unit → ipc → Prop) E s :
  wp (wake w) Q E s ↔
  Q tt (mk_ipc (data s) (ipc_ports_lock s) (port_sync s) (w ++ ipc_woken s) (memory s)).
Proof. done. Qed.

Lemma wp_ports_lock l s (Q : unit → ipc → Prop) E :
  locks false l s → (∀ s', same s s' → locks true l s' → Q tt s') →
  wp (IPC_PORTS_LOCK self) Q E s.
Proof.
  intros [Ho Hd Hp] HQ. unfold IPC_PORTS_LOCK. rewrite wp_zoom. unfold wp.
  rewrite mutex_lock_free by done. apply HQ; [done|]. by split.
Qed.

Lemma wp_ports_unlock l s (Q : unit → ipc → Prop) E :
  locks true l s → (∀ s', same s s' → locks false l s' → Q tt s') →
  wp (IPC_PORTS_UNLOCK self) Q E s.
Proof.
  intros [Ho Hd Hp] HQ. unfold IPC_PORTS_UNLOCK. rewrite wp_bind, wp_zoom. unfold wp at 1.
  destruct (mutex_unlock_held self (ipc_ports_lock s) Hself Ho) as [w ->].
  apply HQ; [done|]. by split.
Qed.

Lemma wp_on_sync {A} p (m : M (mutex * cv) A) y s (Q : A → ipc → Prop) E :
  port_sync s !! p = Some y →
  wp m (λ a y', Q a (set_sync (<[p := y']> (port_sync s)) s)) E y → wp (on_sync p m) Q E s.
Proof.
  intros Hy HQ. unfold on_sync. rewrite !wp_bind, wp_get, wp_bind, Hy. simpl. rewrite wp_ret.
  unfold wp, zoom in *. by destruct (m y).
Qed.

(** Replacing the mutex of a port. *)
Lemma locks_set_sync g l l' s p y y' :
  locks g l s → port_sync s !! p = Some y →
  mtx_owner y'.1 = (if bool_decide (p ∈ l') then self else 0) → cv_spinlock y'.2 = 0 →
  (∀ q, q ≠ p → q ∈ l' ↔ q ∈ l) →
  locks g l' (set_sync (<[p := y']> (port_sync s)) s).
Proof.
  intros [Ho Hd Hp] Hy Hy' Hcv Hl. split; [done| |].
  - intros q. rewrite <-Hd. simpl. rewrite lookup_insert_is_Some'. split; [|by right].
    intros [<-|?]; [by exists y|done].
  - intros q z. simpl. intros [[<- <-]|[Hne Hz]]%lookup_insert_Some; [done|].
    destruct (Hp q z Hz) as [-> ?]. split; [|done].
    by rewrite (bool_decide_ext (q ∈ l) (q ∈ l')) by (symmetry; auto).
Qed.

Lemma locks_sync g l s p :
  locks g l s → is_Some (port_store (data s) !! p) → ∃ y, port_sync s !! p = Some y ∧
    mtx_owner y.1 = (if bool_decide (p ∈ l) then self else 0) ∧ cv_spinlock y.2 = 0.
Proof.
  intros Hl Hp. apply (lk_dom _ _ _ Hl) in Hp as [y Hy]. exists y. split; [done|].
  by apply (lk_port _ _ _ Hl).
Qed.

Lemma wp_port_lock g l p s (Q : unit → ipc → Prop) E :
  locks g l s → is_Some (port_store (data s) !! p) → p ∉ l →
  (∀ s', same s s' → locks g (p :: l) s' → Q tt s') → wp (IPC_PORT_LOCK self p) Q E s.
Proof.
  intros Hl Hp Hni HQ. destruct (locks_sync g l s p Hl Hp) as (y&Hy&Ho&Hcv).
  rewrite bool_decide_false in Ho by done. apply (wp_on_sync _ _ y); [done|].
  rewrite wp_zoom. unfold wp. rewrite mutex_lock_free by done. apply HQ; [done|].
  eapply locks_set_sync; [done..| |done|].
  - by rewrite bool_decide_true by by left.
  - intros q Hq. rewrite elem_of_cons. tauto.
Qed.

Lemma wp_port_unlock g l p s (Q : unit → ipc → Prop) E :
  locks g (p :: l) s → is_Some (port_store (data s) !! p) → p ∉ l →
  (∀ s', same s s' → locks g l s' → Q tt s') → wp (IPC_PORT_UNLOCK self p) Q E s.
Proof.
  intros Hl Hp Hni HQ. destruct (locks_sync g _ s p Hl Hp) as (y&Hy&Ho&Hcv).
  rewrite bool_decide_true in Ho by by left. unfold IPC_PORT_UNLOCK. rewrite wp_bind.
  apply (wp_on_sync _ _ y); [done|]. rewrite wp_zoom. unfold wp at 1.
  destruct (mutex_unlock_held self y.1 Hself Ho) as [w ->]. rewrite wp_wake. apply HQ; [done|].
  enough (locks g l (set_sync (<[p := (Mutex.set_owner 0 y.1, y.2)]> (port_sync s)) s)) as [??]
    by by split.
  eapply locks_set_sync; [done..| |done|].
  - by rewrite bool_decide_false.
  - intros q Hq. rewrite elem_of_cons. tauto.
Qed.

Lemma wp_lookup g l n s (Q : option Z → ipc → Prop) E :
  wf (data s) → locks g l s → (∀ p, port_at (data s) n = Some p → p ∉ l) →
  (port_at (data s) n = None → Q None s) →
  (∀ p s', port_at (data s) n = Some p → is_Some (port_store (data s) !! p) →
     same s s' → locks g (p :: l) s' → Q (Some p) s') →
  wp (ipc_port_lookup self n) Q E s.
Proof.
  intros Hw Hl Hni HN HS. unfold ipc_port_lookup. rewrite wp_bind, wp_get.
  change (bt_find _ _ _) with (port_at (data s) n).
  destruct (port_at (data s) n) as [p|] eqn:Hp; [|by apply HN].
  assert (is_Some (port_store (data s) !! p)) as Hs
    by (eexists; by eapply port_at_in).
  rewrite wp_bind. eapply wp_port_lock; [done|done|by apply Hni|].
  intros s' Hsame Hl'. by apply HS.
Qed.

(** [locked_lookup] in a state without locks. *)
Lemma wp_locked_lookup n s (Q : option Z → ipc → Prop) E :
  wf (data s) → locks false [] s →
  (∀ s', port_at (data s) n = None → same s s' → locks false [] s' → Q None s') →
  (∀ p s', port_at (data s) n = Some p → is_Some (port_store (data s) !! p) →
     same s s' → locks false [p] s' → Q (Some p) s') →
  wp (locked_lookup self n) Q E s.
Proof.
  intros Hw Hl HN HS. unfold locked_lookup. rewrite wp_bind.
  apply (wp_ports_lock [] s); [done|]. intros s1 Hs1 Hl1. pose proof Hs1 as [Hd1 _].
  rewrite wp_bind. apply (wp_lookup true [] n s1); [by rewrite Hd1|done| | |].
  - intros p _ Hp. by apply elem_of_nil in Hp.
  - rewrite Hd1. intros Hn. rewrite wp_bind. eapply wp_ports_unlock; [done|].
    intros s2 Hs2 Hl2. apply HN; [done|by eapply same_trans|done].
  - rewrite Hd1. intros p s2 Hp Hst Hs2 Hl2. rewrite wp_bind. eapply wp_ports_unlock; [done|].
    intros s3 Hs3 Hl3. apply HS; [done|done| |done].
    eapply same_trans; [done|]. by eapply same_trans.
Qed.

Lemma wp_on_data {A} (m : M ipc_data A) (Q : A → ipc → Prop) E s :
  wp m (λ a d', Q a (set_data d' s)) E (data s) → wp (on_data m) Q E s.
Proof. intros Hw. unfold on_data. by rewrite wp_zoom. Qed.

Lemma locks_set_data g l s d' :
  locks g l s → (∀ q, is_Some (port_store d' !! q) ↔ is_Some (port_store (data s) !! q)) →
  locks g l (set_data d' s).
Proof. intros [Ho Hd Hp] Hs. split; [done| |done]. intros p. simpl. by rewrite Hd, Hs. Qed.

(** Between operations. *)
Definition idle s : Prop :=
  wf (data s) ∧ locks false [] s ∧ is_Some (tasks (data s) !! me).

(** [cv_signal] on a locked port. *)
Lemma wp_signal {T} g l p s (k : M ipc T) (Q : T → ipc → Prop) E :
  locks g l s → is_Some (port_store (data s) !! p) → p ∈ l →
  (∀ s', same s s' → locks g l s' → wp k Q E s') →
  wp (bind (on_sync p (bind get (λ y, zoom snd (λ c y, (y.1, c)) (cv_signal self y.1))))
    (λ w, bind (wake w) (λ _, k))) Q E s.
Proof.
  intros Hl Hp Hin HQ. destruct (locks_sync g _ s p Hl Hp) as (y&Hy&Ho&Hcv).
  rewrite bool_decide_true in Ho by done. rewrite wp_bind. apply (wp_on_sync _ _ y); [done|].
  assert (cv_signal self y.1 y.2 =
    Done (sleepq_signal_one (cv_sleepq y.2)) (mk_cv 0 (cv_sleepq y.2))) as Hsig.
  { unfold cv_signal, MUTEX_HELD, CV_LOCK, CV_UNLOCK, bind, get, put, modify, ret.
    rewrite Ho, Z.eqb_refl, (proj2 (Z.eqb_neq self 0)) by done. simpl. by rewrite Hcv. }
  rewrite wp_bind, wp_get, wp_zoom. unfold wp at 1. rewrite Hsig, wp_bind, wp_wake.
  apply HQ; [done|].
  enough (locks g l (set_sync (<[p := (y.1, mk_cv 0 (cv_sleepq y.2))]> (port_sync s)) s)) as [??]
    by by split.
  eapply locks_set_sync; [done..| |done|done].
  by rewrite bool_decide_true.
Qed.
End locks.

(** * Refinement *)

Section refinement.
Context {Ob V : Type} `{ObjPool Ob} `{TaskMemory V}.
Context (self me : Z) (Hself : self ≠ 0).
Notation ipc := (@ipc Ob V).
Notation idle := (idle self me).
Notation locks := (locks self).
Implicit Types (s : ipc) (p n t : Z) (A : aports).

(** The tasks differ only in their lists of rights. *)
Definition same_tasks s s' : Prop :=
  ∀ t, (λ k, (t_flags k, t_vm k, ipct_task_port k)) <$> tasks (data s') !! t =
       (λ k, (t_flags k, t_vm k, ipct_task_port k)) <$> tasks (data s) !! t.

Lemma same_tasks_refl s s' : tasks (data s') = tasks (data s) → same_tasks s s'.
Proof. intros He t. by rewrite He. Qed.
Lemma same_tasks_trans s1 s2 s3 : same_tasks s1 s2 → same_tasks s2 s3 → same_tasks s1 s3.
Proof. intros H1 H2 t. by rewrite H2, H1. Qed.
Lemma same_tasks_in s s' t :
  same_tasks s s' → is_Some (tasks (data s) !! t) → is_Some (tasks (data s') !! t).
Proof.
  intros He Ht. apply fmap_is_Some with (f := λ k, (t_flags k, t_vm k, ipct_task_port k)) in Ht.
  rewrite <-He in Ht. by apply fmap_is_Some in Ht.
Qed.

(** Between idle states, [op] does to the ports what [spec] says, leaves the
    memory system alone, and stops only when a pool has no page. *)
Definition meets {T} (op : M ipc T) (spec : aports → T * aports) s : Prop :=
  wp op (λ r s', idle s' ∧ memory s' = memory s ∧ same_tasks s s' ∧
    spec (abs (data s)) = (r, abs (data s')))
    alloc_stop s.

Lemma idle_same s s' : idle s → same s s' → locks false [] s' → idle s'.
Proof. intros (Hw&_&Ht) [Hd _] Hl. split; [by rewrite Hd|]. split; [done|by rewrite Hd].
Qed.

(** After an update of one port. *)
Lemma idle_update p a s s' :
  idle s → port_update p a (data s) (data s') → locks false [] s' → idle s'.
Proof.
  intros (Hw&_&Ht) Hu Hl. split; [apply Hu|]. split; [done|]. by eapply pu_tasks_in.
Qed.

Lemma port_abs s n p :
  wf (data s) → port_at (data s) n = Some p → abs (data s) !! n = Some (at_port (data s) p).
Proof. intros Hw Hp. by rewrite abs_lookup, Hp. Qed.
Lemma port_abs_None s n : wf (data s) → port_at (data s) n = None → abs (data s) !! n = None.
Proof. intros Hw Hp. by rewrite abs_lookup, Hp. Qed.

(** [abs] after an update of the port with number [n]. *)
Lemma update_abs s d' n p a :
  wf (data s) → port_at (data s) n = Some p → port_update p a (data s) d' →
  abs d' = <[n := a]> (abs (data s)).
Proof.
  intros Hw Hp Hu. apply port_at_Some in Hp as [Hin <-]; [|done]. by apply pu_abs.
Qed.

Lemma locked_data s1 s d' p a l :
  same s s1 → locks false l s1 → port_update p a (data s) d' → locks false l (set_data d' s1).
Proof.
  intros [Hd _] Hl Hu. apply locks_set_data; [done|]. intros q. rewrite Hd. apply Hu.
Qed.

(** What [meets] asks of the final state. *)
Definition outcome_ok {T} (spec : aports → T * aports) s (r : T) (s' : ipc) : Prop :=
  idle s' ∧ memory s' = memory s ∧ same_tasks s s' ∧ spec (abs (data s)) = (r, abs (data s')).

Lemma return_same {T} (spec : aports → T * aports) s s1 r :
  idle s → same s s1 → locks false [] s1 → spec (abs (data s)) = (r, abs (data s)) →
  outcome_ok spec s r s1.
Proof.
  intros Hi [Hd Hm] Hl Hspec. split; [by eapply idle_same|]. split; [done|].
  split; [apply same_tasks_refl|]; by rewrite Hd.
Qed.

Lemma unlock_same {T} (spec : aports → T * aports) s s1 p r :
  idle s → same s s1 → locks false [p] s1 → is_Some (port_store (data s) !! p) →
  spec (abs (data s)) = (r, abs (data s)) →
  wp (bind (IPC_PORT_UNLOCK self p) (λ _, ret r)) (outcome_ok spec s) alloc_stop s1.
Proof.
  intros Hi Hs Hl Hp Hspec. rewrite wp_bind.
  apply (wp_port_unlock self Hself false [] p); [done|by rewrite (proj1 Hs)|apply not_elem_of_nil|].
  intros s2 Hs2 Hl2. rewrite wp_ret. apply return_same; [done| |done|done]. by eapply same_trans.
Qed.

Lemma unlock_updated {T} (spec : aports → T * aports) s s1 d' n p a r :
  idle s → same s s1 → locks false [p] s1 → port_at (data s) n = Some p →
  port_update p a (data s) d' → spec (abs (data s)) = (r, <[n := a]> (abs (data s))) →
  wp (bind (IPC_PORT_UNLOCK self p) (λ _, ret r)) (outcome_ok spec s) alloc_stop (set_data d' s1).
Proof.
  intros Hi Hs Hl Hn Hu Hspec. pose proof Hi as (Hw&_&_). rewrite wp_bind.
  apply (wp_port_unlock self Hself false [] p); [by eapply locked_data| |apply not_elem_of_nil|].
  { apply (pu_store _ _ _ _ Hu). eexists. by eapply port_at_in. }
  intros s2 [Hd2 Hm2] Hl2. rewrite wp_ret. simpl in Hd2, Hm2. split_and!.
  - apply (idle_update p a s); [done|by rewrite Hd2|done].
  - rewrite Hm2. apply Hs.
  - intros t. rewrite Hd2. apply Hu.
  - rewrite Hspec, Hd2. f_equal. symmetry. by eapply update_abs.
Qed.

(** Reading the data. *)
Lemma wp_read {T} (m : M ipc_data T) a (Q : T → ipc → Prop) E s :
  m (data s) = Done a (data s) → Q a s → wp (on_data m) Q E s.
Proof. intros Hm HQ. unfold on_data. rewrite wp_zoom. unfold wp. rewrite Hm. by destruct s. Qed.

Lemma right_drop_meets n right s :
  idle s → meets (ipc_port_right_drop self me n right) (spec_right_drop me n right) s.
Proof.
  intros Hi. pose proof Hi as (Hw&Hl&Ht). unfold meets, ipc_port_right_drop.
  rewrite wp_bind. apply wp_locked_lookup; [done..| |].
  - intros s1 Hn Hs1 Hl1. rewrite wp_ret. apply return_same; [done..|].
    unfold spec_right_drop. by rewrite port_abs_None.
  - intros p s1 Hn Hst Hs1 Hl1. rewrite wp_bind. pose proof (port_abs s n p Hw Hn) as Ha.
    pose proof (right_remove_ok (data s) p me right Hw Hst) as Hr.
    destruct (drop_right me right (at_port (data s) p)) as [a'|] eqn:Hdrop.
    + destruct Hr as (d'&Hr&Hu). apply wp_on_data. rewrite (proj1 Hs1). unfold wp at 1. rewrite Hr.
      eapply unlock_updated; [done..|]. unfold spec_right_drop. by rewrite Ha, Hdrop.
    + eapply wp_read; [by rewrite (proj1 Hs1)|]. apply unlock_same; [done..|].
      unfold spec_right_drop. by rewrite Ha, Hdrop.
Qed.

Lemma right_grant_meets task n right s :
  idle s → is_Some (tasks (data s) !! task) →
  meets (ipc_port_right_grant self me task n right) (spec_right_grant me task n right) s.
Proof.
  intros Hi Htk. pose proof Hi as (Hw&Hl&Ht). unfold meets, ipc_port_right_grant.
  rewrite wp_bind. apply wp_locked_lookup; [done..| |].
  - intros s1 Hn Hs1 Hl1. rewrite wp_ret. apply return_same; [done..|].
    unfold spec_right_grant. by rewrite port_abs_None.
  - intros p s1 Hn Hst Hs1 Hl1. rewrite wp_bind. pose proof (port_abs s n p Hw Hn) as Ha.
    eapply wp_read; [rewrite (proj1 Hs1); by apply check_receive_eq|].
    destruct (may_receive me (at_port (data s) p)) eqn:Hrecv; simpl.
    + rewrite wp_bind. apply wp_on_data. rewrite (proj1 Hs1).
      eapply wp_mono; [by apply right_insert_ok|simpl|done].
      intros r d' (->&Hu&_). eapply unlock_updated; [done..|].
      unfold spec_right_grant. by rewrite Ha, Hrecv.
    + apply unlock_same; [done..|]. unfold spec_right_grant. by rewrite Ha, Hrecv.
Qed.

(** The right check of [ipc_port_send_page] on the destination. *)
Lemma send_check_ok h p s a' :
  wf (data s) → is_Some (port_store (data s) !! p) →
  (if public (at_port (data s) p) || (ipchdr_msg h =? IPC_MSG_NONE) then Some (at_port (data s) p)
   else use_send me (at_port (data s) p)) = a' →
  let check := (if negb (flag_set (ipcp_flags (portv (data s) p)) IPC_PORT_FLAG_PUBLIC) &&
                   negb (ipchdr_msg h =? IPC_MSG_NONE)
                then on_data (ipc_port_right_check p me IPC_PORT_RIGHT_SEND) else ret true) in
  match a' with
  | Some a => ∃ d', check s = Done true (set_data d' s) ∧ port_update p a (data s) d'
  | None => check s = Done false s
  end.
Proof.
  intros Hw Hp <- check. unfold public. change (a_flags (at_port (data s) p)) with (ipcp_flags (portv (data s) p)).
  unfold check. destruct (flag_set _ _); simpl.
  { exists (data s). split; [by destruct s|by apply pu_refl]. }
  destruct (ipchdr_msg h =? IPC_MSG_NONE); simpl.
  { exists (data s). split; [by destruct s|by apply pu_refl]. }
  pose proof (check_send_ok (data s) p me Hw Hp) as Hc. unfold on_data, zoom.
  destruct (use_send me _) as [a|].
  - destruct Hc as (d'&->&Hu). by exists d'.
  - rewrite Hc. by destruct s.
Qed.

(** From the allocation of the message on. *)
Lemma send_enqueue_ok spec n h page s s1 d p a :
  idle s → same s s1 → locks false [p] s1 → port_at (data s) n = Some p → ipchdr_dst h = n →
  is_Some (port_at (data s) (ipchdr_src h)) →
  port_update p a (data s) d →
  spec (abs (data s)) = (Ok tt, <[n := set_msgs (a_msgs a ++ [(h, page)]) a]> (abs (data s))) →
  wp (m <- on_data (zoom msg_pool set_msg_pool op_alloc) ;;
      on_data (modify (λ d, set_msg_store (<[m := mk_message h page]> (msg_store d)) d)) ;;;
      x <- on_data (get_port p) ;;
      on_data (put_port p (with_msgs (ipcp_msgs x ++ [m]) x)) ;;;
      l <- on_sync p (y <- get ;; zoom snd (λ c y, (y.1, c)) (cv_signal self y.1)) ;;
      wake l ;;;
      IPC_PORT_UNLOCK self p ;;;
      ret (Ok tt)) (outcome_ok spec s) alloc_stop (set_data d s1).
Proof.
  intros Hi Hs Hl Hn Hd Hsrc Hu Hspec. pose proof Hi as (Hw&_&_).
  pose proof (pu_wf _ _ _ _ Hu) as Hwd.
  assert (is_Some (port_store (data s) !! p)) as Hp by (eexists; by eapply port_at_in).
  assert (is_Some (port_store d !! p)) as Hpd by by apply (pu_store _ _ _ _ Hu).
  rewrite wp_bind. apply wp_on_data. rewrite wp_zoom. unfold wp at 1. simpl.
  destruct (wf_msg_pool _ Hwd) as [Hpi _].
  destruct (op_alloc (msg_pool d)) as [m o|w] eqn:Hal; [|by eexists].
  destruct (op_alloc_ok _ _ _ Hpi Hal) as (Ho&Hnew&Hlive).
  rewrite wp_bind. apply wp_on_data. rewrite wp_modify, wp_bind. simpl.
  eapply wp_on_data. unfold wp at 1. rewrite get_port_eq by done. simpl.
  rewrite wp_bind. apply wp_on_data. unfold put_port. rewrite wp_modify. simpl.
  match goal with |- wp ?k ?Q ?E _ => change (wp k Q E (set_data
    (write_msgs d p (ipcp_msgs (portv d p) ++ [m]) (<[m := mk_message h page]> (msg_store d)) o) s1))
  end.
  assert (pkey d p = n) as Hk.
  { rewrite (pu_key _ _ _ _ Hu). by apply port_at_Some in Hn as [_ ?]. }
  pose proof (enqueue_update d p m h page o Hwd Hpd ltac:(congruence)
    ltac:(intros _; by rewrite (pu_port_at _ _ _ _ _ Hu)) Ho Hnew Hlive) as Hu2.
  rewrite (pu_port _ _ _ _ Hu) in Hu2.
  assert (port_update p (set_msgs (a_msgs a ++ [(h, page)]) a) (data s)
    (write_msgs d p (ipcp_msgs (portv d p) ++ [m]) (<[m := mk_message h page]> (msg_store d)) o))
    as Hu3 by by eapply pu_trans.
  apply (wp_signal self Hself false [p]); [by eapply locked_data| |by left|].
  { by apply (pu_store _ _ _ _ Hu3). }
  intros s2 Hs2 Hl2. destruct Hs2 as [Hd2 Hm2]. simpl in Hd2, Hm2.
  rewrite wp_bind. apply (wp_port_unlock self Hself false [] p); [done| |apply not_elem_of_nil|].
  { rewrite Hd2. by apply (pu_store _ _ _ _ Hu3). }
  intros s3 [Hd3 Hm3] Hl3. rewrite wp_ret. split_and!.
  - eapply (idle_update p _ s); [done|rewrite Hd3, Hd2; exact Hu3|done].
  - rewrite Hm3, Hm2. apply Hs.
  - intros t. rewrite Hd3, Hd2. apply Hu3.
  - rewrite Hspec, Hd3, Hd2. f_equal. symmetry. by eapply update_abs.
Qed.

Lemma send_page_meets h page s :
  idle s → meets (ipc_port_send_page self me h page) (spec_send me h page) s.
Proof.
  intros Hi. pose proof Hi as (Hw&Hl&Ht). unfold meets, ipc_port_send_page.
  destruct ((ipchdr_msg h =? IPC_MSG_NONE) && negb (page =? 0)) eqn:Hnone.
  { rewrite wp_ret. apply return_same; [done..|]. unfold spec_send. by rewrite Hnone. }
  rewrite wp_bind. apply (wp_ports_lock self Hself [] s); [done|]. intros s1 Hs1 Hl1.
  pose proof (proj1 Hs1) as Hd1.
  rewrite wp_bind. apply (wp_lookup self Hself true [] _ s1); [by rewrite Hd1|done| | |].
  { intros p _. apply not_elem_of_nil. }
  { rewrite Hd1. intros Hn. rewrite wp_bind. eapply wp_ports_unlock; [done|done|].
    intros s2 Hs2 Hl2. rewrite wp_ret. apply return_same; [done| |done|]; [by eapply same_trans|].
    unfold spec_send. by rewrite Hnone, (port_abs_None s). }
  rewrite Hd1. intros p s2 Hn Hp Hs2' Hl2. pose proof (port_abs s _ p Hw Hn) as Ha.
  assert (same s s2) as Hs2 by by eapply same_trans.
  rewrite wp_bind. eapply wp_read; [rewrite (proj1 Hs2); by apply check_receive_eq|].
  destruct (may_receive me (at_port (data s) p)) eqn:Hrecv; simpl.
  2:{ rewrite wp_bind. apply (wp_port_unlock self Hself true [] p); [done|by rewrite (proj1 Hs2)|apply not_elem_of_nil|].
    intros s3 Hs3 Hl3. rewrite wp_bind. eapply wp_ports_unlock; [done|done|].
    intros s4 Hs4 Hl4. rewrite wp_ret.
    apply return_same; [done| |done|]; [eapply same_trans; [done|]; by eapply same_trans|].
    unfold spec_send. by rewrite Hnone, Ha, Hrecv. }
  rewrite wp_bind. apply (wp_port_unlock self Hself true [] p); [done|by rewrite (proj1 Hs2)|apply not_elem_of_nil|].
  intros s3 Hs3' Hl3. assert (same s s3) as Hs3 by by eapply same_trans.
  pose proof (proj1 Hs3) as Hd3.
  rewrite wp_bind. apply (wp_lookup self Hself true [] _ s3); [by rewrite Hd3|done| | |].
  { intros q _. apply not_elem_of_nil. }
  { rewrite Hd3. intros Hn2. rewrite wp_bind. eapply wp_ports_unlock; [done|done|].
    intros s4 Hs4 Hl4. rewrite wp_ret. apply return_same; [done| |done|]; [by eapply same_trans|].
    unfold spec_send. by rewrite Hnone, Ha, Hrecv, (port_abs_None s (ipchdr_dst h)). }
  rewrite Hd3. intros q s4 Hn2 Hq Hs4' Hl4. pose proof (port_abs s _ q Hw Hn2) as Hb.
  rewrite wp_bind. eapply wp_ports_unlock; [done|done|]. intros s5 Hs5' Hl5.
  assert (same s s5) as Hs5 by (eapply same_trans; [done|]; by eapply same_trans).
  pose proof (proj1 Hs5) as Hd5.
  rewrite wp_bind. eapply wp_read; [rewrite Hd5; by apply get_port_eq|].
  pose proof (send_check_ok h q s5) as Hck. rewrite Hd5 in Hck.
  specialize (Hck _ Hw Hq eq_refl). rewrite wp_bind. unfold wp at 1.
  destruct (if public (at_port (data s) q) || (ipchdr_msg h =? IPC_MSG_NONE)
    then Some (at_port (data s) q) else use_send me (at_port (data s) q)) as [a|] eqn:Huse.
  - destruct Hck as (d'&Hck&Hu). rewrite Hck. simpl.
    apply (send_enqueue_ok _ (ipchdr_dst h) h page s s5 d' q a); try done.
    unfold spec_send. by rewrite Hnone, Ha, Hrecv, Hb, Huse.
  - rewrite Hck. simpl. apply unlock_same; [done..|].
    unfold spec_send. by rewrite Hnone, Ha, Hrecv, Hb, Huse.
Qed.

Lemma alter_insert_eq {B} (f : B → B) (i : Z) (x : B) (m : gmap Z B) :
  m !! i = Some x → alter f i m = <[i := f x]> m.
Proof.
  intros Hi. apply map_eq. intros j. destruct (decide (i = j)) as [<-|Hne].
  - by rewrite lookup_alter_eq, lookup_insert_eq, Hi.
  - by rewrite lookup_alter_ne, lookup_insert_ne.
Qed.

(** Inserting the right a message carries; the message stays off the queues. *)
Lemma receive_grant_ok h m s :
  idle s → off_queue (data s) m →
  (ipchdr_right h ≠ IPC_PORT_RIGHT_NONE → is_Some (port_at (data s) (ipchdr_src h))) →
  wp (if negb (ipchdr_right h =? IPC_PORT_RIGHT_NONE) then
        r <- ipc_port_lookup self (ipchdr_src h) ;;
        match r with
        | None => halt (Panic "port disappeared.")
        | Some q =>
            or_panic "grating rights failed"
              (on_data (ipc_port_right_insert q me (ipchdr_right h))) ;;;
            IPC_PORT_UNLOCK self q
        end
      else ret tt)
    (λ _ s', idle s' ∧ memory s' = memory s ∧ off_queue (data s') m ∧
       msg_store (data s') = msg_store (data s) ∧ same_tasks s s' ∧
       abs (data s') = grant me h (abs (data s))) alloc_stop s.
Proof.
  intros Hi Hoff Hsrc. pose proof Hi as (Hw&Hl&Ht). unfold grant.
  destruct (ipchdr_right h =? IPC_PORT_RIGHT_NONE) eqn:Hr; simpl; [by rewrite wp_ret|]. zcmp.
  destruct (Hsrc Hr) as [q0 Hq0].
  rewrite wp_bind. apply (wp_lookup self Hself false [] _ s); [done|done| | |].
  { intros p _. apply not_elem_of_nil. }
  { congruence. }
  intros q s1 Hn Hq Hs1 Hl1. rewrite wp_bind, wp_or_panic. apply wp_on_data. rewrite (proj1 Hs1).
  eapply wp_mono; [by apply right_insert_ok|simpl|done]. intros e d' (->&Hu&Hsm&_). simpl.
  apply (wp_port_unlock self Hself false [] q); [by eapply locked_data| |apply not_elem_of_nil|].
  { by apply (pu_store _ _ _ _ Hu). }
  intros s2 [Hd2 Hm2] Hl2. simpl in Hd2, Hm2. rewrite Hd2. split_and!.
  - eapply (idle_update q _ s); [done|rewrite Hd2; exact Hu|done].
  - rewrite Hm2. apply Hs1.
  - by eapply off_queue_same.
  - apply Hsm.
  - intros t. rewrite Hd2. apply Hu.
  - rewrite (alter_insert_eq _ _ (at_port (data s) q)) by by apply port_abs.
    by eapply update_abs.
Qed.

(** [receive_message]: what [spec_receive] says, with the message off its
    queue and still allocated. *)
Lemma receive_message_ok n s :
  idle s →
  wp (receive_message self me n) (λ r s', idle s' ∧ memory s' = memory s ∧ same_tasks s s' ∧
    match r with
    | Err e => spec_receive me n (abs (data s)) = (Err e, abs (data s'))
    | Ok m => off_queue (data s') m ∧
        spec_receive me n (abs (data s)) = (Ok (msgv (data s') m), abs (data s'))
    end) alloc_stop s.
Proof.
  intros Hi. pose proof Hi as (Hw&Hl&Ht). unfold receive_message.
  assert (∀ e s', outcome_ok (spec_receive me n) s (Err e) s' → data s' = data s → idle s' ∧
    memory s' = memory s ∧ same_tasks s s' ∧
    spec_receive me n (abs (data s)) = (Err e, abs (data s'))) as Herr.
  { intros e s' (?&?&?&?) Hd. by split_and!. }
  rewrite wp_bind. apply wp_locked_lookup; [done..| |].
  { intros s1 Hn Hs1 Hl1. rewrite wp_ret. apply Herr; [|apply Hs1]. apply return_same; [done..|].
    unfold spec_receive. by rewrite port_abs_None. }
  intros p s1 Hn Hp Hs1 Hl1. pose proof (port_abs s n p Hw Hn) as Ha. pose proof (proj1 Hs1) as Hd1.
  assert (∀ e, spec_receive me n (abs (data s)) = (Err e, abs (data s)) →
    wp (IPC_PORT_UNLOCK self p ;;; ret (Err e)) (λ r s', idle s' ∧ memory s' = memory s ∧
      same_tasks s s' ∧
      match r with
      | Err e => spec_receive me n (abs (data s)) = (Err e, abs (data s'))
      | Ok m => off_queue (data s') m ∧
        spec_receive me n (abs (data s)) = (Ok (msgv (data s') m), abs (data s'))
      end) alloc_stop s1) as Hfail.
  { intros e Hspec. rewrite wp_bind.
    apply (wp_port_unlock self Hself false [] p); [done|by rewrite Hd1|apply not_elem_of_nil|].
    intros s2 Hs2 Hl2. rewrite wp_ret.
    assert (same s s2) as Hs by by eapply same_trans.
    apply Herr; [|apply Hs]. by apply return_same. }
  rewrite wp_bind. eapply wp_read; [rewrite Hd1; by apply check_receive_eq|].
  destruct (may_receive me (at_port (data s) p)) eqn:Hrecv; simpl.
  2:{ apply Hfail. unfold spec_receive. by rewrite Ha, Hrecv. }
  rewrite wp_bind. eapply wp_read; [rewrite Hd1; by apply get_port_eq|].
  assert (a_msgs (at_port (data s) p) = msgv (data s) <$> ipcp_msgs (portv (data s) p)) as Hq by done.
  destruct (ipcp_msgs (portv (data s) p)) as [|m rest] eqn:Hmsgs.
  { apply Hfail. unfold spec_receive. by rewrite Ha, Hrecv, Hq. }
  destruct (wf_msg_in _ Hw p _ m (portv_in _ p Hp)) as ([msg Hmsg]&Hdst&Hsrc);
    [rewrite Hmsgs; by left|].
  assert (msgv (data s) m = (ipcmsg_header msg, ipcmsg_page msg)) as Hmv
    by (unfold msgv; by rewrite Hmsg).
  rewrite Hmv in Hdst, Hsrc. simpl in Hdst, Hsrc.
  assert (get_msg m (data s) = Done msg (data s)) as Hget
    by (unfold get_msg, bind, get; by rewrite Hmsg).
  rewrite wp_bind. eapply wp_read; [by rewrite Hd1|]. rewrite wp_bind, wp_assert, Hdst, Z.eqb_refl.
  rewrite wp_bind. apply wp_on_data. unfold put_port. rewrite wp_modify, Hd1.
  destruct (dequeue_update (data s) p m rest Hw Hp Hmsgs) as [Hu Hoff].
  change (set_port_store _ _) with (write_queue (data s) p rest). rewrite wp_bind.
  apply (wp_port_unlock self Hself false [] p); [by eapply locked_data| |apply not_elem_of_nil|].
  { by apply (pu_store _ _ _ _ Hu). }
  intros s2 [Hd2 Hm2] Hl2. simpl in Hd2, Hm2. rewrite wp_bind.
  eapply wp_mono; [apply (receive_grant_ok (ipcmsg_header msg) m s2)| |done].
  - eapply (idle_update p _ s); [done|rewrite Hd2; exact Hu|done].
  - by rewrite Hd2.
  - rewrite Hd2, (pu_port_at _ _ _ _ _ Hu). exact Hsrc.
  - intros [] s3 (Hi3&Hm3&Ho3&Hst3&Htk3&Ha3). rewrite wp_ret. split_and!; [done| | |done|].
    + rewrite Hm3, Hm2. apply Hs1.
    + intros t. rewrite (Htk3 t), Hd2. apply Hu.
    + unfold spec_receive. rewrite Ha, Hrecv, Hq. simpl. rewrite Hmv.
      assert (msgv (data s3) m = (ipcmsg_header msg, ipcmsg_page msg)) as ->.
      { unfold msgv. rewrite Hst3, Hd2. simpl. by rewrite Hmsg. }
      rewrite Ha3, Hd2. do 2 f_equal. symmetry. by eapply update_abs.
Qed.

(** * Receiving a page *)

(** What becomes of the page of a message; [None] is the failure of
    [page_map], after which [ipc_port_receive] reads the message it has
    freed. *)
Definition deliver (flags vm page : Z) (want : bool) : M V (option (result Z)) :=
  if page =? 0 then ret (Some (Ok 0))
  else if negb want then tm_page_release page ;;; ret (Some (Ok 0))
  else if negb (flag_set flags TASK_KERNEL) then
    r <- tm_vm_alloc_address vm 1 false ;;
    match r with
    | Err e => tm_page_release page ;;; ret (Some (Err e))
    | Ok vaddr =>
        error <- tm_page_map vm vaddr page ;;
        match error with
        | Ok _ => ret (Some (Ok vaddr))
        | Err e =>
            or_panic "vm_free_address failed" (tm_vm_free_address vm vaddr) ;;;
            tm_page_release page ;;;
            ret None
        end
    end
  else
    r <- tm_page_map_direct page ;;
    match r with
    | Err e => tm_page_release page ;;; ret (Some (Err e))
    | Ok vaddr => ret (Some (Ok vaddr))
    end.

Lemma free_msg_ok m s (Q : unit → ipc → Prop) E :
  idle s → off_queue (data s) m →
  (∀ s', idle s' → memory s' = memory s → same_tasks s s' → abs (data s') = abs (data s) →
     msg_store (data s') = delete m (msg_store (data s)) → Q tt s') →
  wp (free_msg m) Q E s.
Proof.
  intros (Hw&Hl&Ht) Hoff HQ. unfold free_msg. rewrite wp_bind. apply wp_on_data.
  rewrite wp_modify. apply wp_on_data. rewrite wp_zoom. unfold wp. simpl.
  destruct (wf_msg_pool _ Hw) as [Hi Hlive].
  destruct (op_free_ok (msg_pool (data s)) m Hi (Hlive m (proj1 Hoff))) as (o&->&Ho&Hol).
  destruct (drop_msg_ok (data s) m o Hw Hoff Ho Hol) as [Hw' Ha'].
  apply HQ; [|done|done|exact Ha'|done]. split; [exact Hw'|]. split; [|done].
  destruct Hl as [??]. by split.
Qed.

Lemma get_msg_wp m x s (Q : ipc_message → ipc → Prop) E :
  msg_store (data s) !! m = Some x → Q x s → wp (on_data (get_msg m)) Q E s.
Proof. intros Hm HQ. eapply wp_read; [|exact HQ]. unfold get_msg, bind, get. by rewrite Hm. Qed.

(** A step of the memory system. *)
Lemma idle_memory s v : idle s → idle (set_memory v s).
Proof. intros (Hw&[??]&Ht). split; [done|]. by split. Qed.

Lemma wp_on_memory {T} (m : M V T) (Q : T → ipc → Prop) E s :
  wp m (λ a v, Q a (set_memory v s)) E (memory s) → wp (on_memory m) Q E s.
Proof. intros Hw. unfold on_memory. by rewrite wp_zoom. Qed.

(** The part of [ipc_port_receive] after [receive_message]. *)
Definition receive_rest (m : Z) (want : bool) : M ipc (result (ipc_header * Z)) :=
  msg <- on_data (get_msg m) ;;
  vaddr <-? (if ipcmsg_page msg =? 0 then ret (Ok 0)
             else if negb want then on_memory (tm_page_release (ipcmsg_page msg)) ;;; ret (Ok 0)
             else receive_page me m (ipcmsg_page msg)) ;;
  msg <- on_data (get_msg m) ;;
  free_msg m ;;;
  ret (Ok (ipcmsg_header msg, vaddr)).

Definition with_header (h : ipc_header) (v : result Z) : result (ipc_header * Z) :=
  match v with Ok va => Ok (h, va) | Err e => Err e end.

(** The end of [ipc_port_receive]: the header is read and the message freed. *)
Lemma receive_finish m msg (va : Z) s (Q : result (ipc_header * Z) → ipc → Prop) E :
  idle s → off_queue (data s) m → msg_store (data s) !! m = Some msg →
  (∀ s', idle s' → memory s' = memory s → same_tasks s s' → abs (data s') = abs (data s) →
     Q (Ok (ipcmsg_header msg, va)) s') →
  wp (x <- on_data (get_msg m) ;; free_msg m ;;; ret (Ok (ipcmsg_header x, va))) Q E s.
Proof.
  intros Hi Hoff Hm HQ. rewrite wp_bind. eapply get_msg_wp; [done|]. rewrite wp_bind.
  apply free_msg_ok; [done..|]. intros. rewrite wp_ret. by apply HQ.
Qed.

(** A step of the memory system whose outcome is known. *)
Lemma wp_memory {T} (m : M V T) a v (Q : T → ipc → Prop) E s :
  m (memory s) = Done a v → Q a (set_memory v s) → wp (on_memory m) Q E s.
Proof. intros Hm HQ. apply wp_on_memory. unfold wp. by rewrite Hm. Qed.
Lemma wp_memory_stop {T} (m : M V T) w (Q : T → ipc → Prop) (E : stop → Prop) s :
  m (memory s) = Stop w → E w → wp (on_memory m) Q E s.
Proof. intros Hm HE. apply wp_on_memory. unfold wp. by rewrite Hm. Qed.

Lemma receive_rest_ok m want msg k s :
  idle s → off_queue (data s) m → msg_store (data s) !! m = Some msg →
  tasks (data s) !! me = Some k →
  let o := deliver (t_flags k) (t_vm k) (ipcmsg_page msg) want (memory s) in
  wp (receive_rest m want)
    (λ r s', idle s' ∧ same_tasks s s' ∧ abs (data s') = abs (data s) ∧
       ∃ v, o = Done (Some v) (memory s') ∧ r = with_header (ipcmsg_header msg) v)
    (λ w, o = Stop w ∨ w = Undefined "struct ipc_message" ∧ ∃ v, o = Done None v) s.
Proof.
  intros Hi Hoff Hm Hk o. unfold receive_rest. rewrite wp_bind. eapply get_msg_wp; [done|].
  match goal with |- wp _ ?Q0 ?E0 _ => set (Q := Q0); set (E := E0) end.
  (* the two ways the function comes back *)
  assert (∀ va v, o = Done (Some (Ok va)) v →
    wp (x <- on_data (get_msg m) ;; free_msg m ;;; ret (Ok (ipcmsg_header x, va))) Q E
      (set_memory v s)) as Hok.
  { intros va v Ho. apply (receive_finish m msg); [by apply idle_memory|done..|].
    intros s' Hi' Hm' Ht' Ha'. do 3 (split; [done|]). exists (Ok va).
    rewrite Hm'. done. }
  assert (∀ e v, o = Done (Some (Err e)) v →
    wp (free_msg m) (λ _, wp (ret (Err e : result Z))
      (λ r, match r with Ok va => wp (x <- on_data (get_msg m) ;; free_msg m ;;;
          ret (Ok (ipcmsg_header x, va))) Q E | Err e => Q (Err e) end) E) E
      (set_memory v s)) as Herr.
  { intros e v Ho. apply free_msg_ok; [by apply idle_memory|done|].
    intros s' Hi' Hm' Ht' Ha' _. rewrite wp_ret. do 3 (split; [done|]). exists (Err e).
    rewrite Hm'. done. }
  assert (set_memory (memory s) s = s) as Hs by by destruct s.
  rewrite wp_bind_ok. unfold deliver in o. set (page := ipcmsg_page msg) in *.
  destruct (page =? 0). { rewrite wp_ret. rewrite <-Hs. by apply Hok. }
  destruct want; cbn [negb].
  2:{ rewrite wp_bind. destruct (tm_page_release page (memory s)) as [[] v|w] eqn:E1.
    - eapply wp_memory; [exact E1|]. rewrite wp_ret. apply Hok. unfold o, bind. simpl. by rewrite E1.
    - eapply wp_memory_stop; [exact E1|]. left. unfold o, bind. simpl. by rewrite E1. }
  unfold receive_page. rewrite wp_bind.
  eapply wp_read; [unfold get_task, bind, get; by rewrite Hk|].
  destruct (negb (flag_set (t_flags k) TASK_KERNEL)) eqn:Hf; cbn [negb] in o.
  - rewrite wp_bind. destruct (tm_vm_alloc_address (t_vm k) 1 false (memory s)) as [[va|e] v1|w] eqn:E1.
    + eapply wp_memory; [exact E1|]. rewrite wp_bind.
      destruct (tm_page_map (t_vm k) va page v1) as [[[]|e] v2|w] eqn:E2.
      * eapply wp_memory; [exact E2|]. rewrite wp_bind, !wp_ret. apply Hok. unfold o, bind.
        by rewrite E1, E2.
      * eapply wp_memory; [exact E2|]. rewrite !wp_bind, wp_or_panic.
        destruct (tm_vm_free_address (t_vm k) va v2) as [[[]|e'] v3|w] eqn:E3.
        -- eapply wp_memory; [exact E3|]. rewrite wp_bind.
           destruct (tm_page_release page v3) as [[] v4|w] eqn:E4.
           ++ eapply wp_memory; [exact E4|]. apply free_msg_ok; [by repeat apply idle_memory|done|].
              intros s' Hi' Hm' Ht' Ha' Hst. rewrite wp_ret, wp_bind. apply wp_on_data.
              unfold wp, get_msg, bind, get. rewrite Hst. simpl. rewrite lookup_delete_eq. simpl.
              right. split; [done|]. exists v4. unfold o, or_panic, bind. rewrite E1, E2, E3.
              unfold ret at 1. by rewrite E4.
           ++ eapply wp_memory_stop; [exact E4|]. left. unfold o, or_panic, bind.
              rewrite E1, E2, E3. unfold ret at 1. by rewrite E4.
        -- eapply wp_memory; [exact E3|]. left. unfold o, or_panic, bind. by rewrite E1, E2, E3.
        -- eapply wp_memory_stop; [exact E3|]. left. unfold o, or_panic, bind. by rewrite E1, E2, E3.
      * eapply wp_memory_stop; [exact E2|]. left. unfold o, bind. by rewrite E1, E2.
    + eapply wp_memory; [exact E1|]. rewrite wp_bind.
      destruct (tm_page_release page v1) as [[] v2|w] eqn:E2.
      * eapply wp_memory; [exact E2|]. rewrite wp_bind. apply Herr. unfold o, bind. by rewrite E1, E2.
      * eapply wp_memory_stop; [exact E2|]. left. unfold o, bind. by rewrite E1, E2.
    + eapply wp_memory_stop; [exact E1|]. left. unfold o, bind. by rewrite E1.
  - rewrite wp_bind. destruct (tm_page_map_direct page (memory s)) as [[va|e] v1|w] eqn:E1.
    + eapply wp_memory; [exact E1|]. rewrite wp_ret. apply Hok. unfold o, bind. by rewrite E1.
    + eapply wp_memory; [exact E1|]. rewrite wp_bind.
      destruct (tm_page_release page v1) as [[] v2|w] eqn:E2.
      * eapply wp_memory; [exact E2|]. rewrite wp_bind. apply Herr. unfold o, bind. by rewrite E1, E2.
      * eapply wp_memory_stop; [exact E2|]. left. unfold o, bind. by rewrite E1, E2.
    + eapply wp_memory_stop; [exact E1|]. left. unfold o, bind. by rewrite E1.
Qed.

Lemma receive_ok n want k s :
  idle s → tasks (data s) !! me = Some k →
  wp (ipc_port_receive self me n want)
    (λ r s', idle s' ∧ same_tasks s s' ∧ abs (data s') = (spec_receive me n (abs (data s))).2 ∧
       match (spec_receive me n (abs (data s))).1 with
       | Err e => r = Err e ∧ memory s' = memory s
       | Ok (h, page) => ∃ v,
           deliver (t_flags k) (t_vm k) page want (memory s) = Done (Some v) (memory s') ∧
           r = with_header h v
       end)
    (λ w, alloc_stop w ∨ ∃ h page, (spec_receive me n (abs (data s))).1 = Ok (h, page) ∧
       let o := deliver (t_flags k) (t_vm k) page want (memory s) in
       o = Stop w ∨ w = Undefined "struct ipc_message" ∧ ∃ v, o = Done None v) s.
Proof.
  intros Hi Hk. unfold ipc_port_receive. rewrite wp_bind_ok.
  eapply wp_mono; [by apply receive_message_ok| |by left].
  intros [m|e] s1 (Hi1&Hm1&Ht1&Hr).
  - destruct Hr as [Hoff ->]. simpl. pose proof Hoff as [[msg Hmsg] _].
    assert (msgv (data s1) m = (ipcmsg_header msg, ipcmsg_page msg)) as ->
      by (unfold msgv; by rewrite Hmsg).
    assert (∃ k1, tasks (data s1) !! me = Some k1 ∧ t_flags k1 = t_flags k ∧ t_vm k1 = t_vm k)
      as (k1&Hk1&Hf&Hv).
    { specialize (Ht1 me). rewrite Hk in Ht1. simpl in Ht1.
      destruct (tasks (data s1) !! me) as [k1|]; [|done]. injection Ht1 as ? ?. by exists k1. }
    rewrite <-Hf, <-Hv, <-Hm1.
    eapply wp_mono; [by apply (receive_rest_ok m want msg k1 s1)|simpl|simpl].
    + intros r s2 (Hi2&Ht2&Ha2&v&Ho&Hr). split; [done|]. split; [by eapply same_tasks_trans|].
      split; [done|]. by exists v.
    + intros w Hw. right. exists (ipcmsg_header msg), (ipcmsg_page msg). done.
  - rewrite Hr. simpl. done.
Qed.
(** * The theorems *)

(** C2: [ipc_port_send_page] is [spec_send] on the map of ports: it checks the
    page, the source port and its receive right, the destination and the right
    to send in this order, uses up a send-once right, and puts the message at
    the end of the queue.  It comes back with every lock free and the pages
    untouched, and stops only if the pool of messages cannot grow. *)
Theorem ipc_port_send_page_correct h page s :
  idle s →
  wp (ipc_port_send_page self me h page)
    (λ r s', idle s' ∧ memory s' = memory s ∧ same_tasks s s' ∧
       spec_send me h page (abs (data s)) = (r, abs (data s'))) alloc_stop s.
Proof. intros Hi. by apply send_page_meets. Qed.

(** C12: [ipc_port_receive] is [spec_receive] on the map of ports: it gives the
    first message and the right the message carries, and what [deliver] does
    with the page.  It also shows the one way it goes wrong: when [page_map]
    fails, the message is read after it was freed. *)
Theorem ipc_port_receive_correct n want k s :
  idle s → tasks (data s) !! me = Some k →
  wp (ipc_port_receive self me n want)
    (λ r s', idle s' ∧ same_tasks s s' ∧
       abs (data s') = (spec_receive me n (abs (data s))).2 ∧
       match (spec_receive me n (abs (data s))).1 with
       | Err e => r = Err e ∧ memory s' = memory s
       | Ok (h, page) => ∃ v,
           deliver (t_flags k) (t_vm k) page want (memory s) = Done (Some v) (memory s') ∧
           r = with_header h v
       end)
    (λ w, alloc_stop w ∨ ∃ h page, (spec_receive me n (abs (data s))).1 = Ok (h, page) ∧
       let o := deliver (t_flags k) (t_vm k) page want (memory s) in
       o = Stop w ∨ w = Undefined "struct ipc_message" ∧ ∃ v, o = Done None v) s.
Proof. intros Hi Hk. by apply receive_ok. Qed.
End refinement.
