(* ===== verification/IpcAlloc.v ===== *)
(** Making ports and giving rights to the tasks of another port
    ([mk/ipc/ipc_port.c]): [ipc_port_allocate], [ipc_port_allocate_reserved],
    [ipc_port_right_send], and the operations with a page, refine the abstract
    operations of IpcSpec.v. *)

From S2P Require Import Prelude MachineInt Btree Mutex Pool IpcPort IpcSpec.

Local Open Scope Z_scope.
Local Open Scope c_scope.

Section refinement.
Context {Ob V : Type} `{ObjPool Ob} `{TaskMemory V}.
Context (self me : Z) (Hself : self ≠ 0).
Notation ipc := (@ipc Ob V).
Notation idle := (idle self me).
Notation locks := (locks self).
Notation meets := (meets self me).
Implicit Types (s : ipc) (p n t : Z) (A : aports).

(** * Allocating ports *)

(** A port made by [ipc_port_alloc] that has no number yet. *)
Record unnumbered p s s' : Prop := {
  un_wf : wf (data s');
  un_locks : locks false [] s';
  un_task : is_Some (tasks (data s') !! me);
  un_in : is_Some (port_store (data s') !! p);
  un_out : p ∉ elements (ipc_ports (data s'));
  un_pos : p ≠ 0;
  un_key : pkey (data s') p = IPC_PORT_UNKNOWN;
  un_flags : ipcp_flags (portv (data s') p) = IPC_PORT_FLAG_NEW;
  un_msgs : ipcp_msgs (portv (data s') p) = [];
  un_rights : a_rights (at_port (data s') p) = {[ me := IPC_PORT_RIGHT_RECEIVE ]};
  un_ports : ipc_ports (data s') = ipc_ports (data s);
  un_abs : abs (data s') = abs (data s);
  un_memory : memory s' = memory s;
  un_tasks : same_tasks s s'
}.

Lemma port_alloc_ok s :
  idle s → wp (ipc_port_alloc me) (λ p s', unnumbered p s s') alloc_stop s.
Proof.
  intros (Hw&Hl&Ht). unfold ipc_port_alloc. rewrite wp_bind. apply wp_on_data.
  rewrite wp_zoom. unfold wp at 1. destruct (wf_port_pool _ Hw) as [Hpi Hlv].
  destruct (op_alloc (ipc_port_pool (data s))) as [p o|w] eqn:Hal; [|by eexists].
  destruct (op_alloc_ok _ _ _ Hpi Hal) as (Ho&Hnew&Hlive).
  assert (p ≠ 0) as Hp0.
  { assert (0 < p); [|lia]. apply (op_live_pos o); [done|]. apply Hlive. by right. }
  destruct (fresh_port_ok (data s) p o Hw Ho Hnew Hlive) as (Hwf&Habs&Hat&Hout).
  rewrite wp_bind, wp_modify, wp_bind. apply wp_on_data. unfold put_port. rewrite wp_modify.
  simpl. change (set_port_store _ _) with (fresh_port (data s) p o).
  set (d := fresh_port (data s) p o) in *.
  assert (is_Some (port_store d !! p)) as Hpd by (exists (mk_port IPC_PORT_UNKNOWN IPC_PORT_FLAG_NEW [] Leaf); apply lookup_insert_eq).
  assert (portv d p = mk_port IPC_PORT_UNKNOWN IPC_PORT_FLAG_NEW [] Leaf) as Hpv
    by (apply portv_eq, lookup_insert_eq).
  rewrite wp_bind, wp_or_panic. apply wp_on_data. simpl.
  eapply wp_mono; [by apply right_insert_ok|simpl|done].
  intros r d' (->&Hu&[_ Hms]&_). rewrite wp_ret. split; simpl.
  - apply Hu.
  - split; [apply Hl| |].
    + intros q. simpl. rewrite (pu_store _ _ _ _ Hu). unfold d. simpl.
      by rewrite !lookup_insert_is_Some', (lk_dom _ _ _ _ Hl).
    + intros q y. simpl. intros [[<- <-]|[_ Hy]]%lookup_insert_Some; [done|].
      by eapply (lk_port _ _ _ _ Hl).
  - eapply pu_tasks_in; [exact Hu|done].
  - by apply (pu_store _ _ _ _ Hu).
  - rewrite (pu_tree _ _ _ _ Hu). exact Hout.
  - done.
  - rewrite (pu_key _ _ _ _ Hu). unfold pkey. by rewrite Hpv.
  - change (a_flags (at_port d' p) = IPC_PORT_FLAG_NEW). rewrite (pu_port _ _ _ _ Hu).
    unfold give, at_port. by rewrite Hpv.
  - by rewrite Hms, Hpv.
  - change (a_rights (at_port d' p) = {[ me := IPC_PORT_RIGHT_RECEIVE ]}).
    rewrite (pu_port _ _ _ _ Hu). unfold give, at_port. rewrite Hpv. done.
  - by rewrite (pu_tree _ _ _ _ Hu).
  - rewrite (pu_abs_out _ _ _ _ Hwf Hu) by exact Hout. exact Habs.
  - done.
  - intros t. apply Hu.
Qed.

(** The port is given a number nobody has. *)
Record numbers p n flags A s s' : Prop := {
  nu_wf : wf (data s');
  nu_abs : abs (data s') = <[n := new_port me flags]> A;
  nu_tasks : tasks (data s') = tasks (data s);
  nu_memory : memory s' = memory s
}.

(** [ipc_port_register] of a locked new port, with the list locked. *)
Lemma register_ok p n flags s0 s s1 (Q : unit → ipc → Prop) E :
  unnumbered p s0 s → same s s1 → locks true [p] s1 →
  port_at (data s) n = None → 0 < n < 2 ^ 32 →
  (∀ s2, numbers p n flags (abs (data s0)) s s2 → is_Some (port_store (data s2) !! p) →
     locks true [p] s2 → Q tt s2) →
  wp (or_panic "ipc_port_register failed" (ipc_port_register self p n flags)) Q E s1.
Proof.
  intros Hu [Hd1 Hm1] Hl1 Hfree Hn HQ. pose proof (un_wf _ _ _ Hu) as Hw.
  pose proof (un_in _ _ _ Hu) as Hin. pose proof (portv_in _ _ Hin) as Hx.
  set (d := data s) in *. set (x := portv d p) in *. set (f := ipcp_flags x).
  set (f' := Z.lor (Z.land f (bnot 32 IPC_PORT_FLAG_NEW)) flags).
  assert (f' = flags) as Hf.
  { unfold f', f. change (ipcp_flags x) with (ipcp_flags (portv (data s) p)).
    by rewrite (un_flags _ _ _ Hu). }
  rewrite wp_or_panic. unfold ipc_port_register. rewrite wp_bind.
  apply (wp_lookup self Hself true [p] n s1); [by rewrite Hd1|done| | |].
  { rewrite Hd1, Hfree. done. }
  2:{ rewrite Hd1. congruence. }
  intros _. rewrite wp_bind. eapply wp_read; [rewrite Hd1; by apply get_port_eq|].
  rewrite wp_bind, wp_assert. fold x.
  assert (ipcp_port x =? IPC_PORT_UNKNOWN = true) as -> by (apply Z.eqb_eq; apply (un_key _ _ _ Hu)).
  rewrite wp_bind. apply wp_on_data. unfold put_port. rewrite wp_modify, Hd1.
  change (set_port_store _ (data s)) with (numbered d p n f).
  rewrite wp_bind. apply wp_on_data. rewrite wp_modify. rewrite wp_bind. apply wp_on_data.
  set (T := insert_key (pkey (numbered d p n f)) p (ipc_ports d)).
  assert (get_port p (set_ports T (numbered d p n f)) =
    Done (mk_port n f (ipcp_msgs x) (ipcp_rights x)) (set_ports T (numbered d p n f))) as Hget.
  { unfold get_port, bind, get. simpl. by rewrite lookup_insert_eq. }
  unfold wp at 1.
  change (get_port p _) with (get_port p (set_ports T (numbered d p n f))). rewrite Hget. clear Hget.
  rewrite wp_bind. apply wp_on_data. rewrite wp_modify, wp_ret.
  cbn [ipcp_port ipcp_flags ipcp_msgs ipcp_rights]. fold f'.
  set (y := mk_port n f' (ipcp_msgs x) (ipcp_rights x)).
  assert (set_port_store (<[p := y]> (port_store (numbered d p n f)))
    (set_ports T (numbered d p n f)) = registered d p n f f') as Hreg.
  { unfold registered, set_port_store. simpl. by rewrite insert_insert_eq. }
  match goal with |- Q tt ?st => change (Q tt (set_data (set_port_store
    (<[p := y]> (port_store (numbered d p n f))) (set_ports T (numbered d p n f))) s1)) end.
  rewrite Hreg. clear Hreg.
  destruct (registered_ok d p n f f' Hw Hin (un_out _ _ _ Hu) (un_msgs _ _ _ Hu) Hfree Hn)
    as [Hw2 Ha2].
  assert (is_Some (port_store (registered d p n f f') !! p)) as Hp2
    by (eexists; apply lookup_insert_eq).
  apply HQ; [split|done|].
  - exact Hw2.
  - change (abs (registered d p n f f') = <[n := new_port me flags]> (abs (data s0))).
    rewrite Ha2, Hf. unfold d. by rewrite (un_rights _ _ _ Hu), (un_abs _ _ _ Hu).
  - done.
  - exact Hm1.
  - apply locks_set_data; [done|]. intros q. rewrite Hd1. simpl.
    rewrite lookup_insert_is_Some'. split; [intros [<-|?]; done|by right].
Qed.

(** The number after [n], [IPC_PORT_UNRESERVED_START] after the last. *)
Definition candidate (next : Z) : Z :=
  if next <? IPC_PORT_UNRESERVED_START then IPC_PORT_UNRESERVED_START else next.
Definition after_port (n : Z) : Z := candidate (u32 (n + 1)).
Definition NUNRESERVED : Z := 2 ^ 32 - 3.

Lemma candidate_range n : 0 ≤ n < 2 ^ 32 → 3 ≤ candidate n < 2 ^ 32.
Proof. unfold candidate, IPC_PORT_UNRESERVED_START. case_match; zcmp; lia. Qed.

Lemma after_port_eq n :
  3 ≤ n < 2 ^ 32 → after_port n = 3 + (n - 3 + 1) mod NUNRESERVED.
Proof.
  intros Hn. unfold after_port, candidate, NUNRESERVED, IPC_PORT_UNRESERVED_START, u32, wrap.
  destruct (decide (n = 2 ^ 32 - 1)) as [->|Hne]; [by vm_compute|].
  rewrite !Z.mod_small by lia. case_match; zcmp; lia.
Qed.

Lemma iter_after n i :
  3 ≤ n < 2 ^ 32 → Nat.iter i after_port n = 3 + (n - 3 + Z.of_nat i) mod NUNRESERVED.
Proof.
  intros Hn. assert (0 < NUNRESERVED) by (unfold NUNRESERVED; lia).
  induction i as [|i IH].
  - simpl. rewrite Z.mod_small by (unfold NUNRESERVED; lia). lia.
  - rewrite Nat.iter_succ, IH. pose proof (Z.mod_pos_bound (n - 3 + Z.of_nat i) NUNRESERVED) as Hb.
    rewrite after_port_eq by (unfold NUNRESERVED in *; lia). f_equal.
    replace (3 + (n - 3 + Z.of_nat i) mod NUNRESERVED - 3 + 1)
      with ((n - 3 + Z.of_nat i) mod NUNRESERVED + 1) by lia.
    rewrite Zplus_mod_idemp_l. f_equal. lia.
Qed.

(** Among the first [size A + 1] candidates one is free. *)
Lemma candidate_free (A : gmap Z aport) n :
  3 ≤ n < 2 ^ 32 → Z.of_nat (size A) < NUNRESERVED →
  ∃ i, (i ≤ size A)%nat ∧ A !! Nat.iter i after_port n = None.
Proof.
  intros Hn Hs. set (c := λ i, Nat.iter i after_port n).
  destruct (decide (Forall (λ i, is_Some (A !! c i)) (seq 0 (S (size A))))) as [Hall|Hex].
  - exfalso. rewrite Forall_forall in Hall.
    assert (list_to_set (c <$> seq 0 (S (size A))) ⊆@{gset Z} dom A) as Hsub.
    { intros x Hx. apply elem_of_list_to_set, list_elem_of_fmap in Hx as (i&->&Hi).
      apply elem_of_dom. by apply Hall. }
    apply subseteq_size in Hsub. rewrite size_dom, size_list_to_set in Hsub.
    + rewrite length_fmap, length_seq in Hsub. lia.
    + apply NoDup_fmap_2_strong; [|apply NoDup_seq]. intros i j Hi%elem_of_seq Hj%elem_of_seq.
      unfold c. rewrite !iter_after by done. intros Heq.
      assert (NUNRESERVED > 0) by (unfold NUNRESERVED; lia).
      assert ((n - 3 + Z.of_nat i) mod NUNRESERVED = (n - 3 + Z.of_nat j) mod NUNRESERVED) as Hm by lia.
      clear Heq. revert Hm. generalize dependent NUNRESERVED. intros N HN HN' Hm.
      assert ((Z.of_nat i - Z.of_nat j) mod N = 0) as Hd.
      { replace (Z.of_nat i - Z.of_nat j) with ((n - 3 + Z.of_nat i) - (n - 3 + Z.of_nat j)) by lia.
        by rewrite Zminus_mod, Hm, Z.sub_diag, Zmod_0_l. }
      apply Z.mod_divide in Hd as [k Hk]; [|lia]. assert (k = 0) by nia. lia.
  - apply not_Forall_Exists in Hex; [|apply _]. apply Exists_exists in Hex as (i&Hi&Hni).
    exists i. apply elem_of_seq in Hi. split; [lia|]. by apply eq_None_not_Some.
Qed.

Lemma unnumbered_next p n s0 s :
  unnumbered p s0 s → 0 ≤ n < 2 ^ 32 → unnumbered p s0 (set_data (set_next n (data s)) s).
Proof.
  intros [Hw [] ? ? ? ? ? ? ? ? ? ? ? ?] Hn. split; try done.
  by apply set_next_ok.
Qed.

(** The outcome of [ipc_port_allocate]. *)
Definition allocated flags s (r : result Z) s' : Prop :=
  ∃ n, r = Ok n ∧ IPC_PORT_UNRESERVED_START ≤ n < 2 ^ 32 ∧ abs (data s) !! n = None ∧
    abs (data s') = <[n := new_port me flags]> (abs (data s)) ∧ idle s' ∧ memory s' = memory s ∧
    same_tasks s s'.

(** Registering a number that is free, and unlocking. *)
Lemma register_unlock_ok p n flags s0 s s1 (T : Type) (r : T) (Q : T → ipc → Prop) E :
  unnumbered p s0 s → same s s1 → locks true [] s1 →
  port_at (data s) n = None → 0 < n < 2 ^ 32 →
  (∀ s', abs (data s') = <[n := new_port me flags]> (abs (data s0)) → idle s' →
     memory s' = memory s0 → same_tasks s0 s' → Q r s') →
  wp (IPC_PORT_LOCK self p ;;;
      or_panic "ipc_port_register failed" (ipc_port_register self p n flags) ;;;
      IPC_PORT_UNLOCK self p ;;;
      IPC_PORTS_UNLOCK self ;;;
      ret r) Q E s1.
Proof.
  intros Hu Hs Hl Hfree Hn HQ. rewrite wp_bind.
  apply (wp_port_lock self Hself true [] p); [done|rewrite (proj1 Hs); apply (un_in _ _ _ Hu)|apply not_elem_of_nil|].
  intros s2 Hs2 Hl2. rewrite wp_bind.
  eapply register_ok; [exact Hu|by eapply same_trans|done..|].
  intros s3 [Hw3 Ha3 Ht3 Hm3] Hin3 Hl3. rewrite wp_bind.
  apply (wp_port_unlock self Hself true [] p); [done..|apply not_elem_of_nil|].
  intros s4 [Hd4 Hm4] Hl4. rewrite wp_bind. eapply wp_ports_unlock; [done|done|].
  intros s5 [Hd5 Hm5] Hl5. rewrite wp_ret. apply HQ.
  - by rewrite Hd5, Hd4.
  - split; [by rewrite Hd5, Hd4|]. split; [done|]. rewrite Hd5, Hd4, Ht3. apply Hu.
  - by rewrite Hm5, Hm4, Hm3, (un_memory _ _ _ Hu).
  - eapply same_tasks_trans; [apply (un_tasks _ _ _ Hu)|]. apply same_tasks_refl.
    by rewrite Hd5, Hd4.
Qed.

Lemma allocate_loop_ok p flags s0 fuel : ∀ j s s1,
  unnumbered p s0 s → same s s1 → locks true [] s1 →
  (2 * j + 1 + (if (ipc_port_next (data s) <? IPC_PORT_UNRESERVED_START)%Z then 1 else 0) ≤ fuel)%nat →
  abs (data s0) !! Nat.iter j after_port (candidate (ipc_port_next (data s))) = None →
  wp (allocate_loop self fuel p flags) (allocated flags s0) (λ _, False) s1.
Proof.
  induction fuel as [|fuel IH]; intros j s s1 Hu Hs Hl Hf Hfree; [lia|].
  pose proof (un_wf _ _ _ Hu) as Hw. pose proof (wf_next _ Hw) as Hnx. pose proof (proj1 Hs) as Hd.
  simpl. rewrite wp_bind, wp_get, Hd. unfold candidate in Hfree.
  destruct (ipc_port_next (data s) <? IPC_PORT_UNRESERVED_START) eqn:Hlow.
  - rewrite wp_bind. apply wp_on_data. rewrite wp_modify, Hd.
    apply (IH j (set_data (set_next IPC_PORT_UNRESERVED_START (data s)) s)).
    + by apply unnumbered_next.
    + split; [done|apply Hs].
    + apply locks_set_data; [done|]. intros q. by rewrite Hd.
    + simpl. lia.
    + exact Hfree.
  - apply Z.ltb_ge in Hlow. set (port := ipc_port_next (data s)) in *.
    assert (0 ≤ u32 (port + 1) < 2 ^ 32) as Hu32 by (apply Z.mod_pos_bound; lia).
    rewrite wp_bind. apply wp_on_data. rewrite wp_modify, Hd.
    set (s' := set_data (set_next (u32 (port + 1)) (data s)) s).
    set (s1' := set_data (set_next (u32 (port + 1)) (data s)) s1).
    assert (unnumbered p s0 s') as Hu' by by apply unnumbered_next.
    assert (same s' s1') as Hs' by (split; [done|apply Hs]).
    assert (locks true [] s1') as Hl' by (apply locks_set_data; [done|]; intros q; by rewrite Hd).
    assert (wf (data s1')) as Hw' by apply Hu'.
    assert (port_at (data s1') port = port_at (data s) port) as Hpa by done.
    rewrite wp_bind. apply (wp_lookup self Hself true [] port s1'); [done|done| | |].
    + intros q _. apply not_elem_of_nil.
    + rewrite Hpa. intros Hnone. eapply register_unlock_ok; [exact Hu'|done|done|exact Hnone| |].
      { unfold IPC_PORT_UNRESERVED_START in Hlow. lia. }
      intros s2 Ha2 Hi2 Hm2 Ht2. exists port. split_and!; try done; try lia.
      rewrite <-(un_abs _ _ _ Hu). by apply port_abs_None.
    + intros q s2 Hq Hqs Hs2 Hl2. rewrite wp_bind.
      apply (wp_port_unlock self Hself true [] q); [done|by rewrite (proj1 Hs2)|apply not_elem_of_nil|].
      intros s3 Hs3 Hl3. destruct j as [|j].
      { simpl in Hfree. rewrite <-(un_abs _ _ _ Hu), (abs_lookup _ _ Hw) in Hfree.
        rewrite Hpa in Hq. by rewrite Hq in Hfree. }
      apply (IH j s'); [done| |done| |].
      * eapply same_trans; [exact Hs'|]. by eapply same_trans.
      * simpl. case_match; lia.
      * by rewrite Nat.iter_succ_r in Hfree.
Qed.

Lemma allocate_ok fuel flags s :
  idle s → Z.of_nat (size (abs (data s))) < NUNRESERVED →
  (2 * size (abs (data s)) + 2 ≤ fuel)%nat →
  wp (ipc_port_allocate self me fuel flags) (allocated flags s) alloc_stop s.
Proof.
  intros Hi Hsize Hfuel. unfold ipc_port_allocate. rewrite wp_bind.
  eapply wp_mono; [by apply port_alloc_ok| |done]. intros p s1 Hu.
  rewrite (proj2 (Z.eqb_neq p 0)) by apply (un_pos _ _ _ Hu). rewrite wp_bind.
  apply (wp_ports_lock self Hself [] s1); [apply Hu|]. intros s2 Hs2 Hl2.
  set (c := candidate (ipc_port_next (data s1))).
  assert (3 ≤ c < 2 ^ 32) as Hc by apply candidate_range, (wf_next _ (un_wf _ _ _ Hu)).
  destruct (candidate_free (abs (data s)) c Hc Hsize) as (j&Hj&Hfree).
  eapply wp_mono; [apply (allocate_loop_ok p flags s fuel j s1); [done..| |done]|done|done].
  case_match; lia.
Qed.

(** The abstract [ipc_port_allocate_reserved]. *)
Definition spec_allocate_reserved n flags A : result unit * aports :=
  if (n =? IPC_PORT_UNKNOWN) || (IPC_PORT_UNRESERVED_START <=? n) then (Err ERROR_INVALID, A)
  else match A !! n with
  | Some _ => (Err ERROR_NOT_FREE, A)
  | None => (Ok tt, <[n := new_port me flags]> A)
  end.

Lemma allocate_reserved_ok n flags s :
  idle s → 0 ≤ n < 2 ^ 32 →
  meets (ipc_port_allocate_reserved self me n flags) (spec_allocate_reserved n flags) s.
Proof.
  intros Hi Hn. pose proof Hi as (Hw&Hl&Ht).
  unfold IpcSpec.meets, ipc_port_allocate_reserved, spec_allocate_reserved.
  destruct ((n =? IPC_PORT_UNKNOWN) || (IPC_PORT_UNRESERVED_START <=? n)) eqn:Hr.
  { by rewrite wp_ret. }
  apply orb_false_iff in Hr as [Hn0 Hn3]. unfold IPC_PORT_UNKNOWN in Hn0. zcmp.
  rewrite wp_bind. apply (wp_ports_lock self Hself [] s); [done|]. intros s1 Hs1 Hl1.
  pose proof (proj1 Hs1) as Hd1.
  rewrite wp_bind. apply (wp_lookup self Hself true [] n s1); [by rewrite Hd1|done| | |].
  { intros p _. apply not_elem_of_nil. }
  - rewrite Hd1. intros Hnone. rewrite wp_bind. eapply wp_ports_unlock; [done|done|].
    intros s2 Hs2 Hl2. assert (same s s2) as Hs by by eapply same_trans.
    assert (idle s2) as Hi2 by by eapply idle_same. rewrite wp_bind.
    eapply wp_mono; [by apply port_alloc_ok| |done]. intros p s3 Hu.
    rewrite (proj2 (Z.eqb_neq p 0)) by apply (un_pos _ _ _ Hu). rewrite wp_bind.
    apply (wp_ports_lock self Hself [] s3); [apply Hu|]. intros s4 Hs4 Hl4.
    assert (abs (data s) !! n = None) as Ha by by apply port_abs_None.
    assert (port_at (data s3) n = None) as Hfree.
    { apply eq_None_not_Some. intros [q Hq]. pose proof (un_abs _ _ _ Hu) as He.
      rewrite (proj1 Hs) in He. rewrite <-He, abs_lookup, Hq in Ha by apply (un_wf _ _ _ Hu). done. }
    eapply register_unlock_ok; [exact Hu|done..|lia|].
    intros s5 Ha5 Hi5 Hm5 Ht5. split; [done|]. rewrite Ha. split_and!.
    + rewrite Hm5. apply Hs.
    + eapply same_tasks_trans; [|exact Ht5]. apply same_tasks_refl. by rewrite (proj1 Hs).
    + by rewrite Ha5, (proj1 Hs).
  - rewrite Hd1. intros q s2 Hq Hqs Hs2 Hl2. rewrite wp_bind.
    apply (wp_port_unlock self Hself true [] q); [done|by rewrite (proj1 Hs2), Hd1|apply not_elem_of_nil|].
    intros s3 Hs3 Hl3. rewrite wp_bind. eapply wp_ports_unlock; [done|done|].
    intros s4 Hs4 Hl4. rewrite wp_ret.
    assert (same s s4) as Hs by (eapply same_trans; [done|]; eapply same_trans; [done|]; by eapply same_trans).
    apply (return_same self me (λ A, match A !! n with
      | Some _ => (Err ERROR_NOT_FREE, A) | None => (Ok tt, <[n := new_port me flags]> A) end) s s4);
      try done.
    by rewrite (port_abs s n q).
Qed.

(** * Rights for the receivers of another port *)

(** One turn of the loop of [ipc_port_right_send]. *)
Definition give_receiver right (a : aport) (k : Z * Z) : aport :=
  if flag_set k.2 IPC_PORT_RIGHT_RECEIVE then give k.1 right a else a.

Lemma give_receivers right (l : list (Z * Z)) : ∀ a,
  NoDup l.*1 →
  fold_left (give_receiver right) l a =
  if negb (flag_set right IPC_PORT_RIGHT_RECEIVE) && public a then a
  else mk_aport (a_flags a)
    (merge (λ r v, match v with
       | Some v => if flag_set v IPC_PORT_RIGHT_RECEIVE then Some (Z.lor (default 0 r) right) else r
       | None => r end) (a_rights a) (list_to_map l)) (a_msgs a).
Proof.
  induction l as [|[t v] l IH]; intros a Hnd.
  - simpl. case_match; [done|]. destruct a as [f r m]. simpl. f_equal.
    apply map_eq. intros i. rewrite lookup_merge, lookup_empty. by destruct (r !! i).
  - apply NoDup_cons in Hnd as [Hni Hnd]. change ((t, v) :: l).*1 with (t :: l.*1) in Hni.
    assert ((list_to_map l : gmap Z Z) !! t = None) as Hno by by apply not_elem_of_list_to_map.
    simpl. rewrite IH by done. unfold give_receiver, give. simpl.
    destruct (flag_set v IPC_PORT_RIGHT_RECEIVE) eqn:Hv.
    2:{ case_match; [done|]. f_equal. apply map_eq. intros i. rewrite !lookup_merge.
        destruct (decide (i = t)) as [->|Hi]; [|by rewrite lookup_insert_ne].
        rewrite Hno, lookup_insert_eq. simpl. destruct (a_rights a !! t); simpl; by rewrite ?Hv. }
    destruct (negb (flag_set right IPC_PORT_RIGHT_RECEIVE) && public a) eqn:Hp; [by rewrite Hp|].
    change (public (set_right _ _ a)) with (public a). rewrite Hp. simpl. f_equal.
    apply map_eq. intros i. rewrite !lookup_merge.
    destruct (decide (i = t)) as [->|Hi]; [|by rewrite !lookup_insert_ne].
    rewrite Hno, !lookup_insert_eq. unfold a_right. simpl.
    destruct (a_rights a !! t); simpl; by rewrite Hv.
Qed.

Lemma same_rights_trans (p : Z) (d d1 d2 : @ipc_data Ob) :
  same_rights p d d1 → same_rights p d1 d2 →
  (∀ q, is_Some (port_store d !! q) → is_Some (port_store d1 !! q)) → same_rights p d d2.
Proof.
  intros H1 H2 Hs q Hq Hin. destruct (H1 q Hq Hin) as [He Hr].
  destruct (H2 q Hq (Hs q Hin)) as [He' Hr']. rewrite He in He', Hr'. split; [done|].
  intros r Hin'. by rewrite Hr', Hr.
Qed.

Definition right_pair (d : @ipc_data Ob) (r : Z) : Z * Z := (rkey d r, ipcpr_right (rightv d r)).

Lemma right_send_loop_ok srcp dstp right d0 l : ∀ a s1,
  wf d0 → is_Some (port_store d0 !! srcp) → is_Some (port_store d0 !! dstp) → dstp ≠ srcp →
  (∀ r, r ∈ l → r ∈ elements (ipcp_rights (portv d0 dstp))) →
  port_update srcp a d0 (data s1) → same_rights srcp d0 (data s1) →
  wp (right_send_loop srcp right l) (λ _ s', ∃ d', s' = set_data d' s1 ∧
    port_update srcp (fold_left (give_receiver right) (right_pair d0 <$> l) a) d0 d')
    alloc_stop s1.
Proof.
  induction l as [|r l IH]; intros a s1 Hw Hsrc Hdst Hne Hl Hu Hsr.
  { simpl. rewrite wp_ret. exists (data s1). by destruct s1. }
  pose proof (Hl r ltac:(by left)) as Hr. destruct (Hsr dstp Hne Hdst) as [Her Hvr].
  pose proof (pu_wf _ _ _ _ Hu) as Hw1.
  assert (is_Some (port_store (data s1) !! dstp)) as Hd1 by by apply (pu_store _ _ _ _ Hu).
  assert (is_Some (port_store (data s1) !! srcp)) as Hs1 by by apply (pu_store _ _ _ _ Hu).
  destruct (wf_right_in _ Hw1 dstp _ r (portv_in _ _ Hd1)) as [Hin Htk]; [by rewrite Her|].
  simpl. rewrite wp_bind. eapply wp_read; [by apply get_right_eq|]. rewrite (Hvr r Hr), wp_bind.
  unfold give_receiver at 2. simpl. fold (rkey d0 r).
  destruct (flag_set (ipcpr_right (rightv d0 r)) IPC_PORT_RIGHT_RECEIVE).
  - rewrite wp_bind. apply wp_on_data.
    assert (rkey (data s1) r = rkey d0 r) as Hk by (unfold rkey; by rewrite Hvr).
    rewrite Hk in Htk. eapply wp_mono; [by apply right_insert_ok|simpl|done].
    intros e d2 (->&Hu2&_&Hsr2). rewrite (pu_port _ _ _ _ Hu) in Hu2. rewrite wp_ret.
    eapply wp_mono; [apply (IH (give (rkey d0 r) right a) (set_data d2 s1))| |done]; try done.
    + intros r' Hr'. apply Hl. by right.
    + by eapply pu_trans.
    + eapply same_rights_trans; [done..|]. intros q. apply (pu_store _ _ _ _ Hu).
  - rewrite wp_ret. apply IH; try done. intros r' Hr'. apply Hl. by right.
Qed.

(** The rights of a port, as the loop reads them. *)
Lemma right_pairs d p :
  wf d → is_Some (port_store d !! p) →
  NoDup (right_pair d <$> elements (ipcp_rights (portv d p))).*1 ∧
  list_to_map (right_pair d <$> elements (ipcp_rights (portv d p))) = a_rights (at_port d p).
Proof.
  intros Hw Hp. split; [|done]. rewrite <-list_fmap_compose.
  pose proof (wf_rights _ Hw p _ (portv_in d p Hp)) as Hb.
  apply NoDup_fmap_2_strong; [|by eapply bst_NoDup]. intros x y Hx Hy Hk. by eapply bst_inj.
Qed.

Lemma right_send_ok dst src right s :
  idle s → dst ≠ src → meets (ipc_port_right_send self me dst src right)
    (spec_right_send me dst src right) s.
Proof.
  intros Hi Hds. pose proof Hi as (Hw&Hl&Ht). unfold IpcSpec.meets, ipc_port_right_send.
  rewrite wp_bind. apply wp_locked_lookup; [done..| |].
  { intros s1 Hn Hs1 Hl1. rewrite wp_ret. apply return_same; [done..|].
    unfold spec_right_send. by rewrite port_abs_None. }
  intros p s1 Hn Hp Hs1 Hl1. pose proof (port_abs s src p Hw Hn) as Ha. pose proof (proj1 Hs1) as Hd1.
  rewrite wp_bind. eapply wp_read; [rewrite Hd1; by apply check_receive_eq|].
  destruct (may_receive me (at_port (data s) p)) eqn:Hrecv; simpl.
  2:{ apply unlock_same; [done..|]. unfold spec_right_send. by rewrite Ha, Hrecv. }
  rewrite wp_bind. apply (wp_lookup self Hself false [p] dst s1); [by rewrite Hd1|done| | |].
  { rewrite Hd1. intros q Hq ->%list_elem_of_singleton. apply Hds.
    apply port_at_Some in Hq as [_ <-]; [|done]. by apply port_at_Some in Hn as [_ <-]. }
  { rewrite Hd1. intros Hn2. apply unlock_same; [done..|]. unfold spec_right_send.
    by rewrite Ha, Hrecv, (port_abs_None s dst). }
  rewrite Hd1. intros q s2 Hn2 Hq Hs2 Hl2. pose proof (port_abs s dst q Hw Hn2) as Hb.
  assert (q ≠ p) as Hqp.
  { intros ->. apply Hds. apply port_at_Some in Hn2 as [_ <-]; [|done].
    by apply port_at_Some in Hn as [_ <-]. }
  assert (same s s2) as Hs by by eapply same_trans. pose proof (proj1 Hs) as Hd2.
  rewrite wp_bind. eapply wp_read; [rewrite Hd2; by apply get_port_eq|]. rewrite wp_bind.
  eapply wp_mono; [apply (right_send_loop_ok p q right (data s) _ (at_port (data s) p) s2)| |done];
    try done.
  { rewrite Hd2. by apply pu_refl. }
  { rewrite Hd2. done. }
  intros [] s3 (d3&->&Hu). rewrite wp_bind.
  apply (wp_port_unlock self Hself false [p] q); [| |by intros ->%list_elem_of_singleton|].
  { apply locks_set_data; [done|]. intros r. rewrite Hd2. apply Hu. }
  { by apply (pu_store _ _ _ _ Hu). }
  intros s4 [Hd4 Hm4] Hl4. simpl in Hd4, Hm4. rewrite wp_bind.
  apply (wp_port_unlock self Hself false [] p); [done| |apply not_elem_of_nil|].
  { rewrite Hd4. by apply (pu_store _ _ _ _ Hu). }
  intros s5 [Hd5 Hm5] Hl5. rewrite wp_ret. rewrite Hd4 in Hd5. split_and!.
  - eapply (idle_update self me p _ s); [done|rewrite Hd5; exact Hu|done].
  - rewrite Hm5, Hm4. apply Hs.
  - intros t. rewrite Hd5. apply Hu.
  - unfold spec_right_send. rewrite Ha, Hrecv, Hb, Hd5. simpl. f_equal. symmetry.
    destruct (right_pairs (data s) q Hw Hq) as [Hnd Hmap].
    rewrite (update_abs s d3 src p _ Hw Hn Hu), give_receivers by done.
    unfold give_all. rewrite Hmap. done.
Qed.

(** Sending to the port whose right it is: its mutex is taken twice. *)
Lemma right_send_self_ok n right s :
  idle s → (∃ a, abs (data s) !! n = Some a ∧ may_receive me a = true) →
  ipc_port_right_send self me n n right s = Stop (Panic "cannot recurse on mutex").
Proof.
  intros Hi (a&Ha&Hrecv). pose proof Hi as (Hw&Hl&Ht).
  enough (wp (ipc_port_right_send self me n n right) (λ _ _, False)
    (λ w, w = Panic "cannot recurse on mutex") s) as Hwp.
  { unfold wp in Hwp. by destruct (ipc_port_right_send self me n n right s); [|rewrite Hwp]. }
  unfold ipc_port_right_send. rewrite wp_bind. apply wp_locked_lookup; [done..| |].
  { intros s1 Hn. by rewrite port_abs_None in Ha. }
  intros p s1 Hn Hp Hs1 Hl1. rewrite (port_abs s n p) in Ha by done. injection Ha as <-.
  pose proof (proj1 Hs1) as Hd1.
  rewrite wp_bind. eapply wp_read; [rewrite Hd1; by apply check_receive_eq|].
  rewrite Hrecv. simpl. rewrite wp_bind. unfold ipc_port_lookup. rewrite wp_bind, wp_get.
  change (bt_find _ _ _) with (port_at (data s1) n). rewrite Hd1, Hn, wp_bind.
  destruct (locks_sync self false [p] s1 p Hl1) as (y&Hy&Ho&_); [by rewrite Hd1|].
  rewrite bool_decide_true in Ho by by left.
  apply (wp_on_sync _ _ y); [done|]. rewrite wp_zoom. unfold wp.
  by rewrite mutex_lock_recurse.
Qed.

(** * Sending a page *)

(** The page of a message, taken from the address space [vm] of the sender. *)
Definition taken (vm vpage : Z) : M V (result Z) :=
  if vpage =? 0 then ret (Ok 0)
  else
    page <-? tm_page_extract vm vpage ;;
    (if vm =? kernel_vm then
       or_panic "could not unmap direct page" (tm_page_unmap_direct page vpage)
     else
       or_panic "could not unmap source page" (tm_page_unmap vm vpage page) ;;;
       or_panic "could not free source page address" (tm_vm_free_address vm vpage)) ;;;
    ret (Ok page).

(** A new page with the [len] bytes and zeros after them. *)
Definition filled (bytes : list Z) (len : Z) : M V (result Z) :=
  page <-? tm_page_alloc ;;
  vaddr <- tm_page_map_direct page ;;
  match vaddr with
  | Err e => tm_page_release page ;;; ret (Err e)
  | Ok vaddr =>
      tm_write vaddr (take (Z.to_nat len) bytes) ;;;
      (if negb (len =? PAGE_SIZE) then
         tm_write (u64 (vaddr + len)) (replicate (Z.to_nat (PAGE_SIZE - len)) 0)
       else ret tt) ;;;
      or_panic "page_unmap_direct failed" (tm_page_unmap_direct page vaddr) ;;;
      ret (Ok page)
  end.

(** What becomes of the page when the message was sent or was not. *)
Definition disposed (page : Z) (r : result unit) : M V unit :=
  match r with
  | Ok _ => ret tt
  | Err _ => if negb (page =? 0) then tm_page_release page else ret tt
  end.

(** The outcome of a send with the page [m] makes. *)
Definition sent h (m : M V (result Z)) s (r : result unit) s' : Prop :=
  idle s' ∧ same_tasks s s' ∧
  match m (memory s) with
  | Stop _ => False
  | Done (Err e) v => r = Err e ∧ abs (data s') = abs (data s) ∧ memory s' = v
  | Done (Ok page) v =>
      spec_send me h page (abs (data s)) = (r, abs (data s')) ∧
      disposed page r v = Done tt (memory s')
  end.
Definition sent_stop h (m : M V (result Z)) s (w : stop) : Prop :=
  alloc_stop w ∨ m (memory s) = Stop w ∨
  ∃ page v, m (memory s) = Done (Ok page) v ∧
    disposed page (spec_send me h page (abs (data s))).1 v = Stop w.

Lemma send_with_ok h (m : M V (result Z)) s :
  idle s →
  wp (page <-? on_memory m ;;
      error <- ipc_port_send_page self me h page ;;
      release_unsent page error) (sent h m s) (sent_stop h m s) s.
Proof.
  intros Hi. rewrite wp_bind_ok. apply wp_on_memory. unfold wp at 1, sent, sent_stop.
  destruct (m (memory s)) as [[page|e] v|w]; [|by split_and!; [apply idle_memory|..]|by right; left].
  rewrite wp_bind. eapply wp_mono; [by apply send_page_meets, idle_memory| |by left].
  intros r s1 (Hi1&Hm1&Ht1&Hspec). simpl in Hm1, Hspec.
  destruct r as [[]|e]; simpl; [by rewrite wp_ret, Hm1|]. rewrite Hspec, wp_bind. simpl.
  unfold disposed. simpl.
  destruct (negb (page =? 0)) eqn:Hp0; [|rewrite !wp_ret; split_and!; [done..|by rewrite Hm1]].
  apply wp_on_memory. unfold wp at 1. rewrite Hm1.
  destruct (tm_page_release page v) as [[] v'|w] eqn:Hrel.
  - rewrite wp_ret. split; [by apply idle_memory|]. split; [exact Ht1|done].
  - right; right. exists page, v. by rewrite Hspec, Hp0.
Qed.

(** The address space of the current task. *)
Definition task_vm (k : task) : Z :=
  if negb (flag_set (t_flags k) TASK_KERNEL) then t_vm k else kernel_vm.

Lemma take_page_eq vpage k s :
  tasks (data s) !! me = Some k →
  take_page me vpage s = on_memory (taken (task_vm k) vpage) s.
Proof.
  intros Hk. unfold take_page, taken, current_vm, get_task.
  destruct (vpage =? 0); [by destruct s|].
  unfold on_memory, on_data, zoom, bind, bind_ok, get, deref. rewrite Hk. simpl.
  fold (task_vm k). unfold or_panic, bind, bind_ok, ret, halt.
  destruct s as [d y z w v]; simpl. unfold set_data, set_memory. simpl.
  destruct (tm_page_extract (task_vm k) vpage v) as [[page|e] v1|]; [|done..].
  destruct (task_vm k =? kernel_vm); simpl.
  - destruct (tm_page_unmap_direct page vpage v1) as [[]|]; done.
  - destruct (tm_page_unmap (task_vm k) vpage page v1) as [[[]|] v2|]; [|done..]. simpl.
    destruct (tm_vm_free_address (task_vm k) vpage v2) as [[]|]; done.
Qed.

Lemma send_ok h vpage k s :
  idle s → tasks (data s) !! me = Some k →
  wp (ipc_port_send self me h vpage) (sent h (taken (task_vm k) vpage) s)
    (sent_stop h (taken (task_vm k) vpage) s) s.
Proof.
  intros Hi Hk. pose proof (send_with_ok h (taken (task_vm k) vpage) s Hi) as Hw.
  unfold ipc_port_send. rewrite wp_bind_ok in *. unfold wp at 1. unfold wp at 1 in Hw.
  rewrite (take_page_eq _ k) by done. exact Hw.
Qed.

Lemma send_data_ok h bytes len s :
  idle s → 0 < len ≤ PAGE_SIZE →
  wp (ipc_port_send_data self me h (Some bytes) len) (sent h (filled bytes len) s)
    (sent_stop h (filled bytes len) s) s.
Proof.
  intros Hi Hlen. pose proof (send_with_ok h (filled bytes len) s Hi) as Hw.
  unfold ipc_port_send_data. rewrite (proj2 (Z.eqb_neq len 0)) by lia.
  rewrite (proj2 (Z.leb_le len PAGE_SIZE)) by lia. rewrite wp_bind, wp_assert. cbn [negb].
  rewrite wp_bind, wp_assert. cbn [negb].
  revert Hw. generalize (sent h (filled bytes len) s) (sent_stop h (filled bytes len) s).
  intros Q E. unfold filled, wp, on_memory, zoom, bind_ok, bind, or_panic, bind_ok, bind, ret, halt.
  destruct s as [d y z w v]; simpl. unfold set_memory. simpl.
  destruct (tm_page_alloc v) as [[page|e] v1|]; [|done..].
  simpl. destruct (tm_page_map_direct page v1) as [[va|e] v2|]; simpl; [| |done].
  2:{ by destruct (tm_page_release page v2). }
  destruct (tm_write va _ v2) as [[] v3|]; simpl; [|done]. destruct (negb (len =? PAGE_SIZE)); simpl.
  - destruct (tm_write _ _ v3) as [[] v4|]; simpl; [|done].
    by destruct (tm_page_unmap_direct page va v4) as [[]|].
  - by destruct (tm_page_unmap_direct page va v3) as [[]|].
Qed.

(** * Waiting for a message *)

(** The thread is asleep in the queue of the port, which is unlocked. *)
Definition asleep_on n s : Prop :=
  ∃ p y, port_at (data s) n = Some p ∧ port_sync s !! p = Some y ∧ self ∈ cv_sleepq y.2.

Definition wait_outcome n s (r : result unit) s' : Prop :=
  idle s' ∧ same s s' ∧
  match abs (data s) !! n with
  | None => r = Err ERROR_NOT_FOUND
  | Some a =>
      match a_msgs a with
      | _ :: _ => r = Ok tt
      | [] => if may_receive me a then r = Ok tt ∧ asleep_on n s' else r = Err ERROR_NO_RIGHT
      end
  end.

Lemma wait_ok n s :
  idle s → wp (ipc_port_wait self me n) (wait_outcome n s) never s.
Proof.
  intros Hi. pose proof Hi as (Hw&Hl&Ht). unfold ipc_port_wait. rewrite wp_bind.
  apply wp_locked_lookup; [done..| |].
  { intros s1 Hn Hs1 Hl1. rewrite wp_ret. split_and!; [by eapply idle_same|done|].
    by rewrite port_abs_None. }
  intros p s1 Hn Hp Hs1 Hl1. pose proof (port_abs s n p Hw Hn) as Ha. pose proof (proj1 Hs1) as Hd1.
  assert (∀ r, (match a_msgs (at_port (data s) p) with _ :: _ => r = Ok tt
    | [] => may_receive me (at_port (data s) p) = false ∧ r = Err ERROR_NO_RIGHT end) →
    wp (bind (IPC_PORT_UNLOCK self p) (λ _, ret r)) (wait_outcome n s) never s1) as Hout.
  { intros r Hr. rewrite wp_bind.
    apply (wp_port_unlock self Hself false [] p); [done|by rewrite Hd1|apply not_elem_of_nil|].
    intros s2 Hs2 Hl2. assert (same s s2) as Hs by by eapply same_trans. rewrite wp_ret.
    split_and!; [by eapply idle_same|done|]. rewrite Ha. destruct (a_msgs _); [|done].
    by destruct Hr as [-> ->]. }
  assert (a_msgs (at_port (data s) p) = msgv (data s) <$> ipcp_msgs (portv (data s) p)) as Hq by done.
  rewrite wp_bind. eapply wp_read; [rewrite Hd1; by apply get_port_eq|]. rewrite Hq in Hout.
  destruct (ipcp_msgs (portv (data s) p)) as [|m rest] eqn:Hm; [|by apply Hout].
  rewrite wp_bind. eapply wp_read; [rewrite Hd1; by apply check_receive_eq|].
  destruct (may_receive me (at_port (data s) p)) eqn:Hrecv; simpl; [|by apply Hout].
  destruct (locks_sync self false [p] s1 p Hl1) as (y&Hy&Ho&Hcv); [by rewrite Hd1|].
  rewrite bool_decide_true in Ho by by left. rewrite wp_bind.
  apply (wp_on_sync _ _ y); [done|]. unfold wp at 1. destruct y as [mx c]. simpl in Ho, Hcv.
  assert (∃ l, cv_wait self (mx, c) =
    Done l (Mutex.set_owner 0 mx, mk_cv 0 (sleepq_insert self (cv_sleepq c)))) as [l ->].
  { unfold cv_wait, cv_wait_unlock, cv_wait_sleep, MUTEX_HELD, CV_LOCK, bind, get, put, modify, ret,
      zoom, assert_. simpl.
    rewrite Ho, Z.eqb_refl, (proj2 (Z.eqb_neq self 0)) by done. simpl. rewrite Hcv. simpl.
    destruct (mutex_unlock_held self mx Hself Ho) as [l Hun]. rewrite Hun. by exists l. }
  rewrite wp_bind, wp_wake, wp_ret.
  enough (locks false [] (set_sync (<[p := (Mutex.set_owner 0 mx,
    mk_cv 0 (sleepq_insert self (cv_sleepq c)))]> (port_sync s1)) s1)) as [Hl1' Hl2' Hl3'].
  { split_and!.
    - eapply (idle_same self me s); [done|exact Hs1|by split].
    - exact Hs1.
    - rewrite Ha, Hq, Hrecv. split; [done|].
      exists p, (Mutex.set_owner 0 mx, mk_cv 0 (sleepq_insert self (cv_sleepq c))).
      simpl. rewrite Hd1, lookup_insert_eq. split_and!; [done..|]. simpl.
      apply Mtx.elem_of_sleepq_insert. by right. }
  eapply locks_set_sync; [done..| |done|].
  - by rewrite bool_decide_false by apply not_elem_of_nil.
  - intros q Hq'. rewrite list_elem_of_singleton. split; [intros Hx; by apply elem_of_nil in Hx|done].
Qed.
(** * The theorems *)

(** with fewer than [2^32 - 3] ports, the loop of [ipc_port_allocate] ends
    within [2 * ports + 2] turns, and gives a number from
    [IPC_PORT_UNRESERVED_START] on that no port had, to an empty port on which
    the caller holds the receive right. *)
Theorem ipc_port_allocate_fresh fuel flags s :
  idle s → Z.of_nat (size (abs (data s))) < NUNRESERVED →
  (2 * size (abs (data s)) + 2 ≤ fuel)%nat →
  wp (ipc_port_allocate self me fuel flags)
    (λ r s', ∃ n, r = Ok n ∧ IPC_PORT_UNRESERVED_START ≤ n < 2 ^ 32 ∧
       abs (data s) !! n = None ∧
       abs (data s') = <[n := new_port me flags]> (abs (data s)) ∧
       idle s' ∧ memory s' = memory s ∧ same_tasks s s') alloc_stop s.
Proof. intros. by apply allocate_ok. Qed.

(** C28: the operations on rights are operations on the map of ports: dropping
    a right, granting one to a task, granting one to every receiver of another
    port, and making a port with a reserved number.  The exception: a receiver
    that sends a right on a port to the receivers of the same port takes the
    mutex of the port twice, and the kernel panics. *)
Theorem ipc_rights_correct n right s :
  idle s →
  meets (ipc_port_right_drop self me n right) (spec_right_drop me n right) s ∧
  (∀ t, is_Some (tasks (data s) !! t) →
     meets (ipc_port_right_grant self me t n right) (spec_right_grant me t n right) s) ∧
  (∀ dst, dst ≠ n →
     meets (ipc_port_right_send self me dst n right) (spec_right_send me dst n right) s) ∧
  (∀ flags, 0 ≤ n < 2 ^ 32 →
     meets (ipc_port_allocate_reserved self me n flags)
       (spec_allocate_reserved n flags) s) ∧
  ((∃ a, abs (data s) !! n = Some a ∧ may_receive me a = true) →
     ipc_port_right_send self me n n right s = Stop (Panic "cannot recurse on mutex")).
Proof.
  intros Hi. split_and!.
  - by apply right_drop_meets.
  - intros. by apply right_grant_meets.
  - intros. by apply right_send_ok.
  - intros. by apply allocate_reserved_ok.
  - intros. by apply right_send_self_ok.
Qed.

(** [ipc_port_send] neither loses nor doubles a page: the page is taken
    out of the sender's address space; it is in the queue if the message was
    accepted, and has been released if it was not. *)
Theorem ipc_port_send_page_kept h vpage k s :
  idle s → tasks (data s) !! me = Some k →
  wp (ipc_port_send self me h vpage) (sent h (taken (task_vm k) vpage) s)
    (sent_stop h (taken (task_vm k) vpage) s) s.
Proof. intros. by apply send_ok. Qed.

(** [ipc_port_wait] comes back at once if there is a message, refuses a
    task without the receive right, and otherwise leaves the thread asleep in
    the queue of the port with the port's mutex free. *)
Theorem ipc_port_wait_correct n s :
  idle s → wp (ipc_port_wait self me n) (wait_outcome n s) never s.
Proof. intros. by apply wait_ok. Qed.
End refinement.
