(* ===== verification/Ipc.v ===== *)
(** What [mk/ipc/ipc_port.c] promises: the theorems about ports.

    The refinement lemmas of IpcSpec.v and IpcAlloc.v, put together: every
    operation is an operation on a finite map from port numbers to ports, a
    queue is first in first out, a reply right is good for one message, and a
    page that was not sent is given back.  At the end a machine that runs, for
    the witnesses. *)

From S2P Require Import Prelude MachineInt Btree Mutex Pool IpcPort IpcSpec IpcAlloc.

Local Open Scope Z_scope.
Local Open Scope c_scope.

(** * The abstract operations *)

Section queue.
Implicit Types (A : aports) (a b : aport) (h : ipc_header).

Lemma flag_receive_lor x y :
  flag_set x IPC_PORT_RIGHT_RECEIVE = true → flag_set (Z.lor x y) IPC_PORT_RIGHT_RECEIVE = true.
Proof. apply flag_set_lor_l. Qed.

Lemma give_msgs t right a : a_msgs (give t right a) = a_msgs a.
Proof. unfold give. by case_match. Qed.

Lemma give_receive t t' right a :
  may_receive t' a = true → may_receive t' (give t right a) = true.
Proof.
  unfold give, may_receive. case_match; [done|]. unfold a_right. simpl.
  destruct (decide (t = t')) as [->|Hne]; [rewrite lookup_insert_eq|by rewrite lookup_insert_ne].
  simpl. apply flag_receive_lor.
Qed.

Lemma use_send_receive t t' a a' :
  use_send t a = Some a' → may_receive t' a = true →
  may_receive t' a' = true ∧ a_msgs a' = a_msgs a.
Proof.
  unfold use_send, may_receive. intros Hu Hr.
  destruct (flag_set (a_right t a) IPC_PORT_RIGHT_RECEIVE) eqn:Hrecv; simpl in Hu.
  { by injection Hu as <-. }
  destruct (flag_set (a_right t a) IPC_PORT_RIGHT_SEND); [by injection Hu as <-|].
  case_match; [|done]. injection Hu as <-. split; [|done]. unfold a_right in *. simpl.
  destruct (decide (t = t')) as [->|Hne]; [congruence|]. by rewrite lookup_insert_ne.
Qed.

(** A message sent is at the end of the queue. *)
Lemma spec_send_queue t t' h page A A' a :
  spec_send t h page A = (Ok tt, A') → A !! ipchdr_dst h = Some a → may_receive t' a = true →
  ∃ a', A' = <[ipchdr_dst h := a']> A ∧ may_receive t' a' = true ∧
    a_msgs a' = a_msgs a ++ [(h, page)].
Proof.
  unfold spec_send. intros Hs Ha Hr. rewrite Ha in Hs.
  destruct (_ && _); [done|]. destruct (A !! ipchdr_src h) as [src|]; [|done].
  destruct (negb _); [done|].
  destruct (if public a || _ then Some a else use_send t a) as [a1|] eqn:Hu; [|done].
  injection Hs as <-. assert (may_receive t' a1 = true ∧ a_msgs a1 = a_msgs a) as [Hr1 Hm1].
  { destruct (public a || _); [by injection Hu as <-|by eapply use_send_receive]. }
  eexists. split; [done|]. simpl. by rewrite Hm1.
Qed.

(** A message received leaves the rest of the queue. *)
Lemma spec_receive_queue t n A a h page rest :
  A !! n = Some a → may_receive t a = true → a_msgs a = (h, page) :: rest →
  (spec_receive t n A).1 = Ok (h, page) ∧
  ∃ a', (spec_receive t n A).2 !! n = Some a' ∧ may_receive t a' = true ∧ a_msgs a' = rest.
Proof.
  intros Ha Hr Hm. unfold spec_receive. rewrite Ha, Hr, Hm. simpl. split; [done|].
  unfold grant. case_match; [rewrite lookup_insert_eq; by eexists|].
  destruct (decide (ipchdr_src h = n)) as [->|Hne].
  - rewrite lookup_alter_eq, lookup_insert_eq. simpl. eexists. split; [done|].
    rewrite give_msgs. split; [by apply give_receive|done].
  - rewrite lookup_alter_ne, lookup_insert_eq by done. by eexists.
Qed.

End queue.

Section properties.
Context {Ob V : Type} `{ObjPool Ob} `{TaskMemory V}.
Notation ipc := (@ipc Ob V).
Implicit Types (s : ipc) (n t : Z) (A : aports) (a b : aport) (h : ipc_header).

(** An idle machine is idle for any task it has. *)
Lemma idle_other self me self' me' s :
  idle self me s → is_Some (tasks (data s) !! me') → idle self' me' s.
Proof.
  intros (Hw&[Ho Hd Hp]&_) Ht. split; [done|]. split; [|done]. split; [done|done|].
  intros p y Hy. destruct (Hp p y Hy) as [Hm Hc]. by rewrite bool_decide_false in * by apply not_elem_of_nil.
Qed.

(** Receiving a message without a page. *)
Lemma receive_nopage_ok self me n want s :
  self ≠ 0 → idle self me s →
  (∀ h page, (spec_receive me n (abs (data s))).1 = Ok (h, page) → page = 0) →
  meets self me (ipc_port_receive self me n want) (spec_receive me n) s.
Proof.
  intros Hself Hi Hpage. pose proof Hi as (_&_&[k Hk]).
  eapply wp_mono; [by apply (receive_ok self me Hself n want k s)|simpl|simpl].
  - intros r s' (Hi'&Ht'&Ha&Hr).
    destruct (spec_receive me n (abs (data s))) as [[[h page]|e] A']; simpl in *; subst A'.
    + destruct Hr as (v&Hd&->). rewrite (Hpage h page) in Hd |- * by done.
      unfold deliver in Hd. simpl in Hd. unfold ret in Hd. injection Hd as <- <-. done.
    + destruct Hr as [-> ->]. done.
  - intros w [Hw|(h&page&Hr&Hw)]; [done|]. rewrite (Hpage h page) in Hw by done.
    unfold deliver in Hw. simpl in Hw. unfold ret in Hw. destruct Hw as [Hw|[_ [v Hv]]]; done.
Qed.

(** [l] sent by [self] in this order; [k] messages received. *)
Fixpoint sends (self me : Z) (l : list ipc_header) : M ipc (list (result unit)) :=
  match l with
  | [] => ret []
  | h :: l =>
      e <- ipc_port_send_page self me h 0 ;;
      es <- sends self me l ;;
      ret (e :: es)
  end.
Fixpoint receives (self me n : Z) (want : bool) (k : nat) : M ipc (list (result (ipc_header * Z))) :=
  match k with
  | O => ret []
  | S k =>
      r <- ipc_port_receive self me n want ;;
      rs <- receives self me n want k ;;
      ret (r :: rs)
  end.

(** The messages that were accepted. *)
Definition accepted (l : list ipc_header) (es : list (result unit)) : list ipc_header :=
  fst <$> filter (λ x : ipc_header * result unit, x.2 = Ok tt) (zip l es).

Lemma sends_ok self me me' n l : ∀ s a,
  self ≠ 0 → idle self me s → is_Some (tasks (data s) !! me') →
  Forall (λ h, ipchdr_dst h = n) l → abs (data s) !! n = Some a → may_receive me' a = true →
  wp (sends self me l) (λ es s', length es = length l ∧ idle self me' s' ∧ ∃ a', abs (data s') !! n = Some a' ∧
      may_receive me' a' = true ∧ a_msgs a' = a_msgs a ++ ((λ h, (h, 0)) <$> accepted l es)) alloc_stop s.
Proof.
  induction l as [|h l IH]; intros s a Hself Hi Ht Hl Ha Hr; simpl.
  - rewrite wp_ret. split; [done|]. split; [by eapply idle_other|]. exists a. by rewrite app_nil_r.
  - apply Forall_cons in Hl as [Hd Hl]. rewrite wp_bind.
    eapply wp_mono; [by apply (send_page_meets self me Hself h 0 s)| |done].
    intros e s1 (Hi1&_&Ht1&Hspec). rewrite wp_bind. pose proof (same_tasks_in _ _ _ Ht1 Ht) as Hin1.
    assert (∃ a1, abs (data s1) !! n = Some a1 ∧ may_receive me' a1 = true ∧
      a_msgs a1 = a_msgs a ++ (if decide (e = Ok tt) then [(h, 0)] else [])) as (a1&Ha1&Hr1&Hm1).
    { destruct e as [[]|e].
      - destruct (spec_send_queue me me' h 0 _ _ a Hspec) as (a1&->&?&?); [by rewrite Hd|done|].
        rewrite Hd, lookup_insert_eq. by exists a1.
      - assert (abs (data s1) = abs (data s)) as ->; [|exists a; by rewrite decide_False, app_nil_r].
        revert Hspec. unfold spec_send. repeat case_match; congruence. }
    eapply wp_mono; [by apply (IH s1 a1)| |done].
    intros es s2 (Hlen&Hi2&a2&Ha2&Hr2&Hm2). rewrite wp_ret. split; [simpl; by rewrite Hlen|]. split; [done|]. exists a2.
    split; [done|]. split; [done|]. rewrite Hm2, Hm1, <-app_assoc. f_equal. unfold accepted.
    cbn [zip zip_with]. rewrite filter_cons. cbn [snd]. by case_decide.
Qed.

Lemma receives_ok self me n want l : ∀ s a,
  self ≠ 0 → idle self me s → abs (data s) !! n = Some a → may_receive me a = true →
  a_msgs a = (λ h, (h, 0)) <$> l →
  wp (receives self me n want (S (length l))) (λ rs _, rs = ((λ h, Ok (h, 0)) <$> l) ++ [Err ERROR_AGAIN]) alloc_stop s.
Proof.
  induction l as [|h l IH]; intros s a Hself Hi Ha Hr Hm; cbn [length receives].
  - assert ((spec_receive me n (abs (data s))).1 = Err ERROR_AGAIN) as He
      by (unfold spec_receive; by rewrite Ha, Hr, Hm).
    rewrite wp_bind. eapply wp_mono; [apply receive_nopage_ok; [done..|]| |done].
    { intros h' page. by rewrite He. }
    intros r s1 (_&_&_&Hspec). rewrite Hspec in He. simpl in He. subst r. by rewrite wp_bind, !wp_ret.
  - destruct (spec_receive_queue me n _ a h 0 _ Ha Hr Hm) as (He&a'&Ha'&Hr'&Hm').
    rewrite wp_bind. eapply wp_mono; [apply receive_nopage_ok; [done..|]| |done].
    { intros h' page. rewrite He. by intros [= _ <-]. }
    intros r s1 (Hi1&_&_&Hspec). rewrite Hspec in He, Ha'. simpl in He, Ha'. subst r.
    rewrite wp_bind. eapply wp_mono; [by apply (IH s1 a')|simpl|done].
    intros rs s2 ->. by rewrite wp_ret.
Qed.

Lemma fifo_ok self me self' me' n l want s a :
  self ≠ 0 → self' ≠ 0 → idle self me s → is_Some (tasks (data s) !! me') →
  abs (data s) !! n = Some a → may_receive me' a = true → a_msgs a = [] →
  Forall (λ h, ipchdr_dst h = n) l →
  wp (es <- sends self me l ;; rs <- receives self' me' n want (S (length (accepted l es))) ;; ret (es, rs))
    (λ r _, length r.1 = length l ∧ r.2 = ((λ h, Ok (h, 0)) <$> accepted l r.1) ++ [Err ERROR_AGAIN])
    alloc_stop s.
Proof.
  intros Hself Hself' Hi Ht Ha Hr Hm Hl. rewrite wp_bind.
  eapply wp_mono; [by apply (sends_ok self me me' n l s a)| |done].
  intros es s1 (Hlen&Hi1&a1&Ha1&Hr1&Hm1). rewrite wp_bind. rewrite Hm in Hm1.
  eapply wp_mono; [by apply (receives_ok self' me' n want (accepted l es) s1 a1);
    [| eapply idle_other; [exact Hi1|apply Hi1]|..]| |done].
  intros rs s2 ->. by rewrite wp_ret.
Qed.

(** * One reply *)

(** A server: receive, reply, and answer again. *)
Definition answer_twice (self me n : Z) (h : ipc_header) (e : Z) :
    M ipc (result (ipc_header * Z) * result unit * result unit) :=
  x <- ipc_port_receive self me n false ;;
  e1 <- ipc_port_send_page self me (IPC_HEADER_REPLY h) 0 ;;
  e2 <- ipc_port_send_page self me (IPC_HEADER_ERROR h e) 0 ;;
  ret (x, e1, e2).

Lemma reply_once_ok self me n h rest c e a b s :
  self ≠ 0 → idle self me s →
  abs (data s) !! n = Some a → may_receive me a = true → a_msgs a = (h, 0) :: rest →
  ipchdr_dst h = n → ipchdr_src h = c → ipchdr_right h = IPC_PORT_RIGHT_SEND_ONCE → c ≠ n →
  abs (data s) !! c = Some b → public b = false → a_right me b = IPC_PORT_RIGHT_NONE →
  wp (answer_twice self me n h e)
    (λ r s', r = (Ok (h, 0), Ok tt, Err ERROR_NO_RIGHT) ∧
       ∃ b', abs (data s') !! c = Some b' ∧ a_msgs b' = a_msgs b ++ [(IPC_HEADER_REPLY h, 0)])
    alloc_stop s.
Proof.
  intros Hself Hi Ha Hr Hm Hd Hs Hright Hcn Hb Hpub Hnone. unfold answer_twice.
  rewrite wp_bind. eapply wp_mono; [apply receive_nopage_ok; [done..|]| |done].
  { intros h' page. unfold spec_receive. rewrite Ha, Hr, Hm. simpl. by intros [= _ <-]. }
  intros x s1 (Hi1&_&_&Hspec). unfold spec_receive, grant in Hspec.
  rewrite Ha, Hr, Hm, Hright, Hs in Hspec. simpl in Hspec. injection Hspec as <- HA1.
  set (b1 := set_right me IPC_PORT_RIGHT_SEND_ONCE b).
  assert (abs (data s1) !! c = Some b1) as Hb1.
  { rewrite <-HA1, lookup_alter_eq, lookup_insert_ne by done. rewrite Hb. simpl.
    unfold give. rewrite Hpub, andb_false_r, Hnone. done. }
  assert (abs (data s1) !! n = Some (set_msgs rest a)) as Hn1.
  { by rewrite <-HA1, lookup_alter_ne, lookup_insert_eq. }
  assert (∀ x, negb (Z.lor x 0 =? 0) = negb (x =? 0)) as Hlor by (intros; by rewrite Z.lor_0_r).
  assert (∀ f, Z.land f IPC_MSG_MASK = 0 → f ≠ 0 → ∀ y, Z.lor f y =? IPC_MSG_NONE = false) as Hmsg.
  { intros f _ Hf y. apply Z.eqb_neq. intros Hor%Z.lor_eq_0_iff. tauto. }
  rewrite wp_bind. eapply wp_mono; [by apply (send_page_meets self me Hself _ 0 s1)| |done].
  intros e1 s2 (Hi2&_&_&Hspec). unfold spec_send in Hspec. simpl in Hspec.
  rewrite andb_false_r, Hd, Hs, Hn1, Hb1 in Hspec.
  change (may_receive me (set_msgs rest a)) with (may_receive me a) in Hspec. rewrite Hr in Hspec.
  change (public b1) with (public b) in Hspec. rewrite Hpub in Hspec. unfold IPC_MSG_REPLY in Hspec.
  rewrite (Hmsg IPC_MSG_FLAG_REPLY) in Hspec by done. unfold use_send in Hspec.
  assert (a_right me b1 = IPC_PORT_RIGHT_SEND_ONCE) as Hr1
    by (unfold a_right, b1; simpl; by rewrite lookup_insert_eq).
  rewrite Hr1 in Hspec. simpl in Hspec. injection Hspec as <- HA2.
  match type of HA2 with <[c := ?y]> _ = _ => set (b2 := y) in HA2 end.
  assert (abs (data s2) !! c = Some b2) as Hb2 by (by rewrite <-HA2, lookup_insert_eq).
  assert (abs (data s2) !! n = Some (set_msgs rest a)) as Hn2
    by (by rewrite <-HA2, lookup_insert_ne).
  rewrite wp_bind. eapply wp_mono; [by apply (send_page_meets self me Hself _ 0 s2)| |done].
  intros e2 s3 (Hi3&_&_&Hspec). unfold spec_send in Hspec. simpl in Hspec.
  rewrite andb_false_r, Hd, Hs, Hn2, Hb2 in Hspec.
  change (may_receive me (set_msgs rest a)) with (may_receive me a) in Hspec. rewrite Hr in Hspec.
  change (public b2) with (public b) in Hspec. rewrite Hpub in Hspec. unfold IPC_MSG_ERROR in Hspec.
  rewrite (Hmsg IPC_MSG_FLAG_ERROR) in Hspec by done. unfold use_send in Hspec.
  assert (a_right me b2 = 0) as Hr2
    by (unfold a_right, b2; simpl; by rewrite lookup_insert_eq).
  rewrite Hr2 in Hspec. simpl in Hspec. injection Hspec as <- HA3.
  rewrite wp_ret. split; [done|]. exists b2. by rewrite <-HA3.
Qed.
End properties.

(** * The theorems *)

Section theorems.
Context {Ob V : Type} `{ObjPool Ob} `{TaskMemory V}.
Context (self me : Z) (Hself : self ≠ 0).
Notation ipc := (@ipc Ob V).
Implicit Types (s : ipc) (n t : Z).

(** C37: a queue is first in, first out: when one task sends messages without
    pages to an empty port, each of which may be accepted or refused, another
    task that receives on the port gets exactly the accepted messages, in this
    order, and then finds the queue empty.  Nothing but a pool that cannot
    grow stops either of them. *)
Theorem ipc_fifo self' me' n l want s a :
  self' ≠ 0 → idle self me s → is_Some (tasks (data s) !! me') →
  abs (data s) !! n = Some a → may_receive me' a = true → a_msgs a = [] →
  Forall (λ h, ipchdr_dst h = n) l →
  wp (es <- sends self me l ;; rs <- receives self' me' n want (S (length (accepted l es))) ;; ret (es, rs))
    (λ r _, length r.1 = length l ∧ r.2 = ((λ h, Ok (h, 0)) <$> accepted l r.1) ++ [Err ERROR_AGAIN])
    (alloc_stop (Ob:=Ob)) s.
Proof. intros. by eapply fifo_ok. Qed.

(** C27: a reply right is good for one message: the receiver of a message that
    carries [IPC_PORT_RIGHT_SEND_ONCE] can send one reply to the port it came
    from, and the next one is refused with [ERROR_NO_RIGHT]. *)
Theorem ipc_reply_once n h rest c e a b s :
  idle self me s →
  abs (data s) !! n = Some a → may_receive me a = true → a_msgs a = (h, 0) :: rest →
  ipchdr_dst h = n → ipchdr_src h = c → ipchdr_right h = IPC_PORT_RIGHT_SEND_ONCE → c ≠ n →
  abs (data s) !! c = Some b → public b = false → a_right me b = IPC_PORT_RIGHT_NONE →
  wp (answer_twice self me n h e)
    (λ r s', r = (Ok (h, 0), Ok tt, Err ERROR_NO_RIGHT) ∧
       ∃ b', abs (data s') !! c = Some b' ∧ a_msgs b' = a_msgs b ++ [(IPC_HEADER_REPLY h, 0)])
    alloc_stop s.
Proof. intros. by eapply reply_once_ok. Qed.

End theorems.

(** * A machine that runs

    Pages are numbers, a direct-mapped page is its own address, and the bytes
    written are forgotten. *)

Record toy := mk_toy { toy_maps : gmap (Z * Z) Z; toy_next : Z; toy_free : list Z }.

#[export] Instance toy_memory : TaskMemory toy := {|
  kernel_vm := 1;
  tm_page_alloc v := Done (Ok (toy_next v))
    (mk_toy (toy_maps v) (toy_next v + PAGE_SIZE) (toy_free v));
  tm_page_release p v := Done tt (mk_toy (toy_maps v) (toy_next v) (p :: toy_free v));
  tm_page_extract vm va v :=
    Done (match toy_maps v !! (vm, va) with Some p => Ok p | None => Err ERROR_NOT_FOUND end) v;
  tm_page_map vm va p v := Done (Ok tt) (mk_toy (<[(vm, va) := p]> (toy_maps v)) (toy_next v) (toy_free v));
  tm_page_unmap vm va p v := Done (Ok tt) (mk_toy (delete (vm, va) (toy_maps v)) (toy_next v) (toy_free v));
  tm_page_map_direct p v := Done (Ok p) v;
  tm_page_unmap_direct _ _ v := Done (Ok tt) v;
  tm_vm_alloc_address _ _ _ v := Done (Ok 0x10000) v;
  tm_vm_free_address _ _ v := Done (Ok tt) v;
  tm_write _ _ v := Done tt v
|}.

#[local] Notation machine := (@ipc (list Z * Z) toy).

(** Task 10 (thread 1) and task 11 (thread 2, which has a page at 0x2000). *)
Definition m0 : machine :=
  mk_ipc (ipc_port_init ([], 1) ([], 1) ([], 1)
      {[ 10 := mk_task 0 0x100 [] 0; 11 := mk_task 0 0x101 [] 0 ]})
    (mutex_init 0) ∅ [] (mk_toy {[ (0x101, 0x2000) := 0x5000 ]} 0x8000 []).

(** Task 10 makes port 3; task 11 makes port 4; task 10 lets task 11 send to
    port 3; task 11 sends a message that asks for a reply. *)
Definition m1 : machine := outcome_state m0 (ipc_port_allocate 1 10 2 0 m0).
Definition m2 : machine := outcome_state m0 (ipc_port_allocate 2 11 4 0 m1).
Definition m3 : machine :=
  outcome_state m0 (ipc_port_right_grant 1 10 11 3 IPC_PORT_RIGHT_SEND m2).
Definition request (msg : Z) : ipc_header := mk_header 4 3 IPC_PORT_RIGHT_SEND_ONCE msg 7 0.
Definition m4 : machine := outcome_state m0 (ipc_port_send_page 2 11 (request 5) 0 m3).

(** A step that comes back. *)
Lemma wp_run {T} (m : M machine T) (Q : T → machine → Prop) E s :
  wp m Q E s → (∃ a, m s = Done a (outcome_state m0 (m s))) → ∃ a, Q a (outcome_state m0 (m s)).
Proof. unfold wp. intros Hw [a Ha]. exists a. by rewrite Ha in Hw |- *. Qed.

Lemma init_wf {Ob} `{ObjPool Ob} (o1 o2 o3 : Ob) t :
  op_inv o1 → op_inv o2 → op_inv o3 →
  wf (ipc_port_init o1 o2 o3 t) ∧ abs (ipc_port_init o1 o2 o3 t) = ∅.
Proof.
  intros H1 H2 H3. assert (∀ {B} p, ¬ is_Some ((∅ : gmap Z B) !! p)) as He.
  { intros B p [x Hx]. by rewrite lookup_empty in Hx. }
  split; [|done]. split; simpl; try (intros * Hx; by rewrite lookup_empty in Hx);
    try (intros * Hx; by apply elem_of_nil in Hx); try done.
  - apply SSorted_nil.
  - split; [done|]. intros p Hp. by apply He in Hp.
  - split; [done|]. intros p Hp. by apply He in Hp.
  - split; [done|]. intros p Hp. by apply He in Hp.
Qed.

Lemma m0_idle self me : me = 10 ∨ me = 11 → idle self me m0.
Proof.
  intros Hme. split; [|split; [split|]].
  - apply init_wf; split; simpl; try lia; intros x Hx; by apply elem_of_nil in Hx.
  - done.
  - intros p. simpl. rewrite !lookup_empty. done.
  - intros p y. change (port_sync m0) with (∅ : gmap Z (mutex * cv)). by rewrite lookup_empty.
  - destruct Hme as [-> | ->]; vm_compute; by eexists.
Qed.

(** The state after a step, for each of the two tasks. *)
Lemma step_idle {T} self self' me me' (m : M machine T) (Q : T → machine → Prop) E s :
  wp m Q E s → (∃ a, m s = Done a (outcome_state m0 (m s))) →
  (∀ a s', Q a s' → idle self me s') → is_Some (tasks (data (outcome_state m0 (m s))) !! me') →
  idle self' me' (outcome_state m0 (m s)).
Proof.
  intros Hw Hr HQ Ht. destruct (wp_run m Q E s Hw Hr) as [a Ha].
  eapply idle_other; [by eapply HQ|done].
Qed.

Ltac runs := vm_compute; by eexists.

Lemma m1_idle self me : me = 10 ∨ me = 11 → idle self me m1.
Proof.
  intros Hme. eapply (step_idle 1 self 10 me).
  - apply (allocate_ok 1 10 ltac:(done) 2 0 m0); [by apply m0_idle; left|vm_compute; done|vm_compute; lia].
  - runs.
  - intros a s' (n&_&_&_&_&Hi&_). exact Hi.
  - destruct Hme as [-> | ->]; runs.
Qed.

Lemma m2_idle self me : me = 10 ∨ me = 11 → idle self me m2.
Proof.
  intros Hme. eapply (step_idle 2 self 11 me).
  - apply (allocate_ok 2 11 ltac:(done) 4 0 m1); [by apply m1_idle; right|vm_compute; done|vm_compute; lia].
  - runs.
  - intros a s' (n&_&_&_&_&Hi&_). exact Hi.
  - destruct Hme as [-> | ->]; runs.
Qed.

Lemma step_meets {T} self self' me me' (m : M machine T) spec s :
  meets self me m spec s → (∃ a, m s = Done a (outcome_state m0 (m s))) →
  is_Some (tasks (data (outcome_state m0 (m s))) !! me') → idle self' me' (outcome_state m0 (m s)).
Proof. intros Hw Hr Ht. eapply step_idle; [exact Hw|done| |done]. by intros a s' []. Qed.

Lemma m3_idle self me : me = 10 ∨ me = 11 → idle self me m3.
Proof.
  intros Hme. eapply (step_meets 1 self 10 me _ (spec_right_grant 10 11 3 IPC_PORT_RIGHT_SEND)).
  - apply right_grant_meets; [done|by apply m2_idle; left|runs].
  - runs.
  - destruct Hme as [-> | ->]; runs.
Qed.

Lemma m4_idle self me : me = 10 ∨ me = 11 → idle self me m4.
Proof.
  intros Hme. eapply (step_meets 2 self 11 me _ (spec_send 11 (request 5) 0)).
  - apply send_page_meets; [done|by apply m3_idle; right].
  - runs.
  - destruct Hme as [-> | ->]; runs.
Qed.

(** * Witnesses *)

Lemma ipc_port_send_page_correct_witness :
  wp (ipc_port_send_page 2 11 (request 5) 0)
    (λ r s', idle 2 11 s' ∧ memory s' = memory m3 ∧ same_tasks m3 s' ∧
       spec_send 11 (request 5) 0 (abs (data m3)) = (r, abs (data s'))) alloc_stop m3.
Proof. apply (ipc_port_send_page_correct 2 11); [lia|]. apply m3_idle. by right. Defined.

Lemma ipc_port_receive_correct_witness :
  ∃ a, ipc_port_receive 1 10 3 true m4 = Done a (outcome_state m0 (ipc_port_receive 1 10 3 true m4)) ∧
    a = Ok (request 5, 0).
Proof.
  destruct (wp_run _ _ _ m4 (ipc_port_receive_correct 1 10 ltac:(lia) 3 true (mk_task 0 0x100 [1] 0) m4
    ltac:(by apply m4_idle; left) ltac:(vm_compute; reflexivity)) ltac:(runs)) as (a&_).
  exists (Ok (request 5, 0)). split; vm_compute; reflexivity.
Defined.

Lemma ipc_fifo_witness :
  wp (es <- sends 2 11 [request 5; request 6] ;;
      rs <- receives 1 10 3 false (S (length (accepted [request 5; request 6] es))) ;; ret (es, rs))
    (λ r _, length r.1 = 2%nat ∧ r.2 = ((λ h, Ok (h, 0)) <$> accepted [request 5; request 6] r.1) ++ [Err ERROR_AGAIN])
    (alloc_stop (Ob:=list Z * Z)) m3.
Proof.
  apply (ipc_fifo 2 11 ltac:(lia) 1 10 3 [request 5; request 6] false m3
    (default (new_port 0 0) (abs (data m3) !! 3))).
  - lia.
  - apply m3_idle. by right.
  - runs.
  - vm_compute. reflexivity.
  - vm_compute. reflexivity.
  - vm_compute. reflexivity.
  - repeat constructor.
Defined.

Definition m4_port (n : Z) : aport := default (new_port 0 0) (abs (data m4) !! n).

Lemma ipc_reply_once_witness :
  wp (answer_twice 1 10 3 (request 5) 1)
    (λ r s', r = (Ok (request 5, 0), Ok tt, Err ERROR_NO_RIGHT) ∧
       ∃ b', abs (data s') !! 4 = Some b' ∧ a_msgs b' = a_msgs (m4_port 4) ++ [(IPC_HEADER_REPLY (request 5), 0)])
    alloc_stop m4.
Proof.
  refine (ipc_reply_once 1 10 _ 3 (request 5) [] 4 1 (m4_port 3) (m4_port 4) m4
    (m4_idle 1 10 _) _ _ _ _ _ _ _ _ _ _); try (vm_compute; reflexivity); try lia.
Defined.

Lemma ipc_port_allocate_fresh_witness : ∃ n, abs (data m1) !! n = None ∧ n = 4.
Proof.
  destruct (wp_run _ _ _ m1 (ipc_port_allocate_fresh 2 11 ltac:(lia) 4 0 m1
    ltac:(by apply m1_idle; right) ltac:(vm_compute; done) ltac:(vm_compute; lia)) ltac:(runs))
    as (a&n&_&_&Hn&_).
  exists 4. split; [vm_compute; reflexivity|done].
Defined.

Lemma ipc_rights_correct_witness :
  meets 1 10 (ipc_port_right_grant 1 10 11 3 IPC_PORT_RIGHT_SEND)
    (spec_right_grant 10 11 3 IPC_PORT_RIGHT_SEND) m2.
Proof.
  assert (is_Some (tasks (data m2) !! 11)) as Ht by runs.
  destruct (ipc_rights_correct 1 10 ltac:(lia) 3 IPC_PORT_RIGHT_SEND m2
    (m2_idle 1 10 ltac:(by left))) as (_&Hgrant&_).
  exact (Hgrant 11 Ht).
Defined.

(** A page taken from task 11 and released, as the port is not there. *)
Lemma ipc_port_send_page_kept_witness :
  wp (ipc_port_send 2 11 (mk_header 4 9 0 5 7 0) 0x2000)
    (sent 2 11 (mk_header 4 9 0 5 7 0) (taken 0x101 0x2000) m2)
    (sent_stop 11 (mk_header 4 9 0 5 7 0) (taken 0x101 0x2000) m2) m2 ∧
  toy_free (memory (outcome_state m0 (ipc_port_send 2 11 (mk_header 4 9 0 5 7 0) 0x2000 m2))) = [0x5000].
Proof.
  split; [|vm_compute; reflexivity].
  apply (ipc_port_send_page_kept 2 11 ltac:(lia) (mk_header 4 9 0 5 7 0) 0x2000 (mk_task 0 0x101 [2] 0)).
  - apply m2_idle. by right.
  - vm_compute. reflexivity.
Defined.

Lemma ipc_port_wait_correct_witness :
  wp (ipc_port_wait 1 10 3) (wait_outcome 1 10 3 m3) never m3.
Proof. apply (ipc_port_wait_correct 1 10); [lia|]. apply m3_idle. by left. Defined.
