(* ===== verification/Task.v ===== *)
(** Tasks and threads ([mk/core/core_task.c], [mk/core/core_thread.c],
    [mk/ipc/ipc_task.c], and the machine's part in
    [mk/cpu/mips/cpu/cpu_task.c] and [cpu_thread.c]).

    A task has an address space, threads and, unless it is the kernel's, a
    port of its own.  The rights on that port are the state of IpcPort.v, on
    which the functions of [ipc_task.c] run; address spaces, kernel stacks,
    wired TLB entries and the scheduler are the interface [ThreadMemory].  The
    switch of threads is in Sched.v.

    The theorems: a new task alone receives on its port, and the receivers of
    its parent's port can send to it; a new thread has a stack and nothing to
    run; and freeing a task leaves its rights behind. *)

From S2P Require Import Prelude MachineInt Btree Mutex Pool IpcPort IpcSpec IpcAlloc.

Local Open Scope Z_scope.
Local Open Scope c_scope.

(** * [mk/core/thread.h] and [mk/cpu/mips/cpu/thread.h], [context.h], [tlb.h], [memory.h] *)

Definition THREAD_DEFAULT : Z := 0x00000000.
Definition THREAD_USTACK : Z := 0x00000001.
Definition KSTACK_SIZE : Z := 2 * PAGE_SIZE.
Definition USTACK_SIZE : Z := 128 * PAGE_SIZE.
Definition TLB_WIRED_COUNT : nat := 8.
Definition USER_BASE : Z := 0x0000000000000000.
Definition USER_END : Z := 0x000000ffffffffff.

(** The registers of a [struct context] that setting up a thread writes. *)
Inductive return_address := RA_zero | cpu_thread_trampoline | cpu_thread_trampoline_user.
Record context := mk_context { c_ra : return_address; c_s0 : Z; c_s1 : Z; c_s2 : Z; c_sp : Z }.
Definition zero_context : context := mk_context RA_zero 0 0 0 0.

(** [td_tlbwired] is the addresses of its entries, in their order. *)
Record thread := mk_thread {
  td_task : Z;
  td_flags : Z;
  td_context : context;
  td_kstack : Z;
  td_ustack_bottom : Z;
  td_ustack_top : Z;
  td_tlbwired : list Z
}.
(** What a new thread's memory holds is not known; it is written before it is
    read. *)
Definition fresh_thread : thread := mk_thread 0 0 zero_context 0 0 0 [].
Definition with_task (t : Z) (x : thread) : thread :=
  mk_thread t (td_flags x) (td_context x) (td_kstack x) (td_ustack_bottom x) (td_ustack_top x) (td_tlbwired x).
Definition with_flags (f : Z) (x : thread) : thread :=
  mk_thread (td_task x) f (td_context x) (td_kstack x) (td_ustack_bottom x) (td_ustack_top x) (td_tlbwired x).
Definition with_context (c : context) (x : thread) : thread :=
  mk_thread (td_task x) (td_flags x) c (td_kstack x) (td_ustack_bottom x) (td_ustack_top x) (td_tlbwired x).
Definition with_kstack (k : Z) (x : thread) : thread :=
  mk_thread (td_task x) (td_flags x) (td_context x) k (td_ustack_bottom x) (td_ustack_top x) (td_tlbwired x).
Definition with_ustack (b e : Z) (x : thread) : thread :=
  mk_thread (td_task x) (td_flags x) (td_context x) (td_kstack x) b e (td_tlbwired x).
Definition with_wired (l : list Z) (x : thread) : thread :=
  mk_thread (td_task x) (td_flags x) (td_context x) (td_kstack x) (td_ustack_bottom x) (td_ustack_top x) l.

(** * What the machine does for tasks and threads *)

Class ThreadMemory (V : Type) := {
  th_vm_setup : Z → Z → M V (result Z);         (* [vm_setup(&vm, base, end)] *)
  th_vm_exit : Z → M V unit;
  th_vm_alloc : Z → M V (result Z);             (* [vm_alloc(&kernel_vm, size, &vaddr, VM_ALLOC_DEFAULT | VM_ALLOC_HIGH)] *)
  th_vm_free : Z → Z → M V (result unit);       (* [vm_free(&kernel_vm, size, vaddr)] *)
  th_wire : Z → M V unit;                       (* the page table's part of [tlb_wired_wire(..., kernel_vm.vm_pmap, vaddr)] *)
  th_sched_setup : Z → M V unit                 (* [scheduler_thread_setup(td)] *)
}.

Section task.
Context {Ob V : Type} `{ObjPool Ob} `{TaskMemory V} `{ThreadMemory V}.
Notation ipc := (@ipc Ob V).

(** The tasks themselves are in the state of the ports. *)
Record kernel := mk_kernel {
  k_ipc : ipc;
  task_pool : Ob;
  task_list : list Z;
  t_threads : gmap Z (list Z);
  thread_pool : Ob;
  threads : gmap Z thread
}.
Definition set_ipc (i : ipc) (k : kernel) : kernel :=
  mk_kernel i (task_pool k) (task_list k) (t_threads k) (thread_pool k) (threads k).
Definition set_task_pool (o : Ob) (k : kernel) : kernel :=
  mk_kernel (k_ipc k) o (task_list k) (t_threads k) (thread_pool k) (threads k).
Definition set_task_list (l : list Z) (k : kernel) : kernel :=
  mk_kernel (k_ipc k) (task_pool k) l (t_threads k) (thread_pool k) (threads k).
Definition set_t_threads (m : gmap Z (list Z)) (k : kernel) : kernel :=
  mk_kernel (k_ipc k) (task_pool k) (task_list k) m (thread_pool k) (threads k).
Definition set_thread_pool (o : Ob) (k : kernel) : kernel :=
  mk_kernel (k_ipc k) (task_pool k) (task_list k) (t_threads k) o (threads k).
Definition set_threads (m : gmap Z thread) (k : kernel) : kernel :=
  mk_kernel (k_ipc k) (task_pool k) (task_list k) (t_threads k) (thread_pool k) m.

Definition on_ipc {A} (m : M ipc A) : M kernel A := zoom k_ipc set_ipc m.
Definition on_mem {A} (m : M V A) : M kernel A := on_ipc (on_memory m).

(** [task->...] *)
Definition load_task (t : Z) : M kernel task := on_ipc (on_data (get_task t)).
Definition store_task (t : Z) (x : task) : M kernel unit :=
  on_ipc (on_data (modify (λ d, set_tasks (<[t := x]> (tasks d)) d))).
Definition load_thread (td : Z) : M kernel thread := k <- get ;; deref "struct thread" (threads k !! td).
Definition store_thread (td : Z) (f : thread → thread) : M kernel unit :=
  x <- load_thread td ;; modify (λ k, set_threads (<[td := f x]> (threads k)) k).

Section run.
(** [current_thread()] and [current_task()]; [fuel] is for the search of a
    port number. *)
Context (self current_task : Z) (fuel : nat).

(** ** [ipc_task.c] *)

(** Needs to be implemented, the source says. *)
Definition ipc_task_free (task : Z) : M kernel unit := ret tt.

Definition ipc_task_setup (parent task : Z) : M kernel (result unit) :=
  x <- load_task task ;;
  store_task task (mk_task (t_flags x) (t_vm x) [] (ipct_task_port x)) ;;;
  if negb (Z.land (t_flags x) TASK_KERNEL =? 0) then
    if negb (parent =? IPC_PORT_UNKNOWN) then halt (Panic "kernel task must not have parent IPC port.")
    else ret (Ok tt)
  else
    port <-? on_ipc (ipc_port_allocate self current_task fuel IPC_PORT_FLAG_DEFAULT) ;;
    x <- load_task task ;;
    store_task task (mk_task (t_flags x) (t_vm x) (ipct_rights x) port) ;;;
    (if negb (parent =? IPC_PORT_UNKNOWN) then
       or_panic "ipc_port_right_grant (send) failed"
         (on_ipc (ipc_port_right_send self current_task parent port IPC_PORT_RIGHT_SEND))
     else ret tt) ;;;
    or_panic "ipc_port_right_grant (receive) failed"
      (on_ipc (ipc_port_right_grant self current_task task port IPC_PORT_RIGHT_RECEIVE)) ;;;
    or_panic "ipc_port_right_drop failed"
      (on_ipc (ipc_port_right_drop self current_task port IPC_PORT_RIGHT_RECEIVE)) ;;;
    ret (Ok tt).

(** ** [cpu_task.c] *)

Definition cpu_task_free (task : Z) : M kernel unit :=
  x <- load_task task ;;
  if Z.land (t_flags x) TASK_KERNEL =? 0 then on_mem (th_vm_exit (t_vm x)) else ret tt.

Definition cpu_task_setup (task : Z) : M kernel (result unit) :=
  x <- load_task task ;;
  if Z.land (t_flags x) TASK_KERNEL =? 0 then
    vm <-? on_mem (th_vm_setup USER_BASE USER_END) ;;
    store_task task (mk_task (t_flags x) vm (ipct_rights x) (ipct_task_port x)) ;;;
    ret (Ok tt)
  else
    store_task task (mk_task (t_flags x) 0 (ipct_rights x) (ipct_task_port x)) ;;;
    ret (Ok tt).

(** ** [core_task.c] *)

(** The names of tasks and threads are left out. *)
Definition task_create (parent flags : Z) : M kernel (result Z) :=
  task <- zoom task_pool set_task_pool op_alloc ;;
  if task =? 0 then ret (Err ERROR_EXHAUSTED)
  else
    modify (λ k, set_t_threads (<[task := []]> (t_threads k)) k) ;;;
    modify (λ k, set_task_list (task_list k ++ [task]) k) ;;;
    store_task task (mk_task flags 0 [] 0) ;;;
    or_panic "need to destroy task, cpu_task_setup failed" (cpu_task_setup task) ;;;
    or_panic "need to destroy task, ipc_task_setup failed" (ipc_task_setup parent task) ;;;
    ret (Ok task).

Definition task_free (task : Z) : M kernel unit :=
  k <- get ;;
  l <- deref "struct task" (t_threads k !! task) ;;
  assert_ (bool_decide (l = [])) "Freeing task must not have any threads." ;;;
  modify (λ k, set_task_list (filter (λ t, t ≠ task) (task_list k)) k) ;;;
  cpu_task_free task ;;;
  ipc_task_free task ;;;
  on_ipc (on_data (modify (λ d, set_tasks (delete task (tasks d)) d))) ;;;
  modify (λ k, set_t_threads (delete task (t_threads k)) k) ;;;
  zoom task_pool set_task_pool (op_free task).

(** ** [cpu_thread.c] *)

Definition cpu_thread_free (td : Z) : M kernel unit :=
  x <- load_thread td ;;
  or_panic "vm_free of kstack failed" (on_mem (th_vm_free KSTACK_SIZE (td_kstack x))).

Definition cpu_thread_set_upcall (td function arg : Z) : M kernel unit :=
  store_thread td (λ x, with_context
    (mk_context cpu_thread_trampoline td function arg (u64 (td_kstack x + KSTACK_SIZE))) x).
Definition cpu_thread_set_upcall_user (td function arg : Z) : M kernel unit :=
  store_thread td (λ x, with_context
    (mk_context cpu_thread_trampoline_user td function arg (u64 (td_kstack x + KSTACK_SIZE))) x).

Definition tlb_wired_init (td : Z) : M kernel unit := store_thread td (with_wired []).
Definition tlb_wired_wire (td vaddr : Z) : M kernel unit :=
  x <- load_thread td ;;
  if (TLB_WIRED_COUNT <=? length (td_tlbwired x))%nat then halt (Panic "no free wired slots.")
  else on_mem (th_wire (PAGE_FLOOR vaddr)) ;;;
    store_thread td (λ x, with_wired (td_tlbwired x ++ [PAGE_FLOOR vaddr]) x).

(** [for (off = 0; off < KSTACK_SIZE; off += PAGE_SIZE)] *)
Fixpoint wire_kstack (n : nat) (td kstack off : Z) : M kernel unit :=
  match n with
  | O => ret tt
  | S n => tlb_wired_wire td (u64 (kstack + off)) ;;; wire_kstack n td kstack (off + PAGE_SIZE)
  end.

(** [cpu_thread_exception], as an address. *)
Context (cpu_thread_exception : Z).

Definition cpu_thread_setup (td : Z) : M kernel (result unit) :=
  tlb_wired_init td ;;;
  cpu_thread_set_upcall td cpu_thread_exception td ;;;
  kstack <-? on_mem (th_vm_alloc KSTACK_SIZE) ;;
  store_thread td (with_kstack kstack) ;;;
  wire_kstack (Z.to_nat (KSTACK_SIZE / PAGE_SIZE)) td kstack 0 ;;;
  store_thread td (with_context zero_context) ;;;
  x <- load_thread td ;;
  if negb (Z.land (td_flags x) THREAD_USTACK =? 0) then
    t <- load_task (td_task x) ;;
    ustack <-? on_mem (tm_vm_alloc_address (t_vm t) (USTACK_SIZE / PAGE_SIZE) true) ;;
    store_thread td (with_ustack ustack (u64 (ustack + USTACK_SIZE))) ;;;
    ret (Ok tt)
  else
    store_thread td (with_ustack 0 0) ;;;
    ret (Ok tt).

(** ** [core_thread.c] *)

Definition thread_create (task flags : Z) : M kernel (result Z) :=
  assert_ (negb (task =? 0)) "thread needs a task" ;;;
  td <- zoom thread_pool set_thread_pool op_alloc ;;
  if td =? 0 then ret (Err ERROR_EXHAUSTED)
  else
    modify (λ k, set_threads (<[td := with_task task fresh_thread]> (threads k)) k) ;;;
    k <- get ;;
    l <- deref "struct task" (t_threads k !! task) ;;
    modify (λ k, set_t_threads (<[task := l ++ [td]]> (t_threads k)) k) ;;;
    store_thread td (with_flags flags) ;;;
    on_mem (th_sched_setup td) ;;;
    or_panic "need to destroy thread, cpu_thread_setup failed" (cpu_thread_setup td) ;;;
    ret (Ok td).

Definition thread_free (td : Z) : M kernel unit :=
  x <- load_thread td ;;
  k <- get ;;
  l <- deref "struct task" (t_threads k !! td_task x) ;;
  modify (λ k, set_t_threads (<[td_task x := filter (λ t, t ≠ td) l]> (t_threads k)) k) ;;;
  cpu_thread_free td ;;;
  modify (λ k, set_threads (delete td (threads k)) k) ;;;
  zoom thread_pool set_thread_pool (op_free td) ;;;
  k <- get ;;
  l <- deref "struct task" (t_threads k !! td_task x) ;;
  if bool_decide (l = []) then task_free (td_task x) else ret tt.

Definition thread_set_upcall (td function arg : Z) : M kernel unit := cpu_thread_set_upcall td function arg.
Definition thread_set_upcall_user (td function arg : Z) : M kernel unit := cpu_thread_set_upcall_user td function arg.
End run.
End task.

(** * Rights as bits *)

Lemma flag_lor r f g : Z.land f g = 0 → flag_set (Z.lor r f) g = flag_set r g.
Proof. intros Hfg. unfold flag_set. by rewrite Z.land_lor_distr_l, Hfg, Z.lor_0_r. Qed.
Lemma flag_lor_same r f : f ≠ 0 → flag_set (Z.lor r f) f = true.
Proof.
  intros Hf. unfold flag_set, truthy. rewrite Z.land_lor_distr_l, Z.land_diag.
  destruct (Z.eqb_spec (Z.lor (Z.land r f) f) 0) as [E|]; [|done]. by apply Z.lor_eq_0_iff in E as [_ ?].
Qed.
Lemma flag_land r f g : flag_set (Z.land r f) g = flag_set r (Z.land f g).
Proof. unfold flag_set. by rewrite Z.land_assoc. Qed.

Section facts.
Context {Ob V : Type} `{ObjPool Ob} `{TaskMemory V} `{ThreadMemory V}.
Context (self me : Z) (Hself : self ≠ 0) (fuel : nat).
Notation ipc := (@ipc Ob V).
Notation kernel := (@kernel Ob V).
Notation idle := (idle self me).
Implicit Types (k : kernel) (s : ipc) (t td n : Z).

Definition ports k : gmap Z aport := abs (data (k_ipc k)).
Definition tasks_of k : gmap Z task := tasks (data (k_ipc k)).

(** Between operations: the ports are, and every task is an object of the
    pool. *)
Record kernel_ok k : Prop := {
  ko_idle : idle (k_ipc k);
  ko_pool : op_inv (task_pool k);
  ko_live t : is_Some (tasks_of k !! t) → op_live (task_pool k) t
}.

(** Writing a task. *)
Lemma idle_store s t x :
  idle s → idle (set_data (set_tasks (<[t := x]> (tasks (data s))) (data s)) s).
Proof.
  intros (Hw&Hl&Ht). split; [|split].
  - destruct Hw. split; try done. intros p y r Hy Hr. destruct (wf_right_in p y r Hy Hr) as [H1' H2']. split; [done|].
    cbn. apply lookup_insert_is_Some'. by right.
  - by destruct Hl.
  - cbn. apply lookup_insert_is_Some'. by right.
Qed.

Lemma wp_load_task k t x (Q : task → kernel → Prop) E :
  tasks_of k !! t = Some x → Q x k → wp (load_task t) Q E k.
Proof.
  intros Hx HQ. unfold load_task, on_ipc. rewrite wp_zoom. unfold on_data. rewrite wp_zoom. unfold get_task.
  rewrite wp_bind, wp_get, wp_deref. unfold tasks_of in Hx. rewrite Hx. by destruct k as [[] ? ? ? ? ?].
Qed.
Lemma wp_store_task k t x (Q : unit → kernel → Prop) E :
  Q tt (set_ipc (set_data (set_tasks (<[t := x]> (tasks_of k)) (data (k_ipc k))) (k_ipc k)) k) →
  wp (store_task t x) Q E k.
Proof. intros HQ. unfold store_task, on_ipc. rewrite wp_zoom. unfold on_data. by rewrite wp_zoom, wp_modify. Qed.
Lemma wp_on_ipc {A} (m : M ipc A) (Q : A → kernel → Prop) E k :
  wp m (λ a s, Q a (set_ipc s k)) E (k_ipc k) → wp (on_ipc m) Q E k.
Proof. intros. unfold on_ipc. by rewrite wp_zoom. Qed.

(** What [same_tasks] says of one task. *)
Lemma same_task s s' t x :
  same_tasks s s' → tasks (data s) !! t = Some x →
  ∃ l, tasks (data s') !! t = Some (mk_task (t_flags x) (t_vm x) l (ipct_task_port x)).
Proof.
  intros Hs Hx. specialize (Hs t). rewrite Hx in Hs. cbn in Hs.
  destruct (tasks (data s') !! t) as [[f v l p]|]; cbn in Hs; [|done]. injection Hs as <- <- <-. by exists l.
Qed.
Lemma same_tasks_some s s' t : same_tasks s s' → is_Some (tasks (data s') !! t) → is_Some (tasks (data s) !! t).
Proof.
  intros Hs Ht. apply fmap_is_Some with (f := λ x : task, (t_flags x, t_vm x, ipct_task_port x)) in Ht.
  rewrite (Hs t) in Ht. by apply fmap_is_Some in Ht.
Qed.

(** ** A task's port *)

(** The receive right of the port is with [t] alone, and its send right with
    the receivers of the parent's port. *)
Record task_port (t : Z) (parent : option aport) (a : aport) : Prop := {
  tp_msgs : a_msgs a = [];
  tp_private : public a = false;
  tp_receive u : may_receive u a = bool_decide (u = t);
  tp_send u : flag_set (a_right u a) IPC_PORT_RIGHT_SEND =
    match parent with Some d => may_receive u d | None => false end
}.

(** The port with the rights the new task's receivers get. *)
Definition port_for (parent : option aport) : aport :=
  match parent with
  | Some d => give_all IPC_PORT_RIGHT_SEND d (new_port me IPC_PORT_FLAG_DEFAULT)
  | None => new_port me IPC_PORT_FLAG_DEFAULT
  end.

Lemma a_right_give_all right d a u :
  public a = false →
  a_right u (give_all right d a) = if may_receive u d then Z.lor (a_right u a) right else a_right u a.
Proof.
  intros Hp. unfold give_all. rewrite Hp, andb_false_r. unfold a_right, may_receive, a_right. cbn [a_rights].
  rewrite lookup_merge. unfold diag_None. destruct (a_rights a !! u) as [y|], (a_rights d !! u) as [z|]; cbn; try (by destruct (flag_set z _)); done.
Qed.

Lemma new_right u : a_right u (new_port me IPC_PORT_FLAG_DEFAULT) = if decide (u = me) then IPC_PORT_RIGHT_RECEIVE else 0.
Proof. unfold a_right. cbn. case_decide as E; [by subst; rewrite lookup_singleton_eq|by rewrite lookup_singleton_ne by congruence]. Qed.

Lemma port_for_facts parent :
  a_msgs (port_for parent) = [] ∧ public (port_for parent) = false ∧
  (∀ u, may_receive u (port_for parent) = bool_decide (u = me)) ∧
  (∀ u, flag_set (a_right u (port_for parent)) IPC_PORT_RIGHT_SEND =
    match parent with Some d => may_receive u d | None => false end) ∧
  is_Some (a_rights (port_for parent) !! me).
Proof.
  assert (public (new_port me IPC_PORT_FLAG_DEFAULT) = false) as Hp by done.
  destruct parent as [d|]; cbn [port_for].
  - split; [done|split; [done|split; [|split]]].
    + intros u. unfold may_receive at 1. rewrite a_right_give_all, new_right by done. destruct (may_receive u d), (decide (u = me)) as [->|];
        rewrite ?bool_decide_true, ?bool_decide_false by done; done.
    + intros u. rewrite a_right_give_all, new_right by done. destruct (may_receive u d); by case_decide.
    + unfold give_all. rewrite Hp, andb_false_r. cbn [a_rights]. rewrite lookup_merge.
      cbn [a_rights new_port]. rewrite lookup_singleton_eq. unfold diag_None.
      destruct (a_rights d !! me) as [z|]; cbn; [destruct (flag_set z _)|]; by eexists.
  - split; [done|split; [done|split; [|split]]].
    + intros u. unfold may_receive. rewrite new_right. by case_decide; rewrite ?bool_decide_true, ?bool_decide_false by done.
    + intros u. rewrite new_right. by case_decide.
    + cbn. rewrite lookup_singleton_eq. by eexists.
Qed.

(** The receive right handed from the creator to the task. *)
Lemma handed t parent a :
  t ≠ me → drop_right me IPC_PORT_RIGHT_RECEIVE (give t IPC_PORT_RIGHT_RECEIVE (port_for parent)) = Some a →
  task_port t parent a.
Proof.
  destruct (port_for_facts parent) as (Hm&Hp&Hr&Hs&Hme). intros Ht Hd.
  assert (give t IPC_PORT_RIGHT_RECEIVE (port_for parent) =
    set_right t (Z.lor (a_right t (port_for parent)) IPC_PORT_RIGHT_RECEIVE) (port_for parent)) as Hg.
  { unfold give. by rewrite Hp, andb_false_r. }
  rewrite Hg in Hd. unfold drop_right in Hd. cbn [a_rights set_right] in Hd. rewrite lookup_insert_ne in Hd by done.
  destruct Hme as [r Hme]. rewrite Hme in Hd. cbn in Hd. injection Hd as <-.
  assert (a_right me (port_for parent) = r) as Hra by (unfold a_right; by rewrite Hme).
  assert (∀ u, a_right u (set_right me (Z.land r (bnot 16 IPC_PORT_RIGHT_RECEIVE))
      (set_right t (Z.lor (a_right t (port_for parent)) IPC_PORT_RIGHT_RECEIVE) (port_for parent))) =
    if decide (u = me) then Z.land r (bnot 16 IPC_PORT_RIGHT_RECEIVE)
    else if decide (u = t) then Z.lor (a_right t (port_for parent)) IPC_PORT_RIGHT_RECEIVE else a_right u (port_for parent)) as Hu.
  { intros u. unfold a_right at 1. cbn [a_rights set_right]. case_decide as E1; [subst; by rewrite lookup_insert_eq|].
    rewrite lookup_insert_ne by congruence. case_decide as E2; [subst; by rewrite lookup_insert_eq|].
    by rewrite lookup_insert_ne by congruence. }
  split; [done|done| |].
  - intros u. unfold may_receive. rewrite Hu. case_decide as E1.
    + subst u. rewrite flag_land, bool_decide_false by done. change (Z.land _ IPC_PORT_RIGHT_RECEIVE) with 0.
      unfold flag_set. by rewrite Z.land_0_r.
    + case_decide as E2; [subst u; rewrite bool_decide_true by done; by apply flag_lor_same|].
      rewrite bool_decide_false by done. specialize (Hr u). unfold may_receive in Hr. by rewrite Hr, bool_decide_false.
  - intros u. rewrite Hu, <-Hs. case_decide as E1.
    + subst u. by rewrite flag_land, Hra.
    + case_decide as E2; [subst u; by rewrite flag_lor|done].
Qed.

(** ** Creating a task *)

(** Why making a task may stop. *)
Definition create_stop (w : stop) : Prop :=
  alloc_stop (Ob:=Ob) w ∨ (∃ v : V, th_vm_setup USER_BASE USER_END v = Stop w) ∨
  w = Panic "need to destroy task, cpu_task_setup failed".

(** The ports of a task that is set up, and what it says of itself. *)
Definition task_made (t : Z) (parent : option aport) k k' : Prop :=
  ∃ n a x, ports k !! n = None ∧ ports k' = <[n := a]> (ports k) ∧ task_port t parent a ∧
    tasks_of k' !! t = Some x ∧ t_flags x = TASK_DEFAULT ∧ ipct_task_port x = n.

Lemma drop_give_some t parent : t ≠ me →
  ∃ a, drop_right me IPC_PORT_RIGHT_RECEIVE (give t IPC_PORT_RIGHT_RECEIVE (port_for parent)) = Some a.
Proof.
  intros Ht. destruct (port_for_facts parent) as (_&Hp&_&_&r&Hme). unfold give. rewrite Hp, andb_false_r.
  cbn [negb]. unfold drop_right. cbn [a_rights set_right]. rewrite lookup_insert_ne by done. rewrite Hme. by eexists.
Qed.

Lemma ipc_task_setup_ok parent t x k :
  kernel_ok k → tasks_of k !! t = Some x → t_flags x = TASK_DEFAULT → t ≠ me →
  Z.of_nat (size (ports k)) < NUNRESERVED → (2 * size (ports k) + 2 ≤ fuel)%nat →
  (parent ≠ IPC_PORT_UNKNOWN → is_Some (ports k !! parent)) →
  wp (ipc_task_setup self me fuel parent t)
    (λ r k', r = Ok tt ∧ kernel_ok k' ∧
       task_made t (if decide (parent = IPC_PORT_UNKNOWN) then None else ports k !! parent) k k' ∧
       task_list k' = task_list k ∧ t_threads k' = t_threads k)
    (alloc_stop (Ob:=Ob)) k.
Proof.
  intros K Hx Hf Ht Hsize Hfuel Hparent. unfold ipc_task_setup. rewrite wp_bind.
  eapply wp_load_task; [done|]. rewrite wp_bind. apply wp_store_task. rewrite Hf. cbn [Z.land negb Z.eqb].
  set (x1 := mk_task _ _ _ _). set (s1 := set_data _ _).
  assert (idle s1) as I1 by apply idle_store, K. assert (abs (data s1) = ports k) as A1 by done.
  change (negb (Z.land TASK_DEFAULT TASK_KERNEL =? 0)) with false. cbn iota.
  rewrite wp_bind_ok. apply wp_on_ipc. cbn [k_ipc set_ipc].
  eapply wp_mono; [apply (allocate_ok self me Hself fuel IPC_PORT_FLAG_DEFAULT s1 I1); by rewrite A1| |done].
  intros r s2 (n&->&Hn&Hfree&Habs&I2&_&T2). rewrite A1 in Hfree, Habs.
  destruct (same_task s1 s2 t x1 T2) as [l2 Hx2]; [cbn; by rewrite lookup_insert_eq|].
  rewrite wp_bind. eapply wp_load_task; [exact Hx2|]. rewrite wp_bind. apply wp_store_task. cbn [k_ipc set_ipc t_flags t_vm ipct_rights x1].
  set (x3 := mk_task _ _ _ n). set (s3 := set_data _ _).
  assert (idle s3) as I3 by by apply idle_store.
  assert (abs (data s3) = <[n := new_port me IPC_PORT_FLAG_DEFAULT]> (ports k)) as A3 by done.
  assert (tasks (data s3) !! t = Some x3) as Hx3 by (cbn; by rewrite lookup_insert_eq).
  set (P := if decide (parent = IPC_PORT_UNKNOWN) then None else ports k !! parent).
  (* sending to the parent *)
  rewrite wp_bind. eapply (wp_mono _ (λ _ k', ∃ s4, k' = set_ipc s4 k ∧ idle s4 ∧ same_tasks s3 s4 ∧
    abs (data s4) = <[n := port_for P]> (ports k))); [| |done].
  { destruct (Z.eqb_spec parent IPC_PORT_UNKNOWN) as [E|E]; cbn [negb].
    - rewrite wp_ret. exists s3. split_and!; [done|done|by apply same_tasks_refl|]. unfold P. by rewrite decide_True.
    - rewrite wp_or_panic. apply wp_on_ipc. cbn [k_ipc set_ipc]. destruct (Hparent E) as [d Hd].
      assert (parent ≠ n) as Hpn by (intros ->; congruence).
      eapply wp_mono; [apply (right_send_ok self me Hself parent n IPC_PORT_RIGHT_SEND s3 I3 Hpn)| |done].
      intros r s4 (I4&_&T4&Hspec). unfold spec_right_send in Hspec. rewrite A3 in Hspec.
      rewrite lookup_insert_eq, lookup_insert_ne, Hd in Hspec by congruence.
      assert (may_receive me (new_port me IPC_PORT_FLAG_DEFAULT) = true) as Hmr
        by (unfold may_receive; rewrite new_right; by rewrite decide_True).
      rewrite Hmr in Hspec. cbn [negb] in Hspec. injection Hspec as <- Ha4.
      exists s4. split_and!; [done|done|done|]. rewrite <-Ha4, insert_insert_eq. unfold P. rewrite decide_False by done. by rewrite Hd. }
  intros [] ? (s4&->&I4&T4&A4). destruct (same_task s3 s4 t x3 T4 Hx3) as [l4 Hx4].
  (* the receive right *)
  rewrite wp_bind, wp_or_panic. apply wp_on_ipc. cbn [k_ipc set_ipc].
  eapply wp_mono; [apply (right_grant_meets self me Hself t n IPC_PORT_RIGHT_RECEIVE s4 I4); by eexists| |done].
  intros r s5 (I5&_&T5&Hspec). unfold spec_right_grant in Hspec. rewrite A4, lookup_insert_eq in Hspec.
  destruct (port_for_facts P) as (_&_&Hmr&_&_). rewrite (Hmr me), bool_decide_true in Hspec by done.
  cbn [negb] in Hspec. injection Hspec as <- A5. rewrite insert_insert_eq in A5.
  destruct (same_task s4 s5 t _ T5 Hx4) as [l5 Hx5].
  rewrite wp_bind, wp_or_panic. apply wp_on_ipc. cbn [k_ipc set_ipc].
  eapply wp_mono; [apply (right_drop_meets self me Hself n IPC_PORT_RIGHT_RECEIVE s5 I5)| |done].
  intros r s6 (I6&_&T6&Hspec). unfold spec_right_drop in Hspec. rewrite <-A5, lookup_insert_eq in Hspec.
  destruct (drop_give_some t P Ht) as [a Ha]. rewrite Ha in Hspec. injection Hspec as <- A6. rewrite insert_insert_eq in A6.
  destruct (same_task s5 s6 t _ T6 Hx5) as [l6 Hx6]. rewrite wp_ret. split; [done|split; [|split; [|done]]].
  - split; [exact I6|apply K|]. intros u Hu. apply (ko_live _ K).
    apply (same_tasks_some _ _ _ T6), (same_tasks_some _ _ _ T5), (same_tasks_some _ _ _ T4) in Hu.
    cbn in Hu. apply lookup_insert_is_Some' in Hu as [->|Hu]; [by exists x|].
    apply (same_tasks_some _ _ _ T2) in Hu. cbn in Hu. apply lookup_insert_is_Some' in Hu as [->|Hu]; [by exists x|exact Hu].
  - exists n, a, (mk_task TASK_DEFAULT (t_vm x) l6 n). split_and!; [done|by rewrite A6|by apply handed|exact Hx6|done|done].
Qed.

Lemma task_create_ok parent k :
  kernel_ok k →
  Z.of_nat (size (ports k)) < NUNRESERVED → (2 * size (ports k) + 2 ≤ fuel)%nat →
  (parent ≠ IPC_PORT_UNKNOWN → is_Some (ports k !! parent)) →
  wp (task_create self me fuel parent TASK_DEFAULT)
    (λ r k', ∃ t, r = Ok t ∧ tasks_of k !! t = None ∧ kernel_ok k' ∧
       task_made t (if decide (parent = IPC_PORT_UNKNOWN) then None else ports k !! parent) k k' ∧
       task_list k' = task_list k ++ [t] ∧ t_threads k' = <[t := []]> (t_threads k))
    create_stop k.
Proof.
  intros K Hsize Hfuel Hparent. unfold task_create. rewrite wp_bind, wp_zoom. unfold wp at 1.
  destruct (op_alloc (task_pool k)) as [t o|w] eqn:Hal; [|left; exists (task_pool k); split; [apply (ko_pool _ K)|exact Hal]].
  destruct (op_alloc_ok _ _ _ (ko_pool _ K) Hal) as (Ho&Hfresh&Hlive).
  assert (0 < t) as Ht0 by (apply (op_live_pos o); [done|]; apply Hlive; by right).
  assert (tasks_of k !! t = None) as Hnone.
  { destruct (tasks_of k !! t) eqn:E; [|done]. exfalso. apply Hfresh, (ko_live _ K). by eexists. }
  assert (t ≠ me) as Htme by (intros ->; destruct (ko_idle _ K) as (_&_&[y Hy]); unfold tasks_of in Hnone; congruence).
  rewrite (proj2 (Z.eqb_neq t 0)) by lia. rewrite wp_bind, wp_modify, wp_bind, wp_modify, wp_bind. apply wp_store_task.
  cbn [k_ipc set_task_list set_t_threads set_task_pool tasks_of].
  set (x0 := mk_task TASK_DEFAULT 0 [] 0). set (k1 := set_ipc _ _).
  assert (kernel_ok k1) as K1.
  { split; [apply idle_store, K|exact Ho|]. intros u Hu. cbn in Hu. apply Hlive.
    apply lookup_insert_is_Some' in Hu as [->|Hu]; [by right|left; by apply (ko_live _ K)]. }
  assert (tasks_of k1 !! t = Some x0) as Hx0 by (cbn; by rewrite lookup_insert_eq).
  rewrite wp_bind, wp_or_panic. unfold cpu_task_setup. rewrite wp_bind. eapply wp_load_task; [exact Hx0|].
  change (Z.land (t_flags x0) TASK_KERNEL =? 0) with true. cbn iota. rewrite wp_bind_ok. unfold on_mem. apply wp_on_ipc.
  apply wp_on_memory. unfold wp at 1. destruct (th_vm_setup USER_BASE USER_END _) as [[vm|e] v|w] eqn:Hvm; [|by right; right|by right; left; eexists].
  rewrite wp_bind. apply wp_store_task. rewrite wp_ret, wp_bind, wp_or_panic.
  set (x2 := mk_task _ _ _ _). set (k2 := set_ipc _ _).
  assert (kernel_ok k2) as K2.
  { split; [apply idle_store, idle_memory, K1|exact Ho|]. intros u Hu. apply (ko_live _ K1). cbn in Hu |- *.
    rewrite insert_insert_eq in Hu. apply lookup_insert_is_Some'. by apply lookup_insert_is_Some' in Hu. }
  assert (ports k2 = ports k) as P2 by done.
  eapply wp_mono; [apply (ipc_task_setup_ok parent t x2 k2 K2); rewrite ?P2; [cbn; by rewrite lookup_insert_eq|done..]| |by left].
  intros r k3 (->&K3&Hmade&Hl&Hth). rewrite wp_ret. exists t. rewrite P2 in Hmade.
  split_and!; [done|done|done|exact Hmade|by rewrite Hl|by rewrite Hth].
Qed.

(** A task of the kernel has no address space and no port. *)
Lemma task_create_kernel_ok k : kernel_ok k →
  wp (task_create self me fuel IPC_PORT_UNKNOWN TASK_KERNEL)
    (λ r k', ∃ t, r = Ok t ∧ t ≠ 0 ∧ t ≠ me ∧ tasks_of k !! t = None ∧ kernel_ok k' ∧
       tasks_of k' = <[t := mk_task TASK_KERNEL 0 [] 0]> (tasks_of k) ∧ ports k' = ports k ∧
       memory (k_ipc k') = memory (k_ipc k) ∧ task_list k' = task_list k ++ [t] ∧
       t_threads k' = <[t := []]> (t_threads k) ∧ threads k' = threads k ∧ thread_pool k' = thread_pool k)
    (alloc_stop (Ob:=Ob)) k.
Proof.
  intros K. unfold task_create. rewrite wp_bind, wp_zoom. unfold wp at 1.
  destruct (op_alloc (task_pool k)) as [t o|w] eqn:Hal; [|exists (task_pool k); split; [apply (ko_pool _ K)|exact Hal]].
  destruct (op_alloc_ok _ _ _ (ko_pool _ K) Hal) as (Ho&Hfresh&Hlive).
  assert (0 < t) as Ht0 by (apply (op_live_pos o); [done|]; apply Hlive; by right).
  assert (tasks_of k !! t = None) as Hnone.
  { destruct (tasks_of k !! t) eqn:E; [|done]. exfalso. apply Hfresh, (ko_live _ K). by eexists. }
  assert (t ≠ me) as Htme by (intros ->; destruct (ko_idle _ K) as (_&_&[y Hy]); unfold tasks_of in Hnone; congruence).
  rewrite (proj2 (Z.eqb_neq t 0)) by lia. rewrite wp_bind, wp_modify, wp_bind, wp_modify, wp_bind. apply wp_store_task.
  cbn [k_ipc set_task_list set_t_threads set_task_pool tasks_of].
  rewrite wp_bind, wp_or_panic. unfold cpu_task_setup. rewrite wp_bind.
  eapply wp_load_task; [cbn; by rewrite lookup_insert_eq|]. cbn [t_flags].
  change (Z.land TASK_KERNEL TASK_KERNEL =? 0) with false. cbn iota.
  rewrite wp_bind. apply wp_store_task. rewrite wp_ret, wp_bind, wp_or_panic. unfold ipc_task_setup. rewrite wp_bind.
  eapply wp_load_task; [cbn; by rewrite lookup_insert_eq|]. rewrite wp_bind. apply wp_store_task.
  cbn [t_flags t_vm ipct_task_port ipct_rights].
  change (negb (Z.land TASK_KERNEL TASK_KERNEL =? 0)) with true. cbn iota. rewrite Z.eqb_refl. cbn [negb]. rewrite !wp_ret.
  match goal with |- ∃ _, _ ∧ _ ∧ _ ∧ _ ∧ kernel_ok ?x ∧ _ => set (k' := x) end.
  assert (tasks_of k' = <[t := mk_task TASK_KERNEL 0 [] 0]> (tasks_of k)) as Htk
    by (unfold k', tasks_of; cbn; by rewrite !insert_insert_eq).
  exists t. split_and!; try done; [lia|]. split; [do 3 apply idle_store; apply K|exact Ho|].
  intros u. rewrite Htk. intros [->|Hu]%lookup_insert_is_Some'; apply Hlive; [by right|left; by apply (ko_live _ K)].
Qed.

(** ** Threads *)

(** What a thread needs of the machine; making one changes the memory by
    [keep]. *)
Context (keep : V → V → Prop) `{!PreOrder keep}.
Record thread_law : Prop := {
  tl_alloc (v : V) : wp (th_vm_alloc KSTACK_SIZE) (λ r v', keep v v' ∧ match r with
    | Ok ks => 0 ≤ ks ∧ ks mod PAGE_SIZE = 0 ∧ ks + KSTACK_SIZE < 2 ^ 64 | Err _ => True end) (λ _, True) v;
  tl_ustack vm (v : V) : wp (tm_vm_alloc_address vm (USTACK_SIZE / PAGE_SIZE) true) (λ _, keep v) (λ _, True) v;
  tl_wire a (v : V) : wp (th_wire a) (λ _, keep v) (λ _, True) v;
  tl_setup td (v : V) : wp (th_sched_setup td) (λ _, keep v) (λ _, True) v
}.
(** The machine's own reasons to stop: one of these operations does. *)
Definition machine_stop (w : stop) : Prop := ∃ v : V,
  th_vm_alloc KSTACK_SIZE v = Stop w ∨
  (∃ vm, tm_vm_alloc_address vm (USTACK_SIZE / PAGE_SIZE) true v = Stop w) ∨
  (∃ a, th_wire a v = Stop w) ∨ (∃ td, th_sched_setup td v = Stop w).
Lemma wp_machine {A} (m : M V A) (Q : A → V → Prop) v :
  (∀ w, m v = Stop w → machine_stop w) → wp m Q (λ _, True) v → wp m Q machine_stop v.
Proof. unfold wp. intros Hm Hw. destruct (m v); [done|by apply Hm]. Qed.
Ltac law L := eapply wp_mono; [apply wp_machine, L; intros; eexists; eauto 6| |first [done|by right; left]].
Context (Hlaw : thread_law) (exception : Z).

Lemma wp_load_thread k td x (Q : thread → kernel → Prop) E :
  threads k !! td = Some x → Q x k → wp (load_thread td) Q E k.
Proof. intros Hx HQ. unfold load_thread. by rewrite wp_bind, wp_get, Hx. Qed.
Lemma wp_store_thread k td x f (Q : unit → kernel → Prop) E :
  threads k !! td = Some x → Q tt (set_threads (<[td := f x]> (threads k)) k) → wp (store_thread td f) Q E k.
Proof. intros Hx HQ. unfold store_thread. rewrite wp_bind. eapply wp_load_thread; [done|]. by rewrite wp_modify. Qed.
Lemma wp_on_mem {A} (m : M V A) (Q : A → kernel → Prop) E k :
  wp m (λ a v, Q a (set_ipc (set_memory v (k_ipc k)) k)) E (memory (k_ipc k)) → wp (on_mem m) Q E k.
Proof. intros. unfold on_mem. apply wp_on_ipc. by apply wp_on_memory. Qed.

(** All but the thread [td] and the memory is as it was. *)
Record only_thread (td : Z) (x : thread) k k' : Prop := {
  ot_thread : threads k' = <[td := x]> (threads k);
  ot_data : data (k_ipc k') = data (k_ipc k);
  ot_idle : idle (k_ipc k) → idle (k_ipc k');
  ot_pool : task_pool k' = task_pool k;
  ot_list : task_list k' = task_list k;
  ot_threads : t_threads k' = t_threads k;
  ot_tpool : thread_pool k' = thread_pool k;
  ot_keep : keep (memory (k_ipc k)) (memory (k_ipc k'))
}.

Lemma ot_store td x y k : threads k !! td = Some y → only_thread td x k (set_threads (<[td := x]> (threads k)) k).
Proof. by split. Qed.
Lemma ot_mem td x y k v : threads k !! td = Some y → keep (memory (k_ipc k)) v →
  only_thread td x k (set_threads (<[td := x]> (threads k)) (set_ipc (set_memory v (k_ipc k)) k)).
Proof. split; try done. intros. by apply idle_memory. Qed.
Lemma ot_same td x k v : threads k !! td = Some x → keep (memory (k_ipc k)) v → only_thread td x k (set_ipc (set_memory v (k_ipc k)) k).
Proof. split; try done; [by rewrite insert_id|]. intros. by apply idle_memory. Qed.
Lemma ot_refl td x k : threads k !! td = Some x → only_thread td x k k.
Proof. split; try done. by rewrite insert_id. Qed.
Lemma ot_at td x k k' : only_thread td x k k' → threads k' !! td = Some x.
Proof. intros [-> _ _ _ _ _ _ _]. apply lookup_insert_eq. Qed.
Lemma ot_trans td x y k k1 k2 : only_thread td x k k1 → only_thread td y k1 k2 → only_thread td y k k2.
Proof.
  intros [A1 A2 A3 A4 A5 A6 A7 A8] [B1 B2 B3 B4 B5 B6 B7 B8].
  split; [rewrite B1, A1; apply insert_insert_eq|congruence|auto|congruence..|by etrans].
Qed.

Lemma wp_wired_wire td vaddr x k :
  threads k !! td = Some x → (length (td_tlbwired x) < TLB_WIRED_COUNT)%nat →
  wp (tlb_wired_wire td vaddr)
    (λ _ k', only_thread td (with_wired (td_tlbwired x ++ [PAGE_FLOOR vaddr]) x) k k') machine_stop k.
Proof.
  intros Hx Hl. unfold tlb_wired_wire. rewrite wp_bind. eapply wp_load_thread; [done|].
  rewrite (proj2 (Nat.leb_gt _ _)) by done. rewrite wp_bind. apply wp_on_mem.
  law (tl_wire Hlaw). intros [] v Hkeep.
  apply (wp_store_thread (set_ipc (set_memory v (k_ipc k)) k) td x); [exact Hx|]. exact (ot_mem td _ x k v Hx Hkeep).
Qed.

(** The stack of a thread: two pages of the kernel, both wired. *)
Lemma wp_wire_kstack td ks x k :
  threads k !! td = Some x → td_tlbwired x = [] → 0 ≤ ks → ks mod PAGE_SIZE = 0 → ks + KSTACK_SIZE < 2 ^ 64 →
  wp (wire_kstack (Z.to_nat (KSTACK_SIZE / PAGE_SIZE)) td ks 0)
    (λ _ k', only_thread td (with_wired [ks; ks + PAGE_SIZE] x) k k') machine_stop k.
Proof.
  intros Hx Hl H0' Hm Hb. change (Z.to_nat (KSTACK_SIZE / PAGE_SIZE)) with 2%nat. cbn [wire_kstack].
  assert (0 < PAGE_SIZE) as Hp by done. unfold KSTACK_SIZE in Hb.
  assert (∀ a, 0 ≤ a → a + PAGE_SIZE < 2 ^ 64 → a mod PAGE_SIZE = 0 → PAGE_FLOOR (u64 a) = a) as Hfl.
  { intros a Ha Hab Ham. rewrite u64_small by lia. rewrite PAGE_FLOOR_sub by lia. change PAGE_SIZE with 8192 in Ham. lia. }
  rewrite wp_bind. eapply wp_mono; [apply (wp_wired_wire td _ x k Hx); rewrite Hl; unfold TLB_WIRED_COUNT; simpl; lia| |done].
  intros [] k1 Hk1. rewrite Hl in Hk1. cbn [app] in Hk1. rewrite wp_bind.
  eapply wp_mono; [apply (wp_wired_wire td _ _ k1 (ot_at _ _ _ _ Hk1)); cbn; unfold TLB_WIRED_COUNT; lia| |done].
  intros [] k2 Hk2. rewrite wp_ret. cbn [td_tlbwired with_wired app] in Hk2.
  rewrite !Z.add_0_l, Z.add_0_r in *. rewrite !Hfl in Hk2 by (try lia; rewrite <-Z.add_mod_idemp_r, Z.mod_same, Z.add_0_r by lia; done).
  by eapply ot_trans.
Qed.

(** A thread as it is made: its stack, and a context that was cleared after
    the upcall had been put into it. *)
Record thread_made (t flags : Z) (x : thread) : Prop := {
  tm_task : td_task x = t;
  tm_flags : td_flags x = flags;
  tm_context : td_context x = zero_context;
  tm_wired : td_tlbwired x = [td_kstack x; td_kstack x + PAGE_SIZE];
  tm_stack : 0 ≤ td_kstack x ∧ td_kstack x + KSTACK_SIZE < 2 ^ 64;
  tm_ustack : td_ustack_top x = if Z.land flags THREAD_USTACK =? 0 then 0 else u64 (td_ustack_bottom x + USTACK_SIZE)
}.

Lemma cpu_thread_setup_ok td y z k :
  threads k !! td = Some y → tasks_of k !! td_task y = Some z →
  wp (cpu_thread_setup exception td)
    (λ r k', ∃ x, only_thread td x k k' ∧ match r with Ok _ => thread_made (td_task y) (td_flags y) x | Err _ => True end)
    machine_stop k.
Proof.
  intros Hy Hz. unfold cpu_thread_setup, tlb_wired_init. rewrite wp_bind. eapply wp_store_thread; [done|].
  set (y1 := with_wired [] y). set (k1 := set_threads _ k). pose proof (ot_store td y1 y k Hy) as O1. fold k1 in O1.
  unfold cpu_thread_set_upcall. rewrite wp_bind. eapply wp_store_thread; [apply (ot_at _ _ _ _ O1)|].
  set (y2 := with_context _ y1). set (k2 := set_threads _ k1).
  pose proof (ot_trans _ _ _ _ _ _ O1 (ot_store td y2 _ k1 (ot_at _ _ _ _ O1))) as O2. fold k2 in O2.
  rewrite wp_bind_ok. apply wp_on_mem. law (tl_alloc Hlaw). intros [ks|e] v [Hkeep Hks].
  2:{ exists y2. split; [|done]. eapply ot_trans; [exact O2|]. apply ot_same; [apply (ot_at _ _ _ _ O2)|done]. }
  destruct Hks as (Hk0&Hkm&Hkb). rewrite wp_bind.
  set (k3 := set_ipc _ k2). pose proof (ot_trans _ _ _ _ _ _ O2 (ot_same td y2 k2 v (ot_at _ _ _ _ O2) Hkeep)) as O3. fold k3 in O3.
  eapply wp_store_thread; [apply (ot_at _ _ _ _ O3)|].
  set (y4 := with_kstack ks y2). set (k4 := set_threads _ k3).
  pose proof (ot_trans _ _ _ _ _ _ O3 (ot_store td y4 _ k3 (ot_at _ _ _ _ O3))) as O4. fold k4 in O4.
  rewrite wp_bind. eapply wp_mono; [by apply (wp_wire_kstack td ks y4 k4 (ot_at _ _ _ _ O4))| |done].
  intros [] k5 O5. pose proof (ot_trans _ _ _ _ _ _ O4 O5) as O5'. clear O5. set (y5 := with_wired _ y4) in *.
  rewrite wp_bind. eapply wp_store_thread; [apply (ot_at _ _ _ _ O5')|].
  set (y6 := with_context zero_context y5). set (k6 := set_threads _ k5).
  pose proof (ot_trans _ _ _ _ _ _ O5' (ot_store td y6 _ k5 (ot_at _ _ _ _ O5'))) as O6. fold k6 in O6.
  rewrite wp_bind. eapply wp_load_thread; [apply (ot_at _ _ _ _ O6)|].
  change (td_flags y6) with (td_flags y). change (td_task y6) with (td_task y).
  destruct (Z.land (td_flags y) THREAD_USTACK =? 0) eqn:Hus; cbn [negb].
  - rewrite wp_bind. eapply wp_store_thread; [apply (ot_at _ _ _ _ O6)|]. rewrite wp_ret. eexists. split.
    + eapply ot_trans; [exact O6|]. eapply ot_store, (ot_at _ _ _ _ O6).
    + split; try done. cbn. by rewrite Hus.
  - rewrite wp_bind. eapply wp_load_task; [unfold tasks_of in *; by rewrite (ot_data _ _ _ _ O6)|].
    rewrite wp_bind_ok. apply wp_on_mem. law (tl_ustack Hlaw). intros [us|e] v' Hkeep2.
    2:{ exists y6. split; [|done]. eapply ot_trans; [exact O6|]. apply ot_same; [apply (ot_at _ _ _ _ O6)|done]. }
    pose proof (ot_trans _ _ _ _ _ _ O6 (ot_same td y6 k6 v' (ot_at _ _ _ _ O6) Hkeep2)) as O7.
    rewrite wp_bind. eapply wp_store_thread; [apply (ot_at _ _ _ _ O7)|]. rewrite wp_ret. eexists. split.
    + eapply ot_trans; [exact O7|]. eapply ot_store, (ot_at _ _ _ _ O7).
    + split; try done. cbn. by rewrite Hus.
Qed.

(** Why making a thread may stop. *)
Definition thread_stop (w : stop) : Prop :=
  alloc_stop (Ob:=Ob) w ∨ machine_stop w ∨ w = Panic "need to destroy thread, cpu_thread_setup failed".

Record threads_ok k : Prop := {
  tk_pool : op_inv (thread_pool k);
  tk_live td : is_Some (threads k !! td) → op_live (thread_pool k) td
}.

Lemma thread_create_ok t flags z l k :
  threads_ok k → t ≠ 0 → tasks_of k !! t = Some z → t_threads k !! t = Some l →
  wp (thread_create exception t flags)
    (λ r k', ∃ td x, r = Ok td ∧ threads k !! td = None ∧ threads k' = <[td := x]> (threads k) ∧
       thread_made t flags x ∧ t_threads k' = <[t := l ++ [td]]> (t_threads k) ∧ threads_ok k' ∧
       data (k_ipc k') = data (k_ipc k) ∧ (idle (k_ipc k) → idle (k_ipc k')) ∧
       task_pool k' = task_pool k ∧ task_list k' = task_list k ∧ keep (memory (k_ipc k)) (memory (k_ipc k')))
    thread_stop k.
Proof.
  intros T Ht Hz Hl. unfold thread_create. rewrite wp_bind, wp_assert, (proj2 (Z.eqb_neq t 0)) by done. cbn [negb].
  rewrite wp_bind, wp_zoom. unfold wp at 1.
  destruct (op_alloc (thread_pool k)) as [td o|w] eqn:Hal; [|left; exists (thread_pool k); split; [apply (tk_pool _ T)|exact Hal]].
  destruct (op_alloc_ok _ _ _ (tk_pool _ T) Hal) as (Ho&Hfresh&Hlive).
  assert (0 < td) as Htd by (apply (op_live_pos o); [done|]; apply Hlive; by right).
  assert (threads k !! td = None) as Hnone.
  { destruct (threads k !! td) eqn:E; [|done]. exfalso. apply Hfresh, (tk_live _ T). by eexists. }
  rewrite (proj2 (Z.eqb_neq td 0)) by lia. rewrite wp_bind, wp_modify, wp_bind, wp_get. cbn [t_threads set_threads set_thread_pool].
  rewrite wp_bind, wp_deref, Hl, wp_bind, wp_modify, wp_bind. cbn [threads set_thread_pool].
  set (x0 := with_task t fresh_thread). eapply wp_store_thread; [cbn; apply lookup_insert_eq|]. cbn [threads set_t_threads set_threads].
  rewrite insert_insert_eq. set (x1 := with_flags flags x0). set (k1 := set_threads _ _).
  assert (threads k1 !! td = Some x1) as Hx1 by apply lookup_insert_eq.
  rewrite wp_bind. apply wp_on_mem. law (tl_setup Hlaw). intros [] v Hkeep.
  pose proof (ot_same td x1 k1 v Hx1 Hkeep) as O1. set (k2 := set_ipc _ k1) in *. rewrite wp_bind, wp_or_panic.
  eapply wp_mono; [apply (cpu_thread_setup_ok td x1 z k2 (ot_at _ _ _ _ O1)); exact Hz| |by right; left].
  intros r k3 (x&O2&Hmade). destruct r as [[]|e]; [|by right; right]. pose proof (ot_trans _ _ _ _ _ _ O1 O2) as O3. clear O1 O2.
  rewrite wp_ret. destruct O3 as [E1 E2 E3 E4 E5 E6 E7 E8]. exists td, x.
  assert (threads k3 = <[td:=x]> (threads k)) as E1' by (rewrite E1; unfold k1; cbn; apply insert_insert_eq).
  split_and!; try done.
  split; [by rewrite E7|]. intros u. rewrite E1', E7. cbn. rewrite lookup_insert_is_Some', Hlive.
  intros [->|Hu]; [by right|left; by apply (tk_live _ T)].
Qed.

(** ** The last thread of a task goes *)

(** The memory when a thread's kernel stack is given back and its task's address
    space, if it is not the kernel's. *)
Definition memory_freed (x : thread) (z : task) (v v' : V) : Prop :=
  ∃ v1, th_vm_free KSTACK_SIZE (td_kstack x) v = Done (Ok tt) v1 ∧
    (if Z.land (t_flags z) TASK_KERNEL =? 0 then th_vm_exit (t_vm z) v1 = Done tt v' else v' = v1).
(** Why that may stop: the stack cannot be freed, or the address space. *)
Definition free_stop (x : thread) (z : task) (v : V) (w : stop) : Prop :=
  match th_vm_free KSTACK_SIZE (td_kstack x) v with
  | Stop w' => w = w'
  | Done (Err _) _ => w = Panic "vm_free of kstack failed"
  | Done (Ok _) v1 => Z.land (t_flags z) TASK_KERNEL = 0 ∧ th_vm_exit (t_vm z) v1 = Stop w
  end.

Lemma thread_free_ok td x t z k :
  kernel_ok k → threads_ok k → threads k !! td = Some x → td_task x = t →
  t_threads k !! t = Some [td] → tasks_of k !! t = Some z →
  wp (thread_free td)
    (λ _ k', threads k' = delete td (threads k) ∧ tasks_of k' = delete t (tasks_of k) ∧
       t_threads k' = delete t (t_threads k) ∧ task_list k' = filter (λ u, u ≠ t) (task_list k) ∧
       threads_ok k' ∧ (op_inv (task_pool k') ∧ ∀ u, op_live (task_pool k') u ↔ op_live (task_pool k) u ∧ u ≠ t) ∧
       memory_freed x z (memory (k_ipc k)) (memory (k_ipc k')) ∧ ports k' = ports k)
    (free_stop x z (memory (k_ipc k))) k.
Proof.
  intros K T Hx Hxt Hl Hz. unfold thread_free. rewrite wp_bind. eapply wp_load_thread; [done|]. rewrite Hxt.
  rewrite wp_bind, wp_get, wp_bind, wp_deref, Hl, wp_bind, wp_modify. rewrite filter_cons_False by (intros E; by apply E).
  rewrite filter_nil, wp_bind. unfold cpu_thread_free. rewrite wp_bind.
  apply (wp_load_thread _ td x); [exact Hx|]. rewrite wp_or_panic. apply wp_on_mem.
  unfold free_stop, memory_freed. cbn [k_ipc set_t_threads]. unfold wp at 1.
  destruct (th_vm_free KSTACK_SIZE (td_kstack x) _) as [[[]|e] v|w] eqn:Hvf; [|done|done].
  rewrite wp_bind, wp_modify, wp_bind, wp_zoom.
  destruct (op_free_ok (thread_pool k) td (tk_pool _ T) (tk_live _ T td ltac:(by exists x))) as (o&Hfree&Ho&Hlive).
  unfold wp at 1. cbn [thread_pool set_threads set_ipc set_t_threads]. rewrite Hfree.
  rewrite wp_bind, wp_get, wp_bind, wp_deref. cbn [t_threads set_thread_pool set_threads set_ipc set_t_threads].
  rewrite lookup_insert_eq. rewrite bool_decide_true by done. unfold task_free.
  rewrite wp_bind, wp_get, wp_bind, wp_deref. cbn [t_threads set_thread_pool set_threads set_ipc set_t_threads].
  rewrite lookup_insert_eq, wp_bind, wp_assert, bool_decide_true by done. rewrite wp_bind, wp_modify, wp_bind. unfold cpu_task_free.
  rewrite wp_bind. eapply wp_load_task; [exact Hz|].
  eapply (wp_mono _ (λ _ k', ∃ v', (if Z.land (t_flags z) TASK_KERNEL =? 0 then th_vm_exit (t_vm z) v = Done tt v' else v' = v) ∧
    k' = set_ipc (set_memory v' (k_ipc k))
    (set_task_list (filter (λ u, u ≠ t) (task_list k)) (set_thread_pool o (set_threads (delete td (threads k))
      (set_t_threads (<[t:=[]]> (t_threads k)) k)))))
    _ (λ w, Z.land (t_flags z) TASK_KERNEL = 0 ∧ th_vm_exit (t_vm z) v = Stop w)); [| |done].
  { destruct (Z.eqb_spec (Z.land (t_flags z) TASK_KERNEL) 0).
    - apply wp_on_mem. unfold wp. cbn [memory k_ipc set_ipc set_memory set_task_list set_thread_pool set_threads set_t_threads].
      destruct (th_vm_exit (t_vm z) v) as [[] v'|w] eqn:Hx'; [by exists v'|done].
    - rewrite wp_ret. by exists v. }
  intros [] ? (v'&Hexit&->). rewrite wp_bind. unfold ipc_task_free. rewrite wp_ret, wp_bind. apply wp_on_ipc. unfold on_data.
  rewrite wp_zoom, wp_modify, wp_bind, wp_modify. rewrite wp_zoom.
  destruct (op_free_ok (task_pool k) t (ko_pool _ K) (ko_live _ K t ltac:(by exists z))) as (o2&Hfree2&Ho2&Hlive2).
  unfold wp. cbn [task_pool set_t_threads set_ipc set_task_list set_thread_pool set_threads]. rewrite Hfree2.
  cbn [threads t_threads task_list thread_pool task_pool set_task_pool set_t_threads set_ipc set_task_list set_thread_pool set_threads k_ipc].
  split_and!; try done; [apply delete_insert_eq| |by exists v].
  split; [exact Ho|]. intros u. cbn. intros [y [Hne Hy]%lookup_delete_Some]. apply Hlive. split; [apply (tk_live _ T); by exists y|done].
Qed.

(** * The theorems *)

(** C16: A new task has a port of its own, with a number nobody used: the task
    alone may receive on it, nobody has sent to it yet, and exactly the
    receivers of the parent's port have a right to send to it (besides the
    receiver itself, who may always send). *)
Theorem task_create_correct parent k :
  kernel_ok k →
  Z.of_nat (size (ports k)) < NUNRESERVED → (2 * size (ports k) + 2 ≤ fuel)%nat →
  (parent ≠ IPC_PORT_UNKNOWN → is_Some (ports k !! parent)) →
  wp (task_create self me fuel parent TASK_DEFAULT)
    (λ r k', ∃ t, r = Ok t ∧ tasks_of k !! t = None ∧ kernel_ok k' ∧
       task_made t (if decide (parent = IPC_PORT_UNKNOWN) then None else ports k !! parent) k k' ∧
       task_list k' = task_list k ++ [t] ∧ t_threads k' = <[t := []]> (t_threads k))
    create_stop k.
Proof. apply task_create_ok. Qed.

(** A new thread belongs to its task and has two wired pages of kernel stack
    and, if asked for, a user stack.  Its context is zero: the upcall that
    panics if nobody sets another is put in before the context is cleared. *)
Theorem thread_create_correct t flags z l k :
  threads_ok k → t ≠ 0 → tasks_of k !! t = Some z → t_threads k !! t = Some l →
  wp (thread_create exception t flags)
    (λ r k', ∃ td x, r = Ok td ∧ threads k !! td = None ∧ threads k' = <[td := x]> (threads k) ∧
       thread_made t flags x ∧ t_threads k' = <[t := l ++ [td]]> (t_threads k) ∧ threads_ok k' ∧
       data (k_ipc k') = data (k_ipc k) ∧ (idle (k_ipc k) → idle (k_ipc k')) ∧
       task_pool k' = task_pool k ∧ task_list k' = task_list k ∧ keep (memory (k_ipc k)) (memory (k_ipc k')))
    thread_stop k.
Proof. apply thread_create_ok. Qed.

End facts.
