(* ===== verification/TaskExample.v ===== *)
(** Tasks and threads on the machine of Ipc.v: the theorems of Task.v applied
    to it. *)

From S2P Require Import Prelude MachineInt Btree Mutex Pool IpcPort IpcSpec IpcAlloc Ipc Task.

Local Open Scope Z_scope.
Local Open Scope c_scope.

(** Address spaces are numbers, and a kernel stack is always at the same
    place. *)
#[export] Instance toy_threads : ThreadMemory toy := {|
  th_vm_setup _ _ := ret (Ok 0x200);
  th_vm_exit _ := ret tt;
  th_vm_alloc _ := ret (Ok 0xc000000000004000);
  th_vm_free _ _ := ret (Ok tt);
  th_wire _ := ret tt;
  th_sched_setup _ := ret tt
|}.

(** The tasks of Ipc.v, task 11 with a thread. *)
Definition toy_kernel : kernel :=
  mk_kernel m3 ([10; 11], 12) [10; 11] {[ 10 := []; 11 := [200] ]} ([200], 201)
    {[ 200 := mk_thread 11 THREAD_DEFAULT zero_context 0xc000000000008000 0 0 [] ]}.

Lemma toy_kernel_ok : kernel_ok 2 11 toy_kernel.
Proof.
  split.
  - apply m3_idle. by right.
  - split; [simpl; lia|]. intros x Hx. repeat (apply elem_of_cons in Hx as [->|Hx]; [simpl; lia|]). by apply elem_of_nil in Hx.
  - assert (map_Forall (λ t _, t = 10 ∨ t = 11) (tasks_of toy_kernel)) as Hf
      by (apply (bool_decide_unpack _); by vm_compute).
    intros t [x Hx]. pose proof (Hf t x Hx) as Hc. cbv beta in Hc.
    simpl. destruct Hc as [->| ->]; [by left|by right; left].
Qed.

Lemma toy_threads_ok : threads_ok toy_kernel.
Proof.
  split.
  - split; [simpl; lia|]. intros x Hx. repeat (apply elem_of_cons in Hx as [->|Hx]; [simpl; lia|]). by apply elem_of_nil in Hx.
  - intros td [x Hx]. unfold toy_kernel in Hx. cbn [threads] in Hx. apply lookup_singleton_Some in Hx as [<- _]. by left.
Qed.

Lemma toy_thread_law : thread_law (λ _ _ : toy, True).
Proof. by split. Qed.
#[export] Instance always_preorder {A} : PreOrder (λ _ _ : A, True).
Proof. by split. Qed.

(** A child of task 10, whose port is port 3. *)
Lemma task_create_correct_witness :
  wp (task_create 2 11 6 3 TASK_DEFAULT)
    (λ r k', ∃ t, r = Ok t ∧ tasks_of toy_kernel !! t = None ∧ kernel_ok 2 11 k' ∧
       task_made t (ports toy_kernel !! 3) toy_kernel k' ∧
       task_list k' = [10; 11; t] ∧ t_threads k' = <[t := []]> (t_threads toy_kernel))
    (create_stop (Ob:=list Z * Z) (V:=toy)) toy_kernel.
Proof.
  apply (task_create_correct 2 11 ltac:(lia) 6 3 toy_kernel toy_kernel_ok).
  - vm_compute. reflexivity.
  - vm_compute. lia.
  - intros _. vm_compute. by eexists.
Defined.

(** And it runs: task 12 gets port 5. *)
Example task_create_runs :
  match task_create 2 11 6 3 TASK_DEFAULT toy_kernel with
  | Done r k' => r = Ok 12 ∧ (ipct_task_port <$> tasks_of k' !! 12) = Some 5 ∧
      (a_rights <$> ports k' !! 5) = Some {[ 10 := IPC_PORT_RIGHT_SEND; 11 := 0; 12 := IPC_PORT_RIGHT_RECEIVE ]}
  | Stop _ => False
  end.
Proof. vm_compute. split_and!; reflexivity. Qed.

Lemma thread_create_correct_witness :
  wp (thread_create 0x100 10 THREAD_USTACK)
    (λ r k', ∃ td x, r = Ok td ∧ threads toy_kernel !! td = None ∧ threads k' = <[td := x]> (threads toy_kernel) ∧
       thread_made 10 THREAD_USTACK x ∧ t_threads k' = <[10 := [] ++ [td]]> (t_threads toy_kernel) ∧ threads_ok k' ∧
       data (k_ipc k') = data (k_ipc toy_kernel) ∧ (idle 2 11 (k_ipc toy_kernel) → idle 2 11 (k_ipc k')) ∧
       task_pool k' = task_pool toy_kernel ∧ task_list k' = task_list toy_kernel ∧ True)
    (thread_stop (Ob:=list Z * Z) (V:=toy)) toy_kernel.
Proof.
  apply (thread_create_correct 2 11 (λ _ _, True) toy_thread_law 0x100 10 THREAD_USTACK (mk_task 0 0x100 [1] 0) [] toy_kernel toy_threads_ok);
    [lia|vm_compute; reflexivity..].
Defined.

(** The thread of task 11 is freed. *)
Definition toy_task : task := default (mk_task 0 0 [] 0) (tasks_of toy_kernel !! 11).

(** ** The rights of a freed task

    Objects handed out again, the last one freed first, as the kernel's pools
    do. *)
Record stack_pool := mk_stack_pool { sp_taken : list Z; sp_returned : list Z; sp_fresh : Z }.
#[local] Program Instance stack_objects : ObjPool stack_pool := {|
  op_inv s := 0 < sp_fresh s ∧ (∀ x, x ∈ sp_taken s ++ sp_returned s → 0 < x < sp_fresh s) ∧
    NoDup (sp_taken s ++ sp_returned s);
  op_live s x := x ∈ sp_taken s;
  op_alloc s := match sp_returned s with
    | a :: l => Done a (mk_stack_pool (a :: sp_taken s) l (sp_fresh s))
    | [] => Done (sp_fresh s) (mk_stack_pool (sp_fresh s :: sp_taken s) [] (sp_fresh s + 1))
    end;
  op_free x s := Done tt (mk_stack_pool (filter (λ y, y ≠ x) (sp_taken s)) (x :: sp_returned s) (sp_fresh s))
|}.
Next Obligation.
  intros [l f n] d s' (Hn&Hi&Hd). cbn in *. destruct f as [|a f]; intros [= <- <-]; cbn; split_and!; try lia.
  - intros x. rewrite elem_of_cons. intros [->|Hx]; [lia|]. specialize (Hi x Hx). lia.
  - apply NoDup_cons. split; [|done]. intros Hx. specialize (Hi n Hx). lia.
  - intros Hx. specialize (Hi n ltac:(apply elem_of_app; by left)). lia.
  - intros x. rewrite elem_of_cons. tauto.
  - intros x Hx. apply Hi. revert Hx. rewrite !elem_of_cons, !elem_of_app, elem_of_cons. tauto.
  - by rewrite Permutation_middle.
  - intros Hx. apply NoDup_app in Hd as (_&Hd&_). apply (Hd a Hx). by left.
  - intros x. rewrite elem_of_cons. tauto.
Qed.
Next Obligation.
  intros [l f n] d (Hn&Hi&Hd) Hl. eexists. split; [done|]. cbn in *. split_and!; [done|..].
  - intros x Hx. apply Hi. revert Hx. rewrite !elem_of_app, elem_of_cons, list_elem_of_filter. intros [[_ ?]|[->|?]]; tauto.
  - apply NoDup_app in Hd as (Hd1&Hd2&Hd3). apply NoDup_app. split_and!.
    + by apply NoDup_filter.
    + intros x [Hne Hx]%list_elem_of_filter [->|Hf]%elem_of_cons; [done|]. by apply (Hd2 x).
    + apply NoDup_cons. split; [by apply Hd2|done].
  - intros x. rewrite list_elem_of_filter. tauto.
Qed.
Next Obligation. intros [l f n] d (_&Hi&_) Hd. apply Hi, elem_of_app. by left. Qed.

(** Task 11 has the port 3; its only thread is freed, and task 10 makes a
    task, which gets the address of task 11, receives on port 3 and on its
    own, 4. *)
Definition start_pool : stack_pool := mk_stack_pool [] [] 1.
Definition start_kernel : @kernel stack_pool toy :=
  mk_kernel (mk_ipc (ipc_port_init start_pool start_pool start_pool
      {[ 10 := mk_task TASK_KERNEL 0 [] 0; 11 := mk_task TASK_KERNEL 0 [] 0 ]}) (mutex_init 0) ∅ [] (memory m3))
    (mk_stack_pool [10; 11] [] 12) [10; 11] {[ 10 := []; 11 := [200] ]} (mk_stack_pool [200] [] 201)
    {[ 200 := mk_thread 11 THREAD_DEFAULT zero_context 0xc000000000008000 0 0 [] ]}.
Example rights_inherited :
  match (_ <- on_ipc (ipc_port_allocate 2 11 4 0) ;; thread_free 200 ;;;
         task_create 1 10 6 IPC_PORT_UNKNOWN TASK_DEFAULT) start_kernel with
  | Done r k => r = Ok 11 ∧ (may_receive 11 <$> ports k !! 3) = Some true ∧
      (may_receive 11 <$> ports k !! 4) = Some true ∧ (ipct_task_port <$> tasks_of k !! 11) = Some 4
  | Stop _ => False
  end.
Proof. vm_compute. split_and!; reflexivity. Qed.
