(* ===== verification/Storage.v ===== *)
(** Storage devices ([mk/io/storage/storage_device.c], [mk/io/storage/device.h])
    and structures in buffers.

    A driver reads one block at a time and is the interface [BlockDevice].
    [storage_device_read] reads several; the theorem says that it fills the
    buffer with that part of the medium.  The file systems find their
    structures as sequences of bytes in the blocks, in the byte order of the
    machine or in the other one. *)

From S2P Require Import Prelude MachineInt.

Local Open Scope Z_scope.
Local Open Scope c_scope.

(** * Buffers *)

Definition slice {A} (o n : Z) (l : list A) : list A := take (Z.to_nat n) (drop (Z.to_nat o) l).
(** [new] written into a buffer from [o] on. *)
Definition write_at {A} (o : Z) (new buf : list A) : list A :=
  take (Z.to_nat o) buf ++ new ++ drop (Z.to_nat o + length new) buf.

Lemma length_slice {A} o n (l : list A) :
  0 ≤ o → 0 ≤ n → o + n ≤ Z.of_nat (length l) → length (slice o n l) = Z.to_nat n.
Proof. intros. unfold slice. rewrite length_take, length_drop. lia. Qed.

Lemma slice_slice {A} o n o' n' (l : list A) :
  0 ≤ o → 0 ≤ o' → 0 ≤ n' → o' + n' ≤ n → slice o' n' (slice o n l) = slice (o + o') n' l.
Proof.
  intros. unfold slice. replace (Z.to_nat n) with (Z.to_nat o' + Z.to_nat (n - o'))%nat by lia.
  rewrite <-take_drop_commute, take_take, drop_drop. f_equal; [lia|f_equal; lia].
Qed.

Lemma slice_all {A} (l : list A) : slice 0 (Z.of_nat (length l)) l = l.
Proof. unfold slice. rewrite drop_0. apply take_ge. lia. Qed.

Lemma slice_app {A} o n n' (l : list A) :
  0 ≤ o → 0 ≤ n → 0 ≤ n' → slice o n l ++ slice (o + n) n' l = slice o (n + n') l.
Proof.
  intros. unfold slice. rewrite !Z2Nat.inj_add, <-drop_drop by lia.
  rewrite <-(take_drop (Z.to_nat n) (take (Z.to_nat n + _) _)).
  rewrite take_take, <-take_drop_commute. f_equal. f_equal. lia.
Qed.

Lemma slice_write_at {A} o (new buf : list A) :
  0 ≤ o → o ≤ Z.of_nat (length buf) → slice o (Z.of_nat (length new)) (write_at o new buf) = new.
Proof.
  intros. unfold slice, write_at. rewrite drop_app_length' by (rewrite length_take; lia).
  by rewrite Nat2Z.id, take_app_length.
Qed.

Lemma length_write_at {A} o (new buf : list A) :
  0 ≤ o → o + Z.of_nat (length new) ≤ Z.of_nat (length buf) →
  length (write_at o new buf) = length buf.
Proof. intros. unfold write_at. rewrite !length_app, length_take, length_drop. lia. Qed.

Lemma write_at_app {A} o (a b buf : list A) :
  0 ≤ o → o + Z.of_nat (length a) ≤ Z.of_nat (length buf) →
  write_at (o + Z.of_nat (length a)) b (write_at o a buf) = write_at o (a ++ b) buf.
Proof.
  intros Ho Hl. unfold write_at. rewrite Z2Nat.inj_add, Nat2Z.id by lia.
  set (u := take (Z.to_nat o) buf). assert (length u = Z.to_nat o) as Hu by (unfold u; rewrite length_take; lia).
  assert (u ++ a ++ drop (Z.to_nat o + length a) buf = (u ++ a) ++ drop (Z.to_nat o + length a) buf)
    as -> by apply app_assoc.
  rewrite take_app_le, take_ge by (rewrite length_app; lia).
  rewrite drop_app_ge by (rewrite length_app; lia).
  rewrite drop_drop, !length_app, <-!app_assoc. do 4 f_equal. lia.
Qed.

(** The integer in some bytes, the first the most significant if [big]. *)
Definition bytes_int (big : bool) (l : list Z) : Z := be_combine (if big then l else reverse l).
(** A field of [w] bytes at offset [o]. *)
Definition field (big : bool) (o w : Z) (buf : list Z) : Z := bytes_int big (slice o w buf).

Lemma be_combine_app l b : be_combine (l ++ [b]) = be_combine l * 256 + b.
Proof. unfold be_combine. by rewrite fold_left_app. Qed.

Definition is_byte (b : Z) : Prop := 0 ≤ b < 256.

Lemma be_combine_range l :
  Forall is_byte l → 0 ≤ be_combine l < 2 ^ (8 * Z.of_nat (length l)).
Proof.
  induction l as [|b l IH] using rev_ind; intros Hl; [done|].
  apply Forall_app in Hl as [Hl [Hb _]%Forall_cons]. specialize (IH Hl).
  rewrite be_combine_app, length_app. cbn [length]. unfold is_byte in Hb.
  replace (8 * Z.of_nat (length l + 1)) with (8 * Z.of_nat (length l) + 8) by lia.
  rewrite Z.pow_add_r by lia. change (2 ^ 8) with 256.
  generalize dependent (2 ^ (8 * Z.of_nat (length l))). lia.
Qed.

(** The bytes of the integer they make. *)
Lemma be_split_combine l : Forall is_byte l → be_split (length l) (be_combine l) = l.
Proof.
  intros Hl. apply (list_eq_same_length _ _ (length l)); [by rewrite ?length_be_split..|].
  intros i x y Hi. rewrite lookup_be_split by done. intros [= <-] Hy. revert i Hi Hy.
  induction l as [|b l IH] using rev_ind; intros i Hi Hy; [simpl in Hi; lia|].
  apply Forall_app in Hl as [Hl [Hb _]%Forall_cons]. rewrite length_app in Hi. cbn [length] in Hi.
  unfold is_byte in Hb. rewrite be_combine_app, length_app. cbn [length].
  pose proof (be_combine_range l Hl). unfold be_byte. change 0xff with (Z.ones 8).
  rewrite Z.land_ones by lia. rewrite Z.shiftr_div_pow2 by lia.
  destruct (decide (i = length l)) as [->|Hne].
  - rewrite lookup_app_r, Nat.sub_diag in Hy by lia. injection Hy as <-.
    replace (8 * _) with 0 by lia. rewrite Z.pow_0_r, Z.div_1_r, Z.add_comm, Z.mod_add by lia.
    by apply Z.mod_small.
  - rewrite lookup_app_l in Hy by lia. rewrite <-(IH Hl i ltac:(lia) Hy). unfold be_byte.
    change 0xff with (Z.ones 8). rewrite Z.land_ones, Z.shiftr_div_pow2 by lia.
    replace (8 * (Z.of_nat (length l + 1) - 1 - Z.of_nat i))
      with (8 + 8 * (Z.of_nat (length l) - 1 - Z.of_nat i)) by lia.
    rewrite Z.pow_add_r, <-Z.div_div by lia. change (2 ^ 8) with 256 at 1.
    by rewrite Z.div_add_l, (Z.div_small b), Z.add_0_r by lia.
Qed.

Lemma be_combine_cons b l : be_combine (b :: l) = b * 2 ^ (8 * Z.of_nat (length l)) + be_combine l.
Proof.
  induction l as [|c l IH] using rev_ind; [cbn; lia|].
  change (b :: l ++ [c]) with ((b :: l) ++ [c]). rewrite !be_combine_app, IH, length_app. cbn [length].
  replace (8 * Z.of_nat (length l + 1)) with (8 * Z.of_nat (length l) + 8) by lia.
  rewrite Z.pow_add_r by lia. change (2 ^ 8) with 256. lia.
Qed.

Lemma be_combine_split n x : be_combine (be_split n x) = x mod 2 ^ (8 * Z.of_nat n).
Proof.
  induction n as [|n IH]; [by rewrite Z.mod_1_r|]. cbn [be_split].
  rewrite be_combine_cons, length_be_split, IH. unfold be_byte.
  change 0xff with (Z.ones 8). rewrite Z.land_ones, Z.shiftr_div_pow2 by lia.
  replace (8 * Z.of_nat (S n)) with (8 * Z.of_nat n + 8) by lia.
  rewrite Z.pow_add_r by lia. rewrite Z.rem_mul_r by lia. lia.
Qed.

(** Swapping the integer in some bytes is reading them the other way round. *)
Lemma swap_bytes_int (n : nat) f big l :
  reverses_bytes (Z.of_nat n) f → (0 < n)%nat → length l = n → Forall is_byte l →
  f (bytes_int big l) = bytes_int (negb big) l.
Proof.
  intros Hf Hn Hlen Hl.
  assert (∀ k, length k = n → Forall is_byte k → f (be_combine k) = be_combine (reverse k)) as H.
  { intros k Hk Hb. assert (be_split n (f (be_combine k)) = reverse k) as Hs.
    { rewrite (reverses_be_split (Z.of_nat n) f Hf) by done.
      rewrite <-Hk. by rewrite be_split_combine. }
    rewrite <-Hs, be_combine_split. apply Z.bits_inj'. intros i Hi.
    rewrite Z.testbit_mod_pow2 by lia. rewrite Hf by done.
    by destruct (Z.ltb_spec i (8 * Z.of_nat n)). }
  destruct big; cbn [bytes_int negb]; [by apply H|].
  unfold bytes_int. rewrite H; [by rewrite reverse_involutive|by rewrite length_reverse|].
  by apply Forall_reverse.
Qed.

Lemma bytes_int_range big l :
  Forall is_byte l → 0 ≤ bytes_int big l < 2 ^ (8 * Z.of_nat (length l)).
Proof.
  intros Hl. destruct big; cbn [bytes_int]; [by apply be_combine_range|].
  unfold bytes_int. rewrite <-(length_reverse l). apply be_combine_range. by apply Forall_reverse.
Qed.

Lemma Forall_slice {A} (P : A → Prop) o n l : Forall P l → Forall P (slice o n l).
Proof. intros. by apply Forall_take, Forall_drop. Qed.

(** [memcpy] of [n] bytes out of a buffer *)
Definition bytes_of {S} (o n : Z) (buf : list Z) : M S (list Z) :=
  if (0 <=? o) && (o + n <=? Z.of_nat (length buf)) then ret (slice o n buf)
  else halt (Undefined "read past the buffer").

Lemma bytes_of_ok {S} o n buf (s : S) :
  0 ≤ o → o + n ≤ Z.of_nat (length buf) → bytes_of o n buf s = Done (slice o n buf) s.
Proof. intros. unfold bytes_of. by rewrite (proj2 (Z.leb_le 0 o)), (proj2 (Z.leb_le (o + n) _)). Qed.

(** * Devices *)

(** [sd_read(sd_softc, buf, off)]: the block at [off]. *)
Class BlockDevice (D : Type) := { sd_read : Z → M D (result (list Z)) }.

Section device.
Context {D : Type} `{BlockDevice D}.
(** [sd_bsize] *)
Context (sd_bsize : Z).

(** The loop; [o] is how far into the buffer it is. *)
Fixpoint read_loop (fuel : nat) (o len off : Z) (buf : list Z) : M D (list Z * result unit) :=
  if len =? 0 then ret (buf, Ok tt)
  else match fuel with
  | O => halt OutOfFuel
  | S fuel =>
      r <- sd_read off ;;
      match r with
      | Err e => ret (buf, Err e)
      | Ok b => read_loop fuel (o + sd_bsize) (u64 (len - sd_bsize)) (off + sd_bsize) (write_at o b buf)
      end
  end.

Definition storage_device_read (buf : list Z) (len off : Z) : M D (list Z * result unit) :=
  if negb (Z.land len (u32 (sd_bsize - 1)) =? 0) || negb (Z.land off (u32 (sd_bsize - 1)) =? 0)
  then ret (buf, Err ERROR_INVALID)
  else read_loop (Z.to_nat (len / sd_bsize)) 0 len off buf.

(** The medium holds the bytes [img], and the driver reads them. *)
Record medium (img : list Z) : Prop := {
  md_bsize : ∃ k, 0 ≤ k < 32 ∧ sd_bsize = 2 ^ k;
  md_bytes : Forall is_byte img;
  md_read off d : 0 ≤ off → off mod sd_bsize = 0 → off + sd_bsize ≤ Z.of_nat (length img) →
    sd_read off d = Done (Ok (slice off sd_bsize img)) d
}.

Lemma bsize_mask img x : medium img → Z.land x (u32 (sd_bsize - 1)) = x mod sd_bsize.
Proof.
  intros [(k&Hk&->) _ _]. assert (0 < 2 ^ k < 2 ^ 32) by (split; [lia|apply Z.pow_lt_mono_r; lia]).
  rewrite u32_small by lia. rewrite Z.sub_1_r, <-Z.ones_equiv. apply Z.land_ones; lia.
Qed.

Lemma read_loop_ok img (n : nat) : ∀ o off buf d,
  medium img → 0 ≤ o → 0 ≤ off → off mod sd_bsize = 0 →
  sd_bsize * Z.of_nat n < 2 ^ 64 → off + sd_bsize * Z.of_nat n ≤ Z.of_nat (length img) →
  o + sd_bsize * Z.of_nat n ≤ Z.of_nat (length buf) →
  read_loop n o (sd_bsize * Z.of_nat n) off buf d =
    Done (write_at o (slice off (sd_bsize * Z.of_nat n) img) buf, Ok tt) d.
Proof.
  induction n as [|n IH]; intros o off buf d Hm Ho Hoff Hal Hw Hi Hb; pose proof Hm as [(k&Hk&Hs) _ Hrd];
    assert (0 < sd_bsize) by (subst; lia).
  { rewrite Z.mul_0_r. unfold slice, write_at. simpl.
    by rewrite Nat.add_0_r, take_drop. }
  cbn [read_loop]. rewrite (proj2 (Z.eqb_neq _ 0)) by nia. unfold bind. rewrite Hrd by (done || nia).
  assert (length (slice off sd_bsize img) = Z.to_nat sd_bsize) as Hlen by (apply length_slice; nia).
  rewrite u64_small by nia. replace (sd_bsize * Z.of_nat (S n) - sd_bsize) with (sd_bsize * Z.of_nat n) by lia.
  rewrite IH; try done; try lia.
  - assert (slice off (sd_bsize * Z.of_nat (S n)) img =
      slice off sd_bsize img ++ slice (off + sd_bsize) (sd_bsize * Z.of_nat n) img) as ->.
    { rewrite slice_app by nia. f_equal. lia. }
    rewrite <-write_at_app, Hlen, Z2Nat.id by nia. done.
  - rewrite <-(Z.mul_1_l sd_bsize) at 1. by rewrite Z.mod_add by lia.
  - rewrite length_write_at by nia. lia.
Qed.

Lemma storage_device_read_outcome img buf len off d :
  medium img → 0 ≤ len < 2 ^ 64 → 0 ≤ off → len ≤ Z.of_nat (length buf) →
  off + len ≤ Z.of_nat (length img) →
  storage_device_read buf len off d =
    if decide (len mod sd_bsize = 0 ∧ off mod sd_bsize = 0)
    then Done (slice off len img ++ drop (Z.to_nat len) buf, Ok tt) d
    else Done (buf, Err ERROR_INVALID) d.
Proof.
  intros Hm Hl Hoff Hb Hi. unfold storage_device_read. rewrite !(bsize_mask img) by done.
  pose proof Hm as [(k&Hk&Hs) _ _]. assert (0 < sd_bsize) by (subst; lia).
  case_decide as Hc.
  - destruct Hc as [H1 H2]. rewrite H1, H2. cbn [negb orb Z.eqb].
    apply Z.div_exact in H1 as Hd; [|lia]. rewrite Hd at 2.
    pose proof (Z.div_pos len sd_bsize ltac:(lia) ltac:(lia)).
    rewrite <-(Z2Nat.id (len / sd_bsize)) at 2 by done.
    rewrite (read_loop_ok img) by (rewrite ?Z2Nat.id by done; (done || lia)).
    rewrite Z2Nat.id, <-Hd by done. unfold write_at. cbn [Z.to_nat take app].
    by rewrite length_slice by lia.
  - destruct (Z.eqb_spec (len mod sd_bsize) 0); [|done].
    destruct (Z.eqb_spec (off mod sd_bsize) 0); [|done]. by destruct Hc.
Qed.

(** [storage_device_read] of whole blocks fills the beginning of the buffer
    with that part of the medium, whatever the block size of the device, and
    refuses lengths and offsets that are not whole blocks. *)
Theorem storage_device_read_correct img buf len off d :
  medium img → 0 ≤ len < 2 ^ 64 → 0 ≤ off → len ≤ Z.of_nat (length buf) →
  off + len ≤ Z.of_nat (length img) →
  storage_device_read buf len off d =
    if decide (len mod sd_bsize = 0 ∧ off mod sd_bsize = 0)
    then Done (slice off len img ++ drop (Z.to_nat len) buf, Ok tt) d
    else Done (buf, Err ERROR_INVALID) d.
Proof. apply storage_device_read_outcome. Qed.
End device.

(** * What file systems ask of the kernel ([vm_alloc] and [vm_free] of
    [kernel_vm]) and of their callers ([mk/fs/fs.h]) *)

Class KernelMemory (K : Type) := {
  km_alloc : Z → M K (result Z);            (* size *)
  km_free : Z → Z → M K (result unit)       (* size, address *)
}.

(** [fs_register]: the name and the context of a new file system. *)
Class FileSystems (F : Type) := { fs_register : string → Z → M F (result unit) }.

(** The mounts of a file system by their addresses, and what its mount
    function calls. *)
Section host.
Context {X K F : Type}.
Record fs_host := mk_host {
  uh_mounts : gmap Z X;
  uh_memory : K;
  uh_fs : F
}.
Definition set_mounts (m : gmap Z X) (s : fs_host) : fs_host := mk_host m (uh_memory s) (uh_fs s).
Definition host_kernel {A} (m : M K A) : M fs_host A :=
  zoom uh_memory (λ k s, mk_host (uh_mounts s) k (uh_fs s)) m.
Definition host_fs {A} (m : M F A) : M fs_host A :=
  zoom uh_fs (λ f s, mk_host (uh_mounts s) (uh_memory s) f) m.
(** A function of the mount at [v]. *)
Definition on_mount {A} (v : Z) (m : M X A) : M fs_host A :=
  s <- get ;;
  um <- deref "mount" (uh_mounts s !! v) ;;
  match m um with
  | Done a um => put (set_mounts (<[v := um]> (uh_mounts s)) s) ;;; ret a
  | Stop w => halt w
  end.

Context `{KernelMemory K} `{FileSystems F}.

(** What the mount functions have in common: memory for the mount, [new] in
    it, its first blocks read by [probe], and the file system registered. *)
Definition mount_with (size : Z) (name : string) (new : X) (probe : M X (result unit)) :
    M fs_host (result unit) :=
  addr <-? host_kernel (km_alloc size) ;;
  modify (λ s, set_mounts (<[addr := new]> (uh_mounts s)) s) ;;;
  r <- on_mount addr probe ;;
  match r with
  | Err e =>
      or_panic "vm_free failed" (host_kernel (km_free size addr)) ;;;
      modify (λ s, set_mounts (delete addr (uh_mounts s)) s) ;;;
      ret (Err e)
  | Ok _ =>
      or_panic "fs_register failed" (host_fs (fs_register name addr)) ;;;
      ret (Ok tt)
  end.

Lemma mount_with_ok size name new probe r x (h : fs_host) v k :
  km_alloc size (uh_memory h) = Done (Ok v) k → probe new = Done r x →
  match r with
  | Ok _ => ∀ f, fs_register name v (uh_fs h) = Done (Ok tt) f →
      mount_with size name new probe h = Done (Ok tt) (mk_host (<[v := x]> (uh_mounts h)) k f)
  | Err e => ∀ k', km_free size v k = Done (Ok tt) k' →
      mount_with size name new probe h = Done (Err e) (mk_host (delete v (uh_mounts h)) k' (uh_fs h))
  end.
Proof.
  intros Hal Hr. destruct h as [mounts k0 f0]. cbn [uh_memory uh_fs uh_mounts] in *.
  assert (mount_with size name new probe (mk_host mounts k0 f0) =
    match r with
    | Err e =>
        or_panic "vm_free failed" (host_kernel (km_free size v)) ;;;
        modify (λ s, set_mounts (delete v (uh_mounts s)) s) ;;;
        ret (Err e)
    | Ok _ => or_panic "fs_register failed" (host_fs (fs_register name v)) ;;; ret (Ok tt)
    end (mk_host (<[v := x]> mounts) k f0)) as ->.
  { unfold mount_with. unfold bind_ok at 1. unfold bind at 1. unfold host_kernel at 1, zoom at 1.
    cbn [uh_memory]. rewrite Hal. unfold bind at 1, modify at 1. cbn [uh_mounts set_mounts uh_memory uh_fs].
    unfold bind at 1. unfold on_mount at 1. unfold bind at 1, get at 1. cbn [uh_mounts].
    unfold bind at 1, deref at 1. cbn [set_mounts uh_mounts]. rewrite lookup_insert_eq. unfold ret at 1.
    rewrite Hr. unfold bind at 1, put at 1, ret at 1. cbn [set_mounts uh_mounts uh_memory uh_fs].
    rewrite insert_insert_eq. by destruct r. }
  destruct r as [[]|e].
  - intros f Hreg. unfold or_panic, host_fs, bind, zoom. cbn. by rewrite Hreg.
  - intros k' Hfr. unfold or_panic, host_kernel, bind, zoom. cbn. rewrite Hfr. cbn.
    by rewrite delete_insert_eq.
Qed.
End host.
Arguments fs_host : clear implicits.

Definition FS_PATH_MAX : Z := PAGE_SIZE.
Definition FS_NAME_MAX : Z := 1024.

(** * Example: a disk that is a list of bytes *)

Definition disk_blocks (bsize : Z) (img : list Z) : BlockDevice unit := {|
  sd_read off := ret (if (0 <=? off) && (off + bsize <=? Z.of_nat (length img))
                      then Ok (slice off bsize img) else Err ERROR_INVALID)
|}.

Lemma disk_medium bsize img :
  (∃ k, 0 ≤ k < 32 ∧ bsize = 2 ^ k) → Forall is_byte img →
  @medium unit (disk_blocks bsize img) bsize img.
Proof.
  intros Hk Hb. split; [done|done|]. intros off d Ho _ He. cbn. unfold ret.
  by rewrite (proj2 (Z.leb_le 0 off)), (proj2 (Z.leb_le _ _) He).
Qed.

Lemma storage_device_read_correct_witness :
  @storage_device_read unit (disk_blocks 2 [1; 2; 3; 4; 5; 6]) 2 [0; 0; 0; 0; 9] 4 2 tt =
    Done ([3; 4; 5; 6; 9], Ok tt) tt.
Proof.
  rewrite (@storage_device_read_correct unit (disk_blocks 2 [1; 2; 3; 4; 5; 6]) 2 [1; 2; 3; 4; 5; 6]);
    [reflexivity| |cbn; lia..].
  apply disk_medium; [exists 1; lia|]. repeat (constructor; [split; lia|]). constructor.
Defined.
