(* ===== verification/Paths.v ===== *)
(** Strings and paths, as the file systems read them.

    A path is the list of its characters.  [names] are its parts between
    slashes that are not empty; the functions that take a path apart from its
    beginning are related to it. *)

From S2P Require Import Prelude.

Local Open Scope Z_scope.

(** The characters before the first null. *)
Fixpoint string_of (l : list Z) : option (list Z) :=
  match l with
  | [] => None
  | b :: l => if b =? 0 then Some [] else (cons b) <$> string_of l
  end.

Fixpoint skip_slashes (p : list Z) : list Z :=
  match p with
  | c :: p' => if c =? 47 then skip_slashes p' else p
  | [] => []
  end.
(** The characters before the next slash: [clen] is their number. *)
Fixpoint component (p : list Z) : list Z :=
  match p with
  | c :: p => if c =? 47 then [] else c :: component p
  | [] => []
  end.

Lemma string_of_app name rest :
  Forall (λ c, 0 < c < 256) name → string_of (name ++ 0 :: rest) = Some name.
Proof.
  induction 1 as [|c name Hc _ IH]; [done|]. cbn [app string_of].
  rewrite (proj2 (Z.eqb_neq c 0)) by lia. by rewrite IH.
Qed.

Definition path_chars (p : list Z) : Prop := Forall (λ c, 0 < c < 256) p.

Lemma component_prefix p : take (length (component p)) p = component p.
Proof. induction p as [|c p IH]; [done|]. cbn [component]. case_match; [done|]. cbn. by rewrite IH. Qed.

(** The parts of a path between slashes, and those that are not empty. *)
Fixpoint pieces (p : list Z) : list (list Z) :=
  match p with
  | [] => [[]]
  | c :: p =>
      if c =? 47 then [] :: pieces p
      else match pieces p with x :: l => (c :: x) :: l | [] => [[c]] end
  end.
Definition names (p : list Z) : list (list Z) := filter (λ x, x ≠ []) (pieces p).
Definition ends_slash (p : list Z) : bool := bool_decide (last p = Some 47).

Lemma component_rest p :
  let r := drop (length (component p)) p in
  p = component p ++ r ∧ (r = [] ∨ ∃ r', r = 47 :: r') ∧
  pieces p = component p :: match r with [] => [] | _ :: r' => pieces r' end.
Proof.
  induction p as [|c p IH]; [by split_and!; [|left|]|]. cbn [component pieces].
  destruct (Z.eqb_spec c 47) as [->|Hc]; [cbn; split_and!; [done|by right; exists p|done]|].
  cbn [length drop app]. destruct IH as (H1&H2&H3). split; [by rewrite <-H1|]. split; [done|].
  by rewrite H3.
Qed.

Lemma names_skip p : names (skip_slashes p) = names p.
Proof.
  induction p as [|c p IH]; [done|]. cbn [skip_slashes]. destruct (Z.eqb_spec c 47) as [->|]; [|done].
  rewrite IH. unfold names. cbn [pieces]. change (47 =? 47) with true. cbn iota.
  by rewrite filter_cons_False by (by intros []).
Qed.

Lemma skip_slashes_idem p : skip_slashes (skip_slashes p) = skip_slashes p.
Proof.
  induction p as [|c p IH]; [done|]. cbn [skip_slashes]. case_match eqn:E; [done|].
  cbn [skip_slashes]. by rewrite E.
Qed.

Lemma skip_slashes_last p : skip_slashes p = [] → p ≠ [] → last p = Some 47.
Proof.
  induction p as [|c p IH]; [done|]. cbn [skip_slashes]. destruct (Z.eqb_spec c 47) as [->|]; [|done].
  intros Hs _. destruct p as [|d p]; [done|]. rewrite last_cons_cons. by apply IH.
Qed.

Lemma skip_slashes_suffix p : ∃ q, p = q ++ skip_slashes p.
Proof.
  induction p as [|c p [q IH]]; [by exists []|]. cbn [skip_slashes]. case_match; [|by exists []].
  exists (c :: q). cbn. by rewrite <-IH.
Qed.

Lemma names_cons p :
  skip_slashes p = p → p ≠ [] →
  component p ≠ [] ∧ names p = component p :: names (drop (length (component p)) p).
Proof.
  intros Hs Hp. assert (component p ≠ []) as Hc.
  { destruct p as [|c p]; [done|]. cbn [skip_slashes component] in *.
    destruct (Z.eqb_spec c 47) as [->|]; [|done]. exfalso.
    assert (length (skip_slashes p) ≤ length p)%nat as Hle.
    { destruct (skip_slashes_suffix p) as [q Hq]. rewrite Hq at 2. rewrite length_app. lia. }
    rewrite Hs in Hle. simpl in Hle. lia. }
  split; [done|]. destruct (component_rest p) as (_&Hr&E). unfold names. rewrite E.
  rewrite filter_cons_True by done. f_equal. destruct Hr as [->|[r' ->]]; [done|].
  cbn [pieces]. change (47 =? 47) with true. cbn iota. by rewrite filter_cons_False by (by intros []).
Qed.

Lemma component_no_slash p : 47 ∉ component p.
Proof.
  induction p as [|c p IH]; [apply not_elem_of_nil|]. cbn [component].
  destruct (Z.eqb_spec c 47); [apply not_elem_of_nil|]. by rewrite not_elem_of_cons.
Qed.

