(* ===== verification/Message.v ===== *)
(** Messages as the kernel's own services see them ([mk/ipc/ipc_port.c]).

    A service of the kernel is a task without an address space of its own:
    the pages of its messages are in the direct map.  The interface [Ports]
    has the operations on ports such a task calls, with what they do to a
    [view] of the machine: the ports, the contents of the pages, and the
    addresses at which the kernel has them.  The second part discharges it by
    IpcPort.v over any memory system with a direct map ([DirectMemory]); no
    page is in two queues, or in a queue and mapped. *)

From S2P Require Import Prelude MachineInt Btree Mutex Pool CString Storage Paths IpcPort IpcSpec IpcAlloc Ipc.

Local Open Scope Z_scope.
Local Open Scope c_scope.

(** * The view *)

Record view := mk_view {
  v_ports : gmap Z aport;
  v_pages : gmap Z (list Z);       (* by page *)
  v_direct : gmap Z Z              (* the page at an address *)
}.
Definition with_ports (A : gmap Z aport) (v : view) : view := mk_view A (v_pages v) (v_direct v).
Definition with_page (p : Z) (bs : list Z) (v : view) : view :=
  mk_view (v_ports v) (<[p := bs]> (v_pages v)) (v_direct v).
Definition without_page (p : Z) (v : view) : view :=
  mk_view (v_ports v) (delete p (v_pages v)) (v_direct v).
Definition mapped_at (va p : Z) (v : view) : view :=
  mk_view (v_ports v) (v_pages v) (<[va := p]> (v_direct v)).
Definition unmapped_at (va : Z) (v : view) : view :=
  mk_view (v_ports v) (v_pages v) (delete va (v_direct v)).

(** The bytes at an address. *)
Definition at_address (va : Z) (v : view) : option (list Z) := p ← v_direct v !! va; v_pages v !! p.

(** Sending a page: it is gone if the message was refused. *)
Definition view_send (t : Z) (h : ipc_header) (p : Z) (v : view) : result unit * view :=
  let '(r, A) := spec_send t h p (v_ports v) in
  (r, with_ports A (match r with Ok _ => v | Err _ => without_page p v end)).
(** The page that carries [len] bytes. *)
Definition data_page (bytes : list Z) (len : Z) : list Z :=
  take (Z.to_nat len) bytes ++ replicate (Z.to_nat (PAGE_SIZE - len)) 0.

(** The outcomes of an operation: a result and a view.  [no_page] are the
    errors of a lack of memory for the page of a message. *)
Section outcomes.
Context (no_page : Z → Prop).
Inductive sent_data (t : Z) (h : ipc_header) (bytes : list Z) (len : Z) (v : view) : result unit → view → Prop :=
| Sent_nothing e : no_page e → sent_data t h bytes len v (Err e) v
| Sent_page p r v' : p ≠ 0 → v_pages v !! p = None →
    view_send t h p (with_page p (data_page bytes len) v) = (r, v') → sent_data t h bytes len v r v'.

Inductive received (t n : Z) (want : bool) (v : view) : result (ipc_header * Z) → view → Prop :=
| Rcv_none e A : spec_receive t n (v_ports v) = (Err e, A) → received t n want v (Err e) v
| Rcv_no_page h A : spec_receive t n (v_ports v) = (Ok (h, 0), A) → received t n want v (Ok (h, 0)) (with_ports A v)
| Rcv_page h p A va : spec_receive t n (v_ports v) = (Ok (h, p), A) → p ≠ 0 → want = true →
    va ≠ 0 → v_direct v !! va = None →
    received t n want v (Ok (h, va)) (mapped_at va p (with_ports A v))
| Rcv_lost h p A e : spec_receive t n (v_ports v) = (Ok (h, p), A) → p ≠ 0 → want = true → e ≠ ERROR_AGAIN → no_page e →
    received t n want v (Err e) (without_page p (with_ports A v))
| Rcv_dropped h p A : spec_receive t n (v_ports v) = (Ok (h, p), A) → p ≠ 0 → want = false →
    received t n want v (Ok (h, 0)) (without_page p (with_ports A v)).
End outcomes.

Definition view_wait (t n : Z) (v : view) : result unit :=
  match v_ports v !! n with
  | None => Err ERROR_NOT_FOUND
  | Some a =>
      match a_msgs a with
      | _ :: _ => Ok tt
      | [] => if may_receive t a then Ok tt else Err ERROR_NO_RIGHT
      end
  end.

(** * The interface

    Every operation is called by a thread of a task. *)

Class PortOps (W : Type) := {
  p_send : Z → Z → ipc_header → Z → M W (result unit);
  p_send_data : Z → Z → ipc_header → option (list Z) → Z → M W (result unit);
  p_receive : Z → Z → Z → bool → M W (result (ipc_header * Z));
  p_wait : Z → Z → Z → M W (result unit);
  p_allocate : Z → Z → Z → M W (result Z);
  p_right_send : Z → Z → Z → Z → Z → M W (result unit);
  p_right_drop : Z → Z → Z → Z → M W (result unit);
  p_page_free : Z → M W (result unit);            (* [page_free_direct(&kernel_vm, vaddr)] *)
  p_load : Z → M W (list Z);                      (* the page at an address *)
  p_store : Z → Z → list Z → M W unit             (* to an offset in the page at an address *)
}.

Class PortView (W : Type) := {
  p_inv : W → Prop;
  p_view : W → view;
  p_kernel : W → Z → Prop;                        (* a task of the kernel *)
  p_stays : W → W → Prop;                         (* what does not depend on ports is kept *)
  p_stop : stop → Prop;                           (* memory is exhausted *)
  p_no_page : Z → Prop                            (* so are pages, or addresses for them *)
}.

(** What holds after every operation. *)
Definition p_next {W} `{PortView W} (w w' : W) : Prop :=
  p_inv w' ∧ (∀ t, p_kernel w t → p_kernel w' t) ∧ p_stays w w'.
Lemma p_next_kernel {W} `{PortView W} {w w' : W} {t} : p_next w w' → p_kernel w t → p_kernel w' t.
Proof. intros (_&Hk&_). apply Hk. Qed.
(** An operation that changes the ports only. *)
Definition on_ports {W T} `{PortView W} (spec : gmap Z aport → T * gmap Z aport) (w : W) (r : T) (w' : W) : Prop :=
  p_next w w' ∧ ∃ A, spec (v_ports (p_view w)) = (r, A) ∧ p_view w' = with_ports A (p_view w).

Class Ports (W : Type) `{PortOps W, PortView W} : Prop := {
  p_stays_preorder :: PreOrder (p_stays (W:=W));
  p_page w va p : p_inv w → v_direct (p_view w) !! va = Some p →
    va ≠ 0 ∧ ∃ bs, v_pages (p_view w) !! p = Some bs ∧ length bs = Z.to_nat PAGE_SIZE ∧ Forall is_byte bs;
  p_send_ok w self t h va p : p_inv w → self ≠ 0 → p_kernel w t → v_direct (p_view w) !! va = Some p →
    wp (p_send self t h va)
      (λ r w', p_next w w' ∧ view_send t h p (unmapped_at va (p_view w)) = (r, p_view w')) p_stop w;
  p_send_none_ok w self t h : p_inv w → self ≠ 0 → p_kernel w t →
    wp (p_send_data self t h None 0) (on_ports (spec_send t h 0) w) p_stop w;
  p_send_data_ok w self t h bytes len : p_inv w → self ≠ 0 → p_kernel w t →
    0 < len ≤ PAGE_SIZE → len ≤ Z.of_nat (length bytes) → Forall is_byte bytes →
    wp (p_send_data self t h (Some bytes) len)
      (λ r w', p_next w w' ∧ sent_data (p_no_page (W:=W)) t h bytes len (p_view w) r (p_view w')) p_stop w;
  p_receive_ok w self t n want : p_inv w → self ≠ 0 → p_kernel w t →
    wp (p_receive self t n want) (λ r w', p_next w w' ∧ received (p_no_page (W:=W)) t n want (p_view w) r (p_view w')) p_stop w;
  p_wait_ok w self t n : p_inv w → self ≠ 0 → p_kernel w t →
    wp (p_wait self t n) (λ r w', p_next w w' ∧ r = view_wait t n (p_view w) ∧ p_view w' = p_view w) p_stop w;
  p_allocate_ok w self t flags : p_inv w → self ≠ 0 → p_kernel w t →
    Z.of_nat (size (v_ports (p_view w))) < NUNRESERVED →
    wp (p_allocate self t flags)
      (λ r w', p_next w w' ∧ ∃ n, r = Ok n ∧ IPC_PORT_UNRESERVED_START ≤ n < 2 ^ 32 ∧
         v_ports (p_view w) !! n = None ∧
         p_view w' = with_ports (<[n := new_port t flags]> (v_ports (p_view w))) (p_view w)) p_stop w;
  p_right_send_ok w self t dst n right : p_inv w → self ≠ 0 → p_kernel w t → dst ≠ n →
    wp (p_right_send self t dst n right) (on_ports (spec_right_send t dst n right) w) p_stop w;
  p_right_drop_ok w self t n right : p_inv w → self ≠ 0 → p_kernel w t →
    wp (p_right_drop self t n right) (on_ports (spec_right_drop t n right) w) p_stop w;
  p_page_free_ok w va p : p_inv w → v_direct (p_view w) !! va = Some p →
    wp (p_page_free va)
      (λ r w', p_next w w' ∧ r = Ok tt ∧ p_view w' = without_page p (unmapped_at va (p_view w))) p_stop w;
  p_load_ok w va bs : p_inv w → at_address va (p_view w) = Some bs → p_load va w = Done bs w;
  p_store_ok w va p bs o new : p_inv w → v_direct (p_view w) !! va = Some p → v_pages (p_view w) !! p = Some bs →
    0 ≤ o → o + Z.of_nat (length new) ≤ PAGE_SIZE → Forall is_byte new →
    wp (p_store va o new)
      (λ _ w', p_next w w' ∧ p_view w' = with_page p (write_at o new bs) (p_view w)) p_stop w
}.

(** * Pages in queues *)

Definition port_pages (a : aport) : list Z := filter (λ p, p ≠ 0) (a_msgs a).*2.
Definition queued (A : gmap Z aport) : list Z := map_to_list A ≫= λ x, port_pages x.2.
Definition mapped (D : gmap Z Z) : list Z := (map_to_list D).*2.

(** A page is in one queue or mapped once. *)
Definition owned (v : view) : Prop :=
  NoDup (queued (v_ports v) ++ mapped (v_direct v)) ∧
  ∀ p, p ∈ queued (v_ports v) ++ mapped (v_direct v) → is_Some (v_pages v !! p).

Lemma queued_delete A n a : A !! n = Some a → queued A ≡ₚ port_pages a ++ queued (delete n A).
Proof. intros Ha. unfold queued. by rewrite <-(map_to_list_delete A n a) by done. Qed.
Lemma queued_insert_new A n a : A !! n = None → queued (<[n := a]> A) ≡ₚ port_pages a ++ queued A.
Proof. intros Ha. unfold queued. by rewrite map_to_list_insert by done. Qed.
Lemma queued_insert A n a : queued (<[n := a]> A) ≡ₚ port_pages a ++ queued (delete n A).
Proof. rewrite <-insert_delete_eq. apply queued_insert_new. apply lookup_delete_eq. Qed.
(** The port [n] goes from [a] to [a']. *)
Lemma queued_update A n a a' l :
  A !! n = Some a → port_pages a' ≡ₚ l ++ port_pages a → queued (<[n := a']> A) ≡ₚ l ++ queued A.
Proof. intros Ha Hl. rewrite queued_insert, (queued_delete A n a) by done. by rewrite Hl, app_assoc. Qed.
Lemma queued_same A n a a' : A !! n = Some a → a_msgs a' = a_msgs a → queued (<[n := a']> A) ≡ₚ queued A.
Proof. intros Ha Hm. apply (queued_update A n a a' []); [done|]. unfold port_pages. by rewrite Hm. Qed.

Lemma mapped_insert D va p : D !! va = None → mapped (<[va := p]> D) ≡ₚ p :: mapped D.
Proof. intros. unfold mapped. by rewrite map_to_list_insert by done. Qed.
Lemma mapped_delete D va p : D !! va = Some p → mapped D ≡ₚ p :: mapped (delete va D).
Proof. intros. unfold mapped. by rewrite <-(map_to_list_delete D va p) by done. Qed.
Lemma mapped_in D va p : D !! va = Some p → p ∈ mapped D.
Proof. intros Hva. rewrite (mapped_delete _ _ _ Hva). by left. Qed.

Definition page_list (p : Z) : list Z := if p =? 0 then [] else [p].
Lemma filter_page p l : filter (λ p, p ≠ 0) (p :: l) = page_list p ++ filter (λ p, p ≠ 0) l.
Proof.
  unfold page_list. destruct (Z.eqb_spec p 0); [by rewrite filter_cons_False by auto|by rewrite filter_cons_True].
Qed.

Lemma spec_send_error t h p A e A' : spec_send t h p A = (Err e, A') → A' = A.
Proof. unfold spec_send. repeat case_match; intros E; injection E; congruence. Qed.

Lemma use_send_msgs t a a' : use_send t a = Some a' → a_msgs a' = a_msgs a.
Proof. unfold use_send. repeat case_match; intros [= <-]; done. Qed.

Lemma spec_send_queued t h p A A' : spec_send t h p A = (Ok tt, A') → queued A' ≡ₚ page_list p ++ queued A.
Proof.
  unfold spec_send. case_match; [done|]. destruct (A !! ipchdr_src h); [|done]. case_match; [done|].
  destruct (A !! ipchdr_dst h) as [dst|] eqn:Hd; [|done].
  assert (∀ x, (if public dst || (ipchdr_msg h =? IPC_MSG_NONE) then Some dst else use_send t dst) = Some x →
    a_msgs x = a_msgs dst) as Hx by (intros x; case_match; [by intros [= ->]|by apply use_send_msgs]).
  destruct (if public dst || _ then _ else _) as [dst'|]; [|done]. intros [= <-]. specialize (Hx dst' eq_refl).
  eapply queued_update; [exact Hd|]. unfold port_pages. cbn [a_msgs set_msgs].
  rewrite Hx, fmap_app, filter_app, Permutation_app_comm. f_equiv. cbn [fmap list_fmap snd].
  by rewrite filter_page, filter_nil, app_nil_r.
Qed.

Lemma alter_same_msgs {f : aport → aport} A n : (∀ a, a_msgs (f a) = a_msgs a) → queued (alter f n A) ≡ₚ queued A.
Proof.
  intros Hf. destruct (A !! n) as [a|] eqn:Ha.
  - replace (alter f n A) with (<[n := f a]> A); [by eapply queued_same|].
    apply map_eq. intros i. destruct (decide (i = n)) as [->|]; [by rewrite lookup_insert_eq, lookup_alter_eq, Ha|].
    by rewrite lookup_insert_ne, lookup_alter_ne by done.
  - by rewrite alter_id by (intros y Hy; congruence).
Qed.

Lemma spec_receive_queued t n A h p A' :
  spec_receive t n A = (Ok (h, p), A') → queued A ≡ₚ page_list p ++ queued A'.
Proof.
  unfold spec_receive. destruct (A !! n) as [a|] eqn:Ha; [|done]. case_match; [done|].
  destruct (a_msgs a) as [|[h0 p0] rest] eqn:Hm; [done|]. intros [= <- <- <-].
  assert (queued (grant t h0 (<[n:=set_msgs rest a]> A)) ≡ₚ queued (<[n:=set_msgs rest a]> A)) as ->.
  { unfold grant. case_match; [done|]. apply alter_same_msgs. intros. apply give_msgs. }
  rewrite (queued_delete A n a), queued_insert by done. rewrite app_assoc. f_equiv.
  unfold port_pages. rewrite Hm. cbn [a_msgs set_msgs fmap list_fmap snd]. by rewrite filter_page.
Qed.

(** A page of its own beside the others. *)
Definition owned_but (p : Z) (v : view) : Prop :=
  NoDup (p :: queued (v_ports v) ++ mapped (v_direct v)) ∧
  ∀ q, q ∈ p :: queued (v_ports v) ++ mapped (v_direct v) → is_Some (v_pages v !! q).

Lemma owned_perm v v' :
  queued (v_ports v) ++ mapped (v_direct v) ≡ₚ queued (v_ports v') ++ mapped (v_direct v') →
  v_pages v = v_pages v' → owned v → owned v'.
Proof.
  unfold owned. intros Hp Hg [Hn Hi]. split; [by rewrite <-Hp|]. intros p. rewrite <-Hp, <-Hg. apply Hi.
Qed.
Lemma owned_take v v' p :
  queued (v_ports v) ++ mapped (v_direct v) ≡ₚ p :: queued (v_ports v') ++ mapped (v_direct v') →
  v_pages v = v_pages v' → owned v → owned_but p v'.
Proof.
  unfold owned, owned_but. intros Hp Hg [Hn Hi]. split; [by rewrite <-Hp|]. intros q. rewrite <-Hp, <-Hg. apply Hi.
Qed.
Lemma owned_put v v' p :
  p :: queued (v_ports v) ++ mapped (v_direct v) ≡ₚ queued (v_ports v') ++ mapped (v_direct v') →
  v_pages v = v_pages v' → owned_but p v → owned v'.
Proof.
  unfold owned, owned_but. intros Hp Hg [Hn Hi]. split; [by rewrite <-Hp|]. intros q. rewrite <-Hp, <-Hg. apply Hi.
Qed.
Lemma owned_drop v p : owned_but p v → owned (without_page p v).
Proof.
  intros [[Hni Hn]%NoDup_cons Hi]. split; [done|]. intros q Hq. cbn in Hq |- *.
  rewrite lookup_delete_ne by (intros ->; done). apply Hi. by right.
Qed.
Lemma owned_unmapped v va p : owned v → v_direct v !! va = Some p → owned_but p (unmapped_at va v).
Proof.
  intros Ho Hd. apply (owned_take v); [|done|done]. cbn. by rewrite (mapped_delete _ va p), <-Permutation_middle.
Qed.
Lemma owned_send v v' t h p r : p ≠ 0 → owned_but p v → view_send t h p v = (r, v') → owned v'.
Proof.
  intros Hp Ho. unfold view_send. destruct (spec_send t h p (v_ports v)) as [[[]|e] A] eqn:Hs; intros [= <- <-].
  - eapply (owned_put v); [|done|done]. cbn. apply spec_send_queued in Hs. rewrite Hs.
    unfold page_list. by rewrite (proj2 (Z.eqb_neq p 0)).
  - apply spec_send_error in Hs as ->. exact (owned_drop v p Ho).
Qed.
Lemma owned_ports v A : owned v → queued A ≡ₚ queued (v_ports v) → owned (with_ports A v).
Proof. intros Ho HA. apply (owned_perm v); [|done|done]. cbn. by rewrite HA. Qed.
Lemma owned_received v t n h p A :
  owned v → spec_receive t n (v_ports v) = (Ok (h, p), A) →
  if p =? 0 then owned (with_ports A v) else owned_but p (with_ports A v).
Proof.
  intros Ho Hs%spec_receive_queued. unfold page_list in Hs. destruct (p =? 0).
  - by apply owned_ports.
  - apply (owned_take v); [|done|done]. cbn. by rewrite Hs.
Qed.
Lemma owned_mapped v va p : v_direct v !! va = None → owned_but p v → owned (mapped_at va p v).
Proof.
  intros Hd Ho. apply (owned_put v _ p); [|done|done]. cbn. by rewrite mapped_insert, <-Permutation_middle.
Qed.

(** * A memory system with a direct map *)

Class DirectMemory (V : Type) `{TaskMemory V} := {
  dm_load : Z → M V (list Z);                     (* the page at a direct-mapped address *)
  dm_ok : V → Prop;
  dm_pages : V → gmap Z (list Z);
  dm_direct : V → gmap Z Z;
  dm_page v p bs : dm_ok v → dm_pages v !! p = Some bs →
    p ≠ 0 ∧ length bs = Z.to_nat PAGE_SIZE ∧ Forall is_byte bs;
  dm_range v va p : dm_ok v → dm_direct v !! va = Some p →
    0 < va ∧ va + PAGE_SIZE < 2 ^ 64 ∧ PAGE_ALIGNED va = true;
  dm_alloc v : dm_ok v →
    wp tm_page_alloc (λ r v', dm_ok v' ∧ dm_direct v' = dm_direct v ∧
      match r with
      | Ok p => dm_pages v !! p = None ∧ ∃ bs, dm_pages v' = <[p := bs]> (dm_pages v)
      | Err _ => dm_pages v' = dm_pages v
      end) (λ _, True) v;
  dm_release v p : dm_ok v → is_Some (dm_pages v !! p) → (∀ va, dm_direct v !! va ≠ Some p) →
    wp (tm_page_release p)
      (λ _ v', dm_ok v' ∧ dm_pages v' = delete p (dm_pages v) ∧ dm_direct v' = dm_direct v) never v;
  dm_extract v va p : dm_ok v → dm_direct v !! va = Some p → tm_page_extract kernel_vm va v = Done (Ok p) v;
  dm_map v p : dm_ok v → is_Some (dm_pages v !! p) → (∀ va, dm_direct v !! va ≠ Some p) →
    wp (tm_page_map_direct p) (λ r v', dm_ok v' ∧ dm_pages v' = dm_pages v ∧
      match r with
      | Ok va => dm_direct v !! va = None ∧ dm_direct v' = <[va := p]> (dm_direct v)
      | Err e => e ≠ ERROR_AGAIN ∧ dm_direct v' = dm_direct v
      end) never v;
  dm_unmap v va p : dm_ok v → dm_direct v !! va = Some p →
    wp (tm_page_unmap_direct p va)
      (λ r v', r = Ok tt ∧ dm_ok v' ∧ dm_pages v' = dm_pages v ∧ dm_direct v' = delete va (dm_direct v)) never v;
  dm_write v va p bs o new : dm_ok v → dm_direct v !! va = Some p → dm_pages v !! p = Some bs →
    0 ≤ o → o + Z.of_nat (length new) ≤ PAGE_SIZE → Forall is_byte new →
    wp (tm_write (va + o) new)
      (λ _ v', dm_ok v' ∧ dm_pages v' = <[p := write_at o new bs]> (dm_pages v) ∧ dm_direct v' = dm_direct v) never v;
  dm_load_ok v va p bs : dm_ok v → dm_direct v !! va = Some p → dm_pages v !! p = Some bs → dm_load va v = Done bs v
}.

(** Why there is no page for a message: none is free, or none can be mapped;
    or the allocation of pages stops. *)
Definition no_page {V} `{DirectMemory V} (e : Z) : Prop :=
  ∃ v v' : V, dm_ok v ∧ (tm_page_alloc v = Done (Err e) v' ∨ ∃ p, tm_page_map_direct p v = Done (Err e) v').
Definition page_stop {V} `{DirectMemory V} (w : stop) : Prop := ∃ v : V, dm_ok v ∧ tm_page_alloc v = Stop w.

(** With the reason of an error or a stop. *)
Lemma dm_alloc_ok {V} `{DirectMemory V} (v : V) : dm_ok v →
  wp tm_page_alloc (λ r v', dm_ok v' ∧ dm_direct v' = dm_direct v ∧
    match r with
    | Ok p => dm_pages v !! p = None ∧ ∃ bs, dm_pages v' = <[p := bs]> (dm_pages v)
    | Err e => dm_pages v' = dm_pages v ∧ no_page (V:=V) e
    end) (page_stop (V:=V)) v.
Proof.
  intros Hv. pose proof (dm_alloc v Hv) as Hw. unfold wp in *. destruct (tm_page_alloc v) as [[p|e] v'|w] eqn:E; [done| |by exists v].
  destruct Hw as (?&?&?). split_and!; try done. exists v, v'. auto.
Qed.
Lemma dm_map_ok {V} `{DirectMemory V} (v : V) p :
  dm_ok v → is_Some (dm_pages v !! p) → (∀ va, dm_direct v !! va ≠ Some p) →
  wp (tm_page_map_direct p) (λ r v', dm_ok v' ∧ dm_pages v' = dm_pages v ∧
    match r with
    | Ok va => dm_direct v !! va = None ∧ dm_direct v' = <[va := p]> (dm_direct v)
    | Err e => (e ≠ ERROR_AGAIN ∧ no_page (V:=V) e) ∧ dm_direct v' = dm_direct v
    end) never v.
Proof.
  intros Hv Hp Hn. pose proof (dm_map v p Hv Hp Hn) as Hw. unfold wp in *.
  destruct (tm_page_map_direct p v) as [[va|e] v'|w] eqn:E; [done| |done].
  destruct Hw as (?&?&?&?). split_and!; try done. exists v, v'. eauto.
Qed.

(** * The ports of IpcPort.v *)

(** [page_free_direct(&kernel_vm, vaddr)] *)
Definition page_free_direct {V} `{TaskMemory V} (vaddr : Z) : M V (result unit) :=
  assert_ (PAGE_ALIGNED vaddr) "must be a page address" ;;;
  page <-? tm_page_extract kernel_vm vaddr ;;
  _ <-? tm_page_unmap_direct page vaddr ;;
  tm_page_release page ;;;
  ret (Ok tt).

Section ipc.
Context {Ob V : Type} `{ObjPool Ob} `{DirectMemory V}.
Notation ipc := (@ipc Ob V).
Implicit Types (s : ipc) (v : V) (t n p va : Z) (h : ipc_header).

#[export] Instance ipc_ops : PortOps ipc := {|
  p_send := ipc_port_send;
  p_send_data := ipc_port_send_data;
  p_receive := ipc_port_receive;
  p_wait := ipc_port_wait;
  (* turns enough for the loop: [ipc_port_allocate_fresh] *)
  p_allocate self t flags := λ s, ipc_port_allocate self t (2 * size (abs (data s)) + 2) flags s;
  p_right_send := ipc_port_right_send;
  p_right_drop := ipc_port_right_drop;
  p_page_free va := on_memory (page_free_direct va);
  p_load va := on_memory (dm_load va);
  p_store va o new := on_memory (tm_write (u64 (va + o)) new)
|}.

Definition ipc_stop (w : stop) : Prop := alloc_stop (Ob:=Ob) w ∨ page_stop (V:=V) w.
Definition ipc_view s : view := mk_view (abs (data s)) (dm_pages (memory s)) (dm_direct (memory s)).
Definition kernel_task s t : Prop := ∃ k, tasks (data s) !! t = Some k ∧ flag_set (t_flags k) TASK_KERNEL = true.

(** [G]: what else is known of the tasks there are. *)
Definition ipc_view_in (G : gset Z → Prop) : PortView ipc := {|
  p_inv s := (wf (data s) ∧ G (dom (tasks (data s)))) ∧ locks 1 false [] s ∧ dm_ok (memory s) ∧ owned (ipc_view s);
  p_view := ipc_view;
  p_kernel := kernel_task;
  p_stays _ _ := True;
  p_stop := ipc_stop;
  p_no_page := no_page (V:=V)
|}.

Section tasks.
Context (G : gset Z → Prop).
#[local] Instance ipc_view_known : PortView ipc := ipc_view_in G.

Lemma inv_idle s self t : p_inv s → kernel_task s t → idle self t s.
Proof.
  intros ([Hw _]&Hl&_) (k&Hk&_). apply (idle_other 1 t self t s); [|by eexists]. split; [done|]. split; [done|]. by eexists.
Qed.
Lemma kernel_next s s' : same_tasks s s' → ∀ t, kernel_task s t → kernel_task s' t.
Proof.
  intros Hs t (k&Hk&Hf). specialize (Hs t). rewrite Hk in Hs. cbn in Hs.
  destruct (tasks (data s') !! t) as [k'|] eqn:Hk'; cbn in Hs; [|done]. injection Hs as Hfl _ _.
  exists k'. split; [done|]. by rewrite Hfl.
Qed.
Lemma same_tasks_dom s s' : same_tasks s s' → dom (tasks (data s')) = dom (tasks (data s)).
Proof.
  intros Hs. apply set_eq. intros t. rewrite !elem_of_dom. specialize (Hs t).
  destruct (tasks (data s) !! t), (tasks (data s') !! t); try done; split; by intros [? ?].
Qed.
Lemma next_idle s s' self t :
  p_inv s → idle self t s' → same_tasks s s' → dm_ok (memory s') → owned (ipc_view s') → p_next s s'.
Proof.
  intros ([_ HG]&_) (Hw&Hl&Ht) Hs Hd Ho. split; [|split; [by apply kernel_next|done]].
  split_and!; [done|by rewrite (same_tasks_dom s)| |done|done].
  destruct (idle_other self t 1 t s' (conj Hw (conj Hl Ht)) Ht) as (_&Hl'&_). done.
Qed.

Lemma ipc_page s va p : p_inv s → v_direct (p_view s) !! va = Some p →
  va ≠ 0 ∧ ∃ bs, v_pages (p_view s) !! p = Some bs ∧ length bs = Z.to_nat PAGE_SIZE ∧ Forall is_byte bs.
Proof.
  intros (_&_&Hd&_&Ho) Hva. destruct (dm_range _ _ _ Hd Hva) as (?&_&_). split; [lia|].
  destruct (Ho p) as [bs Hbs]; [apply elem_of_app; right; by eapply mapped_in|]. exists bs. split; [done|].
  by apply (dm_page (memory s) p).
Qed.
Lemma not_mapped_but p w : owned_but p w → ∀ va, v_direct w !! va ≠ Some p.
Proof.
  intros [[Hni _]%NoDup_cons _] va Hva. apply Hni, elem_of_app. right. by eapply mapped_in.
Qed.
Lemma owned_but_in p w : owned_but p w → is_Some (v_pages w !! p).
Proof. intros [_ Hi]. apply Hi. by left. Qed.

(** A send, with what it does to the memory known. *)
Lemma sent_view h (m : M V (result Z)) self t s (RE : Z → V → Prop) :
  p_inv s → kernel_task s t →
  wp m (λ r v, dm_ok v ∧ match r with
      | Ok p => p ≠ 0 ∧ owned_but p (mk_view (abs (data s)) (dm_pages v) (dm_direct v))
      | Err e => RE e v ∧ owned (mk_view (abs (data s)) (dm_pages v) (dm_direct v))
      end) (page_stop (V:=V)) (memory s) →
  ∀ op, wp op (sent self t h m s) (sent_stop t h m s) s →
  wp op (λ r s', p_next s s' ∧ match m (memory s) with
      | Done (Err e) v => r = Err e ∧ ipc_view s' = mk_view (abs (data s)) (dm_pages v) (dm_direct v)
      | Done (Ok p) v => view_send t h p (mk_view (abs (data s)) (dm_pages v) (dm_direct v)) = (r, ipc_view s')
      | Stop _ => False
      end) ipc_stop s.
Proof.
  intros Hi Hk Hm op Hop. unfold wp at 1 in Hm. eapply wp_mono; [exact Hop|..].
  - intros r s' (Hid&Hs&Hsent). destruct (m (memory s)) as [[p|e] v|]; [| |done].
    + destruct Hm as (Hd&Hp&Ho). destruct Hsent as [Hspec Hdis].
      set (w := mk_view (abs (data s)) (dm_pages v) (dm_direct v)) in *.
      assert (view_send t h p w = (r, ipc_view s') ∧ dm_ok (memory s')) as [Hv Hd'].
      { unfold view_send. change (v_ports w) with (abs (data s)). rewrite Hspec. destruct r as [[]|e]; cbn in Hdis.
        - injection Hdis as Hm'. rewrite <-Hm'. split; [|done]. unfold ipc_view. by rewrite <-Hm'.
        - rewrite (proj2 (Z.eqb_neq p 0)) in Hdis by done. cbn in Hdis.
          destruct (wp_done _ _ _ _ _ _ (dm_release v p Hd (owned_but_in _ _ Ho) (not_mapped_but _ _ Ho)) Hdis) as (Hd'&Hpg&Hdr).
          split; [|done]. unfold ipc_view. by rewrite Hpg, Hdr. }
      split; [|done]. apply (next_idle s s' self t); [done..|]. by eapply owned_send.
    + destruct Hm as (Hd&_&Ho). destruct Hsent as (->&Ha&<-).
      assert (ipc_view s' = mk_view (abs (data s)) (dm_pages (memory s')) (dm_direct (memory s'))) as E
        by (unfold ipc_view; by rewrite Ha).
      split; [|done]. apply (next_idle s s' self t); [done..|]. by rewrite E.
  - intros w [Hw|[Hw|(p&v&Hw&Hdis)]]; [by left|right; by rewrite Hw in Hm|]. rewrite Hw in Hm. exfalso. destruct Hm as (Hd&Hp&Ho).
    destruct (spec_send t h p (abs (data s))).1 as [|e]; [done|]. cbn in Hdis.
    rewrite (proj2 (Z.eqb_neq p 0)) in Hdis by done. cbn in Hdis.
    pose proof (dm_release v p Hd (owned_but_in _ _ Ho) (not_mapped_but _ _ Ho)) as Hr. unfold wp in Hr. by rewrite Hdis in Hr.
Qed.

Lemma taken_direct v va p : dm_ok v → dm_direct v !! va = Some p →
  wp (taken kernel_vm va) (λ r v', r = Ok p ∧ dm_ok v' ∧ dm_pages v' = dm_pages v ∧ dm_direct v' = delete va (dm_direct v))
    never v.
Proof.
  intros Hd Hva. destruct (dm_range _ _ _ Hd Hva) as (Hpos&_&_). unfold taken.
  rewrite (proj2 (Z.eqb_neq va 0)) by lia. rewrite wp_bind_ok. unfold wp at 1. rewrite (dm_extract v va p) by done.
  rewrite Z.eqb_refl, wp_bind, wp_or_panic. eapply wp_mono; [by apply (dm_unmap v va p)| |done].
  intros r v' (->&Hok&Hpg&Hdr). by rewrite wp_ret.
Qed.

Lemma ipc_send_ok s self t h va p :
  p_inv s → self ≠ 0 → kernel_task s t → dm_direct (memory s) !! va = Some p →
  wp (ipc_port_send self t h va)
    (λ r s', p_next s s' ∧ view_send t h p (unmapped_at va (ipc_view s)) = (r, ipc_view s')) ipc_stop s.
Proof.
  intros Hi Hself Hk Hva. pose proof Hk as (k&Hkt&Hf). pose proof Hi as (_&_&Hd&Ho).
  pose proof (send_ok self t Hself h va k s (inv_idle _ _ _ Hi Hk) Hkt) as Hsend.
  unfold task_vm in Hsend. rewrite Hf in Hsend. cbn [negb] in Hsend.
  pose proof (taken_direct _ _ _ Hd Hva) as Ht.
  assert (p ≠ 0) as Hp0.
  { destruct (ipc_page s va p Hi Hva) as (_&bs&Hbs&_). by apply (dm_page (memory s) p bs). }
  pose proof (owned_unmapped (ipc_view s) va p Ho Hva) as Hbut.
  eapply wp_mono; [apply (sent_view h (taken kernel_vm va) self t s (λ _ _, False) Hi Hk)|..]; [|exact Hsend| |done].
  - eapply wp_mono; [exact Ht| |by intros]. intros r v (->&Hok&Hpg&Hdr). split; [done|]. split; [done|]. by rewrite Hpg, Hdr.
  - intros r s' [Hn Hv]. split; [done|]. unfold wp in Ht. destruct (taken kernel_vm va (memory s)) as [r' v|]; [|done].
    destruct Ht as (->&_&Hpg&Hdr). by rewrite Hpg, Hdr in Hv.
Qed.

Lemma meets_ports {T} (op : M ipc T) spec self t s :
  p_inv s → kernel_task s t → meets self t op spec s →
  (∀ r A, spec (abs (data s)) = (r, A) → queued A ≡ₚ queued (abs (data s))) →
  wp op (on_ports spec s) ipc_stop s.
Proof.
  intros Hi Hk Hm Hq. eapply wp_mono; [exact Hm| |by left]. intros r s' (Hid&Hmem&Hs&Hspec).
  pose proof Hi as (_&_&Hd&Ho).
  assert (ipc_view s' = with_ports (abs (data s')) (ipc_view s)) as Hv by (unfold ipc_view; by rewrite Hmem).
  split; [|by exists (abs (data s'))]. apply (next_idle s s' self t); [done|done|done|by rewrite Hmem|]. rewrite Hv.
  apply owned_ports; [done|]. by eapply Hq.
Qed.

Lemma ipc_send_none_ok s self t h : p_inv s → self ≠ 0 → kernel_task s t →
  wp (ipc_port_send_data self t h None 0) (on_ports (spec_send t h 0) s) ipc_stop s.
Proof.
  intros Hi Hself Hk. unfold ipc_port_send_data. rewrite wp_bind, wp_assert. cbn [Z.eqb].
  apply (meets_ports _ _ self t); [done..|apply send_page_meets; [done|by apply inv_idle]|].
  intros [[]|e] A Hs; [by apply spec_send_queued in Hs|by apply spec_send_error in Hs as ->].
Qed.

(** ** Sending bytes *)

Lemma write_at_all (new buf : list Z) : length new = length buf → write_at 0 new buf = new.
Proof.
  intros Hl. change (write_at 0 new buf) with (new ++ drop (length new) buf). rewrite drop_ge by lia. by rewrite app_nil_r.
Qed.
Lemma write_at_two (a b buf : list Z) :
  length buf = (length a + length b)%nat → write_at (Z.of_nat (length a)) b (write_at 0 a buf) = a ++ b.
Proof.
  intros Hl. change (write_at 0 a buf) with (a ++ drop (length a) buf). unfold write_at. rewrite Nat2Z.id.
  rewrite take_app_length, (drop_ge _ (length a + length b)); [by rewrite app_nil_r|].
  rewrite length_app, length_drop. lia.
Qed.

Lemma filled_direct v bytes len : dm_ok v → 0 < len ≤ PAGE_SIZE → len ≤ Z.of_nat (length bytes) → Forall is_byte bytes →
  (∀ p va, dm_direct v !! va = Some p → is_Some (dm_pages v !! p)) →
  wp (filled bytes len) (λ r v', dm_ok v' ∧ dm_direct v' = dm_direct v ∧ match r with
      | Ok p => p ≠ 0 ∧ dm_pages v !! p = None ∧ dm_pages v' = <[p := data_page bytes len]> (dm_pages v)
      | Err e => dm_pages v' = dm_pages v ∧ no_page (V:=V) e
      end) (page_stop (V:=V)) v.
Proof.
  intros Hok Hlen Hb Hby Hin. unfold filled. rewrite wp_bind_ok. eapply wp_mono; [by apply dm_alloc_ok| |done].
  intros [p|e] v1 (Hok1&Hdr1&Hpg1); [|done]. destruct Hpg1 as (Hfresh&bs&Hpg1).
  assert (dm_pages v1 !! p = Some bs) as Hp1 by (by rewrite Hpg1, lookup_insert_eq).
  destruct (dm_page _ _ _ Hok1 Hp1) as (Hp0&Hbl&_).
  assert (∀ va, dm_direct v1 !! va ≠ Some p) as Hnm.
  { intros va. rewrite Hdr1. intros Hva. destruct (Hin p va Hva) as [? ?]. congruence. }
  rewrite wp_bind. eapply wp_mono; [apply (dm_map_ok v1 p Hok1); [by eexists|done]| |done].
  intros [va|e] v2 (Hok2&Hpg2&Hdr2).
  2:{ destruct Hdr2 as [[_ He] Hdr2]. rewrite wp_bind. eapply wp_mono; [apply (dm_release v2 p Hok2); [rewrite Hpg2; by eexists|by rewrite Hdr2]| |done].
      intros [] v3 (Hok3&Hpg3&Hdr3). rewrite wp_ret. split; [done|]. split; [congruence|]. split; [|done].
      rewrite Hpg3, Hpg2, Hpg1. by apply delete_insert_id. }
  destruct Hdr2 as [Hnone Hdr2]. assert (dm_direct v2 !! va = Some p) as Hva2 by (by rewrite Hdr2, lookup_insert_eq).
  destruct (dm_range _ _ _ Hok2 Hva2) as (Hva0&Hvab&_). rewrite <-Hpg2 in Hp1.
  set (new := take (Z.to_nat len) bytes). assert (length new = Z.to_nat len) as Hnl by (unfold new; rewrite length_take; lia).
  rewrite wp_bind. rewrite <-(Z.add_0_r va) at 1.
  eapply wp_mono; [apply (dm_write v2 va p bs 0 new Hok2 Hva2 Hp1); [lia|lia|by apply Forall_take]| |done].
  intros [] v3 (Hok3&Hpg3&Hdr3).
  assert (∀ v4, dm_ok v4 → dm_pages v4 = <[p := data_page bytes len]> (dm_pages v) → dm_direct v4 = dm_direct v2 →
    wp (_ <- or_panic "page_unmap_direct failed" (tm_page_unmap_direct p va) ;; ret (Ok p)) (λ r v', dm_ok v' ∧ dm_direct v' = dm_direct v ∧ match r with
      | Ok p => p ≠ 0 ∧ dm_pages v !! p = None ∧ dm_pages v' = <[p := data_page bytes len]> (dm_pages v)
      | Err e => dm_pages v' = dm_pages v ∧ no_page (V:=V) e
      end) (page_stop (V:=V)) v4) as Hend.
  { intros v4 Hok4 Hpg4 Hdr4. rewrite wp_bind, wp_or_panic.
    eapply wp_mono; [apply (dm_unmap v4 va p Hok4); by rewrite Hdr4| |done]. intros r v5 (->&Hok5&Hpg5&Hdr5).
    rewrite wp_ret. split; [done|]. split; [|by rewrite Hpg5].
    rewrite Hdr5, Hdr4, Hdr2, Hdr1. apply delete_insert_id. by rewrite <-Hdr1. }
  rewrite wp_bind. destruct (Z.eqb_spec len PAGE_SIZE) as [->|Hne]; cbn [negb].
  - rewrite wp_ret. apply Hend; [done| |congruence]. rewrite Hpg3, Hpg2, Hpg1, insert_insert_eq.
    unfold data_page. rewrite Z.sub_diag, app_nil_r. by rewrite write_at_all by lia.
  - rewrite u64_small by lia.
    assert (dm_pages v3 !! p = Some (write_at 0 new bs)) as Hp3 by (by rewrite Hpg3, lookup_insert_eq).
    eapply wp_mono; [apply (dm_write v3 va p (write_at 0 new bs) len (replicate (Z.to_nat (PAGE_SIZE - len)) 0) Hok3)| |done];
      [by rewrite Hdr3|done|lia|rewrite length_replicate; lia|by apply Forall_replicate|].
    intros [] v4 (Hok4&Hpg4&Hdr4). apply Hend; [done| |congruence].
    rewrite Hpg4, Hpg3, Hpg2, Hpg1, !insert_insert_eq. unfold data_page. fold new. f_equal.
    replace len with (Z.of_nat (length new)) at 1 by lia. apply write_at_two. rewrite length_replicate. lia.
Qed.

Lemma ipc_send_data_ok s self t h bytes len : p_inv s → self ≠ 0 → kernel_task s t →
  0 < len ≤ PAGE_SIZE → len ≤ Z.of_nat (length bytes) → Forall is_byte bytes →
  wp (ipc_port_send_data self t h (Some bytes) len)
    (λ r s', p_next s s' ∧ sent_data (no_page (V:=V)) t h bytes len (ipc_view s) r (ipc_view s')) ipc_stop s.
Proof.
  intros Hi Hself Hk Hlen Hb Hby. pose proof Hi as (_&_&Hd&Ho).
  pose proof (send_data_ok self t Hself h bytes len s (inv_idle _ _ _ Hi Hk) Hlen) as Hsend.
  pose proof (filled_direct (memory s) bytes len Hd Hlen Hb Hby) as Hf.
  assert (∀ p va, dm_direct (memory s) !! va = Some p → is_Some (dm_pages (memory s) !! p)) as Hin.
  { intros p va Hva. apply Ho, elem_of_app. right. by eapply mapped_in. }
  specialize (Hf Hin).
  eapply wp_mono; [apply (sent_view h (filled bytes len) self t s (λ e _, no_page (V:=V) e) Hi Hk)|..]; [|exact Hsend| |done].
  - eapply wp_mono; [exact Hf| |done]. intros [p|e] v (Hok&Hdr&Hr); (split; [done|]); rewrite Hdr.
    + destruct Hr as (Hp0&Hnone&Hpg). split; [done|]. rewrite Hpg. split.
      * apply NoDup_cons. split; [|apply Ho]. intros Hin'. apply Ho in Hin' as [? Hx]. cbn in Hx. congruence.
      * intros q. cbn. rewrite lookup_insert_is_Some'. intros [->|Hq]%elem_of_cons; [by left|right; by apply Ho].
    + destruct Hr as [Hr He]. split; [done|]. by rewrite Hr.
  - intros r s' [Hn Hv]. split; [done|]. unfold wp in Hf. destruct (filled bytes len (memory s)) as [[p|e] v|]; [| |done].
    + destruct Hf as (_&Hdr&Hp0&Hnone&Hpg). apply (Sent_page _ _ _ _ _ _ p); [done|done|].
      rewrite Hdr, Hpg in Hv. exact Hv.
    + destruct Hf as (_&Hdr&Hpg&He). destruct Hv as [-> Hv]. rewrite Hv, Hdr, Hpg. by apply Sent_nothing.
Qed.

(** ** Receiving *)

Lemma deliver_direct v flags vm p want : dm_ok v → flag_set flags TASK_KERNEL = true → p ≠ 0 →
  is_Some (dm_pages v !! p) → (∀ va, dm_direct v !! va ≠ Some p) →
  wp (deliver flags vm p want) (λ o v', dm_ok v' ∧
    match o with
    | Some (Ok va) =>
        if want then va ≠ 0 ∧ dm_direct v !! va = None ∧ dm_direct v' = <[va := p]> (dm_direct v) ∧ dm_pages v' = dm_pages v
        else va = 0 ∧ dm_direct v' = dm_direct v ∧ dm_pages v' = delete p (dm_pages v)
    | Some (Err e) => want = true ∧ (e ≠ ERROR_AGAIN ∧ no_page (V:=V) e) ∧ dm_direct v' = dm_direct v ∧ dm_pages v' = delete p (dm_pages v)
    | None => False
    end) never v.
Proof.
  intros Hok Hf Hp Hin Hnm. unfold deliver. rewrite (proj2 (Z.eqb_neq p 0)), Hf by done. cbn [negb].
  destruct want; cbn [negb].
  - rewrite wp_bind. eapply wp_mono; [by apply (dm_map_ok v p)| |done]. intros [va|e] v1 (Hok1&Hpg1&Hdr1).
    + destruct Hdr1 as [Hnone Hdr1]. rewrite wp_ret. split; [done|]. split_and!; [|done..].
      assert (dm_direct v1 !! va = Some p) as Hva by (by rewrite Hdr1, lookup_insert_eq).
      destruct (dm_range _ _ _ Hok1 Hva). lia.
    + destruct Hdr1 as [He Hdr1]. rewrite wp_bind. eapply wp_mono; [apply (dm_release v1 p Hok1); [by rewrite Hpg1|by rewrite Hdr1]| |done].
      intros [] v2 (Hok2&Hpg2&Hdr2). rewrite wp_ret. split; [done|]. split_and!; [done|apply He|apply He|congruence..].
  - rewrite wp_bind. eapply wp_mono; [by apply (dm_release v p)| |done]. intros [] v2 (Hok2&Hpg2&Hdr2). by rewrite wp_ret.
Qed.

Lemma ipc_receive_ok s self t n want : p_inv s → self ≠ 0 → kernel_task s t →
  wp (ipc_port_receive self t n want)
    (λ r s', p_next s s' ∧ received (no_page (V:=V)) t n want (ipc_view s) r (ipc_view s')) ipc_stop s.
Proof.
  intros Hi Hself Hk. pose proof Hk as (k&Hkt&Hf). pose proof Hi as (_&_&Hd&Ho).
  pose proof (receive_ok self t Hself n want k s (inv_idle _ _ _ Hi Hk) Hkt) as Hrcv.
  destruct (spec_receive t n (abs (data s))) as [[[h p]|e] A] eqn:Hspec; cbn [fst snd] in Hrcv.
  2:{ eapply wp_mono; [exact Hrcv|..].
    - intros r s' (Hid&Hs&Ha&->&Hm). assert (ipc_view s' = with_ports A (ipc_view s)) as Hv by (unfold ipc_view; by rewrite Ha, Hm).
      assert (A = abs (data s)) as -> by (revert Hspec; unfold spec_receive; repeat case_match; congruence).
      split; [|rewrite Hv; by eapply Rcv_none]. apply (next_idle s s' self t); [done|done|done|by rewrite Hm|by rewrite Hv].
    - intros w [Hw|(h&p&Hw&_)]; [by left|done]. }
  pose proof (owned_received (ipc_view s) t n h p A Ho Hspec) as Hown.
  destruct (Z.eqb_spec p 0) as [->|Hp].
  - eapply wp_mono; [exact Hrcv|..].
    + intros r s' (Hid&Hs&Ha&v&Hdel&->). unfold deliver in Hdel. cbn in Hdel. injection Hdel as <- Hm.
      assert (ipc_view s' = with_ports A (ipc_view s)) as Hv by (unfold ipc_view; by rewrite Ha, Hm).
      split; [|rewrite Hv; by eapply Rcv_no_page]. apply (next_idle s s' self t); [done|done|done|by rewrite <-Hm|by rewrite Hv].
    + intros w [Hw|(h'&p'&[= <- <-]&Hw)]; [by left|]. cbn in Hw. destruct Hw as [?|[_ [? ?]]]; done.
  - pose proof (deliver_direct (memory s) (t_flags k) (t_vm k) p want Hd Hf Hp (owned_but_in _ _ Hown) (not_mapped_but _ _ Hown)) as Hdel.
    unfold wp at 1 in Hdel. eapply wp_mono; [exact Hrcv|..].
    + intros r s' (Hid&Hs&Ha&v&Hrun&->). rewrite Hrun in Hdel. destruct Hdel as [Hok Hdel].
      assert (ipc_view s' = mk_view A (dm_pages (memory s')) (dm_direct (memory s'))) as Hv by (unfold ipc_view; by rewrite Ha).
      assert (owned (ipc_view s') ∧ received (no_page (V:=V)) t n want (ipc_view s) (with_header h v) (ipc_view s')) as [Ho' Hr];
        [|split; [by apply (next_idle s s' self t)|done]]. rewrite Hv.
      destruct v as [va|e]; cbn [with_header].
      * destruct want.
        -- destruct Hdel as (Hva&Hnone&->&->). split; [|by eapply Rcv_page]. by apply (owned_mapped (with_ports A (ipc_view s))).
        -- destruct Hdel as (->&->&->). split; [|by eapply Rcv_dropped]. by apply (owned_drop (with_ports A (ipc_view s))).
      * destruct Hdel as (->&[He Hnp]&->&->). split; [|by eapply Rcv_lost]. by apply (owned_drop (with_ports A (ipc_view s))).
    + intros w [Hw|(h'&p'&[= <- <-]&Hw)]; [by left|]. exfalso. cbv zeta in Hw.
      destruct (deliver _ _ _ _ _) as [[[]|] ?|]; naive_solver.
Qed.

(** ** The other operations *)

Lemma ipc_wait_ok s self t n : p_inv s → self ≠ 0 → kernel_task s t →
  wp (ipc_port_wait self t n)
    (λ r s', p_next s s' ∧ r = view_wait t n (ipc_view s) ∧ ipc_view s' = ipc_view s) ipc_stop s.
Proof.
  intros Hi Hself Hk. pose proof Hi as (_&_&Hd&Ho).
  eapply wp_mono; [apply (wait_ok self t Hself n s (inv_idle _ _ _ Hi Hk))| |by left].
  intros r s' (Hid&[Hda Hm]&Hr). assert (ipc_view s' = ipc_view s) as Hv by (unfold ipc_view; by rewrite Hda, Hm).
  split; [|split; [|done]].
  - apply (next_idle s s' self t); [done|done|by apply same_tasks_refl; rewrite Hda|by rewrite Hm|by rewrite Hv].
  - unfold view_wait, ipc_view. cbn. destruct (abs (data s) !! n) as [a|]; [|done]. destruct (a_msgs a); [|done].
    destruct (may_receive t a); [by destruct Hr|done].
Qed.

Lemma ipc_allocate_ok s self t flags : p_inv s → self ≠ 0 → kernel_task s t →
  Z.of_nat (size (abs (data s))) < NUNRESERVED →
  wp (p_allocate self t flags)
    (λ r s', p_next s s' ∧ ∃ n, r = Ok n ∧ IPC_PORT_UNRESERVED_START ≤ n < 2 ^ 32 ∧ abs (data s) !! n = None ∧
       ipc_view s' = with_ports (<[n := new_port t flags]> (abs (data s))) (ipc_view s)) ipc_stop s.
Proof.
  intros Hi Hself Hk Hsz. pose proof Hi as (_&_&Hd&Ho). unfold p_allocate, ipc_ops.
  eapply wp_mono; [apply (allocate_ok self t Hself (2 * size (abs (data s)) + 2) flags s (inv_idle _ _ _ Hi Hk)); [done|lia]| |by left].
  intros r s' (n&->&Hn&Hnone&Ha&Hid&Hm&Hs).
  assert (ipc_view s' = with_ports (<[n := new_port t flags]> (abs (data s))) (ipc_view s)) as Hv
    by (unfold ipc_view; by rewrite Ha, Hm).
  split; [|by exists n]. apply (next_idle s s' self t); [done|done|done|by rewrite Hm|]. rewrite Hv.
  apply owned_ports; [done|]. by rewrite queued_insert_new.
Qed.

Lemma ipc_right_send_ok s self t dst n right : p_inv s → self ≠ 0 → kernel_task s t → dst ≠ n →
  wp (ipc_port_right_send self t dst n right) (on_ports (spec_right_send t dst n right) s) ipc_stop s.
Proof.
  intros Hi Hself Hk Hne. apply (meets_ports _ _ self t); [done..|by apply right_send_ok; [done|apply inv_idle|]|].
  intros r A. unfold spec_right_send. destruct (abs (data s) !! n) as [a|] eqn:Ha; [|by intros [= <- <-]].
  repeat case_match; intros [= <- <-]; [done| |done]. eapply queued_same; [done|].
  unfold give_all. by case_match.
Qed.
Lemma ipc_right_drop_ok s self t n right : p_inv s → self ≠ 0 → kernel_task s t →
  wp (ipc_port_right_drop self t n right) (on_ports (spec_right_drop t n right) s) ipc_stop s.
Proof.
  intros Hi Hself Hk. apply (meets_ports _ _ self t); [done..|by apply right_drop_meets; [done|apply inv_idle]|].
  intros r A. unfold spec_right_drop. destruct (abs (data s) !! n) as [a|] eqn:Ha; [|by intros [= <- <-]].
  unfold drop_right. destruct (a_rights a !! t); cbn; intros [= <- <-]; [|done]. by eapply queued_same.
Qed.

(** A step of the memory. *)
Lemma memory_next s v : p_inv s → dm_ok v → owned (mk_view (abs (data s)) (dm_pages v) (dm_direct v)) →
  p_next s (set_memory v s).
Proof. intros ([Hw HG]&[? ? ?]&_&_) Hok Ho. split; [|done]. by split_and!. Qed.

Lemma ipc_page_free_ok s va p : p_inv s → dm_direct (memory s) !! va = Some p →
  wp (on_memory (page_free_direct va))
    (λ r s', p_next s s' ∧ r = Ok tt ∧ ipc_view s' = without_page p (unmapped_at va (ipc_view s)))
    ipc_stop s.
Proof.
  intros Hi Hva. pose proof Hi as (_&_&Hd&Ho). apply wp_on_memory. unfold page_free_direct.
  destruct (dm_range _ _ _ Hd Hva) as (_&_&Hal). pose proof (owned_unmapped (ipc_view s) va p Ho Hva) as Hbut.
  rewrite wp_bind, wp_assert, Hal. rewrite wp_bind_ok. unfold wp at 1. rewrite (dm_extract _ va p) by done.
  rewrite wp_bind_ok. eapply wp_mono; [by apply (dm_unmap _ va p)| |done]. intros r v1 (->&Hok1&Hpg1&Hdr1).
  rewrite wp_bind. eapply wp_mono; [apply (dm_release v1 p Hok1)| |done].
  - rewrite Hpg1. apply (owned_but_in _ _ Hbut).
  - rewrite Hdr1. apply (not_mapped_but _ _ Hbut).
  - intros [] v2 (Hok2&Hpg2&Hdr2). rewrite wp_ret.
    assert (mk_view (abs (data s)) (dm_pages v2) (dm_direct v2) = without_page p (unmapped_at va (ipc_view s))) as Hv
      by (by rewrite Hpg2, Hdr2, Hpg1, Hdr1).
    split; [|done]. apply memory_next; [done|done|]. rewrite Hv. by apply owned_drop.
Qed.

Lemma ipc_load_ok s va bs : p_inv s → at_address va (ipc_view s) = Some bs → on_memory (dm_load va) s = Done bs s.
Proof.
  intros (_&_&Hd&_) Ha. unfold at_address, ipc_view in Ha. cbn in Ha. apply bind_Some in Ha as (p&Hva&Hp).
  unfold on_memory, zoom. rewrite (dm_load_ok _ va p bs) by done. by destruct s.
Qed.

Lemma ipc_store_ok s va p bs o new : p_inv s → dm_direct (memory s) !! va = Some p → dm_pages (memory s) !! p = Some bs →
  0 ≤ o → o + Z.of_nat (length new) ≤ PAGE_SIZE → Forall is_byte new →
  wp (on_memory (tm_write (u64 (va + o)) new))
    (λ _ s', p_next s s' ∧ ipc_view s' = with_page p (write_at o new bs) (ipc_view s)) ipc_stop s.
Proof.
  intros Hi Hva Hp H0' Hl Hby. pose proof Hi as (_&_&Hd&Ho). apply wp_on_memory.
  destruct (dm_range _ _ _ Hd Hva) as (Hva0&Hb&_). rewrite u64_small by lia.
  eapply wp_mono; [by apply (dm_write _ va p bs o new)| |done]. intros [] v (Hok&Hpg&Hdr).
  assert (mk_view (abs (data s)) (dm_pages v) (dm_direct v) = with_page p (write_at o new bs) (ipc_view s)) as Hv
    by (by rewrite Hpg, Hdr).
  split; [|done]. apply memory_next; [done|done|]. rewrite Hv. destruct Ho as [Hn Hin]. split; [done|].
  intros q Hq. cbn. apply lookup_insert_is_Some'. right. by apply Hin.
Qed.

Lemma ipc_laws_in : Ports ipc.
Proof.
  split.
  - by split.
  - apply ipc_page.
  - apply ipc_send_ok.
  - apply ipc_send_none_ok.
  - apply ipc_send_data_ok.
  - apply ipc_receive_ok.
  - apply ipc_wait_ok.
  - apply ipc_allocate_ok.
  - apply ipc_right_send_ok.
  - apply ipc_right_drop_ok.
  - apply ipc_page_free_ok.
  - apply ipc_load_ok.
  - apply ipc_store_ok.
Qed.
End tasks.

#[export] Instance ipc_ports_view : PortView ipc := ipc_view_in (λ _, True).
#[export] Instance ipc_ports_laws : Ports ipc := ipc_laws_in (λ _, True).
End ipc.

(** * Ports beside other state *)

Section lift.
Context {W X : Type} `{Ports W} (get : X → W) (set : W → X → X).

Definition lift_port_ops : PortOps X := {|
  p_send self t h va := zoom get set (p_send self t h va);
  p_send_data self t h bytes len := zoom get set (p_send_data self t h bytes len);
  p_receive self t n want := zoom get set (p_receive self t n want);
  p_wait self t n := zoom get set (p_wait self t n);
  p_allocate self t flags := zoom get set (p_allocate self t flags);
  p_right_send self t dst n right := zoom get set (p_right_send self t dst n right);
  p_right_drop self t n right := zoom get set (p_right_drop self t n right);
  p_page_free va := zoom get set (p_page_free va);
  p_load va := zoom get set (p_load va);
  p_store va o new := zoom get set (p_store va o new)
|}.
Definition lift_port_view : PortView X := {|
  p_inv x := p_inv (get x);
  p_view x := p_view (get x);
  p_kernel x := p_kernel (get x);
  p_stays x x' := p_stays (get x) (get x');
  p_stop := p_stop (W:=W);
  p_no_page := p_no_page (W:=W)
|}.

(** A law of the part, for the whole. *)
Ltac lift_law L Hgs :=
  rewrite wp_zoom; eapply wp_mono; [by apply L| |done];
  intros ? ? ?; unfold on_ports, p_next; cbn; by rewrite Hgs.

Lemma lift_ports : (∀ w x, get (set w x) = w) → (∀ x, set (get x) x = x) → @Ports X lift_port_ops lift_port_view.
Proof.
  intros Hgs Hsg. split; cbn; intros.
  - split; [by intros x|]. intros x y z. apply transitivity.
  - by apply (p_page (get w) va p).
  - lift_law p_send_ok Hgs.
  - lift_law p_send_none_ok Hgs.
  - lift_law p_send_data_ok Hgs.
  - lift_law p_receive_ok Hgs.
  - lift_law p_wait_ok Hgs.
  - lift_law p_allocate_ok Hgs.
  - lift_law p_right_send_ok Hgs.
  - lift_law p_right_drop_ok Hgs.
  - lift_law (p_page_free_ok (get w) va p) Hgs.
  - unfold zoom. rewrite (p_load_ok (get w) va bs) by done. by rewrite Hsg.
  - lift_law (p_store_ok (get w) va p bs o new) Hgs.
Qed.
End lift.

(** The same, when more is known of the whole: [extra], which the operations on
    ports leave alone, and what [idx] tells of the part. *)
Section lift_known.
Context {W X I : Type} `{PortOps W} (PV : I → PortView W) (HP : ∀ i, @Ports W _ (PV i)) (NP : Z → Prop).
Context (get : X → W) (set : W → X → X) (idx : X → I) (extra : X → Prop) (same : X → X → Prop) (E : stop → Prop).

Definition known_port_view : PortView X := {|
  p_inv x := extra x ∧ @p_inv W (PV (idx x)) (get x);
  p_view x := @p_view W (PV (idx x)) (get x);
  p_kernel x := @p_kernel W (PV (idx x)) (get x);
  p_stays := same;
  p_stop := E;
  p_no_page := NP
|}.

Context (Hgs : ∀ w x, get (set w x) = w) (Hsg : ∀ x, set (get x) x = x).
Context (Hidx : ∀ w x, idx (set w x) = idx x) (Hextra : ∀ w x, extra x → extra (set w x)).
Context (Hpre : PreOrder same) (Hsame : ∀ w x, same x (set w x)).
Context (HE : ∀ i w, @p_stop W (PV i) w → E w) (HNP : ∀ i, @p_no_page W (PV i) = NP).

Ltac known_law L :=
  rewrite wp_zoom; eapply wp_mono; [by apply L|
    intros ? ? ?; unfold on_ports, p_next in *; cbn in *; rewrite ?HNP in *; rewrite !Hidx, Hgs; naive_solver|by apply HE].

Lemma lift_known_ports : @Ports X (lift_port_ops get set) known_port_view.
Proof.
  split; [exact Hpre|..]; cbn; intros x; intros; (match goal with H : extra _ ∧ _ |- _ => destruct H as [Hx Hi] end).
  - by apply (@p_page W _ (PV (idx x)) (HP (idx x)) (get x) va p).
  - known_law (@p_send_ok W _ (PV (idx x)) (HP (idx x)) (get x)).
  - known_law (@p_send_none_ok W _ (PV (idx x)) (HP (idx x)) (get x)).
  - known_law (@p_send_data_ok W _ (PV (idx x)) (HP (idx x)) (get x)).
  - known_law (@p_receive_ok W _ (PV (idx x)) (HP (idx x)) (get x)).
  - known_law (@p_wait_ok W _ (PV (idx x)) (HP (idx x)) (get x)).
  - known_law (@p_allocate_ok W _ (PV (idx x)) (HP (idx x)) (get x)).
  - known_law (@p_right_send_ok W _ (PV (idx x)) (HP (idx x)) (get x)).
  - known_law (@p_right_drop_ok W _ (PV (idx x)) (HP (idx x)) (get x)).
  - known_law (@p_page_free_ok W _ (PV (idx x)) (HP (idx x)) (get x) va p).
  - unfold zoom. rewrite (@p_load_ok W _ (PV (idx x)) (HP (idx x)) (get x) va bs) by done. by rewrite Hsg.
  - known_law (@p_store_ok W _ (PV (idx x)) (HP (idx x)) (get x) va p bs o new).
Qed.
End lift_known.

(** The state of a service beside the ports. *)
Section pair.
Context {W T : Type} `{Ports W}.
Definition set_first (w : W) (x : W * T) : W * T := (w, x.2).
Definition set_second (t : T) (x : W * T) : W * T := (x.1, t).
#[export] Instance pair_port_ops : PortOps (W * T) := lift_port_ops fst set_first.
#[export] Instance pair_port_view : PortView (W * T) := lift_port_view fst.
#[export] Instance pair_ports : Ports (W * T).
Proof. apply lift_ports; [done|by intros []]. Qed.

(** An operation on the other state. *)
Lemma wp_second {A} (m : M T A) (Q : A → W * T → Prop) E x :
  wp m (λ a t, Q a (x.1, t)) E x.2 → wp (zoom snd set_second m) Q E x.
Proof. intros. by rewrite wp_zoom. Qed.

(** An operation on the first part. *)
Lemma wp_first {A} (m : M W A) (Q : A → W → Prop) (E E' : stop → Prop) x :
  (∀ w, E w → E' w) → wp m Q E x.1 → wp (zoom fst set_first m) (λ a x', Q a x'.1 ∧ x'.2 = x.2) E' x.
Proof. intros HE Hw. rewrite wp_zoom. eapply wp_mono; [exact Hw|by intros|exact HE]. Qed.

(** The operations on ports leave the other state alone. *)
Lemma pair_frame {A} (m : M W A) (Q : A → W * T → Prop) (E : stop → Prop) x :
  (∀ w, p_stop (W:=W) w → E w) →
  wp (zoom fst set_first m) Q (p_stop (W:=W)) x → wp (zoom fst set_first m) (λ a x', Q a x' ∧ x'.2 = x.2) E x.
Proof. rewrite !wp_zoom. intros Hstop Hw. eapply wp_mono; [exact Hw| |exact Hstop]. by intros. Qed.
End pair.

(** A law of the ports [L], with that, for the operation the goal begins with. *)
Ltac framed L Estop :=
  let Hw := fresh "Hw" in
  pose proof L as Hw;
  cbn [p_send p_send_data p_receive p_wait p_allocate p_right_send p_right_drop p_page_free p_load p_store p_stop
       pair_port_ops lift_port_ops pair_port_view lift_port_view] in Hw |- *;
  apply (pair_frame _ _ _ _ Estop) in Hw; eapply wp_mono; [exact Hw|clear Hw|done].

(** * Strings in pages *)

Lemma string_of_chars bs name : string_of bs = Some name → Forall is_byte bs → Forall (λ c, 0 < c < 256) name.
Proof.
  revert name. induction bs as [|b bs IH]; intros name; cbn; [done|]. intros Hs [Hb Hbs]%Forall_cons.
  destruct (Z.eqb_spec b 0) as [->|Hne]; [by injection Hs as <-|].
  destruct (string_of bs) as [l|] eqn:E; [|done]. injection Hs as <-. apply Forall_cons. unfold is_byte in Hb.
  split; [lia|by apply IH].
Qed.
