(* ===== verification/Service.v ===== *)
(** Services of the kernel ([mk/ipc/ipc_service.c]).

    A service is a task of the kernel with one thread, which takes the
    messages of a port one by one and gives each to a handler.  The first part
    is [ipc_service], which makes one, on the tasks of Task.v and the ports of
    IpcPort.v; the second is [ipc_service_main], the service's thread, on the
    interface [Ports].  The thread is blocked only in [ipc_port_wait]; here a
    wait comes back at once, and an iteration of a loop that finds no message
    begins again.

    The theorems: the service alone can receive on a port that was made for
    it, and its thread starts in [ipc_service_main]; and whatever the handler
    keeps or sends on, no page stays mapped after its message. *)

From S2P Require Import Prelude MachineInt Btree Mutex Pool CString Storage.
From S2P Require Import IpcPort IpcSpec IpcAlloc Ipc Message Task Directory.

Local Open Scope Z_scope.
Local Open Scope c_scope.

(** * Making a service *)

Record ipc_service_context (F : Type) := mk_ipcsc {
  ipcsc_name : list Z;
  ipcsc_handler : F;
  ipcsc_arg : Z;
  ipcsc_port : Z;
  ipcsc_port_flags : Z;
  ipcsc_task : Z;
  ipcsc_thread : Z
}.
Arguments mk_ipcsc {F}.
Arguments ipcsc_name {F}.
Arguments ipcsc_handler {F}.
Arguments ipcsc_arg {F}.
Arguments ipcsc_port {F}.
Arguments ipcsc_port_flags {F}.
Arguments ipcsc_task {F}.
Arguments ipcsc_thread {F}.

Section service.
(** [F]: the handlers, as functions are named. *)
Context {Ob V F : Type} `{ObjPool Ob} `{TaskMemory V} `{ThreadMemory V}.
Notation kernel := (@kernel Ob V).
Notation context := (ipc_service_context F).

Definition with_service_task (t : Z) (x : context) : context :=
  mk_ipcsc (ipcsc_name x) (ipcsc_handler x) (ipcsc_arg x) (ipcsc_port x) (ipcsc_port_flags x) t (ipcsc_thread x).
Definition with_service_thread (td : Z) (x : context) : context :=
  mk_ipcsc (ipcsc_name x) (ipcsc_handler x) (ipcsc_arg x) (ipcsc_port x) (ipcsc_port_flags x) (ipcsc_task x) td.
Definition with_service_port (n : Z) (x : context) : context :=
  mk_ipcsc (ipcsc_name x) (ipcsc_handler x) (ipcsc_arg x) n (ipcsc_port_flags x) (ipcsc_task x) (ipcsc_thread x).

(** With the threads made runnable, latest first. *)
Record services := mk_services {
  sv_kernel : kernel;
  sv_malloc : Ob;                    (* the bucket of [malloc] contexts come from *)
  sv_contexts : gmap Z context;
  sv_runnable : list Z
}.
Definition set_kernel (k : kernel) (x : services) : services :=
  mk_services k (sv_malloc x) (sv_contexts x) (sv_runnable x).
Definition set_malloc (o : Ob) (x : services) : services :=
  mk_services (sv_kernel x) o (sv_contexts x) (sv_runnable x).
Definition set_contexts (m : gmap Z context) (x : services) : services :=
  mk_services (sv_kernel x) (sv_malloc x) m (sv_runnable x).

Definition on_kernel {A} (m : M kernel A) : M services A := zoom sv_kernel set_kernel m.
Definition on_service_ipc {A} (m : M (@ipc Ob V) A) : M services A := on_kernel (on_ipc m).

Definition load_context (c : Z) : M services context :=
  x <- get ;; deref "struct ipc_service_context" (sv_contexts x !! c).
Definition store_context (c : Z) (f : context → context) : M services unit :=
  x <- load_context c ;; modify (λ s, set_contexts (<[c := f x]> (sv_contexts s)) s).

Section run.
(** [current_thread()] and [current_task()]; fuel for the search of a port
    number; the addresses of two functions. *)
Context (self me : Z) (fuel : nat) (cpu_thread_exception ipc_service_main : Z).

Definition scheduler_thread_runnable (td : Z) : M services unit :=
  modify (λ x, mk_services (sv_kernel x) (sv_malloc x) (sv_contexts x) (td :: sv_runnable x)).

(** The port of a service, made if it is asked for: was it? *)
Definition service_port (c flags : Z) : M services bool :=
  x <- load_context c ;;
  if negb (Z.land flags IPC_PORT_FLAG_NEW =? 0) then
    let flags := Z.land flags (bnot 32 IPC_PORT_FLAG_NEW) in
    (if ipcsc_port x =? IPC_PORT_UNKNOWN then
       n <- or_panic "ipc_allocate failed" (on_service_ipc (ipc_port_allocate self me fuel flags)) ;;
       store_context c (with_service_port n)
     else
       or_panic "ipc_allocate_reserved failed"
         (on_service_ipc (ipc_port_allocate_reserved self me (ipcsc_port x) flags))) ;;;
    ret true
  else if ipcsc_port x =? IPC_PORT_UNKNOWN then halt (Panic "service requested to use unknown port.")
  else ret false.

Definition ipc_service (name : list Z) (port flags : Z) (handler : F) (arg : Z) : M services (result unit) :=
  ipcsc <- zoom sv_malloc set_malloc op_alloc ;;
  if ipcsc =? 0 then halt (Undefined "struct ipc_service_context")
  else
    modify (λ x, set_contexts (<[ipcsc := mk_ipcsc name handler arg port flags 0 0]> (sv_contexts x)) x) ;;;
    task <- or_panic "task_create failed" (on_kernel (task_create self me fuel IPC_PORT_UNKNOWN TASK_KERNEL)) ;;
    store_context ipcsc (with_service_task task) ;;;
    td <- or_panic "thread_create failed" (on_kernel (thread_create cpu_thread_exception task THREAD_DEFAULT)) ;;
    store_context ipcsc (with_service_thread td) ;;;
    allocated <- service_port ipcsc flags ;;
    x <- load_context ipcsc ;;
    or_panic "ipc_port_right_grant failed"
      (on_service_ipc (ipc_port_right_grant self me (ipcsc_task x) (ipcsc_port x) IPC_PORT_RIGHT_RECEIVE)) ;;;
    (if allocated : bool then
       or_panic "ipc_port_right_drop failed"
         (on_service_ipc (ipc_port_right_drop self me (ipcsc_port x) IPC_PORT_RIGHT_RECEIVE))
     else ret tt) ;;;
    on_kernel (thread_set_upcall (ipcsc_thread x) ipc_service_main ipcsc) ;;;
    scheduler_thread_runnable (ipcsc_thread x) ;;;
    ret (Ok tt).
End run.
End service.

(** * The thread of a service *)

Definition NS_MSG_LOOKUP : Z := 0x00000001.
Definition NS_MSG_REGISTER : Z := 0x00000002.

(** [strlcpy(nsreq.service_name, name, NS_SERVICE_NAME_LENGTH)] and the port,
    in what the stack held. *)
Definition sizeof_ns_register_request : Z := 28.
Definition ns_register_request (stack name : list Z) (port : Z) : list Z :=
  write_at NS_SERVICE_NAME_LENGTH (be_split 4 port) (write_at 0 (service_name name ++ [0]) stack).

Section main.
Context {X : Type} `{PortOps X}.
(** [current_thread()] and [current_task()] *)
Context (self me : Z).

(** A handler: what it returns, and the page it leaves in [*pagep]; [pagep] is
    [NULL] if there is no page. *)
Definition handler : Type := ipc_header → Z → M X (result unit * Z).

Definition register_header (port : Z) : ipc_header :=
  mk_header port IPC_PORT_NS IPC_PORT_RIGHT_SEND_ONCE NS_MSG_REGISTER 0 0.

(** What is done with a received message; [ipch] is what the last receive left
    and [again] the next turn of the loop. *)
Definition registration_answer (again : ipc_header → M X unit) (ipch : ipc_header) (r : result (ipc_header * Z)) :
    M X unit :=
  if (match r with Err e => e =? ERROR_AGAIN | Ok _ => false end) then again ipch
  else
    let ipch := match r with Ok (h, _) => h | Err _ => ipch end in
    if negb (ipchdr_src ipch =? IPC_PORT_NS) then again ipch
    else if ipchdr_msg ipch =? IPC_MSG_ERROR NS_MSG_REGISTER then halt (Panic "could not register with ns.")
    else if negb (ipchdr_msg ipch =? IPC_MSG_REPLY NS_MSG_REGISTER) then again ipch
    else if negb (ipchdr_cookie ipch =? 0) then again ipch
    else ret tt.

(** The loop that waits for the answer. *)
Fixpoint registration_loop (fuel : nat) (port : Z) (ipch : ipc_header) : M X unit :=
  match fuel with
  | O => halt OutOfFuel
  | S fuel =>
      or_panic "ipc_port_wait failed" (p_wait self me port) ;;;
      r <- p_receive self me port false ;;
      registration_answer (registration_loop fuel port) ipch r
  end.

(** The request of a service whose name is to be known. *)
Definition register_request (stack name : list Z) (port : Z) : M X unit :=
  or_panic "ipc_send failed"
    (p_send_data self me (register_header port) (Some (ns_register_request stack name port)) sizeof_ns_register_request).

Definition service_register (fuel : nat) (stack name : list Z) (port flags : Z) : M X unit :=
  if negb (Z.land flags IPC_PORT_FLAG_PUBLIC =? 0) && (IPC_PORT_UNRESERVED_START <=? port) then
    register_request stack name port ;;;
    registration_loop fuel port (register_header port)
  else ret tt.

(** One message: the handler, and the page given back if it is still there.
    A failure of the handler is printed. *)
Definition service_message (hd : handler) (ipch : ipc_header) (p : Z) : M X unit :=
  r <- hd ipch p ;;
  if negb (r.2 =? 0) then or_panic "page_free_direct failed" (p_page_free r.2) else ret tt.

(** An iteration of the loop that receives requests. *)
Definition service_iteration (hd : handler) (port : Z) : M X unit :=
  or_panic "ipc_port_wait failed" (p_wait self me port) ;;;
  r <- p_receive self me port true ;;
  match r with
  | Err e => if e =? ERROR_AGAIN then ret tt else halt (Panic "ipc_port_receive failed")
  | Ok (ipch, p) => service_message hd ipch p
  end.

(** [ipc_service_main] up to the end of [n] iterations. *)
Fixpoint service_loop (n : nat) (hd : handler) (port : Z) : M X unit :=
  match n with
  | O => ret tt
  | S n => service_iteration hd port ;;; service_loop n hd port
  end.
Definition ipc_service_main (fuel n : nat) (stack name : list Z) (port flags : Z) (hd : handler) : M X unit :=
  service_register fuel stack name port flags ;;;
  service_loop n hd port.
End main.

(** * What making a service does *)

(** The first two of three statements. *)
Lemma wp_seq {St B} (m k : M St unit) (rest : M St B) Q E s :
  wp (m ;;; k) (λ _, wp rest Q E) E s → wp (m ;;; k ;;; rest) Q E s.
Proof. rewrite !wp_bind. unfold wp. destruct (m s) as [[] s'|]; [|done]. unfold bind. by destruct (k s'). Qed.

Section make.
Context {Ob V F : Type} `{ObjPool Ob} `{TaskMemory V} `{ThreadMemory V}.
Context (self me : Z) (Hself : self ≠ 0) (fuel : nat) (exception main : Z).
Context (keep : V → V → Prop) `{!PreOrder keep} (Hlaw : thread_law keep).
Notation kernel := (@kernel Ob V).
Notation services := (@services Ob V F).
Notation idle := (idle self me).
Implicit Types (k : kernel) (x : services) (c t td n port flags : Z).

Definition sv_ports x : gmap Z aport := ports (sv_kernel x).

Record services_ok x : Prop := {
  so_kernel : kernel_ok self me (sv_kernel x);
  so_threads : threads_ok (sv_kernel x);
  so_malloc : op_inv (sv_malloc x);
  so_live c : is_Some (sv_contexts x !! c) → op_live (sv_malloc x) c
}.

(** What a caller of [ipc_service] has to see to. *)
Definition port_wanted port flags (A : gmap Z aport) : Prop :=
  if Z.land flags IPC_PORT_FLAG_NEW =? 0 then
    port ≠ IPC_PORT_UNKNOWN ∧ ∃ a, A !! port = Some a ∧ may_receive me a = true
  else if port =? IPC_PORT_UNKNOWN then
    Z.of_nat (size A) < NUNRESERVED ∧ (2 * size A + 2 ≤ fuel)%nat
  else 0 < port < IPC_PORT_UNRESERVED_START ∧ A !! port = None.

(** The port [n] of a service of the task [t]. *)
Definition port_made t port flags n (A A' : gmap Z aport) : Prop :=
  if Z.land flags IPC_PORT_FLAG_NEW =? 0 then
    n = port ∧ ∃ a, A !! port = Some a ∧ A' = <[port := give t IPC_PORT_RIGHT_RECEIVE a]> A
  else
    A !! n = None ∧ (if port =? IPC_PORT_UNKNOWN then IPC_PORT_UNRESERVED_START ≤ n < 2 ^ 32 else n = port) ∧
    ∃ a, A' = <[n := a]> A ∧ a_msgs a = [] ∧ a_flags a = Z.land flags (bnot 32 IPC_PORT_FLAG_NEW) ∧
      ∀ u, may_receive u a = bool_decide (u = t).

(** A service that was made: its context [c], its task, its thread and its
    port. *)
Record service_made name port flags (h : F) arg c t td n x x' : Prop := {
  sm_fresh : sv_contexts x !! c = None ∧ tasks_of (sv_kernel x) !! t = None ∧ threads (sv_kernel x) !! td = None;
  sm_context : sv_contexts x' = <[c := mk_ipcsc name h arg n flags t td]> (sv_contexts x);
  sm_task : ∃ l, tasks_of (sv_kernel x') !! t = Some (mk_task TASK_KERNEL 0 l 0);
  sm_others u y : tasks_of (sv_kernel x) !! u = Some y →
    ∃ l, tasks_of (sv_kernel x') !! u = Some (mk_task (t_flags y) (t_vm y) l (ipct_task_port y));
  sm_thread : ∃ y, threads (sv_kernel x') = <[td := y]> (threads (sv_kernel x)) ∧ td_task y = t ∧
    td_context y = mk_context cpu_thread_trampoline td main c (u64 (td_kstack y + KSTACK_SIZE));
  sm_list : t_threads (sv_kernel x') = <[t := [td]]> (t_threads (sv_kernel x));
  sm_runnable : sv_runnable x' = td :: sv_runnable x;
  sm_port : port_made t port flags n (sv_ports x) (sv_ports x');
  sm_memory : keep (memory (k_ipc (sv_kernel x))) (memory (k_ipc (sv_kernel x')))
}.

Lemma wp_on_service_ipc {A} (m : M (@ipc Ob V) A) (Q : A → services → Prop) E x :
  wp m (λ a s, Q a (set_kernel (set_ipc s (sv_kernel x)) x)) E (k_ipc (sv_kernel x)) → wp (on_service_ipc m) Q E x.
Proof. intros. unfold on_service_ipc, on_kernel. rewrite wp_zoom. by apply wp_on_ipc. Qed.
Lemma wp_load_context x c y (Q : _ → services → Prop) E :
  sv_contexts x !! c = Some y → Q y x → wp (load_context c) Q E x.
Proof. intros Hy HQ. unfold load_context. by rewrite wp_bind, wp_get, Hy. Qed.
Lemma wp_store_context x c y f (Q : unit → services → Prop) E :
  sv_contexts x !! c = Some y → Q tt (set_contexts (<[c := f y]> (sv_contexts x)) x) → wp (store_context c f) Q E x.
Proof. intros Hy HQ. unfold store_context. rewrite wp_bind. by eapply wp_load_context. Qed.

Lemma kernel_ok_ipc k s : kernel_ok self me k → idle s → same_tasks (k_ipc k) s → kernel_ok self me (set_ipc s k).
Proof.
  intros K Hi Hs. split; [done|apply K|]. intros t Ht. apply (ko_live _ _ _ K). by apply (same_tasks_some _ s).
Qed.

(** Only the port tables changed. *)
Record ports_only x x' : Prop := {
  po_kernel : ∃ s, sv_kernel x' = set_ipc s (sv_kernel x) ∧ idle s ∧ same_tasks (k_ipc (sv_kernel x)) s ∧
    memory s = memory (k_ipc (sv_kernel x));
  po_malloc : sv_malloc x' = sv_malloc x;
  po_runnable : sv_runnable x' = sv_runnable x
}.
Lemma ports_only_trans x1 x2 x3 : ports_only x1 x2 → ports_only x2 x3 → ports_only x1 x3.
Proof.
  intros [(s1&E1&I1&T1&M1) A1 B1] [(s2&E2&I2&T2&M2) A2 B2]. split; [|congruence..]. exists s2.
  rewrite E1 in E2, T2, M2. cbn in T2, M2. split_and!; [exact E2|done|by eapply same_tasks_trans|congruence].
Qed.
Lemma ports_only_refl x : kernel_ok self me (sv_kernel x) → ports_only x x.
Proof.
  intros K. split; [|done..]. exists (k_ipc (sv_kernel x)). split_and!; [by destruct x as [[]]|apply K|by apply same_tasks_refl|done].
Qed.
Lemma ports_only_ok x x' : kernel_ok self me (sv_kernel x) → ports_only x x' → kernel_ok self me (sv_kernel x').
Proof. intros K [(s&->&Hi&Hs&_) _ _]. by apply kernel_ok_ipc. Qed.
(** A task that is there is still there, with other rights. *)
Lemma ports_only_task x x' t y : ports_only x x' → tasks_of (sv_kernel x) !! t = Some y →
  ∃ l, tasks_of (sv_kernel x') !! t = Some (mk_task (t_flags y) (t_vm y) l (ipct_task_port y)).
Proof. intros [(s&->&_&Hs&_) _ _] Hy. by apply (same_task (k_ipc (sv_kernel x)) s). Qed.

Lemma meets_service {T} (op : M (@ipc Ob V) T) spec x (Q : T → services → Prop) :
  kernel_ok self me (sv_kernel x) → meets self me op spec (k_ipc (sv_kernel x)) →
  (∀ r x', ports_only x x' → sv_contexts x' = sv_contexts x → spec (sv_ports x) = (r, sv_ports x') → Q r x') →
  wp (on_service_ipc op) Q (alloc_stop (Ob:=Ob)) x.
Proof.
  intros K Hm HQ. apply wp_on_service_ipc. eapply wp_mono; [exact Hm| |done].
  intros r s (Hi&Hmem&Hs&Hspec). apply HQ; [|done|done]. split; [by exists s|done..].
Qed.

(** The port before the service's task is given the right to it. *)
Definition port_ready port flags n (A A' : gmap Z aport) : Prop :=
  if Z.land flags IPC_PORT_FLAG_NEW =? 0 then n = port ∧ A' = A
  else A !! n = None ∧ (if port =? IPC_PORT_UNKNOWN then IPC_PORT_UNRESERVED_START ≤ n < 2 ^ 32 else n = port) ∧
    A' = <[n := new_port me (Z.land flags (bnot 32 IPC_PORT_FLAG_NEW))]> A.

Lemma service_port_ok c y port flags x :
  kernel_ok self me (sv_kernel x) → sv_contexts x !! c = Some y → ipcsc_port y = port → port_wanted port flags (sv_ports x) →
  wp (service_port self me fuel c flags)
    (λ b x', b = negb (Z.land flags IPC_PORT_FLAG_NEW =? 0) ∧ ports_only x x' ∧
       ∃ n, sv_contexts x' = <[c := with_service_port n y]> (sv_contexts x) ∧
         port_ready port flags n (sv_ports x) (sv_ports x'))
    (alloc_stop (Ob:=Ob)) x.
Proof.
  intros K Hy Hport Hw. unfold service_port, port_wanted, port_ready in *. rewrite wp_bind. eapply wp_load_context; [done|]. rewrite Hport.
  assert (with_service_port port y = y) as Hsame by (destruct y; cbn in *; by subst).
  destruct (Z.land flags IPC_PORT_FLAG_NEW =? 0); cbn [negb].
  - destruct Hw as [Hp _]. rewrite (proj2 (Z.eqb_neq _ _)) by done. rewrite wp_ret. split; [done|]. split; [by apply ports_only_refl|].
    exists port. rewrite Hsame. by rewrite insert_id.
  - set (fl := Z.land flags (bnot 32 IPC_PORT_FLAG_NEW)). destruct (Z.eqb_spec port IPC_PORT_UNKNOWN) as [E|E].
    + destruct Hw as [Hsz Hfuel]. rewrite !wp_bind, wp_or_panic. apply wp_on_service_ipc.
      eapply wp_mono; [apply (allocate_ok self me Hself fuel fl _ (ko_idle _ _ _ K) Hsz Hfuel)| |done].
      intros r s (n&->&Hn&Hfree&Habs&Hi&Hm&Hs).
      eapply (wp_store_context _ _ y); [exact Hy|]. rewrite wp_ret. split; [done|]. split; [split; [by exists s|done..]|].
      by exists n.
    + destruct Hw as [Hr Hfree]. rewrite wp_bind, wp_or_panic.
      eapply (meets_service _ (spec_allocate_reserved me port fl)); [done|apply allocate_reserved_ok; [done|apply K|unfold IPC_PORT_UNRESERVED_START in *; lia]|].
      intros r x' Hpo Hc Hspec. unfold spec_allocate_reserved in Hspec.
      rewrite (proj2 (Z.eqb_neq port _)), (proj2 (Z.leb_gt _ _)), Hfree in Hspec by (done || lia). cbn [orb] in Hspec. injection Hspec as <- HA.
      rewrite wp_ret. split; [done|]. split; [done|]. exists port. rewrite Hsame, Hc. by rewrite insert_id.
Qed.

Lemma handed_new t fl : t ≠ me → ∃ a,
  drop_right me IPC_PORT_RIGHT_RECEIVE (give t IPC_PORT_RIGHT_RECEIVE (new_port me fl)) = Some a ∧
  a_msgs a = [] ∧ a_flags a = fl ∧ ∀ u, may_receive u a = bool_decide (u = t).
Proof.
  intros Ht. assert (give t IPC_PORT_RIGHT_RECEIVE (new_port me fl) =
    mk_aport fl (<[t := IPC_PORT_RIGHT_RECEIVE]> {[me := IPC_PORT_RIGHT_RECEIVE]}) []) as ->.
  { unfold give. cbn [andb negb flag_set]. unfold set_right, a_right, new_port. cbn [a_rights a_flags a_msgs].
    by rewrite lookup_singleton_ne by done. }
  unfold drop_right. cbn [a_rights]. rewrite lookup_insert_ne, lookup_singleton_eq by done. cbn.
  eexists. split_and!; [done..|]. intros u. unfold may_receive, a_right. cbn [a_rights set_right].
  destruct (decide (u = t)) as [->|Hu]; [by rewrite lookup_insert_ne, lookup_insert_eq, bool_decide_true by done|].
  rewrite bool_decide_false by done. destruct (decide (u = me)) as [->|Hm]; [by rewrite lookup_insert_eq|].
  by rewrite !lookup_insert_ne, lookup_singleton_ne by done.
Qed.

(** The service's task gets the right to receive; the maker of a new port
    gives its own up. *)
Lemma grant_drop_ok t port flags n A0 x (b : bool) :
  kernel_ok self me (sv_kernel x) → t ≠ me → is_Some (tasks_of (sv_kernel x) !! t) →
  port_wanted port flags A0 → port_ready port flags n A0 (sv_ports x) →
  b = negb (Z.land flags IPC_PORT_FLAG_NEW =? 0) →
  wp (or_panic "ipc_port_right_grant failed"
        (on_service_ipc (ipc_port_right_grant self me t n IPC_PORT_RIGHT_RECEIVE)) ;;;
      (if b then or_panic "ipc_port_right_drop failed"
         (on_service_ipc (ipc_port_right_drop self me n IPC_PORT_RIGHT_RECEIVE)) else ret tt))
    (λ _ x', ports_only x x' ∧ sv_contexts x' = sv_contexts x ∧ port_made t port flags n A0 (sv_ports x'))
    (alloc_stop (Ob:=Ob)) x.
Proof.
  intros K Ht Hin Hw Hr ->. unfold port_wanted, port_ready, port_made in *. rewrite wp_bind, wp_or_panic.
  eapply (meets_service _ (spec_right_grant me t n IPC_PORT_RIGHT_RECEIVE)); [done|by apply right_grant_meets; [|apply K|]|].
  intros r x1 Hpo1 Hc1 Hspec. unfold spec_right_grant in Hspec.
  destruct (Z.land flags IPC_PORT_FLAG_NEW =? 0); cbn [negb].
  - destruct Hr as [-> HA], Hw as (_&a&Ha&Hma). rewrite HA, Ha, Hma in Hspec. cbn [negb] in Hspec. injection Hspec as <- HA1.
    rewrite wp_ret. split_and!; [done..|]. by exists a.
  - destruct Hr as (Hfree&Hn&HA). rewrite HA, lookup_insert_eq in Hspec. set (fl := Z.land flags (bnot 32 IPC_PORT_FLAG_NEW)) in *.
    assert (may_receive me (new_port me fl) = true) as Hmr
      by (unfold may_receive, a_right, new_port; cbn; by rewrite lookup_singleton_eq).
    rewrite Hmr in Hspec. cbn [negb] in Hspec. injection Hspec as <- HA1. rewrite insert_insert_eq in HA1. rewrite wp_or_panic.
    destruct (handed_new t fl Ht) as (a&Hd&Hm&Hf&Hu).
    pose proof (ports_only_ok _ _ K Hpo1) as K1.
    eapply (meets_service _ (spec_right_drop me n IPC_PORT_RIGHT_RECEIVE)); [done|by apply right_drop_meets; [|apply K1]|].
    intros r x2 Hpo2 Hc2 Hspec. unfold spec_right_drop in Hspec. rewrite <-HA1, lookup_insert_eq, Hd in Hspec.
    injection Hspec as <- HA2. rewrite insert_insert_eq in HA2.
    split_and!; [by eapply ports_only_trans|congruence|done|done|]. by exists a.
Qed.

(** Why making a service may stop. *)
Definition service_stop (w : stop) : Prop := thread_stop (Ob:=Ob) (V:=V) w.

Lemma ipc_service_ok name port flags (h : F) arg x :
  services_ok x → port_wanted port flags (sv_ports x) →
  wp (ipc_service self me fuel exception main name port flags h arg)
    (λ r x', r = Ok tt ∧ services_ok x' ∧ ∃ c t td n, t ≠ me ∧ service_made name port flags h arg c t td n x x')
    service_stop x.
Proof.
  intros S Hwant. unfold ipc_service. rewrite wp_bind, wp_zoom. unfold wp at 1.
  destruct (op_alloc (sv_malloc x)) as [c o|w] eqn:Hal; [|left; exists (sv_malloc x); split; [apply S|exact Hal]].
  destruct (op_alloc_ok _ _ _ (so_malloc _ S) Hal) as (Ho&Hfresh&Hlive).
  assert (0 < c) as Hc0 by (apply (op_live_pos o); [done|]; apply Hlive; by right).
  assert (sv_contexts x !! c = None) as Hcnone.
  { destruct (sv_contexts x !! c) eqn:E; [|done]. exfalso. apply Hfresh, (so_live _ S). by eexists. }
  rewrite (proj2 (Z.eqb_neq c 0)) by lia. rewrite wp_bind, wp_modify. cbn [sv_contexts set_malloc].
  set (y0 := mk_ipcsc name h arg port flags 0 0). rewrite wp_bind, wp_or_panic. unfold on_kernel at 1. rewrite wp_zoom.
  cbn [sv_kernel set_contexts set_malloc].
  eapply wp_mono; [apply (task_create_kernel_ok self me fuel _ (so_kernel _ S))| |by left].
  intros r k1 (t&->&Ht0&Htme&Htnone&K1&Htasks&Hports&Hmem1&_&Hth&Hthr&Htp).
  set (x1 := set_kernel k1 _). assert (sv_contexts x1 = <[c := y0]> (sv_contexts x)) as Hc1 by done.
  rewrite wp_bind. eapply (wp_store_context _ _ y0); [by rewrite Hc1, lookup_insert_eq|]. rewrite Hc1, insert_insert_eq.
  set (y1 := with_service_task t y0). rewrite wp_bind, wp_or_panic. unfold on_kernel at 1. rewrite wp_zoom.
  change (sv_kernel (set_contexts (<[c:=y1]> (sv_contexts x)) x1)) with k1.
  assert (threads_ok k1) as T1 by (split; [rewrite Htp; apply S|intros u; rewrite Hthr, Htp; apply S]).
  eapply wp_mono; [apply (thread_create_ok self me keep Hlaw exception t THREAD_DEFAULT (mk_task TASK_KERNEL 0 [] 0) [] k1 T1 Ht0)| |done];
    [by rewrite Htasks, lookup_insert_eq|by rewrite Hth, lookup_insert_eq|].
  intros r k2 (td&z&->&Htdnone&Hthr2&Hmade&Hth2&T2&Hdata2&Hidle2&Hpool2&_&Hkeep).
  set (x2 := set_kernel k2 _). rewrite wp_bind. eapply (wp_store_context _ _ y1); [apply lookup_insert_eq|].
  change (sv_contexts x2) with (<[c:=y1]> (sv_contexts x)). rewrite insert_insert_eq.
  set (y2 := with_service_thread td y1). set (x3 := set_contexts _ x2).
  assert (kernel_ok self me (sv_kernel x3)) as K3.
  { change (sv_kernel x3) with k2. split; [apply Hidle2, K1|rewrite Hpool2; apply K1|]. intros u.
    unfold tasks_of. rewrite Hdata2, Hpool2. apply (ko_live _ _ _ K1). }
  assert (tasks_of (sv_kernel x3) = tasks_of k1 ∧ sv_ports x3 = sv_ports x) as [Htk3 Hp3].
  { change (sv_kernel x3) with k2. unfold sv_ports, tasks_of, ports. change (sv_kernel x3) with k2. rewrite Hdata2. by split. }
  rewrite <-Hp3 in Hwant. rewrite wp_bind.
  eapply wp_mono; [apply (service_port_ok c y2 port flags x3 K3); [apply lookup_insert_eq|done|done]| |by left].
  intros b x4 (->&Hx4&n&Hc4&Hready). set (y4 := with_service_port n y2) in *.
  assert (sv_contexts x3 = <[c := y2]> (sv_contexts x)) as Hc3 by done. rewrite Hc3, insert_insert_eq in Hc4.
  rewrite wp_bind. eapply wp_load_context; [by rewrite Hc4, lookup_insert_eq|].
  change (ipcsc_task y4) with t. change (ipcsc_port y4) with n. change (ipcsc_thread y4) with td.
  pose proof (ports_only_ok _ _ K3 Hx4) as K4. apply wp_seq.
  destruct (ports_only_task _ _ t (mk_task TASK_KERNEL 0 [] 0) Hx4) as [l4 Hl4]; [by rewrite Htk3, Htasks, lookup_insert_eq|].
  eapply wp_mono; [by apply (grant_drop_ok t port flags n (sv_ports x3) x4 _ K4 Htme); [by eexists|..]| |by left].
  intros [] x5 (Hx5&Hc5&Hport). pose proof (ports_only_ok _ _ K4 Hx5) as K5. destruct (ports_only_task _ _ t _ Hx5 Hl4) as [l5 Hl5].
  pose proof (ports_only_trans _ _ _ Hx4 Hx5) as [(s5&Ek5&_&_&Hmem5) Em5 Er5].
  assert (threads (sv_kernel x5) !! td = Some z) as Hz5.
  { rewrite Ek5. change (threads (set_ipc s5 (sv_kernel x3))) with (threads k2). rewrite Hthr2. apply lookup_insert_eq. }
  rewrite wp_bind. unfold on_kernel. rewrite wp_zoom. unfold thread_set_upcall, cpu_thread_set_upcall.
  eapply wp_store_thread; [exact Hz5|]. unfold scheduler_thread_runnable. rewrite wp_bind, wp_modify, wp_ret.
  assert (sv_contexts x5 = <[c := mk_ipcsc name h arg n flags t td]> (sv_contexts x)) as Hcx by (by rewrite Hc5, Hc4).
  assert (threads (sv_kernel x5) = <[td := z]> (threads (sv_kernel x))) as Htx.
  { rewrite Ek5. change (threads (set_ipc s5 (sv_kernel x3))) with (threads k2). by rewrite Hthr2, Hthr. }
  split; [done|]. split.
  - split; cbn.
    + split; [apply K5|apply K5|apply K5].
    + split; cbn; rewrite Ek5; cbn; [apply T2|]. intros u. change (threads (set_ipc s5 (sv_kernel x3))) with (threads k2).
      rewrite lookup_insert_is_Some'. intros [->|Hu]; apply (tk_live _ T2); [rewrite Hthr2, lookup_insert_eq; by eexists|done].
    + rewrite Em5. exact Ho.
    + intros u. rewrite Em5, Hcx. cbn. rewrite lookup_insert_is_Some', Hlive. intros [->|Hu]; [by right|left; by apply (so_live _ S)].
  - exists c, t, td, n. split; [done|]. split; cbn.
    + split_and!; [done|done|by rewrite <-Hthr].
    + exact Hcx.
    + by exists l5.
    + intros u y Hu. apply (ports_only_task x3); [by eapply ports_only_trans|]. rewrite Htk3, Htasks, lookup_insert_ne; [done|]. intros <-. congruence.
    + eexists. split; [by rewrite Htx, insert_insert_eq|]. split; [apply Hmade|done].
    + rewrite Ek5. cbn. by rewrite Hth2, Hth, insert_insert_eq.
    + by rewrite Er5.
    + rewrite Hp3 in Hport. exact Hport.
    + rewrite Ek5. cbn. rewrite Hmem5, <-Hmem1. exact Hkeep.
Qed.
End make.

(** * The thread of a service gives every page back *)

Section next.
Context {X : Type} `{Ports X}.
Lemma p_next_refl (x : X) : p_inv x → p_next x x.
Proof. by split. Qed.
Lemma p_next_trans (x1 x2 x3 : X) : p_next x1 x2 → p_next x2 x3 → p_next x1 x3.
Proof. intros (_&H12&S12) (H3&H23&S23). split_and!; [done|auto|by etransitivity]. Qed.
End next.

Section pages.
Context {W T : Type} `{Ports W}.
Notation X := (W * T)%type.
Context (self me : Z) (Hself : self ≠ 0).
(** An invariant of the service's own state, and why the handler may stop. *)
Context (J : T → Prop) (E : stop → Prop) (Estop : ∀ w, p_stop (W:=W) w → E w) (Epanic : ∀ w, may_panic w → E w).
Implicit Types (x : X) (hd : @handler X) (h : ipc_header) (p n : Z).

Notation direct x := (v_direct (p_view x)).

(** What a handler does with its page: it leaves it, or it has given it away
    and says so. *)
Definition handles_page hd : Prop := ∀ x h p,
  p_inv x → p_kernel x me → J x.2 → (p ≠ 0 → is_Some (direct x !! p)) →
  wp (hd h p) (λ r x', p_next x x' ∧ J x'.2 ∧
    (r.2 = p ∧ direct x' = direct x ∨ p ≠ 0 ∧ r.2 = 0 ∧ direct x' = delete p (direct x))) E x.

Definition pages_kept D x x' : Prop := p_next x x' ∧ J x'.2 ∧ direct x' = D.

Lemma service_message_ok hd x h p D :
  handles_page hd → p_inv x → p_kernel x me → J x.2 →
  (p = 0 ∧ direct x = D ∨ p ≠ 0 ∧ D !! p = None ∧ ∃ q, direct x = <[p := q]> D) →
  wp (service_message hd h p) (λ _, pages_kept D x) E x.
Proof.
  intros Hhd Hi Hk HJ Hp. unfold service_message. rewrite wp_bind.
  eapply wp_mono; [apply (Hhd x h p Hi Hk HJ)| |done].
  { intros Hp0. destruct Hp as [[? _]|(_&_&q&->)]; [done|]. rewrite lookup_insert_eq. by eexists. }
  intros [r p'] x1 (Hn&HJ1&Hr). cbn [snd] in *. destruct Hp as [[-> HD]|(Hp0&Hfree&q&HD)].
  - destruct Hr as [[-> Hd]|(?&_)]; [|done]. rewrite Z.eqb_refl. cbn [negb]. rewrite wp_ret.
    split_and!; [done|done|congruence].
  - destruct Hr as [[-> Hd]|(_&->&Hd)].
    + rewrite (proj2 (Z.eqb_neq p 0)) by done. cbn [negb]. rewrite wp_or_panic.
      assert (direct x1 !! p = Some q) as Hq by (by rewrite Hd, HD, lookup_insert_eq).
      framed (p_page_free_ok x1 p q (proj1 Hn) Hq) Estop.
      intros r' x2 [(Hn2&->&Hv) Ht]. split; [by eapply p_next_trans|]. rewrite Ht. split; [done|].
      rewrite Hv. cbn [v_direct without_page unmapped_at]. rewrite Hd, HD. by apply delete_insert_id.
    + rewrite Z.eqb_refl. cbn [negb]. rewrite wp_ret. split; [done|]. split; [done|]. rewrite Hd, HD. by apply delete_insert_id.
Qed.

Lemma service_iteration_ok hd n x :
  handles_page hd → p_inv x → p_kernel x me → J x.2 →
  wp (service_iteration self me hd n) (λ _, pages_kept (direct x) x) E x.
Proof.
  intros Hhd Hi Hk HJ. unfold service_iteration. rewrite wp_bind, wp_or_panic.
  framed (p_wait_ok x self me n Hi Hself Hk) Estop. intros r x1 [(Hn1&_&Hv1) Ht1].
  destruct r as [[]|e]; [|by apply Epanic]. rewrite wp_bind.
  framed (p_receive_ok x1 self me n true (proj1 Hn1) Hself (p_next_kernel Hn1 Hk)) Estop. intros r x2 [[Hn2 Hr] Ht2].
  pose proof (p_next_trans _ _ _ Hn1 Hn2) as Hn. assert (J x2.2) as HJ2 by (by rewrite Ht2, Ht1).
  assert (∀ h p, (p = 0 ∧ direct x2 = direct x ∨ p ≠ 0 ∧ direct x !! p = None ∧ ∃ q, direct x2 = <[p := q]> (direct x)) →
    wp (service_message hd h p) (λ _, pages_kept (direct x) x) E x2) as Hmsg.
  { intros h p Hp. eapply wp_mono; [apply (service_message_ok hd x2 h p (direct x) Hhd (proj1 Hn) (p_next_kernel Hn Hk) HJ2 Hp)| |done].
    intros [] x3 (Hn3&HJ3&Hd3). split; [by eapply p_next_trans|done]. }
  rewrite <-Hv1 in Hmsg |- *. remember (p_view x2) as v2 eqn:Ev2.
  assert (direct x1 = v_direct v2 → wp (ret tt) (λ _ : unit, pages_kept (direct x1) x) E x2) as Hret.
  { intros Hd. rewrite wp_ret. split; [done|]. by rewrite <-Ev2. }
  destruct Hr as [e A Hs|h A Hs|h p A va Hs Hp _ Hva Hnone|h p A e Hs Hp _ Hea|h p A Hs Hp Hw]; [..|done].
  - destruct (e =? ERROR_AGAIN); [by apply Hret|by apply Epanic].
  - apply Hmsg. by left.
  - apply Hmsg. right. split_and!; [done..|]. by exists p.
  - destruct (e =? ERROR_AGAIN); [by apply Hret|by apply Epanic].
Qed.

Lemma service_loop_ok hd port (n : nat) : ∀ x,
  handles_page hd → p_inv x → p_kernel x me → J x.2 →
  wp (service_loop self me n hd port) (λ _, pages_kept (direct x) x) E x.
Proof.
  induction n as [|n IH]; intros x Hhd Hi Hk HJ; cbn [service_loop]; [rewrite wp_ret; by split; [apply p_next_refl|]|].
  rewrite wp_bind. eapply wp_mono; [by apply service_iteration_ok| |done]. intros [] x1 (Hn1&HJ1&Hd1).
  eapply wp_mono; [by apply IH; [|apply Hn1|apply Hn1|]| |done]. intros [] x2 (Hn2&HJ2&Hd2).
  split; [by eapply p_next_trans|]. split; [done|congruence].
Qed.

(** C18: However many messages a service has taken, the kernel has the pages mapped
    that it had before: the page of every message was freed, or the handler
    gave it away. *)
Theorem service_keeps_no_page hd port (n : nat) x :
  handles_page hd → p_inv x → p_kernel x me → J x.2 →
  wp (service_loop self me n hd port)
    (λ _ x', p_next x x' ∧ J x'.2 ∧ v_direct (p_view x') = v_direct (p_view x)) E x.
Proof. apply service_loop_ok. Qed.
End pages.

Section theorem.
Context {Ob V F : Type} `{ObjPool Ob} `{TaskMemory V} `{ThreadMemory V}.
Context (self me : Z) (Hself : self ≠ 0) (fuel : nat) (exception main : Z).
Context (keep : V → V → Prop) `{!PreOrder keep} (Hlaw : thread_law keep).

(** C17: [ipc_service] makes a task of the kernel with one thread, ready to run
    [ipc_service_main] on the service's context.  The task alone can receive
    on a port that was made for it; on a port that was there it can receive
    beside the others.  It stops only where a pool cannot grow, or the machine
    stops or refuses to set up the thread. *)
Theorem ipc_service_correct name port flags (h : F) arg (x : @services Ob V F) :
  services_ok self me x → port_wanted me fuel port flags (sv_ports x) →
  wp (ipc_service self me fuel exception main name port flags h arg)
    (λ r x', r = Ok tt ∧ services_ok self me x' ∧
       ∃ c t td n, t ≠ me ∧ service_made main keep name port flags h arg c t td n x x')
    (service_stop (Ob:=Ob) (V:=V)) x.
Proof. by apply ipc_service_ok. Qed.
End theorem.

(** * Services for other services

    What the file services need: ports, and a way to make a service on a port
    of theirs. *)

Class ServiceOps (W F : Type) := {
  so_service : Z → Z → list Z → Z → Z → F → Z → M W (result unit);
  (* the task, which takes the messages of a port with a handler and its argument *)
  so_serves : W → Z → Z → F → Z → Prop
}.

Class ServicePorts (W F : Type) `{Ports W, !ServiceOps W F} : Prop := {
  so_service_ok (w : W) self me name port flags (h : F) arg a :
    p_inv w → self ≠ 0 → p_kernel w me → Z.land flags IPC_PORT_FLAG_NEW = 0 → port ≠ IPC_PORT_UNKNOWN →
    v_ports (p_view w) !! port = Some a → may_receive me a = true →
    wp (so_service self me name port flags h arg)
      (λ r w', r = Ok tt ∧ p_next w w' ∧ ∃ t, t ≠ me ∧ p_kernel w' t ∧ so_serves w' t port h arg ∧
         p_view w' = with_ports (<[port := give t IPC_PORT_RIGHT_RECEIVE a]> (v_ports (p_view w))) (p_view w))
      p_stop w;
  so_serves_stays (w w' : W) t n (h : F) arg : p_next w w' → so_serves w t n h arg → so_serves w' t n h arg
}.

(** Where the code of threads begins. *)
Class ServiceCode := { exception_code : Z; service_code : Z }.

Section services.
Context {Ob V F : Type} `{ObjPool Ob} `{DirectMemory V} `{ThreadMemory V} `{ServiceCode}.
Notation services := (@services Ob V F).
Implicit Types (x : services) (v : V).

Definition service_ipc x : @ipc Ob V := k_ipc (sv_kernel x).
Definition set_service_ipc (s : @ipc Ob V) x : services := set_kernel (set_ipc s (sv_kernel x)) x.

#[export] Instance services_port_ops : PortOps services := lift_port_ops service_ipc set_service_ipc.

(** The tasks there are come from their pool; what else the makers of services
    rely on. *)
Definition known_tasks x (T : gset Z) : Prop := ∀ t, t ∈ T → op_live (task_pool (sv_kernel x)) t.
Record service_pools x : Prop := {
  sp_tasks : op_inv (task_pool (sv_kernel x));
  sp_threads : threads_ok (sv_kernel x);
  sp_malloc : op_inv (sv_malloc x);
  sp_live c : is_Some (sv_contexts x !! c) → op_live (sv_malloc x) c
}.

(** A thread that is ready to run a service. *)
Definition serving x t n (h : F) arg : Prop := ∃ c td y name flags,
  sv_contexts x !! c = Some (mk_ipcsc name h arg n flags t td) ∧ td ∈ sv_runnable x ∧
  threads (sv_kernel x) !! td = Some y ∧ td_task y = t ∧
  td_context y = mk_context cpu_thread_trampoline td service_code c (u64 (td_kstack y + KSTACK_SIZE)).
Definition serving_stays x x' : Prop := ∀ t n h arg, serving x t n h arg → serving x' t n h arg.

(** Why the operations stop. *)
Definition services_stop (w : stop) : Prop := service_stop (Ob:=Ob) (V:=V) w ∨ page_stop (V:=V) w.

#[export] Instance services_port_view : PortView services :=
  known_port_view ipc_view_in (no_page (V:=V)) service_ipc known_tasks service_pools serving_stays services_stop.
#[export] Instance services_ports : Ports services.
Proof.
  apply lift_known_ports; [apply ipc_laws_in|done|by intros [[]]|done| |split|by intros s x t n h arg Hx|intros ? w [?|?]; [by left; left|by right]|done].
  - intros s x [? [? ?] ? ?]. by repeat split.
  - by intros x t.
  - intros x y z Hxy Hyz t n h arg Hx. by apply Hyz, Hxy.
Qed.

#[export] Instance services_ops : ServiceOps services F := {|
  so_service self me name port flags h arg := λ x,
    ipc_service self me (2 * size (ports (sv_kernel x)) + 2) exception_code service_code name port flags h arg x;
  so_serves := serving
|}.

(** What the making of threads leaves alone. *)
Definition undisturbed (v v' : V) : Prop :=
  (dm_ok v → dm_ok v') ∧ dm_pages v' = dm_pages v ∧ dm_direct v' = dm_direct v.
#[export] Instance undisturbed_preorder : PreOrder undisturbed.
Proof.
  split; [by intros v|]. intros v1 v2 v3 (H12&P12&D12) (H23&P23&D23). split; [auto|]. split; congruence.
Qed.

Context (Hlaw : thread_law undisturbed).

Lemma services_ok_inv self me x : p_inv x → p_kernel x me → services_ok self me x.
Proof.
  intros [[Hp Ht Hm Hl] Hi] Hk. split; [|done..]. split; [by apply (inv_idle (known_tasks x))|done|].
  intros t Ht'. destruct Hi as [[_ HG] _]. apply HG. by apply elem_of_dom.
Qed.
Lemma inv_services_ok self me x x' :
  p_inv x → services_ok self me x' → undisturbed (memory (service_ipc x)) (memory (service_ipc x')) →
  queued (sv_ports x') ≡ₚ queued (sv_ports x) → p_inv x'.
Proof.
  intros [_ (_&_&Hd&Ho)] [[Hi Hp Hl] Ht Hm Hml] (Hd'&Hpg&Hdr) Hq. split; [by split|]. destruct Hi as (Hw&Hlk&Hin).
  split_and!; [done| | |by apply Hd'|].
  - intros t Hdom%elem_of_dom. by apply Hl.
  - by destruct (idle_other self me 1 me _ (conj Hw (conj Hlk Hin)) Hin) as (_&Hlk'&_).
  - apply (owned_perm (ipc_view (service_ipc x))); [|done|done]. cbn. rewrite Hdr. by rewrite <-Hq.
Qed.

#[export] Instance services_service_ports : ServicePorts services F.
Proof.
  split; [|by intros x x' t n h arg (_&_&Hs); apply Hs]. intros x self me name port flags h arg a Hi Hself Hk Hf Hp Ha Hr.
  pose proof (services_ok_inv self me x Hi Hk) as S.
  assert (port_wanted me (2 * size (ports (sv_kernel x)) + 2) port flags (sv_ports x)) as Hw.
  { unfold port_wanted. rewrite Hf. cbn. split; [done|]. by exists a. }
  pose proof (ipc_service_ok self me Hself _ exception_code service_code undisturbed Hlaw name port flags h arg x S Hw) as Hok.
  unfold wp at 1 in Hok. unfold wp. cbn [so_service services_ops].
  destruct (ipc_service _ _ _ _ _ _ _ _ _ _ x) as [r x'|w]; [|left; exact Hok].
  destruct Hok as (->&S'&c&t&td&n&Htme&[(Hcf&_&Htdf) Hcx [l Htask] Hothers (y&Hth&Hyt&Hy) Hlist Hrun Hport Hmem]). split; [done|].
  unfold port_made in Hport. rewrite Hf in Hport. cbn in Hport. destruct Hport as (->&a'&Ha'&HA).
  change (sv_ports x !! port = Some a) in Ha. assert (a' = a) as -> by congruence.
  assert (p_kernel x' t) as Hkt by (exists (mk_task TASK_KERNEL 0 l 0); done).
  split; [split; [|split]|].
  - eapply inv_services_ok; [done|done|done|]. rewrite HA. eapply queued_same; [done|apply give_msgs].
  - intros u (z&Hz&Hfl). destruct (Hothers u z Hz) as [lz Hz']. by exists (mk_task (t_flags z) (t_vm z) lz (ipct_task_port z)).
  - intros u m h0 arg0 (c0&td0&y0&nm0&fl0&Hc0&Hr0&Ht0&?&?). exists c0, td0, y0, nm0, fl0. rewrite Hcx, Hrun, Hth.
    rewrite !lookup_insert_ne by (intros <-; congruence). split_and!; [done|by right|done..].
  - exists t. split; [done|]. split; [done|]. split.
    + exists c, td, y, name, flags. rewrite Hcx, Hrun, Hth, !lookup_insert_eq. split_and!; [done|by left|done..].
    + destruct Hmem as (_&Hpg&Hdr). change (p_view x') with (ipc_view (service_ipc x')).
      change (p_view x) with (ipc_view (service_ipc x)). unfold ipc_view, with_ports. cbn. f_equal; [exact HA|exact Hpg|exact Hdr].
Qed.
End services.
