(* ===== verification/Exchange.v ===== *)
(** A request to a service and its answer ([mk/ipc/ipc_service.c] with a
    client).

    The client sends a message that gives the service the right to answer
    once; the service's thread takes it, and its handler answers; the client
    takes the answer.  The first part is this on the map of ports, the second
    on the state of a service: what the client gets is what the handler
    answers. *)

From S2P Require Import Prelude MachineInt Btree Mutex Pool CString Storage.
From S2P Require Import IpcPort IpcSpec IpcAlloc Ipc Message Task Directory Service.

Local Open Scope Z_scope.
Local Open Scope c_scope.

(** A permanent right to send. *)
Definition sends (t : Z) (a : aport) : bool :=
  public a || (flag_set (a_right t a) IPC_PORT_RIGHT_RECEIVE || flag_set (a_right t a) IPC_PORT_RIGHT_SEND).

(** The task [ct] waits for answers on [n]; the task [nt] is the service of
    the port [s]; neither has a message. *)
Definition connected (A : gmap Z aport) (n s ct nt : Z) : Prop :=
  (∃ a, A !! n = Some a ∧ a_msgs a = [] ∧ may_receive ct a = true) ∧
  (∃ b, A !! s = Some b ∧ a_msgs b = [] ∧ may_receive nt b = true ∧ sends ct b = true).

Record request_header (h : ipc_header) (n s : Z) : Prop := {
  rq_src : ipchdr_src h = n;
  rq_dst : ipchdr_dst h = s;
  rq_right : ipchdr_right h = IPC_PORT_RIGHT_SEND_ONCE;
  rq_msg : ipchdr_msg h ≠ IPC_MSG_NONE
}.
Record answer_header (h : ipc_header) (n s : Z) : Prop := {
  an_src : ipchdr_src h = s;
  an_dst : ipchdr_dst h = n;
  an_right : ipchdr_right h = IPC_PORT_RIGHT_NONE;
  an_msg : ipchdr_msg h ≠ IPC_MSG_NONE
}.

Lemma reply_header h n s : request_header h n s → answer_header (IPC_HEADER_REPLY h) n s.
Proof.
  intros [? ? _ _]. split; [done..|]. cbn. unfold IPC_MSG_REPLY. intros E. by apply Z.lor_eq_0_iff in E as [? _].
Qed.
Lemma error_header h e n s : request_header h n s → answer_header (IPC_HEADER_ERROR h e) n s.
Proof.
  intros [? ? _ _]. split; [done..|]. cbn. unfold IPC_MSG_ERROR. intros E. by apply Z.lor_eq_0_iff in E as [? _].
Qed.

Section specs.
Implicit Types (A : gmap Z aport) (a b : aport) (h : ipc_header) (n s t p : Z).

Lemma set_msgs_same a : set_msgs [] (set_msgs [] a) = set_msgs [] a. Proof. done. Qed.

Lemma sends_use t b l : sends t b = true →
  (if public b || l then Some b else use_send t b) = Some b.
Proof.
  unfold sends, use_send. destruct (public b); [done|]. cbn. intros ->. by destruct l.
Qed.

(** The request gets through, and gives the service the right to answer. *)
Lemma request_specs A n s ct nt h p :
  connected A n s ct nt → n ≠ s → request_header h n s →
  ∃ A1 A2, spec_send ct h p A = (Ok tt, A1) ∧ spec_receive nt s A1 = (Ok (h, p), A2) ∧
    (∃ a, A !! n = Some a ∧ A2 = <[n := give nt IPC_PORT_RIGHT_SEND_ONCE a]> A).
Proof.
  intros [(a&Ha&Hma&Hra) (b&Hb&Hmb&Hrb&Hsb)] Hne [Hs Hd Hr Hm].
  exists (<[s := set_msgs [(h, p)] b]> A), (<[n := give nt IPC_PORT_RIGHT_SEND_ONCE a]> A). split_and!.
  - unfold spec_send. rewrite (proj2 (Z.eqb_neq (ipchdr_msg h) _)) by done. cbn [andb].
    rewrite Hs, Ha, Hra, Hd, Hb. cbn [negb]. rewrite sends_use by done. by rewrite Hmb.
  - unfold spec_receive. rewrite lookup_insert_eq. change (may_receive nt (set_msgs [(h, p)] b)) with (may_receive nt b). rewrite Hrb. cbn [negb a_msgs set_msgs].
    unfold grant. rewrite Hr, Hs. change (IPC_PORT_RIGHT_SEND_ONCE =? IPC_PORT_RIGHT_NONE) with false. cbn iota.
    f_equal. rewrite insert_insert_eq. change (set_msgs [] (set_msgs [(h, p)] b)) with (set_msgs [] b).
    assert (set_msgs [] b = b) as -> by (destruct b; cbn in *; by subst). rewrite insert_id by done.
    apply map_eq. intros i. destruct (decide (i = n)) as [->|]; [by rewrite lookup_alter_eq, lookup_insert_eq, Ha|].
    by rewrite lookup_alter_ne, lookup_insert_ne by done.
  - by exists a.
Qed.

Lemma give_once_use t a l : (∃ a', (if public (give t IPC_PORT_RIGHT_SEND_ONCE a) || l then Some (give t IPC_PORT_RIGHT_SEND_ONCE a)
  else use_send t (give t IPC_PORT_RIGHT_SEND_ONCE a)) = Some a' ∧ a_msgs a' = a_msgs a ∧ a_flags a' = a_flags a ∧
  (∀ u, may_receive u a = true → may_receive u a' = true)).
Proof.
  set (g := give t IPC_PORT_RIGHT_SEND_ONCE a).
  assert (a_msgs g = a_msgs a ∧ a_flags g = a_flags a ∧ ∀ u, may_receive u a = true → may_receive u g = true) as (Hm&Hf&Hr).
  { split; [apply give_msgs|]. split; [unfold g, give; by case_match|]. intros u. apply give_receive. }
  destruct (public g || l) eqn:Hp; [by exists g|]. apply orb_false_iff in Hp as [Hp _].
  assert (flag_set (a_right t g) IPC_PORT_RIGHT_SEND_ONCE = true) as Honce.
  { unfold public in Hp. rewrite Hf in Hp. unfold g, give. unfold public. rewrite Hp. cbn [andb negb flag_set].
    rewrite andb_false_r. unfold a_right. cbn. rewrite lookup_insert_eq. cbn [default from_option id].
    by apply flag_lor_same. }
  destruct (use_send t g) as [g'|] eqn:Hu.
  - exists g'. split; [done|].
    assert (a_msgs g' = a_msgs g ∧ a_flags g' = a_flags g) as [Hm' Hf'] by (revert Hu; unfold use_send; repeat case_match; by intros [= <-]).
    split_and!; [congruence..|]. intros u Hu'. by eapply use_send_receive; [|apply Hr].
  - exfalso. revert Hu. unfold use_send. rewrite Honce. by repeat case_match.
Qed.

(** The answer gets through, as long as the client's port is as the request
    left it. *)
Lemma answer_specs B n s ct nt a b h p :
  B !! n = Some (give nt IPC_PORT_RIGHT_SEND_ONCE a) → a_msgs a = [] → may_receive ct a = true →
  B !! s = Some b → may_receive nt b = true → answer_header h n s →
  ∃ B', spec_send nt h p B = (Ok tt, B') ∧ (∀ i, i ≠ n → B' !! i = B !! i) ∧
    ∃ a', spec_receive ct n B' = (Ok (h, p), <[n := a']> B) ∧ a_msgs a' = [] ∧ a_flags a' = a_flags a ∧ may_receive ct a' = true.
Proof.
  intros Hn Hma Hra Hs Hrb [Hsrc Hdst Hright Hm].
  destruct (give_once_use nt a (ipchdr_msg h =? IPC_MSG_NONE)) as (a'&Hu&Hma'&Hfa&Hra').
  exists (<[n := set_msgs (a_msgs a' ++ [(h, p)]) a']> B). split; [|split; [intros; by apply lookup_insert_ne|]].
  - unfold spec_send. rewrite (proj2 (Z.eqb_neq (ipchdr_msg h) _)) by done. cbn [andb].
    rewrite Hsrc, Hs, Hrb, Hdst, Hn. cbn [negb]. rewrite (proj2 (Z.eqb_neq (ipchdr_msg h) _)) in Hu by done. by rewrite Hu.
  - exists (set_msgs [] a'). split_and!; [|done..|by apply Hra']. unfold spec_receive. rewrite lookup_insert_eq.
    change (may_receive ct (set_msgs _ a')) with (may_receive ct a'). rewrite (Hra' ct Hra), Hma', Hma. cbn.
    unfold grant. rewrite Hright, Z.eqb_refl. by rewrite insert_insert_eq.
Qed.
End specs.

(** * On the state of a service *)

Section exchange.
Context {W T : Type} `{Ports W}.
Notation X := (W * T)%type.
(** The client's thread and task, and the service's. *)
Context (cs ct ns nt : Z) (Hcs : cs ≠ 0) (Hns : ns ≠ 0).
Context (E : stop → Prop) (Estop : ∀ w, p_stop (W:=W) w → E w).
Context (Ereceive : ∀ e, p_no_page (W:=W) e → E (Panic "ipc_port_receive failed")).
Implicit Types (x : X) (h : ipc_header) (n s p va : Z) (bs bytes : list Z).

(** The client sends, the service's thread runs through its loop once, and the
    client receives. *)
Definition exchange_then {A} (hd : handler) (h : ipc_header) (bytes : list Z) (len n s : Z) (want : bool)
    (refused : Z → M X A) (k : result (ipc_header * Z) → M X A) : M X A :=
  r <- p_send_data cs ct h (Some bytes) len ;;
  match r with
  | Err e => refused e
  | Ok _ =>
      service_iteration ns nt hd s ;;;
      or_panic "ipc_port_wait failed" (p_wait cs ct n) ;;;
      r <- p_receive cs ct n want ;;
      k r
  end.
Definition exchange (hd : handler) (h : ipc_header) (bytes : list Z) (len n s : Z) (want : bool) :
    M X (result (ipc_header * Z)) :=
  exchange_then hd h bytes len n s want (λ e, ret (Err e)) ret.

(** The handler answered with [h']; [pg] is the page it sent. *)
Record answers (h' : ipc_header) (pg : option (list Z)) p va x (r : result unit * Z) x' : Prop := {
  aw_next : p_next x x';
  aw_sent : ∃ B, (∀ n, v_ports (p_view x) !! n ≠ None → B !! n = v_ports (p_view x) !! n) ∧
    spec_send nt h' (if pg then p else 0) B = (r.1, v_ports (p_view x'));
  aw_page : match pg with
    | None => r.2 = va ∧ v_pages (p_view x') = v_pages (p_view x) ∧ v_direct (p_view x') = v_direct (p_view x)
    | Some bs' => r.2 = 0 ∧ v_direct (p_view x') = delete va (v_direct (p_view x)) ∧
        (r.1 = Ok tt → v_pages (p_view x') = <[p := bs']> (v_pages (p_view x)))
    end
}.

Notation ports_of x := (v_ports (p_view x)).

Lemma receive_wait t n v m A : spec_receive t n (v_ports v) = (Ok m, A) → view_wait t n v = Ok tt.
Proof. unfold spec_receive, view_wait. repeat case_match; naive_solver. Qed.

(** What is left for the client. *)
Record serviced (A0 : gmap Z aport) n p (h' : ipc_header) (pg : option (list Z)) x x' : Prop := {
  se_direct : v_direct (p_view x') = v_direct (p_view x);
  se_pages : v_pages (p_view x') = (match pg with Some bs' => <[p := bs']> | None => delete p end) (v_pages (p_view x));
  se_answer : ∃ B a', spec_receive ct n (ports_of x') = (Ok (h', if pg then p else 0), <[n := a']> B) ∧
    (∀ i, i ≠ n → B !! i = ports_of x' !! i) ∧
    (∀ i, A0 !! i ≠ None → i ≠ n → B !! i = A0 !! i) ∧
    a_msgs a' = [] ∧ a_flags <$> A0 !! n = Some (a_flags a') ∧ may_receive ct a' = true
}.

(** The ports when a request of [n] was taken. *)
Definition requested (A0 : gmap Z aport) n (A : gmap Z aport) : Prop :=
  ∃ a, A0 !! n = Some a ∧ may_receive ct a = true ∧ A = <[n := give nt IPC_PORT_RIGHT_SEND_ONCE a]> A0.

(** The handler's answer to a request [h] of [n] with the page [p]. *)
Definition handles hd h n s p bs (t : T) A0 (R : ipc_header → option (list Z) → X → Prop) : Prop := ∀ x1 va,
  p_inv x1 → p_kernel x1 nt → x1.2 = t → v_direct (p_view x1) !! va = Some p → va ≠ 0 →
  v_pages (p_view x1) !! p = Some bs → requested A0 n (ports_of x1) →
  wp (hd h va) (λ r x2, ∃ h' pg, answer_header h' n s ∧ R h' pg x2 ∧ answers h' pg p va x1 r x2) E x1.

(** What is said of the state does not depend on the client's port. *)
Definition stable n (R : ipc_header → option (list Z) → X → Prop) : Prop := ∀ h' pg x x',
  R h' pg x → p_next x x' → x'.2 = x.2 → (∀ i, i ≠ n → ports_of x' !! i = ports_of x !! i) → R h' pg x'.

Lemma message_serviced hd h n s p va A0 a b bs x x2 (R : ipc_header → option (list Z) → X → Prop) :
  stable n R → handles hd h n s p bs x.2 A0 R → p_inv x2 → p_kernel x2 nt → x2.2 = x.2 → p ≠ 0 → va ≠ 0 →
  A0 !! n = Some a → a_msgs a = [] → may_receive ct a = true → A0 !! s = Some b → may_receive nt b = true → n ≠ s →
  v_pages (p_view x) !! p = Some bs → v_direct (p_view x) !! va = None →
  p_view x2 = mapped_at va p (with_ports (<[n := give nt IPC_PORT_RIGHT_SEND_ONCE a]> A0) (p_view x)) →
  wp (service_message hd h va)
    (λ _ x', p_next x2 x' ∧ ∃ h' pg, R h' pg x' ∧ answer_header h' n s ∧ serviced A0 n p h' pg x x') E x2.
Proof.
  intros Hstable Hhd Hi2 Hk2 Ht2 Hp Hva Ha Hma Hra Hb Hrb Hne Hpg Hnone Hv. unfold service_message. rewrite wp_bind.
  assert (v_direct (p_view x2) !! va = Some p) as Hva2 by (rewrite Hv; cbn; apply lookup_insert_eq).
  assert (ports_of x2 = <[n := give nt IPC_PORT_RIGHT_SEND_ONCE a]> A0) as HA2 by (by rewrite Hv).
  eapply wp_mono; [apply (Hhd x2 va)| |done]; try done.
  { by rewrite Hv. }
  { by exists a. }
  intros r x3 (h'&pg&Hh'&HR&[Hn3 (B&HB&Hsent) Hpage]).
  assert (B !! n = Some (give nt IPC_PORT_RIGHT_SEND_ONCE a)) as HBn
    by (rewrite HB; rewrite HA2; by rewrite lookup_insert_eq).
  assert (∀ i, A0 !! i ≠ None → i ≠ n → B !! i = A0 !! i) as HBi.
  { intros i Hi Hin. rewrite HB; rewrite HA2; by rewrite lookup_insert_ne. }
  assert (B !! s = Some b) as HBs by (rewrite HBi; [done|by rewrite Hb|done]).
  destruct (answer_specs B n s ct nt a b h' (if pg then p else 0) HBn Hma Hra HBs Hrb Hh') as (B'&HB'&HBB&a'&Hrcv&Hma'&Hfa'&Hra').
  rewrite HB' in Hsent. assert (r.1 = Ok tt ∧ ports_of x3 = B') as [Hok HA3] by (split; congruence).
  assert (∀ x4, ports_of x4 = B' → v_direct (p_view x4) = v_direct (p_view x) →
    v_pages (p_view x4) = (match pg with Some bs' => <[p := bs']> | None => delete p end) (v_pages (p_view x)) →
    serviced A0 n p h' pg x x4) as Hend.
  { intros x4 HA4 Hd4 Hp4. split; [done..|]. exists B, a'. rewrite HA4, Ha. cbn. rewrite Hfa'. split_and!; try done.
    intros i Hin. by rewrite HBB. }
  assert (v_direct (p_view x2) = <[va := p]> (v_direct (p_view x)) ∧ v_pages (p_view x2) = v_pages (p_view x)) as [Hd2 Hp2]
    by (by rewrite Hv).
  destruct pg as [bs'|].
  - destruct Hpage as (Hr2&Hd3&Hp3). rewrite Hr2, Z.eqb_refl. cbn [negb]. rewrite wp_ret. split; [done|].
    exists h', (Some bs'). split_and!; [done..|]. apply Hend; [done| |].
    + rewrite Hd3, Hd2. by apply delete_insert_id.
    + by rewrite (Hp3 Hok), Hp2.
  - destruct Hpage as (Hr2&Hp3&Hd3). rewrite Hr2, (proj2 (Z.eqb_neq va 0)) by done. cbn [negb]. rewrite wp_or_panic.
    assert (v_direct (p_view x3) !! va = Some p) as Hva3 by (by rewrite Hd3).
    framed (p_page_free_ok x3 va p (proj1 Hn3) Hva3) Estop.
    intros r' x4 [(Hn4&->&Hv4) Ht4]. split; [by eapply p_next_trans|]. exists h', None. split_and!; [|done|].
    { apply (Hstable _ _ x3); [done..|]. intros i _. by rewrite Hv4. }
    apply Hend; [by rewrite Hv4| |].
    + rewrite Hv4. cbn [v_direct without_page unmapped_at]. rewrite Hd3, Hd2. by apply delete_insert_id.
    + rewrite Hv4. cbn [v_pages without_page unmapped_at]. by rewrite Hp3, Hp2.
Qed.

(** The service's part. *)
Lemma service_answers hd h n s p A0 bs x (R : ipc_header → option (list Z) → X → Prop) :
  p_inv x → p_kernel x nt → connected A0 n s ct nt → n ≠ s → request_header h n s → p ≠ 0 →
  spec_send ct h p A0 = (Ok tt, ports_of x) → v_pages (p_view x) !! p = Some bs → stable n R → handles hd h n s p bs x.2 A0 R →
  wp (service_iteration ns nt hd s)
    (λ _ x', p_next x x' ∧
       ∃ h' pg, R h' pg x' ∧ answer_header h' n s ∧ serviced A0 n p h' pg x x') E x.
Proof.
  intros Hi Hk Hconn Hne Hrq Hp Hsend Hpg Hstable Hhd.
  destruct (request_specs A0 n s ct nt h p Hconn Hne Hrq) as (A1&A2&HA1&HA2&a&Ha&HA2').
  assert (A1 = ports_of x) as HA1' by congruence. unfold service_iteration. rewrite wp_bind, wp_or_panic.
  framed (p_wait_ok x ns nt s Hi Hns Hk) Estop.
  intros r x1 [(Hn1&->&Hv1) Ht1].
  destruct Hconn as [(a0&Ha0&Hma&Hra) (b&Hb&Hmb&Hrb&Hsb)]. assert (a0 = a) as -> by congruence.
  rewrite HA1' in HA2. rewrite (receive_wait _ _ _ _ _ HA2). rewrite wp_bind.
  framed (p_receive_ok x1 ns nt s true (proj1 Hn1) Hns (p_next_kernel Hn1 Hk)) Estop.
  rewrite Hv1. intros r x2 [[Hn2 Hr] Ht2]. pose proof (p_next_trans _ _ _ Hn1 Hn2) as Hn12.
  inversion Hr as [e A Hs Hre Hv|h0 A Hs Hre Hv|h0 p0 A va Hs Hp0 _ Hva Hnone Hre Hv|h0 p0 A e Hs Hp0 _ Hea Hno Hre Hv|h0 p0 A Hs Hp0 Hwant Hre Hv]; [|..|done];
    rewrite HA2 in Hs; [done|congruence| |]; injection Hs as Eh Ep EA; subst h0 p0 A.
  - eapply wp_mono; [apply (message_serviced hd h n s p va A0 a b bs x x2 R Hstable Hhd (proj1 Hn12)); try done; [by apply Hn12|congruence|]| |done].
    + by rewrite <-HA2'.
    + intros [] x3 [Hn3 Hans]. split; [by eapply p_next_trans|done].
  - rewrite (proj2 (Z.eqb_neq e _)) by done. by eapply Ereceive.
Qed.

(** What the client receives; an error says that no page could be had for the
    answer. *)
Definition answered_client h n s (want : bool) (R : ipc_header → option (list Z) → X → Prop) x
    (r : result (ipc_header * Z)) x' : Prop :=
  p_next x x' ∧ match r with
  | Err e => p_no_page (W:=W) e ∧ ∃ h' bs', R h' (Some bs') x'
  | Ok (h', va) => ∃ pg, R h' pg x' ∧ answer_header h' n s ∧ connected (ports_of x') n s ct nt ∧
      (∀ i, ports_of x !! i ≠ None → i ≠ n → ports_of x' !! i = ports_of x !! i) ∧
      match pg with
      | None => va = 0 ∧ v_direct (p_view x') = v_direct (p_view x) ∧ v_pages (p_view x') = v_pages (p_view x)
      | Some bs' => if want then at_address va (p_view x') = Some bs' else va = 0
      end
  end.

(** The client gets the answer, and the page the handler sent; the connection
    is as it was. *)
Lemma exchange_then_ok {A} (refused : Z → M X A) (k : result (ipc_header * Z) → M X A) hd h bytes len n s want x
    (R : ipc_header → option (list Z) → X → Prop) (Q : A → X → Prop) :
  p_inv x → p_kernel x ct → p_kernel x nt → connected (ports_of x) n s ct nt → n ≠ s → request_header h n s →
  0 < len ≤ PAGE_SIZE → len ≤ Z.of_nat (length bytes) → Forall is_byte bytes → stable n R → (∀ p, handles hd h n s p (data_page bytes len) x.2 (ports_of x) R) →
  (∀ e x', p_no_page (W:=W) e → p_next x x' → p_view x' = p_view x → x'.2 = x.2 → wp (refused e) Q E x') →
  (∀ r x', answered_client h n s want R x r x' → wp (k r) Q E x') →
  wp (exchange_then hd h bytes len n s want refused k) Q E x.
Proof.
  intros Hi Hkc Hkn Hconn Hne Hrq Hlen Hb Hby Hstable Hhd Hrefused HQ. unfold exchange_then. rewrite wp_bind.
  framed (p_send_data_ok x cs ct h bytes len Hi Hcs Hkc Hlen Hb Hby) Estop.
  intros r x1 [[Hn1 Hsent] Ht1]. remember (p_view x1) as v1 eqn:Ev1.
  destruct Hsent as [e Hno|p r v1 Hp Hfresh Hsend]; [by apply Hrefused|].
  destruct (request_specs (ports_of x) n s ct nt h p Hconn Hne Hrq) as (A1&A2&HA1&_).
  unfold view_send in Hsend. cbn [v_ports with_page] in Hsend. rewrite HA1 in Hsend.
  assert (r = Ok tt ∧ v1 = with_ports A1 (with_page p (data_page bytes len) (p_view x))) as [-> Hv1] by (split; congruence).
  rewrite Ev1 in Hv1. clear Hsend Ev1 v1.
  rewrite wp_bind. eapply wp_mono; [apply (service_answers hd h n s p (ports_of x) (data_page bytes len) x1 R)| |done];
    [apply Hn1|by apply Hn1|done..|by rewrite Hv1|rewrite Hv1; apply lookup_insert_eq|done|by rewrite Ht1|].
  intros [] x2 [Hn2 (h'&pg&HR&Hh'&[Hd2 Hp2 (B&a'&Hrcv&HBB&HB&Hma'&Hfa'&Hra')])].
  pose proof (p_next_trans _ _ _ Hn1 Hn2) as Hn12. rewrite wp_bind, wp_or_panic.
  framed (p_wait_ok x2 cs ct n (proj1 Hn2) Hcs (p_next_kernel Hn12 Hkc)) Estop. intros r x3 [(Hn3&->&Hv3) Ht3].
  pose proof (p_next_trans _ _ _ Hn12 Hn3) as Hn13. rewrite (receive_wait _ _ _ _ _ Hrcv), wp_bind.
  framed (p_receive_ok x3 cs ct n want (proj1 Hn3) Hcs (p_next_kernel Hn13 Hkc)) Estop. intros r x4 [[Hn4 Hr] Ht4].
  apply HQ. split; [by eapply p_next_trans|]. rewrite Hv3 in Hr.
  assert (∀ x', ports_of x' = <[n := a']> B → connected (ports_of x') n s ct nt ∧
    (∀ i, ports_of x !! i ≠ None → i ≠ n → ports_of x' !! i = ports_of x !! i)) as Hend.
  { intros x' Hx'. destruct Hconn as [_ (b&Hb'&Hmb&Hrb&Hsb)]. rewrite Hx'. split; [split|].
    - exists a'. by rewrite lookup_insert_eq.
    - exists b. rewrite lookup_insert_ne by done. rewrite HB; [done|by rewrite Hb'|done].
    - intros i Hii Hin. rewrite lookup_insert_ne by done. by apply HB. }
  assert (p_next x2 x4) as Hn24 by (by eapply p_next_trans).
  assert (x4.2 = x2.2) as Ht42 by congruence.
  assert (ports_of x4 = <[n := a']> B → R h' pg x4) as HR4.
  { intros HB4. apply (Hstable _ _ x2); [done..|]. intros i Hin. by rewrite HB4, lookup_insert_ne, HBB. }
  remember (p_view x4) as v4 eqn:Ev4.
  destruct Hr as [e A0 Hs|h0 A0 Hs|h0 p0 A0 va Hs Hp0 -> Hva Hnone|h0 p0 A0 e Hs Hp0 _ _ Hno|h0 p0 A0 Hs Hp0 ->];
    rewrite Hrcv in Hs; [done|..]; injection Hs as <- Hpp <-; destruct pg as [bs'|]; try (by destruct Hp); try (by destruct Hp0).
  + exists None. rewrite Ev4. destruct (Hend x4) as [Hc Hi4]; [by rewrite <-Ev4|]. split_and!; [by apply HR4|done..| |].
    * rewrite <-Ev4. cbn [v_direct with_ports]. by rewrite Hd2, Hv1.
    * rewrite <-Ev4. cbn [v_pages with_ports]. rewrite Hp2, Hv1. cbn. by apply delete_insert_id.
  + exists (Some bs'). rewrite Ev4. destruct (Hend x4) as [Hc Hi4]; [by rewrite <-Ev4|]. split_and!; [by apply HR4|done..|].
    rewrite <-Ev4. unfold at_address. cbn. rewrite lookup_insert_eq. cbn. rewrite <-Hpp.
    change (v_pages (p_view x2) !! p = Some bs'). by rewrite Hp2, lookup_insert_eq.
  + split; [done|]. exists h', bs'. by apply HR4.
  + exists (Some bs'). rewrite Ev4. destruct (Hend x4) as [Hc Hi4]; [by rewrite <-Ev4|]. split_and!; [by apply HR4|done..].
Qed.

Lemma exchange_ok hd h bytes len n s want x (R : ipc_header → option (list Z) → X → Prop) :
  p_inv x → p_kernel x ct → p_kernel x nt → connected (ports_of x) n s ct nt → n ≠ s → request_header h n s →
  0 < len ≤ PAGE_SIZE → len ≤ Z.of_nat (length bytes) → Forall is_byte bytes → stable n R → (∀ p, handles hd h n s p (data_page bytes len) x.2 (ports_of x) R) →
  wp (exchange hd h bytes len n s want)
    (λ r x', (∃ e, r = Err e ∧ p_no_page (W:=W) e ∧ p_next x x' ∧ p_view x' = p_view x ∧ x'.2 = x.2) ∨ answered_client h n s want R x r x') E x.
Proof.
  intros Hi Hkc Hkn Hconn Hne Hrq Hlen Hb Hby Hstable Hhd. eapply exchange_then_ok; [done..| |].
  - intros e x' Hno Hn Hv Ht. rewrite wp_ret. left. by exists e.
  - intros r x' Hr. rewrite wp_ret. by right.
Qed.
End exchange.
