(* ===== verification/Ns.v ===== *)
(** The name service ([mk/ns/ns.c], [mk/ns/ns.h]).

    The service keeps the directory of Directory.v and answers the messages of
    IPC port 1.  The handlers run over the interface [Ports] beside the
    directory; a name in a request is the characters of the page before the
    first null, wherever that is.

    The theorems: every request is answered by what the directory says, as a
    finite map; and a service that registers itself is found by whoever looks
    its name up afterwards, through the ports. *)

From S2P Require Import Prelude MachineInt Btree Mutex Pool CString Storage Paths.
From S2P Require Import IpcPort IpcSpec IpcAlloc Ipc Message Task Directory Service Exchange.

Local Open Scope Z_scope.
Local Open Scope c_scope.

Definition with_param (p : Z) (h : ipc_header) : ipc_header :=
  mk_header (ipchdr_src h) (ipchdr_dst h) (ipchdr_right h) (ipchdr_msg h) (ipchdr_cookie h) p.

(** [req->service_name] and [req->port] *)
Definition request_name (bs : list Z) : option (list Z) := string_of bs.
Definition request_port (bs : list Z) : Z := field true NS_SERVICE_NAME_LENGTH 4 bs.

Section ns.
Context {W Ob : Type} `{PortOps W} `{ObjPool Ob}.
Notation directory := (@directory Ob).
Notation X := (W * directory)%type.
(** [current_thread()] and [current_task()] *)
Context (self me : Z).

Definition on_directory {A} (m : M directory A) : M X A := zoom snd set_second m.

Definition ns_handle_gibberish (reqh : ipc_header) : M X (result unit * Z) := ret (Err ERROR_INVALID, 0).

Definition ns_handle_lookup (reqh : ipc_header) (p : Z) : M X (result unit * Z) :=
  if p =? 0 then ns_handle_gibberish reqh
  else
    bs <- p_load p ;;
    name <- deref "service_name" (request_name bs) ;;
    r <- on_directory (service_directory_lookup self name) ;;
    let ipch := match r with
      | Err error => IPC_HEADER_ERROR reqh error
      | Ok port => with_param port (IPC_HEADER_REPLY reqh)
      end in
    error <- p_send_data self me ipch None 0 ;;
    ret (error, p).

Definition ns_handle_register (reqh : ipc_header) (p : Z) : M X (result unit * Z) :=
  if p =? 0 then ns_handle_gibberish reqh
  else
    bs <- p_load p ;;
    name <- deref "service_name" (request_name bs) ;;
    r <- on_directory (service_directory_enter self name (request_port bs)) ;;
    let ipch := match r with
      | Err error => IPC_HEADER_ERROR reqh error
      | Ok _ => IPC_HEADER_REPLY reqh
      end in
    error <- p_send_data self me ipch None 0 ;;
    ret (error, p).

Definition ns_handler : handler := λ ipch p,
  if ipchdr_msg ipch =? NS_MSG_LOOKUP then ns_handle_lookup ipch p
  else if ipchdr_msg ipch =? NS_MSG_REGISTER then ns_handle_register ipch p
  else ret (Err ERROR_INVALID, p).
End ns.

Definition ns_name : list Z := [110; 115].

(** [ns_startup]: an empty directory, and the service on its reserved port. *)
Definition ns_startup {Ob V F : Type} `{ObjPool Ob} `{TaskMemory V} `{ThreadMemory V}
    (self me : Z) (fuel : nat) (exception main : Z) (ns : F) (pool : Ob) :
    M (@services Ob V F * @directory Ob) unit :=
  modify (set_second (service_directory_init pool)) ;;;
  or_panic "ipc_service failed" (zoom fst set_first
    (ipc_service self me fuel exception main ns_name IPC_PORT_NS
       (Z.lor IPC_PORT_FLAG_PUBLIC IPC_PORT_FLAG_NEW) ns 0)) ;;;
  ret tt.

(** * What the service answers *)

(** The answer to a request with a page, and the directory after it. *)
Definition ns_answer (h : ipc_header) (bs name : list Z) (m : gmap (list Z) Z) :
    option (ipc_header * gmap (list Z) Z) :=
  if ipchdr_msg h =? NS_MSG_LOOKUP then
    Some (match spec_lookup name m with
          | Ok port => with_param port (IPC_HEADER_REPLY h)
          | Err error => IPC_HEADER_ERROR h error
          end, m)
  else if ipchdr_msg h =? NS_MSG_REGISTER then
    let '(r, m') := spec_enter name (request_port bs) m in
    Some (match r with Ok _ => IPC_HEADER_REPLY h | Err error => IPC_HEADER_ERROR h error end, m')
  else None.

Section facts.
Context {W Ob : Type} `{Ports W} `{ObjPool Ob} (self me : Z) (Hself : self ≠ 0).
Notation directory := (@directory Ob).
Notation X := (W * directory)%type.
Implicit Types (x : X) (h : ipc_header) (p : Z) (bs name : list Z).

(** Memory is exhausted. *)
Definition ns_stop (w : stop) : Prop := p_stop (W:=W) w ∨ alloc_stop (Ob:=Ob) w.

(** The handler answered: what the send of the answer came to is what it
    returns. *)
Definition answered (h : ipc_header) (m : gmap (list Z) Z) p x (r : result unit * Z) x' : Prop :=
  dir_ok x'.2 ∧ names x'.2 = m ∧ r.2 = p ∧ on_ports (spec_send me h 0) x r.1 x'.

Lemma ns_send_answer h p x x1 :
  p_inv x → p_kernel x me → dir_ok x1.2 → x1.1 = x.1 →
  wp (error <- p_send_data self me h None 0 ;; ret (error, p)) (answered h (names x1.2) p x) ns_stop x1.
Proof.
  intros Hi Hk Hd E. rewrite wp_bind. destruct x1 as [w1 d1], x as [w d]. cbn in E, Hd |- *. subst w1.
  cbn [p_send_data pair_port_ops lift_port_ops].
  rewrite wp_zoom. eapply wp_mono; [by apply p_send_none_ok| |by left]. intros r w' Hw. rewrite wp_ret. split_and!; done.
Qed.

Lemma ns_load_name x p bs name {A} (k : list Z → list Z → M X A) (Q : A → X → Prop) E :
  p_inv x → at_address p (p_view x) = Some bs → request_name bs = Some name →
  wp (k bs name) Q E x → wp (bs <- p_load p ;; name <- deref "service_name" (request_name bs) ;; k bs name) Q E x.
Proof.
  intros Hi Hp Hn Hk. rewrite wp_bind. unfold wp at 1. rewrite (p_load_ok x p bs Hi Hp). by rewrite wp_bind, wp_deref, Hn.
Qed.

Lemma ns_handler_ok h p bs name x :
  p_inv x → p_kernel x me → dir_ok x.2 → p ≠ 0 → at_address p (p_view x) = Some bs →
  Forall is_byte bs → request_name bs = Some name →
  wp (ns_handler self me h p)
    (λ r x', match ns_answer h bs name (names x.2) with
       | Some (h', m) => answered h' m p x r x'
       | None => r = (Err ERROR_INVALID, p) ∧ x' = x
       end) ns_stop x.
Proof.
  intros Hi Hk Hd Hp Hat Hb Hn. unfold ns_handler, ns_answer.
  assert (Forall is_char name) as Hc by (by apply (string_of_chars bs)).
  destruct (ipchdr_msg h =? NS_MSG_LOOKUP); [|destruct (ipchdr_msg h =? NS_MSG_REGISTER); [|by rewrite wp_ret]].
  - unfold ns_handle_lookup. rewrite (proj2 (Z.eqb_neq p 0)) by done. apply (ns_load_name x p bs name); [done..|].
    rewrite wp_bind. apply wp_second. eapply wp_mono; [by apply (dir_lookup_ok self Hself x.2 name Hd Hc)| |done].
    intros r d' (->&Hd'&Hm). rewrite <-Hm. by apply ns_send_answer.
  - unfold ns_handle_register. rewrite (proj2 (Z.eqb_neq p 0)) by done. apply (ns_load_name x p bs name); [done..|].
    rewrite wp_bind. apply wp_second. eapply wp_mono; [by apply (dir_enter_ok self Hself x.2 name (request_port bs) Hd Hc)| |by right].
    intros r d' (Hd'&->). by apply ns_send_answer.
Qed.
End facts.

(** * Requests through the ports *)

Section requests.
Context {W Ob : Type} `{Ports W} `{ObjPool Ob}.
Notation directory := (@directory Ob).
Notation X := (W * directory)%type.
(** A client's thread and task, and the name service's. *)
Context (cs ct ns nt : Z) (Hcs : cs ≠ 0) (Hns : ns ≠ 0).
Implicit Types (x : X) (h : ipc_header) (p n : Z) (bs name stack : list Z).

(** Why requests may stop: memory is exhausted, of a pool or for the page of a
    message; a send or a receive that panics had an error of [p_no_page]. *)
Definition exhausted (w : stop) : Prop :=
  ns_stop (W:=W) (Ob:=Ob) w ∨
  (∃ e, p_no_page (W:=W) e) ∧ (w = Panic "ipc_send failed" ∨ w = Panic "ipc_port_receive failed").

Definition ns_result (h : ipc_header) bs name (m : gmap (list Z) Z) (h' : ipc_header) (pg : option (list Z)) x : Prop :=
  pg = None ∧ dir_ok x.2 ∧ ns_answer h bs name m = Some (h', names x.2).
Lemma ns_result_stable h bs name m n : stable n (ns_result h bs name m).
Proof. intros h' pg x x' HR _ Ht _. unfold ns_result. by rewrite Ht. Qed.

Lemma ns_answer_header h bs name m h' m' n s :
  request_header h n s → ns_answer h bs name m = Some (h', m') → answer_header h' n s.
Proof.
  intros Hrq. unfold ns_answer. case_match; [|case_match; [|done]].
  - intros [= <- _]. case_match; [|by apply error_header]. destruct (reply_header h n s Hrq). by split.
  - destruct (spec_enter _ _ _) as [[]]; intros [= <- _]; [by apply reply_header|by apply error_header].
Qed.

Lemma ns_handles h n p bs name (d : directory) (A0 : gmap Z aport) :
  request_header h n IPC_PORT_NS → dir_ok d → Forall is_byte bs → request_name bs = Some name →
  ns_answer h bs name (names d) ≠ None →
  handles ct nt exhausted (ns_handler ns nt) h n IPC_PORT_NS p bs d A0 (ns_result h bs name (names d)).
Proof.
  intros Hrq Hd Hb Hname Hans x1 va Hi Hk <- Hva Hva0 Hpg Hn.
  eapply wp_mono; [apply (ns_handler_ok ns nt Hns h va bs name x1 Hi Hk Hd Hva0); [|done..]| |by left].
  { unfold at_address. rewrite Hva. exact Hpg. }
  intros r x2. destruct (ns_answer h bs name (names x1.2)) as [[h' m]|] eqn:E; [|done].
  intros (Hd2&Hm&Hr2&Hn2&A&HA&Hv2). exists h', None. subst m. split; [by eapply ns_answer_header|]. split; [done|].
  split; [done| |].
  - exists (v_ports (p_view x1)). split; [done|]. rewrite Hv2. exact HA.
  - rewrite Hv2. done.
Qed.

(** ** Looking a name up *)

Definition lookup_header (n cookie : Z) : ipc_header :=
  mk_header n IPC_PORT_NS IPC_PORT_RIGHT_SEND_ONCE NS_MSG_LOOKUP cookie 0.
(** [struct ns_lookup_request] *)
Definition ns_lookup_request name : list Z := name ++ replicate (Z.to_nat NS_SERVICE_NAME_LENGTH - length name) 0.

Definition ns_lookup (n cookie : Z) name : M X (result (ipc_header * Z)) :=
  exchange cs ct ns nt (ns_handler ns nt) (lookup_header n cookie) (ns_lookup_request name) NS_SERVICE_NAME_LENGTH
    n IPC_PORT_NS false.

(** What a request needs: the client waits on [n], the service on its port. *)
Record ready n x : Prop := {
  rd_inv : p_inv x;
  rd_client : p_kernel x ct;
  rd_service : p_kernel x nt;
  rd_dir : dir_ok x.2;
  rd_port : n ≠ IPC_PORT_NS;
  rd_connected : connected (v_ports (p_view x)) n IPC_PORT_NS ct nt
}.

Lemma is_char_byte l : Forall is_char l → Forall is_byte l.
Proof. intros Hl. eapply Forall_impl; [exact Hl|]. unfold is_char, is_byte. lia. Qed.
Lemma zeros_bytes k : Forall is_byte (replicate k 0).
Proof. apply Forall_replicate. unfold is_byte. lia. Qed.

Lemma be_split_bytes k z : Forall is_byte (be_split k z).
Proof.
  induction k; cbn; constructor; [|done]. unfold be_byte, is_byte. change 0xff with (Z.ones 8).
  rewrite Z.land_ones by lia. by apply Z.mod_pos_bound.
Qed.
Lemma data_page_bytes bytes len : Forall is_byte bytes → Forall is_byte (data_page bytes len).
Proof. intros. apply Forall_app. split; [by apply Forall_take|apply zeros_bytes]. Qed.
Lemma data_page_all bytes len k : Z.of_nat (length bytes) = len → len + Z.of_nat k ≤ PAGE_SIZE →
  ∃ l, data_page bytes len = bytes ++ replicate k 0 ++ l.
Proof.
  intros Hl Hk. unfold data_page. rewrite take_ge by lia. exists (replicate (Z.to_nat (PAGE_SIZE - len) - k) 0).
  rewrite <-replicate_add. do 2 f_equal. lia.
Qed.

Lemma lookup_request_name name : Forall is_char name → (length name < 24)%nat →
  request_name (data_page (ns_lookup_request name) NS_SERVICE_NAME_LENGTH) = Some name ∧
  Forall is_byte (ns_lookup_request name).
Proof.
  intros Hc Hl. unfold ns_lookup_request, NS_SERVICE_NAME_LENGTH. split.
  - destruct (data_page_all (name ++ replicate (Z.to_nat 24 - length name) 0) 24 0) as [l ->];
      [rewrite length_app, length_replicate; lia|done|].
    unfold request_name. replace (Z.to_nat 24 - length name)%nat with (S (23 - length name)) by lia.
    cbn [replicate]. rewrite <-app_assoc. cbn [app]. by apply string_of_app.
  - apply Forall_app. split; [by apply is_char_byte|apply zeros_bytes].
Qed.

Lemma exhausted_stop w : p_stop (W:=W) w → exhausted w.
Proof. intros. by left; left. Qed.
Lemma exhausted_receive e : p_no_page (W:=W) e → exhausted (Panic "ipc_port_receive failed").
Proof. intros He. right. split; [by exists e|by right]. Qed.

Lemma ready_next n x x' : ready n x → p_next x x' → dir_ok x'.2 →
  connected (v_ports (p_view x')) n IPC_PORT_NS ct nt → ready n x'.
Proof. intros [] [Hi Hk] Hd Hc. split; try done; by apply Hk. Qed.

Lemma ns_lookup_ok n cookie name x :
  ready n x → Forall is_char name → (length name < 24)%nat →
  wp (ns_lookup n cookie name) (λ r x', ready n x' ∧ names x'.2 = names x.2 ∧
    match r with
    | Ok (h', va) => va = 0 ∧ h' = match spec_lookup name (names x.2) with
        | Ok port => with_param port (IPC_HEADER_REPLY (lookup_header n cookie))
        | Err error => IPC_HEADER_ERROR (lookup_header n cookie) error
        end
    | Err e => p_no_page (W:=W) e ∧ p_view x' = p_view x
    end) exhausted x.
Proof.
  intros Hr Hc Hl. destruct (lookup_request_name name Hc Hl) as [Hname Hbytes]. unfold ns_lookup.
  eapply wp_mono; [apply (exchange_ok cs ct ns nt Hcs Hns exhausted exhausted_stop exhausted_receive _ _ _ _ _ _ _ x
    (ns_result (lookup_header n cookie) (data_page (ns_lookup_request name) NS_SERVICE_NAME_LENGTH) name (names x.2)))| |done].
  - apply Hr.
  - apply Hr.
  - apply Hr.
  - apply Hr.
  - apply Hr.
  - by split.
  - done.
  - unfold ns_lookup_request, NS_SERVICE_NAME_LENGTH. rewrite length_app, length_replicate. lia.
  - done.
  - apply ns_result_stable.
  - intros p. apply ns_handles; [by split|apply Hr|by apply data_page_bytes|done..].
  - intros r x' [(e&->&He&Hn&Hv&Ht)|[Hn Hans]].
    + rewrite Ht. split; [|done]. apply (ready_next n x); [done|done|rewrite Ht; apply Hr|rewrite Hv; apply Hr].
    + destruct r as [[h' va]|e]; [|by destruct Hans as (_&?&?&?&_)].
      destruct Hans as (pg&(->&Hd&Ha)&_&Hc'&_&Hva&_). unfold ns_answer in Ha. cbn in Ha. injection Ha as <- Hm.
      split; [by apply (ready_next n x)|]. by rewrite <-Hm.
Qed.

(** ** Registering *)

(** [service_register] with the name service's part in its place. *)
Definition ns_register (fuel : nat) stack name (n : Z) : M X unit :=
  register_request cs ct stack name n ;;;
  service_iteration ns nt (ns_handler ns nt) IPC_PORT_NS ;;;
  registration_loop cs ct (S fuel) n (register_header n).

Lemma service_name_idem name : service_name (service_name name) = service_name name.
Proof. unfold service_name. by rewrite take_take, Nat.min_id. Qed.

Lemma register_request_page stack name n :
  length stack = 28%nat → Forall is_byte stack → Forall is_char name → 0 ≤ n < 2 ^ 32 →
  let page := data_page (ns_register_request stack name n) sizeof_ns_register_request in
  request_name page = Some (service_name name) ∧ request_port page = n ∧ Forall is_byte (ns_register_request stack name n) ∧
  length (ns_register_request stack name n) = 28%nat.
Proof.
  intros Hl Hs Hc Hn page. destruct (service_name_ok name Hc) as [Hsc Hsl]. set (nm := service_name name) in *.
  set (rest := drop (length nm + 1) (take 24 stack)).
  assert (ns_register_request stack name n = nm ++ 0 :: rest ++ be_split 4 n) as Hreq.
  { unfold ns_register_request. fold nm.
    change (write_at 0 (nm ++ [0]) stack) with ((nm ++ [0]) ++ drop (length (nm ++ [0])) stack).
    rewrite length_app. cbn [length]. unfold write_at, NS_SERVICE_NAME_LENGTH. rewrite length_be_split.
    rewrite (drop_ge _ (Z.to_nat 24 + 4)) by (rewrite !length_app, length_drop; cbn [length]; lia).
    rewrite app_nil_r, take_app_ge by (rewrite length_app; cbn [length]; lia). rewrite <-!app_assoc. cbn [app]. do 3 f_equal.
    unfold rest. rewrite length_app. cbn [length]. rewrite take_drop_commute. do 2 f_equal; lia. }
  assert (length rest = (23 - length nm)%nat) as Hrl by (unfold rest; rewrite length_drop, length_take; lia).
  assert (length (ns_register_request stack name n) = 28%nat) as Hlen.
  { rewrite Hreq, length_app. cbn [length]. rewrite length_app, length_be_split. lia. }
  destruct (data_page_all (ns_register_request stack name n) sizeof_ns_register_request 0) as [l Hpage];
    [unfold sizeof_ns_register_request; lia|done|]. fold page in Hpage. cbn [replicate app] in Hpage.
  split_and!.
  - rewrite Hpage, Hreq. unfold request_name. rewrite <-app_assoc. cbn [app]. by apply string_of_app.
  - rewrite Hpage, Hreq. unfold request_port, field, slice, NS_SERVICE_NAME_LENGTH, bytes_int. rewrite <-app_assoc. cbn [app].
    rewrite drop_app_ge by lia. replace (Z.to_nat 24 - length nm)%nat with (S (length rest)) by lia. cbn [drop].
    rewrite <-app_assoc, drop_app_length, take_app_le by (rewrite length_be_split; lia).
    rewrite take_ge by (rewrite length_be_split; lia). rewrite be_combine_split. by apply Z.mod_small.
  - rewrite Hreq. apply Forall_app. split; [by apply is_char_byte|]. apply Forall_cons.
    split; [unfold is_byte; lia|]. apply Forall_app. split; [by apply Forall_drop, Forall_take|apply be_split_bytes].
  - done.
Qed.

Lemma spec_enter_free name port m : name ≠ [] → m !! service_name name = None →
  spec_enter (service_name name) port m = (Ok tt, <[service_name name := port]> m).
Proof.
  intros Hne Hfree. unfold spec_enter. rewrite service_name_idem, Hfree.
  destruct (service_name name) eqn:E; [|done]. by destruct name.
Qed.

Lemma ns_register_ok fuel stack name n x :
  ready n x → length stack = 28%nat → Forall is_byte stack → Forall is_char name → name ≠ [] → 0 ≤ n < 2 ^ 32 →
  names x.2 !! service_name name = None →
  wp (ns_register fuel stack name n)
    (λ _ x', ready n x' ∧ p_next x x' ∧ names x'.2 = <[service_name name := n]> (names x.2) ∧
       ∀ i, v_ports (p_view x) !! i ≠ None → i ≠ n → v_ports (p_view x') !! i = v_ports (p_view x) !! i) exhausted x.
Proof.
  intros Hr Hl Hs Hc Hne Hn Hfree.
  destruct (register_request_page stack name n Hl Hs Hc Hn) as (Hname&Hport&Hbytes&Hlen).
  set (page := data_page _ _) in *. set (h := register_header n).
  assert (request_header h n IPC_PORT_NS) as Hrq by done.
  assert (ns_answer h page (service_name name) (names x.2) =
    Some (IPC_HEADER_REPLY h, <[service_name name := n]> (names x.2))) as Hans.
  { unfold ns_answer. change (ipchdr_msg h =? NS_MSG_LOOKUP) with false. change (ipchdr_msg h =? NS_MSG_REGISTER) with true.
    cbn iota. by rewrite Hport, spec_enter_free. }
  enough (wp (exchange_then cs ct ns nt (ns_handler ns nt) h (ns_register_request stack name n) sizeof_ns_register_request
      n IPC_PORT_NS false (λ e, halt (Panic "ipc_send failed"))
      (registration_answer (registration_loop cs ct fuel n) h))
    (λ _ x', ready n x' ∧ p_next x x' ∧ names x'.2 = <[service_name name := n]> (names x.2) ∧
       ∀ i, v_ports (p_view x) !! i ≠ None → i ≠ n → v_ports (p_view x') !! i = v_ports (p_view x) !! i) exhausted x) as Hex.
  { unfold ns_register, register_request. fold h. rewrite wp_bind, wp_or_panic. unfold exchange_then in Hex. rewrite wp_bind in Hex.
    eapply wp_mono; [exact Hex| |done]. intros [[]|e] x1 Hx1; exact Hx1. }
  eapply (exchange_then_ok cs ct ns nt Hcs Hns exhausted exhausted_stop exhausted_receive _ _ _ _ _ _ _ _ _ x
    (ns_result h page (service_name name) (names x.2))); [apply Hr|apply Hr|apply Hr|apply Hr|apply Hr|done|done| |done|apply ns_result_stable| |..].
  - by rewrite Hlen.
  - intros p. apply ns_handles; [done|apply Hr|by apply data_page_bytes|done|by rewrite Hans].
  - intros e x' He _ _ _. rewrite wp_halt. right. split; [by exists e|by left].
  - intros r x' [Hnx Hr']. destruct r as [[h' va]|e]; [|by destruct Hr' as (_&?&?&?&_)].
    destruct Hr' as (pg&(->&Hd&Ha)&_&Hconn&Hi&_). rewrite Hans in Ha. injection Ha as <- Hm.
    change (registration_answer _ h (Ok (IPC_HEADER_REPLY h, va))) with (ret (S:=X) tt). rewrite wp_ret. split; [by apply (ready_next n x)|done].
Qed.
End requests.

(** C7: A service that registers itself is found: whoever looks its name up
    afterwards gets the service's port, with the cookie of the request.  The
    service and the client each wait on a port of their own without messages,
    as the name service does on its, and all three are tasks of the kernel;
    the name must be free, not empty, and of at most 23 characters.  The lookup fails
    only with an error of the allocation or of the mapping of a page for a
    message; the two stop only where a pool or the pages are exhausted, or
    with a panic of the send or of the receive after such an error. *)
Theorem ns_register_then_lookup {W Ob : Type} `{Ports W} `{ObjPool Ob}
    (ss st ns nt cs ct n n' cookie : Z) (fuel : nat) (stack name : list Z) (x : W * @directory Ob) :
  ss ≠ 0 → ns ≠ 0 → cs ≠ 0 →
  ready st nt n x → ready ct nt n' x → n ≠ n' → 0 ≤ n < 2 ^ 32 →
  length stack = 28%nat → Forall is_byte stack →
  Forall is_char name → name ≠ [] → Z.of_nat (length name) < NS_SERVICE_NAME_LENGTH → names x.2 !! name = None →
  wp (ns_register ss st ns nt fuel stack name n ;;; ns_lookup cs ct ns nt n' cookie name)
    (λ r x', names x'.2 = <[name := n]> (names x.2) ∧
       match r with
       | Ok (h, va) => va = 0 ∧ h = with_param n (IPC_HEADER_REPLY (lookup_header n' cookie))
       | Err e => p_no_page (W:=W) e
       end)
    (exhausted (W:=W) (Ob:=Ob)) x.
Proof.
  intros Hss Hns Hcs Hr Hr' Hnn Hn Hl Hs Hc Hne Hlen Hfree.
  assert (service_name name = name) as Hname by (unfold service_name, NS_SERVICE_NAME_LENGTH in *; rewrite take_ge; [done|lia]).
  rewrite wp_bind. eapply wp_mono; [apply (ns_register_ok ss st ns nt Hss Hns fuel stack name n x); try done; by rewrite Hname| |done].
  intros [] x1 (Hr1&Hn1&Hm1&Hi1). rewrite Hname in Hm1.
  assert (ready ct nt n' x1) as Hr2.
  { apply (ready_next ct nt n' x); [done..|apply Hr1|]. destruct (rd_connected _ _ _ _ Hr') as [(a&Ha&Hma&Hra) (b&Hb&Hmb&Hrb&Hsb)].
    split; [exists a|exists b]; (rewrite Hi1; [done|by rewrite ?Ha, ?Hb|]); [done|]. apply not_eq_sym, Hr. }
  eapply wp_mono; [apply (ns_lookup_ok cs ct ns nt Hcs Hns n' cookie name x1 Hr2 Hc)| |done].
  { unfold NS_SERVICE_NAME_LENGTH in Hlen. lia. }
  intros r x2 (_&Hm2&Hans). split; [congruence|]. destruct r as [[h va]|e]; [|apply Hans]. destruct Hans as [-> ->]. split; [done|].
  rewrite Hm1. unfold spec_lookup. by rewrite lookup_insert_eq.
Qed.

Section pages.
Context {W Ob : Type} `{Ports W} `{ObjPool Ob} (self me : Z) (Hself : self ≠ 0).

(** The handler reads on past the page if no null ends the name. *)
Definition ns_may_stop (w : stop) : Prop :=
  exhausted (W:=W) (Ob:=Ob) w ∨ may_panic w ∨ w = Undefined "service_name".

Lemma ns_no_name h p bs (x : W * @directory Ob) :
  p_inv x → p ≠ 0 → at_address p (p_view x) = Some bs → request_name bs = None →
  wp (ns_handler self me h p) (λ r x', r.2 = p ∧ x' = x) (λ w, w = Undefined "service_name") x.
Proof.
  intros Hi Hp Hat Hn. unfold ns_handler, ns_handle_lookup, ns_handle_register. rewrite (proj2 (Z.eqb_neq p 0)) by done.
  destruct (ipchdr_msg h =? NS_MSG_LOOKUP); [|destruct (ipchdr_msg h =? NS_MSG_REGISTER); [|by rewrite wp_ret]];
    (rewrite wp_bind; unfold wp at 1; rewrite (p_load_ok x p bs Hi Hat); by rewrite wp_bind, wp_deref, Hn).
Qed.

Lemma ns_handles_page : handles_page me (dir_ok (Ob:=Ob)) ns_may_stop (ns_handler (W:=W) self me).
Proof.
  intros x h p Hi Hk HJ Hp. destruct (decide (p = 0)) as [->|Hp0].
  { unfold ns_handler, ns_handle_lookup, ns_handle_register, ns_handle_gibberish. rewrite Z.eqb_refl.
    destruct (ipchdr_msg h =? NS_MSG_LOOKUP); [|destruct (ipchdr_msg h =? NS_MSG_REGISTER)];
      (rewrite wp_ret; split; [by apply p_next_refl|split; [done|by left]]). }
  destruct (Hp Hp0) as [q Hq]. destruct (p_page x p q Hi Hq) as (_&bs&Hbs&_&Hby).
  assert (at_address p (p_view x) = Some bs) as Hat by (unfold at_address; by rewrite Hq).
  destruct (request_name bs) as [name|] eqn:Hn.
  - eapply wp_mono; [by apply (ns_handler_ok self me Hself h p bs name x)| |by left; left].
    intros r x'. destruct (ns_answer h bs name (names x.2)) as [[h' m]|].
    + intros (Hd&_&Hr&Hnx&A&_&Hv). split; [done|]. split; [done|]. left. by rewrite Hv.
    + intros [-> ->]. split; [by apply p_next_refl|]. split; [done|by left].
  - eapply wp_mono; [by apply (ns_no_name h p bs x)| |by right; right].
    intros r x' [-> ->]. split; [by apply p_next_refl|]. split; [done|by left].
Qed.
End pages.

(** ** Starting the name service *)

Section startup.
Context {Ob V F : Type} `{ObjPool Ob} `{TaskMemory V} `{ThreadMemory V}.
Context (self me : Z) (Hself : self ≠ 0) (fuel : nat) (exception main : Z).
Context (keep : V → V → Prop) `{!PreOrder keep} (Hlaw : thread_law keep).

(** The directory is empty, and the port of the name service is public with
    its task as the only receiver. *)
Lemma ns_startup_ok (h : F) (pool : Ob) (x : @services Ob V F * @directory Ob) :
  services_ok self me x.1 → op_inv pool → (∀ a, ¬ op_live pool a) → sv_ports x.1 !! IPC_PORT_NS = None →
  wp (ns_startup self me fuel exception main h pool)
    (λ _ x', services_ok self me x'.1 ∧ dir_ok x'.2 ∧ names x'.2 = ∅ ∧
       ∃ t a, sv_ports x'.1 = <[IPC_PORT_NS := a]> (sv_ports x.1) ∧ a_msgs a = [] ∧ public a = true ∧
         ∀ u, may_receive u a = bool_decide (u = t))
    (service_stop (Ob:=Ob) (V:=V)) x.
Proof.
  intros S Hp Hl Hfree. unfold ns_startup. rewrite wp_bind, wp_modify, wp_bind, wp_or_panic, wp_zoom.
  eapply wp_mono; [apply (ipc_service_ok self me Hself fuel exception main keep Hlaw ns_name IPC_PORT_NS
    (Z.lor IPC_PORT_FLAG_PUBLIC IPC_PORT_FLAG_NEW) h 0 x.1 S)| |done].
  { split; [unfold IPC_PORT_UNRESERVED_START; done|done]. }
  intros r s (->&S'&c&t&td&n&_&Hm). rewrite wp_ret. split; [done|]. split_and!.
  - split; cbn; [by constructor|by intros a Ha%elem_of_nil| |done|..|done].
    + intros a e. by rewrite lookup_empty.
    + intros a. rewrite lookup_empty. by intros [? ?].
  - done.
  - destruct (sm_port _ _ _ _ _ _ _ _ _ _ _ _ _ Hm) as (_&->&a&Ha&Hma&Hfl&Hu). exists t, a. split_and!; [done..| |done].
    unfold public. by rewrite Hfl.
Qed.
End startup.
