(* ===== verification/ServiceExample.v ===== *)
(** Services on a small machine: a direct map for Message.v, and the theorems
    of Service.v and Ns.v applied to three tasks of the kernel. *)

From S2P Require Import Prelude MachineInt Btree Mutex Pool CString Storage Paths.
From S2P Require Import IpcPort IpcSpec IpcAlloc Ipc Message Task TaskExample Directory Service Exchange Ns.

Local Open Scope Z_scope.
Local Open Scope c_scope.

(** * A memory system

    Page [p] is direct-mapped at one address only. *)

Record board := mk_board { b_pages : gmap Z (list Z); b_direct : gmap Z Z; b_next : Z }.

Definition board_base : Z := 0x9800000000000000.
Definition board_address (p : Z) : Z := board_base + p * PAGE_SIZE.
Definition blank : list Z := replicate (Z.to_nat PAGE_SIZE) 0.

Definition board_alloc : M board (result Z) := λ v,
  Done (Ok (b_next v)) (mk_board (<[b_next v := blank]> (b_pages v)) (b_direct v) (b_next v + 1)).
Definition board_release (p : Z) : M board unit := λ v,
  Done tt (mk_board (delete p (b_pages v)) (b_direct v) (b_next v)).
Definition board_map (p : Z) : M board (result Z) := λ v,
  if p <? 0x100000 then Done (Ok (board_address p)) (mk_board (b_pages v) (<[board_address p := p]> (b_direct v)) (b_next v))
  else Done (Err ERROR_EXHAUSTED) v.
Definition board_write (va : Z) (bytes : list Z) : M board unit := λ v,
  match bytes with
  | [] => Done tt v
  | _ =>
      let o := va mod PAGE_SIZE in
      match b_direct v !! (va - o) with
      | Some p => Done tt (mk_board (alter (write_at o bytes) p (b_pages v)) (b_direct v) (b_next v))
      | None => Stop (Undefined "bad address")
      end
  end.

#[export] Instance board_memory : TaskMemory board := {|
  kernel_vm := 1;
  tm_page_alloc := board_alloc;
  tm_page_release := board_release;
  tm_page_extract _ va := λ v, Done (match b_direct v !! va with Some p => Ok p | None => Err ERROR_NOT_FOUND end) v;
  tm_page_map _ _ _ := ret (Err ERROR_NOT_IMPLEMENTED);
  tm_page_unmap _ _ _ := ret (Err ERROR_NOT_IMPLEMENTED);
  tm_page_map_direct := board_map;
  tm_page_unmap_direct _ va := λ v, Done (Ok tt) (mk_board (b_pages v) (delete va (b_direct v)) (b_next v));
  tm_vm_alloc_address _ _ _ := ret (Err ERROR_NOT_IMPLEMENTED);
  tm_vm_free_address _ _ := ret (Err ERROR_NOT_IMPLEMENTED);
  tm_write := board_write
|}.

Record board_ok (v : board) : Prop := {
  bo_next : 0 < b_next v;
  bo_page p bs : b_pages v !! p = Some bs → 0 < p < b_next v ∧ length bs = Z.to_nat PAGE_SIZE ∧ Forall is_byte bs;
  bo_direct va p : b_direct v !! va = Some p → va = board_address p ∧ 0 < p < 0x100000
}.

Lemma board_address_inj p q : board_address p = board_address q → p = q.
Proof. unfold board_address. rewrite PAGE_SIZE_eq. lia. Qed.

Lemma blank_page : length blank = Z.to_nat PAGE_SIZE ∧ Forall is_byte blank.
Proof. unfold blank. rewrite length_replicate. split; [done|]. apply Forall_replicate. unfold is_byte. lia. Qed.

Lemma write_at_bytes o new buf : Forall is_byte new → Forall is_byte buf → Forall is_byte (write_at o new buf).
Proof. intros. unfold write_at. apply Forall_app. split; [by apply Forall_take|]. apply Forall_app. split; [done|by apply Forall_drop]. Qed.

Lemma board_write_ok v va p bs o new : board_ok v → b_direct v !! va = Some p → b_pages v !! p = Some bs →
  0 ≤ o → o + Z.of_nat (length new) ≤ PAGE_SIZE → Forall is_byte new →
  wp (board_write (va + o) new)
    (λ _ v', board_ok v' ∧ b_pages v' = <[p := write_at o new bs]> (b_pages v) ∧ b_direct v' = b_direct v) never v.
Proof.
  intros [Hn Hp Hd] Hva Hbs Ho Hl Hby. destruct (Hd _ _ Hva) as [Haddr Hrange]. destruct (Hp _ _ Hbs) as (Hpn&Hlen&Hbby).
  assert (length (write_at o new bs) = Z.to_nat PAGE_SIZE) as Hwl by (rewrite length_write_at; lia).
  unfold board_write. destruct new as [|b new].
  - split; [done|]. split; [|done]. rewrite insert_id; [done|]. rewrite Hbs. f_equal. unfold write_at.
    cbn [length app]. by rewrite Nat.add_0_r, take_drop.
  - rewrite PAGE_SIZE_eq in *. assert ((va + o) mod 8192 = o) as Hmod.
    { rewrite Haddr. unfold board_address. rewrite PAGE_SIZE_eq.
      replace (board_base + p * 8192 + o) with (o + (1337006139375616 + p) * 8192) by (unfold board_base; lia).
      cbn [length] in Hl. rewrite Z.mod_add, Z.mod_small by lia. done. }
    unfold wp. rewrite Hmod. replace (va + o - o) with va by lia. rewrite Hva.
    assert (alter (write_at o (b :: new)) p (b_pages v) = <[p := write_at o (b :: new) bs]> (b_pages v)) as ->.
    { apply map_eq. intros i. destruct (decide (i = p)) as [->|]; [by rewrite lookup_alter_eq, lookup_insert_eq, Hbs|].
      by rewrite lookup_alter_ne, lookup_insert_ne by done. }
    split; [|done]. split; cbn; [done| |done]. intros q l. rewrite lookup_insert_Some.
    intros [[<- <-]|[_ Hq]]; [|by apply Hp]. split_and!; [lia|lia|done|by apply write_at_bytes].
Qed.

#[export] Program Instance board_direct : DirectMemory board := {|
  dm_load va := v <- get ;; deref "bad address" (p ← b_direct v !! va; b_pages v !! p);
  dm_ok := board_ok;
  dm_pages := b_pages;
  dm_direct := b_direct
|}.
Next Obligation. intros v p bs Hv Hp. destruct (bo_page v Hv _ _ Hp) as (?&?&?). split; [lia|done]. Qed.
Next Obligation.
  intros v va p Hv Hva. destruct (bo_direct v Hv _ _ Hva) as [-> Hp].
  rewrite PAGE_ALIGNED_mod. unfold board_address. rewrite PAGE_SIZE_eq. split_and!; [unfold board_base; lia..|].
  rewrite Z.mod_add by lia. done.
Qed.
Next Obligation.
  intros v [Hn Hp Hd]. unfold wp. cbn. split; [|split; [done|]].
  - split; cbn; [lia| |done]. intros p bs. rewrite lookup_insert_Some.
    intros [[<- <-]|[_ Hb]]; [split; [lia|apply blank_page]|]. destruct (Hp _ _ Hb) as (?&?&?). split; [lia|done].
  - split; [|by eexists]. destruct (b_pages v !! b_next v) eqn:E; [|done]. destruct (Hp _ _ E). lia.
Qed.
Next Obligation.
  intros v p [Hn Hp Hd] _ _. unfold wp. cbn. split; [|done]. split; cbn; [done| |done].
  intros q bs. rewrite lookup_delete_Some. intros [_ Hq]. by apply Hp.
Qed.
Next Obligation. intros v va p _ Hva. cbn. by rewrite Hva. Qed.
Next Obligation.
  intros v p [Hn Hp Hd] [bs Hbs] Hnone. destruct (Hp _ _ Hbs) as (Hpos&_). unfold wp. cbn. unfold board_map.
  destruct (Z.ltb_spec p 0x100000); [|by split]. split; [|split; [done|split; [|done]]].
  - split; cbn; [done|done|]. intros va q. rewrite lookup_insert_Some. intros [[<- <-]|[_ Hq]]; [split; [done|lia]|by apply Hd].
  - destruct (b_direct v !! board_address p) as [q|] eqn:E; [|done]. destruct (Hd _ _ E) as [<-%board_address_inj _].
    by destruct (Hnone _ E).
Qed.
Next Obligation.
  intros v va p [Hn Hp Hd] _. unfold wp. cbn. split_and!; [done| |done..]. split; cbn; [done|done|].
  intros a q. rewrite lookup_delete_Some. intros [_ Hq]. by apply Hd.
Qed.
Next Obligation. intros. by eapply board_write_ok. Qed.
Next Obligation. intros v va p bs _ Hva Hp. cbn. unfold bind, get. rewrite Hva. cbn. by rewrite Hp. Qed.

#[export] Instance board_threads : ThreadMemory board := {|
  th_vm_setup _ _ := ret (Ok 0x200);
  th_vm_exit _ := ret tt;
  th_vm_alloc _ := ret (Ok 0xc000000000004000);
  th_vm_free _ _ := ret (Ok tt);
  th_wire _ := ret tt;
  th_sched_setup _ := ret tt
|}.
Lemma board_thread_law : thread_law (λ v v' : board, v' = v).
Proof. by split. Qed.
#[export] Instance unchanged_preorder {A} : PreOrder (λ x y : A, y = x).
Proof. split; [done|]. intros x y z -> ->. done. Qed.

(** * Three tasks of the kernel

    Task 10 is the name service, on port 1; task 11 is a service, on port 3;
    task 12 is a client, on port 4. *)

#[local] Notation machine := (@ipc (list Z * Z) board).

Definition b0 : machine :=
  mk_ipc (ipc_port_init ([], 1) ([], 1) ([], 1)
      {[ 10 := mk_task TASK_KERNEL 0 [] 0; 11 := mk_task TASK_KERNEL 0 [] 0; 12 := mk_task TASK_KERNEL 0 [] 0 ]})
    (mutex_init 0) ∅ [] (mk_board ∅ ∅ 1).
Definition b1 : machine := outcome_state b0 (ipc_port_allocate_reserved 1 10 IPC_PORT_NS IPC_PORT_FLAG_PUBLIC b0).
Definition b2 : machine := outcome_state b0 (p_allocate 2 11 0 b1).
Definition b3 : machine := outcome_state b0 (p_allocate 3 12 0 b2).

Lemma b0_inv : p_inv b0.
Proof.
  split_and!.
  - apply init_wf; split; simpl; try lia; intros x Hx; by apply elem_of_nil in Hx.
  - done.
  - split; [done| |].
    + intros p. simpl. rewrite !lookup_empty. done.
    + intros p y. change (port_sync b0) with (∅ : gmap Z (mutex * cv)). by rewrite lookup_empty.
  - by split.
  - split; [constructor|]. intros p. change (p ∈ ([] : list Z) → is_Some ((∅ : gmap Z (list Z)) !! p)).
    intros Hp. by apply elem_of_nil in Hp.
Qed.

(** A step that comes back. *)
Lemma board_step {T} (m : M machine T) (Q : T → machine → Prop) E s :
  wp m (λ a s', p_next s s' ∧ Q a s') E s → (∃ a, m s = Done a (outcome_state b0 (m s))) → p_inv (outcome_state b0 (m s)).
Proof. intros Hw [a Ha]. unfold wp in Hw. rewrite Ha in Hw. apply Hw. Qed.
Lemma board_kernel (s : machine) t :
  match tasks (data s) !! t with Some k => flag_set (t_flags k) TASK_KERNEL | None => false end = true → kernel_task s t.
Proof. unfold kernel_task. destruct (tasks (data s) !! t) as [k|]; [|done]. by exists k. Qed.
Ltac kernel_task s t := apply (board_kernel s t); vm_compute; reflexivity.

Lemma b1_inv : p_inv b1.
Proof.
  eapply board_step; [|by vm_compute; eexists].
  eapply (meets_ports (λ _, True) _ (spec_allocate_reserved 10 IPC_PORT_NS IPC_PORT_FLAG_PUBLIC) 1 10); [apply b0_inv|kernel_task b0 10| |].
  - apply allocate_reserved_ok; [done|apply (inv_idle (λ _, True)); [apply b0_inv|kernel_task b0 10]|]. unfold IPC_PORT_NS. lia.
  - intros r A. change (abs (data b0)) with (∅ : gmap Z aport). unfold spec_allocate_reserved. cbn. rewrite lookup_empty.
    intros [= <- <-]. by rewrite queued_insert_new.
Qed.
Lemma b2_inv : p_inv b2.
Proof.
  eapply board_step; [|by vm_compute; eexists].
  apply (p_allocate_ok b1 2 11 0); [apply b1_inv|done|kernel_task b1 11|by vm_compute].
Qed.
Lemma b3_inv : p_inv b3.
Proof.
  eapply board_step; [|by vm_compute; eexists].
  apply (p_allocate_ok b2 3 12 0); [apply b2_inv|done|kernel_task b2 12|by vm_compute].
Qed.

Lemma b3_in (G : gset Z → Prop) : G (dom (tasks (data b3))) → @p_inv machine (ipc_view_in G) b3.
Proof.
  intros HG. pose proof b3_inv as Hi. generalize dependent b3. intros s HG ([Hw _]&Hl&Hd&Ho). by split_and!.
Qed.

Notation x3 := (b3, dir0).
Definition b3_port (n : Z) : aport := default (new_port 0 0) (abs (data b3) !! n).
Lemma b3_connected n ct : n = 3 ∧ ct = 11 ∨ n = 4 ∧ ct = 12 → connected (abs (data b3)) n IPC_PORT_NS ct 10.
Proof.
  intros Hn. split; [exists (b3_port n)|exists (b3_port IPC_PORT_NS)];
    destruct Hn as [[-> ->]|[-> ->]]; split_and!; vm_compute; reflexivity.
Qed.
Lemma ready_service : ready 11 10 3 x3.
Proof.
  split; [apply b3_inv|kernel_task b3 11|kernel_task b3 10|apply dir0_ok|done|].
  apply b3_connected. by left.
Qed.
Lemma ready_client : ready 12 10 4 x3.
Proof.
  split; [apply b3_inv|kernel_task b3 12|kernel_task b3 10|apply dir0_ok|done|].
  apply b3_connected. by right.
Qed.

Definition uart : list Z := [117; 97; 114; 116].

Lemma uart_chars : Forall is_char uart.
Proof. unfold uart. repeat (apply Forall_cons; split; [unfold is_char; lia|]). by apply Forall_nil. Qed.

(** Task 11 registers itself as the UART; task 12 finds it. *)
Lemma ns_register_then_lookup_witness :
  wp (ns_register 2 11 1 10 4 (replicate 28 0) uart 3 ;;; ns_lookup 3 12 1 10 4 7 uart)
    (λ r x', names x'.2 = <[uart := 3]> (names dir0) ∧
       match r with
       | Ok (h, va) => va = 0 ∧ h = with_param 3 (IPC_HEADER_REPLY (lookup_header 4 7))
       | Err e => p_no_page (W:=machine) e
       end)
    (exhausted (W:=machine) (Ob:=list Z * Z)) x3.
Proof.
  apply (ns_register_then_lookup 2 11 1 10 3 12 3 4 7 4 (replicate 28 0) uart x3);
    [lia..|apply ready_service|apply ready_client|lia|lia|done|apply zeros_bytes|apply uart_chars|done|done|
     vm_compute; reflexivity].
Defined.

(** And it runs. *)
Example ns_register_then_lookup_runs :
  match (ns_register 2 11 1 10 4 (replicate 28 0) uart 3 ;;; ns_lookup 3 12 1 10 4 7 uart) x3 with
  | Done r x' => r = Ok (mk_header 1 4 0 (IPC_MSG_REPLY NS_MSG_LOOKUP) 7 3, 0) ∧ b_direct (memory x'.1) = ∅ ∧
      b_pages (memory x'.1) = ∅
  | Stop _ => False
  end.
Proof. vm_compute. split_and!; reflexivity. Qed.

(** Whatever is sent to it, the name service keeps no page. *)
Lemma service_keeps_no_page_witness :
  wp (service_loop 1 10 3 (ns_handler 1 10) IPC_PORT_NS)
    (λ _ x', p_next x3 x' ∧ dir_ok x'.2 ∧ v_direct (p_view x') = v_direct (p_view x3)) (ns_may_stop (W:=machine) (Ob:=list Z * Z)) x3.
Proof.
  apply (service_keeps_no_page 1 10 ltac:(lia) (dir_ok (Ob:=list Z * Z)) ns_may_stop).
  - intros w Hw. by left; left; left.
  - intros w Hw. by right; left.
  - by apply ns_handles_page.
  - apply b3_inv.
  - kernel_task b3 10.
  - apply dir0_ok.
Defined.

(** ** Making a service *)

Definition kernel3 : @kernel (list Z * Z) board :=
  mk_kernel b3 ([10; 11; 12], 13) [10; 11; 12] {[ 10 := []; 11 := []; 12 := [] ]} ([], 1) ∅.
Definition services3 : @services (list Z * Z) board Z := mk_services kernel3 ([], 1) ∅ [].
Lemma kernel3_live t : is_Some (tasks (data b3) !! t) → op_live (task_pool kernel3) t.
Proof.
  assert (map_Forall (λ t _, t ∈ [10; 11; 12]) (tasks (data b3))) as Hf by (apply (bool_decide_unpack _); by vm_compute).
  intros [x Hx]. exact (Hf t x Hx).
Qed.

Lemma services3_ok : services_ok 2 11 services3.
Proof.
  split; cbn.
  - split.
    + apply (inv_idle (λ _, True)); [apply b3_inv|kernel_task b3 11].
    + split; [simpl; lia|]. intros x Hx. repeat (apply elem_of_cons in Hx as [->|Hx]; [simpl; lia|]). by apply elem_of_nil in Hx.
    + apply kernel3_live.
  - split; [split; [simpl; lia|]; intros x Hx; by apply elem_of_nil in Hx|].
    intros td. change (threads kernel3) with (∅ : gmap Z thread). rewrite lookup_empty. by intros [? ?].
  - split; [simpl; lia|]. intros x Hx. by apply elem_of_nil in Hx.
  - intros c. rewrite lookup_empty. by intros [? ?].
Qed.

Lemma ipc_service_correct_witness :
  wp (ipc_service 2 11 8 0x100 0x200 uart IPC_PORT_UNKNOWN (Z.lor IPC_PORT_FLAG_PUBLIC IPC_PORT_FLAG_NEW) 77 0)
    (λ r x', r = Ok tt ∧ services_ok 2 11 x' ∧
       ∃ c t td n, t ≠ 11 ∧ service_made 0x200 (λ v v' : board, v' = v) uart IPC_PORT_UNKNOWN
         (Z.lor IPC_PORT_FLAG_PUBLIC IPC_PORT_FLAG_NEW) 77 0 c t td n services3 x')
    (service_stop (Ob:=list Z * Z) (V:=board)) services3.
Proof.
  apply (ipc_service_correct 2 11 ltac:(lia) 8 0x100 0x200 (λ v v' : board, v' = v) board_thread_law); [apply services3_ok|].
  split; vm_compute; [reflexivity|lia].
Defined.
