(* ===== verification/Ufs.v ===== *)
(** The UFS2 file system ([mk/io/storage/ufs]).

    A mounted file system is the superblock, one buffer for inodes and
    indirect blocks, and one directory context with the buffer every directory
    is read through.  Structures are read out of blocks in the byte order of
    the machine and swapped if the medium has the other one.

    The theorems compare the functions with what the medium holds: the
    superblock is found in either byte order, a read gives the bytes of the
    file, and a path leads where the directories say.  They also show where
    the code fails: a medium in the other byte order has no files, and a
    directory read is led astray by a lookup in between.

    Shift counts come from the superblock; C leaves a shift by the width or
    more undefined, and the theorems are about superblocks ([sb_ok]) that have
    none. *)

From S2P Require Import Prelude MachineInt CString Storage Paths.

Local Open Scope Z_scope.
Local Open Scope c_scope.

(** * [ufs_param.h], [ufs_superblock.h], [ufs_inode.h], [ufs_directory.h] *)

Definition UFS_MAX_BSIZE : Z := 65536.
Definition UFS_FTYPE_DIRECTORY : Z := 0x04.
Definition UFS_FTYPE_REGULAR : Z := 0x08.

Definition UFS_SUPERBLOCK_SIZE : Z := 8192.
Definition UFS_SUPERBLOCK_MAGIC1 : Z := 0x00011954.
Definition UFS_SUPERBLOCK_SWAP1 : Z := 0x54190100.
Definition UFS_SUPERBLOCK_MAGIC2 : Z := 0x19540119.
Definition UFS_SUPERBLOCK_SWAP2 : Z := 0x19015419.

(** Without the unused fields.  [int32_t] and [int64_t] fields are signed. *)
Record ufs_superblock := mk_superblock {
  sb_iboff : Z;
  sb_bshift : Z;
  sb_fshift : Z;
  sb_fsbtodb : Z;
  sb_ipg : Z;
  sb_fpg : Z;
  sb_sblockloc : Z;
  sb_fsblocks : Z;
  sb_magic : Z
}.

Definition UFS_BSIZE (sb : ufs_superblock) : Z := u64 (Z.shiftl 1 (sb_bshift sb)).
Definition UFS_FSBN2DBA (sb : ufs_superblock) (blkno : Z) : Z :=
  u64 (Z.shiftl (u64 blkno) (sb_fsbtodb sb)).
Definition UFS_LOG2INOPB (sb : ufs_superblock) : Z := sb_bshift sb - LOG2 256.
Definition UFS_INOPB (sb : ufs_superblock) : Z := Z.shiftl 1 (UFS_LOG2INOPB sb).
Definition UFS_INDIRECTBLOCKS (sb : ufs_superblock) (level : Z) : Z :=
  u64 (Z.shiftl 1 ((sb_bshift sb - LOG2 8) * (level + 1))).
Definition UFS_SUPERBLOCK_OFFSETS : list Z := [65536; 8192; 0; 262144; -1].

Definition UFS_ROOT_INODE : Z := 2.
Definition UFS_INODE_NDIRECT : Z := 12.
Definition UFS_INODE_NINDIRECT : Z := 3.

Record ufs2_inode := mk_inode {
  in_mode : Z;
  in_size : Z;
  in_direct : list Z;
  in_indirect : list Z
}.
Definition UFS_INODE_FTYPE (i : ufs2_inode) : Z := Z.shiftr (Z.land (in_mode i) 0xf000) 12.

Record ufs_directory_entry := mk_dirent {
  de_inode : Z;
  de_entrylen : Z;
  de_type : Z;
  de_namelen : Z
}.

Section ufs.
(** The byte order of the machine. *)
Context (big : bool).

(** * Structures in buffers: [memcpy] from a block *)

Definition int32_at (o : Z) (buf : list Z) : Z := signed 32 (field big o 4 buf).
Definition int64_at (o : Z) (buf : list Z) : Z := signed 64 (field big o 8 buf).

Definition superblock_of (buf : list Z) : ufs_superblock :=
  mk_superblock (int32_at 0x10 buf) (int32_at 0x50 buf) (int32_at 0x54 buf) (int32_at 0x64 buf)
    (int32_at 0xb8 buf) (int32_at 0xbc buf) (int64_at 0x3e8 buf) (int64_at 0x438 buf)
    (int32_at 0x55c buf).
Definition inode_of (buf : list Z) : ufs2_inode :=
  mk_inode (field big 0 2 buf) (field big 0x10 8 buf)
    ((λ i, int64_at (0x70 + 8 * i) buf) <$> seqZ 0 UFS_INODE_NDIRECT)
    ((λ i, int64_at (0xd0 + 8 * i) buf) <$> seqZ 0 UFS_INODE_NINDIRECT).
Definition dirent_of (buf : list Z) : ufs_directory_entry :=
  mk_dirent (field big 0 4 buf) (field big 4 2 buf) (field big 6 1 buf) (field big 7 1 buf).

(** * Byte order *)

Definition ufs_superblock_swap32 (x : Z) : Z := signed 32 (bswap32 (u32 x)).
Definition ufs_superblock_swap64 (x : Z) : Z := signed 64 (bswap64 (u64 x)).
Definition ufs_superblock_swap (sb : ufs_superblock) : ufs_superblock :=
  mk_superblock (ufs_superblock_swap32 (sb_iboff sb)) (ufs_superblock_swap32 (sb_bshift sb))
    (ufs_superblock_swap32 (sb_fshift sb)) (ufs_superblock_swap32 (sb_fsbtodb sb))
    (ufs_superblock_swap32 (sb_ipg sb)) (ufs_superblock_swap32 (sb_fpg sb))
    (ufs_superblock_swap64 (sb_sblockloc sb)) (ufs_superblock_swap64 (sb_fsblocks sb))
    (ufs_superblock_swap32 (sb_magic sb)).

(** [in_mode] has 16 bits and is swapped with the 32-bit macro. *)
Definition ufs_inode_swap64 (x : Z) : Z := signed 64 (bswap64 (u64 x)).
Definition ufs_inode_swap (i : ufs2_inode) : ufs2_inode :=
  mk_inode (u16 (bswap32 (u32 (in_mode i)))) (bswap64 (u64 (in_size i)))
    (ufs_inode_swap64 <$> in_direct i) (ufs_inode_swap64 <$> in_indirect i).

Definition ufs_directory_entry_swap (de : ufs_directory_entry) : ufs_directory_entry :=
  mk_dirent (bswap32 (u32 (de_inode de))) (bswap16 (u16 (de_entrylen de))) (de_type de)
    (de_namelen de).

(** The block of the inode. *)
Definition ufs_inode_block (sb : ufs_superblock) (inode : Z) : Z :=
  let cg := inode / u32 (sb_ipg sb) in
  let ig := u64 (u64 (cg * u64 (sb_fpg sb)) + u64 (sb_iboff sb)) in
  let i := Z.shiftr (inode mod u32 (sb_ipg sb)) (UFS_LOG2INOPB sb) in
  u64 (ig + u64 (Z.shiftl i (sb_bshift sb - sb_fshift sb))).

(** * A mounted file system ([ufs_mount.c]) *)

Definition UFS_MOUNT_DEFAULT : Z := 0x00000000.
Definition UFS_MOUNT_SWAP : Z := 0x00000001.

(** [d_name] is the characters before the null. *)
Record ufs_directory_context := mk_dc {
  d_in : ufs2_inode;
  d_entry : ufs_directory_entry;
  d_block : list Z;
  d_name : list Z
}.
Record ufs_file_context := mk_fc { f_in : ufs2_inode; f_block : list Z }.

Context {D : Type} `{BlockDevice D}.
(** [sd_bsize] of [um_sdev] *)
Context (sd_bsize : Z).

Record ufs_mount := mk_mount {
  um_flags : Z;
  um_sboff : Z;
  um_sb : ufs_superblock;
  um_dc : ufs_directory_context;
  um_iblock : list Z;
  um_sdev : D
}.

Definition set_sdev (d : D) (s : ufs_mount) : ufs_mount :=
  mk_mount (um_flags s) (um_sboff s) (um_sb s) (um_dc s) (um_iblock s) d.
Definition set_iblock (b : list Z) (s : ufs_mount) : ufs_mount :=
  mk_mount (um_flags s) (um_sboff s) (um_sb s) (um_dc s) b (um_sdev s).
Definition set_dc (dc : ufs_directory_context) (s : ufs_mount) : ufs_mount :=
  mk_mount (um_flags s) (um_sboff s) (um_sb s) dc (um_iblock s) (um_sdev s).
Definition set_sb (flags : Z) (sb : ufs_superblock) (s : ufs_mount) : ufs_mount :=
  mk_mount flags (um_sboff s) sb (um_dc s) (um_iblock s) (um_sdev s).
Definition set_sboff (o : Z) (s : ufs_mount) : ufs_mount :=
  mk_mount (um_flags s) o (um_sb s) (um_dc s) (um_iblock s) (um_sdev s).
Definition set_d_block (b : list Z) (s : ufs_mount) : ufs_mount :=
  set_dc (mk_dc (d_in (um_dc s)) (d_entry (um_dc s)) b (d_name (um_dc s))) s.
Definition set_d_in (i : ufs2_inode) (s : ufs_mount) : ufs_mount :=
  set_dc (mk_dc i (d_entry (um_dc s)) (d_block (um_dc s)) (d_name (um_dc s))) s.
Definition set_d_entry (de : ufs_directory_entry) (name : list Z) (s : ufs_mount) : ufs_mount :=
  set_dc (mk_dc (d_in (um_dc s)) de (d_block (um_dc s)) name) s.

Definition device_read (buf : list Z) (len off : Z) : M ufs_mount (list Z * result unit) :=
  zoom um_sdev set_sdev (storage_device_read sd_bsize buf len off).

Definition swapped : M ufs_mount bool := gets (λ s, flag_set (um_flags s) UFS_MOUNT_SWAP).

(** [ufs_read_fsbn], the block written into [buf]. *)
Definition ufs_read_fsbn (fsbn : Z) (buf : list Z) : M ufs_mount (list Z * result unit) :=
  s <- get ;;
  let sb := um_sb s in
  let diskblock := UFS_FSBN2DBA sb fsbn in
  let dbshift := sb_fshift sb - sb_fsbtodb sb in
  let physical := signed 64 (Z.shiftl diskblock dbshift) in
  device_read buf (UFS_BSIZE sb) physical.

(** [ufs_read_fsbn(um, fsbn, um->um_iblock)] *)
Definition read_iblock (fsbn : Z) : M ufs_mount (result unit) :=
  s <- get ;;
  r <- ufs_read_fsbn fsbn (um_iblock s) ;;
  modify (set_iblock r.1) ;;;
  ret r.2.

Definition ufs_read_inode (inode : Z) : M ufs_mount (result ufs2_inode) :=
  s <- get ;;
  let i := u32 (inode mod u32 (UFS_INOPB (um_sb s))) in
  read_iblock (ufs_inode_block (um_sb s) inode) ?;;
  s <- get ;;
  b <- bytes_of (i * 256) 256 (um_iblock s) ;;
  sw <- swapped ;;
  ret (Ok (if sw : bool then ufs_inode_swap (inode_of b) else inode_of b)).

(** The first loop of [ufs_map_block]: how many levels of indirect blocks. *)
Fixpoint find_level (n : nat) (sb : ufs_superblock) (level lblock : Z) : Z * Z :=
  match n with
  | O => (level, lblock)
  | S n =>
      let blocks := UFS_INDIRECTBLOCKS sb level in
      if lblock <? blocks then (level, lblock)
      else find_level n sb (level + 1) (u64 (lblock - blocks))
  end.

(** The second loop, from [level] down to 0. *)
Fixpoint map_indirect (level : nat) (lblock iblock : Z) : M ufs_mount (result Z) :=
  s <- get ;;
  let blocks := UFS_INDIRECTBLOCKS (um_sb s) (Z.of_nat level) in
  let off := u32 (match level with O => lblock | S _ => lblock / blocks end) in
  let lblock := match level with O => lblock | S _ => lblock mod blocks end in
  read_iblock iblock ?;;
  s <- get ;;
  b <- bytes_of (8 * off) 8 (um_iblock s) ;;
  sw <- swapped ;;
  let iblock := if sw : bool then bswap64 (bytes_int big b) else bytes_int big b in
  if iblock =? 0 then ret (Err ERROR_NOT_FOUND)
  else match level with O => ret (Ok iblock) | S level => map_indirect level lblock iblock end.

Definition ufs_map_block (i : ufs2_inode) (logical : Z) : M ufs_mount (result Z) :=
  s <- get ;;
  let lblock := u64 (Z.shiftr logical (sb_bshift (um_sb s))) in
  if lblock <? UFS_INODE_NDIRECT then
    pblock <- deref "in_direct" (in_direct i !! Z.to_nat lblock) ;;
    if u64 pblock =? 0 then ret (Err ERROR_NOT_FOUND) else ret (Ok (u64 pblock))
  else
    let '(level, lblock) :=
      find_level (Z.to_nat UFS_INODE_NINDIRECT) (um_sb s) 0 (u64 (lblock - UFS_INODE_NDIRECT)) in
    if negb (level =? 0) then halt (Panic "using untested indirect block handling code!")
    else
      iblock <- deref "in_indirect" (in_indirect i !! Z.to_nat level) ;;
      if u64 iblock =? 0 then ret (Err ERROR_NOT_FOUND)
      else map_indirect (Z.to_nat level) lblock (u64 iblock).

Definition ufs_read_block (i : ufs2_inode) (off : Z) (buf : list Z) :
    M ufs_mount (list Z * result unit) :=
  r <- ufs_map_block i (signed 64 off) ;;
  match r with
  | Err e => ret (buf, Err e)
  | Ok fsbn => ufs_read_fsbn fsbn buf
  end.

(** [ufs_read_directory]: the entry at [off] and its name, cut to [buflen].
    Blocks are read into the buffer of [um_dc]. *)
Definition ufs_read_directory (i : ufs2_inode) (off buflen : Z) :
    M ufs_mount (result (ufs_directory_entry * list Z)) :=
  s <- get ;;
  let offset := u32 (off mod UFS_BSIZE (um_sb s)) in
  (if offset =? 0 then
     r <- ufs_read_block i off (d_block (um_dc s)) ;;
     modify (set_d_block r.1) ;;;
     ret r.2
   else ret (Ok tt)) ?;;
  s <- get ;;
  b <- bytes_of offset 8 (d_block (um_dc s)) ;;
  sw <- swapped ;;
  let de := if sw : bool then ufs_directory_entry_swap (dirent_of b) else dirent_of b in
  name <- deref "string in d_block" (string_of (drop (Z.to_nat (offset + 8)) (d_block (um_dc s)))) ;;
  ret (Ok (de, take (Z.to_nat (buflen - 1)) name)).

(** * Looking up a path *)

(** The loop over the entries of the directory in [um_dc]. *)
Fixpoint find_entry (fuel : nat) (p : list Z) (clen offset : Z) :
    M ufs_mount (result ufs_directory_entry) :=
  match fuel with
  | O => halt OutOfFuel
  | S fuel =>
      s <- get ;;
      if offset =? in_size (d_in (um_dc s)) then ret (Err ERROR_NOT_FOUND)
      else
        x <-? ufs_read_directory (d_in (um_dc s)) offset 256 ;;
        modify (set_d_entry x.1 x.2) ;;;
        let offset := u64 (offset + de_entrylen x.1) in
        if negb (de_namelen x.1 =? clen) then find_entry fuel p clen offset
        else if negb (chars_cmp (take (Z.to_nat clen) x.2) (take (Z.to_nat clen) p) =? 0)
        then find_entry fuel p clen offset
        else ret (Ok x.1)
  end.

(** The loop over the components of the path; [fuel] is for a directory. *)
Fixpoint lookup_loop (fuel n : nat) (p : list Z) (inode : Z) : M ufs_mount (result Z) :=
  match n with
  | O => halt OutOfFuel
  | S n =>
      i <-? ufs_read_inode inode ;;
      modify (set_d_in i) ;;;
      match p with
      | [] => ret (Ok inode)
      | _ =>
          let clen := Z.of_nat (length (component p)) in
          de <-? find_entry fuel p clen 0 ;;
          let p' := drop (Z.to_nat clen) p in
          match p' with
          | [] => ret (Ok (de_inode de))
          | _ =>
              if negb (de_type de =? UFS_FTYPE_DIRECTORY) then ret (Err ERROR_WRONG_KIND)
              else match skip_slashes p' with
              | [] => ret (Ok (de_inode de))
              | p'' => lookup_loop fuel n p'' (de_inode de)
              end
          end
      end
  end.

Definition ufs_lookup (fuel : nat) (path : list Z) : M ufs_mount (result Z) :=
  match path with
  | c :: _ =>
      if negb (c =? 47) then ret (Err ERROR_INVALID)
      else lookup_loop fuel (S (length path)) (skip_slashes path) UFS_ROOT_INODE
  | [] => ret (Err ERROR_INVALID)
  end.

(** * The superblock *)

Fixpoint superblock_loop (offsets : list Z) : M ufs_mount (result unit) :=
  match offsets with
  | [] => halt (Undefined "ufs_superblock_offsets")
  | o :: offsets =>
      if o =? -1 then ret (Ok tt)
      else
        s <- get ;;
        r <- device_read (um_iblock s) UFS_SUPERBLOCK_SIZE o ;;
        modify (set_iblock r.1) ;;;
        match r.2 with
        | Err _ => superblock_loop offsets
        | Ok _ =>
            let sb := superblock_of (slice 0 1376 r.1) in
            modify (set_sb (um_flags s) sb) ;;;
            if (sb_magic sb =? UFS_SUPERBLOCK_MAGIC1) || (sb_magic sb =? UFS_SUPERBLOCK_SWAP1)
            then ret (Err ERROR_NOT_IMPLEMENTED)
            else if (sb_magic sb =? UFS_SUPERBLOCK_MAGIC2) || (sb_magic sb =? UFS_SUPERBLOCK_SWAP2)
            then
              (if sb_magic sb =? UFS_SUPERBLOCK_SWAP2
               then modify (set_sb (Z.lor (um_flags s) UFS_MOUNT_SWAP) (ufs_superblock_swap sb))
               else ret tt) ;;;
              s <- get ;;
              if LOG2 UFS_MAX_BSIZE <? sb_bshift (um_sb s) then ret (Err ERROR_NOT_IMPLEMENTED)
              else modify (set_sboff o) ;;; ret (Ok tt)
            else superblock_loop offsets
        end
  end.

Definition ufs_read_superblock : M ufs_mount (result unit) :=
  superblock_loop UFS_SUPERBLOCK_OFFSETS ?;;
  s <- get ;;
  if um_sboff s =? -1 then ret (Err ERROR_NOT_FOUND) else ret (Ok tt).

(** * The operations of the file system ([ufs_fs_ops])

    Contexts live in memory from [vm_alloc(&kernel_vm, ...)], which is the
    interface [KernelMemory]; a new one holds whatever the memory held. *)

Context {K : Type} `{KernelMemory K}.
Context (fresh_file : ufs_file_context) (fresh_directory : ufs_directory_context).
(** [sizeof (struct ufs_file_context)], [sizeof (struct ufs_directory_context)] *)
Definition sizeof_file_context : Z := 256 + UFS_MAX_BSIZE.
Definition sizeof_directory_context : Z := 256 + 8 + UFS_MAX_BSIZE + 256.

Record ufs_fs := mk_fs {
  fs_um : ufs_mount;
  fs_files : gmap Z ufs_file_context;
  fs_directories : gmap Z ufs_directory_context;
  fs_memory : K
}.
Definition set_um (u : ufs_mount) (s : ufs_fs) : ufs_fs :=
  mk_fs u (fs_files s) (fs_directories s) (fs_memory s).
Definition set_files (f : gmap Z ufs_file_context) (s : ufs_fs) : ufs_fs :=
  mk_fs (fs_um s) f (fs_directories s) (fs_memory s).
Definition set_directories (d : gmap Z ufs_directory_context) (s : ufs_fs) : ufs_fs :=
  mk_fs (fs_um s) (fs_files s) d (fs_memory s).
Definition set_fs_memory (k : K) (s : ufs_fs) : ufs_fs :=
  mk_fs (fs_um s) (fs_files s) (fs_directories s) k.
Definition on_um {A} (m : M ufs_mount A) : M ufs_fs A := zoom fs_um set_um m.
Definition on_kernel {A} (m : M K A) : M ufs_fs A := zoom fs_memory set_fs_memory m.

Definition put_file (v : Z) (fc : ufs_file_context) : M ufs_fs unit :=
  modify (λ s, set_files (<[v := fc]> (fs_files s)) s).
Definition put_directory (v : Z) (dc : ufs_directory_context) : M ufs_fs unit :=
  modify (λ s, set_directories (<[v := dc]> (fs_directories s)) s).
Definition free_file (v : Z) : M ufs_fs unit :=
  or_panic "vm_free failed" (on_kernel (km_free sizeof_file_context v)) ;;;
  modify (λ s, set_files (delete v (fs_files s)) s).
Definition free_directory (v : Z) : M ufs_fs unit :=
  or_panic "vm_free failed" (on_kernel (km_free sizeof_directory_context v)) ;;;
  modify (λ s, set_directories (delete v (fs_directories s)) s).

Definition ufs_op_file_open (fuel : nat) (name : list Z) : M ufs_fs (result Z) :=
  vaddr <-? on_kernel (km_alloc sizeof_file_context) ;;
  put_file vaddr fresh_file ;;;
  r <- on_um (ufs_lookup fuel name) ;;
  match r with
  | Err e => free_file vaddr ;;; ret (Err e)
  | Ok inode =>
      r <- on_um (ufs_read_inode inode) ;;
      match r with
      | Err e => free_file vaddr ;;; ret (Err e)
      | Ok i =>
          put_file vaddr (mk_fc i (f_block fresh_file)) ;;;
          if negb (UFS_INODE_FTYPE i =? UFS_FTYPE_REGULAR)
          then free_file vaddr ;;; ret (Err ERROR_WRONG_KIND)
          else ret (Ok vaddr)
      end
  end.

(** The bytes put into the caller's buffer; [len] is [*lenp] at the call. *)
Definition ufs_op_file_read (fc off len : Z) : M ufs_fs (result (list Z)) :=
  s <- get ;;
  f <- deref "struct ufs_file_context" (fs_files s !! fc) ;;
  let sb := um_sb (fs_um s) in
  let offset := u32 (u64 off mod UFS_BSIZE sb) in
  let address := u64 (Z.shiftl (Z.shiftr off (sb_bshift sb)) (sb_bshift sb)) in
  if in_size (f_in f) <? u64 off then ret (Err ERROR_INVALID)
  else if u64 off =? in_size (f_in f) then ret (Ok [])
  else
    r <- on_um (ufs_read_block (f_in f) address (f_block f)) ;;
    put_file fc (mk_fc (f_in f) r.1) ;;;
    match r.2 with
    | Err e => ret (Err e)
    | Ok _ =>
        let n := MIN (MIN len (u64 (UFS_BSIZE sb - offset))) (u64 (in_size (f_in f) - u64 off)) in
        b <- on_um (bytes_of offset n r.1) ;;
        ret (Ok b)
    end.

Definition ufs_op_file_close (fc : Z) : M ufs_fs (result unit) :=
  free_file fc ;;; ret (Ok tt).

Definition ufs_op_directory_open (fuel : nat) (name : list Z) : M ufs_fs (result Z) :=
  vaddr <-? on_kernel (km_alloc sizeof_directory_context) ;;
  put_directory vaddr fresh_directory ;;;
  r <- on_um (ufs_lookup fuel name) ;;
  match r with
  | Err e => free_directory vaddr ;;; ret (Err e)
  | Ok inode =>
      r <- on_um (ufs_read_inode inode) ;;
      match r with
      | Err e => free_directory vaddr ;;; ret (Err e)
      | Ok i =>
          put_directory vaddr (mk_dc i (d_entry fresh_directory) (d_block fresh_directory)
            (d_name fresh_directory)) ;;;
          if negb (UFS_INODE_FTYPE i =? UFS_FTYPE_DIRECTORY)
          then free_directory vaddr ;;; ret (Err ERROR_WRONG_KIND)
          else ret (Ok vaddr)
      end
  end.

(** The next offset and the name of the entry, if there is one. *)
Definition ufs_op_directory_read (dc off : Z) : M ufs_fs (result (Z * option (list Z))) :=
  s <- get ;;
  d <- deref "struct ufs_directory_context" (fs_directories s !! dc) ;;
  let offset := u64 off in
  if in_size (d_in d) <=? offset then ret (Ok (0, None))
  else
    x <-? on_um (ufs_read_directory (d_in d) offset FS_NAME_MAX) ;;
    put_directory dc (mk_dc (d_in d) x.1 (d_block d) (d_name d)) ;;;
    ret (Ok (signed 64 (offset + de_entrylen x.1), Some x.2)).

Definition ufs_op_directory_close (dc : Z) : M ufs_fs (result unit) :=
  free_directory dc ;;; ret (Ok tt).

(** * [ufs_mount] *)

Context {F : Type} `{FileSystems F}.
(** [sizeof (struct ufs_mount)] *)
Definition sizeof_mount : Z := 24 + 1376 + sizeof_directory_context + UFS_MAX_BSIZE + 8.

(** [ufs_mount()]; [fresh] is what the memory held. *)
Definition mount_ufs (fresh : ufs_mount) (sdev : D) : M (fs_host ufs_mount K F) (result unit) :=
  mount_with sizeof_mount "ufs0"
    (mk_mount UFS_MOUNT_DEFAULT (-1) (um_sb fresh) (um_dc fresh) (um_iblock fresh) sdev)
    ufs_read_superblock.
End ufs.
Arguments ufs_mount : clear implicits.
Arguments ufs_fs : clear implicits.

(** * Byte order *)

Lemma u32_signed x : 0 ≤ x < 2 ^ 32 → u32 (signed 32 x) = x.
Proof.
  intros Hx. unfold signed, u32. rewrite (wrap_small 32 x) by done.
  case_decide; [by apply wrap_small|]. unfold wrap. rewrite <-(Z.mod_small x (2 ^ 32)) at 2 by done.
  replace (x - 2 ^ 32) with (x + (-1) * 2 ^ 32) by lia. by rewrite Z.mod_add.
Qed.
Lemma u64_signed x : 0 ≤ x < 2 ^ 64 → u64 (signed 64 x) = x.
Proof.
  intros Hx. unfold signed, u64. rewrite (wrap_small 64 x) by done.
  case_decide; [by apply wrap_small|]. unfold wrap. rewrite <-(Z.mod_small x (2 ^ 64)) at 2 by done.
  replace (x - 2 ^ 64) with (x + (-1) * 2 ^ 64) by lia. by rewrite Z.mod_add.
Qed.

Section order.
Context (big : bool) (buf : list Z) (Hbuf : Forall is_byte buf).

Lemma field_range o w :
  0 ≤ o → 0 ≤ w → o + w ≤ Z.of_nat (length buf) → 0 ≤ field big o w buf < 2 ^ (8 * w).
Proof.
  intros. unfold field.
  pose proof (bytes_int_range big (slice o w buf) (Forall_slice _ o w buf Hbuf)) as Hr.
  by rewrite length_slice, Z2Nat.id in Hr by lia.
Qed.

Lemma swap_field w f o :
  reverses_bytes w f → 0 < w → 0 ≤ o → o + w ≤ Z.of_nat (length buf) →
  f (field big o w buf) = field (negb big) o w buf.
Proof.
  intros Hf Hn Ho Hl. unfold field. apply (swap_bytes_int (Z.to_nat w)).
  - by rewrite Z2Nat.id by lia.
  - lia.
  - rewrite length_slice by lia. lia.
  - by apply Forall_slice.
Qed.

Lemma swap_int32 o :
  0 ≤ o → o + 4 ≤ Z.of_nat (length buf) →
  ufs_superblock_swap32 (int32_at big o buf) = int32_at (negb big) o buf.
Proof.
  intros Ho Hl. unfold ufs_superblock_swap32, int32_at.
  rewrite u32_signed by (by apply field_range). f_equal.
  apply (swap_field 4 bswap32); [apply bswap32_reverses|lia..].
Qed.
Lemma swap_signed64 o :
  0 ≤ o → o + 8 ≤ Z.of_nat (length buf) →
  signed 64 (bswap64 (u64 (int64_at big o buf))) = int64_at (negb big) o buf.
Proof.
  intros Ho Hl. unfold int64_at. rewrite u64_signed by (by apply field_range).
  by rewrite (swap_field 8 bswap64 o bswap64_reverses) by lia.
Qed.
Lemma swap_int64 o :
  0 ≤ o → o + 8 ≤ Z.of_nat (length buf) →
  ufs_superblock_swap64 (int64_at big o buf) = int64_at (negb big) o buf.
Proof. intros. unfold ufs_superblock_swap64. by rewrite swap_signed64. Qed.
Lemma swap_pointer o :
  0 ≤ o → o + 8 ≤ Z.of_nat (length buf) →
  ufs_inode_swap64 (int64_at big o buf) = int64_at (negb big) o buf.
Proof. intros. unfold ufs_inode_swap64. by rewrite swap_signed64. Qed.

(** Swapping a structure is reading it in the other order ... *)
Lemma swap_superblock :
  (1376 ≤ length buf)%nat → ufs_superblock_swap (superblock_of big buf) = superblock_of (negb big) buf.
Proof.
  intros Hl. unfold ufs_superblock_swap, superblock_of.
  cbn [sb_iboff sb_bshift sb_fshift sb_fsbtodb sb_ipg sb_fpg sb_sblockloc sb_fsblocks sb_magic].
  rewrite !swap_int32, !swap_int64 by lia. done.
Qed.

Lemma swap_dirent :
  length buf = 8%nat → ufs_directory_entry_swap (dirent_of big buf) = dirent_of (negb big) buf.
Proof.
  intros Hl. unfold ufs_directory_entry_swap, dirent_of.
  cbn [de_inode de_entrylen de_type de_namelen]. unfold u32, u16.
  rewrite !wrap_small by (apply field_range; lia).
  rewrite (swap_field 4 bswap32 0) by (apply bswap32_reverses || lia).
  rewrite (swap_field 2 bswap16 4) by (apply bswap16_reverses || lia).
  f_equal; unfold field; destruct big; cbn [negb]; unfold bytes_int.
  all: match goal with |- context [slice ?o 1 buf] =>
    assert (length (slice o 1 buf) = 1%nat) as Hs by (apply (length_slice o 1 buf); lia);
    destruct (slice o 1 buf) as [|? [|]]; try done end.
Qed.

Lemma swap_pointers o n :
  0 ≤ o → o + 8 * n ≤ Z.of_nat (length buf) →
  ufs_inode_swap64 <$> ((λ i, int64_at big (o + 8 * i) buf) <$> seqZ 0 n) =
  ((λ i, int64_at (negb big) (o + 8 * i) buf) <$> seqZ 0 n).
Proof.
  intros Ho Hn. rewrite <-list_fmap_compose. apply list_fmap_ext.
  intros k i Hk. apply lookup_seqZ in Hk as [-> Hk]. unfold compose. rewrite swap_pointer by lia. done.
Qed.

Lemma small_testbit x n k : 0 ≤ n → 0 ≤ x < 2 ^ n → n ≤ k → Z.testbit x k = false.
Proof.
  intros Hn Hx Hk. rewrite <-(Z.mod_small x (2 ^ n)) by done.
  rewrite Z.testbit_mod_pow2 by lia. by rewrite (proj2 (Z.ltb_ge _ _)) by lia.
Qed.

Lemma swap_mode x : 0 ≤ x < 2 ^ 16 → u16 (bswap32 (u32 x)) = 0.
Proof.
  intros Hx. rewrite u32_small by lia. pose proof (bswap32_reverses x) as Hb.
  generalize dependent (bswap32 x). intros y Hb. apply Z.bits_inj'. intros i Hi. unfold u16, wrap.
  rewrite Z.testbit_mod_pow2, Z.bits_0, (Hb i) by lia. destruct (Z.ltb_spec i 16); [|done].
  rewrite (proj2 (Z.ltb_lt _ _)) by lia. apply (small_testbit x 16); [lia|done|].
  destruct (byte_index 4 i ltac:(lia)) as (q&r&->&Hq&Hr). rewrite mirror_byte by lia. lia.
Qed.

(** ... except for the mode of an inode, which is lost. *)
Lemma swap_inode :
  length buf = 256%nat →
  ufs_inode_swap (inode_of big buf) =
    mk_inode 0 (in_size (inode_of (negb big) buf)) (in_direct (inode_of (negb big) buf))
      (in_indirect (inode_of (negb big) buf)).
Proof.
  intros Hl. unfold ufs_inode_swap, inode_of.
  pose proof (swap_pointers 0x70 UFS_INODE_NDIRECT ltac:(lia) ltac:(rewrite Hl; by vm_compute)) as E1.
  pose proof (swap_pointers 0xd0 UFS_INODE_NINDIRECT ltac:(lia) ltac:(rewrite Hl; by vm_compute)) as E2.
  pose proof (swap_mode (field big 0 2 buf)) as E3.
  pose proof (swap_field 8 bswap64 0x10 bswap64_reverses) as E4.
  assert (u64 (field big 0x10 8 buf) = field big 0x10 8 buf) as E5
    by (apply wrap_small, field_range; lia).
  cbn [in_mode in_size in_direct in_indirect]. rewrite E1, E2, E5.
  rewrite E3 by (apply field_range; lia). by rewrite E4 by lia.
Qed.
End order.

(** * What the medium holds *)

Section medium.
Context (big : bool) {D : Type} `{BlockDevice D} (sd_bsize : Z).
(** The bytes of the medium, its superblock, and whether its byte order is
    not the machine's. *)
Context (img : list Z) (sb : ufs_superblock) (swap : bool).
Notation order := (xorb big swap).
Implicit Types (s : ufs_mount D) (i : ufs2_inode).

(** The superblock of a file system the code can read. *)
Record sb_ok : Prop := {
  so_medium : medium sd_bsize img;
  so_length : Z.of_nat (length img) < 2 ^ 63;
  so_bshift : 8 ≤ sb_bshift sb ≤ 16;
  so_fshift : 0 ≤ sb_fsbtodb sb ≤ sb_fshift sb ∧ sb_fshift sb ≤ sb_bshift sb;
  so_frag : 2 ^ sb_fshift sb mod sd_bsize = 0
}.
Definition bsize : Z := 2 ^ sb_bshift sb.

(** The block at [fsbn]. *)
Definition fsbn_ok (fsbn : Z) : Prop :=
  0 ≤ fsbn ∧ fsbn * 2 ^ sb_fshift sb + bsize ≤ Z.of_nat (length img).
Definition blk (fsbn : Z) : list Z := slice (fsbn * 2 ^ sb_fshift sb) bsize img.

(** A buffer after a block was read into it. *)
Definition loaded (fsbn : Z) (buf : list Z) : list Z := blk fsbn ++ drop (Z.to_nat bsize) buf.

(** The mounted file system. *)
Record mounted s : Prop := {
  mn_sb : um_sb s = sb;
  mn_swap : flag_set (um_flags s) UFS_MOUNT_SWAP = swap;
  mn_iblock : length (um_iblock s) = Z.to_nat UFS_MAX_BSIZE;
  mn_d_block : length (d_block (um_dc s)) = Z.to_nat UFS_MAX_BSIZE
}.

Context (Hsb : sb_ok).

Lemma bsize_bounds : 256 ≤ bsize ≤ UFS_MAX_BSIZE.
Proof.
  destruct (so_bshift Hsb). unfold bsize, UFS_MAX_BSIZE.
  split; [change 256 with (2 ^ 8)|change 65536 with (2 ^ 16)]; apply Z.pow_le_mono_r; lia.
Qed.

Lemma UFS_BSIZE_bsize : UFS_BSIZE sb = bsize.
Proof.
  pose proof bsize_bounds. unfold UFS_BSIZE. rewrite Z.shiftl_1_l. unfold bsize, UFS_MAX_BSIZE in *.
  apply u64_small. lia.
Qed.

Lemma length_blk fsbn : fsbn_ok fsbn → length (blk fsbn) = Z.to_nat bsize.
Proof. intros [? ?]. pose proof bsize_bounds. apply length_slice; [|lia..]. pose proof (Z.pow_nonneg 2 (sb_fshift sb)). nia. Qed.

Lemma blk_bytes fsbn : Forall is_byte (blk fsbn).
Proof. apply Forall_slice, (md_bytes _ _ (so_medium Hsb)). Qed.

Lemma length_loaded fsbn buf :
  fsbn_ok fsbn → length buf = Z.to_nat UFS_MAX_BSIZE → length (loaded fsbn buf) = length buf.
Proof.
  intros Hf Hl. pose proof bsize_bounds. unfold loaded.
  rewrite length_app, length_drop, length_blk by done. lia.
Qed.

Lemma slice_loaded fsbn buf o n :
  fsbn_ok fsbn → 0 ≤ o → 0 ≤ n → o + n ≤ bsize → slice o n (loaded fsbn buf) = slice o n (blk fsbn).
Proof.
  intros Hf Ho Hn Hl. unfold slice, loaded. rewrite drop_app_le by (rewrite length_blk by done; lia).
  rewrite take_app_le; [done|]. rewrite length_drop, length_blk by done. lia.
Qed.

Lemma read_fsbn_ok s fsbn buf :
  mounted s → fsbn_ok fsbn → length buf = Z.to_nat UFS_MAX_BSIZE →
  ufs_read_fsbn sd_bsize fsbn buf s = Done (loaded fsbn buf, Ok tt) s.
Proof.
  intros M Hf Hb. pose proof bsize_bounds as Hbs. destruct (so_fshift Hsb) as [H1 H2], (so_bshift Hsb).
  pose proof (so_length Hsb) as Hlen. destruct Hf as [Hf0 Hf1].
  unfold ufs_read_fsbn, bind, get. rewrite (mn_sb s M), UFS_BSIZE_bsize.
  assert (signed 64 (Z.shiftl (UFS_FSBN2DBA sb fsbn) (sb_fshift sb - sb_fsbtodb sb)) =
    fsbn * 2 ^ sb_fshift sb) as ->.
  { assert (0 < 2 ^ sb_fsbtodb sb ∧ 0 < 2 ^ (sb_fshift sb - sb_fsbtodb sb)) as [P1 P2] by lia.
    assert (2 ^ sb_fshift sb = 2 ^ sb_fsbtodb sb * 2 ^ (sb_fshift sb - sb_fsbtodb sb)) as E
      by (rewrite <-Z.pow_add_r by lia; f_equal; lia).
    unfold UFS_FSBN2DBA. rewrite !Z.shiftl_mul_pow2 by lia. rewrite E in Hf1 |- *.
    rewrite (u64_small fsbn) by nia. rewrite u64_small by nia. rewrite <-Z.mul_assoc.
    unfold signed. rewrite (wrap_small 64) by (split; nia). rewrite decide_True by nia. done. }
  unfold device_read, zoom. rewrite (storage_device_read_outcome sd_bsize img).
  - rewrite decide_True; [by destruct s|]. pose proof (so_frag Hsb) as Hfr.
    destruct (md_bsize _ _ (so_medium Hsb)) as (k&Hk&Es).
    apply Z.mod_divide in Hfr as [c Hc]; [|lia].
    split; apply Z.mod_divide; try lia.
    + exists (2 ^ (sb_bshift sb - sb_fshift sb) * c). rewrite <-Z.mul_assoc, <-Hc. unfold bsize.
      rewrite <-Z.pow_add_r by lia. f_equal. lia.
    + exists (fsbn * c). rewrite Hc. lia.
  - apply (so_medium Hsb).
  - unfold UFS_MAX_BSIZE in *. lia.
  - pose proof (Z.pow_nonneg 2 (sb_fshift sb)). nia.
  - lia.
  - done.
Qed.

Lemma mounted_iblock s b :
  mounted s → length b = Z.to_nat UFS_MAX_BSIZE → mounted (set_iblock b s).
Proof. intros [] Hb. by split. Qed.

Lemma read_iblock_ok s fsbn :
  mounted s → fsbn_ok fsbn →
  read_iblock sd_bsize fsbn s = Done (Ok tt) (set_iblock (loaded fsbn (um_iblock s)) s) ∧
  mounted (set_iblock (loaded fsbn (um_iblock s)) s).
Proof.
  intros M Hf. split.
  - unfold read_iblock, bind, get. by rewrite read_fsbn_ok by (done || apply M).
  - apply mounted_iblock; [done|]. rewrite length_loaded by (done || apply M). apply M.
Qed.

Lemma swapped_ok s : mounted s → swapped s = Done swap s.
Proof. intros M. unfold swapped, gets. by rewrite (mn_swap s M). Qed.

(** * The blocks of a file *)

Definition nonzero (x : Z) : option Z := if x =? 0 then None else Some x.

(** Pointer [k] of the indirect block [fsbn]. *)
Definition pointer (fsbn k : Z) : Z := field order (8 * k) 8 (blk fsbn).

(** Where block [lb] of the file is, if it has one. *)
Definition file_block i (lb : Z) : option Z :=
  if lb <? UFS_INODE_NDIRECT then nonzero (u64 (in_direct i !!! Z.to_nat lb))
  else iblock ← nonzero (u64 (in_indirect i !!! 0%nat)); nonzero (pointer iblock (lb - 12)).

(** How many blocks can be mapped without a second level. *)
Definition mappable_blocks : Z := 12 + 2 ^ (sb_bshift sb - 3).

Record inode_ok i : Prop := {
  io_direct : length (in_direct i) = 12%nat;
  io_indirect : length (in_indirect i) = 3%nat;
  io_size : 0 ≤ in_size i < 2 ^ 63;
  io_iblock f : nonzero (u64 (in_indirect i !!! 0%nat)) = Some f → fsbn_ok f;
  io_blocks lb f : 0 ≤ lb < mappable_blocks → file_block i lb = Some f → fsbn_ok f
}.

Lemma nonzero_spec x : (x =? 0) = true ∧ nonzero x = None ∨ (x =? 0) = false ∧ nonzero x = Some x.
Proof. unfold nonzero. destruct (x =? 0); [by left|by right]. Qed.

Lemma ptr_swap fsbn k :
  fsbn_ok fsbn → 0 ≤ k < 2 ^ (sb_bshift sb - 3) →
  (if swap then bswap64 (bytes_int big (slice (8 * k) 8 (blk fsbn)))
   else bytes_int big (slice (8 * k) 8 (blk fsbn))) = pointer fsbn k.
Proof.
  intros Hf Hk. unfold pointer, field. destruct swap; rewrite ?xorb_true_r, ?xorb_false_r; [|done].
  apply (swap_bytes_int 8); [apply bswap64_reverses|lia| |apply Forall_slice, blk_bytes].
  rewrite length_slice; [done|lia|lia|]. rewrite length_blk by done. destruct (so_bshift Hsb).
  unfold bsize. replace (sb_bshift sb) with (sb_bshift sb - 3 + 3) by lia.
  rewrite Z.pow_add_r by lia. lia.
Qed.

Lemma find_level_first n x :
  find_level (1 + n) sb 0 x =
    if x <? UFS_INDIRECTBLOCKS sb 0 then (0, x)
    else find_level n sb 1 (u64 (x - UFS_INDIRECTBLOCKS sb 0)).
Proof. done. Qed.
Lemma find_level_mono n l x : l ≤ (find_level n sb l x).1.
Proof.
  revert l x. induction n as [|n IH]; intros l x; cbn [find_level]; [done|].
  case_match; [done|]. etransitivity; [|apply IH]. lia.
Qed.

Lemma map_block_ok s i logical :
  mounted s → inode_ok i → 0 ≤ logical < 2 ^ 63 →
  let lb := logical / bsize in
  wp (ufs_map_block big sd_bsize i logical)
    (λ r s', mounted s' ∧ um_dc s' = um_dc s ∧ lb < mappable_blocks ∧
       r = match file_block i lb with Some f => Ok f | None => Err ERROR_NOT_FOUND end)
    (λ w, mappable_blocks ≤ lb ∧ w = Panic "using untested indirect block handling code!") s.
Proof.
  intros M I Hlog lb. pose proof bsize_bounds as Hbs. destruct (so_bshift Hsb) as [B1 B2].
  assert (0 ≤ lb < 2 ^ 63) as Hlb.
  { unfold lb. split; [apply Z.div_pos; lia|]. apply Z.div_lt_upper_bound; nia. }
  assert (1 ≤ 2 ^ (sb_bshift sb - 3) ≤ 2 ^ 13) as Hind
    by (split; [change 1 with (2 ^ 0)|]; apply Z.pow_le_mono_r; lia).
  unfold ufs_map_block. rewrite wp_bind, wp_get, (mn_sb s M).
  rewrite Z.shiftr_div_pow2 by lia. fold bsize. fold lb. rewrite u64_small by lia.
  unfold file_block, mappable_blocks, UFS_INODE_NDIRECT, UFS_INODE_NINDIRECT.
  destruct (Z.ltb_spec lb 12) as [Hd|Hd].
  { rewrite wp_bind, wp_deref. destruct (lookup_lt_is_Some_2 (in_direct i) (Z.to_nat lb)) as [x Hx].
    { rewrite (io_direct i I). lia. }
    rewrite Hx, (list_lookup_total_correct _ _ _ Hx).
    destruct (nonzero_spec (u64 x)) as [[-> ->]|[-> ->]]; rewrite wp_ret; split_and!; (done || lia). }
  rewrite u64_small by lia. change (Z.to_nat 3) with (1 + 2)%nat. rewrite find_level_first.
  assert (UFS_INDIRECTBLOCKS sb 0 = 2 ^ (sb_bshift sb - 3)) as ->.
  { unfold UFS_INDIRECTBLOCKS. change (LOG2 8) with 3. rewrite Z.add_0_l, Z.mul_1_r, Z.shiftl_1_l.
    apply u64_small. lia. }
  destruct (Z.ltb_spec (lb - 12) (2 ^ (sb_bshift sb - 3))) as [Hl|Hl]; last first.
  { match goal with |- context [find_level 2 sb 1 ?x] => pose proof (find_level_mono 2 1 x) as Hm;
      destruct (find_level 2 sb 1 x) as [l x'] end. cbn [fst] in Hm.
    rewrite (proj2 (Z.eqb_neq l 0)) by lia. cbn [negb]. rewrite wp_halt. split; [lia|done]. }
  cbn [negb Z.eqb]. rewrite wp_bind, wp_deref.
  destruct (lookup_lt_is_Some_2 (in_indirect i) 0) as [x Hx]; [rewrite (io_indirect i I); lia|].
  change (Z.to_nat 0) with 0%nat. pose proof (io_iblock i I) as Hib.
  rewrite Hx. rewrite (list_lookup_total_correct _ _ _ Hx) in Hib |- *.
  destruct (nonzero_spec (u64 x)) as [[-> E]|[-> E]]; rewrite E in Hib |- *; cbn [mbind option_bind].
  { rewrite wp_ret. split_and!; (done || lia). }
  specialize (Hib _ eq_refl). cbn [map_indirect]. rewrite wp_bind, wp_get, wp_bind_ok.
  destruct (read_iblock_ok s (u64 x) M Hib) as [Hr M1]. unfold wp at 1. rewrite Hr.
  rewrite wp_bind, wp_get, wp_bind. unfold wp at 1. rewrite u32_small by lia.
  cbn [um_iblock set_iblock].
  assert (2 ^ (sb_bshift sb - 3) * 8 = bsize) as E8
    by (unfold bsize; change 8 with (2 ^ 3); rewrite <-Z.pow_add_r by lia; f_equal; lia).
  rewrite bytes_of_ok; [|lia|rewrite length_loaded, (mn_iblock s M) by (done || apply M); lia].
  rewrite wp_bind. unfold wp at 1. rewrite (swapped_ok _ M1).
  rewrite slice_loaded by (done || lia). rewrite ptr_swap by (done || lia).
  destruct (nonzero_spec (pointer (u64 x) (lb - 12))) as [[-> ->]|[-> ->]]; rewrite wp_ret; split_and!;
    (done || lia).
Qed.

Lemma read_block_ok s i off buf :
  mounted s → inode_ok i → 0 ≤ off < 2 ^ 63 → length buf = Z.to_nat UFS_MAX_BSIZE →
  let lb := off / bsize in
  wp (ufs_read_block big sd_bsize i off buf)
    (λ r s', mounted s' ∧ um_dc s' = um_dc s ∧ lb < mappable_blocks ∧
       r = match file_block i lb with
           | Some f => (loaded f buf, Ok tt)
           | None => (buf, Err ERROR_NOT_FOUND)
           end)
    (λ w, mappable_blocks ≤ lb ∧ w = Panic "using untested indirect block handling code!") s.
Proof.
  intros M I Ho Hb lb. unfold ufs_read_block. rewrite wp_bind, signed64_small by done.
  eapply wp_mono; [by apply map_block_ok| |done]. intros r s' (M'&Hdc&Hlb&->). fold lb.
  assert (0 ≤ lb) by (apply Z.div_pos; [lia|]; pose proof bsize_bounds; lia).
  destruct (file_block i lb) as [f|] eqn:Hf; [|rewrite wp_ret; done].
  unfold wp. rewrite read_fsbn_ok; [done|done| |done]. by apply (io_blocks i I lb).
Qed.

(** * Reading a file *)

(** Byte [o] of a file. *)
Definition file_byte i (o : Z) : option Z :=
  f ← file_block i (o / bsize); blk f !! Z.to_nat (o mod bsize).

(** What a read at [off] of at most [len] bytes may give. *)
Definition reads i (off len : Z) (r : result (list Z)) : Prop :=
  match r with
  | Ok bs => off ≤ in_size i ∧
      Z.of_nat (length bs) = Z.min (Z.min len (bsize - off mod bsize)) (in_size i - off) ∧
      ∀ (j : nat) b, bs !! j = Some b → file_byte i (off + Z.of_nat j) = Some b
  | Err e => (e = ERROR_INVALID ∧ in_size i < off) ∨
      (e = ERROR_NOT_FOUND ∧ off < in_size i ∧ file_block i (off / bsize) = None)
  end.

Context {K : Type} `{KernelMemory K}.
Implicit Types (t : ufs_fs D K).

Lemma MIN_min a b : MIN a b = Z.min a b.
Proof. unfold MIN. destruct (Z.ltb_spec a b); lia. Qed.

Lemma file_read_ok (t : ufs_fs D K) fc f off len :
  mounted (fs_um t) → fs_files t !! fc = Some f → inode_ok (f_in f) →
  length (f_block f) = Z.to_nat UFS_MAX_BSIZE → 0 ≤ off < 2 ^ 63 → 0 ≤ len < 2 ^ 64 →
  wp (ufs_op_file_read big sd_bsize fc off len)
    (λ r t', mounted (fs_um t') ∧ um_dc (fs_um t') = um_dc (fs_um t) ∧
       (∃ b, length b = length (f_block f) ∧
          fs_files t' = <[fc := mk_fc (f_in f) b]> (fs_files t)) ∧
       fs_directories t' = fs_directories t ∧ fs_memory t' = fs_memory t ∧ reads (f_in f) off len r)
    (λ w, off < in_size (f_in f) ∧ mappable_blocks ≤ off / bsize ∧
       w = Panic "using untested indirect block handling code!") t.
Proof.
  intros M Hf I Hb Ho Hlen. pose proof bsize_bounds as Hbs. pose proof (io_size _ I) as Hsz.
  destruct (so_bshift Hsb) as [B1 B2].
  assert (fs_files t = <[fc := mk_fc (f_in f) (f_block f)]> (fs_files t)) as Hsame
    by (symmetry; apply insert_id; by destruct f).
  unfold ufs_op_file_read. rewrite wp_bind, wp_get, wp_bind, wp_deref, Hf.
  rewrite (mn_sb _ M), UFS_BSIZE_bsize, (u64_small off) by lia.
  destruct (Z.ltb_spec (in_size (f_in f)) off).
  { rewrite wp_ret. split_and!; [done|done|by exists (f_block f)|done|done|by left]. }
  destruct (Z.eqb_spec off (in_size (f_in f))) as [E|E].
  { rewrite wp_ret. split_and!; [done|done|by exists (f_block f)|done|done|]. split; [lia|].
    pose proof (Z.mod_pos_bound off bsize). split; [cbn; lia|]. by intros j b ?%lookup_nil_Some || done. }
  set (address := off / bsize * bsize).
  assert (u64 (Z.shiftl (Z.shiftr off (sb_bshift sb)) (sb_bshift sb)) = address) as ->.
  { rewrite Z.shiftr_div_pow2, Z.shiftl_mul_pow2 by lia. fold bsize. apply u64_small.
    pose proof (Z.mul_div_le off bsize). pose proof (Z.div_pos off bsize). lia. }
  assert (0 ≤ address ≤ off ∧ address / bsize = off / bsize) as [Ha Hd].
  { unfold address. pose proof (Z.mul_div_le off bsize). pose proof (Z.div_pos off bsize).
    rewrite Z.div_mul by lia. lia. }
  rewrite wp_bind. unfold on_um at 1. rewrite wp_zoom.
  eapply wp_mono; [apply (read_block_ok (fs_um t) (f_in f) address (f_block f)); (done || lia)| |].
  2:{ cbn beta. rewrite Hd. intros w [? ->]. split_and!; (done || lia). }
  rewrite Hd. intros r u (Mu&Hdc&Hlb&->). rewrite wp_bind. unfold put_file at 1. rewrite wp_modify.
  destruct (file_block (f_in f) (off / bsize)) as [fb|] eqn:Hfb; cbn [fst snd]; last first.
  { rewrite wp_ret. split_and!; [done|done|by exists (f_block f)|done|done|]. right. split_and!; (done || lia). }
  assert (fsbn_ok fb) as Hok by (apply (io_blocks _ I (off / bsize)); [split; [apply Z.div_pos; lia|done]|done]).
  pose proof (Z.mod_pos_bound off bsize ltac:(lia)) as Hmod. unfold UFS_MAX_BSIZE in Hbs.
  rewrite !MIN_min, u32_small, (u64_small (bsize - _)), (u64_small (in_size _ - _)) by lia.
  set (n := Z.min (Z.min len (bsize - off mod bsize)) (in_size (f_in f) - off)).
  assert (0 ≤ n ∧ off mod bsize + n ≤ bsize) as [Hn0 Hn] by lia.
  rewrite wp_bind. unfold on_um at 1. rewrite wp_zoom. unfold wp at 1.
  pose proof (length_loaded fb (f_block f) Hok Hb) as Hll.
  rewrite bytes_of_ok by (rewrite ?Hll, ?Hb; unfold UFS_MAX_BSIZE; lia).
  rewrite wp_ret, slice_loaded by (done || lia).
  split_and!; [done|done|by exists (loaded fb (f_block f))|done|done|].
  split; [lia|]. rewrite length_slice by (rewrite ?length_blk by done; lia). split; [lia|].
  intros j b Hj. unfold file_byte. assert (Z.of_nat j < n) as Hjn.
  { apply lookup_lt_Some in Hj. rewrite length_slice in Hj by (rewrite ?length_blk by done; lia). lia. }
  assert ((off + Z.of_nat j) / bsize = off / bsize ∧ (off + Z.of_nat j) mod bsize = off mod bsize + Z.of_nat j)
    as [-> ->].
  { set (q := off / bsize) in *. set (m := off mod bsize) in *.
    assert (off + Z.of_nat j = (m + Z.of_nat j) + q * bsize) as ->
      by (pose proof (Z.div_mod off bsize ltac:(lia)); lia).
    rewrite Z.div_add, Z.mod_add by lia. by rewrite Z.div_small, Z.mod_small by lia. }
  rewrite Hfb. cbn [mbind option_bind]. unfold slice in Hj. rewrite lookup_take_lt, lookup_drop in Hj by lia.
  rewrite <-Hj. f_equal. lia.
Qed.

(** * Inodes *)

Definition inode_fsbn (n : Z) : Z := ufs_inode_block sb n.
Definition inode_bytes (n : Z) : list Z :=
  slice (n mod 2 ^ (sb_bshift sb - 8) * 256) 256 (blk (inode_fsbn n)).
(** Inode [n], as the code reads it. *)
Definition the_inode (n : Z) : ufs2_inode :=
  if swap then ufs_inode_swap (inode_of big (inode_bytes n)) else inode_of big (inode_bytes n).

Lemma read_inode_ok s n :
  mounted s → 0 ≤ n < 2 ^ 32 → fsbn_ok (inode_fsbn n) →
  ∃ s', ufs_read_inode big sd_bsize n s = Done (Ok (the_inode n)) s' ∧ mounted s' ∧
    um_dc s' = um_dc s.
Proof.
  intros M Hn Hf. pose proof bsize_bounds as Hbs. destruct (so_bshift Hsb) as [B1 B2].
  destruct (read_iblock_ok s (inode_fsbn n) M Hf) as [Hr M1].
  assert (1 ≤ 2 ^ (sb_bshift sb - 8) ≤ 2 ^ 8) as Hp
    by (split; [change 1 with (2 ^ 0)|]; apply Z.pow_le_mono_r; lia).
  assert (2 ^ (sb_bshift sb - 8) * 256 = bsize) as E8
    by (unfold bsize; change 256 with (2 ^ 8); rewrite <-Z.pow_add_r by lia; f_equal; lia).
  pose proof (Z.mod_pos_bound n (2 ^ (sb_bshift sb - 8)) ltac:(lia)) as Hm.
  exists (set_iblock (loaded (inode_fsbn n) (um_iblock s)) s). split; [|by split].
  unfold ufs_read_inode. unfold bind at 1, get at 1. rewrite (mn_sb s M).
  unfold UFS_INOPB, UFS_LOG2INOPB. change (LOG2 256) with 8. rewrite Z.shiftl_1_l.
  rewrite (u32_small (2 ^ _)), (u32_small (n mod _)) by lia. fold (inode_fsbn n).
  unfold bind_ok at 1, bind at 1. rewrite Hr. unfold bind at 1, get at 1. cbn [um_iblock set_iblock].
  unfold bind at 1. rewrite bytes_of_ok by (rewrite ?length_loaded, ?(mn_iblock s M) by (done || apply M);
    unfold UFS_MAX_BSIZE in *; lia).
  unfold bind. rewrite (swapped_ok _ M1). rewrite slice_loaded by (done || lia). done.
Qed.

(** * Directories *)

(** The entries of directory [i] from offset [off] to its end, with names. *)
Inductive dir_entries i : Z → list (ufs_directory_entry * list Z) → Prop :=
| dir_end : dir_entries i (in_size i) []
| dir_entry off f de name rest :
    0 ≤ off < in_size i → off / bsize < mappable_blocks →
    file_block i (off / bsize) = Some f →
    off mod bsize + de_entrylen de ≤ bsize → 8 + Z.of_nat (length name) < de_entrylen de →
    dirent_of order (slice (off mod bsize) 8 (blk f)) = de →
    slice (off mod bsize + 8) (Z.of_nat (length name) + 1) (blk f) = name ++ [0] →
    Forall (λ c, 0 < c < 256) name → de_namelen de = Z.of_nat (length name) →
    dir_entries i (off + de_entrylen de) rest →
    dir_entries i off ((de, name) :: rest).

(** The buffer of [um_dc] holds the block of [off], unless [off] begins one. *)
Definition cached s i (off : Z) : Prop :=
  off mod bsize ≠ 0 → ∃ f buf, file_block i (off / bsize) = Some f ∧
    length buf = Z.to_nat UFS_MAX_BSIZE ∧ d_block (um_dc s) = loaded f buf.

Lemma drop_slice {A} o n (l x : list A) :
  slice o n l = x → drop (Z.to_nat o) l = x ++ drop (Z.to_nat n) (drop (Z.to_nat o) l).
Proof. intros <-. unfold slice. by rewrite take_drop. Qed.

Lemma dirent_swap f o :
  fsbn_ok f → 0 ≤ o → o + 8 ≤ bsize →
  (if swap then ufs_directory_entry_swap (dirent_of big (slice o 8 (blk f)))
   else dirent_of big (slice o 8 (blk f))) = dirent_of order (slice o 8 (blk f)).
Proof.
  intros Hf Ho Hl. destruct swap; rewrite ?xorb_true_r, ?xorb_false_r; [|done].
  apply swap_dirent; [apply Forall_slice, blk_bytes|]. rewrite length_slice; [done|lia|lia|].
  rewrite length_blk by done. lia.
Qed.

Lemma namelen_range i off ents :
  dir_entries i off ents → inode_ok i → Forall (λ e, (length e.2 < 256)%nat) ents.
Proof.
  intros He I. induction He as [|off f de name rest Ho Hm Hf Hsp Hlen Hde Hname Hc Hnl _ IH]; [done|].
  constructor; [|done]. cbn [snd]. pose proof (Z.mod_pos_bound off bsize) as Hmod.
  pose proof bsize_bounds.
  assert (fsbn_ok f) as Hok by (apply (io_blocks i I (off / bsize)); [split; [apply Z.div_pos; lia|done]|done]).
  assert (de_namelen de < 256) as Hlt; [|lia]. rewrite <-Hde. unfold dirent_of. cbn [de_namelen].
  apply (field_range order _ (Forall_slice _ _ _ _ (blk_bytes f)) 7 1); [lia|lia|].
  rewrite length_slice; [lia|lia|lia|]. rewrite length_blk by done. lia.
Qed.

(** The beginning of [ufs_read_directory]: the block is in the buffer. *)
Lemma directory_block_ok s i off f :
  mounted s → inode_ok i → cached s i off → 0 ≤ off < 2 ^ 63 → off / bsize < mappable_blocks →
  file_block i (off / bsize) = Some f →
  ∃ s1 buf, (if off mod bsize =? 0 then
       r <- ufs_read_block big sd_bsize i off (d_block (um_dc s)) ;;
       modify (set_d_block r.1) ;;;
       ret r.2
     else ret (Ok tt)) s = Done (Ok tt) s1 ∧ mounted s1 ∧ d_in (um_dc s1) = d_in (um_dc s) ∧
    length buf = Z.to_nat UFS_MAX_BSIZE ∧ d_block (um_dc s1) = loaded f buf.
Proof.
  intros M I Hc Ho Hm Hf. destruct (Z.eqb_spec (off mod bsize) 0) as [E|E].
  - pose proof (read_block_ok s i off (d_block (um_dc s)) M I Ho (mn_d_block s M)) as Hw.
    unfold wp in Hw. unfold bind.
    destruct (ufs_read_block big sd_bsize i off (d_block (um_dc s)) s) as [r s'|w]; [|lia].
    destruct Hw as (M'&Hdc&_&->). rewrite Hf. cbn [fst snd].
    exists (set_d_block (loaded f (d_block (um_dc s))) s'), (d_block (um_dc s)).
    split; [done|]. split; [|split; [cbn; by rewrite Hdc|split; [apply (mn_d_block s M)|done]]].
    destruct M' as [M1 M2 M3 M4]. split; [done..|]. cbn [um_dc set_d_block set_dc d_block].
    rewrite length_loaded; [apply (mn_d_block s M)| |apply (mn_d_block s M)].
    apply (io_blocks i I (off / bsize)); [split; [apply Z.div_pos; pose proof bsize_bounds; lia|done]|done].
  - destruct (Hc E) as (f'&buf&Hf'&Hb&Hd). rewrite Hf in Hf'. injection Hf' as <-.
    by exists s, buf.
Qed.

Lemma read_directory_ok s i off de name rest buflen :
  mounted s → inode_ok i → cached s i off → dir_entries i off ((de, name) :: rest) →
  Z.of_nat (length name) < buflen →
  ∃ s', ufs_read_directory big sd_bsize i off buflen s = Done (Ok (de, name)) s' ∧ mounted s' ∧
    d_in (um_dc s') = d_in (um_dc s) ∧ cached s' i (off + de_entrylen de).
Proof.
  intros M I Hc He Hbl. pose proof bsize_bounds as Hbs. pose proof (io_size i I) as Hsz.
  inversion He as [|? f ? ? ? Ho Hm Hf Hsp Hlen Hde Hname Hcs Hnl Hrest]; subst off0 de0 name0 rest0.
  pose proof (Z.mod_pos_bound off bsize ltac:(lia)) as Hmod.
  assert (fsbn_ok f) as Hok by (apply (io_blocks i I (off / bsize)); [split; [apply Z.div_pos; lia|done]|done]).
  destruct (directory_block_ok s i off f M I Hc ltac:(lia) Hm Hf) as (s1&buf&Hrd&M1&Hin&Hbuf&Hblk).
  exists s1. split; [|split; [done|split; [done|]]].
  - unfold ufs_read_directory. unfold bind at 1, get at 1. rewrite (mn_sb s M), UFS_BSIZE_bsize.
    unfold UFS_MAX_BSIZE in *. rewrite u32_small by lia.
    unfold bind_ok at 1, bind at 1. rewrite Hrd. unfold bind at 1, get at 1. unfold bind at 1.
    assert (length (loaded f buf) = Z.to_nat 65536) as Hll by (by rewrite length_loaded).
    rewrite bytes_of_ok by (rewrite ?Hblk, ?Hll; lia). unfold bind at 1. rewrite (swapped_ok _ M1).
    rewrite Hblk, slice_loaded, dirent_swap by (done || lia). rewrite Hde.
    rewrite (drop_slice _ (Z.of_nat (length name) + 1) _ (name ++ [0]))
      by (rewrite slice_loaded by (done || lia); done).
    rewrite <-app_assoc. cbn [app]. rewrite string_of_app by done.
    unfold bind, deref, ret. rewrite take_ge by lia. done.
  - intros Hne. exists f, buf. split; [|done].
    assert (off mod bsize + de_entrylen de ≠ bsize) as Hne2.
    { intros E. apply Hne. pose proof (Z.div_mod off bsize ltac:(lia)).
      replace (off + de_entrylen de) with ((off / bsize + 1) * bsize) by lia. by apply Z.mod_mul; lia. }
    assert ((off + de_entrylen de) / bsize = off / bsize) as ->; [|done].
    pose proof (Z.div_mod off bsize ltac:(lia)).
    replace (off + de_entrylen de) with ((off mod bsize + de_entrylen de) + off / bsize * bsize) by lia.
    rewrite Z.div_add by lia. rewrite Z.div_small; lia.
Qed.

(** * Looking up a path *)

(** The first entry of the name. *)
Fixpoint first_named (name : list Z) (ents : list (ufs_directory_entry * list Z)) :
    option ufs_directory_entry :=
  match ents with
  | [] => None
  | (de, n) :: ents => if decide (n = name) then Some de else first_named name ents
  end.

Lemma find_entry_ok p ents : ∀ s i off fuel,
  mounted s → inode_ok i → d_in (um_dc s) = i → cached s i off → dir_entries i off ents →
  path_chars p → (length ents < fuel)%nat →
  ∃ s', find_entry big sd_bsize fuel p (Z.of_nat (length (component p))) off s =
      Done (match first_named (component p) ents with
            | Some de => Ok de
            | None => Err ERROR_NOT_FOUND
            end) s' ∧ mounted s'.
Proof.
  induction ents as [|[de name] ents IH]; intros s i off [|fuel] M I Hi Hc He Hp Hf; simpl in Hf; try lia;
    cbn [find_entry]; unfold bind at 1, get at 1; rewrite Hi.
  { inversion He; subst. rewrite Z.eqb_refl. by exists s. }
  pose proof (namelen_range _ _ _ He I) as Hlen. apply Forall_cons in Hlen as [Hlen _]. cbn [snd] in Hlen.
  pose proof He as He'. pose proof (io_size i I) as Hsz. pose proof bsize_bounds.
  inversion He as [|? f ? ? ? Ho Hm Hfb Hsp Hel Hde Hname Hcs Hnl Hrest]; subst off0 de0 name0 rest.
  rewrite (proj2 (Z.eqb_neq off (in_size i))) by lia.
  destruct (read_directory_ok s i off de name ents 256 M I Hc He' ltac:(lia)) as (s1&Hr&M1&Hin&Hc1).
  unfold bind_ok at 1, bind at 1. rewrite Hr. unfold bind at 1, modify at 1. cbn [fst snd].
  set (s2 := set_d_entry de name s1). rewrite u64_small by (unfold UFS_MAX_BSIZE in *; pose proof (Z.mod_pos_bound off bsize); lia).
  assert (mounted s2) as M2 by (destruct M1; by split).
  destruct (IH s2 i (off + de_entrylen de) fuel) as (s3&Hrun&M3); try done; [by rewrite <-Hi, <-Hin|lia|].
  cbn [first_named]. rewrite Hnl.
  destruct (Z.eqb_spec (Z.of_nat (length name)) (Z.of_nat (length (component p)))) as [E|E]; cbn [negb].
  2:{ rewrite decide_False by (intros ->; by apply E). by exists s3. }
  apply Nat2Z.inj in E. rewrite Nat2Z.id, component_prefix.
  rewrite (take_ge name) by lia.
  assert (path_chars (component p)) as Hpc by (rewrite <-component_prefix; by apply Forall_take).
  pose proof (chars_cmp_eq name (component p) Hcs Hpc) as Hcmp.
  destruct (Z.eqb_spec (chars_cmp name (component p)) 0) as [E2|E2]; cbn [negb].
  - apply Hcmp in E2 as ->. rewrite decide_True by done. by exists s2.
  - rewrite decide_False by (intros ?; by apply E2, Hcmp). by exists s3.
Qed.

(** ** The directory tree *)

(** [dirs]: the entries of every directory.  An entry of the type of a
    directory is one of them. *)
Context (dirs : gmap Z (list (ufs_directory_entry * list Z))).
Record tree_ok : Prop := {
  to_root : is_Some (dirs !! UFS_ROOT_INODE);
  to_dir n ents : dirs !! n = Some ents → 0 ≤ n < 2 ^ 32 ∧ fsbn_ok (inode_fsbn n) ∧
    inode_ok (the_inode n) ∧ dir_entries (the_inode n) 0 ents;
  to_closed n ents de name : dirs !! n = Some ents → (de, name) ∈ ents →
    de_type de = UFS_FTYPE_DIRECTORY → is_Some (dirs !! de_inode de)
}.

(** Where a path leads: the names in turn, each looked up in the directory
    the last one leads to.  What a slash follows must be a directory. *)
Fixpoint walk (inode : Z) (l : list (list Z)) (slash : bool) : result Z :=
  match l with
  | [] => Ok inode
  | name :: l' =>
      match first_named name (default [] (dirs !! inode)) with
      | None => Err ERROR_NOT_FOUND
      | Some de =>
          if match l' with [] => negb slash | _ => false end then Ok (de_inode de)
          else if negb (de_type de =? UFS_FTYPE_DIRECTORY) then Err ERROR_WRONG_KIND
          else walk (de_inode de) l' slash
      end
  end.

Lemma first_named_in name ents de : first_named name ents = Some de → (de, name) ∈ ents.
Proof.
  induction ents as [|[d n] ents IH]; [done|]. cbn [first_named]. case_decide as Hn.
  - intros [= <-]. subst. by left.
  - intros Hf. right. by apply IH.
Qed.

Lemma match_nonempty {A B} (l : list A) (a b : B) :
  l ≠ [] → match l with [] => a | _ :: _ => b end = b.
Proof. by destruct l. Qed.

Lemma lookup_loop_ok fuel : tree_ok → (∀ n ents, dirs !! n = Some ents → (length ents < fuel)%nat) →
  ∀ n p s inode,
  mounted s → is_Some (dirs !! inode) → skip_slashes p = p → path_chars p → (length p < n)%nat →
  ∃ s', lookup_loop big sd_bsize fuel n p inode s = Done (walk inode (names p) (ends_slash p)) s' ∧
    mounted s'.
Proof.
  intros T Hfuel n. induction n as [|n IH]; intros p s inode M [ents Hd] Hs Hp Hn; [lia|].
  destruct (to_dir T _ _ Hd) as (Hin&Hfb&I&He). cbn [lookup_loop].
  destruct (read_inode_ok s inode M Hin Hfb) as (s1&Hr&M1&_).
  unfold bind_ok at 1, bind at 1. rewrite Hr. unfold bind at 1, modify at 1.
  set (s2 := set_d_in (the_inode inode) s1). assert (mounted s2) as M2 by (destruct M1; by split).
  destruct (decide (p = [])) as [->|Hne]; [by exists s2|]. rewrite match_nonempty by done.
  destruct (names_cons p Hs Hne) as [Hc ->]. rewrite Nat2Z.id.
  destruct (find_entry_ok p ents s2 (the_inode inode) 0 fuel) as (s3&Hfe&M3); try done.
  { intros []. by rewrite Z.mod_0_l by (pose proof bsize_bounds; lia). } { by eapply Hfuel. }
  unfold bind_ok at 1, bind at 1. rewrite Hfe. cbn [walk]. rewrite Hd. change (default [] (Some ents)) with ents.
  destruct (first_named (component p) ents) as [de|] eqn:Hfn; [|by exists s3].
  destruct (component_rest p) as (Hcr&Hrest&_). set (r := drop (length (component p)) p) in *.
  destruct Hrest as [Er|[r' Er]].
  { rewrite Er. exists s3. split; [|done]. cbn [names pieces]. unfold ends_slash.
    rewrite bool_decide_false; [done|]. rewrite Hcr, Er, app_nil_r. intros Hl.
    apply (component_no_slash p). by apply last_Some_elem_of. }
  assert (r ≠ []) as Hr0 by (by rewrite Er). rewrite match_nonempty by done.
  assert (ends_slash p = ends_slash r) as ->.
  { unfold ends_slash. apply bool_decide_ext. rewrite Hcr. rewrite last_app. destruct (last r) eqn:E; [done|].
    by apply last_None in E. }
  destruct (decide (skip_slashes r = [])) as [Esk|Esk].
  - assert (ends_slash r = true) as -> by (apply bool_decide_true; by apply skip_slashes_last).
    assert (names r = []) as -> by (by rewrite <-names_skip, Esk). cbn [negb walk]. rewrite Esk.
    exists s3. split; [|done]. by destruct (de_type de =? UFS_FTYPE_DIRECTORY).
  - assert (names r ≠ []) as Hnr.
    { rewrite <-names_skip. by destruct (names_cons _ (skip_slashes_idem r) Esk) as [_ ->]. }
    rewrite (match_nonempty (names r)) by done.
    destruct (Z.eqb_spec (de_type de) UFS_FTYPE_DIRECTORY) as [Et|Et]; cbn [negb]; [|by exists s3].
    destruct (skip_slashes_suffix r) as [q Hq].
    assert (ends_slash r = ends_slash (skip_slashes r)) as ->.
    { unfold ends_slash. apply bool_decide_ext. rewrite Hq at 1. rewrite last_app.
      destruct (last (skip_slashes r)) eqn:E; [done|]. by apply last_None in E. }
    rewrite <-names_skip. pose proof (skip_slashes_idem r) as Hidem.
    destruct (skip_slashes r) as [|c0 l0]; [done|]. apply IH; [done| |done| |].
    + eapply (to_closed T); [exact Hd|by apply first_named_in|done].
    + unfold path_chars in *. rewrite Hcr, Hq in Hp. apply Forall_app in Hp as [_ Hp].
      by apply Forall_app in Hp as [_ Hp].
    + apply (f_equal length) in Hcr, Hq. rewrite length_app in Hcr, Hq.
      assert (length (component p) ≠ 0%nat) by (by destruct (component p)). lia.
Qed.

(** Where a path from the root leads. *)
Definition resolve (path : list Z) : result Z :=
  match path with
  | c :: _ => if c =? 47 then walk UFS_ROOT_INODE (names path) (ends_slash path) else Err ERROR_INVALID
  | [] => Err ERROR_INVALID
  end.

Lemma lookup_ok fuel path s :
  tree_ok → (∀ n ents, dirs !! n = Some ents → (length ents < fuel)%nat) → mounted s →
  path_chars path →
  ∃ s', ufs_lookup big sd_bsize fuel path s =
    Done (resolve path) s' ∧ mounted s'.
Proof.
  intros T Hfuel M Hp. unfold resolve. destruct path as [|c path']; [by exists s|]. unfold ufs_lookup.
  destruct (Z.eqb_spec c 47) as [->|]; cbn [negb]; [|by exists s].
  set (path := 47 :: path') in *. destruct (skip_slashes_suffix path) as [q Hq].
  destruct (lookup_loop_ok fuel T Hfuel (S (length path)) (skip_slashes path) s UFS_ROOT_INODE)
    as (s'&Hr&M'); [done|apply (to_root T)|apply skip_slashes_idem| | |].
  - unfold path_chars in *. rewrite Hq in Hp. by apply Forall_app in Hp as [_ Hp].
  - apply (f_equal length) in Hq. rewrite length_app in Hq. lia.
  - exists s'. split; [|done]. rewrite Hr, names_skip. f_equal.
    destruct (decide (skip_slashes path = [])) as [E|E]; [by rewrite <-names_skip, E|].
    f_equal. unfold ends_slash. apply bool_decide_ext. rewrite Hq at 2. rewrite last_app.
    destruct (last (skip_slashes path)) eqn:El; [done|]. by apply last_None in El.
Qed.

(** * Opening a file *)

Context (fresh : ufs_file_context).

Lemma free_file_ok (t : ufs_fs D K) v k2 :
  km_free sizeof_file_context v (fs_memory t) = Done (Ok tt) k2 →
  free_file v t = Done tt (mk_fs (fs_um t) (delete v (fs_files t)) (fs_directories t) k2).
Proof.
  intros Hfr. unfold free_file. unfold bind at 1. unfold or_panic, on_kernel. unfold bind at 1, zoom.
  by rewrite Hfr.
Qed.

(** What the caller of [ufs_op_file_open] gets, with the file context in it. *)
Definition opened (path : list Z) : result ufs2_inode :=
  match resolve path with
  | Err e => Err e
  | Ok n => if UFS_INODE_FTYPE (the_inode n) =? UFS_FTYPE_REGULAR then Ok (the_inode n)
            else Err ERROR_WRONG_KIND
  end.

Lemma file_open_ok fuel path (t : ufs_fs D K) v k1 k2 :
  tree_ok → (∀ n ents, dirs !! n = Some ents → (length ents < fuel)%nat) → mounted (fs_um t) →
  path_chars path → (∀ n, resolve path = Ok n → 0 ≤ n < 2 ^ 32 ∧ fsbn_ok (inode_fsbn n)) →
  km_alloc sizeof_file_context (fs_memory t) = Done (Ok v) k1 →
  km_free sizeof_file_context v k1 = Done (Ok tt) k2 →
  ∃ u, mounted u ∧
    ufs_op_file_open big sd_bsize fresh fuel path t =
      match opened path with
      | Ok i => Done (Ok v) (mk_fs u (<[v := mk_fc i (f_block fresh)]> (fs_files t))
                  (fs_directories t) k1)
      | Err e => Done (Err e) (mk_fs u (delete v (fs_files t)) (fs_directories t) k2)
      end.
Proof.
  intros T Hfuel M Hp Hn Hal Hfr. destruct t as [um files directories k]. cbn [fs_um fs_memory] in *.
  destruct (lookup_ok fuel path um T Hfuel M Hp) as (u&Hl&Mu).
  unfold ufs_op_file_open, opened. unfold bind_ok at 1. unfold bind at 1. unfold on_kernel at 1, zoom at 1.
  cbn [fs_memory]. rewrite Hal. unfold bind at 1. unfold put_file at 1, modify at 1.
  unfold bind at 1. unfold on_um at 1, zoom at 1. cbn [fs_um set_files set_fs_memory fs_files fs_memory].
  rewrite Hl. destruct (resolve path) as [n|e] eqn:Hr.
  - destruct (Hn n eq_refl) as [Hn1 Hn2]. destruct (read_inode_ok u n Mu Hn1 Hn2) as (u1&Hri&Mu1&_).
    exists u1. split; [done|]. unfold bind at 1. unfold on_um at 1, zoom at 1. cbn [fs_um set_um].
    rewrite Hri. unfold bind at 1. unfold put_file, modify.
    cbn [set_um set_files fs_um fs_files fs_directories fs_memory]. rewrite insert_insert_eq.
    destruct (UFS_INODE_FTYPE (the_inode n) =? UFS_FTYPE_REGULAR); cbn [negb]; [done|].
    unfold bind at 1. rewrite (free_file_ok _ _ k2) by done.
    cbn. by rewrite delete_insert_eq.
  - exists u. split; [done|]. unfold bind at 1. rewrite (free_file_ok _ _ k2) by done.
    cbn. by rewrite delete_insert_eq.
Qed.

Lemma swapped_mode n : swap = true → fsbn_ok (inode_fsbn n) → in_mode (the_inode n) = 0.
Proof.
  intros Hs Hf. unfold the_inode. rewrite Hs. pose proof bsize_bounds as Hbs. destruct (so_bshift Hsb).
  assert (2 ^ (sb_bshift sb - 8) * 256 = bsize) as E8
    by (unfold bsize; change 256 with (2 ^ 8); rewrite <-Z.pow_add_r by lia; f_equal; lia).
  pose proof (Z.mod_pos_bound n (2 ^ (sb_bshift sb - 8)) ltac:(lia)).
  rewrite swap_inode; [done|apply Forall_slice, blk_bytes|]. unfold inode_bytes.
  rewrite length_slice; [done|lia|lia|]. rewrite length_blk by done. lia.
Qed.

(** * The theorems *)

(** C29: A path leads where the entries of the directories say: [ufs_lookup] gives
    the inode found by looking up the names of the path in turn, and the same
    errors.  Repeated slashes and a slash at the end change nothing, except
    that what is before a slash must be a directory. *)
Theorem ufs_lookup_correct fuel path s :
  tree_ok → (∀ n ents, dirs !! n = Some ents → (length ents < fuel)%nat) → mounted s →
  path_chars path →
  ∃ s', ufs_lookup big sd_bsize fuel path s = Done (resolve path) s' ∧ mounted s'.
Proof. apply lookup_ok. Qed.

(** C32: A read gives the bytes of the file that the inode and the medium say, as
    many as asked for up to the end of the block and of the file; at the end
    it gives none, past it an error, and in a hole too.  It changes only the
    buffer of the context.  It panics in a part of the file that needs a
    second level of indirect blocks. *)
Theorem ufs_file_read_correct (t : ufs_fs D K) fc f off len :
  mounted (fs_um t) → fs_files t !! fc = Some f → inode_ok (f_in f) →
  length (f_block f) = Z.to_nat UFS_MAX_BSIZE → 0 ≤ off < 2 ^ 63 → 0 ≤ len < 2 ^ 64 →
  wp (ufs_op_file_read big sd_bsize fc off len)
    (λ r t', mounted (fs_um t') ∧ um_dc (fs_um t') = um_dc (fs_um t) ∧
       (∃ b, length b = length (f_block f) ∧
          fs_files t' = <[fc := mk_fc (f_in f) b]> (fs_files t)) ∧
       fs_directories t' = fs_directories t ∧ fs_memory t' = fs_memory t ∧ reads (f_in f) off len r)
    (λ w, off < in_size (f_in f) ∧ mappable_blocks ≤ off / bsize ∧
       w = Panic "using untested indirect block handling code!") t.
Proof. apply file_read_ok. Qed.

(** Opening a path gives a context with the inode it leads to if that is a
    regular file; every other outcome gives its error and the memory of the
    context back. *)
Theorem ufs_file_open_correct fuel path (t : ufs_fs D K) v k1 k2 :
  tree_ok → (∀ n ents, dirs !! n = Some ents → (length ents < fuel)%nat) → mounted (fs_um t) →
  path_chars path → (∀ n, resolve path = Ok n → 0 ≤ n < 2 ^ 32 ∧ fsbn_ok (inode_fsbn n)) →
  km_alloc sizeof_file_context (fs_memory t) = Done (Ok v) k1 →
  km_free sizeof_file_context v k1 = Done (Ok tt) k2 →
  ∃ u, mounted u ∧
    ufs_op_file_open big sd_bsize fresh fuel path t =
      match opened path with
      | Ok i => Done (Ok v) (mk_fs u (<[v := mk_fc i (f_block fresh)]> (fs_files t))
                  (fs_directories t) k1)
      | Err e => Done (Err e) (mk_fs u (delete v (fs_files t)) (fs_directories t) k2)
      end.
Proof. apply file_open_ok. Qed.

(** A medium in the other byte order mounts, and paths resolve on it, but it
    has no files: [ufs_inode_swap] loses the mode, and no path can be
    opened. *)
Theorem ufs_swapped_no_files fuel path (t : ufs_fs D K) v k1 k2 n :
  swap = true → tree_ok → (∀ n ents, dirs !! n = Some ents → (length ents < fuel)%nat) →
  mounted (fs_um t) → path_chars path → resolve path = Ok n → 0 ≤ n < 2 ^ 32 →
  fsbn_ok (inode_fsbn n) →
  km_alloc sizeof_file_context (fs_memory t) = Done (Ok v) k1 →
  km_free sizeof_file_context v k1 = Done (Ok tt) k2 →
  ∃ t', ufs_op_file_open big sd_bsize fresh fuel path t = Done (Err ERROR_WRONG_KIND) t'.
Proof.
  intros Hs T Hfuel M Hp Hr Hn Hf Hal Hfr.
  destruct (file_open_ok fuel path t v k1 k2 T Hfuel M Hp) as (u&_&E); [|done..|].
  { rewrite Hr. by intros ? [= <-]. }
  rewrite E. unfold opened. rewrite Hr. unfold UFS_INODE_FTYPE. rewrite swapped_mode by done. by eexists.
Qed.
End medium.

(** * Mounting *)

Section mounting.
Context (big : bool) {D : Type} `{BlockDevice D} (sd_bsize : Z) (img : list Z).
Implicit Types (s : ufs_mount D).

(** The superblock that may be at [o], read in a byte order. *)
Definition superblock_at (order : bool) (o : Z) : ufs_superblock := superblock_of order (slice o 1376 img).
Definition unrecognised (magic : Z) : Prop :=
  magic ∉ [UFS_SUPERBLOCK_MAGIC1; UFS_SUPERBLOCK_SWAP1; UFS_SUPERBLOCK_MAGIC2; UFS_SUPERBLOCK_SWAP2].

Lemma swap_magic b :
  Forall is_byte b → (1376 ≤ length b)%nat →
  sb_magic (superblock_of (negb big) b) = UFS_SUPERBLOCK_MAGIC2 →
  sb_magic (superblock_of big b) = UFS_SUPERBLOCK_SWAP2.
Proof.
  intros Hb Hl Hm. rewrite <-(negb_involutive big), <-(swap_superblock (negb big) b Hb Hl).
  cbn [sb_magic ufs_superblock_swap]. rewrite Hm. by vm_compute.
Qed.

Lemma offset_cases o :
  o ∈ [65536; 8192; 0; 262144] → 0 ≤ o ∧ (∃ d, o = d * 8192) ∧ o =? -1 = false.
Proof.
  rewrite !elem_of_cons. intros [->|[->|[->|[->|?%elem_of_nil]]]]; [| | | |done];
    split_and!; try done; [by exists 8|by exists 1|by exists 0|by exists 32].
Qed.

Lemma superblock_read_ok s o :
  medium sd_bsize img → 8192 mod sd_bsize = 0 → length (um_iblock s) = Z.to_nat UFS_MAX_BSIZE →
  o ∈ [65536; 8192; 0; 262144] → o + 8192 ≤ Z.of_nat (length img) →
  ∃ b, device_read sd_bsize (um_iblock s) UFS_SUPERBLOCK_SIZE o s = Done (b, Ok tt) s ∧
    length b = Z.to_nat UFS_MAX_BSIZE ∧ slice 0 1376 b = slice o 1376 img.
Proof.
  intros Hm Hbs Hl Ho Hi. exists (slice o 8192 img ++ drop (Z.to_nat 8192) (um_iblock s)).
  destruct (md_bsize _ _ Hm) as (k&Hk&Hk2). assert (sd_bsize ≠ 0) as Hnz by lia.
  apply Z.mod_divide in Hbs as [c Hc]; [|done].
  destruct (offset_cases o Ho) as (Ho0&(d&Hd)&_).
  assert (length (slice o 8192 img) = Z.to_nat 8192) as Hls by (apply length_slice; lia).
  split; [|split].
  - unfold device_read, zoom. rewrite (storage_device_read_outcome sd_bsize img); [|done|..].
    + rewrite decide_True; [by destruct s|]. unfold UFS_SUPERBLOCK_SIZE.
      split; apply Z.mod_divide; try done; [by exists c|exists (d * c); by rewrite Hd, Hc, Z.mul_assoc].
    + unfold UFS_SUPERBLOCK_SIZE. lia.
    + done.
    + unfold UFS_SUPERBLOCK_SIZE, UFS_MAX_BSIZE in *. lia.
    + done.
  - rewrite length_app, length_drop, Hl, Hls. unfold UFS_MAX_BSIZE. lia.
  - unfold slice at 1. rewrite drop_0, take_app_le by lia.
    change (take (Z.to_nat 1376) (slice o 8192 img)) with (slice 0 1376 (slice o 8192 img)).
    by rewrite slice_slice, Z.add_0_r by lia.
Qed.

(** The loop over the offsets, up to the first superblock. *)
Lemma superblock_loop_ok order pre o post : ∀ s,
  medium sd_bsize img → 8192 mod sd_bsize = 0 → length (um_iblock s) = Z.to_nat UFS_MAX_BSIZE →
  um_flags s = UFS_MOUNT_DEFAULT → pre ++ [o] ⊆ [65536; 8192; 0; 262144] →
  Forall (λ o', o' + 8192 ≤ Z.of_nat (length img)) (pre ++ [o]) →
  Forall (λ o', unrecognised (sb_magic (superblock_at big o'))) pre →
  sb_magic (superblock_at order o) = UFS_SUPERBLOCK_MAGIC2 → sb_bshift (superblock_at order o) ≤ 16 →
  ∃ s', superblock_loop big sd_bsize (pre ++ o :: post) s = Done (Ok tt) s' ∧ um_sboff s' = o ∧
    um_sb s' = superblock_at order o ∧ flag_set (um_flags s') UFS_MOUNT_SWAP = xorb big order ∧
    length (um_iblock s') = Z.to_nat UFS_MAX_BSIZE ∧ um_dc s' = um_dc s.
Proof.
  induction pre as [|o' pre IH]; intros s Hm Hbs Hl Hfl Hin Hlen Hun Hmag Hbsh; cbn [app] in *.
  - apply Forall_cons in Hlen as [Hlen _]. assert (o ∈ [65536; 8192; 0; 262144]) as Ho by set_solver.
    destruct (offset_cases o Ho) as (Ho0&_&Ho1).
    destruct (superblock_read_ok s o Hm Hbs Hl Ho Hlen) as (b&Hr&Hlb&Hsl).
    cbn [superblock_loop]. rewrite Ho1. unfold bind at 1, get at 1. unfold bind at 1. rewrite Hr.
    unfold bind at 1, modify at 1. cbn [fst snd]. rewrite Hsl. fold (superblock_at big o).
    unfold bind at 1, modify at 1. set (s1 := set_sb _ _ _).
    assert (order = big ∨ order = negb big) as [->| ->] by (destruct order, big; auto).
    + rewrite Hmag. cbn [orb Z.eqb]. change (UFS_SUPERBLOCK_MAGIC2 =? UFS_SUPERBLOCK_MAGIC1) with false.
      change (UFS_SUPERBLOCK_MAGIC2 =? UFS_SUPERBLOCK_SWAP1) with false.
      change (UFS_SUPERBLOCK_MAGIC2 =? UFS_SUPERBLOCK_SWAP2) with false. rewrite Z.eqb_refl. cbn [orb].
      unfold bind at 1, ret at 1. unfold bind at 1, get at 1. cbn [um_sb s1 set_sb].
      change (LOG2 UFS_MAX_BSIZE) with 16. rewrite (proj2 (Z.ltb_ge 16 _)) by done.
      eexists. split; [reflexivity|]. cbn. rewrite Hfl, xorb_nilpotent. by split_and!.
    + assert (sb_magic (superblock_at big o) = UFS_SUPERBLOCK_SWAP2) as ->.
      { apply swap_magic; [apply Forall_slice, (md_bytes _ _ Hm)| |done]. rewrite length_slice; lia. }
      change (UFS_SUPERBLOCK_SWAP2 =? UFS_SUPERBLOCK_MAGIC1) with false.
      change (UFS_SUPERBLOCK_SWAP2 =? UFS_SUPERBLOCK_SWAP1) with false.
      change (UFS_SUPERBLOCK_SWAP2 =? UFS_SUPERBLOCK_MAGIC2) with false. rewrite Z.eqb_refl. cbn [orb].
      unfold bind at 1, modify at 1. unfold bind at 1, get at 1. cbn [um_sb set_sb].
      unfold superblock_at. rewrite swap_superblock; [|apply Forall_slice, (md_bytes _ _ Hm)|rewrite length_slice; lia].
      fold (superblock_at (negb big) o).
      change (LOG2 UFS_MAX_BSIZE) with 16. rewrite (proj2 (Z.ltb_ge 16 _)) by done.
      eexists. split; [reflexivity|]. cbn. rewrite Hfl. split_and!; try done. by destruct big.
  - apply Forall_cons in Hlen as [Hlen Hlens]. apply Forall_cons in Hun as [Hun Huns].
    assert (o' ∈ [65536; 8192; 0; 262144]) as Ho by set_solver.
    destruct (offset_cases o' Ho) as (Ho0&_&Ho1).
    destruct (superblock_read_ok s o' Hm Hbs Hl Ho Hlen) as (b&Hr&Hlb&Hsl).
    cbn [superblock_loop]. rewrite Ho1. unfold bind at 1, get at 1. unfold bind at 1. rewrite Hr.
    unfold bind at 1, modify at 1. cbn [fst snd]. rewrite Hsl. fold (superblock_at big o').
    unfold bind at 1, modify at 1. set (s1 := set_sb _ _ _).
    unfold unrecognised in Hun. rewrite !not_elem_of_cons in Hun. destruct Hun as (H1&H2&H3&H4&_).
    rewrite !(proj2 (Z.eqb_neq _ _)) by done. cbn [orb].
    apply (IH s1); try done. set_solver.
Qed.

Lemma read_superblock_ok order pre o post s :
  medium sd_bsize img → 8192 mod sd_bsize = 0 → length (um_iblock s) = Z.to_nat UFS_MAX_BSIZE →
  um_flags s = UFS_MOUNT_DEFAULT → [65536; 8192; 0; 262144] = pre ++ o :: post →
  Forall (λ o', o' + 8192 ≤ Z.of_nat (length img)) (pre ++ [o]) →
  Forall (λ o', unrecognised (sb_magic (superblock_at big o'))) pre →
  sb_magic (superblock_at order o) = UFS_SUPERBLOCK_MAGIC2 → sb_bshift (superblock_at order o) ≤ 16 →
  ∃ s', ufs_read_superblock big sd_bsize s = Done (Ok tt) s' ∧ um_sboff s' = o ∧
    um_sb s' = superblock_at order o ∧ flag_set (um_flags s') UFS_MOUNT_SWAP = xorb big order ∧
    length (um_iblock s') = Z.to_nat UFS_MAX_BSIZE ∧ um_dc s' = um_dc s.
Proof.
  intros Hm Hbs Hl Hfl Hoff Hlen Hun Hmag Hbsh.
  destruct (superblock_loop_ok order pre o (post ++ [-1]) s) as (s'&Hr&Hb&Hrest); try done.
  { rewrite Hoff. set_solver. }
  exists s'. split; [|done]. unfold ufs_read_superblock, bind_ok, bind.
  assert (UFS_SUPERBLOCK_OFFSETS = pre ++ o :: post ++ [-1]) as ->.
  { change UFS_SUPERBLOCK_OFFSETS with ([65536; 8192; 0; 262144] ++ [-1]). by rewrite Hoff, <-app_assoc. }
  rewrite Hr. unfold get. destruct (offset_cases o) as (_&_&Ho1); [rewrite Hoff; set_solver|].
  by rewrite Hb, Ho1.
Qed.
Context {K : Type} `{KernelMemory K} {F : Type} `{FileSystems F}.

(** [ufs_mount] registers the file system of the first superblock, at the
    offsets in their order, whichever byte order it has; the mount is then in
    the state the operations need. *)
Theorem ufs_mount_correct order pre o post (fresh : ufs_mount D) sdev (h : fs_host (ufs_mount D) K F) v k f :
  medium sd_bsize img → 8192 mod sd_bsize = 0 →
  length (um_iblock fresh) = Z.to_nat UFS_MAX_BSIZE →
  length (d_block (um_dc fresh)) = Z.to_nat UFS_MAX_BSIZE →
  [65536; 8192; 0; 262144] = pre ++ o :: post →
  Forall (λ o', o' + 8192 ≤ Z.of_nat (length img)) (pre ++ [o]) →
  Forall (λ o', unrecognised (sb_magic (superblock_at big o'))) pre →
  sb_magic (superblock_at order o) = UFS_SUPERBLOCK_MAGIC2 → sb_bshift (superblock_at order o) ≤ 16 →
  km_alloc sizeof_mount (uh_memory h) = Done (Ok v) k →
  fs_register "ufs0" v (uh_fs h) = Done (Ok tt) f →
  ∃ um, mount_ufs big sd_bsize fresh sdev h = Done (Ok tt) (mk_host (<[v := um]> (uh_mounts h)) k f) ∧
    um_sboff um = o ∧ mounted (superblock_at order o) (xorb big order) um.
Proof.
  intros Hm Hbs Hi Hd Ho Hl Hu Hmag Hbsh Hal Hreg.
  set (um0 := mk_mount UFS_MOUNT_DEFAULT (-1) (um_sb fresh) (um_dc fresh) (um_iblock fresh) sdev).
  destruct (read_superblock_ok order pre o post um0) as (um&Hr&Hoff&Hsb&Hsw&Hib&Hdc); try done.
  exists um. split; [|split; [done|split; [done|done|done|by rewrite Hdc]]].
  by apply (mount_with_ok _ _ _ _ (Ok tt) um h v k Hal Hr).
Qed.
End mounting.
