(* ===== verification/UfsExample.v ===== *)
(** A small UFS2 medium, on which the theorems of [Ufs.v] are applied.

    The root holds the file [a] and the directory [d], and [d] the file [x],
    which is the same file: five bytes.  Blocks have 1024 bytes.  The image
    comes in both byte orders, and the machine is big endian. *)

From S2P Require Import Prelude MachineInt Storage Paths Ufs.

Local Open Scope Z_scope.

(** * The image *)

Section image.
Context (order : bool).

Definition int_bytes (w : nat) (x : Z) : list Z := if order then be_split w x else reverse (be_split w x).
Definition put_int (o : Z) (w : nat) (x : Z) (img : list Z) : list Z := write_at o (int_bytes w x) img.

Definition superblock_image : list Z :=
  put_int 0x55c 4 UFS_SUPERBLOCK_MAGIC2 (put_int 0x438 8 72 (put_int 0x3e8 8 65536 (put_int 0xbc 4 70
    (put_int 0xb8 4 64 (put_int 0x64 4 1 (put_int 0x54 4 10 (put_int 0x50 4 10 (put_int 0x10 4 1
    (replicate (Z.to_nat 8192) 0))))))))).
Definition inode_image (mode size block : Z) : list Z :=
  put_int 0x70 8 block (put_int 0x10 8 size (put_int 0 2 mode (replicate (Z.to_nat 256) 0))).
Definition dirent_image (inode entrylen type : Z) (name : list Z) : list Z :=
  let b := int_bytes 4 inode ++ int_bytes 2 entrylen ++ [type; Z.of_nat (length name)] ++ name in
  b ++ replicate (Z.to_nat entrylen - length b) 0.

(** The blocks from 1 on: inodes 0-3, inode 4, the root, the file, [d]. *)
Definition image : list Z :=
  replicate (Z.to_nat 1536) 0 ++ inode_image 0x4000 1024 3 ++ inode_image 0x8000 5 4 ++
  inode_image 0x4000 1024 5 ++ replicate (Z.to_nat 768) 0 ++
  (dirent_image 2 12 4 [46] ++ dirent_image 3 12 8 [97] ++ dirent_image 4 1000 4 [100]) ++
  ([104; 101; 108; 108; 111] ++ replicate (Z.to_nat 1019) 0) ++
  (dirent_image 4 12 4 [46] ++ dirent_image 3 1012 8 [120]) ++
  replicate (Z.to_nat 59392) 0 ++ superblock_image.
End image.

Definition example_sb : ufs_superblock := mk_superblock 1 10 10 1 64 70 65536 72 UFS_SUPERBLOCK_MAGIC2.
Definition example_dirs : gmap Z (list (ufs_directory_entry * list Z)) :=
  {[ 2 := [(mk_dirent 2 12 4 1, [46]); (mk_dirent 3 12 8 1, [97]); (mk_dirent 4 1000 4 1, [100])];
     4 := [(mk_dirent 4 12 4 1, [46]); (mk_dirent 3 1012 8 1, [120])] ]}.
Definition example_disk (order : bool) : BlockDevice unit := disk_blocks 512 (image order).

Definition zero_inode : ufs2_inode := mk_inode 0 0 [] [].
Definition zero_dc : ufs_directory_context :=
  mk_dc zero_inode (mk_dirent 0 0 0 0) (replicate (Z.to_nat UFS_MAX_BSIZE) 0) [].
Definition zero_fc : ufs_file_context := mk_fc zero_inode (replicate (Z.to_nat UFS_MAX_BSIZE) 0).
Definition zero_mount : ufs_mount unit :=
  mk_mount 0 0 (mk_superblock 0 0 0 0 0 0 0 0 0) zero_dc (replicate (Z.to_nat UFS_MAX_BSIZE) 0) tt.
(** As [ufs_mount] leaves it, on a medium of the order. *)
Definition example_mount (order : bool) : ufs_mount unit :=
  mk_mount (if order then 0 else UFS_MOUNT_SWAP) 65536 example_sb zero_dc
    (replicate (Z.to_nat UFS_MAX_BSIZE) 0) tt.

(** Memory that is always there. *)
#[local] Instance example_memory : KernelMemory unit :=
  {| km_alloc _ := ret (Ok 4096); km_free _ _ := ret (Ok tt) |}.
#[local] Instance example_systems : FileSystems (list (string * Z)) :=
  {| fs_register name c := bind get (λ l, bind (put (l ++ [(name, c)])) (λ _, ret (Ok tt))) |}.
Definition example_fs (order : bool) : ufs_fs unit unit := mk_fs (example_mount order) ∅ ∅ tt.

(** * It is a file system *)

Definition direct1 (f : Z) : list Z := f :: replicate 11 0.
Definition plain_mode (order : bool) (m : Z) : Z := if order then m else 0.

Definition is_byte_b (b : Z) : bool := (0 <=? b) && (b <? 256).

Lemma bytes_check l : forallb is_byte_b l = true → Forall is_byte l.
Proof.
  intros Hl. apply Forall_forall. intros b Hb.
  pose proof (proj1 (forallb_forall _ _) Hl b (proj1 (list_elem_of_In _ _) Hb)) as E.
  apply andb_prop in E as [?%Z.leb_le ?%Z.ltb_lt]. by split.
Qed.

Section example.
Context (order : bool).
Notation swap := (negb order).

Lemma example_length : Z.of_nat (length (image order)) = 73728.
Proof. by destruct order; vm_compute. Qed.

Lemma example_sb_ok : @sb_ok unit (example_disk order) 512 (image order) example_sb.
Proof.
  split; [|rewrite example_length; lia|split; by vm_compute|repeat split; by vm_compute|done].
  apply disk_medium; [by exists 9|]. apply bytes_check. by destruct order; vm_compute.
Qed.

Lemma example_mounted : mounted example_sb swap (example_mount order).
Proof. split; [done|by destruct order|apply length_replicate..]. Qed.

Lemma example_inodes :
  the_inode true (image order) example_sb swap 2 = mk_inode (plain_mode order 0x4000) 1024 (direct1 3) [0; 0; 0] ∧
  the_inode true (image order) example_sb swap 3 = mk_inode (plain_mode order 0x8000) 5 (direct1 4) [0; 0; 0] ∧
  the_inode true (image order) example_sb swap 4 = mk_inode (plain_mode order 0x4000) 1024 (direct1 5) [0; 0; 0].
Proof. by destruct order; vm_compute. Qed.

Lemma example_inode_ok mode size f :
  0 ≤ size < 2 ^ 63 → 1 ≤ f < 72 →
  inode_ok true (image order) example_sb swap (mk_inode mode size (direct1 f) [0; 0; 0]).
Proof.
  intros Hs Hf. split; try done. intros lb g Hlb. unfold file_block. cbn [in_direct in_indirect].
  change (nonzero (u64 ([0; 0; 0] !!! 0%nat))) with (@None Z). unfold UFS_INODE_NDIRECT.
  destruct (Z.ltb_spec lb 12) as [Hl|Hl]; [|done]. destruct (decide (lb = 0)) as [->|Hne].
  - change (direct1 f !!! Z.to_nat 0) with f. rewrite u64_small by lia. unfold nonzero.
    rewrite (proj2 (Z.eqb_neq f 0)) by lia. intros [= <-]. split; [lia|]. rewrite example_length.
    change (2 ^ sb_fshift example_sb) with 1024. change (bsize example_sb) with 1024. lia.
  - unfold direct1. destruct (Z.to_nat lb) as [|n] eqn:En; [lia|].
    assert ((replicate 11 0 : list Z) !!! n = 0) as E.
    { apply list_lookup_total_correct. apply lookup_replicate. lia. }
    change ((f :: replicate 11 0) !!! S n) with ((replicate 11 0 : list Z) !!! n). by rewrite E.
Qed.

#[local] Ltac entry b := apply (dir_entry _ _ _ _ _ _ b);
  [split; by vm_compute|by vm_compute|by vm_compute|by vm_compute|by vm_compute
  |by destruct order; vm_compute|by destruct order; vm_compute
  |repeat (constructor; [by vm_compute|]); constructor|done|].

Lemma example_entries mode :
  dir_entries true (image order) example_sb swap (mk_inode mode 1024 (direct1 3) [0; 0; 0]) 0
    [(mk_dirent 2 12 4 1, [46]); (mk_dirent 3 12 8 1, [97]); (mk_dirent 4 1000 4 1, [100])] ∧
  dir_entries true (image order) example_sb swap (mk_inode mode 1024 (direct1 5) [0; 0; 0]) 0
    [(mk_dirent 4 12 4 1, [46]); (mk_dirent 3 1012 8 1, [120])].
Proof. split; [entry 3; entry 3; entry 3|entry 5; entry 5]; apply dir_end. Qed.

Lemma example_dirs_cases n ents (P : Prop) :
  example_dirs !! n = Some ents →
  (n = 2 → ents = [(mk_dirent 2 12 4 1, [46]); (mk_dirent 3 12 8 1, [97]); (mk_dirent 4 1000 4 1, [100])] → P) →
  (n = 4 → ents = [(mk_dirent 4 12 4 1, [46]); (mk_dirent 3 1012 8 1, [120])] → P) → P.
Proof.
  intros Hd H2 H4. unfold example_dirs in Hd.
  apply lookup_insert_Some in Hd as [[<- <-]|[_ [<- <-]%lookup_singleton_Some]]; auto.
Qed.

Lemma example_tree : tree_ok true (image order) example_sb swap example_dirs.
Proof.
  destruct example_inodes as (E2&_&E4). split; [by eexists| |].
  - intros n ents Hd. apply (example_dirs_cases _ _ _ Hd); intros -> ->.
    all: rewrite ?E2, ?E4; split; [lia|split; [split; [by vm_compute|rewrite example_length; by vm_compute]|]].
    all: split; [apply example_inode_ok; lia|apply example_entries].
  - intros n ents de name Hd. apply (example_dirs_cases _ _ _ Hd); intros -> ->.
    all: intros He Hty; repeat (apply elem_of_cons in He as [[= -> ->]|He];
      [first [discriminate Hty|by eexists]|]); by apply elem_of_nil in He.
Qed.

Lemma example_fuel n ents : example_dirs !! n = Some ents → (length ents < 4)%nat.
Proof. intros Hd. apply (example_dirs_cases _ _ _ Hd); intros -> ->; simpl; lia. Qed.
End example.

(** * The theorems on it *)

(** [/./d//x] is inode 3. *)
Definition path_x : list Z := [47; 46; 47; 100; 47; 47; 120].
Lemma path_x_chars : path_chars path_x.
Proof. repeat (constructor; [by vm_compute|]). constructor. Qed.

Lemma ufs_lookup_correct_witness :
  ∃ s', ufs_lookup (H:=example_disk true) true 512 4 path_x (example_mount true) = Done (Ok 3) s' ∧ mounted example_sb false s'.
Proof.
  apply (ufs_lookup_correct (H:=example_disk true) true 512 (image true) example_sb false (example_sb_ok true) example_dirs 4
    path_x (example_mount true) (example_tree true) example_fuel (example_mounted true) path_x_chars).
Defined.

(** Three bytes of the file from its second. *)
Definition opened_fs : ufs_fs unit unit :=
  mk_fs (example_mount true)
    {[ 4096 := mk_fc (mk_inode 0x8000 5 (direct1 4) [0; 0; 0]) (f_block zero_fc) ]} ∅ tt.

Lemma ufs_file_read_correct_witness :
  match ufs_op_file_read (H:=example_disk true) true 512 4096 1 3 opened_fs with
  | Done r _ => r = Ok [101; 108; 108] ∧
      reads true (image true) example_sb false (mk_inode 0x8000 5 (direct1 4) [0; 0; 0]) 1 3 r
  | Stop _ => False
  end.
Proof.
  assert (match ufs_op_file_read (H:=example_disk true) true 512 4096 1 3 opened_fs with
          | Done r _ => r = Ok [101; 108; 108] | Stop _ => False end) as E by (vm_compute; reflexivity).
  pose proof (ufs_file_read_correct (H:=example_disk true) true 512 (image true) example_sb false (example_sb_ok true)
    opened_fs 4096 (mk_fc (mk_inode 0x8000 5 (direct1 4) [0; 0; 0]) (f_block zero_fc)) 1 3
    (example_mounted true) eq_refl (example_inode_ok true 0x8000 5 4 ltac:(lia) ltac:(lia))
    ltac:(apply length_replicate) ltac:(lia) ltac:(lia)) as Hw.
  unfold wp in Hw. destruct (ufs_op_file_read (H:=example_disk true) true 512 4096 1 3 opened_fs); [|destruct E].
  split; [exact E|apply Hw].
Defined.

Lemma ufs_file_open_correct_witness :
  ∃ u, mounted example_sb false u ∧
    ufs_op_file_open (H:=example_disk true) true 512 zero_fc 4 path_x (example_fs true) =
      Done (Ok 4096) (mk_fs u {[ 4096 := mk_fc (mk_inode 0x8000 5 (direct1 4) [0; 0; 0]) (f_block zero_fc) ]} ∅ tt).
Proof.
  destruct (ufs_file_open_correct (H:=example_disk true) true 512 (image true) example_sb false (example_sb_ok true) example_dirs
    zero_fc 4 path_x (example_fs true) 4096 tt tt (example_tree true) example_fuel (example_mounted true)
    path_x_chars) as (u&Mu&Hu); [| reflexivity..|].
  - change (resolve example_dirs path_x) with (@Ok Z 3). intros n [= <-].
    split; [lia|split; [by vm_compute|]]. rewrite example_length. by vm_compute.
  - exists u. split; [exact Mu|]. rewrite Hu. unfold opened.
    change (resolve example_dirs path_x) with (@Ok Z 3). cbn iota beta.
    pose proof (proj1 (proj2 (example_inodes true))) as E. cbn [negb] in E. rewrite E. reflexivity.
Defined.

(** On the other image the path resolves, but is no file. *)
Lemma ufs_swapped_no_files_witness :
  ∃ t', ufs_op_file_open (H:=example_disk false) true 512 zero_fc 4 path_x (example_fs false) = Done (Err ERROR_WRONG_KIND) t'.
Proof.
  apply (ufs_swapped_no_files (H:=example_disk false) true 512 (image false) example_sb true (example_sb_ok false) example_dirs
    zero_fc 4 path_x (example_fs false) 4096 tt tt 3 eq_refl (example_tree false) example_fuel
    (example_mounted false) path_x_chars); try reflexivity; [lia|].
  split; [by vm_compute|]. rewrite example_length. by vm_compute.
Defined.

(** The image with the other byte order mounts. *)
Lemma ufs_mount_correct_witness :
  ∃ um, mount_ufs (H:=example_disk false) true 512 zero_mount tt (mk_host ∅ tt []) =
      Done (Ok tt) (mk_host {[ 4096 := um ]} tt [("ufs0"%string, 4096)]) ∧
    um_sboff um = 65536 ∧ mounted example_sb true um.
Proof.
  assert (superblock_at (image false) false 65536 = example_sb) as E by (vm_compute; reflexivity).
  rewrite <-E. apply (ufs_mount_correct (H:=example_disk false) true 512 (image false) false [] 65536 [8192; 0; 262144]).
  - apply (so_medium _ _ _ (example_sb_ok false)).
  - reflexivity.
  - apply length_replicate.
  - apply length_replicate.
  - reflexivity.
  - repeat constructor. rewrite example_length. lia.
  - constructor.
  - rewrite E. reflexivity.
  - rewrite E. cbn. lia.
  - reflexivity.
  - reflexivity.
Defined.

(** * A directory read after a lookup *)

(** The second entry of the root, with something done between the two
    calls. *)
Definition second_entry (between : M (ufs_fs unit unit) unit) :
    M (ufs_fs unit unit) (result (Z * option (list Z))) :=
  bind_ok (ufs_op_directory_open (H:=example_disk true) true 512 zero_dc 4 [47]) (λ dc,
  bind_ok (ufs_op_directory_read (H:=example_disk true) true 512 dc 0) (λ x,
  bind between (λ _, ufs_op_directory_read (H:=example_disk true) true 512 dc x.1))).
Definition result_of {S A} (o : outcome S A) : option A := match o with Done a _ => Some a | Stop _ => None end.

(** Lookups and directory reads share the buffer of the mount, and only an
    offset at the start of a block reads it again: opening [/d/x] between two
    reads of the root gives [x] as an entry of the root. *)
Example ufs_directory_read_stale :
  result_of (second_entry (ret tt) (example_fs true)) = Some (Ok (24, Some [97])) ∧
  result_of (second_entry (bind (ufs_op_file_open (H:=example_disk true) true 512 zero_fc 4 path_x) (λ _, ret tt)) (example_fs true)) =
    Some (Ok (1024, Some [120])).
Proof. split; vm_compute; reflexivity. Qed.
