(* ===== verification/Tarfs.v ===== *)
(** The tar file system ([mk/io/storage/tarfs/tarfs_mount.c]).

    An archive is a sequence of headers, each followed by the data of its
    file in whole blocks.  Paths are compared by their components; a hard link
    is opened by opening the name it holds, with the names of nested links one
    behind the other in a buffer of the mount.

    The theorems: a path is split into its components and no name is written
    past the array; a lookup finds the first header with the path's
    components; opening follows links, ends, and gives back all memory but the
    context it returns; reads give the bytes of the file; and a directory read
    gives its children in the order of the archive. *)

From S2P Require Import Prelude MachineInt CString Storage Paths.

Local Open Scope Z_scope.
Local Open Scope c_scope.

Definition TARFS_BSIZE : Z := 512.
Definition TARFS_MAX_NAME_LENGTH : Z := 100.
Definition TARFS_MAX_NAME_COMPONENTS : Z := TARFS_MAX_NAME_LENGTH / 2.

(** * Headers

    A [struct tar_header] is its 500 bytes. *)

Notation tar_header := (list Z) (only parsing).
Definition sizeof_tar_header : Z := 500.
Definition th_name (h : tar_header) : list Z := slice 0 100 h.
Definition th_size (h : tar_header) : list Z := slice 124 12 h.
Definition th_typeflag (h : tar_header) : Z := h !!! 156%nat.
Definition th_linkname (h : tar_header) : list Z := slice 157 100 h.
Definition th_magic (h : tar_header) : list Z := slice 257 6 h.

(** The loop of [tar_header_decode]; [fieldlen] is the length of the rest. *)
Fixpoint decode_loop (fieldval : Z) (field : list Z) : option Z :=
  match field with
  | [] => Some fieldval
  | b :: field =>
      if b =? 32 then Some fieldval
      else if (b <? 48) || (57 <? b) then None
      else decode_loop (Z.lor (u64 (fieldval * 8)) (b - 48)) field
  end.
Definition tar_header_decode (field : list Z) : option Z := decode_loop 0 field.

Definition tar_header_magic : list Z := [117; 115; 116; 97; 114; 0].
Definition tar_header_magic_zero : list Z := [0; 0; 0; 0; 0; 0].

(** * Paths

    [tp_names] holds the places in [tp_path] of the first [tp_namecnt] names,
    [tp_namecnt] being their number. *)

Record tarfs_path := mk_path { tp_path : list Z; tp_names : list nat }.
Definition tp_namecnt (tp : tarfs_path) : Z := Z.of_nat (length (tp_names tp)).
Definition tp_name (tp : tarfs_path) (i : nat) : option (list Z) :=
  o ← tp_names tp !! i; string_of (drop o (tp_path tp)).

(** The slashes at the beginning of a string. *)
Fixpoint slashes (l : list Z) : nat :=
  match l with c :: l => if c =? 47 then S (slashes l) else O | [] => O end.

(** [strchr], as the distance; it needs a slash or a null. *)
Fixpoint find_slash (l : list Z) : option (option nat) :=
  match l with
  | [] => None
  | c :: l => if c =? 0 then Some None else if c =? 47 then Some (Some O) else option_map (option_map S) (find_slash l)
  end.

(** The loop of [tarfs_split_path] from offset [p]. *)
Fixpoint split_loop (fuel : nat) (p : nat) : M tarfs_path unit :=
  match fuel with
  | O => halt OutOfFuel
  | S fuel =>
      tp <- get ;;
      c <- deref "tp_path" (tp_path tp !! p) ;;
      if c =? 0 then ret tt
      else
        let p := (p + slashes (drop p (tp_path tp)))%nat in
        c <- deref "tp_path" (tp_path tp !! p) ;;
        if c =? 0 then ret tt
        else
          q <- deref "strchr" (find_slash (drop p (tp_path tp))) ;;
          match q with
          | Some k => put (mk_path (<[(p + k)%nat := 0]> (tp_path tp)) (tp_names tp))
          | None => ret tt
          end ;;;
          tp <- get ;;
          name <- deref "string in tp_path" (string_of (drop p (tp_path tp))) ;;
          (if chars_cmp name [46] =? 0 then ret tt
           else if tp_namecnt tp <? TARFS_MAX_NAME_COMPONENTS
           then put (mk_path (tp_path tp) (tp_names tp ++ [p]))
           else halt (Undefined "write past tp_names")) ;;;
          match q with
          | None => ret tt
          | Some k => split_loop fuel (p + k + 1)
          end
  end.

(** [path] is the string at the argument. *)
Definition tarfs_split_path (path : list Z) : M tarfs_path (result unit) :=
  tp <- get ;;
  put (mk_path (write_at 0 (truncated TARFS_MAX_NAME_LENGTH path) (tp_path tp)) (tp_names tp)) ;;;
  if TARFS_MAX_NAME_LENGTH <=? Z.of_nat (length path) then ret (Err ERROR_INVALID)
  else
    tp <- get ;;
    put (mk_path (tp_path tp) []) ;;;
    split_loop (S (length (tp_path tp))) 0 ;;;
    ret (Ok tt).

(** * A mounted archive *)

Record tarfs_file_context := mk_context {
  f_header : tar_header;
  f_daddr : Z;
  f_dsize : Z;
  f_path : tarfs_path
}.

Section tarfs.
Context {D : Type} `{BlockDevice D} (sd_bsize : Z).

Record tarfs_mount := mk_mount {
  tm_flags : Z;
  tm_block : list Z;
  tm_header : tar_header;
  tm_match : tarfs_path;
  tm_linkbuf : list Z;
  tm_linklen : Z;
  tm_sdev : D
}.
Definition set_sdev (d : D) (s : tarfs_mount) : tarfs_mount :=
  mk_mount (tm_flags s) (tm_block s) (tm_header s) (tm_match s) (tm_linkbuf s) (tm_linklen s) d.
Definition set_block (b : list Z) (s : tarfs_mount) : tarfs_mount :=
  mk_mount (tm_flags s) b (tm_header s) (tm_match s) (tm_linkbuf s) (tm_linklen s) (tm_sdev s).
Definition set_header (h : tar_header) (s : tarfs_mount) : tarfs_mount :=
  mk_mount (tm_flags s) (tm_block s) h (tm_match s) (tm_linkbuf s) (tm_linklen s) (tm_sdev s).
Definition set_match (m : tarfs_path) (s : tarfs_mount) : tarfs_mount :=
  mk_mount (tm_flags s) (tm_block s) (tm_header s) m (tm_linkbuf s) (tm_linklen s) (tm_sdev s).
Definition set_linkbuf (b : list Z) (s : tarfs_mount) : tarfs_mount :=
  mk_mount (tm_flags s) (tm_block s) (tm_header s) (tm_match s) b (tm_linklen s) (tm_sdev s).
Definition set_linklen (n : Z) (s : tarfs_mount) : tarfs_mount :=
  mk_mount (tm_flags s) (tm_block s) (tm_header s) (tm_match s) (tm_linkbuf s) n (tm_sdev s).

Definition TARFS_MOUNT_DEFAULT : Z := 0x00000000.

(** [storage_device_read(tm->tm_sdev, tm->tm_block, sizeof tm->tm_block, off)] *)
Definition read_tm_block (off : Z) : M tarfs_mount (result unit) :=
  s <- get ;;
  r <- zoom tm_sdev set_sdev (storage_device_read sd_bsize (tm_block s) TARFS_BSIZE (signed 64 off)) ;;
  modify (set_block r.1) ;;;
  ret r.2.

(** [eofp]: whether it is not null; the result is [*eofp]. *)
Definition tarfs_read_header (offset : Z) (eofp : bool) : M tarfs_mount (result bool) :=
  if negb (offset mod TARFS_BSIZE =? 0) then ret (Err ERROR_INVALID)
  else
    read_tm_block offset ?;;
    modify (λ s, set_header (slice 0 sizeof_tar_header (tm_block s)) s) ;;;
    s <- get ;;
    if negb (bool_decide (th_magic (tm_header s) = tar_header_magic)) then
      if bool_decide (th_magic (tm_header s) = tar_header_magic_zero) then
        if eofp then ret (Ok true) else ret (Err ERROR_NOT_FOUND)
      else ret (Err ERROR_INVALID)
    else ret (Ok false).

(** The loop over the names. *)
Fixpoint match_names (n i : nat) (a b : tarfs_path) : option bool :=
  match n with
  | O => Some true
  | S n =>
      x ← tp_name a i; y ← tp_name b i;
      if negb (chars_cmp x y =? 0) then Some false else match_names n (S i) a b
  end.

(** [name] is the memory from the name's address on. *)
Definition tarfs_lookup_match (path : tarfs_path) (name : list Z) (children : bool) : M tarfs_mount bool :=
  l <- deref "string in tm_header" (string_of name) ;;
  r <- zoom tm_match set_match (tarfs_split_path l) ;;
  match r with
  | Err _ => ret false
  | Ok _ =>
      s <- get ;;
      let cnt := tp_namecnt (tm_match s) in
      if (if children then (cnt =? 0) || negb (cnt - 1 =? tp_namecnt path)
          else negb (cnt =? tp_namecnt path))
      then ret false
      else deref "names" (match_names (length (tp_names path)) 0 (tm_match s) path)
  end.

(** Skip header block and data size. *)
Definition tar_roundup (x : Z) : Z := u64 (ROUNDUP x TARFS_BSIZE).
Definition next_header (offset dsize : Z) : Z := u64 (offset + u64 (TARFS_BSIZE + tar_roundup dsize)).

Fixpoint tarfs_lookup_loop (fuel : nat) (offset : Z) (fc : tarfs_file_context) :
    M tarfs_mount (tarfs_file_context * result unit) :=
  match fuel with
  | O => halt OutOfFuel
  | S fuel =>
      r <- tarfs_read_header offset false ;;
      match r with
      | Err e => ret (fc, Err e)
      | Ok _ =>
          s <- get ;;
          match tar_header_decode (th_size (tm_header s)) with
          | None => ret (fc, Err ERROR_INVALID)
          | Some dsize =>
              b <- tarfs_lookup_match (f_path fc) (tm_header s) false ;;
              if negb b then tarfs_lookup_loop fuel (next_header offset dsize) fc
              else
                s <- get ;;
                ret (mk_context (tm_header s) (u64 (offset + TARFS_BSIZE)) dsize (f_path fc), Ok tt)
          end
      end
  end.

(** [fc] before and after. *)
Definition tarfs_lookup (fuel : nat) (path : list Z) (fc : tarfs_file_context) :
    M tarfs_mount (tarfs_file_context * result unit) :=
  match path with
  | c :: _ =>
      if negb (c =? 47) then ret (fc, Err ERROR_INVALID)
      else match tarfs_split_path path (f_path fc) with
      | Stop w => halt w
      | Done r tp =>
          let fc := mk_context (f_header fc) (f_daddr fc) (f_dsize fc) tp in
          match r with
          | Err e => ret (fc, Err e)
          | Ok _ => tarfs_lookup_loop fuel 0 fc
          end
      end
  | [] => ret (fc, Err ERROR_INVALID)
  end.

(** * The operations ([tarfs_fs_ops])

    As in Ufs.v, contexts live in memory of the interface [KernelMemory]; one
    structure serves files and directories. *)

Context {K : Type} `{KernelMemory K} (fresh : tarfs_file_context).
(** [sizeof (struct tarfs_file_context)] *)
Definition sizeof_context : Z := 504 + 16 + (104 + 8 * TARFS_MAX_NAME_COMPONENTS + 8) + PAGE_SIZE.

Record tarfs_fs := mk_fs {
  fs_tm : tarfs_mount;
  fs_contexts : gmap Z tarfs_file_context;
  fs_memory : K
}.
Definition set_tm (m : tarfs_mount) (s : tarfs_fs) : tarfs_fs := mk_fs m (fs_contexts s) (fs_memory s).
Definition set_contexts (f : gmap Z tarfs_file_context) (s : tarfs_fs) : tarfs_fs :=
  mk_fs (fs_tm s) f (fs_memory s).
Definition set_fs_memory (k : K) (s : tarfs_fs) : tarfs_fs := mk_fs (fs_tm s) (fs_contexts s) k.
Definition on_tm {A} (m : M tarfs_mount A) : M tarfs_fs A := zoom fs_tm set_tm m.
Definition on_kernel {A} (m : M K A) : M tarfs_fs A := zoom fs_memory set_fs_memory m.
Definition put_context (v : Z) (fc : tarfs_file_context) : M tarfs_fs unit :=
  modify (λ s, set_contexts (<[v := fc]> (fs_contexts s)) s).
Definition free_context (v : Z) : M tarfs_fs unit :=
  or_panic "vm_free failed" (on_kernel (km_free sizeof_context v)) ;;;
  modify (λ s, set_contexts (delete v (fs_contexts s)) s).

(** The link's name put behind those of the links that led to it. *)
Definition copy_linkname (l : list Z) (s : tarfs_mount) : tarfs_mount :=
  set_linkbuf (write_at (tm_linklen s) (truncated (PAGE_SIZE - tm_linklen s) l) (tm_linkbuf s)) s.

(** [depth] bounds the links, [fuel] the headers. *)
Fixpoint tarfs_op_file_open (depth fuel : nat) (name : list Z) : M tarfs_fs (result Z) :=
  match depth with
  | O => halt OutOfFuel
  | S depth =>
      vaddr <-? on_kernel (km_alloc sizeof_context) ;;
      put_context vaddr fresh ;;;
      r <- on_tm (tarfs_lookup fuel name fresh) ;;
      put_context vaddr r.1 ;;;
      match r.2 with
      | Err e => free_context vaddr ;;; ret (Err e)
      | Ok _ =>
          let h := f_header r.1 in
          if th_typeflag h =? 48 then ret (Ok vaddr)
          else if th_typeflag h =? 49 then
            if bool_decide (0 ∉ th_linkname h) then free_context vaddr ;;; ret (Err ERROR_INVALID)
            else
              s <- get ;;
              let linklen := tm_linklen (fs_tm s) in
              assert_ (linklen <=? PAGE_SIZE) "Must be in buffer bounds." ;;;
              l <- deref "string in th_linkname" (string_of (th_linkname h)) ;;
              on_tm (modify (copy_linkname l)) ;;;
              let linkuse := Z.of_nat (length l) in
              if PAGE_SIZE - linklen <=? linkuse then free_context vaddr ;;; ret (Err ERROR_INVALID)
              else
                free_context vaddr ;;;
                s <- get ;;
                linkname <- deref "string in tm_linkbuf"
                  (string_of (drop (Z.to_nat linklen) (tm_linkbuf (fs_tm s)))) ;;
                let linkname := if chars_cmp (take 2 linkname) [46; 47] =? 0 then drop 1 linkname
                                else linkname in
                on_tm (modify (λ s, set_linklen (u64 (tm_linklen s + linkuse)) s)) ;;;
                r <- tarfs_op_file_open depth fuel linkname ;;
                on_tm (modify (λ s, set_linklen (u64 (tm_linklen s - linkuse)) s)) ;;;
                ret r
          else free_context vaddr ;;; ret (Err ERROR_WRONG_KIND)
      end
  end.

(** The bytes put into the caller's buffer; [len] is [*lenp] at the call. *)
Definition tarfs_op_file_read (fc off len : Z) : M tarfs_fs (result (list Z)) :=
  s <- get ;;
  f <- deref "struct tarfs_file_context" (fs_contexts s !! fc) ;;
  let offset := u32 (Z.rem off TARFS_BSIZE) in
  let address := u64 (off - offset) in
  if f_dsize f <? u64 off then ret (Err ERROR_INVALID)
  else if u64 off =? f_dsize f then ret (Ok [])
  else
    on_tm (read_tm_block (u64 (f_daddr f + address))) ?;;
    let n := MIN (MIN len (u32 (TARFS_BSIZE - offset))) (u64 (f_dsize f - u64 off)) in
    s <- get ;;
    b <- bytes_of offset n (tm_block (fs_tm s)) ;;
    ret (Ok b).

Definition tarfs_op_file_close (fc : Z) : M tarfs_fs (result unit) :=
  free_context fc ;;; ret (Ok tt).

Definition tarfs_op_directory_open (fuel : nat) (name : list Z) : M tarfs_fs (result Z) :=
  vaddr <-? on_kernel (km_alloc sizeof_context) ;;
  put_context vaddr fresh ;;;
  r <- on_tm (tarfs_lookup fuel name fresh) ;;
  put_context vaddr r.1 ;;;
  match r.2 with
  | Err e => free_context vaddr ;;; ret (Err e)
  | Ok _ =>
      if negb (th_typeflag (f_header r.1) =? 53) then free_context vaddr ;;; ret (Err ERROR_WRONG_KIND)
      else ret (Ok vaddr)
  end.

(** The loop: whether there is another child; then it is in [tm_match]. *)
Fixpoint directory_loop (fuel : nat) (offset skip : Z) (dc : tarfs_path) : M tarfs_mount (result bool) :=
  match fuel with
  | O => halt OutOfFuel
  | S fuel =>
      eof <-? tarfs_read_header offset true ;;
      if eof : bool then ret (Ok false)
      else
        s <- get ;;
        match tar_header_decode (th_size (tm_header s)) with
        | None => ret (Err ERROR_INVALID)
        | Some dsize =>
            b <- tarfs_lookup_match dc (tm_header s) true ;;
            if b && (skip =? 0) then ret (Ok true)
            else directory_loop fuel (next_header offset dsize) (if b : bool then skip - 1 else skip) dc
        end
  end.

(** The next offset and the name of the entry, if there is one. *)
Definition tarfs_op_directory_read (fuel : nat) (dc off : Z) :
    M tarfs_fs (result (Z * option (list Z))) :=
  s <- get ;;
  d <- deref "struct tarfs_file_context" (fs_contexts s !! dc) ;;
  found <-? on_tm (directory_loop fuel (u64 (f_daddr d + tar_roundup (f_dsize d))) (u64 off) (f_path d)) ;;
  if negb (found : bool) then ret (Ok (0, None))
  else
    s <- get ;;
    let m := tm_match (fs_tm s) in
    if tp_namecnt m =? 0 then ret (Err ERROR_INVALID)
    else
      name <- deref "tp_names" (tp_name m (length (tp_names m) - 1)) ;;
      ret (Ok (off + 1, Some (take (Z.to_nat (FS_NAME_MAX - 1)) name))).

Definition tarfs_op_directory_close (dc : Z) : M tarfs_fs (result unit) :=
  free_context dc ;;; ret (Ok tt).

(** * [tarfs_mount] *)

Context {F : Type} `{FileSystems F}.
(** [sizeof (struct tarfs_mount)] *)
Definition sizeof_mount : Z :=
  16 + TARFS_BSIZE + 504 + (104 + 8 * TARFS_MAX_NAME_COMPONENTS + 8) + 8 + PAGE_SIZE + 8 + PAGE_SIZE.

(** [tarfs_mount()]; [fresh_mount] is what the memory held. *)
Definition mount_tarfs (fresh_mount : tarfs_mount) (sdev : D) :
    M (fs_host tarfs_mount K F) (result unit) :=
  mount_with sizeof_mount "ufs0"
    (mk_mount TARFS_MOUNT_DEFAULT (tm_block fresh_mount) (tm_header fresh_mount) (tm_match fresh_mount)
      (tm_linkbuf fresh_mount) 0 sdev)
    (_ <-? tarfs_read_header 0 false ;; ret (Ok tt)).
End tarfs.
Arguments tarfs_mount : clear implicits.
Arguments tarfs_fs : clear implicits.

(** * Splitting paths *)

(** The names of a path that are not ".". *)
Definition components (p : list Z) : list (list Z) := filter (λ x, x ≠ [46]) (names p).

(** The split path has the names. *)
Definition split_into (tp : tarfs_path) (l : list (list Z)) : Prop :=
  length (tp_path tp) = Z.to_nat TARFS_MAX_NAME_LENGTH ∧
  Forall2 (λ o s, string_of (drop o (tp_path tp)) = Some s) (tp_names tp) l.

Lemma string_of_more l x s : string_of l = Some s → string_of (l ++ x) = Some s.
Proof.
  revert s. induction l as [|b l IH]; intros s; [done|]. cbn [string_of app].
  destruct (b =? 0); [done|]. destruct (string_of l) as [t|]; [|done]. by rewrite (IH t).
Qed.

Lemma string_of_drop_more o pre x s :
  string_of (drop o pre) = Some s → string_of (drop o (pre ++ x)) = Some s.
Proof.
  intros Hs. destruct (decide (o ≤ length pre)%nat).
  - rewrite drop_app_le by done. by apply string_of_more.
  - by rewrite drop_ge in Hs by lia.
Qed.

Lemma slashes_skip l : l = replicate (slashes l) 47 ++ skip_slashes l.
Proof.
  induction l as [|c l IH]; [done|]. cbn [slashes skip_slashes].
  destruct (Z.eqb_spec c 47) as [->|]; [|done]. cbn. by rewrite <-IH.
Qed.
Lemma slashes_more l junk : slashes (l ++ 0 :: junk) = slashes l.
Proof. induction l as [|c l IH]; [done|]. cbn [slashes app]. by rewrite IH. Qed.

Lemma find_slash_component p junk :
  path_chars p →
  find_slash (p ++ 0 :: junk) =
    Some (match drop (length (component p)) p with [] => None | _ => Some (length (component p)) end).
Proof.
  induction p as [|c p IH]; intros Hp; [done|]. apply Forall_cons in Hp as [Hc Hp].
  cbn [find_slash app component]. rewrite (proj2 (Z.eqb_neq c 0)) by lia.
  destruct (Z.eqb_spec c 47); [done|]. rewrite IH by done. cbn [length drop]. by destruct (drop _ p).
Qed.

Lemma components_skip p : components (skip_slashes p) = components p.
Proof. unfold components. by rewrite names_skip. Qed.

Lemma components_cons r :
  skip_slashes r = r → r ≠ [] →
  component r ≠ [] ∧ components r = (if decide (component r = [46]) then [] else [component r]) ++
    components (drop (length (component r)) r).
Proof.
  intros Hs Hr. destruct (names_cons r Hs Hr) as [Hc Hn]. split; [done|]. unfold components. rewrite Hn.
  case_decide as Hd; [by rewrite filter_cons_False by (by intros [])|by rewrite filter_cons_True].
Qed.
Lemma components_slash p : components (47 :: p) = components p.
Proof. rewrite <-components_skip. cbn [skip_slashes]. apply components_skip. Qed.

(** One name: pushed unless it is ".". *)
Definition push (p : nat) (name : list Z) (offs : list nat) : list nat :=
  if decide (name = [46]) then offs else offs ++ [p].

Lemma push_ok p name pre x offs l :
  string_of (drop p pre) = Some name →
  Forall2 (λ o s, string_of (drop o pre) = Some s) offs l →
  Forall2 (λ o s, string_of (drop o (pre ++ x)) = Some s) (push p name offs)
    (l ++ if decide (name = [46]) then [] else [name]).
Proof.
  intros Hn Hl. assert (Forall2 (λ o s, string_of (drop o (pre ++ x)) = Some s) offs l) as Hl'.
  { eapply Forall2_impl; [done|]. intros o s. apply string_of_drop_more. }
  unfold push. destruct (decide (name = [46])); [by rewrite app_nil_r|]. apply Forall2_app; [done|].
  apply Forall2_cons. split; [by apply string_of_drop_more|done].
Qed.

Lemma push_run p name tp :
  (length (tp_names tp) < 50)%nat → path_chars name →
  (if chars_cmp name [46] =? 0 then ret tt
   else if tp_namecnt tp <? TARFS_MAX_NAME_COMPONENTS
   then put (mk_path (tp_path tp) (tp_names tp ++ [p]))
   else halt (Undefined "write past tp_names")) tp =
  Done tt (mk_path (tp_path tp) (push p name (tp_names tp))).
Proof.
  intros Hn Hc. assert (chars_cmp name [46] = 0 ↔ name = [46]) as Hdot
    by (apply chars_cmp_eq; [done|by repeat constructor]).
  unfold push. destruct (Z.eqb_spec (chars_cmp name [46]) 0) as [E|E].
  - rewrite decide_True by (by apply Hdot). by destruct tp.
  - rewrite decide_False by (by intros ?%Hdot). unfold tp_namecnt.
    rewrite (proj2 (Z.ltb_lt _ _)); [done|]. change TARFS_MAX_NAME_COMPONENTS with 50. lia.
Qed.

Lemma split_loop_ok fuel : ∀ pre rest junk offs l,
  path_chars rest → (length rest < fuel)%nat → (2 * length offs ≤ length pre)%nat →
  (length pre + length rest ≤ 99)%nat →
  Forall2 (λ o s, string_of (drop o pre) = Some s) offs l →
  ∃ tp, split_loop fuel (length pre) (mk_path (pre ++ rest ++ 0 :: junk) offs) = Done tt tp ∧
    length (tp_path tp) = length (pre ++ rest ++ 0 :: junk) ∧
    Forall2 (λ o s, string_of (drop o (tp_path tp)) = Some s) (tp_names tp) (l ++ components rest).
Proof.
  induction fuel as [|fuel IH]; intros pre rest junk offs l Hc Hf Hn Hlen Hl; [lia|].
  cbn [split_loop]. unfold bind at 1, get at 1. unfold bind at 1, deref at 1. cbn [tp_path tp_names].
  assert (∀ x, Forall2 (λ o s, string_of (drop o (pre ++ x)) = Some s) offs l) as Hmore.
  { intros x. eapply Forall2_impl; [done|]. intros o s. apply string_of_drop_more. }
  destruct (decide (rest = [])) as [->|Hne].
  { cbn [app]. rewrite list_lookup_middle by done. cbn. eexists. split; [done|]. split; [done|].
    cbn. rewrite app_nil_r. apply Hmore. }
  set (k := slashes rest). set (r := skip_slashes rest).
  assert (rest = replicate k 47 ++ r) as Er by apply slashes_skip.
  assert (path_chars r) as Hcr by (unfold path_chars in Hc; rewrite Er in Hc; by apply Forall_app in Hc as [_ ?]).
  rewrite drop_app_length, slashes_more. fold k.
  assert (∃ c, (pre ++ rest ++ 0 :: junk) !! length pre = Some c ∧ c ≠ 0) as (c&->&Hc0).
  { destruct rest as [|c rest]; [done|]. exists c. apply Forall_cons in Hc as [Hc _].
    cbn [app]. rewrite list_lookup_middle by done. split; [done|lia]. }
  unfold ret at 1. rewrite (proj2 (Z.eqb_neq c 0)) by done. cbv zeta. unfold bind at 1, deref at 1.
  set (pre' := pre ++ replicate k 47).
  assert (length pre + k = length pre')%nat as -> by (unfold pre'; by rewrite length_app, length_replicate).
  assert (pre ++ rest ++ 0 :: junk = pre' ++ r ++ 0 :: junk) as -> by (unfold pre'; by rewrite Er, <-!app_assoc).
  destruct (decide (r = [])) as [E|Hr].
  { rewrite E. cbn [app]. rewrite list_lookup_middle by done. cbn. eexists. split; [done|]. split; [done|]. cbn [tp_path tp_names].
    rewrite <-components_skip. fold r. rewrite E. cbn. rewrite app_nil_r. unfold pre'. rewrite <-app_assoc. apply Hmore. }
  assert (∃ c', (pre' ++ r ++ 0 :: junk) !! length pre' = Some c' ∧ c' ≠ 0) as (c'&->&Hc0').
  { destruct r as [|c' r']; [done|]. exists c'. apply Forall_cons in Hcr as [Hc' _].
    cbn [app]. rewrite list_lookup_middle by done. split; [done|lia]. }
  unfold ret at 1. rewrite (proj2 (Z.eqb_neq c' 0)) by done. rewrite drop_app_length.
  unfold bind at 1, deref at 1. rewrite find_slash_component by done. unfold ret at 1.
  destruct (components_cons r) as [Hcomp Ecomp]; [apply skip_slashes_idem|done|].
  destruct (component_rest r) as (Er2&Htail&_). set (name := component r) in *.
  set (t := drop (length name) r) in *.
  assert (path_chars name ∧ path_chars t) as [Hcn Hct] by (by apply Forall_app; rewrite <-Er2).
  assert (length rest = k + length name + length t)%nat as Hlr
    by (rewrite Er, length_app, length_replicate, Er2, length_app; lia).
  assert (1 ≤ length name)%nat as Hn1 by (destruct name; [done|simpl; lia]).
  assert (length pre' = length pre + k)%nat as Hlp by (unfold pre'; by rewrite length_app, length_replicate).
  assert (∀ x, string_of (drop (length pre') (pre' ++ name ++ 0 :: x)) = Some name) as Hstr
    by (intros x; rewrite drop_app_length; by apply string_of_app).
  assert (components rest = components r) as -> by (symmetry; apply components_skip).
  assert (Forall2 (λ o s, string_of (drop o pre') = Some s) offs l) as Hl' by apply Hmore.
  clearbody name t. set (pre2 := pre' ++ name ++ [0]).
  assert (string_of (drop (length pre') pre2) = Some name) as Hstr2 by apply (Hstr []).
  assert (∀ x, pre' ++ name ++ 0 :: x = pre2 ++ x) as Hassoc
    by (intros x; unfold pre2; by rewrite <-!app_assoc).
  assert (Forall2 (λ o s, string_of (drop o pre2) = Some s) offs l) as Hl2.
  { eapply Forall2_impl; [exact Hl'|]. intros o s. apply string_of_drop_more. }
  assert (length pre2 = length pre' + length name + 1)%nat as Hlp2
    by (unfold pre2; rewrite !length_app; cbn [length]; lia).
  rewrite Ecomp, Er2. destruct Htail as [Et|[t' Et]].
  - rewrite Et, app_nil_r. unfold bind at 1, ret at 1. unfold bind at 1, get at 1. cbn [tp_path].
    unfold bind at 1, deref at 1. rewrite Hstr. unfold ret at 1. unfold bind at 1.
    rewrite push_run by (done || cbn; lia). eexists. split; [done|]. split; [done|].
    cbn [tp_path tp_names]. change (components []) with (@nil (list Z)). rewrite app_nil_r, Hassoc.
    by apply push_ok.
  - rewrite Et in Hct, Hlr. apply Forall_cons in Hct as [_ Hct]. cbn [length] in Hlr.
    destruct (IH pre2 t' junk (push (length pre') name offs) (l ++ if decide (name = [46]) then [] else [name]))
      as (tp&Hrun&Htl&Htf); [done|lia| |lia| |].
    { unfold push. case_decide; rewrite ?length_app; cbn [length]; lia. }
    { pose proof (push_ok (length pre') name pre2 [] offs l Hstr2 Hl2) as Hp. by rewrite app_nil_r in Hp. }
    exists tp. rewrite Et, components_slash, (app_assoc l). split; [|split; [|done]].
    2:{ rewrite Htl, <-!Hassoc, !length_app. cbn [length]. rewrite !length_app. cbn [length]. lia. }
    unfold bind at 1, put at 1. unfold bind at 1, get at 1. cbn [tp_path tp_names].
    assert (<[(length pre' + length name)%nat := 0]> (pre' ++ (name ++ 47 :: t') ++ 0 :: junk) =
      pre' ++ name ++ 0 :: t' ++ 0 :: junk) as ->.
    { rewrite insert_app_r, <-app_assoc. f_equal. rewrite <-(Nat.add_0_r (length name)).
      by rewrite insert_app_r. }
    unfold bind at 1, deref at 1. rewrite Hstr. unfold ret at 1. unfold bind at 1.
    rewrite push_run by (done || cbn; lia). cbn [tp_path tp_names]. by rewrite Hassoc, <-Hlp2.
Qed.

Lemma split_path_ok path tp :
  path_chars path → length (tp_path tp) = Z.to_nat TARFS_MAX_NAME_LENGTH →
  ∃ tp', tarfs_split_path path tp =
      Done (if decide (length path < 100)%nat then Ok tt else Err ERROR_INVALID) tp' ∧
    length (tp_path tp') = Z.to_nat TARFS_MAX_NAME_LENGTH ∧
    ((length path < 100)%nat → split_into tp' (components path)).
Proof.
  intros Hc Hl. unfold tarfs_split_path. unfold bind at 1, get at 1. unfold bind at 1, put at 1.
  unfold split_into. change (Z.to_nat TARFS_MAX_NAME_LENGTH) with 100%nat in *.
  set (buf := write_at 0 (truncated TARFS_MAX_NAME_LENGTH path) (tp_path tp)).
  assert (length (truncated TARFS_MAX_NAME_LENGTH path) ≤ 100)%nat as Htr.
  { unfold truncated. rewrite length_app, length_take. cbn [length].
    change (Z.to_nat (TARFS_MAX_NAME_LENGTH - 1)) with 99%nat. lia. }
  assert (length buf = 100%nat) as Hbl by (unfold buf; rewrite length_write_at; lia).
  case_decide as Hp.
  - rewrite (proj2 (Z.leb_gt _ _)) by (unfold TARFS_MAX_NAME_LENGTH; lia).
    unfold bind at 1, get at 1. cbn [tp_path]. unfold bind at 1, put at 1.
    assert (buf = [] ++ path ++ 0 :: drop (S (length path)) (tp_path tp)) as Hbuf.
    { unfold buf, write_at, truncated. change (Z.to_nat (TARFS_MAX_NAME_LENGTH - 1)) with 99%nat.
      rewrite (take_ge path) by lia. cbn [Z.to_nat take app Nat.add]. rewrite length_app, <-app_assoc.
      cbn [length app]. by rewrite Nat.add_1_r. }
    destruct (split_loop_ok (S (length buf)) [] path (drop (S (length path)) (tp_path tp)) [] [])
      as (tp'&Hr&Htl&Htf); [done|lia|cbn; lia|cbn; lia|constructor|].
    rewrite <-Hbuf in Hr, Htl. change (length []) with 0%nat in Hr. unfold bind. rewrite Hr. exists tp'.
    rewrite Htl. by split_and!.
  - rewrite (proj2 (Z.leb_le _ _)) by (unfold TARFS_MAX_NAME_LENGTH; lia).
    eexists. split; [done|]. split; [done|lia].
Qed.

Lemma pieces_chars p : path_chars p → Forall path_chars (pieces p).
Proof.
  unfold path_chars. induction 1 as [|c p Hc Hp IH]; [by constructor|]. cbn [pieces].
  destruct (c =? 47); [by constructor|]. destruct (pieces p) as [|x l]; [by apply Forall_singleton, Forall_singleton|].
  apply Forall_cons in IH as [? ?]. constructor; [by constructor|done].
Qed.
Lemma components_chars p : path_chars p → Forall path_chars (components p).
Proof.
  intros Hp. pose proof (pieces_chars p Hp) as Hf. rewrite Forall_forall in Hf |- *.
  intros x Hx. apply list_elem_of_filter in Hx as [_ Hx]. apply list_elem_of_filter in Hx as [_ Hx]. auto.
Qed.

(** * Comparing names *)

Lemma tp_name_ok tp l i x : split_into tp l → l !! i = Some x → tp_name tp i = Some x.
Proof.
  intros [_ Hl] Hi. unfold tp_name.
  destruct (Forall2_lookup_r _ _ _ _ _ Hl Hi) as (o&->&Ho). exact Ho.
Qed.
Lemma split_into_length tp l : split_into tp l → length (tp_names tp) = length l.
Proof. intros [_ Hl]. by eapply Forall2_length. Qed.

Lemma match_names_ok a b la lb n : ∀ i,
  split_into a la → split_into b lb → Forall path_chars la → Forall path_chars lb →
  (i + n ≤ length la)%nat → (i + n ≤ length lb)%nat →
  match_names n i a b = Some (bool_decide (take n (drop i la) = take n (drop i lb))).
Proof.
  induction n as [|n IH]; intros i Ha Hb Hca Hcb Hla Hlb; [done|]. cbn [match_names].
  destruct (lookup_lt_is_Some_2 la i) as [x Hx]; [lia|]. destruct (lookup_lt_is_Some_2 lb i) as [y Hy]; [lia|].
  rewrite (tp_name_ok a la i x), (tp_name_ok b lb i y) by done. cbn [mbind option_bind].
  assert (chars_cmp x y = 0 ↔ x = y) as Hxy
    by (apply chars_cmp_eq; [exact (Forall_lookup_1 _ _ _ _ Hca Hx)|exact (Forall_lookup_1 _ _ _ _ Hcb Hy)]).
  rewrite (drop_S la x i), (drop_S lb y i) by done. cbn [take].
  destruct (Z.eqb_spec (chars_cmp x y) 0) as [E|E]; cbn [negb].
  - apply Hxy in E as ->. rewrite IH by (done || lia). f_equal. apply bool_decide_ext.
    split; [by intros ->|by intros [=]].
  - rewrite bool_decide_false; [done|]. intros [= ? _]. by apply E, Hxy.
Qed.

(** * The archive on the medium *)

(** A header with the place and the size of its data. *)
Record entry := mk_entry { en_header : tar_header; en_daddr : Z; en_size : Z }.

(** The string at the name of a header. *)
Definition en_name (e : entry) : list Z := default [] (string_of (en_header e)).

(** The entry has the components, or it has one more. *)
Definition named (l : list (list Z)) (name : list Z) : bool :=
  bool_decide (length name < 100)%nat && bool_decide (components name = l).
Definition child_of (l : list (list Z)) (name : list Z) : bool :=
  bool_decide (length name < 100)%nat &&
  bool_decide (length (components name) = S (length l) ∧ take (length l) (components name) = l).

Lemma decode_nonneg v l x : 0 ≤ v → decode_loop v l = Some x → 0 ≤ x.
Proof.
  revert v. induction l as [|b l IH]; intros v Hv; cbn [decode_loop]; [by intros [= <-]|].
  destruct (b =? 32); [by intros [= <-]|]. destruct (Z.ltb_spec b 48); [done|].
  destruct (57 <? b); [done|]. cbn [orb]. apply IH. apply Z.lor_nonneg.
  pose proof (wrap_range 64 (v * 8)) as [? ?]; [lia|]. split; [done|lia].
Qed.

Lemma slice_elem {A} o n (l : list A) x : x ∈ slice o n l → x ∈ l.
Proof.
  intros Hx. rewrite <-(take_drop (Z.to_nat o) l), elem_of_app. right.
  rewrite <-(take_drop (Z.to_nat n) (drop _ l)), elem_of_app. by left.
Qed.

Lemma string_of_spec l : 0 ∈ l →
  ∃ s rest, l = s ++ 0 :: rest ∧ string_of l = Some s ∧ Forall (λ b, b ≠ 0) s.
Proof.
  induction l as [|b l IH]; [by intros ?%elem_of_nil|]. intros Hin. cbn [string_of].
  destruct (Z.eqb_spec b 0) as [->|Hb]; [by exists [], l|].
  apply elem_of_cons in Hin as [<-|Hin]; [done|]. destruct (IH Hin) as (s&rest&->&->&Hs).
  exists (b :: s), rest. split_and!; [done|done|by constructor].
Qed.

Section archive.
Context {D : Type} `{BlockDevice D} (sd_bsize : Z) (img : list Z).
Implicit Types (s : tarfs_mount D).

Record image_ok : Prop := {
  ig_medium : medium sd_bsize img;
  ig_bsize : TARFS_BSIZE mod sd_bsize = 0;
  ig_length : Z.of_nat (length img) < 2 ^ 63
}.

Definition header_at (off : Z) : tar_header := slice off sizeof_tar_header img.
Definition block_at (off : Z) : Prop :=
  0 ≤ off ∧ off mod TARFS_BSIZE = 0 ∧ off + TARFS_BSIZE ≤ Z.of_nat (length img).

(** The entries from an offset to the end of the archive. *)
Inductive archive : Z → list entry → Prop :=
| archive_end off :
    block_at off → th_magic (header_at off) = tar_header_magic_zero → archive off []
| archive_entry off size rest :
    block_at off → th_magic (header_at off) = tar_header_magic →
    tar_header_decode (th_size (header_at off)) = Some size →
    archive (off + TARFS_BSIZE + ROUNDUP size TARFS_BSIZE) rest →
    archive off (mk_entry (header_at off) (off + TARFS_BSIZE) size :: rest).

(** The buffers of a mount, and those of the links unchanged. *)
Record ready s : Prop := {
  rd_block : length (tm_block s) = Z.to_nat TARFS_BSIZE;
  rd_match : length (tp_path (tm_match s)) = Z.to_nat TARFS_MAX_NAME_LENGTH;
  rd_linkbuf : length (tm_linkbuf s) = Z.to_nat PAGE_SIZE;
  rd_linklen : 0 ≤ tm_linklen s < PAGE_SIZE
}.
Definition same_links s s' : Prop := tm_linkbuf s' = tm_linkbuf s ∧ tm_linklen s' = tm_linklen s.

Context (Hig : image_ok).

Lemma archive_block off ents : archive off ents → block_at off.
Proof. by intros []. Qed.

Lemma read_tm_block_ok s off :
  length (tm_block s) = Z.to_nat TARFS_BSIZE → block_at off →
  read_tm_block sd_bsize off s = Done (Ok tt) (set_block (slice off TARFS_BSIZE img) s).
Proof.
  intros Hl (Ho&Hm&Hi). pose proof (ig_length Hig) as Hlen. unfold read_tm_block.
  unfold bind at 1, get at 1. unfold bind, zoom, modify, ret. unfold TARFS_BSIZE in *.
  assert (signed 64 off = off) as ->.
  { unfold signed. rewrite (wrap_small 64) by (split; lia). by rewrite decide_True by lia. }
  pose proof (ig_medium Hig) as Hmed. destruct (md_bsize _ _ Hmed) as (k&Hk&Hs).
  assert (sd_bsize ≠ 0) as Hnz by lia. pose proof (ig_bsize Hig) as Hb.
  apply Z.mod_divide in Hb as [c Hc]; [|done]. apply Z.mod_divide in Hm as [d Hd]; [|done].
  rewrite (storage_device_read_outcome sd_bsize img); [|done|lia|done|lia|lia].
  rewrite decide_True; [|unfold TARFS_BSIZE in Hc; split; apply Z.mod_divide; try done;
    [by exists c|exists (d * c); by rewrite Hd, Hc, Z.mul_assoc]].
  cbn [fst snd]. rewrite drop_ge, app_nil_r by lia. by destruct s.
Qed.

Lemma read_header_ok s off eofp :
  ready s → block_at off →
  ∃ s', tarfs_read_header sd_bsize off eofp s =
      Done (if decide (th_magic (header_at off) = tar_header_magic) then Ok false
            else if decide (th_magic (header_at off) = tar_header_magic_zero)
            then if eofp then Ok true else Err ERROR_NOT_FOUND
            else Err ERROR_INVALID) s' ∧
    ready s' ∧ same_links s s' ∧ tm_header s' = header_at off ∧ tm_match s' = tm_match s.
Proof.
  intros R B. pose proof B as (Ho&Hm&Hi). set (b := slice off TARFS_BSIZE img).
  assert (slice 0 sizeof_tar_header b = header_at off) as Hh.
  { unfold b, header_at. rewrite slice_slice, Z.add_0_r; [done|done|lia|by vm_compute|by vm_compute]. }
  exists (set_header (header_at off) (set_block b s)).
  split; [|split; [|by split]].
  - unfold tarfs_read_header. rewrite Hm. cbn [negb Z.eqb]. unfold bind_ok at 1, bind at 1.
    rewrite read_tm_block_ok by (done || apply R). unfold bind at 1, modify at 1.
    cbn [tm_block set_block]. fold b. rewrite Hh. unfold bind at 1, get at 1.
    change (tm_header (set_header (header_at off) (set_block b s))) with (header_at off).
    destruct (decide (th_magic (header_at off) = tar_header_magic)) as [E|E];
      [by rewrite bool_decide_true|rewrite bool_decide_false by done].
    destruct (decide (th_magic (header_at off) = tar_header_magic_zero)) as [E2|E2];
      [by rewrite bool_decide_true by done; destruct eofp|by rewrite bool_decide_false].
  - destruct R. split; try done. cbn [tm_block set_header set_block]. unfold b.
    apply length_slice; [done|done|done].
Qed.

(** ** One header *)

Lemma header_name off : block_at off → th_magic (header_at off) = tar_header_magic →
  ∃ l, string_of (header_at off) = Some l ∧ path_chars l.
Proof.
  intros B Hm. assert (0 ∈ header_at off) as H0.
  { apply (slice_elem 257 6). change (0 ∈ th_magic (header_at off)). rewrite Hm.
    unfold tar_header_magic. set_solver. }
  destruct (string_of_spec _ H0) as (l&rest&Hl&Hs&Hnz). exists l. split; [done|].
  pose proof (Forall_slice is_byte off sizeof_tar_header img (md_bytes _ _ (ig_medium Hig))) as Hb.
  fold (header_at off) in Hb. rewrite Hl in Hb. apply Forall_app in Hb as [Hb _].
  unfold path_chars. rewrite Forall_forall in Hb, Hnz |- *. intros c Hc.
  specialize (Hb c Hc). specialize (Hnz c Hc). unfold is_byte in Hb. lia.
Qed.

Definition matches (children : bool) (l : list (list Z)) (name : list Z) : bool :=
  if children then child_of l name else named l name.

Lemma lookup_match_ok tp l h name children s :
  ready s → split_into tp l → Forall path_chars l → string_of h = Some name → path_chars name →
  ∃ s', tarfs_lookup_match tp h children s = Done (matches children l name) s' ∧
    ready s' ∧ same_links s s' ∧ tm_header s' = tm_header s ∧
    (matches children l name = true → split_into (tm_match s') (components name)).
Proof.
  intros R Hl Hcl Hh Hc. unfold tarfs_lookup_match. unfold bind at 1, deref at 1. rewrite Hh. unfold ret at 1.
  destruct (split_path_ok name (tm_match s) Hc (rd_match s R)) as (m&Hr&Hml&Hsp).
  unfold bind at 1, zoom at 1. rewrite Hr. exists (set_match m s).
  assert (ready (set_match m s)) as R' by (destruct R; by split).
  assert (split_into tp l → length (tp_names tp) = length l) as Hlen by apply split_into_length.
  specialize (Hlen Hl). case_decide as Hlt.
  2:{ assert (matches children l name = false) as ->
        by (unfold matches, named, child_of; rewrite bool_decide_false by done; by destruct children).
      by split_and!. }
  specialize (Hsp Hlt). pose proof (split_into_length _ _ Hsp) as Hml2.
  pose proof (components_chars name Hc) as Hcc. set (cs := components name) in *.
  split; [|by split_and!]. unfold bind at 1, get at 1. cbn [tm_match set_match].
  unfold tp_namecnt. rewrite Hml2, Hlen.
  unfold matches, named, child_of. rewrite !(bool_decide_true (length name < 100)%nat) by done. cbn [andb].
  fold cs. destruct children.
  - destruct (Z.eqb_spec (Z.of_nat (length cs)) 0) as [E|E]; cbn [orb].
    { rewrite bool_decide_false by lia. done. }
    destruct (Z.eqb_spec (Z.of_nat (length cs) - 1) (Z.of_nat (length l))) as [E2|E2]; cbn [negb].
    2:{ rewrite bool_decide_false by lia. done. }
    rewrite (match_names_ok m tp cs l (length l) 0) by (done || lia). cbn. f_equal.
    rewrite drop_0, (take_ge l) by done. apply bool_decide_ext. split; [split; [lia|done]|by intros [_ ?]].
  - destruct (Z.eqb_spec (Z.of_nat (length cs)) (Z.of_nat (length l))) as [E2|E2]; cbn [negb].
    2:{ rewrite bool_decide_false; [done|]. intros E. apply E2. by rewrite E. }
    rewrite (match_names_ok m tp cs l (length l) 0) by (done || lia). cbn. f_equal.
    rewrite !drop_0, (take_ge l), take_ge by lia. done.
Qed.

Lemma next_header_ok off size :
  0 ≤ size → 0 ≤ off → off + TARFS_BSIZE + ROUNDUP size TARFS_BSIZE < 2 ^ 63 →
  next_header off size = off + TARFS_BSIZE + ROUNDUP size TARFS_BSIZE.
Proof.
  intros Hs Ho Hl. pose proof (ROUNDUP_bounds size TARFS_BSIZE) as Hb. unfold TARFS_BSIZE in *.
  unfold next_header, tar_roundup, TARFS_BSIZE. rewrite (u64_small (ROUNDUP _ _)) by lia.
  rewrite (u64_small (512 + _)), u64_small by lia. lia.
Qed.

Lemma archive_next off size rest :
  0 ≤ off → tar_header_decode (th_size (header_at off)) = Some size →
  archive (off + TARFS_BSIZE + ROUNDUP size TARFS_BSIZE) rest →
  0 ≤ size ∧ next_header off size = off + TARFS_BSIZE + ROUNDUP size TARFS_BSIZE.
Proof.
  intros Ho Hd (_&_&Hi)%archive_block. pose proof (ig_length Hig).
  assert (0 ≤ size) as Hs by (by eapply (decode_nonneg 0 _ size); [|exact Hd]).
  split; [done|]. apply next_header_ok; [done|done|unfold TARFS_BSIZE in *; lia].
Qed.

(** ** Looking up a path *)

(** The first entry with the components. *)
Definition find_entry (l : list (list Z)) (ents : list entry) : option entry :=
  snd <$> list_find (λ e, named l (en_name e) = true) ents.

Lemma find_entry_cons l e ents :
  find_entry l (e :: ents) = if named l (en_name e) then Some e else find_entry l ents.
Proof.
  unfold find_entry. cbn [list_find]. destruct (named l (en_name e)) eqn:E.
  - by rewrite decide_True.
  - rewrite decide_False by congruence. by destruct (list_find _ ents) as [[]|].
Qed.

Lemma same_links_trans s1 s2 s3 : same_links s1 s2 → same_links s2 s3 → same_links s1 s3.
Proof. unfold same_links. intros [-> ->] [-> ->]. done. Qed.

Lemma tar_lookup_loop_ok l ents : ∀ off s fc fuel,
  archive off ents → ready s → split_into (f_path fc) l → Forall path_chars l →
  (length ents < fuel)%nat →
  ∃ s', tarfs_lookup_loop sd_bsize fuel off fc s =
      Done (match find_entry l ents with
            | Some e => (mk_context (en_header e) (en_daddr e) (en_size e) (f_path fc), Ok tt)
            | None => (fc, Err ERROR_NOT_FOUND)
            end) s' ∧ ready s' ∧ same_links s s'.
Proof.
  induction ents as [|e ents IH]; intros off s fc [|fuel] Ha R Hl Hc Hf; simpl in Hf; try lia;
    cbn [tarfs_lookup_loop]; destruct (read_header_ok s off false R (archive_block _ _ Ha)) as (s1&Hr&R1&L1&Hh&_);
    unfold bind at 1; rewrite Hr.
  - inversion Ha as [? B Hz|]; subst. rewrite Hz. rewrite decide_False, decide_True by done.
    by exists s1.
  - inversion Ha as [|? size ? B Hm Hd Hrest]; subst. rewrite decide_True by done.
    destruct (archive_next off size ents (proj1 B) Hd Hrest) as [Hs Hnext].
    destruct (header_name off B Hm) as (name&Hn&Hcn).
    unfold bind at 1, get at 1. rewrite Hh, Hd.
    destruct (lookup_match_ok (f_path fc) l (header_at off) name false s1) as (s2&Hr2&R2&L2&Hh2&_); try done.
    unfold bind at 1. rewrite Hr2. cbn [matches]. rewrite find_entry_cons. unfold en_name at 1. cbn [en_header].
    rewrite Hn. change (default [] (Some name)) with name.
    destruct (named l name); cbn [negb].
    + exists s2. split; [|split; [done|by eapply same_links_trans]]. unfold bind, get, ret.
      rewrite Hh2, Hh. cbn [en_daddr en_size en_header]. rewrite u64_small; [done|].
      destruct B as (?&_&?). pose proof (ig_length Hig). unfold TARFS_BSIZE in *. lia.
    + rewrite Hnext. destruct (IH _ s2 fc fuel Hrest R2 Hl Hc) as (s3&Hr3&R3&L3); [lia|].
      exists s3. split; [done|]. split; [done|]. by repeat (eapply same_links_trans; [done|]).
Qed.

(** What a path leads to, before links are followed. *)
Definition lookup_entry (ents : list entry) (path : list Z) : result entry :=
  match path with
  | c :: _ =>
      if negb (c =? 47) then Err ERROR_INVALID
      else if decide (length path < 100)%nat then
        match find_entry (components path) ents with Some e => Ok e | None => Err ERROR_NOT_FOUND end
      else Err ERROR_INVALID
  | [] => Err ERROR_INVALID
  end.

Lemma tar_lookup_ok ents path s fc fuel :
  archive 0 ents → ready s → length (tp_path (f_path fc)) = Z.to_nat TARFS_MAX_NAME_LENGTH →
  path_chars path → (length ents < fuel)%nat →
  ∃ fc' s', tarfs_lookup sd_bsize fuel path fc s =
      Done (fc', match lookup_entry ents path with Ok _ => Ok tt | Err e => Err e end) s' ∧
    ready s' ∧ same_links s s' ∧
    ∀ e, lookup_entry ents path = Ok e → f_header fc' = en_header e ∧ f_daddr fc' = en_daddr e ∧
      f_dsize fc' = en_size e ∧ split_into (f_path fc') (components path).
Proof.
  intros Ha R Hfc Hc Hf. unfold tarfs_lookup, lookup_entry. destruct path as [|c path'].
  { by exists fc, s. }
  destruct (c =? 47) eqn:Ec; cbn [negb]; [|by exists fc, s]. set (path := c :: path') in *.
  destruct (split_path_ok path (f_path fc) Hc Hfc) as (tp&Hr&Htl&Hsp). rewrite Hr.
  destruct (decide (length path < 100)%nat) as [Hlt|Hlt]; [|by eexists _, s].
  specialize (Hsp Hlt).
  destruct (tar_lookup_loop_ok (components path) ents 0 s (mk_context (f_header fc) (f_daddr fc) (f_dsize fc) tp) fuel)
    as (s'&Hrun&R'&L'); [done|done|done|by apply components_chars|done|].
  rewrite Hrun. destruct (find_entry (components path) ents) as [e|].
  - eexists _, s'. split; [done|]. split; [done|]. split; [done|]. by intros ? [= <-].
  - eexists _, s'. by split.
Qed.

(** ** Opening a file *)

(** The path a link's name stands for: without the dot of ["./"]. *)
Definition link_target (l : list Z) : list Z := if decide (take 2 l = [46; 47]) then drop 1 l else l.

(** What opening a path gives, when the buffer for links has [room] bytes. *)
Inductive leads (ents : list entry) : Z → list Z → result entry → Prop :=
| leads_error room path err : lookup_entry ents path = Err err → leads ents room path (Err err)
| leads_file room path e :
    lookup_entry ents path = Ok e → th_typeflag (en_header e) = 48 → leads ents room path (Ok e)
| leads_kind room path e :
    lookup_entry ents path = Ok e → th_typeflag (en_header e) ≠ 48 → th_typeflag (en_header e) ≠ 49 →
    leads ents room path (Err ERROR_WRONG_KIND)
| leads_no_null room path e :
    lookup_entry ents path = Ok e → th_typeflag (en_header e) = 49 → 0 ∉ th_linkname (en_header e) →
    leads ents room path (Err ERROR_INVALID)
| leads_no_room room path e l :
    lookup_entry ents path = Ok e → th_typeflag (en_header e) = 49 →
    string_of (th_linkname (en_header e)) = Some l → room ≤ Z.of_nat (length l) →
    leads ents room path (Err ERROR_INVALID)
| leads_link room path e l r :
    lookup_entry ents path = Ok e → th_typeflag (en_header e) = 49 →
    string_of (th_linkname (en_header e)) = Some l → Z.of_nat (length l) < room →
    leads ents (room - Z.of_nat (length l)) (link_target l) r → leads ents room path r.

Lemma archive_bytes off ents : archive off ents → Forall (λ e, Forall is_byte (en_header e)) ents.
Proof.
  induction 1; constructor; [|done]. apply Forall_slice, (md_bytes _ _ (ig_medium Hig)).
Qed.

Lemma lookup_entry_in ents path e : lookup_entry ents path = Ok e → e ∈ ents.
Proof.
  unfold lookup_entry. destruct path as [|c path]; [done|]. case_match; [done|]. case_decide; [|done].
  unfold find_entry. destruct (list_find _ ents) as [[i e']|] eqn:E; [|done]. intros [= <-].
  apply list_find_Some in E as [E _]. by eapply list_elem_of_lookup_2.
Qed.

Lemma link_chars off ents path e l :
  archive off ents → lookup_entry ents path = Ok e → string_of (th_linkname (en_header e)) = Some l →
  path_chars l.
Proof.
  intros Ha Hl Hs. pose proof (archive_bytes off ents Ha) as Hb. rewrite Forall_forall in Hb.
  specialize (Hb e (lookup_entry_in _ _ _ Hl)).
  apply (Forall_slice is_byte 157 100) in Hb. fold (th_linkname (en_header e)) in Hb.
  destruct (decide (0 ∈ th_linkname (en_header e))) as [H0|H0].
  - destruct (string_of_spec _ H0) as (l'&rest&E&Hs'&Hnz). rewrite Hs in Hs'. injection Hs' as <-.
    rewrite E in Hb. apply Forall_app in Hb as [Hb _]. unfold path_chars. rewrite Forall_forall in Hb, Hnz |- *.
    intros c Hc. specialize (Hb c Hc). specialize (Hnz c Hc). unfold is_byte in Hb. lia.
  - exfalso. clear Hb. induction (th_linkname (en_header e)) as [|b k IH] in l, Hs, H0 |- *; [done|].
    cbn [string_of] in Hs. rewrite not_elem_of_cons in H0. destruct H0 as [H0 H1].
    destruct (Z.eqb_spec b 0); [done|]. destruct (string_of k) as [l'|] eqn:E; [|done]. by apply (IH l').
Qed.

Lemma link_target_chars l : path_chars l → path_chars (link_target l).
Proof. unfold link_target. case_decide; [|done]. apply Forall_drop. Qed.

Lemma link_target_cmp l :
  path_chars l → (if chars_cmp (take 2 l) [46; 47] =? 0 then drop 1 l else l) = link_target l.
Proof.
  intros Hc. unfold link_target.
  assert (chars_cmp (take 2 l) [46; 47] = 0 ↔ take 2 l = [46; 47]) as Hcmp
    by (apply chars_cmp_eq; [by apply Forall_take|by repeat constructor]).
  destruct (Z.eqb_spec (chars_cmp (take 2 l) [46; 47]) 0) as [E|E].
  - by rewrite decide_True by (by apply Hcmp).
  - by rewrite decide_False by (by intros ?%Hcmp).
Qed.

Lemma copy_linkname_ok l s :
  ready s → Z.of_nat (length l) < PAGE_SIZE - tm_linklen s → path_chars l →
  ready (copy_linkname l s) ∧
  string_of (drop (Z.to_nat (tm_linklen s)) (tm_linkbuf (copy_linkname l s))) = Some l.
Proof.
  intros [R1 R2 R3 R4] Hl Hc.
  assert (truncated (PAGE_SIZE - tm_linklen s) l = l ++ [0]) as Ht
    by (unfold truncated; rewrite take_ge by lia; done).
  unfold copy_linkname. rewrite Ht. split.
  - split; try done. cbn [tm_linkbuf set_linkbuf]. rewrite length_write_at; [done|lia|].
    rewrite length_app. cbn [length]. lia.
  - cbn [tm_linkbuf set_linkbuf]. unfold write_at.
    rewrite drop_app_length' by (rewrite length_take; lia). rewrite <-app_assoc. by apply string_of_app.
Qed.

Lemma copy_linkname_ready l s : ready s → ready (copy_linkname l s).
Proof.
  intros [R1 R2 R3 R4]. split; try done. cbn [copy_linkname tm_linkbuf set_linkbuf].
  assert (Z.of_nat (length (truncated (PAGE_SIZE - tm_linklen s) l)) ≤ PAGE_SIZE - tm_linklen s) as Ht.
  { unfold truncated. rewrite length_app, length_take. cbn [length]. lia. }
  rewrite length_write_at; [done|lia|lia].
Qed.

Context {K : Type} `{KernelMemory K} (fresh : tarfs_file_context) (k0 k1 : K) (v : Z).

(** There is memory for a context, and it can be given back. *)
Record memory_ok : Prop := {
  mo_alloc : km_alloc sizeof_context k0 = Done (Ok v) k1;
  mo_free : km_free sizeof_context v k1 = Done (Ok tt) k0;
  mo_fresh : length (tp_path (f_path fresh)) = Z.to_nat TARFS_MAX_NAME_LENGTH
}.

(** What a caller of an open function finds. *)
Definition outcome_of (r : result entry) (tm : tarfs_mount D) (ctxs : gmap Z tarfs_file_context)
    (o : outcome (tarfs_fs D K) (result Z)) : Prop :=
  match r with
  | Ok e => ∃ fc, f_header fc = en_header e ∧ f_daddr fc = en_daddr e ∧ f_dsize fc = en_size e ∧
      o = Done (Ok v) (mk_fs tm (<[v := fc]> ctxs) k1)
  | Err err => o = Done (Err err) (mk_fs tm (delete v ctxs) k0)
  end.

Lemma free_context_ok tm (ctxs : gmap Z tarfs_file_context) :
  memory_ok → free_context v (mk_fs tm ctxs k1) = Done tt (mk_fs (D:=D) tm (delete v ctxs) k0).
Proof. intros M. unfold free_context, or_panic, on_kernel, bind, zoom. cbn. by rewrite (mo_free M). Qed.

Lemma tar_file_open_ok fuel ents depth : ∀ path tm ctxs,
  archive 0 ents → (length ents < fuel)%nat → memory_ok → ready tm → path_chars path →
  (path = [] ∧ (0 < depth)%nat ∨ PAGE_SIZE - tm_linklen tm + 2 ≤ Z.of_nat depth) →
  ∃ r tm', leads ents (PAGE_SIZE - tm_linklen tm) path r ∧ ready tm' ∧ tm_linklen tm' = tm_linklen tm ∧
    outcome_of r tm' ctxs (tarfs_op_file_open sd_bsize fresh depth fuel path (mk_fs tm ctxs k0)).
Proof.
  induction depth as [|depth IH]; intros path tm ctxs Ha Hf M R Hc Hd; [pose proof (rd_linklen tm R); lia|].
  destruct (tar_lookup_ok ents path tm fresh fuel Ha R (mo_fresh M) Hc Hf) as (fc&tm1&Hr&R1&[Lb Ll]&Hfc).
  cbn [tarfs_op_file_open]. unfold bind_ok at 1, bind at 1. unfold on_kernel at 1, zoom at 1.
  cbn [fs_memory]. rewrite (mo_alloc M). unfold bind at 1. unfold put_context at 1, modify at 1.
  unfold bind at 1. unfold on_tm at 1, zoom at 1. cbn [fs_tm set_contexts set_fs_memory fs_contexts fs_memory].
  rewrite Hr. unfold bind at 1. unfold put_context at 1, modify at 1.
  cbn [fst snd set_contexts set_tm fs_contexts fs_memory fs_tm]. rewrite insert_insert_eq.
  match goal with |- context [set_contexts (<[v:=fc]> ctxs) ?x] =>
    change (set_contexts (<[v:=fc]> ctxs) x) with (mk_fs tm1 (<[v:=fc]> ctxs) k1) end.
  assert (tm_linklen tm1 = tm_linklen tm) as Hll by done.
  destruct (lookup_entry ents path) as [e|err] eqn:Hle; cbn iota.
  2:{ exists (Err err), tm1. split_and!; [by apply leads_error|done|done|]. cbn [outcome_of].
      unfold bind. rewrite free_context_ok by done. by rewrite delete_insert_eq. }
  destruct (Hfc e eq_refl) as (F1&F2&F3&_). rewrite F1.
  destruct (Z.eqb_spec (th_typeflag (en_header e)) 48) as [Ht|Ht].
  { exists (Ok e), tm1. split_and!; [by apply leads_file|done|done|]. by exists fc. }
  destruct (Z.eqb_spec (th_typeflag (en_header e)) 49) as [Ht1|Ht1].
  2:{ exists (Err ERROR_WRONG_KIND), tm1. split_and!; [by eapply leads_kind|done|done|]. cbn [outcome_of].
      unfold bind. rewrite free_context_ok by done. by rewrite delete_insert_eq. }
  destruct (decide (0 ∈ th_linkname (en_header e))) as [Hz|Hz].
  2:{ rewrite bool_decide_true by done. exists (Err ERROR_INVALID), tm1.
      split_and!; [by eapply leads_no_null|done|done|]. cbn [outcome_of].
      unfold bind. rewrite free_context_ok by done. by rewrite delete_insert_eq. }
  rewrite bool_decide_false by (by intros ?). destruct (string_of_spec _ Hz) as (l&_&_&Hs&_).
  pose proof (link_chars 0 ents path e l Ha Hle Hs) as Hcl. pose proof (rd_linklen tm R) as Hrl.
  unfold bind at 1, get at 1. cbn [fs_tm]. rewrite Hll. unfold bind at 1, assert_ at 1.
  rewrite (proj2 (Z.leb_le _ _)) by lia. unfold ret at 1. unfold bind at 1, deref at 1. rewrite Hs. unfold ret at 1.
  unfold bind at 1. unfold on_tm at 1, zoom at 1, modify at 1. cbn [fs_tm].
  match goal with |- context [set_tm (copy_linkname l tm1) ?x] =>
    change (set_tm (copy_linkname l tm1) x) with (mk_fs (copy_linkname l tm1) (<[v:=fc]> ctxs) k1) end.
  destruct (Z.leb_spec (PAGE_SIZE - tm_linklen tm) (Z.of_nat (length l))) as [Hroom|Hroom].
  { exists (Err ERROR_INVALID), (copy_linkname l tm1).
    split_and!; [by eapply leads_no_room|by apply copy_linkname_ready|done|]. cbn [outcome_of].
    unfold bind. rewrite free_context_ok by done. by rewrite delete_insert_eq. }
  destruct (copy_linkname_ok l tm1 R1) as [R2 Hs2]; [by rewrite Hll|done|]. rewrite Hll in Hs2.
  unfold bind at 1. rewrite free_context_ok by done. rewrite delete_insert_eq. unfold bind at 1, get at 1.
  cbn [fs_tm]. unfold bind at 1, deref at 1. rewrite Hs2. unfold ret at 1. rewrite link_target_cmp by done.
  unfold bind at 1. unfold on_tm at 1, zoom at 1, modify at 1. cbn [fs_tm set_tm fs_contexts fs_memory].
  change (tm_linklen (copy_linkname l tm1)) with (tm_linklen tm1). rewrite Hll.
  assert (PAGE_SIZE < 2 ^ 64) as Hps by by vm_compute.
  rewrite u64_small by lia. set (tm2 := set_linklen (tm_linklen tm + Z.of_nat (length l)) (copy_linkname l tm1)).
  match goal with |- context [set_tm tm2 ?x] =>
    change (set_tm tm2 x) with (mk_fs tm2 (delete v ctxs) k0) end.
  assert (ready tm2) as R3 by (destruct R2; split; [done..|cbn [tm_linklen set_linklen tm2]; lia]).
  destruct (IH (link_target l) tm2 (delete v ctxs)) as (r&tm3&Hlead&R4&Hl4&Hout); try done.
  { by apply link_target_chars. }
  { destruct Hd as [[-> _]|Hd]; [done|]. cbn [tm_linklen set_linklen tm2].
    destruct l as [|b l]; [left; split; [done|lia]|right]. cbn [length] in *. lia. }
  cbn [tm_linklen set_linklen tm2] in Hlead, Hl4. exists r, (set_linklen (tm_linklen tm) tm3). split_and!.
  - eapply leads_link; [done|done|done|lia|]. by replace (PAGE_SIZE - tm_linklen tm - Z.of_nat (length l))
      with (PAGE_SIZE - (tm_linklen tm + Z.of_nat (length l))) by lia.
  - destruct R4. by split.
  - done.
  - unfold bind at 1. destruct r as [e'|err]; cbn [outcome_of] in *.
    + destruct Hout as (fc'&G1&G2&G3&->). exists fc'. split_and!; [done..|]. unfold bind, on_tm, zoom, modify, ret.
      cbn [fs_tm set_tm fs_contexts fs_memory]. rewrite Hl4, insert_delete_eq, u64_small by lia.
      by replace (_ + _ - _) with (tm_linklen tm) by lia.
    + rewrite Hout. unfold bind, on_tm, zoom, modify, ret. cbn [fs_tm set_tm fs_contexts fs_memory].
      rewrite Hl4, delete_delete_eq, u64_small by lia. by replace (_ + _ - _) with (tm_linklen tm) by lia.
Qed.

(** ** Reading a file *)

(** The data of an entry is on the medium, in whole blocks. *)
Lemma archive_data off ents e :
  archive off ents → e ∈ ents →
  0 ≤ en_size e ∧ 0 ≤ en_daddr e ∧ en_daddr e mod TARFS_BSIZE = 0 ∧
  en_daddr e + ROUNDUP (en_size e) TARFS_BSIZE ≤ Z.of_nat (length img).
Proof.
  induction 1 as [|off size rest B Hm Hd Hrest IH]; [by intros ?%elem_of_nil|].
  intros [->|He]%elem_of_cons; [|by apply IH]. cbn [en_daddr en_size].
  destruct (archive_next off size rest (proj1 B) Hd Hrest) as [Hs _].
  destruct (archive_block _ _ Hrest) as (_&_&Hl). destruct B as (Ho&Hmod&_). unfold TARFS_BSIZE in *.
  split_and!; [done|lia| |lia]. rewrite <-(Z.mul_1_l 512) at 1. by rewrite Z.mod_add.
Qed.

(** The context stands for the entry. *)
Definition context_of (e : entry) (f : tarfs_file_context) : Prop :=
  f_header f = en_header e ∧ f_daddr f = en_daddr e ∧ f_dsize f = en_size e.

Lemma tar_file_read_ok ents e (t : tarfs_fs D K) fc f off len :
  archive 0 ents → e ∈ ents → ready (fs_tm t) → fs_contexts t !! fc = Some f → context_of e f →
  0 ≤ off < 2 ^ 63 → 0 ≤ len < 2 ^ 64 →
  ∃ tm', tarfs_op_file_read sd_bsize fc off len t =
      Done (if decide (en_size e < off) then Err ERROR_INVALID
            else Ok (slice (en_daddr e + off)
                   (Z.min (Z.min len (TARFS_BSIZE - off mod TARFS_BSIZE)) (en_size e - off)) img))
        (set_tm tm' t) ∧ ready tm' ∧ same_links (fs_tm t) tm'.
Proof.
  intros Ha He R Hf (_&Hda&Hds) Ho Hlen. destruct (archive_data 0 ents e Ha He) as (Hs&Hd&Hdm&Hl).
  pose proof (ROUNDUP_bounds (en_size e) TARFS_BSIZE ltac:(done)) as Hru. pose proof (ig_length Hig) as Hil.
  pose proof (Z.mod_pos_bound off TARFS_BSIZE ltac:(done)) as Hmod. unfold TARFS_BSIZE in *.
  unfold tarfs_op_file_read. unfold bind at 1, get at 1. unfold bind at 1, deref at 1. rewrite Hf.
  unfold ret at 1. rewrite Hds, Hda, (u64_small off) by lia. unfold TARFS_BSIZE.
  assert (set_tm (fs_tm t) t = t) as Hid by by destruct t.
  destruct (Z.ltb_spec (en_size e) off) as [Hgt|Hgt].
  { exists (fs_tm t). rewrite decide_True, Hid by done. by split_and!. }
  rewrite decide_False by lia. destruct (Z.eqb_spec off (en_size e)) as [Heq|Hne].
  { exists (fs_tm t). rewrite Hid. split; [|by split]. unfold ret. repeat f_equal. unfold slice.
    replace (Z.to_nat (Z.min _ _)) with 0%nat by lia. by rewrite take_0. }
  rewrite Z.rem_mod_nonneg, u32_small by lia.
  assert (u64 (off - off mod 512) = off / 512 * 512) as ->.
  { pose proof (Z.div_mod off 512 ltac:(lia)). rewrite u64_small by lia. lia. }
  set (a := off / 512 * 512). assert (off = a + off mod 512) as Ea
    by (unfold a; pose proof (Z.div_mod off 512 ltac:(lia)); lia).
  assert (0 ≤ a) as Ha0 by (unfold a; pose proof (Z.div_pos off 512); lia).
  assert (en_daddr e + a + 512 ≤ Z.of_nat (length img)) as Hin.
  { assert (a + 512 ≤ ROUNDUP (en_size e) 512); [|lia].
    pose proof (ROUNDUP_mod (en_size e) 512 ltac:(lia)) as Hrm. apply Z.mod_divide in Hrm as [c Hc]; [|lia].
    unfold a in *. rewrite Hc in Hru |- *. nia. }
  assert (block_at (en_daddr e + a)) as B.
  { split; [lia|]. split; [|done]. unfold a. unfold TARFS_BSIZE. by rewrite Z.mod_add. }
  rewrite (u64_small (_ + _)) by lia. unfold bind_ok at 1, bind at 1. unfold on_tm at 1, zoom at 1.
  rewrite read_tm_block_ok; [|apply R|done]. unfold bind at 1, get at 1.
  change (tm_block (fs_tm (set_tm ?m t))) with (tm_block m). cbn [fs_tm set_tm tm_block set_block].
  assert (length (slice (en_daddr e + a) 512 img) = 512%nat) as Hsl by (rewrite length_slice; lia).
  exists (set_block (slice (en_daddr e + a) 512 img) (fs_tm t)). split; [|split; [by destruct R|done]].
  unfold bind, ret. rewrite (u32_small (512 - _)), (u64_small (en_size e - _)) by lia.
  assert (∀ x y, MIN x y = Z.min x y) as Hmin by (intros x y; unfold MIN; destruct (Z.ltb_spec x y); lia).
  rewrite !Hmin, bytes_of_ok by (unfold TARFS_BSIZE; rewrite ?Hsl; lia). unfold TARFS_BSIZE.
  rewrite slice_slice by lia. by replace (en_daddr e + off) with (en_daddr e + a + off mod 512) by lia.
Qed.

(** ** Directories *)

#[local] Ltac run_open M Hr :=
  unfold bind_ok at 1, bind at 1; unfold on_kernel at 1, zoom at 1;
  cbn [fs_memory]; rewrite (mo_alloc M); unfold bind at 1; unfold put_context at 1, modify at 1;
  unfold bind at 1; unfold on_tm at 1, zoom at 1;
  cbn [fs_tm set_contexts set_fs_memory fs_contexts fs_memory];
  rewrite Hr; unfold bind at 1; unfold put_context at 1, modify at 1;
  cbn [fst snd set_contexts set_tm fs_contexts fs_memory fs_tm]; rewrite insert_insert_eq;
  match type of Hr with _ = Done (?fc, _) ?tm1 =>
    match goal with |- context [set_contexts (<[v:=fc]> ?c) ?x] =>
      change (set_contexts (<[v:=fc]> c) x) with (mk_fs tm1 (<[v:=fc]> c) k1) end end.

Lemma directory_open_ok fuel ents path tm ctxs :
  archive 0 ents → (length ents < fuel)%nat → memory_ok → ready tm → path_chars path →
  ∃ tm', ready tm' ∧ same_links tm tm' ∧
    match lookup_entry ents path with
    | Err err => tarfs_op_directory_open sd_bsize fresh fuel path (mk_fs tm ctxs k0) =
        Done (Err err) (mk_fs tm' (delete v ctxs) k0)
    | Ok e =>
        if decide (th_typeflag (en_header e) = 53) then
          ∃ fc, context_of e fc ∧ split_into (f_path fc) (components path) ∧
            tarfs_op_directory_open sd_bsize fresh fuel path (mk_fs tm ctxs k0) =
              Done (Ok v) (mk_fs tm' (<[v := fc]> ctxs) k1)
        else tarfs_op_directory_open sd_bsize fresh fuel path (mk_fs tm ctxs k0) =
          Done (Err ERROR_WRONG_KIND) (mk_fs tm' (delete v ctxs) k0)
    end.
Proof.
  intros Ha Hf M R Hc. destruct (tar_lookup_ok ents path tm fresh fuel Ha R (mo_fresh M) Hc Hf) as (fc&tm1&Hr&R1&L&Hfc).
  exists tm1. split; [done|]. split; [done|].
  unfold tarfs_op_directory_open. destruct (lookup_entry ents path) as [e|err]; cbn iota in Hr |- *.
  2:{ run_open M Hr. unfold bind. rewrite free_context_ok by done. by rewrite delete_insert_eq. }
  destruct (Hfc e eq_refl) as (F1&F2&F3&F4). case_decide as Ht.
  - exists fc. split_and!; [done|done|]. run_open M Hr. by rewrite F1, (proj2 (Z.eqb_eq _ _) Ht).
  - run_open M Hr. rewrite F1, (proj2 (Z.eqb_neq _ _) Ht). cbn [negb]. unfold bind.
    rewrite free_context_ok by done. by rewrite delete_insert_eq.
Qed.

(** The children of a directory among the entries that follow it. *)
Definition children (l : list (list Z)) (ents : list entry) : list entry :=
  filter (λ e, child_of l (en_name e) = true) ents.

Lemma directory_loop_ok l ents : ∀ off skip s dc fuel,
  archive off ents → ready s → split_into dc l → Forall path_chars l → 0 ≤ skip →
  (length ents < fuel)%nat →
  ∃ s', directory_loop sd_bsize fuel off skip dc s =
      Done (Ok (bool_decide (is_Some (children l ents !! Z.to_nat skip)))) s' ∧
    ready s' ∧ same_links s s' ∧
    ∀ e, children l ents !! Z.to_nat skip = Some e →
      child_of l (en_name e) = true ∧ path_chars (en_name e) ∧
      split_into (tm_match s') (components (en_name e)).
Proof.
  induction ents as [|e ents IH]; intros off skip s dc [|fuel] Ha R Hl Hc Hsk Hf; simpl in Hf; try lia;
    cbn [directory_loop]; destruct (read_header_ok s off true R (archive_block _ _ Ha)) as (s1&Hr&R1&L1&Hh&_);
    unfold bind_ok at 1, bind at 1; rewrite Hr.
  - inversion Ha as [? B Hz|]; subst. rewrite Hz. rewrite decide_False, decide_True by done.
    exists s1. split_and!; [|done|done|by intros e ?%lookup_nil_Some || done].
    by rewrite bool_decide_false by (by intros [? ?]).
  - inversion Ha as [|? size ? B Hm Hd Hrest]; subst. rewrite decide_True by done.
    destruct (archive_next off size ents (proj1 B) Hd Hrest) as [Hs Hnext].
    destruct (header_name off B Hm) as (name&Hn&Hcn).
    unfold bind at 1, get at 1. rewrite Hh, Hd.
    destruct (lookup_match_ok dc l (header_at off) name true s1) as (s2&Hr2&R2&L2&_&Hsp); try done.
    unfold bind at 1. rewrite Hr2. cbn [matches] in Hsp |- *. rewrite Hnext.
    set (e := mk_entry (header_at off) (off + TARFS_BSIZE) size).
    assert (en_name e = name) as Hen by (unfold en_name; cbn; by rewrite Hn).
    assert (children l (e :: ents) = if child_of l name then e :: children l ents else children l ents) as ->.
    { unfold children. destruct (child_of l name) eqn:E;
        [rewrite filter_cons_True by congruence|rewrite filter_cons_False by congruence]; done. }
    destruct (child_of l name) eqn:Ech; cbn [andb].
    + destruct (Z.eqb_spec skip 0) as [->|Hne].
      { exists s2. cbn. split_and!; [done|done|by eapply same_links_trans|]. intros ? [= <-].
        rewrite Hen. split_and!; [done|done|]. by apply Hsp. }
      destruct (IH _ (skip - 1) s2 dc fuel Hrest R2 Hl Hc) as (s3&Hr3&R3&L3&He3); [lia|lia|].
      rewrite Hr3. replace (Z.to_nat skip) with (S (Z.to_nat (skip - 1))) by lia. cbn [lookup list_lookup].
      exists s3. split_and!; [done|done|by repeat (eapply same_links_trans; [done|])|done].
    + destruct (IH _ skip s2 dc fuel Hrest R2 Hl Hc) as (s3&Hr3&R3&L3&He3); [lia|lia|].
      exists s3. split_and!; [done|done|by repeat (eapply same_links_trans; [done|])|done].
Qed.

(** The last component of a name. *)
Definition base_name (e : entry) : list Z := default [] (last (components (en_name e))).

Lemma pieces_length p : Forall (λ x, (length x ≤ length p)%nat) (pieces p).
Proof.
  induction p as [|c p IH]; [by repeat constructor|]. cbn [pieces length].
  assert (∀ l : list (list Z), Forall (λ x, (length x ≤ length p)%nat) l →
    Forall (λ x, (length x ≤ S (length p))%nat) l) as Hw
    by (intros l Hl; eapply Forall_impl; [done|]; intros x; cbn; lia).
  destruct (c =? 47); [constructor; [cbn; lia|by apply Hw]|].
  destruct (pieces p) as [|x l]; [constructor; [cbn; lia|constructor]|].
  apply Forall_cons in IH as [Hx Hl]. constructor; [cbn; lia|by apply Hw].
Qed.
Lemma components_length p x : x ∈ components p → (length x ≤ length p)%nat.
Proof.
  intros Hx. pose proof (pieces_length p) as Hp. rewrite Forall_forall in Hp. apply Hp.
  apply list_elem_of_filter in Hx as [_ Hx]. by apply list_elem_of_filter in Hx as [_ Hx].
Qed.

Lemma directory_read_ok fuel e rest l (t : tarfs_fs D K) dc f off :
  archive (en_daddr e + ROUNDUP (en_size e) TARFS_BSIZE) rest → 0 ≤ en_size e → 0 ≤ en_daddr e →
  (length rest < fuel)%nat → ready (fs_tm t) → fs_contexts t !! dc = Some f → context_of e f →
  split_into (f_path f) l → Forall path_chars l → 0 ≤ off < 2 ^ 63 →
  ∃ tm', tarfs_op_directory_read sd_bsize fuel dc off t =
      Done (Ok (match children l rest !! Z.to_nat off with
                | Some c => (off + 1, Some (base_name c))
                | None => (0, None)
                end)) (set_tm tm' t) ∧ ready tm' ∧ same_links (fs_tm t) tm'.
Proof.
  intros Ha Hs Hd Hf R Hdc (_&Hda&Hds) Hl Hc Ho. pose proof (archive_block _ _ Ha) as (_&_&Hi).
  pose proof (ig_length Hig) as Hil. pose proof (ROUNDUP_bounds (en_size e) TARFS_BSIZE ltac:(done)) as Hru.
  assert (0 < TARFS_BSIZE) as Hbs by done.
  unfold tarfs_op_directory_read. unfold bind at 1, get at 1. unfold bind at 1, deref at 1. rewrite Hdc.
  unfold ret at 1. unfold tar_roundup. rewrite Hda, Hds, (u64_small (ROUNDUP _ _)), (u64_small (_ + _)), (u64_small off) by lia.
  destruct (directory_loop_ok l rest _ off (fs_tm t) (f_path f) fuel Ha R Hl Hc ltac:(lia) Hf)
    as (tm1&Hr&R1&L1&Hch). unfold bind_ok at 1, bind at 1. unfold on_tm, zoom at 1. rewrite Hr.
  exists tm1. split; [|done]. destruct (children l rest !! Z.to_nat off) as [c|] eqn:E.
  2:{ by rewrite bool_decide_false by (by intros [? ?]). }
  rewrite bool_decide_true by by eexists. cbn [negb]. destruct (Hch c eq_refl) as (Hchild&Hcc&Hsp).
  unfold child_of in Hchild. apply andb_prop in Hchild as [Hlt%bool_decide_eq_true [Hn _]%bool_decide_eq_true].
  unfold bind at 1, get at 1. change (fs_tm (set_tm tm1 t)) with tm1. unfold tp_namecnt.
  pose proof (split_into_length _ _ Hsp) as Hsl. rewrite Hsl, Hn. cbn [Z.of_nat Z.eqb].
  unfold base_name. rewrite last_lookup, Hn. cbn [pred].
  destruct (lookup_lt_is_Some_2 (components (en_name c)) (length l)) as [x Hx]; [lia|].
  rewrite Nat.sub_succ, Nat.sub_0_r.
  unfold bind, deref. rewrite (tp_name_ok _ _ _ _ Hsp Hx), Hx. unfold ret. rewrite take_ge; [done|].
  pose proof (components_length (en_name c) x ltac:(by eapply list_elem_of_lookup_2)).
  change (Z.to_nat (FS_NAME_MAX - 1)) with 1023%nat. lia.
Qed.

(** * The theorems *)

(** A path below a hundred characters is split into its components other than
    ".", each a string in the copy; a longer one is refused.  The array of
    names is never overrun. *)
Theorem tarfs_split_path_correct path tp :
  path_chars path → length (tp_path tp) = Z.to_nat TARFS_MAX_NAME_LENGTH →
  ∃ tp', tarfs_split_path path tp =
      Done (if decide (length path < 100)%nat then Ok tt else Err ERROR_INVALID) tp' ∧
    length (tp_path tp') = Z.to_nat TARFS_MAX_NAME_LENGTH ∧
    ((length path < 100)%nat → split_into tp' (components path)).
Proof. apply split_path_ok. Qed.

(** C33: Opening a path ends with what the archive says, links followed: the
    context of the file the path leads to, or an error and the memory of every
    context given back.  The buffer for the names of links is left as long as
    it was, and its size bounds the links. *)
Theorem tarfs_file_open_correct fuel ents depth path tm ctxs :
  archive 0 ents → (length ents < fuel)%nat → memory_ok → ready tm → path_chars path →
  PAGE_SIZE - tm_linklen tm + 2 ≤ Z.of_nat depth →
  ∃ r tm', leads ents (PAGE_SIZE - tm_linklen tm) path r ∧ ready tm' ∧ tm_linklen tm' = tm_linklen tm ∧
    outcome_of r tm' ctxs (tarfs_op_file_open sd_bsize fresh depth fuel path (mk_fs tm ctxs k0)).
Proof. intros. apply tar_file_open_ok; auto. Qed.

(** A read gives the bytes of the file on the medium, as many as asked for up
    to the end of the block and of the file, and an error past its end. *)
Theorem tarfs_file_read_correct ents e (t : tarfs_fs D K) fc f off len :
  archive 0 ents → e ∈ ents → ready (fs_tm t) → fs_contexts t !! fc = Some f → context_of e f →
  0 ≤ off < 2 ^ 63 → 0 ≤ len < 2 ^ 64 →
  ∃ tm', tarfs_op_file_read sd_bsize fc off len t =
      Done (if decide (en_size e < off) then Err ERROR_INVALID
            else Ok (slice (en_daddr e + off)
                   (Z.min (Z.min len (TARFS_BSIZE - off mod TARFS_BSIZE)) (en_size e - off)) img))
        (set_tm tm' t) ∧ ready tm' ∧ same_links (fs_tm t) tm'.
Proof. apply tar_file_read_ok. Qed.

(** Reading a directory at [off] gives the child number [off] among the
    entries that follow the directory's, and the next offset; after the last
    child it gives none.  So the offsets from 0 on list the children in the
    order of the archive. *)
Theorem tarfs_directory_read_correct fuel e rest l (t : tarfs_fs D K) dc f off :
  archive (en_daddr e + ROUNDUP (en_size e) TARFS_BSIZE) rest → 0 ≤ en_size e → 0 ≤ en_daddr e →
  (length rest < fuel)%nat → ready (fs_tm t) → fs_contexts t !! dc = Some f → context_of e f →
  split_into (f_path f) l → Forall path_chars l → 0 ≤ off < 2 ^ 63 →
  ∃ tm', tarfs_op_directory_read sd_bsize fuel dc off t =
      Done (Ok (match children l rest !! Z.to_nat off with
                | Some c => (off + 1, Some (base_name c))
                | None => (0, None)
                end)) (set_tm tm' t) ∧ ready tm' ∧ same_links (fs_tm t) tm'.
Proof. apply directory_read_ok. Qed.

(** Opening a directory finds its entry by the components of the path and
    refuses every other kind of file, a link to a directory included. *)
Theorem tarfs_directory_open_correct fuel ents path tm ctxs :
  archive 0 ents → (length ents < fuel)%nat → memory_ok → ready tm → path_chars path →
  ∃ tm', ready tm' ∧ same_links tm tm' ∧
    match lookup_entry ents path with
    | Err err => tarfs_op_directory_open sd_bsize fresh fuel path (mk_fs tm ctxs k0) =
        Done (Err err) (mk_fs tm' (delete v ctxs) k0)
    | Ok e =>
        if decide (th_typeflag (en_header e) = 53) then
          ∃ fc, context_of e fc ∧ split_into (f_path fc) (components path) ∧
            tarfs_op_directory_open sd_bsize fresh fuel path (mk_fs tm ctxs k0) =
              Done (Ok v) (mk_fs tm' (<[v := fc]> ctxs) k1)
        else tarfs_op_directory_open sd_bsize fresh fuel path (mk_fs tm ctxs k0) =
          Done (Err ERROR_WRONG_KIND) (mk_fs tm' (delete v ctxs) k0)
    end.
Proof. apply directory_open_ok. Qed.

(** Without memory for a context nothing is opened and nothing changes but the
    allocator. *)
Theorem tarfs_open_no_memory depth fuel path tm ctxs k e k' :
  km_alloc sizeof_context k = Done (Err e) k' →
  tarfs_op_file_open sd_bsize fresh (S depth) fuel path (mk_fs tm ctxs k) = Done (Err e) (mk_fs (D:=D) tm ctxs k') ∧
  tarfs_op_directory_open sd_bsize fresh fuel path (mk_fs tm ctxs k) = Done (Err e) (mk_fs tm ctxs k').
Proof.
  intros Hal. unfold tarfs_op_directory_open. cbn [tarfs_op_file_open]. unfold bind_ok, bind, on_kernel, zoom.
  cbn [fs_memory]. by rewrite Hal.
Qed.

(** [tarfs_mount] registers the file system if the medium begins with the
    header of an entry; otherwise it gives the memory back. *)
Theorem tarfs_mount_correct {F : Type} `{FileSystems F} ents tm0 sdev (h : fs_host (tarfs_mount D) K F) a k k' f :
  archive 0 ents → ready tm0 →
  km_alloc sizeof_mount (uh_memory h) = Done (Ok a) k → km_free sizeof_mount a k = Done (Ok tt) k' →
  fs_register "ufs0" a (uh_fs h) = Done (Ok tt) f →
  match ents with
  | [] => mount_tarfs sd_bsize tm0 sdev h =
      Done (Err ERROR_NOT_FOUND) (mk_host (delete a (uh_mounts h)) k' (uh_fs h))
  | _ => ∃ tm, mount_tarfs sd_bsize tm0 sdev h = Done (Ok tt) (mk_host (<[a := tm]> (uh_mounts h)) k f) ∧
      ready tm ∧ tm_linklen tm = 0
  end.
Proof.
  intros Ha R Hal Hfr Hreg.
  set (tm1 := mk_mount TARFS_MOUNT_DEFAULT (tm_block tm0) (tm_header tm0) (tm_match tm0) (tm_linkbuf tm0) 0 sdev).
  assert (ready tm1) as R1 by (destruct R; by split).
  destruct (read_header_ok tm1 0 false R1 (archive_block _ _ Ha)) as (s'&Hr&R'&[_ Ll]&_).
  set (probe := bind_ok (tarfs_read_header sd_bsize 0 false) (λ _, ret (Ok tt))).
  inversion Ha as [? B Hz|? size rest B Hm Hd Hrest]; subst.
  - assert (probe tm1 = Done (Err ERROR_NOT_FOUND) s') as Hp.
    { unfold probe, bind_ok, bind. by rewrite Hr, Hz, decide_False, decide_True. }
    by apply (mount_with_ok _ _ _ _ _ _ h a k Hal Hp).
  - assert (probe tm1 = Done (Ok tt) s') as Hp.
    { unfold probe, bind_ok, bind. by rewrite Hr, decide_True. }
    exists s'. split; [|split; [done|by rewrite Ll]]. by apply (mount_with_ok _ _ _ _ _ _ h a k Hal Hp).
Qed.
End archive.
