(* ===== verification/TarfsExample.v ===== *)
(** A small tar archive, on which the theorems of [Tarfs.v] are applied.

    It holds the file [a] of five bytes and the directory [d] with a hard link
    [x] to [a] and a file [y]. *)

From S2P Require Import Prelude MachineInt Storage Paths Tarfs.

Local Open Scope Z_scope.

Definition padded (n : nat) (l : list Z) : list Z := take n (l ++ replicate n 0).
(** Eleven octal digits, of which the last is given, and a space. *)
Definition octal (n : Z) : list Z := replicate 10 48 ++ [48 + n; 32].
Definition header_block (name size : list Z) (type : Z) (link : list Z) : list Z :=
  padded 512 (padded 124 name ++ size ++ replicate 20 0 ++ [type] ++ padded 100 link ++ tar_header_magic).

Definition name_a : list Z := [46; 47; 97].
Definition archive_image : list Z :=
  header_block name_a (octal 5) 48 [] ++ padded 512 [104; 101; 108; 108; 111] ++
  header_block [46; 47; 100; 47] (octal 0) 53 [] ++
  header_block [46; 47; 100; 47; 120] (octal 0) 49 name_a ++
  header_block [46; 47; 100; 47; 121] (octal 1) 48 [] ++ padded 512 [33] ++
  replicate 1024 0.

Definition entry_a : entry := mk_entry (header_at archive_image 0) 512 5.
Definition entry_d : entry := mk_entry (header_at archive_image 1024) 1536 0.
Definition entry_x : entry := mk_entry (header_at archive_image 1536) 2048 0.
Definition entry_y : entry := mk_entry (header_at archive_image 2048) 2560 1.

#[local] Instance example_disk : BlockDevice unit := disk_blocks 512 archive_image.
#[local] Instance example_memory : KernelMemory unit :=
  {| km_alloc _ := ret (Ok 4096); km_free _ _ := ret (Ok tt) |}.
#[local] Instance example_systems : FileSystems (list (string * Z)) :=
  {| fs_register name c := bind get (λ l, bind (put (l ++ [(name, c)])) (λ _, ret (Ok tt))) |}.

Definition empty_path : tarfs_path := mk_path (replicate 100 0) [].
Definition empty_context : tarfs_file_context := mk_context (replicate 500 0) 0 0 empty_path.
Definition example_mount : tarfs_mount unit :=
  mk_mount 0 (replicate 512 0) (replicate 500 0) empty_path (replicate (Z.to_nat PAGE_SIZE) 0) 0 tt.

(** * It is an archive *)

Lemma archive_image_ok : image_ok 512 archive_image.
Proof.
  split; [|done|by vm_compute]. apply disk_medium; [by exists 9|].
  apply Forall_forall. intros b Hb.
  assert (forallb (λ b, (0 <=? b) && (b <? 256)) archive_image = true) as Hall by by vm_compute.
  pose proof (proj1 (forallb_forall _ _) Hall b (proj1 (list_elem_of_In _ _) Hb)) as E.
  apply andb_prop in E as [?%Z.leb_le ?%Z.ltb_lt]. by split.
Qed.

Lemma example_block off :
  0 ≤ off → off mod 512 = 0 → off + 512 ≤ 4096 → block_at archive_image off.
Proof. intros. split_and!; [done|done|]. by replace (Z.of_nat (length archive_image)) with 4096 by by vm_compute. Qed.

#[local] Ltac entry := apply archive_entry; [by apply example_block|by vm_compute|by vm_compute|].

Lemma example_archive_d : archive archive_image 1536 [entry_x; entry_y].
Proof. entry. entry. apply archive_end; [by apply example_block|by vm_compute]. Qed.

Lemma example_archive : archive archive_image 0 [entry_a; entry_d; entry_x; entry_y].
Proof. entry. entry. apply example_archive_d. Qed.

Lemma example_ready : ready example_mount.
Proof. split; try apply length_replicate; by vm_compute. Qed.

Lemma example_memory_ok : memory_ok empty_context tt tt 4096.
Proof. by split. Qed.

Lemma example_chars l : forallb (λ b, (0 <? b) && (b <? 256)) l = true → path_chars l.
Proof.
  intros Hl. apply Forall_forall. intros b Hb.
  pose proof (proj1 (forallb_forall _ _) Hl b (proj1 (list_elem_of_In _ _) Hb)) as E.
  apply andb_prop in E as [?%Z.ltb_lt ?%Z.ltb_lt]. by split.
Qed.

(** * The theorems on it *)

(** [/a/./b//c] *)
Lemma tarfs_split_path_correct_witness :
  ∃ tp, tarfs_split_path [47; 97; 47; 46; 47; 98; 47; 47; 99] empty_path = Done (Ok tt) tp ∧
    split_into tp [[97]; [98]; [99]].
Proof.
  destruct (tarfs_split_path_correct [47; 97; 47; 46; 47; 98; 47; 47; 99] empty_path) as (tp&Hr&_&Hs);
    [by apply example_chars|reflexivity|].
  exists tp. split; [exact Hr|]. apply Hs. vm_compute. lia.
Defined.

(** [/d/x], a link *)
Definition path_x : list Z := [47; 100; 47; 120].
Lemma tarfs_file_open_correct_witness :
  ∃ r tm', leads [entry_a; entry_d; entry_x; entry_y] PAGE_SIZE path_x r ∧ ready tm' ∧
    tm_linklen tm' = 0 ∧
    outcome_of tt tt 4096 r tm' ∅
      (tarfs_op_file_open 512 empty_context (Z.to_nat 8194) 5 path_x (mk_fs example_mount ∅ tt)).
Proof.
  apply (tarfs_file_open_correct 512 archive_image archive_image_ok empty_context tt tt 4096 5
    [entry_a; entry_d; entry_x; entry_y] (Z.to_nat 8194) path_x example_mount ∅ example_archive
    ltac:(simpl; lia) example_memory_ok example_ready).
  - by apply example_chars.
  - vm_compute. discriminate.
Defined.

Definition context_a : tarfs_file_context := mk_context (header_at archive_image 0) 512 5 empty_path.
Lemma tarfs_file_read_correct_witness :
  ∃ tm', tarfs_op_file_read 512 4096 1 3 (mk_fs example_mount {[ 4096 := context_a ]} tt) =
      Done (Ok [101; 108; 108]) (mk_fs tm' {[ 4096 := context_a ]} tt) ∧ ready tm'.
Proof.
  destruct (tarfs_file_read_correct 512 archive_image archive_image_ok [entry_a; entry_d; entry_x; entry_y]
    entry_a (mk_fs example_mount {[ 4096 := context_a ]} tt) 4096 context_a 1 3 example_archive)
    as (tm'&Hr&R&_); [by left|exact example_ready|reflexivity|done|lia|lia|].
  exists tm'. split; [exact Hr|exact R].
Defined.

(** The second child of [d] *)
Definition context_d : tarfs_file_context :=
  mk_context (header_at archive_image 1024) 1536 0 (mk_path (padded 100 [0; 100]) [1%nat]).
Lemma tarfs_directory_read_correct_witness :
  ∃ tm', tarfs_op_directory_read 512 3 4096 1 (mk_fs example_mount {[ 4096 := context_d ]} tt) =
      Done (Ok (2, Some [121])) (mk_fs tm' {[ 4096 := context_d ]} tt) ∧ ready tm'.
Proof.
  destruct (tarfs_directory_read_correct 512 archive_image archive_image_ok 3 entry_d [entry_x; entry_y]
    [[100]] (mk_fs example_mount {[ 4096 := context_d ]} tt) 4096 context_d 1 example_archive_d)
    as (tm'&Hr&R&_); [vm_compute; discriminate|vm_compute; discriminate|simpl; lia|exact example_ready|reflexivity|done| | |lia|].
  - split; [reflexivity|]. repeat constructor.
  - constructor; [by apply example_chars|constructor].
  - exists tm'. split; [exact Hr|exact R].
Defined.

Lemma tarfs_directory_open_correct_witness :
  ∃ tm' fc, tarfs_op_directory_open 512 empty_context 5 [47; 100] (mk_fs example_mount ∅ tt) =
      Done (Ok 4096) (mk_fs tm' {[ 4096 := fc ]} tt) ∧ context_of entry_d fc.
Proof.
  destruct (tarfs_directory_open_correct 512 archive_image archive_image_ok empty_context tt tt 4096 5
    [entry_a; entry_d; entry_x; entry_y] [47; 100] example_mount ∅ example_archive
    ltac:(simpl; lia) example_memory_ok example_ready) as (tm'&R&_&Hm); [by apply example_chars|].
  assert (lookup_entry [entry_a; entry_d; entry_x; entry_y] [47; 100] = Ok entry_d) as E by (vm_compute; reflexivity).
  rewrite E in Hm. rewrite decide_True in Hm by (vm_compute; reflexivity).
  destruct Hm as (fc&Hc&_&Hr). exists tm', fc. split; [exact Hr|exact Hc].
Defined.

Lemma tarfs_mount_correct_witness :
  ∃ tm, mount_tarfs 512 example_mount tt (mk_host ∅ tt []) =
    Done (Ok tt) (mk_host {[ 4096 := tm ]} tt [("ufs0"%string, 4096)]) ∧ ready tm ∧ tm_linklen tm = 0.
Proof.
  apply (tarfs_mount_correct 512 archive_image archive_image_ok [entry_a; entry_d; entry_x; entry_y] example_mount
    tt (mk_host ∅ tt []) 4096 tt tt [("ufs0"%string, 4096)] example_archive example_ready);
    reflexivity.
Defined.
