(* ===== verification/Exec.v ===== *)
(** The program loader ([mk/core/core_exec.c], [mk/core/elf64.h]).

    A program is read through the read operation of an open file and put into
    the address space of a task through a window of the kernel's address
    space.  The file is the interface [file_law]: a read gives some of the
    bytes asked for, and none only at the end of the file.  The memory is the
    class [LoadMemory], with the laws of [memory_law].

    The theorems: reading a range of the file gives its bytes, or never ends
    if the file is too short; a file that fails the checks of the header is
    refused before memory is touched; and a loaded program's address space
    shows the segments of the file with zeros after them. *)

From S2P Require Import Prelude MachineInt Storage.

Local Open Scope Z_scope.
Local Open Scope c_scope.

(** * [elf64.h] *)

Definition ELF_HEADER_MAGIC : list Z := [127; 69; 76; 70].
Definition ELF_HEADER_IDENT_CLASS : nat := 4.
Definition ELF_HEADER_CLASS_64 : Z := 0x02.
Definition ELF_HEADER_IDENT_DATA : nat := 5.
Definition ELF_HEADER_DATA_2MSB : Z := 0x02.
Definition ELF_TYPE_EXEC : Z := 0x0002.
Definition ELF_MACHINE_MIPSBE : Z := 0x0008.
Definition ELF_VERSION_1 : Z := 0x0001.
Definition ELF_ENTRY_NONE : Z := 0.
Definition ELF_PROGRAM_HEADER_TYPE_LOAD : Z := 1.

(** Without the section headers and flags. *)
Record elf64_header := mk_eh {
  eh_ident : list Z;
  eh_type : Z;
  eh_machine : Z;
  eh_version : Z;
  eh_entry : Z;
  eh_phoff : Z;
  eh_phentsize : Z;
  eh_phnum : Z
}.
Definition ELF_HEADER_CHECK_MAGIC (eh : elf64_header) : bool :=
  bool_decide (take 4 (eh_ident eh) = ELF_HEADER_MAGIC).

Record elf64_program_header := mk_ph {
  ph_type : Z;
  ph_off : Z;
  ph_vaddr : Z;
  ph_filesize : Z;
  ph_memorysize : Z;
  ph_align : Z
}.

Definition sizeof_eh : Z := 64.
Definition sizeof_ph : Z := 56.

(** * Memory for programs: [vm_alloc_range_wire], [vm_unwire], and writing to
    the window they give *)

Class LoadMemory (X : Type) := {
  lm_range_wire : Z → Z → Z → M X (result (Z * Z));     (* address space, begin, end: window, offset *)
  lm_unwire : Z → Z → Z → Z → M X (result unit);        (* address space, address, length, window *)
  lm_store : Z → list Z → M X unit                      (* memset, memcpy *)
}.

(** * Tasks and threads, as far as the loader makes them *)

Class TaskOps (X : Type) := {
  tk_create : Z → M X (result Z);            (* task_create(parent, &task, name, TASK_DEFAULT) *)
  tk_port : Z → M X Z;                       (* task->t_ipc.ipct_task_port *)
  tk_vm : Z → M X Z;                         (* task->t_vm *)
  tk_thread : Z → M X (result Z);            (* thread_create(&td, task, ...) *)
  tk_upcall_user : Z → Z → M X unit;         (* thread_set_upcall_user(td, entry, 0) *)
  tk_runnable : Z → M X unit                 (* scheduler_thread_runnable(td) *)
}.

(** A window of the kernel's address space on an address space. *)
Record window := mk_window { w_vm : Z; w_low : Z; w_kv : Z }.

Section exec.
(** The byte order of the machine. *)
Context (big : bool).
Context {X : Type} `{LoadMemory X}.
(** [readf(fsc, fsfc, buf, off, &len)]: the bytes put into [buf] *)
Context (readf : Z → Z → M X (result (list Z))).

Definition eh_of (b : list Z) : elf64_header :=
  mk_eh (slice 0 16 b) (field big 16 2 b) (field big 18 2 b) (field big 20 4 b) (field big 24 8 b)
    (field big 32 8 b) (field big 54 2 b) (field big 56 2 b).
Definition ph_of (b : list Z) : elf64_program_header :=
  mk_ph (field big 0 4 b) (field big 8 8 b) (field big 16 8 b) (field big 32 8 b) (field big 40 8 b)
    (field big 48 8 b).

(** The bytes put into the buffer; [len] is what is left to read. *)
Fixpoint exec_read (fuel : nat) (off len : Z) : M X (result (list Z)) :=
  match fuel with
  | O => halt OutOfFuel
  | S fuel =>
      b <-? readf off len ;;
      let n := Z.of_nat (length b) in
      assert_ (n <=? len) "cannot have read too much data" ;;;
      if n =? len then ret (Ok b)
      else
        r <-? exec_read fuel (signed 64 (off + n)) (u64 (len - n)) ;;
        ret (Ok (b ++ r))
  end.

(** The checks of the header, in their order; every failure is
    [ERROR_INVALID]. *)
Definition check_header (eh : elf64_header) : bool :=
  ELF_HEADER_CHECK_MAGIC eh &&
  (eh_version eh =? ELF_VERSION_1) &&
  (eh_ident eh !!! ELF_HEADER_IDENT_CLASS =? ELF_HEADER_CLASS_64) &&
  (eh_ident eh !!! ELF_HEADER_IDENT_DATA =? ELF_HEADER_DATA_2MSB) &&
  (eh_machine eh =? ELF_MACHINE_MIPSBE) &&
  (eh_type eh =? ELF_TYPE_EXEC) &&
  negb (eh_entry eh =? ELF_ENTRY_NONE) &&
  (eh_phentsize eh =? sizeof_ph) &&
  negb (eh_phnum eh =? 0).

Definition read_ph (fuel : nat) (phoff i : Z) : M X elf64_program_header :=
  b <- or_panic "exec_read of program header failed"
         (exec_read fuel (signed 64 (u64 (phoff + i * sizeof_ph))) sizeof_ph) ;;
  ret (ph_of b).

(** The pages of a segment. *)
Definition ph_begin (ph : elf64_program_header) : Z := PAGE_FLOOR (ROUNDDOWN (ph_vaddr ph) (ph_align ph)).
Definition ph_end (ph : elf64_program_header) : Z :=
  PAGE_ROUNDUP (u64 (u64 (ph_vaddr ph + ph_memorysize ph) + u64 (ph_align ph - 1)) / ph_align ph * ph_align ph).
(** The span [low, high] with one more segment. *)
Definition widen (p : Z * Z) (ph : elf64_program_header) : Z * Z :=
  if p.2 =? 0 then (ph_begin ph, ph_end ph)
  else (if ph_begin ph <? p.1 then ph_begin ph else p.1, if p.2 <? ph_end ph then ph_end ph else p.2).

Fixpoint span_loop (fuel n : nat) (i phoff : Z) (p : Z * Z) : M X (Z * Z) :=
  match n with
  | O => ret p
  | S n =>
      ph <- read_ph fuel phoff i ;;
      if negb (ph_type ph =? ELF_PROGRAM_HEADER_TYPE_LOAD) then span_loop fuel n (i + 1) phoff p
      else if ph_align ph =? 0 then halt (Undefined "division by zero")
      else span_loop fuel n (i + 1) phoff (widen p ph)
  end.

Fixpoint load_loop (fuel n : nat) (i phoff low kvaddr : Z) : M X unit :=
  match n with
  | O => ret tt
  | S n =>
      ph <- read_ph fuel phoff i ;;
      (if negb (ph_type ph =? ELF_PROGRAM_HEADER_TYPE_LOAD) then ret tt
       else
         let len := MIN (ph_memorysize ph) (ph_filesize ph) in
         let begin := u64 (kvaddr + u64 (ph_vaddr ph - low)) in
         b <- or_panic "exec_read of program data failed" (exec_read fuel (signed 64 (ph_off ph)) len) ;;
         lm_store begin b) ;;;
      load_loop fuel n (i + 1) phoff low kvaddr
  end.

(** The entry point. *)
Definition exec_elf64_load (fuel : nat) (vm : Z) : M X (result Z) :=
  b <-? exec_read fuel 0 sizeof_eh ;;
  let eh := eh_of b in
  if negb (check_header eh) then ret (Err ERROR_INVALID)
  else
    p <- span_loop fuel (Z.to_nat (eh_phnum eh)) 0 (eh_phoff eh) (0, 0) ;;
    let low := p.1 in
    let high := p.2 in
    if (high =? 0) || (low =? high) then ret (Err ERROR_INVALID)
    else
      w <-? lm_range_wire vm low high ;;
      let kvaddr := w.1 in
      assert_ (w.2 =? 0) "cannot have offset into what should be an aligned page." ;;;
      lm_store kvaddr (replicate (Z.to_nat (u64 (high - low))) 0) ;;;
      load_loop fuel (Z.to_nat (eh_phnum eh)) 0 (eh_phoff eh) low kvaddr ;;;
      or_panic "could not unwire progam data" (lm_unwire vm low (u64 (high - low)) kvaddr) ;;;
      ret (Ok (eh_entry eh)).

Definition exec_load (fuel : nat) (vm : Z) : M X (result Z) := exec_elf64_load fuel vm.

Context `{TaskOps X}.

(** [*childp] *)
Definition exec_task (fuel : nat) (parent : Z) : M X (result Z) :=
  task <-? tk_create parent ;;
  child <- tk_port task ;;
  td <-? tk_thread task ;;
  vm <- tk_vm task ;;
  entry <-? exec_load fuel vm ;;
  tk_upcall_user td entry ;;;
  tk_runnable td ;;;
  ret (Ok child).

(** * Reading *)

(** The file holds the bytes [content]; [I] says that it is open, and [area]
    what is in memory. *)
Context (content : list Z) (I : X → Prop) (area : X → window → list Z → Prop).
Definition same_areas (x x' : X) : Prop := ∀ w l, area x w l → area x' w l.

(** A read may fail, and the file stays open. *)
Definition read_some (off len : Z) (r : result (list Z)) : Prop :=
  match r with
  | Ok b => ∃ n, b = slice off n content ∧ 0 ≤ n ≤ len ∧ off + n ≤ Z.of_nat (length content) ∧
      (off < Z.of_nat (length content) → 0 < len → 0 < n)
  | Err _ => True
  end.
Record file_law : Prop := {
  fl_size : Z.of_nat (length content) < 2 ^ 63;
  fl_read off len x : I x → 0 ≤ off ≤ Z.of_nat (length content) → 0 ≤ len < 2 ^ 64 →
    wp (readf off len) (λ r x', I x' ∧ same_areas x x' ∧ read_some off len r) may_panic x
}.
Context (Hfile : file_law).

Lemma same_areas_refl x : same_areas x x.
Proof. by intros kv l. Qed.
Lemma same_areas_trans x y z : same_areas x y → same_areas y z → same_areas x z.
Proof. intros Hxy Hyz kv l Hl. by apply Hyz, Hxy. Qed.

(** All of a range, or the error of a read. *)
Definition read_all (off len : Z) (x : X) (r : result (list Z)) (x' : X) : Prop :=
  I x' ∧ same_areas x x' ∧ match r with Ok b => b = slice off len content | Err _ => True end.

Lemma exec_read_ok fuel : ∀ off len x,
  I x → 0 ≤ off → 0 ≤ len → off + len ≤ Z.of_nat (length content) → len < Z.of_nat fuel →
  wp (exec_read fuel off len) (read_all off len x) may_panic x.
Proof.
  induction fuel as [|fuel IH]; intros off len x HI Ho Hl Hol Hf; [lia|].
  pose proof (fl_size Hfile) as Hsz. cbn [exec_read]. rewrite wp_bind_ok.
  eapply wp_mono; [apply (fl_read Hfile off len x HI); lia| |done].
  intros [b|e] x1 (HI1&Ha1&Hn); [|by split]. destruct Hn as (n&->&Hn&Hon&Hpos).
  rewrite length_slice, Z2Nat.id by lia. rewrite wp_bind, wp_assert, (proj2 (Z.leb_le n len)) by lia.
  destruct (Z.eqb_spec n len) as [->|Hne]; [by rewrite wp_ret|].
  rewrite signed64_small, u64_small, wp_bind_ok by lia.
  eapply wp_mono; [apply (IH (off + n) (len - n) x1 HI1); lia| |done].
  intros [b|e] x2 (HI2&Ha2&Hb); [rewrite wp_ret|]; (split; [done|split; [by eapply same_areas_trans|]]); [|done].
  rewrite Hb, slice_app by lia. f_equal. lia.
Qed.

(** A range that ends behind the file is never read: a read fails, or the loop
    goes on for ever. *)
Lemma exec_read_short fuel : ∀ off len x,
  I x → 0 ≤ off ≤ Z.of_nat (length content) → 0 ≤ len < 2 ^ 64 → Z.of_nat (length content) < off + len →
  wp (exec_read fuel off len) (λ r _, ∃ e, r = Err e) (λ w, may_panic w ∨ w = OutOfFuel) x.
Proof.
  induction fuel as [|fuel IH]; intros off len x HI Ho Hl Hol; [by right|].
  pose proof (fl_size Hfile) as Hsz. cbn [exec_read]. rewrite wp_bind_ok.
  eapply wp_mono; [apply (fl_read Hfile off len x HI Ho Hl)| |by left].
  intros [b|e] x1 (HI1&_&Hn); [|by exists e]. destruct Hn as (n&->&Hn&Hon&_).
  rewrite length_slice, Z2Nat.id by lia. rewrite wp_bind, wp_assert, (proj2 (Z.leb_le n len)) by lia.
  rewrite (proj2 (Z.eqb_neq n len)), signed64_small, u64_small, wp_bind_ok by lia.
  eapply wp_mono; [apply (IH (off + n) (len - n) x1 HI1); lia| |done].
  intros r x2 [e ->]. by exists e.
Qed.

(** * The program in the file *)

Definition the_eh : elf64_header := eh_of (slice 0 sizeof_eh content).
Definition the_ph (i : Z) : elf64_program_header :=
  ph_of (slice (eh_phoff the_eh + i * sizeof_ph) sizeof_ph content).
(** The segments from program header [i] on. *)
Definition loads_from (i : Z) (n : nat) : list elf64_program_header :=
  filter (λ ph, ph_type ph = ELF_PROGRAM_HEADER_TYPE_LOAD) (the_ph <$> seqZ i (Z.of_nat n)).
Definition loads : list elf64_program_header := loads_from 0 (Z.to_nat (eh_phnum the_eh)).
Definition span : Z * Z := foldl widen (0, 0) loads.

(** A segment the loader can place. *)
Record segment_ok (ph : elf64_program_header) : Prop := {
  sg_align : 0 < ph_align ph;
  sg_memory : 0 ≤ ph_vaddr ph ∧ 0 < ph_memorysize ph;
  sg_wrap : ph_vaddr ph + ph_memorysize ph + ph_align ph + PAGE_SIZE < 2 ^ 64;
  sg_file : 0 ≤ ph_filesize ph ∧ 0 ≤ ph_off ph ∧ ph_off ph + ph_filesize ph ≤ Z.of_nat (length content)
}.
Record elf_ok : Prop := {
  eo_size : sizeof_eh ≤ Z.of_nat (length content);
  eo_headers : 0 ≤ eh_phoff the_eh ∧ 0 ≤ eh_phnum the_eh ∧
    eh_phoff the_eh + eh_phnum the_eh * sizeof_ph ≤ Z.of_nat (length content);
  eo_segments : Forall segment_ok loads
}.

(** The bytes of a segment that come from the file. *)
Definition segment_bytes (ph : elf64_program_header) : list Z :=
  slice (ph_off ph) (MIN (ph_memorysize ph) (ph_filesize ph)) content.
(** What is in the window after some segments were loaded. *)
Definition load_segment (low : Z) (l : list Z) (ph : elf64_program_header) : list Z :=
  write_at (ph_vaddr ph - low) (segment_bytes ph) l.
Definition program_image : list Z :=
  foldl (load_segment span.1) (replicate (Z.to_nat (span.2 - span.1)) 0) loads.

(** What the loader needs of the memory: a window on new pages of a task, that
    holds what is stored there, and what the task sees once it is gone. *)
Context (shows : X → Z → Z → list Z → Prop).
Record memory_law : Prop := {
  ml_wire vm low high x :
    I x → 0 ≤ low < high → high < 2 ^ 64 → low mod PAGE_SIZE = 0 → high mod PAGE_SIZE = 0 →
    wp (lm_range_wire vm low high)
      (λ r x', I x' ∧ match r with
         | Ok (kv, o) => o = 0 ∧ 0 ≤ kv ∧ kv + (high - low) ≤ 2 ^ 64 ∧
             ∃ l, Z.of_nat (length l) = high - low ∧ area x' (mk_window vm low kv) l
         | Err _ => True
         end) may_panic x;
  ml_store w l o b x :
    I x → area x w l → 0 ≤ o → o + Z.of_nat (length b) ≤ Z.of_nat (length l) →
    ∃ x', lm_store (w_kv w + o) b x = Done tt x' ∧ I x' ∧ area x' w (write_at o b l);
  ml_unwire vm low kv l x :
    I x → area x (mk_window vm low kv) l →
    wp (lm_unwire vm low (Z.of_nat (length l)) kv) (λ r x', I x' ∧ (r = Ok tt → shows x' vm low l)) may_panic x
}.
Context (Hmem : memory_law) (Helf : elf_ok).

Lemma read_ph_ok fuel i x :
  I x → 0 ≤ i → eh_phoff the_eh + (i + 1) * sizeof_ph ≤ Z.of_nat (length content) →
  sizeof_ph < Z.of_nat fuel →
  wp (read_ph fuel (eh_phoff the_eh) i) (λ ph x', ph = the_ph i ∧ I x' ∧ same_areas x x') may_panic x.
Proof.
  intros HI Hi Hl Hf. pose proof (fl_size Hfile). destruct (eo_headers Helf) as (Hp&_&_).
  unfold sizeof_ph in *. unfold read_ph, sizeof_ph. rewrite wp_bind, wp_or_panic, u64_small, signed64_small by lia.
  eapply wp_mono; [apply (exec_read_ok fuel (eh_phoff the_eh + i * 56) 56 x HI); lia| |done].
  intros [b|e] x' (HI'&Ha&Hb); [|done]. rewrite wp_ret, Hb. by split.
Qed.

Lemma loads_from_S i n :
  loads_from i (S n) =
    if decide (ph_type (the_ph i) = ELF_PROGRAM_HEADER_TYPE_LOAD) then the_ph i :: loads_from (i + 1) n
    else loads_from (i + 1) n.
Proof.
  unfold loads_from. rewrite seqZ_cons by lia. cbn [fmap list_fmap].
  replace (Z.pred (Z.of_nat (S n))) with (Z.of_nat n) by lia. change (Z.succ i) with (i + 1).
  case_decide; [by rewrite filter_cons_True|by rewrite filter_cons_False].
Qed.

Lemma span_loop_ok fuel n : ∀ i p x,
  I x → 0 ≤ i → eh_phoff the_eh + (i + Z.of_nat n) * sizeof_ph ≤ Z.of_nat (length content) →
  sizeof_ph < Z.of_nat fuel → Forall segment_ok (loads_from i n) →
  wp (span_loop fuel n i (eh_phoff the_eh) p)
    (λ q x', q = foldl widen p (loads_from i n) ∧ I x' ∧ same_areas x x') may_panic x.
Proof.
  induction n as [|n IH]; intros i p x HI Hi Hl Hf Hs;
    [split_and!; [done..|apply same_areas_refl]|]. cbn [span_loop]. rewrite wp_bind.
  eapply wp_mono; [apply (read_ph_ok fuel i x HI Hi); [unfold sizeof_ph in *; lia|done]| |done].
  intros ph x1 (->&HI1&Ha1). rewrite loads_from_S in Hs |- *.
  destruct (Z.eqb_spec (ph_type (the_ph i)) ELF_PROGRAM_HEADER_TYPE_LOAD) as [E|E]; cbn [negb].
  - rewrite decide_True in Hs |- * by done. apply Forall_cons in Hs as [Hs1 Hs].
    pose proof (sg_align _ Hs1). rewrite (proj2 (Z.eqb_neq (ph_align (the_ph i)) 0)) by lia.
    eapply wp_mono; [apply (IH (i + 1) (widen p (the_ph i)) x1 HI1); (done || lia)| |done].
    intros q x2 (->&HI2&Ha2). split; [done|split; [done|by eapply same_areas_trans]].
  - rewrite decide_False in Hs |- * by done.
    eapply wp_mono; [apply (IH (i + 1) p x1 HI1); (done || lia)| |done].
    intros q x2 (->&HI2&Ha2). split; [done|split; [done|by eapply same_areas_trans]].
Qed.

(** ** The span *)

Lemma ph_begin_ok ph : segment_ok ph →
  0 ≤ ph_begin ph ≤ ph_vaddr ph ∧ ph_begin ph mod PAGE_SIZE = 0.
Proof.
  intros [Ha [Hv Hm] Hw _]. change PAGE_SIZE with 8192 in *. unfold ph_begin, ROUNDDOWN.
  set (b := ph_vaddr ph / ph_align ph * ph_align ph).
  assert (0 ≤ b ≤ ph_vaddr ph) as Hb.
  { pose proof (Z.div_mod (ph_vaddr ph) (ph_align ph)). pose proof (Z.mod_pos_bound (ph_vaddr ph) (ph_align ph)).
    pose proof (Z.div_pos (ph_vaddr ph) (ph_align ph)). unfold b. nia. }
  rewrite PAGE_FLOOR_sub by lia. pose proof (Z.mod_pos_bound b 8192). pose proof (Z.mod_le b 8192).
  split; [lia|]. rewrite <-PAGE_FLOOR_sub by lia. apply PAGE_FLOOR_aligned. lia.
Qed.

Lemma ph_end_ok ph : segment_ok ph →
  ph_vaddr ph + ph_memorysize ph ≤ ph_end ph < 2 ^ 64 ∧ ph_end ph mod PAGE_SIZE = 0.
Proof.
  intros [Ha [Hv Hm] Hw _]. change PAGE_SIZE with 8192 in *. unfold ph_end.
  rewrite (u64_small (ph_vaddr ph + _)), (u64_small (ph_align ph - 1)), (u64_small (_ + (_ - 1))) by lia.
  pose proof (ROUNDUP_bounds (ph_vaddr ph + ph_memorysize ph) (ph_align ph) Ha) as Hr. unfold ROUNDUP in Hr.
  destruct (PAGE_ROUNDUP_spec ((ph_vaddr ph + ph_memorysize ph + (ph_align ph - 1)) / ph_align ph * ph_align ph))
    as [Hm1 Hm2]; lia.
Qed.

(** The span is one of whole pages, and every segment lies in it. *)
Definition covers (p : Z * Z) (ph : elf64_program_header) : Prop :=
  p.1 ≤ ph_vaddr ph ∧ ph_vaddr ph + ph_memorysize ph ≤ p.2.
Definition span_ok (p : Z * Z) : Prop :=
  0 ≤ p.1 ∧ p.1 mod PAGE_SIZE = 0 ∧ p.2 mod PAGE_SIZE = 0 ∧ 0 ≤ p.2 < 2 ^ 64.

Lemma widen_ok p ph :
  span_ok p → segment_ok ph →
  span_ok (widen p ph) ∧ covers (widen p ph) ph ∧
  (∀ q, segment_ok q → covers p q → covers (widen p ph) q).
Proof.
  intros (H1&H2&H3&H4) Hs. destruct (ph_begin_ok ph Hs) as [Hb1 Hb2], (ph_end_ok ph Hs) as [He1 He2].
  destruct (sg_memory _ Hs) as [Hv Hm]. unfold widen, covers, span_ok.
  destruct (Z.eqb_spec p.2 0) as [E|E]; cbn [fst snd].
  - split_and!; try lia; try done. intros q Hq [_ Hc]. destruct (sg_memory _ Hq). lia.
  - destruct (Z.ltb_spec (ph_begin ph) p.1), (Z.ltb_spec p.2 (ph_end ph)); split_and!; try lia; try done;
      intros q _ [? ?]; lia.
Qed.

Lemma span_covers l : ∀ p,
  span_ok p → Forall segment_ok l →
  span_ok (foldl widen p l) ∧ Forall (covers (foldl widen p l)) l ∧
  (∀ q, segment_ok q → covers p q → covers (foldl widen p l) q).
Proof.
  induction l as [|ph l IH]; intros p Hp Hl; [by split_and!|]. apply Forall_cons in Hl as [Hs Hl].
  destruct (widen_ok p ph Hp Hs) as (Hp'&Hc&Hk). cbn [foldl]. destruct (IH (widen p ph) Hp' Hl) as (Hp2&Hc2&Hk2).
  split_and!; [done| |by auto]. constructor; [by apply Hk2|done].
Qed.

(** ** Loading *)

Lemma load_loop_ok fuel low kv vm n : ∀ i l x,
  I x → area x (mk_window vm low kv) l → 0 ≤ i →
  eh_phoff the_eh + (i + Z.of_nat n) * sizeof_ph ≤ Z.of_nat (length content) →
  Z.of_nat (length content) < Z.of_nat fuel → sizeof_ph < Z.of_nat fuel →
  0 ≤ low → 0 ≤ kv → kv + Z.of_nat (length l) ≤ 2 ^ 64 →
  Forall segment_ok (loads_from i n) → Forall (covers (low, low + Z.of_nat (length l))) (loads_from i n) →
  wp (load_loop fuel n i (eh_phoff the_eh) low kv)
    (λ _ x', I x' ∧ area x' (mk_window vm low kv) (foldl (load_segment low) l (loads_from i n))) may_panic x.
Proof.
  induction n as [|n IH]; intros i l x HI Ha Hi Hl Hf1 Hf2 Hlow Hkv Hkl Hs Hc; [done|].
  cbn [load_loop]. pose proof (fl_size Hfile) as Hsz. rewrite wp_bind.
  eapply wp_mono; [apply (read_ph_ok fuel i x HI Hi); [unfold sizeof_ph in *; lia|done]| |done].
  intros ph x1 (->&HI1&Ha1). rewrite loads_from_S in Hs, Hc |- *. rewrite wp_bind.
  destruct (Z.eqb_spec (ph_type (the_ph i)) ELF_PROGRAM_HEADER_TYPE_LOAD) as [E|E]; cbn [negb].
  2:{ rewrite decide_False in Hs, Hc |- * by done. rewrite wp_ret.
      apply (IH (i + 1) l x1 HI1 (Ha1 _ _ Ha)); (done || lia). }
  rewrite decide_True in Hs, Hc |- * by done. apply Forall_cons in Hs as [Hs1 Hs], Hc as [Hc1 Hc].
  set (ph := the_ph i) in *. destruct (sg_memory _ Hs1) as [Hv Hm], (sg_file _ Hs1) as (Hf&Ho&Hof).
  destruct Hc1 as [Hc1 Hc2]. cbn [fst snd] in Hc1, Hc2. pose proof (sg_wrap _ Hs1) as Hw.
  pose proof (sg_align _ Hs1). assert (0 < PAGE_SIZE) as Hpage by done.
  assert (MIN (ph_memorysize ph) (ph_filesize ph) = Z.min (ph_memorysize ph) (ph_filesize ph)) as Hmin
    by (unfold MIN; destruct (Z.ltb_spec (ph_memorysize ph) (ph_filesize ph)); lia).
  rewrite wp_bind, wp_or_panic, signed64_small, (u64_small (_ - low)), (u64_small (kv + _)) by lia.
  eapply wp_mono; [apply (exec_read_ok fuel (ph_off ph) (MIN (ph_memorysize ph) (ph_filesize ph)) x1 HI1); lia| |done].
  intros [b|e] x2 (HI2&Ha2&Hb); [|done]. fold (segment_bytes ph) in Hb. subst b.
  assert (Z.of_nat (length (segment_bytes ph)) ≤ ph_memorysize ph) as Hsl
    by (unfold segment_bytes; rewrite length_slice by lia; lia).
  destruct (ml_store Hmem (mk_window vm low kv) l (ph_vaddr ph - low) (segment_bytes ph) x2 HI2)
    as (x3&Hst&HI3&Ha3); [by apply Ha2, Ha1|lia|lia|].
  cbn [w_kv] in Hst. unfold wp at 1. rewrite Hst.
  assert (length (load_segment low l ph) = length l) as Hll by (apply length_write_at; lia).
  apply (IH (i + 1) (load_segment low l ph) x3 HI3 Ha3); rewrite ?Hll; (done || lia).
Qed.

Lemma length_image low l0 l :
  Forall segment_ok l → Forall (covers (low, low + Z.of_nat (length l0))) l →
  length (foldl (load_segment low) l0 l) = length l0.
Proof.
  revert l0. induction l as [|ph l IH]; intros l0 Hs Hc; [done|]. cbn [foldl].
  apply Forall_cons in Hs as [Hs1 Hs], Hc as [[Hc1 Hc2] Hc]. cbn [fst snd] in Hc1, Hc2.
  destruct (sg_memory _ Hs1) as [Hv Hm], (sg_file _ Hs1) as (Hf&Ho&Hof).
  assert (length (load_segment low l0 ph) = length l0) as E.
  { apply length_write_at; [lia|]. unfold segment_bytes.
    assert (MIN (ph_memorysize ph) (ph_filesize ph) = Z.min (ph_memorysize ph) (ph_filesize ph)) as ->
      by (unfold MIN; destruct (Z.ltb_spec (ph_memorysize ph) (ph_filesize ph)); lia).
    rewrite length_slice by lia. lia. }
  rewrite IH; [done|done|by rewrite E].
Qed.

Lemma elf64_load_ok fuel vm x :
  I x → Z.of_nat (length content) < Z.of_nat fuel →
  check_header the_eh = true → span.1 < span.2 →
  wp (exec_elf64_load fuel vm)
    (λ r x', I x' ∧ match r with Ok entry => entry = eh_entry the_eh ∧ shows x' vm span.1 program_image | Err _ => True end)
    may_panic x.
Proof.
  intros HI Hf Hok Hsp. destruct (eo_headers Helf) as (Hp0&Hn0&Hp). pose proof (eo_size Helf) as Hs.
  unfold sizeof_eh, sizeof_ph in *. unfold exec_elf64_load. rewrite wp_bind_ok.
  eapply wp_mono; [apply (exec_read_ok fuel 0 64 x HI); lia| |done].
  intros [b|e] x1 (HI1&_&Hb); [|by split]. subst b.
  change (eh_of (slice 0 64 content)) with the_eh. rewrite Hok. cbn [negb]. rewrite wp_bind.
  eapply wp_mono; [apply (span_loop_ok fuel (Z.to_nat (eh_phnum the_eh)) 0 (0, 0) x1 HI1);
    [done|unfold sizeof_ph; rewrite Z2Nat.id by done; lia|unfold sizeof_ph; lia|apply (eo_segments Helf)]| |done].
  intros q x2 (->&HI2&_). fold loads. fold span.
  destruct (span_covers loads (0, 0)) as ((S1&S2&S3&S4)&Hcov&_); [by split_and!|apply (eo_segments Helf)|].
  fold span in S1, S2, S3, S4, Hcov. rewrite (proj2 (Z.eqb_neq span.2 0)) by lia.
  rewrite (proj2 (Z.eqb_neq span.1 span.2)) by lia. cbn [orb]. rewrite wp_bind_ok.
  eapply wp_mono; [apply (ml_wire Hmem vm span.1 span.2 x2 HI2); (done || lia)| |done].
  intros [[kv o]|e] x3 [HI3 Hres]; [|done]. destruct Hres as (->&Hkv&Hkl&l&Hll&Ha3). cbn [fst snd].
  rewrite wp_bind, wp_assert. cbn [Z.eqb]. rewrite wp_bind, u64_small by lia.
  destruct (ml_store Hmem (mk_window vm span.1 kv) l 0 (replicate (Z.to_nat (span.2 - span.1)) 0) x3 HI3 Ha3)
    as (x4&Hr4&HI4&Ha4); [done|rewrite length_replicate; lia|]. cbn [w_kv] in Hr4. rewrite Z.add_0_r in Hr4.
  unfold wp at 1. rewrite Hr4.
  assert (write_at 0 (replicate (Z.to_nat (span.2 - span.1)) 0) l = replicate (Z.to_nat (span.2 - span.1)) 0) as E.
  { unfold write_at. cbn [Z.to_nat take app Nat.add]. rewrite length_replicate, drop_ge, app_nil_r by lia. done. }
  rewrite E in Ha4. rewrite wp_bind.
  eapply wp_mono; [apply (load_loop_ok fuel span.1 kv vm (Z.to_nat (eh_phnum the_eh)) 0 _ x4 HI4 Ha4);
    rewrite ?length_replicate, ?Z2Nat.id by lia; try (unfold sizeof_ph; lia)| |done].
  { apply (eo_segments Helf). }
  { fold loads. replace (span.1 + (span.2 - span.1)) with span.2 by lia. by destruct span. }
  intros [] x5 [HI5 Ha5]. fold loads in Ha5. fold program_image in Ha5.
  rewrite wp_bind, wp_or_panic.
  assert (Z.of_nat (length program_image) = span.2 - span.1) as Hpl.
  { unfold program_image. rewrite length_image; [rewrite length_replicate; lia|apply (eo_segments Helf)|].
    rewrite length_replicate, Z2Nat.id by lia. replace (span.1 + _) with span.2 by lia. by destruct span. }
  pose proof (ml_unwire Hmem vm span.1 kv program_image x5 HI5 Ha5) as Hun. rewrite Hpl in Hun.
  eapply wp_mono; [exact Hun| |done]. intros [[]|e] x6 [HI6 Hsh]; [|done]. rewrite wp_ret. auto.
Qed.

(** ** The bytes of the image *)

Definition disjoint (p q : elf64_program_header) : Prop :=
  ph_vaddr q + ph_memorysize q ≤ ph_vaddr p ∨ ph_vaddr p + ph_memorysize p ≤ ph_vaddr q.

Lemma segment_bytes_length ph : segment_ok ph →
  Z.of_nat (length (segment_bytes ph)) = Z.min (ph_memorysize ph) (ph_filesize ph).
Proof.
  intros Hs. destruct (sg_memory _ Hs) as [Hv Hm], (sg_file _ Hs) as (Hf&Ho&Hof). unfold segment_bytes.
  assert (MIN (ph_memorysize ph) (ph_filesize ph) = Z.min (ph_memorysize ph) (ph_filesize ph)) as ->
    by (unfold MIN; destruct (Z.ltb_spec (ph_memorysize ph) (ph_filesize ph)); lia).
  rewrite length_slice; lia.
Qed.

Lemma write_at_out o (b l : list Z) (j : nat) :
  0 ≤ o → Z.of_nat j < o ∨ o + Z.of_nat (length b) ≤ Z.of_nat j → o + Z.of_nat (length b) ≤ Z.of_nat (length l) →
  write_at o b l !! j = l !! j.
Proof.
  intros Ho Hj Hl. unfold write_at. destruct Hj as [Hj|Hj].
  - rewrite lookup_app_l by (rewrite length_take; lia). by rewrite lookup_take_lt by lia.
  - rewrite lookup_app_r by (rewrite length_take; lia). rewrite length_take.
    rewrite lookup_app_r by lia. rewrite lookup_drop. f_equal. lia.
Qed.
Lemma write_at_in o (b l : list Z) (k : nat) :
  0 ≤ o → (k < length b)%nat → o + Z.of_nat (length b) ≤ Z.of_nat (length l) →
  write_at o b l !! (Z.to_nat o + k)%nat = b !! k.
Proof.
  intros Ho Hk Hl. unfold write_at. rewrite lookup_app_r by (rewrite length_take; lia). rewrite length_take.
  rewrite lookup_app_l by lia. f_equal. lia.
Qed.

Lemma image_untouched low l l0 (j : nat) :
  Forall segment_ok l → Forall (covers (low, low + Z.of_nat (length l0))) l →
  Forall (λ q, low + Z.of_nat j < ph_vaddr q ∨ ph_vaddr q + ph_memorysize q ≤ low + Z.of_nat j) l →
  foldl (load_segment low) l0 l !! j = l0 !! j.
Proof.
  revert l0. induction l as [|ph l IH]; intros l0 Hs Hc Hj; [done|]. cbn [foldl].
  pose proof Hs as [Hs1 Hs']%Forall_cons. pose proof Hc as [[Hc1 Hc2] Hc']%Forall_cons.
  apply Forall_cons in Hj as [Hj1 Hj']. cbn [fst snd] in Hc1, Hc2.
  pose proof (segment_bytes_length ph Hs1) as Hsl. destruct (sg_memory _ Hs1), (sg_file _ Hs1).
  assert (length (load_segment low l0 ph) = length l0) as E by (apply length_write_at; lia).
  rewrite IH; [|done|by rewrite E|done]. apply write_at_out; lia.
Qed.

Lemma image_byte ph l1 l2 (k : nat) :
  loads = l1 ++ ph :: l2 → Forall (disjoint ph) (l1 ++ l2) → span.1 < span.2 →
  Z.of_nat k < ph_memorysize ph →
  program_image !! (Z.to_nat (ph_vaddr ph - span.1) + k)%nat =
    if decide (Z.of_nat k < ph_filesize ph) then content !! (Z.to_nat (ph_off ph) + k)%nat else Some 0.
Proof.
  intros Hl Hd Hsp Hk. pose proof (eo_segments Helf) as Hs.
  destruct (span_covers loads (0, 0)) as ((S1&S2&S3&S4)&Hcov&_); [by split_and!|done|]. fold span in S1, S2, S3, S4, Hcov.
  set (low := span.1) in *. set (l0 := replicate (Z.to_nat (span.2 - low)) 0).
  assert (Z.of_nat (length l0) = span.2 - low) as Hl0 by (unfold l0; rewrite length_replicate; lia).
  assert (∀ q, covers span q → covers (low, low + Z.of_nat (length l0)) q) as Hcq.
  { intros q [? ?]. split; cbn [fst snd]; lia. }
  unfold program_image. fold low l0. rewrite Hl in Hs, Hcov |- *. rewrite foldl_app. cbn [foldl].
  apply Forall_app in Hs as [Hs1 [Hsp1 Hs2]%Forall_cons], Hcov as [Hc1 [Hcp Hc2]%Forall_cons], Hd as [Hd1 Hd2].
  assert (∀ l, Forall (covers span) l → Forall (covers (low, low + Z.of_nat (length l0))) l) as Hcl
    by (intros l Hc; by eapply Forall_impl).
  assert (length (foldl (load_segment low) l0 l1) = length l0) as E1 by (apply length_image; auto).
  set (m1 := foldl (load_segment low) l0 l1) in *.
  pose proof (segment_bytes_length ph Hsp1) as Hsl. destruct (sg_memory _ Hsp1) as [Hv Hm], (sg_file _ Hsp1) as (Hf&Ho&Hof).
  destruct (Hcq ph Hcp) as [Hp1 Hp2]. cbn [fst snd] in Hp1, Hp2.
  assert (length (load_segment low m1 ph) = length l0) as E2 by (rewrite <-E1; apply length_write_at; lia).
  assert (∀ l, Forall (disjoint ph) l → Forall (λ q, low + Z.of_nat (Z.to_nat (ph_vaddr ph - low) + k) < ph_vaddr q ∨
    ph_vaddr q + ph_memorysize q ≤ low + Z.of_nat (Z.to_nat (ph_vaddr ph - low) + k)) l) as Hout.
  { intros l Hdl. eapply Forall_impl; [done|]. intros q [?|?]; [right|left]; lia. }
  rewrite image_untouched; [|done|rewrite E2; auto|auto]. unfold load_segment.
  case_decide as Hkf.
  - rewrite write_at_in by lia. unfold segment_bytes, slice. rewrite lookup_take_lt, lookup_drop; [done|].
    unfold MIN. destruct (Z.ltb_spec (ph_memorysize ph) (ph_filesize ph)); lia.
  - rewrite write_at_out by lia. unfold m1. rewrite image_untouched; [|done|auto|auto].
    unfold l0. apply lookup_replicate. lia.
Qed.

(** * The theorems *)

(** Reading a range of a file: its bytes, in however many reads they come, or
    the error of a read; a range that ends behind the file is never read. *)
Theorem exec_read_correct fuel off len x :
  I x → 0 ≤ off ≤ Z.of_nat (length content) → 0 ≤ len < 2 ^ 63 →
  if decide (off + len ≤ Z.of_nat (length content)) then
    len < Z.of_nat fuel → wp (exec_read fuel off len) (read_all off len x) may_panic x
  else wp (exec_read fuel off len) (λ r _, ∃ e, r = Err e) (λ w, may_panic w ∨ w = OutOfFuel) x.
Proof.
  intros HI Ho Hl. case_decide as E.
  - intros Hf. apply exec_read_ok; (done || lia).
  - apply exec_read_short; (done || lia).
Qed.

(** A file whose header fails a check is refused, and memory is not
    touched. *)
Lemma header_rejected fuel vm x :
  I x → sizeof_eh ≤ Z.of_nat (length content) → sizeof_eh < Z.of_nat fuel → check_header the_eh = false →
  wp (exec_elf64_load fuel vm) (λ r x', (∃ e, r = Err e) ∧ I x' ∧ same_areas x x') may_panic x.
Proof.
  intros HI Hs Hf Hc. unfold exec_elf64_load. rewrite wp_bind_ok.
  eapply wp_mono; [by apply (exec_read_ok fuel 0 sizeof_eh x HI)| |done].
  intros [b|e] x' (HI'&Ha&Hb); [|by split; [exists e|]]. subst b.
  change (eh_of (slice 0 sizeof_eh content)) with the_eh. rewrite Hc. cbn [negb]. rewrite wp_ret. by split; [eexists|].
Qed.
Theorem exec_elf64_load_rejects fuel vm x :
  I x → sizeof_eh ≤ Z.of_nat (length content) → sizeof_eh < Z.of_nat fuel → check_header the_eh = false →
  wp (exec_elf64_load fuel vm) (λ r x', (∃ e, r = Err e) ∧ I x' ∧ same_areas x x') may_panic x.
Proof. apply header_rejected. Qed.

(** C30: Loading a well-formed program ([elf_ok]: its segments lie in the file,
    with an alignment) gives an error, or its entry point; in that case the
    task's address space shows, from the first page of the program on, an image
    in which every segment that overlaps no other has the bytes of the file,
    followed by zeros.  Reads may fail, with an error or a panic of the loader. *)
Theorem exec_elf64_load_correct fuel vm x :
  I x → Z.of_nat (length content) < Z.of_nat fuel →
  check_header the_eh = true → span.1 < span.2 →
  wp (exec_elf64_load fuel vm)
    (λ r x', I x' ∧ match r with
       | Ok entry => entry = eh_entry the_eh ∧ shows x' vm span.1 program_image ∧
           ∀ ph l1 l2 (k : nat), loads = l1 ++ ph :: l2 → Forall (disjoint ph) (l1 ++ l2) →
             Z.of_nat k < ph_memorysize ph →
             program_image !! (Z.to_nat (ph_vaddr ph - span.1) + k)%nat =
               if decide (Z.of_nat k < ph_filesize ph) then content !! (Z.to_nat (ph_off ph) + k)%nat
               else Some 0
       | Err _ => True
       end) may_panic x.
Proof.
  intros HI Hf Hc Hsp. eapply wp_mono; [by apply elf64_load_ok| |done].
  intros [entry|e] x' [HI' Hr]; [|done]. destruct Hr as [-> Hsh]. split_and!; [done|done|done|].
  intros ph l1 l2 k Hl Hd Hk. by apply (image_byte ph l1 l2).
Qed.
End exec.
