(* ===== verification/Fs.v ===== *)
(** File systems in the kernel ([mk/fs/fs.c], [mk/fs/fs_ops.h]).

    A file system is a record of operations; [fs_spec] is what the rest of the
    kernel relies on: an opened file is a sequence of bytes until it is
    closed, and closing leaves the file system as it was before.  Running a
    program is opening it, loading it and closing it; the theorem says that
    nothing stays open. *)

From S2P Require Import Prelude MachineInt Storage Paths Exec.

Local Open Scope Z_scope.
Local Open Scope c_scope.

(** * [fs_ops.h] *)

Record fs_ops (X : Type) := mk_fs_ops {
  fs_file_open : list Z → M X (result Z);
  fs_file_read : Z → Z → Z → M X (result (list Z));                (* context, offset, length *)
  fs_file_close : Z → M X (result unit);
  fs_directory_open : list Z → M X (result Z);
  fs_directory_read : Z → Z → M X (result (Z * option (list Z)));  (* context, offset *)
  fs_directory_close : Z → M X (result unit)
}.
Arguments mk_fs_ops {X}.
Arguments fs_file_open {X}.
Arguments fs_file_read {X}.
Arguments fs_file_close {X}.
Arguments fs_directory_open {X}.
Arguments fs_directory_read {X}.
Arguments fs_directory_close {X}.

(** The operations on a part of the state. *)
Definition lift_ops {X Y} (view : Y → X) (set : X → Y → Y) (fso : fs_ops X) : fs_ops Y :=
  mk_fs_ops (λ p, zoom view set (fs_file_open fso p)) (λ c o n, zoom view set (fs_file_read fso c o n))
    (λ c, zoom view set (fs_file_close fso c)) (λ p, zoom view set (fs_directory_open fso p))
    (λ c o, zoom view set (fs_directory_read fso c o)) (λ c, zoom view set (fs_directory_close fso c)).

(** * [fs.c] *)

Definition FS_BOOTSTRAP_PATH : list Z := [47; 115; 98; 105; 110; 47; 98; 111; 111; 116; 115; 116; 114; 97; 112].
Definition IPC_PORT_UNKNOWN : Z := 0.

Section fs.
Context (big : bool) {X : Type} `{LoadMemory X} `{TaskOps X}.

Definition fs_exec (fuel : nat) (fs : fs_ops X) (path : list Z) : M X (result unit) :=
  fsfc <-? fs_file_open fs path ;;
  error <- exec_task big (fs_file_read fs fsfc) fuel IPC_PORT_UNKNOWN ;;
  or_panic "file close failed" (fs_file_close fs fsfc) ;;;
  match error with Err e => ret (Err e) | Ok _ => ret (Ok tt) end.

(** The number of file systems a bootstrap program was started from. *)
Fixpoint fs_autorun (fuel : nat) (fs_list : list (fs_ops X)) : M X Z :=
  match fs_list with
  | [] => ret 0
  | fs :: fs_list =>
      error <- fs_exec fuel fs FS_BOOTSTRAP_PATH ;;
      cnt <- fs_autorun fuel fs_list ;;
      ret (match error with Ok _ => cnt + 1 | Err _ => cnt end)
  end.
End fs.

(** * What a file system promises *)

(** [file_at]: the bytes of the file at a path; [idle]: no file is open; [opened x fc content]: the context [fc] is the
    only one, of a file of these bytes. *)
Record fs_spec {X} (fso : fs_ops X) (file_at : list Z → list Z → Prop) (idle : X → Prop)
    (opened : X → Z → list Z → Prop) : Prop := {
  fp_open path x : path_chars path → idle x →
    wp (fs_file_open fso path)
      (λ r x', match r with Ok fc => ∃ content, file_at path content ∧ opened x' fc content
                | Err _ => idle x' end) never x;
  fp_size x fc content : opened x fc content → Z.of_nat (length content) < 2 ^ 63;
  fp_read x fc content off len :
    opened x fc content → 0 ≤ off ≤ Z.of_nat (length content) → 0 ≤ len < 2 ^ 64 →
    ∃ n x', fs_file_read fso fc off len x = Done (Ok (slice off n content)) x' ∧ opened x' fc content ∧
      0 ≤ n ≤ len ∧ off + n ≤ Z.of_nat (length content) ∧
      (off < Z.of_nat (length content) → 0 < len → 0 < n);
  fp_close x fc content : opened x fc content →
    ∃ x', fs_file_close fso fc x = Done (Ok tt) x' ∧ idle x'
}.

(** What running a program needs of it: less, for reading and closing may
    fail, and every operation may panic. *)
Record fs_law {X} (fso : fs_ops X) (file_at : list Z → list Z → Prop) (idle : X → Prop)
    (opened : X → Z → list Z → Prop) : Prop := {
  fw_open path x : path_chars path → idle x →
    wp (fs_file_open fso path)
      (λ r x', match r with Ok fc => ∃ content, file_at path content ∧ opened x' fc content
                | Err _ => idle x' end) may_panic x;
  fw_size x fc content : opened x fc content → Z.of_nat (length content) < 2 ^ 63;
  fw_read x fc content off len :
    opened x fc content → 0 ≤ off ≤ Z.of_nat (length content) → 0 ≤ len < 2 ^ 64 →
    wp (fs_file_read fso fc off len) (λ r x', opened x' fc content ∧ read_some content off len r) may_panic x;
  fw_close x fc content : opened x fc content →
    wp (fs_file_close fso fc) (λ r x', r = Ok tt → idle x') may_panic x
}.

Lemma fs_spec_law {X} (fso : fs_ops X) file_at idle opened :
  fs_spec fso file_at idle opened → fs_law fso file_at idle opened.
Proof.
  intros [Ho Hs Hr Hc]. split; [|done|..].
  - intros path x Hp Hi. by eapply wp_mono; [apply Ho| |].
  - intros x fc content off len Hop Hof Hl. destruct (Hr x fc content off len Hop Hof Hl) as (n&x'&E&Hop'&Hn).
    unfold wp. rewrite E. split; [done|]. by exists n.
  - intros x fc content Hop. destruct (Hc x fc content Hop) as (x'&E&Hi). unfold wp. by rewrite E.
Qed.

(** * A file system beside the memory and the tasks *)

Section run.
Context (big : bool) {T V : Type} `{LoadMemory V} `{TaskOps V}.
Notation X := (T * V)%type.
Definition set_fst (t : T) (x : X) : X := (t, x.2).
Definition set_snd (v : V) (x : X) : X := (x.1, v).

#[local] Instance pair_memory : LoadMemory X := {|
  lm_range_wire vm low high := zoom snd set_snd (lm_range_wire vm low high);
  lm_unwire vm low len kv := zoom snd set_snd (lm_unwire vm low len kv);
  lm_store a b := zoom snd set_snd (lm_store a b)
|}.
#[local] Instance pair_tasks : TaskOps X := {|
  tk_create p := zoom snd set_snd (tk_create p);
  tk_port t := zoom snd set_snd (tk_port t);
  tk_vm t := zoom snd set_snd (tk_vm t);
  tk_thread t := zoom snd set_snd (tk_thread t);
  tk_upcall_user td e := zoom snd set_snd (tk_upcall_user td e);
  tk_runnable td := zoom snd set_snd (tk_runnable td)
|}.

Context (fso : fs_ops T) (file_at : list Z → list Z → Prop) (idle : T → Prop) (opened : T → Z → list Z → Prop).
Context (Hfs : fs_law fso file_at idle opened).
Context (area : V → window → list Z → Prop) (shows : V → Z → Z → list Z → Prop).
Context (Hmem : memory_law (λ _, True) area shows).

(** Making tasks and threads may fail or panic, and does not change what
    address spaces show once they are loaded. *)
Record task_law : Prop := {
  tl_create p (v : V) : wp (tk_create p) (λ _ _, True) may_panic v;
  tl_port t (v : V) : wp (tk_port t) (λ _ _, True) may_panic v;
  tl_vm t (v : V) : wp (tk_vm t) (λ _ _, True) may_panic v;
  tl_thread t (v : V) : wp (tk_thread t) (λ _ _, True) may_panic v;
  tl_upcall_user td e (v : V) : wp (tk_upcall_user td e)
    (λ _ v', ∀ vm a l, shows v vm a l → shows v' vm a l) may_panic v;
  tl_runnable td (v : V) : wp (tk_runnable td) (λ _ v', ∀ vm a l, shows v vm a l → shows v' vm a l) may_panic v
}.
Context (Htask : task_law).

Notation ops := (lift_ops fst set_fst fso).

Lemma pair_file fc content t :
  opened t fc content →
  file_law (fs_file_read ops fc) content (λ x : X, opened x.1 fc content) (λ x, area x.2).
Proof.
  intros Ho. split; [by eapply fw_size|]. intros off len [t' v] HI Hoff Hlen.
  cbn [fs_file_read lift_ops]. rewrite wp_zoom.
  eapply wp_mono; [apply (fw_read _ _ _ _ Hfs t' fc content off len HI Hoff Hlen)| |done].
  intros r t2 [HI' Hn]. split; [done|]. split; [by intros w l|done].
Qed.

Lemma pair_memory_law (I : T → Prop) :
  memory_law (λ x : X, I x.1) (λ x, area x.2) (λ x, shows x.2).
Proof.
  split.
  - intros vm low high [t v] HI Hl Hh Hm1 Hm2. cbn [lm_range_wire pair_memory]. rewrite wp_zoom.
    eapply wp_mono; [by apply (ml_wire _ _ _ Hmem)| |done]. intros r v' [_ Hr]. by split.
  - intros w l o b [t v] HI Ha Ho Hl. destruct (ml_store _ _ _ Hmem w l o b v) as (v'&Hr&_&Ha'); [done..|].
    exists (t, v'). cbn [lm_store pair_memory]. unfold zoom. cbn [snd]. by rewrite Hr.
  - intros vm low kv l [t v] HI Ha. cbn [lm_unwire pair_memory]. rewrite wp_zoom.
    eapply wp_mono; [by apply (ml_unwire _ _ _ Hmem vm low kv l v)| |done]. by intros r v' [_ Hs].
Qed.

(** A file that can be loaded, or is refused. *)
Definition loadable (content : list Z) : Prop :=
  sizeof_eh ≤ Z.of_nat (length content) ∧
  (check_header (the_eh big content) = false ∨
   check_header (the_eh big content) = true ∧ elf_ok big content ∧ (span big content).1 < (span big content).2).

(** The address space shows the program of the file. *)
Definition loaded_at (v : V) (content : list Z) : Prop :=
  ∃ vm, shows v vm (span big content).1 (program_image big content).

Lemma exec_load_ok fc content fuel vm (x : X) :
  opened x.1 fc content → loadable content → Z.of_nat (length content) < Z.of_nat fuel →
  wp (exec_load big (fs_file_read ops fc) fuel vm)
    (λ r x', opened x'.1 fc content ∧ match r with Ok _ => loaded_at x'.2 content | Err _ => True end)
    may_panic x.
Proof.
  intros Ho [Hs Hl] Hf. pose proof (pair_file fc content x.1 Ho) as Hfile. unfold exec_load.
  destruct Hl as [Hc|(Hc&Helf&Hsp)].
  - eapply wp_mono; [apply (header_rejected big _ _ _ _ Hfile); (done || lia)| |done]. by intros r x' ([e ->]&HI&_).
  - eapply wp_mono; [by apply (elf64_load_ok _ _ _ _ _ Hfile _ (pair_memory_law (λ t, opened t fc content)) Helf)| |done].
    intros [e|err] x' [HI Hr]; (split; [done|]); [|done]. exists vm. apply Hr.
Qed.

Lemma wp_pair {A} (m : M V A) (Q : A → X → Prop) E (x : X) :
  wp m (λ a v, Q a (x.1, v)) E x.2 → wp (zoom snd set_snd m) Q E x.
Proof. intros. by rewrite wp_zoom. Qed.

(** C6: Running a program from a file system in which no file is open: if it
    comes back, with the child's port or with an error, no file is open, even
    if a read of the file fails, the file is no program, or there is no task,
    thread or memory for it; and when it succeeds an address space shows the
    program at the path.  The file at the path, if there is one, is a program
    that can be loaded or has a header that is refused, and is not shorter than
    a header: a file that ends before what is read from it is read for ever.
    Otherwise it stops only by a panic. *)
Theorem fs_exec_correct fuel path (x : X) :
  path_chars path → idle x.1 →
  (∀ content, file_at path content → loadable content ∧ Z.of_nat (length content) < Z.of_nat fuel) →
  wp (fs_exec big fuel ops path)
    (λ r x', idle x'.1 ∧ match r with
       | Ok _ => ∃ content, file_at path content ∧ loaded_at x'.2 content
       | Err _ => True
       end) may_panic x.
Proof.
  intros Hp Hi Hload. unfold fs_exec. rewrite wp_bind_ok. cbn [fs_file_open lift_ops]. rewrite wp_zoom.
  eapply wp_mono; [by apply (fw_open _ _ _ _ Hfs)| |done].
  intros [fc|e] t1 Hr; [|by split]. destruct Hr as (content&Hat&Ho). destruct (Hload content Hat) as [Hld Hf].
  rewrite wp_bind. eapply (wp_mono _ (λ (r : result Z) (x' : X), opened x'.1 fc content ∧
    match r with Ok _ => loaded_at x'.2 content | Err _ => True end)); [| |done].
  - unfold exec_task. set (x1 := set_fst t1 x). assert (opened x1.1 fc content) as Ho1 by done.
    generalize dependent x1. intros x1 Ho1.
    rewrite wp_bind_ok. apply wp_pair. eapply wp_mono; [apply (tl_create Htask)| |done].
    intros [task|e] v1 _; [|by split]. rewrite wp_bind. apply wp_pair.
    eapply wp_mono; [apply (tl_port Htask)| |done]. intros child v2 _. rewrite wp_bind_ok. apply wp_pair.
    eapply wp_mono; [apply (tl_thread Htask)| |done]. intros [td|e] v3 _; [|by split].
    rewrite wp_bind. apply wp_pair. eapply wp_mono; [apply (tl_vm Htask)| |done]. intros vm v4 _.
    rewrite wp_bind_ok. eapply wp_mono; [by apply (exec_load_ok fc content)| |done].
    intros [entry|e] x2 [Ho2 Hl2]; [|by split]. rewrite wp_bind. apply wp_pair.
    eapply wp_mono; [apply (tl_upcall_user Htask)| |done]. intros [] v5 H5. rewrite wp_bind. apply wp_pair.
    eapply wp_mono; [apply (tl_runnable Htask)| |done]. intros [] v6 H6. rewrite wp_ret.
    split; [done|]. destruct Hl2 as [vm' Hs]. exists vm'. by apply H6, H5.
  - intros r x2 [Ho2 Hl2]. rewrite wp_bind, wp_or_panic. cbn [fs_file_close lift_ops]. rewrite wp_zoom.
    eapply wp_mono; [by apply (fw_close _ _ _ _ Hfs x2.1 fc content)| |done].
    intros [[]|e] t3 Hi3; [|done]. destruct r as [c|e]; rewrite wp_ret; (split; [by apply Hi3|]); [|done]. by exists content.
Qed.
End run.
