(* ===== verification/FsTarfs.v ===== *)
(** The tar file system is a file system ([fs_spec] of Fs.v): the operations
    of [mk/io/storage/tarfs/tarfs_mount.c] as a [struct fs_ops]. *)

From S2P Require Import Prelude MachineInt Storage Paths Exec Fs Tarfs.

Local Open Scope Z_scope.

Section tarfs.
Context {D : Type} `{BlockDevice D} (sd_bsize : Z) (img : list Z).
Context {K : Type} `{KernelMemory K} (fresh : tarfs_file_context) (k0 k1 : K) (v : Z).
Implicit Types (t : tarfs_fs D K).

(** [depth] bounds the links and [fuel] the headers. *)
Definition tarfs_fs_ops (depth fuel : nat) : fs_ops (tarfs_fs D K) :=
  mk_fs_ops (tarfs_op_file_open sd_bsize fresh depth fuel) (tarfs_op_file_read sd_bsize) tarfs_op_file_close
    (tarfs_op_directory_open sd_bsize fresh fuel) (tarfs_op_directory_read sd_bsize fuel)
    tarfs_op_directory_close.

Context (ents : list entry) (c0 : gmap Z tarfs_file_context).

Definition entry_data (e : entry) : list Z := slice (en_daddr e) (en_size e) img.
Definition tar_file_at (path content : list Z) : Prop :=
  ∃ e, leads ents PAGE_SIZE path (Ok e) ∧ content = entry_data e.
Definition tar_idle t : Prop :=
  ready (fs_tm t) ∧ tm_linklen (fs_tm t) = 0 ∧ fs_contexts t = c0 ∧ fs_memory t = k0.
Definition tar_opened t (fc : Z) (content : list Z) : Prop :=
  fc = v ∧ ready (fs_tm t) ∧ tm_linklen (fs_tm t) = 0 ∧ fs_memory t = k1 ∧
  ∃ e f, e ∈ ents ∧ fs_contexts t = <[v := f]> c0 ∧ context_of e f ∧ content = entry_data e.

Context (Hig : image_ok sd_bsize img) (Ha : archive img 0 ents) (M : memory_ok fresh k0 k1 v).
Context (Hc0 : c0 !! v = None).

Lemma leads_in room path e : leads ents room path (Ok e) → e ∈ ents.
Proof.
  intros Hl. remember (Ok e) as r eqn:Er. induction Hl; try discriminate Er.
  - injection Er as ->. by eapply lookup_entry_in.
  - by apply IHHl.
Qed.

Lemma entry_data_length e : e ∈ ents → Z.of_nat (length (entry_data e)) = en_size e ∧ en_size e < 2 ^ 63.
Proof.
  intros He. destruct (archive_data sd_bsize img Hig 0 ents e Ha He) as (Hs&Hd&_&Hl).
  pose proof (ROUNDUP_bounds (en_size e) TARFS_BSIZE ltac:(done)). pose proof (ig_length _ _ Hig).
  unfold entry_data. rewrite length_slice by lia. lia.
Qed.

Lemma tarfs_is_fs depth fuel :
  PAGE_SIZE + 2 ≤ Z.of_nat depth → (length ents < fuel)%nat →
  fs_spec (tarfs_fs_ops depth fuel) tar_file_at tar_idle tar_opened.
Proof.
  intros Hdepth Hfuel. split.
  - intros path t Hp (R&Hll&Hc&Hk). destruct t as [tm ctxs k]. cbn [fs_tm fs_contexts fs_memory] in *. subst.
    cbn [fs_file_open tarfs_fs_ops].
    destruct (tar_file_open_ok sd_bsize img Hig fresh k0 k1 v fuel ents depth path tm c0 Ha Hfuel M R Hp)
      as (r&tm'&Hlead&R'&Hl'&Hout); [right; lia|]. rewrite Hll in Hlead, Hl'. rewrite Z.sub_0_r in Hlead.
    unfold wp. destruct r as [e|err]; cbn [outcome_of] in Hout.
    + destruct Hout as (fc&H1&H2&H3&->). exists (entry_data e). split; [by exists e|].
      split_and!; try done. exists e, fc. split_and!; [by eapply leads_in|done|done|done].
    + rewrite Hout. split_and!; try done. cbn. by rewrite delete_id.
  - intros t fc content (->&R&Hll&Hk&e&f&He&Hc&Hf&->). destruct (entry_data_length e He). lia.
  - intros t fc content off len (->&R&Hll&Hk&e&f&He&Hc&Hf&->) Hoff Hlen.
    destruct (entry_data_length e He) as [Hel Hes]. rewrite Hel in Hoff |- *.
    cbn [fs_file_read tarfs_fs_ops].
    destruct (tar_file_read_ok sd_bsize img Hig ents e t v f off len Ha He R) as (tm'&Hr&R'&[_ Hl']);
      [rewrite Hc; by apply lookup_insert_eq|done|lia|done|].
    pose proof (Z.mod_pos_bound off TARFS_BSIZE ltac:(done)) as Hmod.
    set (n := Z.min (Z.min len (TARFS_BSIZE - off mod TARFS_BSIZE)) (en_size e - off)) in *.
    exists n, (set_tm tm' t). rewrite Hr, decide_False by lia.
    destruct (archive_data sd_bsize img Hig 0 ents e Ha He) as (Hs&Hd&_&_).
    split; [unfold entry_data; by rewrite slice_slice by lia|split; [|lia]].
    split; [done|]. split; [exact R'|]. split; [change (tm_linklen tm' = 0); by rewrite Hl'|].
    split; [exact Hk|]. by exists e, f.
  - intros t fc content (->&R&Hll&Hk&e&f&He&Hc&Hf&->). destruct t as [tm ctxs k].
    cbn [fs_tm fs_contexts fs_memory] in *. subst. exists (mk_fs tm (delete v (<[v := f]> c0)) k0).
    cbn [fs_file_close tarfs_fs_ops]. unfold tarfs_op_file_close, bind.
    rewrite (free_context_ok fresh k0 k1 v tm _ M). split; [done|]. split_and!; try done. cbn.
    by rewrite delete_insert_eq, delete_id.
Qed.

(** C31: The tar file system keeps the promises of a file system: what is opened at
    a path is the file the archive has there, links followed, its reads make
    progress, and closing it gives back what opening took. *)
Theorem tarfs_fs_spec depth fuel :
  PAGE_SIZE + 2 ≤ Z.of_nat depth → (length ents < fuel)%nat →
  fs_spec (tarfs_fs_ops depth fuel) tar_file_at tar_idle tar_opened.
Proof. apply tarfs_is_fs. Qed.
End tarfs.
