(* ===== verification/FsUfs.v ===== *)
(** UFS is a file system ([fs_spec] of Fs.v): the operations of
    [mk/io/storage/ufs/ufs_mount.c] as a [struct fs_ops]. *)

From S2P Require Import Prelude MachineInt Storage Paths Exec Fs Ufs.

Local Open Scope Z_scope.

Section ufs.
Context (big : bool) {D : Type} `{BlockDevice D} (sd_bsize : Z) (img : list Z) (sb : ufs_superblock) (swap : bool).
Context {K : Type} `{KernelMemory K} (fresh : ufs_file_context) (fresh_dc : ufs_directory_context).
Context (dirs : gmap Z (list (ufs_directory_entry * list Z))) (k0 k1 : K) (v : Z).
Implicit Types (t : ufs_fs D K).

(** [fuel] is for the entries of a directory. *)
Definition ufs_fs_ops (fuel : nat) : fs_ops (ufs_fs D K) :=
  mk_fs_ops (ufs_op_file_open big sd_bsize fresh fuel) (ufs_op_file_read big sd_bsize) ufs_op_file_close
    (ufs_op_directory_open big sd_bsize fresh_dc fuel) (ufs_op_directory_read big sd_bsize)
    ufs_op_directory_close.

Context (f0 : gmap Z ufs_file_context).

(** The inode is that of a file with these bytes, none of them in a hole or
    behind a second level of indirect blocks. *)
Record holds (i : ufs2_inode) (content : list Z) : Prop := {
  ho_inode : inode_ok big img sb swap i;
  ho_size : in_size i = Z.of_nat (length content);
  ho_blocks : in_size i ≤ mappable_blocks sb * bsize sb;
  ho_bytes (o : nat) : (o < length content)%nat → file_byte big img sb swap i (Z.of_nat o) = content !! o
}.

Definition ufs_file_at (path content : list Z) : Prop :=
  ∃ i, opened big img sb swap dirs path = Ok i ∧ holds i content.
Definition ufs_idle t : Prop :=
  mounted sb swap (fs_um t) ∧ fs_files t = f0 ∧ fs_memory t = k0.
Definition ufs_opened t (fc : Z) (content : list Z) : Prop :=
  fc = v ∧ mounted sb swap (fs_um t) ∧ fs_memory t = k1 ∧
  ∃ i b, fs_files t = <[v := mk_fc i b]> f0 ∧ length b = Z.to_nat UFS_MAX_BSIZE ∧ holds i content.

(** There is memory for a context, the tree of directories is sound, and the
    files in it are files. *)
Record ufs_ok : Prop := {
  uo_sb : sb_ok sd_bsize img sb;
  uo_alloc : km_alloc sizeof_file_context k0 = Done (Ok v) k1;
  uo_free : km_free sizeof_file_context v k1 = Done (Ok tt) k0;
  uo_fresh : length (f_block fresh) = Z.to_nat UFS_MAX_BSIZE;
  uo_slot : f0 !! v = None;
  uo_tree : tree_ok big img sb swap dirs;
  uo_inodes path n : resolve dirs path = Ok n → 0 ≤ n < 2 ^ 32 ∧ fsbn_ok img sb (inode_fsbn sb n);
  uo_files path i : opened big img sb swap dirs path = Ok i → ∃ content, holds i content
}.
Context (U : ufs_ok).

Lemma holds_slice i content off n bs :
  holds i content → 0 ≤ off → Z.of_nat (length bs) = n → off + n ≤ Z.of_nat (length content) →
  (∀ (j : nat) b, bs !! j = Some b → file_byte big img sb swap i (off + Z.of_nat j) = Some b) →
  bs = slice off n content.
Proof.
  intros Hh Ho Hn Hl Hb. apply (list_eq_same_length _ _ (length bs)); [|done|].
  - rewrite length_slice by lia. lia.
  - intros j x y Hj Hx Hy. unfold slice in Hy. rewrite lookup_take_lt, lookup_drop in Hy by lia.
    apply Hb in Hx. replace (off + Z.of_nat j) with (Z.of_nat (Z.to_nat off + j)) in Hx by lia.
    rewrite (ho_bytes _ _ Hh) in Hx by lia. congruence.
Qed.

Lemma ufs_is_fs fuel :
  (∀ n ents, dirs !! n = Some ents → (length ents < fuel)%nat) →
  fs_spec (ufs_fs_ops fuel) ufs_file_at ufs_idle ufs_opened.
Proof.
  intros Hfuel. split.
  - intros path t Hp (Mt&Hf&Hk). destruct t as [um files directories k]. cbn [fs_um fs_files fs_memory] in *. subst.
    cbn [fs_file_open ufs_fs_ops].
    destruct (file_open_ok big sd_bsize img sb swap (uo_sb U) dirs fresh fuel path
      (mk_fs um f0 directories k0) v k1 k0 (uo_tree U) Hfuel Mt Hp (uo_inodes U path) (uo_alloc U) (uo_free U))
      as (u&Mu&Hr). unfold wp. rewrite Hr.
    destruct (opened big img sb swap dirs path) as [i|e] eqn:E.
    + destruct (uo_files U path i E) as [content Hc]. exists content. split; [by exists i|].
      split; [done|]. split; [done|]. split; [done|]. exists i, (f_block fresh). split; [done|].
      split; [apply (uo_fresh U)|done].
    + split; [done|]. split; [|done]. cbn. by rewrite delete_id by apply (uo_slot U).
  - intros t fc content (->&Mt&Hk&i&b&Hf&Hb&Hc). rewrite <-(ho_size _ _ Hc).
    apply (io_size _ _ _ _ _ (ho_inode _ _ Hc)).
  - intros t fc content off len (->&Mt&Hk&i&b&Hf&Hb&Hc) Hoff Hlen. pose proof (ho_size _ _ Hc) as Hsz.
    pose proof (io_size _ _ _ _ _ (ho_inode _ _ Hc)) as Hsz2. pose proof (bsize_bounds _ _ _ (uo_sb U)) as Hbs.
    pose proof (Z.mod_pos_bound off (bsize sb) ltac:(lia)) as Hmod.
    assert (off < in_size i → off / bsize sb < mappable_blocks sb) as Hmap.
    { intros Hlt. apply Z.div_lt_upper_bound; [lia|]. pose proof (ho_blocks _ _ Hc). lia. }
    pose proof (file_read_ok big sd_bsize img sb swap (uo_sb U) t v (mk_fc i b) off len Mt
      ltac:(rewrite Hf; apply lookup_insert_eq) (ho_inode _ _ Hc) Hb ltac:(lia) Hlen) as Hw.
    unfold wp in Hw. cbn [fs_file_read ufs_fs_ops].
    destruct (ufs_op_file_read big sd_bsize v off len t) as [r t'|w]; cbn [f_in f_block] in Hw; [|lia].
    destruct Hw as (Mt'&_&(b'&Hb'&Hf')&_&Hk'&Hr).
    assert (∃ bs, r = Ok bs ∧ Z.of_nat (length bs) = Z.min (Z.min len (bsize sb - off mod bsize sb)) (in_size i - off) ∧
      ∀ (j : nat) x, bs !! j = Some x → file_byte big img sb swap i (off + Z.of_nat j) = Some x) as (bs&->&Hl&Hj).
    { destruct r as [bs|e]; [exists bs; cbn [reads] in Hr; naive_solver|]. exfalso. cbn [reads] in Hr.
      destruct Hr as [[_ ?]|(_&Hlt&Hnone)]; [lia|].
      pose proof (ho_bytes _ _ Hc (Z.to_nat off) ltac:(lia)) as Hbyte. rewrite Z2Nat.id in Hbyte by lia.
      unfold file_byte in Hbyte. rewrite Hnone in Hbyte. cbn in Hbyte.
      symmetry in Hbyte. apply lookup_ge_None in Hbyte. lia. }
    exists (Z.min (Z.min len (bsize sb - off mod bsize sb)) (in_size i - off)), t'.
    split; [|split; [|lia]].
    + do 2 f_equal. by eapply (holds_slice i content); [done|lia|done|lia|].
    + split; [done|]. split; [done|]. split; [congruence|]. exists i, b'. split; [|by rewrite Hb'].
      by rewrite Hf', Hf, insert_insert_eq.
  - intros t fc content (->&Mt&Hk&i&b&Hf&Hb&Hc). destruct t as [um files directories k].
    cbn [fs_um fs_files fs_memory] in *. subst.
    exists (mk_fs um (delete v (<[v := mk_fc i b]> f0)) directories k0).
    cbn [fs_file_close ufs_fs_ops]. unfold ufs_op_file_close, bind. rewrite (free_file_ok (mk_fs um (<[v := mk_fc i b]> f0) directories k1) v k0 (uo_free U)).
    split; [done|]. split; [done|]. split; [|done]. cbn. by rewrite delete_insert_eq, delete_id by apply (uo_slot U).
Qed.

(** UFS keeps the promises of a file system: what is opened at a path is the
    file its directories lead to, reads make progress in files without holes,
    and closing it gives back what opening took. *)
Theorem ufs_fs_spec fuel :
  (∀ n ents, dirs !! n = Some ents → (length ents < fuel)%nat) →
  fs_spec (ufs_fs_ops fuel) ufs_file_at ufs_idle ufs_opened.
Proof. apply ufs_is_fs. Qed.
End ufs.
