(* ===== verification/FsUfsExample.v ===== *)
(** The medium of [UfsExample.v] as a file system. *)

From S2P Require Import Prelude MachineInt Storage Paths Ufs UfsExample Exec Fs FsUfs.

Local Open Scope Z_scope.

#[local] Existing Instance example_memory.

Lemma example_walk n l slash m :
  n = 2 ∨ n = 3 ∨ n = 4 → walk example_dirs n l slash = Ok m → m = 2 ∨ m = 3 ∨ m = 4.
Proof.
  revert n. induction l as [|name l IH]; intros n Hn; cbn [walk]; [by intros [= <-]|].
  destruct (first_named name (default [] (example_dirs !! n))) as [de|] eqn:E; [|done].
  assert (de_inode de = 2 ∨ de_inode de = 3 ∨ de_inode de = 4) as Hd.
  { apply first_named_in in E. destruct (example_dirs !! n) as [ents|] eqn:Ed; [|by apply elem_of_nil in E].
    apply (example_dirs_cases _ _ _ Ed); intros -> ->; cbn [default] in E.
    all: repeat (apply elem_of_cons in E as [[= -> _]|E]; [auto|]); by apply elem_of_nil in E. }
  destruct (match l with [] => negb slash | _ => false end); [by intros [= <-]|].
  destruct (negb _); [done|]. by apply IH.
Qed.

Lemma example_resolve path n : resolve example_dirs path = Ok n → n = 2 ∨ n = 3 ∨ n = 4.
Proof.
  unfold resolve. destruct path as [|c path]; [done|]. destruct (c =? 47); [|done]. apply example_walk. by left.
Qed.

Definition hello : list Z := [104; 101; 108; 108; 111].

Lemma hello_holds :
  holds true (image true) example_sb false (mk_inode 0x8000 5 (direct1 4) [0; 0; 0]) hello.
Proof.
  split; [apply (example_inode_ok true); lia|done|by vm_compute|].
  intros o Ho. do 5 (destruct o as [|o]; [by vm_compute|]). simpl in Ho. lia.
Qed.

Lemma example_ufs_ok :
  ufs_ok (H:=example_disk true) true 512 (image true) example_sb false zero_fc example_dirs tt tt 4096 ∅.
Proof.
  pose proof (example_inodes true) as E. cbn [negb plain_mode] in E. destruct E as (E2&E3&E4).
  split; [apply (example_sb_ok true)|done|done|apply length_replicate|done|apply (example_tree true)| |].
  - intros path n Hn. split; [apply example_resolve in Hn; lia|].
    apply example_resolve in Hn as [->|[->| ->]]; (split; [by vm_compute|rewrite example_length; by vm_compute]).
  - intros path i. unfold opened. destruct (resolve example_dirs path) as [n|e] eqn:Hn; [|done].
    apply example_resolve in Hn as [->|[->| ->]]; rewrite ?E2, ?E3, ?E4; [done| |done].
    intros [= <-]. exists hello. exact hello_holds.
Qed.

Lemma ufs_fs_spec_witness :
  fs_spec (ufs_fs_ops (H:=example_disk true) true 512 zero_fc zero_dc 4)
    (ufs_file_at true (image true) example_sb false example_dirs)
    (ufs_idle example_sb false tt ∅)
    (ufs_opened (D:=unit) (K:=unit) true (image true) example_sb false tt 4096 ∅).
Proof.
  apply (ufs_fs_spec (H:=example_disk true) true 512 (image true) example_sb false zero_fc zero_dc example_dirs
    tt tt 4096 ∅ example_ufs_ok 4 example_fuel).
Defined.
