(* ===== verification/FsExample.v ===== *)
(** A program in an archive, loaded: the theorems of Exec.v, Fs.v and
    FsTarfs.v on a small example. *)

From S2P Require Import Prelude MachineInt Storage Paths Exec Fs Tarfs FsTarfs TarfsExample.

Local Open Scope Z_scope.
Local Open Scope c_scope.

(** * A memory of one window *)

Record loader := mk_loader {
  ld_window : option (window * list Z);
  ld_shown : gmap (Z * Z) (list Z)
}.

Definition example_wire (vm low high : Z) : M loader (result (Z * Z)) :=
  if 2 ^ 63 <? high - low then ret (Err ERROR_EXHAUSTED)
  else
    modify (λ x, mk_loader (Some (mk_window vm low 8192, replicate (Z.to_nat (high - low)) 255)) (ld_shown x)) ;;;
    ret (Ok (8192, 0)).
Definition example_store (a : Z) (b : list Z) : M loader unit :=
  x <- get ;;
  p <- deref "window" (ld_window x) ;;
  let o := a - w_kv p.1 in
  if (0 <=? o) && (o + Z.of_nat (length b) <=? Z.of_nat (length p.2))
  then put (mk_loader (Some (p.1, write_at o b p.2)) (ld_shown x))
  else halt (Undefined "store outside the window").
Definition example_unwire (vm low len kv : Z) : M loader (result unit) :=
  x <- get ;;
  p <- deref "window" (ld_window x) ;;
  if (w_vm p.1 =? vm) && (w_low p.1 =? low) && (w_kv p.1 =? kv) && (Z.of_nat (length p.2) =? len)
  then put (mk_loader None (<[(vm, low) := p.2]> (ld_shown x))) ;;; ret (Ok tt)
  else ret (Err ERROR_INVALID).

#[local] Instance example_load : LoadMemory loader :=
  {| lm_range_wire := example_wire; lm_store := example_store; lm_unwire := example_unwire |}.
#[local] Instance example_tasks : TaskOps loader := {|
  tk_create _ := ret (Ok 1);
  tk_port _ := ret 100;
  tk_vm _ := ret 2;
  tk_thread _ := ret (Ok 3);
  tk_upcall_user _ _ := ret tt;
  tk_runnable _ := ret tt
|}.
Definition example_area (x : loader) (w : window) (l : list Z) : Prop := ld_window x = Some (w, l).
Definition example_shows (x : loader) (vm low : Z) (l : list Z) : Prop := ld_shown x !! (vm, low) = Some l.

Lemma example_memory_law : memory_law (λ _, True) example_area example_shows.
Proof.
  split.
  - intros vm low high x _ Hl Hh Hm1 Hm2. cbn [lm_range_wire example_load]. unfold example_wire.
    destruct (Z.ltb_spec (2 ^ 63) (high - low)); [done|]. rewrite wp_bind, wp_modify, wp_ret.
    split_and!; [done..|lia|lia|]. exists (replicate (Z.to_nat (high - low)) 255).
    rewrite length_replicate. split; [lia|done].
  - intros w l o b x _ Ha Ho Hl. exists (mk_loader (Some (w, write_at o b l)) (ld_shown x)).
    split; [|done]. cbn [lm_store example_load]. unfold example_store, bind, get, deref. rewrite Ha.
    unfold ret. cbn [fst snd]. replace (w_kv w + o - w_kv w) with o by lia.
    by rewrite (proj2 (Z.leb_le 0 o)), (proj2 (Z.leb_le (o + _) _)).
  - intros vm low kv l x _ Ha. cbn [lm_unwire example_load]. unfold example_unwire.
    rewrite wp_bind, wp_get, wp_bind, wp_deref, Ha. cbn [fst snd w_vm w_low w_kv]. rewrite !Z.eqb_refl.
    cbn [andb]. rewrite wp_bind, wp_put, wp_ret. split; [done|]. intros _. apply lookup_insert_eq.
Qed.
Lemma example_task_law : task_law example_shows.
Proof. split; intros; cbn; unfold wp; by cbn. Qed.

(** * A program *)

(** One segment of four bytes, in memory eight, at 16 in the second page. *)
Definition program : list Z :=
  [127; 69; 76; 70; 2; 2; 1] ++ replicate 9 0 ++ be_split 2 2 ++ be_split 2 8 ++ be_split 4 1 ++
  be_split 8 8208 ++ be_split 8 64 ++ replicate 8 0 ++ replicate 4 0 ++ be_split 2 64 ++ be_split 2 56 ++
  be_split 2 1 ++ replicate 6 0 ++
  be_split 4 1 ++ be_split 4 5 ++ be_split 8 120 ++ be_split 8 8208 ++ be_split 8 0 ++ be_split 8 4 ++
  be_split 8 8 ++ be_split 8 8192 ++ [1; 2; 3; 4].

Definition program_ph : elf64_program_header := mk_ph 1 120 8208 4 8 8192.
Lemma program_loads : loads true program = [program_ph].
Proof. by vm_compute. Qed.
Lemma program_span : span true program = (8192, 16384).
Proof. by vm_compute. Qed.
Lemma program_ok : elf_ok true program.
Proof.
  split; [by vm_compute|by vm_compute|]. rewrite program_loads. apply Forall_singleton.
  split; by vm_compute.
Qed.

(** Read at most fifty bytes at a time. *)
Definition example_read (off len : Z) : M loader (result (list Z)) :=
  ret (Ok (slice off (Z.min (Z.min len 50) (Z.of_nat (length program) - off)) program)).
Lemma example_file : file_law example_read program (λ _, True) example_area.
Proof.
  split; [by vm_compute|]. intros off len x _ Ho Hl.
  split; [done|]. split; [by intros w l|].
  exists (Z.min (Z.min len 50) (Z.of_nat (length program) - off)). split; [done|]. lia.
Qed.

Definition loader0 : loader := mk_loader None ∅.

Lemma exec_read_correct_witness :
  match exec_read example_read 125 116 8 loader0 with
  | Done r x' => r = Ok [0; 0; 32; 0; 1; 2; 3; 4] ∧ read_all program (λ _, True) example_area 116 8 loader0 r x'
  | Stop _ => False
  end.
Proof.
  pose proof (exec_read_correct example_read program (λ _, True) example_area example_file 125 116 8 loader0) as Hw.
  rewrite decide_True in Hw by (vm_compute; discriminate).
  assert (∃ x', exec_read example_read 125 116 8 loader0 = Done (Ok [0; 0; 32; 0; 1; 2; 3; 4]) x') as [x' E]
    by (eexists; vm_compute; reflexivity).
  specialize (Hw I ltac:(vm_compute; split; discriminate) ltac:(lia) ltac:(lia)).
  unfold wp in Hw. rewrite E in Hw |- *. split; [reflexivity|exact Hw].
Defined.

Lemma exec_elf64_load_rejects_witness :
  wp (exec_elf64_load true (λ off len, ret (Ok (slice off len (replicate 64 0)))) 65 2)
    (λ r x', (∃ e, r = Err e) ∧ True ∧ same_areas example_area loader0 x') may_panic loader0.
Proof.
  apply (exec_elf64_load_rejects true (λ off len, ret (Ok (slice off len (replicate 64 0))))
    (replicate 64 0) (λ _, True) example_area).
  - split; [by vm_compute|]. intros off len x _ Ho Hl. rewrite wp_ret. rewrite length_replicate in Ho.
    split; [done|]. split; [by intros w l|]. exists (Z.min len (64 - off)). rewrite length_replicate.
    split; [|lia]. unfold slice. rewrite drop_replicate.
    destruct (decide (len ≤ 64 - off)); [by rewrite Z.min_l by lia|].
    rewrite !take_ge by (rewrite length_replicate; lia). done.
  - exact I.
  - vm_compute. discriminate.
  - reflexivity.
  - vm_compute. reflexivity.
Defined.

Lemma exec_elf64_load_correct_witness :
  match exec_elf64_load true example_read 125 2 loader0 with
  | Done r x' => r = Ok 8208 ∧ example_shows x' 2 8192 (program_image true program)
  | Stop _ => False
  end.
Proof.
  pose proof (exec_elf64_load_correct true example_read program (λ _, True) example_area example_file
    example_shows example_memory_law program_ok 125 2 loader0 I) as Hw.
  assert (∃ x', exec_elf64_load true example_read 125 2 loader0 = Done (Ok 8208) x') as [x' E]
    by (eexists; vm_compute; reflexivity).
  rewrite E. unfold wp in Hw. rewrite E in Hw. split; [reflexivity|].
  assert (8192 = (span true program).1) as -> by (rewrite program_span; reflexivity).
  apply Hw; [vm_compute; reflexivity|vm_compute; reflexivity|rewrite program_span; reflexivity].
Defined.

(** * Run from an archive *)

(** The file [a] with the program; its size, 124, in octal. *)
Definition program_archive : list Z :=
  header_block name_a (replicate 8 48 ++ [49; 55; 52; 32]) 48 [] ++ padded 512 program ++ replicate 1024 0.
#[local] Instance program_disk : BlockDevice unit := disk_blocks 512 program_archive.
#[local] Instance program_memory : KernelMemory unit :=
  {| km_alloc _ := ret (Ok 4096); km_free _ _ := ret (Ok tt) |}.
Definition program_entry : entry := mk_entry (header_at program_archive 0) 512 124.

Lemma program_archive_ok : image_ok 512 program_archive.
Proof.
  split; [|done|by vm_compute]. apply disk_medium; [by exists 9|].
  apply Forall_forall. intros b Hb.
  assert (forallb (λ b, (0 <=? b) && (b <? 256)) program_archive = true) as Hall by by vm_compute.
  pose proof (proj1 (forallb_forall _ _) Hall b (proj1 (list_elem_of_In _ _) Hb)) as E.
  apply andb_prop in E as [?%Z.leb_le ?%Z.ltb_lt]. by split.
Qed.
Lemma program_archive_entries : archive program_archive 0 [program_entry].
Proof.
  apply archive_entry; [split_and!; by vm_compute|by vm_compute|by vm_compute|].
  apply archive_end; [split_and!; by vm_compute|by vm_compute].
Qed.
Lemma program_data : entry_data program_archive program_entry = program.
Proof. by vm_compute. Qed.

Notation program_fs := (tarfs_fs_ops 512 empty_context (Z.to_nat 8194) 2).
Notation idle := (tar_idle (D:=unit) (tt : unit) ∅).
Notation is_open := (tar_opened (D:=unit) program_archive (tt : unit) 4096 [program_entry] ∅).

Lemma tarfs_fs_spec_witness :
  fs_spec program_fs (tar_file_at program_archive [program_entry]) idle is_open.
Proof.
  apply (tarfs_fs_spec 512 program_archive empty_context tt tt 4096 [program_entry] ∅ program_archive_ok
    program_archive_entries); [by split|reflexivity|vm_compute; discriminate|simpl; lia].
Defined.

Lemma program_loadable content :
  tar_file_at program_archive [program_entry] [47; 97] content →
  loadable true content ∧ Z.of_nat (length content) < Z.of_nat 125.
Proof.
  intros (e&Hl&->). apply leads_in in Hl. apply list_elem_of_singleton in Hl as ->. rewrite program_data.
  split; [|by vm_compute]. split; [by vm_compute|]. right. split; [by vm_compute|].
  split; [apply program_ok|by rewrite program_span].
Qed.

Lemma program_is_fs : fs_spec program_fs (tar_file_at program_archive [program_entry]) idle is_open.
Proof.
  apply (tarfs_is_fs 512 program_archive empty_context tt tt 4096 [program_entry] ∅ program_archive_ok
    program_archive_entries); [by split|done|by vm_compute|simpl; lia].
Qed.

(** Running [/a] *)
Lemma fs_exec_correct_witness :
  wp (@fs_exec true _ (pair_memory (V:=loader)) (pair_tasks (V:=loader)) 125 (lift_ops fst set_fst program_fs) [47; 97])
    (λ r x', idle x'.1 ∧ match r with
       | Ok _ => ∃ content, tar_file_at program_archive [program_entry] [47; 97] content ∧
           loaded_at true example_shows x'.2 content
       | Err _ => True
       end) may_panic (mk_fs example_mount ∅ tt, loader0).
Proof.
  apply (fs_exec_correct true program_fs _ _ _ (fs_spec_law _ _ _ _ program_is_fs) example_area example_shows example_memory_law
    example_task_law).
  - repeat (constructor; [split; reflexivity|]). constructor.
  - split; [exact example_ready|repeat split].
  - exact program_loadable.
Defined.

(** And it runs. *)
Example fs_exec_runs :
  match @fs_exec true _ (pair_memory (V:=loader)) (pair_tasks (V:=loader)) 125
    (lift_ops fst set_fst program_fs) [47; 97] (mk_fs example_mount ∅ tt, loader0) with
  | Done r x' => r = Ok tt ∧ take 24 (default [] (ld_shown x'.2 !! (2, 8192))) = replicate 16 0 ++ [1; 2; 3; 4; 0; 0; 0; 0]
  | Stop _ => False
  end.
Proof. vm_compute. split; reflexivity. Qed.
