(* ===== verification/FsIpc.v ===== *)
(** File systems over IPC ([mk/fs/fs_ipc.c], [mk/fs/fs_ipc_file.c],
    [mk/fs/fs_ipc_directory.c]).

    A file system is a service: a message opens a file or a directory, and
    what is opened is a service of its own, which reads it a page at a time.
    The handlers run over the operations of a file system (Fs.v), the ports
    (Message.v) and the making of services (Service.v), beside the structures
    [malloc] gives them.

    The theorem follows a client: it opens a path and reads from the port it
    is given; what it gets are the bytes of the file, as far as a page and the
    file system go, in the page of the request. *)

From S2P Require Import Prelude MachineInt Btree Mutex Pool CString Storage Paths Exec Fs.
From S2P Require Import IpcPort IpcSpec IpcAlloc Ipc Message Task Directory Service Exchange Ns.

Local Open Scope Z_scope.
Local Open Scope c_scope.

Definition FS_MSG_OPEN_FILE : Z := 1.
Definition FS_MSG_OPEN_DIRECTORY : Z := 2.
Definition FS_FILE_MSG_READ : Z := 1.
Definition FS_FILE_MSG_CLOSE : Z := 2.
Definition FS_FILE_MSG_EXEC : Z := 3.
Definition FS_DIRECTORY_MSG_READ : Z := 1.
Definition FS_DIRECTORY_MSG_CLOSE : Z := 2.

(** The functions that handle messages. *)
Inductive fs_service := FS_SERVICE | FILE_SERVICE | DIRECTORY_SERVICE.

(** [fsf_fs] and [fsd_fs] are the file system of the service. *)
Record fs_file := mk_fs_file { fsf_path : list Z; fsf_context : Z }.
Record fs_directory := mk_fs_directory { fsd_path : list Z; fsd_context : Z }.

(** The file system and the structures, which are of one size. *)
Record fs_ipc {Ob T : Type} := mk_fs_ipc {
  fi_fs : T;
  fi_malloc : Ob;
  fi_files : gmap Z fs_file;
  fi_directories : gmap Z fs_directory
}.
Arguments fs_ipc : clear implicits.

(** [strlcpy(fsf->fsf_path, path, sizeof fsf->fsf_path)] *)
Definition short_path (path : list Z) : list Z := take 63 path.

(** [struct fs_file_read_request] *)
Definition request_offset (bs : list Z) : Z := signed 64 (field true 0 8 bs).
Definition request_length (bs : list Z) : Z := field true 8 8 bs.

Section fs_ipc.
Context {W Ob T : Type} `{PortOps W} `{!ServiceOps W fs_service} `{ObjPool Ob}.
Notation fs_ipc := (fs_ipc Ob T).
Notation X := (W * fs_ipc)%type.
Implicit Types (reqh : ipc_header) (p port fsf fsd : Z).

Definition set_fi_fs (t : T) (y : fs_ipc) : fs_ipc := mk_fs_ipc _ _ t (fi_malloc y) (fi_files y) (fi_directories y).
Definition set_fi_malloc (o : Ob) (y : fs_ipc) : fs_ipc := mk_fs_ipc _ _ (fi_fs y) o (fi_files y) (fi_directories y).
Definition set_fi_files (m : gmap Z fs_file) (y : fs_ipc) : fs_ipc :=
  mk_fs_ipc _ _ (fi_fs y) (fi_malloc y) m (fi_directories y).
Definition set_fi_directories (m : gmap Z fs_directory) (y : fs_ipc) : fs_ipc :=
  mk_fs_ipc _ _ (fi_fs y) (fi_malloc y) (fi_files y) m.

Definition on_fi {A} (m : M fs_ipc A) : M X A := zoom snd set_second m.
Definition fi_alloc : M X Z := on_fi (zoom fi_malloc set_fi_malloc op_alloc).
Definition fi_free (a : Z) : M X unit := on_fi (zoom fi_malloc set_fi_malloc (op_free a)).

Definition load_file fsf : M X fs_file := x <- get ;; deref "struct fs_file" (fi_files x.2 !! fsf).
Definition load_directory fsd : M X fs_directory := x <- get ;; deref "struct fs_directory" (fi_directories x.2 !! fsd).

(** [current_thread()] and [current_task()] of the service; [fs->fs_ops] with
    [fs->fs_context]. *)
Context (self me : Z) (fso : fs_ops T).
Definition fs : fs_ops X := lift_ops (λ x : X, fi_fs x.2) (λ t x, (x.1, set_fi_fs t x.2)) fso.

Definition fs_send reqh : M X (result unit) := p_send_data self me reqh None 0.

(** ** Files *)

Definition fs_file_ipc_service_start fsf : M X (result Z) :=
  port <-? p_allocate self me IPC_PORT_FLAG_DEFAULT ;;
  f <- load_file fsf ;;
  error <- zoom fst set_first (so_service self me (fsf_path f) port IPC_PORT_FLAG_DEFAULT FILE_SERVICE fsf) ;;
  match error with
  | Err e => or_panic "ipc_port_right_drop failed." (p_right_drop self me port IPC_PORT_RIGHT_RECEIVE) ;;; ret (Err e)
  | Ok _ => ret (Ok port)
  end.

(** The port is given to whoever receives on the port the request came from. *)
Definition give_port reqh port p : M X (result unit * Z) :=
  error <- p_right_send self me (ipchdr_src reqh) port IPC_PORT_RIGHT_SEND ;;
  match error with
  | Err e => ret (Err e, p)
  | Ok _ =>
      or_panic "ipc_port_right_drop failed." (p_right_drop self me port IPC_PORT_RIGHT_RECEIVE) ;;;
      error <- fs_send (with_param port (IPC_HEADER_REPLY reqh)) ;;
      ret (error, p)
  end.

Definition fs_ipc_open_file_handler reqh p : M X (result unit * Z) :=
  if p =? 0 then ret (Err ERROR_INVALID, p)
  else
    bs <- p_load p ;;
    path <- deref "path" (string_of bs) ;;
    r <- fs_file_open fs path ;;
    match r with
    | Err e => error <- fs_send (IPC_HEADER_ERROR reqh e) ;; ret (error, p)
    | Ok fsfc =>
        fsf <- fi_alloc ;;
        if fsf =? 0 then ret (Err ERROR_EXHAUSTED, p)
        else
          modify (λ x, (x.1, set_fi_files (<[fsf := mk_fs_file (short_path path) fsfc]> (fi_files x.2)) x.2)) ;;;
          r <- fs_file_ipc_service_start fsf ;;
          match r with
          | Err e =>
              modify (λ x, (x.1, set_fi_files (delete fsf (fi_files x.2)) x.2)) ;;;
              fi_free fsf ;;;
              or_panic "file close failed" (fs_file_close fs fsfc) ;;;
              error <- fs_send (IPC_HEADER_ERROR reqh e) ;;
              ret (error, p)
          | Ok port => give_port reqh port p
          end
    end.

(** The page of the request is the buffer, and is sent back. *)
Definition fs_file_ipc_read_handler fsf reqh p : M X (result unit * Z) :=
  f <- load_file fsf ;;
  if p =? 0 then ret (Err ERROR_INVALID, p)
  else
    bs <- p_load p ;;
    if request_length bs =? 0 then ret (Err ERROR_INVALID, p)
    else
      let length := if PAGE_SIZE <? request_length bs then PAGE_SIZE else request_length bs in
      r <- fs_file_read fs (fsf_context f) (request_offset bs) length ;;
      match r with
      | Err e => error <- fs_send (IPC_HEADER_ERROR reqh e) ;; ret (error, p)
      | Ok bytes =>
          p_store p 0 bytes ;;;
          let length := Z.of_nat (List.length bytes) in
          let ipch := with_param length (IPC_HEADER_REPLY reqh) in
          if length =? 0 then error <- fs_send ipch ;; ret (error, p)
          else error <- p_send self me ipch p ;; ret (error, 0)
      end.

Definition fs_file_ipc_close_handler fsf reqh p : M X (result unit * Z) :=
  f <- load_file fsf ;;
  if negb (p =? 0) then ret (Err ERROR_INVALID, p)
  else
    r <- fs_file_close fs (fsf_context f) ;;
    error <- fs_send (match r with Err e => IPC_HEADER_ERROR reqh e | Ok _ => IPC_HEADER_REPLY reqh end) ;;
    ret (error, p).

(** [EXEC]: the child of the task whose port the request came from. *)
Context (big : bool) (fuel : nat) `{LoadMemory X} `{TaskOps X}.
Definition fs_file_ipc_exec_handler fsf reqh p : M X (result unit * Z) :=
  f <- load_file fsf ;;
  if negb (p =? 0) then ret (Err ERROR_INVALID, p)
  else
    r <- exec_task big (fs_file_read fs (fsf_context f)) fuel (ipchdr_src reqh) ;;
    error <- fs_send (match r with
      | Err e => IPC_HEADER_ERROR reqh e
      | Ok child => with_param child (IPC_HEADER_REPLY reqh)
      end) ;;
    ret (error, p).

Definition fs_file_ipc_handler fsf reqh p : M X (result unit * Z) :=
  if ipchdr_msg reqh =? FS_FILE_MSG_READ then fs_file_ipc_read_handler fsf reqh p
  else if ipchdr_msg reqh =? FS_FILE_MSG_CLOSE then fs_file_ipc_close_handler fsf reqh p
  else if ipchdr_msg reqh =? FS_FILE_MSG_EXEC then fs_file_ipc_exec_handler fsf reqh p
  else ret (Err ERROR_INVALID, p).

(** ** Directories *)

Definition fs_directory_ipc_service_start fsd : M X (result Z) :=
  port <-? p_allocate self me IPC_PORT_FLAG_DEFAULT ;;
  d <- load_directory fsd ;;
  error <- zoom fst set_first (so_service self me (fsd_path d) port IPC_PORT_FLAG_DEFAULT DIRECTORY_SERVICE fsd) ;;
  match error with
  | Err e => or_panic "ipc_port_right_drop failed." (p_right_drop self me port IPC_PORT_RIGHT_RECEIVE) ;;; ret (Err e)
  | Ok _ => ret (Ok port)
  end.

Definition fs_ipc_open_directory_handler reqh p : M X (result unit * Z) :=
  if p =? 0 then ret (Err ERROR_INVALID, p)
  else
    bs <- p_load p ;;
    path <- deref "path" (string_of bs) ;;
    r <- fs_directory_open fs path ;;
    match r with
    | Err e => error <- fs_send (IPC_HEADER_ERROR reqh e) ;; ret (error, p)
    | Ok fsdc =>
        fsd <- fi_alloc ;;
        if fsd =? 0 then ret (Err ERROR_EXHAUSTED, p)
        else
          modify (λ x, (x.1, set_fi_directories (<[fsd := mk_fs_directory (short_path path) fsdc]> (fi_directories x.2)) x.2)) ;;;
          r <- fs_directory_ipc_service_start fsd ;;
          match r with
          | Err e =>
              modify (λ x, (x.1, set_fi_directories (delete fsd (fi_directories x.2)) x.2)) ;;;
              fi_free fsd ;;;
              or_panic "directory close failed" (fs_directory_close fs fsdc) ;;;
              error <- fs_send (IPC_HEADER_ERROR reqh e) ;;
              ret (error, p)
          | Ok port => give_port reqh port p
          end
    end.

(** [struct fs_directory_read_response]: where the next entry is, and the
    entry's name. *)
Definition store_entry p (next : Z) (name : option (list Z)) : M X unit :=
  match name with Some name => p_store p 8 (name ++ [0]) | None => ret tt end ;;;
  p_store p 0 (be_split 8 (u64 next)).

Definition fs_directory_ipc_read_handler fsd reqh p : M X (result unit * Z) :=
  d <- load_directory fsd ;;
  if p =? 0 then ret (Err ERROR_INVALID, p)
  else
    bs <- p_load p ;;
    r <- fs_directory_read fs (fsd_context d) (request_offset bs) ;;
    match r with
    | Err e => error <- fs_send (IPC_HEADER_ERROR reqh e) ;; ret (error, p)
    | Ok (next, name) =>
        store_entry p next name ;;;
        let cnt := match name with Some _ => 1 | None => 0 end in
        error <- p_send self me (with_param cnt (IPC_HEADER_REPLY reqh)) p ;;
        ret (error, 0)
    end.

Definition fs_directory_ipc_close_handler fsd reqh p : M X (result unit * Z) :=
  d <- load_directory fsd ;;
  if negb (p =? 0) then ret (Err ERROR_INVALID, p)
  else
    r <- fs_directory_close fs (fsd_context d) ;;
    error <- fs_send (match r with Err e => IPC_HEADER_ERROR reqh e | Ok _ => IPC_HEADER_REPLY reqh end) ;;
    ret (error, p).

Definition fs_directory_ipc_handler fsd reqh p : M X (result unit * Z) :=
  if ipchdr_msg reqh =? FS_DIRECTORY_MSG_READ then fs_directory_ipc_read_handler fsd reqh p
  else if ipchdr_msg reqh =? FS_DIRECTORY_MSG_CLOSE then fs_directory_ipc_close_handler fsd reqh p
  else ret (Err ERROR_INVALID, p).

(** ** The file system *)

Definition fs_ipc_handler : handler := λ reqh p,
  if ipchdr_msg reqh =? FS_MSG_OPEN_FILE then fs_ipc_open_file_handler reqh p
  else if ipchdr_msg reqh =? FS_MSG_OPEN_DIRECTORY then fs_ipc_open_directory_handler reqh p
  else ret (Err ERROR_INVALID, p).

(** What the services run. *)
Definition fs_service_handler (f : fs_service) (arg : Z) : handler :=
  match f with
  | FS_SERVICE => fs_ipc_handler
  | FILE_SERVICE => fs_file_ipc_handler arg
  | DIRECTORY_SERVICE => fs_directory_ipc_handler arg
  end.
End fs_ipc.

(** * Reading a file *)

Lemma slice_write_start (new buf : list Z) : slice 0 (Z.of_nat (length new)) (write_at 0 new buf) = new.
Proof. apply slice_write_at; lia. Qed.

Section facts.
Context {W Ob T : Type} `{Ports W} `{!ServiceOps W fs_service} `{ObjPool Ob}.
Notation fs_ipc := (fs_ipc Ob T).
Notation X := (W * fs_ipc)%type.
Context (fso : fs_ops T) (file_at : list Z → list Z → Prop) (idle : T → Prop) (opened : T → Z → list Z → Prop).
Context (Hfs : fs_spec fso file_at idle opened).
Context (Hbytes : ∀ t fc content, opened t fc content → Forall is_byte content).
(** A client's task; the service's thread and task. *)
Context (ct ns nt : Z) (Hns : ns ≠ 0).
Context (big : bool) (fuel : nat) `{LoadMemory X} `{TaskOps X}.
Implicit Types (x : X) (y : fs_ipc) (h : ipc_header) (p va n s port fsf fc : Z) (bs path content : list Z).

Notation file_handler := (fs_file_ipc_handler ns nt fso big fuel).

(** The structure [fsf] is of the open file [fc] with these bytes. *)
Definition file_open y fsf path fc content : Prop :=
  fi_files y !! fsf = Some (mk_fs_file path fc) ∧ opened (fi_fs y) fc content.

Lemma fs_send_ok h x (E : stop → Prop) : (∀ w, p_stop (W:=W) w → E w) → p_inv x → p_kernel x nt →
  wp (fs_send ns nt h) (λ r x', on_ports (spec_send nt h 0) x r x' ∧ x'.2 = x.2) E x.
Proof. intros HE Hi Hk. unfold fs_send. framed (p_send_none_ok x ns nt h Hi Hns Hk) HE. done. Qed.

(** An answer without a page. *)
Lemma answer_no_page h' p va (R : ipc_header → option (list Z) → X → Prop) n s x x1 (E : stop → Prop) :
  (∀ w, p_stop (W:=W) w → E w) → p_inv x → p_kernel x nt →
  x1.1 = x.1 → answer_header h' n s → (∀ x', x'.2 = x1.2 → R h' None x') →
  wp (error <- fs_send ns nt h' ;; ret (error, va))
    (λ r x', ∃ h' pg, answer_header h' n s ∧ R h' pg x' ∧ answers nt h' pg p va x r x') E x1.
Proof.
  intros HE Hi Hk E1 Hh HR. rewrite wp_bind. destruct x as [w y], x1 as [w1 y1]. cbn in E1. subst w1.
  eapply wp_mono; [by apply fs_send_ok| |done]. intros r x' [(Hn&A&HA&Hv) Hx2]. rewrite wp_ret.
  exists h', None. split; [done|]. split; [by apply HR|]. split; [done| |].
  - exists (v_ports (p_view (w, y))). split; [done|]. cbn [fst]. rewrite Hv. exact HA.
  - rewrite Hv. done.
Qed.

(** What a client is told that reads [len] bytes at [off]: as many as the file
    system gives it, and no more than a page. *)
Definition read_answer y h content (off len : Z) fsf path fc (h' : ipc_header) (pg : option (list Z)) x : Prop :=
  file_open x.2 fsf path fc content ∧ fi_files x.2 = fi_files y ∧ fi_directories x.2 = fi_directories y ∧
  fi_malloc x.2 = fi_malloc y ∧
  ∃ k, h' = with_param k (IPC_HEADER_REPLY h) ∧ 0 ≤ k ≤ Z.min len PAGE_SIZE ∧ off + k ≤ Z.of_nat (length content) ∧
    (off < Z.of_nat (length content) → 0 < k) ∧
    match pg with
    | None => k = 0
    | Some bs' => 0 < k ∧ slice 0 k bs' = slice off k content
    end.
Lemma read_answer_stable y h content off len fsf path fc n : stable n (read_answer y h content off len fsf path fc).
Proof. intros h' pg x x' HR _ Ht _. unfold read_answer. by rewrite Ht. Qed.

Lemma file_read_handles (E : stop → Prop) h n s p bs y fsf path fc content off len (A0 : gmap Z aport) :
  (∀ w, p_stop (W:=W) w → E w) → file_open y fsf path fc content →
  request_header h n s → ipchdr_msg h = FS_FILE_MSG_READ →
  request_offset bs = off → 0 ≤ off ≤ Z.of_nat (length content) → request_length bs = len → 0 < len →
  handles ct nt E (file_handler fsf) h n s p bs y A0 (read_answer y h content off len fsf path fc).
Proof.
  intros HE [Hfile Hop] Hrq Hmsg Hoff Hofr Hlen Hlr x1 va Hi Hk <- Hva Hva0 Hpg Hn.
  unfold fs_file_ipc_handler. rewrite Hmsg. cbn [Z.eqb]. change (FS_FILE_MSG_READ =? FS_FILE_MSG_READ) with true. cbn iota.
  unfold fs_file_ipc_read_handler, load_file. rewrite !wp_bind, wp_get, wp_deref, Hfile.
  rewrite (proj2 (Z.eqb_neq va 0)) by done. rewrite wp_bind. unfold wp at 1.
  rewrite (p_load_ok x1 va bs Hi) by (unfold at_address; by rewrite Hva).
  rewrite Hlen, (proj2 (Z.eqb_neq len 0)) by lia. rewrite Hoff. cbn [fsf_context].
  set (want := if PAGE_SIZE <? len then PAGE_SIZE else len).
  assert (want = Z.min len PAGE_SIZE) as Hwant by (unfold want; destruct (Z.ltb_spec PAGE_SIZE len); lia).
  pose proof PAGE_SIZE_eq as HPS.
  destruct (fp_read _ _ _ _ Hfs _ fc content off want Hop Hofr) as (k&t'&Hread&Hop'&Hk1&Hk2&Hk3); [lia|].
  rewrite wp_bind. unfold wp at 1. cbn [fs fs_file_read lift_ops]. unfold zoom at 1. rewrite Hread.
  set (bytes := slice off k content). set (x2 := (x1.1, set_fi_fs t' x1.2)).
  assert (Z.of_nat (length bytes) = k) as Hbl by (unfold bytes; rewrite length_slice; lia).
  assert (Forall is_byte bytes) as Hbb by (unfold bytes, slice; apply Forall_take, Forall_drop; by eapply Hbytes).
  destruct (p_page x1 va p Hi Hva) as (_&bs0&Hbs0&Hbl0&Hbb0). assert (bs0 = bs) as -> by congruence.
  rewrite wp_bind.
  assert (p_inv x2 ∧ p_kernel x2 nt ∧ p_view x2 = p_view x1) as (Hi2&Hk2'&Hv2) by done.
  assert (v_direct (p_view x2) !! va = Some p) as Hva2 by done.
  assert (v_pages (p_view x2) !! p = Some bs) as Hpg2 by done.
  framed (p_store_ok x2 va p bs 0 bytes Hi2 Hva2 Hpg2 ltac:(lia) ltac:(lia) Hbb) HE.
  intros [] x3 [(Hn3&Hv3) Ht3]. rewrite Hbl.
  assert (∀ pg x', x'.2 = x3.2 → match pg with None => k = 0 | Some bs' => 0 < k ∧ slice 0 k bs' = slice off k content end →
    read_answer x1.2 h content off len fsf path fc (with_param k (IPC_HEADER_REPLY h)) pg x') as HR.
  { intros pg x' Ht' Hpg'. unfold read_answer, file_open. rewrite Ht', Ht3. cbn. split_and!; try done.
    exists k. split_and!; [done|lia..|by intros; apply Hk3; lia|done]. }
  assert (answer_header (with_param k (IPC_HEADER_REPLY h)) n s) as Hans by (by destruct (reply_header h n s Hrq)).
  destruct (Z.eqb_spec k 0) as [Hk0|Hk0].
  - assert (bytes = []) as Hnil by (destruct bytes; [done|cbn in Hbl; lia]).
    assert (p_view x3 = p_view x1) as Hv31.
    { rewrite Hv3, Hnil, Hv2. unfold with_page, write_at. cbn [app length Nat.add take Z.to_nat drop].
      rewrite insert_id by done. by destruct (p_view x1). }
    rewrite wp_bind. eapply wp_mono; [apply (fs_send_ok _ x3 E HE (proj1 Hn3) (p_next_kernel Hn3 Hk2'))| |done].
    intros r x4 [(Hn4&A&HA&Hv4) Ht4]. rewrite wp_ret. exists (with_param k (IPC_HEADER_REPLY h)), None.
    split; [done|]. split; [by apply HR|]. split.
    + exact (p_next_trans x2 x3 x4 Hn3 Hn4).
    + exists (v_ports (p_view x1)). split; [done|]. rewrite Hv4. cbn [fst v_ports with_ports]. by rewrite <-Hv31.
    + rewrite Hv4, <-Hv31. done.
  - rewrite wp_bind.
    assert (v_direct (p_view x3) !! va = Some p) as Hva3 by (rewrite Hv3; exact Hva2).
    framed (p_send_ok x3 ns nt (with_param k (IPC_HEADER_REPLY h)) va p (proj1 Hn3) Hns (p_next_kernel Hn3 Hk2') Hva3) HE.
    intros r x4 [(Hn4&Hsend) Ht4]. rewrite wp_ret. set (bs' := write_at 0 bytes bs) in *.
    exists (with_param k (IPC_HEADER_REPLY h)), (Some bs'). split; [done|]. split.
    + apply HR; [done|]. split; [lia|]. unfold bs'. rewrite <-Hbl at 1. apply slice_write_start.
    + unfold view_send in Hsend. cbn [v_ports unmapped_at] in Hsend.
      destruct (spec_send nt _ p (v_ports (p_view x3))) as [r' A] eqn:HA.
      assert (r = r' ∧ p_view x4 = with_ports A (match r' with Ok _ => unmapped_at va (p_view x3) | Err _ => without_page p (unmapped_at va (p_view x3)) end))
        as [-> Hv4] by (split; congruence). split.
      * exact (p_next_trans x2 x3 x4 Hn3 Hn4).
      * exists (v_ports (p_view x1)). split; [done|]. rewrite Hv4. cbn [fst]. rewrite Hv3, Hv2 in HA.
        cbn [v_ports with_page] in HA. rewrite HA. by destruct r'.
      * cbn [snd fst]. split; [done|]. rewrite Hv4, Hv3, Hv2. split; [by destruct r'|]. intros ->. done.
Qed.
End facts.

(** * Opening a file *)

(** The port of a new service, which its maker has given to the receivers of
    [a1] and no longer receives on itself. *)
Lemma handed_port t ct me a1 : t ≠ me → may_receive ct a1 = true →
  ∃ b, drop_right me IPC_PORT_RIGHT_RECEIVE
      (give_all IPC_PORT_RIGHT_SEND a1 (give t IPC_PORT_RIGHT_RECEIVE (new_port me IPC_PORT_FLAG_DEFAULT))) = Some b ∧
    a_msgs b = [] ∧ may_receive t b = true ∧ may_receive me b = false ∧ sends ct b = true.
Proof.
  intros Ht Hct. unfold may_receive, a_right in Hct. destruct (a_rights a1 !! ct) as [s|] eqn:Hs; [|done]. cbn in Hct.
  assert (give t IPC_PORT_RIGHT_RECEIVE (new_port me IPC_PORT_FLAG_DEFAULT) =
    mk_aport IPC_PORT_FLAG_DEFAULT (<[t := IPC_PORT_RIGHT_RECEIVE]> {[me := IPC_PORT_RIGHT_RECEIVE]}) []) as ->.
  { unfold give. cbn. unfold set_right, a_right, new_port. cbn. by rewrite lookup_singleton_ne by done. }
  unfold give_all, drop_right. cbn [public a_flags a_rights a_msgs flag_set negb andb].
  change (negb (flag_set IPC_PORT_RIGHT_SEND IPC_PORT_RIGHT_RECEIVE) && public (mk_aport IPC_PORT_FLAG_DEFAULT _ [])) with false.
  cbn iota. set (f := λ r s : option Z, _). cbn [a_rights].
  set (r0 := <[t := IPC_PORT_RIGHT_RECEIVE]> ({[me := IPC_PORT_RIGHT_RECEIVE]} : gmap Z Z)).
  assert (∀ u, merge f r0 (a_rights a1) !! u = f (r0 !! u) (a_rights a1 !! u)) as Hm.
  { intros u. rewrite lookup_merge. unfold diag_None, f. by destruct (r0 !! u), (a_rights a1 !! u). }
  assert (∃ r, merge f r0 (a_rights a1) !! me = Some r ∧ (r = IPC_PORT_RIGHT_RECEIVE ∨ r = Z.lor IPC_PORT_RIGHT_RECEIVE IPC_PORT_RIGHT_SEND))
    as (r&Hr&Hcase).
  { rewrite Hm. unfold r0. rewrite lookup_insert_ne, lookup_singleton_eq by done. unfold f. cbn.
    destruct (a_rights a1 !! me) as [s'|]; [|eexists; split; [done|by left]].
    destruct (flag_set s' IPC_PORT_RIGHT_RECEIVE); eexists; (split; [done|]); [by right|by left]. }
  rewrite Hr. cbn [mbind option_bind]. eexists. split; [done|]. split; [done|].
  assert (∀ u, u ≠ me → a_right u (set_right me (Z.land r (bnot 16 IPC_PORT_RIGHT_RECEIVE))
    (mk_aport IPC_PORT_FLAG_DEFAULT (merge f r0 (a_rights a1)) [])) = default 0 (f (r0 !! u) (a_rights a1 !! u))) as Hu.
  { intros u Hu. unfold a_right. cbn. rewrite lookup_insert_ne by done. by rewrite Hm. }
  split_and!.
  - unfold may_receive. rewrite Hu by done. unfold r0. rewrite lookup_insert_eq. unfold f.
    destruct (a_rights a1 !! t) as [s'|]; [by destruct (flag_set s' IPC_PORT_RIGHT_RECEIVE)|done].
  - unfold may_receive, a_right. cbn. rewrite lookup_insert_eq. cbn. by destruct Hcase as [->| ->].
  - unfold sends, public. cbn. destruct (decide (ct = me)) as [->|Hne].
    + unfold a_right. cbn. rewrite lookup_insert_eq. cbn. rewrite Hm, Hs in Hr. unfold f, r0 in Hr.
      rewrite lookup_insert_ne, lookup_singleton_eq, Hct in Hr by done. cbn in Hr. by injection Hr as <-.
    + rewrite Hu, Hs by done. unfold f. rewrite Hct. unfold r0.
      destruct (decide (ct = t)) as [->|]; [by rewrite lookup_insert_eq|].
      by rewrite lookup_insert_ne, lookup_singleton_ne by done.
Qed.

Section opening.
Context {W Ob T : Type} `{Ports W} `{!ServiceOps W fs_service} `{!ServicePorts W fs_service} `{ObjPool Ob}.
Notation fs_ipc := (fs_ipc Ob T).
Notation X := (W * fs_ipc)%type.
Context (fso : fs_ops T) (file_at : list Z → list Z → Prop) (idle : T → Prop) (opened : T → Z → list Z → Prop).
Context (Hfs : fs_spec fso file_at idle opened).
Context (ct ns nt : Z) (Hns : ns ≠ 0).
Implicit Types (x : X) (y : fs_ipc) (h : ipc_header) (p va n s t port fsf fc : Z) (bs path content : list Z).

Notation ports_of x := (v_ports (p_view x)).

Record fi_ok y : Prop := {
  fi_pool : op_inv (fi_malloc y);
  fi_live a : is_Some (fi_files y !! a) ∨ is_Some (fi_directories y !! a) → op_live (fi_malloc y) a
}.

(** Memory is exhausted. *)
Definition fs_stop (w : stop) : Prop := p_stop (W:=W) w ∨ alloc_stop (Ob:=Ob) w.
Lemma fs_stop_ports w : p_stop (W:=W) w → fs_stop w.
Proof. by left. Qed.

(** [port] is the port of a service for [fsf], run by the task [t]. *)
Record started x port t fsf A x' : Prop := {
  st_next : p_next x x';
  st_rest : x'.2 = x.2;
  st_new : A !! port = None;
  st_task : t ≠ nt;
  st_kernel : p_kernel x' t;
  st_serves : so_serves x'.1 t port FILE_SERVICE fsf;
  st_view : p_view x' =
    with_ports (<[port := give t IPC_PORT_RIGHT_RECEIVE (new_port nt IPC_PORT_FLAG_DEFAULT)]> A) (p_view x)
}.

Lemma service_start_ok x fsf f : p_inv x → p_kernel x nt → Z.of_nat (size (ports_of x)) < NUNRESERVED →
  fi_files x.2 !! fsf = Some f →
  wp (fs_file_ipc_service_start ns nt fsf) (λ r x', ∃ port t, r = Ok port ∧ started x port t fsf (ports_of x) x') fs_stop x.
Proof.
  intros Hi Hk Hsz Hf. unfold fs_file_ipc_service_start. rewrite wp_bind_ok.
  framed (p_allocate_ok x ns nt IPC_PORT_FLAG_DEFAULT Hi Hns Hk Hsz) fs_stop_ports.
  intros r x1 [(Hn1&port&->&Hrange&Hfree&Hv1) Ht1]. unfold load_file. rewrite !wp_bind, wp_get, wp_deref, Ht1, Hf.
  assert (v_ports (p_view x1.1) !! port = Some (new_port nt IPC_PORT_FLAG_DEFAULT)) as Hport
    by (change (p_view x1.1) with (p_view x1); rewrite Hv1; apply lookup_insert_eq).
  assert (wp (so_service ns nt (fsf_path f) port IPC_PORT_FLAG_DEFAULT FILE_SERVICE fsf)
    (λ r w', r = Ok tt ∧ p_next x1.1 w' ∧ ∃ t, t ≠ nt ∧ p_kernel w' t ∧ so_serves w' t port FILE_SERVICE fsf ∧
       p_view w' = with_ports (<[port := give t IPC_PORT_RIGHT_RECEIVE (new_port nt IPC_PORT_FLAG_DEFAULT)]> (v_ports (p_view x1.1))) (p_view x1.1))
    (p_stop (W:=W)) x1.1) as Hw.
  { apply so_service_ok; [apply Hn1|done|by apply (p_next_kernel Hn1)|done| |exact Hport|].
    - intros E. change (port = 0) in E. unfold IPC_PORT_UNRESERVED_START in Hrange. lia.
    - unfold may_receive, a_right, new_port. cbn. by rewrite lookup_singleton_eq. }
  rewrite wp_bind. eapply wp_mono; [apply (wp_first _ _ _ _ _ fs_stop_ports Hw)| |done].
  intros r x2 [(->&Hn2&t&Ht&Hkt&Hserves&Hv2) Ht2]. rewrite wp_ret. exists port, t. split; [done|]. split.
  - exact (p_next_trans x x1 x2 Hn1 Hn2).
  - congruence.
  - done.
  - done.
  - done.
  - done.
  - etransitivity; [exact Hv2|]. idtac. change (p_view x1.1) with (p_view x1). rewrite Hv1. cbn [v_ports with_ports]. by rewrite insert_insert_eq.
Qed.

Lemma spec_send_other t h p (A : gmap Z aport) i : i ≠ ipchdr_dst h → (spec_send t h p A).2 !! i = A !! i.
Proof. intros Hi. unfold spec_send. repeat case_match; cbn; try done; by rewrite lookup_insert_ne. Qed.

(** The port [port] was made for the receivers of [n]: the task [t] takes its
    messages for [fsf], and this task does not. *)
Definition port_handed x n port t fsf : Prop :=
  port ≠ n ∧ t ≠ nt ∧ p_kernel x t ∧ so_serves x.1 t port FILE_SERVICE fsf ∧
  ∃ b, ports_of x !! port = Some b ∧ a_msgs b = [] ∧ may_receive t b = true ∧ may_receive nt b = false ∧ sends ct b = true.

Lemma give_port_ok x h n s port t fsf va A0 A1 :
  p_inv x → p_kernel x nt → p_kernel x t → t ≠ nt → so_serves x.1 t port FILE_SERVICE fsf →
  request_header h n s → requested ct nt A0 n A1 → A1 !! port = None →
  ports_of x = <[port := give t IPC_PORT_RIGHT_RECEIVE (new_port nt IPC_PORT_FLAG_DEFAULT)]> A1 →
  wp (give_port ns nt h port va)
    (λ r x', r.2 = va ∧ p_next x x' ∧ x'.2 = x.2 ∧ port_handed x' n port t fsf ∧
       v_pages (p_view x') = v_pages (p_view x) ∧ v_direct (p_view x') = v_direct (p_view x) ∧
       ∃ B, (∀ i, A1 !! i ≠ None → B !! i = A1 !! i) ∧
         spec_send nt (with_param port (IPC_HEADER_REPLY h)) 0 B = (r.1, ports_of x')) fs_stop x.
Proof.
  intros Hi Hk Hkt Ht Hserves Hrq (a&Ha&Hra&HA1) Hfree HA. unfold give_port. destruct Hrq as [Hsrc Hdst Hright Hmsg].
  set (a1 := give nt IPC_PORT_RIGHT_SEND_ONCE a) in *. rewrite Hsrc.
  assert (n ≠ port) as Hne by (intros ->; rewrite HA1, lookup_insert_eq in Hfree; done).
  assert (may_receive ct a1 = true) as Hra1 by by apply give_receive.
  destruct (handed_port t ct nt a1 Ht Hra1) as (b&Hdrop&Hmb&Hrb&Hnb&Hsb).
  set (g := give t IPC_PORT_RIGHT_RECEIVE (new_port nt IPC_PORT_FLAG_DEFAULT)) in *.
  assert (may_receive nt g = true) as Hrg.
  { apply give_receive. unfold may_receive, a_right, new_port. cbn. by rewrite lookup_singleton_eq. }
  rewrite wp_bind.
  framed (p_right_send_ok x ns nt n port IPC_PORT_RIGHT_SEND Hi Hns Hk Hne) fs_stop_ports.
  intros r x1 [(Hn1&A&Hspec&Hv1) Ht1]. unfold spec_right_send in Hspec.
  rewrite HA, lookup_insert_eq, Hrg in Hspec. cbn [negb] in Hspec.
  rewrite lookup_insert_ne, HA1, lookup_insert_eq, <-HA1 in Hspec by done. rewrite insert_insert_eq in Hspec.
  assert (r = Ok tt ∧ A = <[port := give_all IPC_PORT_RIGHT_SEND a1 g]> A1) as [-> ->] by (split; congruence).
  rewrite wp_bind, wp_or_panic.
  framed (p_right_drop_ok x1 ns nt port IPC_PORT_RIGHT_RECEIVE (proj1 Hn1) Hns (p_next_kernel Hn1 Hk)) fs_stop_ports.
  intros r x2 [(Hn2&A&Hspec2&Hv2) Ht2]. unfold spec_right_drop in Hspec2. rewrite Hv1 in Hspec2. cbn [v_ports with_ports] in Hspec2.
  rewrite lookup_insert_eq, Hdrop, insert_insert_eq in Hspec2.
  assert (r = Ok tt ∧ A = <[port := b]> A1) as [-> ->] by (split; congruence).
  pose proof (p_next_trans x x1 x2 Hn1 Hn2) as Hn12. rewrite wp_bind.
  eapply wp_mono; [apply (fs_send_ok ns nt Hns _ x2 fs_stop fs_stop_ports (proj1 Hn12) (p_next_kernel Hn12 Hk))| |done].
  intros r x3 [(Hn3&A&Hspec3&Hv3) Ht3]. rewrite wp_ret. pose proof (p_next_trans x x2 x3 Hn12 Hn3) as Hn.
  assert (v_ports (p_view x2) = <[port := b]> A1) as HA2 by (by rewrite Hv2). rewrite HA2 in Hspec3.
  assert (ports_of x3 = A) as HA3 by (by rewrite Hv3).
  split; [done|]. split; [done|]. split; [congruence|]. split; [|split_and!].
  - split; [done|]. split; [done|]. split; [by apply (p_next_kernel Hn)|].
    split; [apply (so_serves_stays x.1 x3.1); [exact Hn|done]|]. exists b. split; [|done]. rewrite HA3.
    replace A with (spec_send nt (with_param port (IPC_HEADER_REPLY h)) 0 (<[port := b]> A1)).2 by (by rewrite Hspec3).
    rewrite spec_send_other; [apply lookup_insert_eq|]. cbn. by rewrite Hsrc.
  - by rewrite Hv3, Hv2, Hv1.
  - by rewrite Hv3, Hv2, Hv1.
  - exists (<[port := b]> A1). split; [|by rewrite HA3]. intros i Hii. rewrite lookup_insert_ne; [done|]. intros <-. done.
Qed.

(** The answer to a request to open a path: an error, and nothing is open; or a
    port, which is a service of the file. *)
Definition open_answer y h n path (h' : ipc_header) (pg : option (list Z)) x : Prop :=
  pg = None ∧ fi_ok x.2 ∧
  ((∃ e, h' = IPC_HEADER_ERROR h e ∧ idle (fi_fs x.2) ∧ fi_files x.2 = fi_files y) ∨
   (∃ port t fsf fc content, h' = with_param port (IPC_HEADER_REPLY h) ∧ file_at path content ∧
      fi_files y !! fsf = None ∧ file_open opened x.2 fsf (short_path path) fc content ∧ port_handed x n port t fsf)).
Lemma open_answer_stable y h n path : stable n (open_answer y h n path).
Proof.
  intros h' pg x x' (->&Hok&HR) Hn Ht Hi. split; [done|]. rewrite Ht. split; [done|].
  destruct HR as [HR|(port&t&fsf&fc&content&Hh&Hat&Hnew&Hopen&Hne&Htn&Hk&Hs&b&Hb&Hrest)]; [by left|right].
  exists port, t, fsf, fc, content. split_and!; try done. split; [done|]. split; [done|].
  split; [by apply (p_next_kernel Hn)|]. split; [by apply (so_serves_stays x.1 x'.1); [exact Hn|]|].
  exists b. by rewrite Hi by done.
Qed.

Lemma open_made x path fc : fi_ok x.2 →
  wp (fi_alloc (W:=W) (T:=T)) (λ fsf x', fsf ≠ 0 ∧ x'.1 = x.1 ∧ fi_fs x'.2 = fi_fs x.2 ∧ fi_files x'.2 = fi_files x.2 ∧
    fi_files x.2 !! fsf = None ∧
    fi_ok (set_fi_files (<[fsf := mk_fs_file path fc]> (fi_files x'.2)) x'.2)) fs_stop x.
Proof.
  intros [Hp Hl]. unfold fi_alloc, on_fi. rewrite !wp_zoom. unfold wp.
  destruct (op_alloc (fi_malloc x.2)) as [a o|w] eqn:Hal; [|right; exists (fi_malloc x.2); by split].
  destruct (op_alloc_ok _ _ _ Hp Hal) as (Ho&Hfresh&Hlive). cbn.
  assert (0 < a) as Ha0 by (apply (op_live_pos o); [done|]; apply Hlive; by right).
  split; [lia|]. split; [done|]. split; [done|]. split; [done|]. split.
  - destruct (fi_files x.2 !! a) eqn:E; [|done]. destruct Hfresh. apply Hl. left. by eexists.
  - split; cbn; [done|]. intros b [Hb|Hb]; apply Hlive.
    + apply lookup_insert_is_Some' in Hb as [->|Hb]; [by right|left]. apply Hl. by left.
    + left. apply Hl. by right.
Qed.

Lemma file_open_handles h n s p bs y path A0 :
  fi_ok y → idle (fi_fs y) → request_header h n s → ipchdr_msg h = FS_MSG_OPEN_FILE →
  string_of bs = Some path → path_chars path → Z.of_nat (size A0) < NUNRESERVED →
  handles ct nt fs_stop (fs_ipc_handler ns nt fso) h n s p bs y A0 (open_answer y h n path).
Proof.
  intros Hok Hidle Hrq Hmsg Hpath Hpc Hsz x1 va Hi Hk <- Hva Hva0 Hpg Hreq.
  unfold fs_ipc_handler. rewrite Hmsg. change (FS_MSG_OPEN_FILE =? FS_MSG_OPEN_FILE) with true. cbn iota.
  unfold fs_ipc_open_file_handler. rewrite (proj2 (Z.eqb_neq va 0)) by done. rewrite wp_bind. unfold wp at 1.
  rewrite (p_load_ok x1 va bs Hi) by (unfold at_address; by rewrite Hva).
  rewrite wp_bind, wp_deref, Hpath, wp_bind. cbn [fs fs_file_open lift_ops]. rewrite wp_zoom.
  eapply wp_mono; [by apply (fp_open _ _ _ _ Hfs path (fi_fs x1.2))| |done].
  intros [fc|e] fst'.
  2:{ intros Hidle'. apply (answer_no_page ns nt Hns _ p va _ n s x1); [exact fs_stop_ports|done..|by apply error_header|].
      intros x' Ht. split; [done|]. rewrite Ht. split; [by split; apply Hok|]. left. by exists e. }
  intros (content&Hat&Hop). set (x2 := (x1.1, set_fi_fs fst' x1.2)). rewrite wp_bind.
  eapply wp_mono; [apply (open_made x2 (short_path path) fc); by split; apply Hok| |done].
  intros fsf x3 (Hfsf&E1&Efs&Efiles&Hnew&Hok3). rewrite (proj2 (Z.eqb_neq fsf 0)) by done. rewrite wp_bind, wp_modify.
  rewrite Efiles in Hok3 |- *. change (fi_files x2.2) with (fi_files x1.2) in *.
  set (x4 := (x3.1, set_fi_files (<[fsf:=mk_fs_file (short_path path) fc]> (fi_files x1.2)) x3.2)).
  assert (x4.1 = x1.1) as E4 by exact E1. destruct Hreq as (a&Ha&Hra&HA1).
  assert (p_inv x4 ∧ p_kernel x4 nt ∧ p_view x4 = p_view x1) as (Hi4&Hk4&Hv4).
  { change (p_inv x4) with (p_inv x4.1). change (p_kernel x4) with (p_kernel x4.1). change (p_view x4) with (p_view x4.1).
    rewrite E4. by split_and!. }
  assert (p_next x1 x4) as Hn4.
  { split; [done|]. change (p_kernel x4) with (p_kernel x4.1). change (p_stays x1 x4) with (p_stays x1.1 x4.1). rewrite E4.
    split; [done|]. reflexivity. }
  rewrite wp_bind. eapply wp_mono; [apply (service_start_ok x4 fsf (mk_fs_file (short_path path) fc) Hi4 Hk4)| |done].
  { rewrite Hv4, HA1. rewrite map_size_insert_Some by done. done. }
  { apply lookup_insert_eq. }
  intros r x5 (port&t&->&[Hn5 Ht5 Hnew5 Htn Hkt Hserves Hv5]). rewrite Hv4 in Hnew5, Hv5.
  pose proof (p_next_trans x1 x4 x5 Hn4 Hn5) as Hn15.
  eapply wp_mono; [apply (give_port_ok x5 h n s port t fsf va A0 (ports_of x1)); try done| |done].
  { apply Hn15. }
  { by apply (p_next_kernel Hn15). }
  { by exists a. }
  { by rewrite Hv5. }
  intros r x6 (Hr&Hn6&Ht6&Hhanded&Hpg6&Hdr6&B&HB&Hspec).
  exists (with_param port (IPC_HEADER_REPLY h)), None. split; [by destruct (reply_header h n s Hrq)|]. split.
  - split; [done|]. rewrite Ht6, Ht5. split; [done|]. right. exists port, t, fsf, fc, content.
    split_and!; [done..| |done]. split; [cbn; by rewrite lookup_insert_eq|]. cbn. by rewrite Efs.
  - split; [by eapply p_next_trans|by exists B|]. split; [done|]. by rewrite Hpg6, Hdr6, Hv5.
Qed.
End opening.

(** * Opening and reading *)

Section client.
Context {W Ob T : Type} `{Ports W} `{!ServiceOps W fs_service} `{!ServicePorts W fs_service} `{ObjPool Ob}.
Notation fs_ipc := (fs_ipc Ob T).
Notation X := (W * fs_ipc)%type.
Context (big : bool) (fuel : nat) `{LoadMemory X} `{TaskOps X}.
(** A client's thread and task, and the file system's. *)
Context (cs ct ns nt : Z) (fso : fs_ops T).
Implicit Types (x : X) (h : ipc_header) (n s t port fsf : Z) (path : list Z).

Definition open_header n s (cookie : Z) : ipc_header :=
  mk_header n s IPC_PORT_RIGHT_SEND_ONCE FS_MSG_OPEN_FILE cookie 0.
Definition read_header n port (cookie : Z) : ipc_header :=
  mk_header n port IPC_PORT_RIGHT_SEND_ONCE FS_FILE_MSG_READ cookie 0.
Definition read_request (off len : Z) : list Z := be_split 8 off ++ be_split 8 len.

(** The client opens a path. *)
Definition fs_open n s (cookie : Z) path : M X (result (ipc_header * Z)) :=
  exchange cs ct ns nt (fs_ipc_handler ns nt fso) (open_header n s cookie) (path ++ [0])
    (Z.of_nat (length path) + 1) n s false.
(** It reads from a port; the service is the task [t], with the thread [ts]. *)
Definition fs_read (ts t fsf : Z) n port (cookie off len : Z) : M X (result (ipc_header * Z)) :=
  exchange cs ct ts t (fs_file_ipc_handler ts t fso big fuel fsf) (read_header n port cookie)
    (read_request off len) 16 n port true.

Lemma handles_mono (E E' : stop → Prop) (hd : handler (X:=X)) h n s p bs y A0 R :
  (∀ w, E w → E' w) → handles ct nt E hd h n s p bs y A0 R → handles ct nt E' hd h n s p bs y A0 R.
Proof. intros HE Hh x1 va Hi Hk Ht Hva Hva0 Hpg Hreq. eapply wp_mono; [by apply (Hh x1 va)|done|exact HE]. Qed.

Definition fs_exhausted (w : stop) : Prop :=
  fs_stop (W:=W) (Ob:=Ob) w ∨ (∃ e, p_no_page (W:=W) e) ∧ w = Panic "ipc_port_receive failed".
Lemma fs_exhausted_ports w : p_stop (W:=W) w → fs_exhausted w.
Proof. by left; left. Qed.
Lemma fs_exhausted_receive e : p_no_page (W:=W) e → fs_exhausted (Panic "ipc_port_receive failed").
Proof. intros He. right. split; [by exists e|done]. Qed.

Lemma open_request_path path : path_chars path → Z.of_nat (length path) < PAGE_SIZE →
  string_of (data_page (path ++ [0]) (Z.of_nat (length path) + 1)) = Some path ∧ Forall is_byte (path ++ [0]).
Proof.
  intros Hc Hl. split.
  - destruct (data_page_all (path ++ [0]) (Z.of_nat (length path) + 1) 0) as [l ->]; [rewrite length_app; cbn; lia|lia|].
    rewrite <-app_assoc. cbn [app]. by apply string_of_app.
  - apply Forall_app. split; [|repeat constructor; lia]. eapply Forall_impl; [exact Hc|]. unfold is_byte. lia.
Qed.

Lemma field_start (w : nat) z l : 0 ≤ z < 2 ^ (8 * Z.of_nat w) → field true 0 (Z.of_nat w) (be_split w z ++ l) = z.
Proof.
  intros Hz. unfold field, slice, bytes_int. rewrite Nat2Z.id. change (Z.to_nat 0) with 0%nat. rewrite drop_0.
  rewrite take_app_le, take_ge by (rewrite length_be_split; lia). rewrite be_combine_split. by apply Z.mod_small.
Qed.
Lemma read_request_page off len : 0 ≤ off < 2 ^ 63 → 0 ≤ len < 2 ^ 64 →
  let page := data_page (read_request off len) 16 in
  request_offset page = off ∧ request_length page = len ∧ length (read_request off len) = 16%nat ∧
  Forall is_byte (read_request off len).
Proof.
  intros Hoff Hlen page. unfold page, read_request.
  assert (length (be_split 8 off ++ be_split 8 len) = 16%nat) as Hl by (by rewrite length_app, !length_be_split).
  destruct (data_page_all (be_split 8 off ++ be_split 8 len) 16 0) as [l ->]; [by rewrite Hl|done|]. cbn [replicate app].
  rewrite <-app_assoc. unfold request_offset, request_length. split_and!.
  - change 8 with (Z.of_nat 8) at 1. rewrite field_start by lia. by apply signed64_small.
  - unfold field, slice. rewrite drop_app_ge by (rewrite length_be_split; lia). rewrite length_be_split.
    change (drop (Z.to_nat 8 - 8) (be_split 8 len ++ l)) with (be_split 8 len ++ l).
    change (field true 0 (Z.of_nat 8) (be_split 8 len ++ l) = len). by apply field_start.
  - done.
  - apply Forall_app. split; apply be_split_bytes.
Qed.
End client.

Section theorem.
Context {W Ob T : Type} `{Ports W} `{!ServiceOps W fs_service} `{!ServicePorts W fs_service} `{ObjPool Ob}.
Notation fs_ipc := (fs_ipc Ob T).
Notation X := (W * fs_ipc)%type.
Context (big : bool) (fuel : nat) `{LoadMemory X} `{TaskOps X}.
Context (cs ct ns nt : Z) (Hcs : cs ≠ 0) (Hns : ns ≠ 0).
Context (fso : fs_ops T) (file_at : list Z → list Z → Prop) (idle : T → Prop) (opened : T → Z → list Z → Prop).
Context (Hfs : fs_spec fso file_at idle opened).
Context (Hbytes : ∀ t fc content, opened t fc content → Forall is_byte content).
Implicit Types (x : X) (h : ipc_header) (n s t port fsf : Z) (path content : list Z).
Notation ports_of x := (v_ports (p_view x)).

(** What a client gets that reads [len] bytes at [off] of [content]. *)
Definition bytes_read h content (off len : Z) (r : result (ipc_header * Z)) x : Prop :=
  match r with
  | Err e => p_no_page (W:=W) e
  | Ok (h', va) => ∃ k, h' = with_param k (IPC_HEADER_REPLY h) ∧ 0 ≤ k ≤ Z.min len PAGE_SIZE ∧
      off + k ≤ Z.of_nat (length content) ∧ (off < Z.of_nat (length content) → 0 < k) ∧
      if k =? 0 then va = 0 else ∃ page, at_address va (p_view x) = Some page ∧ slice 0 k page = slice off k content
  end.

Lemma fs_read_ok ts t fsf path fc content n port cookie off len x :
  ts ≠ 0 → p_inv x → p_kernel x ct → p_kernel x t → connected (ports_of x) n port ct t → n ≠ port →
  file_open opened x.2 fsf path fc content → 0 ≤ off ≤ Z.of_nat (length content) → 0 < len < 2 ^ 64 →
  wp (fs_read big fuel cs ct fso ts t fsf n port cookie off len)
    (bytes_read (read_header n port cookie) content off len) (fs_exhausted (W:=W) (Ob:=Ob)) x.
Proof.
  intros Hts Hi Hkc Hkt Hconn Hne Hopen Hoff Hlen. pose proof (fp_size _ _ _ _ Hfs _ _ _ (proj2 Hopen)) as Hsz.
  destruct (read_request_page off len) as (Hro&Hrl&Hrlen&Hrb); [lia..|]. unfold fs_read.
  eapply wp_mono; [apply (exchange_ok cs ct ts t Hcs Hts fs_exhausted fs_exhausted_ports fs_exhausted_receive _ _ _ _ _ _ _ x
    (read_answer opened x.2 (read_header n port cookie) content off len fsf path fc)); try done| |done].
  - apply read_answer_stable.
  - intros p. apply (file_read_handles fso file_at idle opened Hfs Hbytes ct ts t Hts big fuel); try done; [exact fs_exhausted_ports|lia].
  - intros r x' [(e&->&He&_)|[Hn Hans]]; [done|]. destruct r as [[h' va]|e]; [|apply Hans].
    destruct Hans as (pg&(_&_&_&_&k&->&Hk&Hke&Hkp&Hpg)&_&_&_&Hat). exists k. split_and!; [done|lia..|done|].
    destruct pg as [page|].
    + destruct Hpg as [Hk0 Hsl]. rewrite (proj2 (Z.eqb_neq k 0)) by lia. by exists page.
    + subst k. rewrite Z.eqb_refl. apply Hat.
Qed.

(** C5: A client that opens a path is answered by an error, or by a port that it
    can send to and that the opener does not receive on: a service with the
    file at the path.  Whatever it reads from there are the file's bytes at
    the offset it asked for, in a page it gets: at least one before the end of
    the file, and no more than asked for or than a page holds.  An exchange
    fails only with an error of the allocation or of the mapping of a page for
    a message. *)
Theorem fs_ipc_open_read n s cookie path x :
  p_inv x → p_kernel x ct → p_kernel x nt → connected (ports_of x) n s ct nt → n ≠ s →
  Z.of_nat (size (ports_of x)) + 1 < NUNRESERVED →
  fi_ok x.2 → idle (fi_fs x.2) → path_chars path → Z.of_nat (length path) < PAGE_SIZE →
  wp (fs_open cs ct ns nt fso n s cookie path)
    (λ r x1, match r with
     | Err e => p_no_page (W:=W) e
     | Ok (h', va) => va = 0 ∧
        ((∃ e, h' = IPC_HEADER_ERROR (open_header n s cookie) e ∧ idle (fi_fs x1.2)) ∨
         (∃ port t fsf content, h' = with_param port (IPC_HEADER_REPLY (open_header n s cookie)) ∧ file_at path content ∧
            port_handed ct nt x1 n port t fsf ∧
            ∀ ts cookie' off len, ts ≠ 0 → 0 ≤ off ≤ Z.of_nat (length content) → 0 < len < 2 ^ 64 →
              wp (fs_read big fuel cs ct fso ts t fsf n port cookie' off len)
                (bytes_read (read_header n port cookie') content off len) (fs_exhausted (W:=W) (Ob:=Ob)) x1))
     end) (fs_exhausted (W:=W) (Ob:=Ob)) x.
Proof.
  intros Hi Hkc Hkn Hconn Hne Hsz Hok Hidle Hpc Hl. destruct (open_request_path path Hpc Hl) as [Hpath Hby]. unfold fs_open.
  set (page := data_page (path ++ [0]) (Z.of_nat (length path) + 1)) in *.
  eapply wp_mono; [apply (exchange_ok cs ct ns nt Hcs Hns fs_exhausted fs_exhausted_ports fs_exhausted_receive _ _ _ _ _ _ _ x
    (open_answer file_at idle opened ct nt x.2 (open_header n s cookie) n path)); try done| |done].
  - lia.
  - rewrite length_app. cbn. lia.
  - by apply open_answer_stable.
  - intros p. eapply handles_mono; [by left|].
    apply (file_open_handles fso file_at idle opened Hfs ct ns nt Hns); try done. lia.
  - intros r x1 [(e&->&He&_)|[Hn1 Hans]]; [done|]. destruct r as [[h' va]|e]; [|apply Hans].
    destruct Hans as (pg&(->&_&HR)&_&[Hcn _]&_&Hva&_). split; [done|].
    destruct HR as [(e&->&Hid&_)|(port&t&fsf&fc&content&->&Hat&_&Hopen&Hhanded)]; [left; by exists e|right].
    exists port, t, fsf, content. split; [done|]. split; [done|]. split; [done|].
    destruct Hhanded as (Hpn&_&Hkt&_&b&Hb&Hmb&Hrb&_&Hsb). intros ts cookie' off len Hts Hoff Hlen.
    apply (fs_read_ok ts t fsf (short_path path) fc content); try done; [apply Hn1|by apply (p_next_kernel Hn1)|].
    split; [done|]. by exists b.
Qed.
End theorem.
