(* ===== verification/FsIpcExample.v ===== *)
(** A file of a small archive, opened and read through messages: the theorem of
    FsIpc.v on the machine of ServiceExample.v. *)

From S2P Require Import Prelude MachineInt Btree Mutex Pool CString Storage Paths Exec Fs Tarfs FsTarfs TarfsExample FsExample.
From S2P Require Import IpcPort IpcSpec IpcAlloc Ipc Message Task TaskExample Directory Service Exchange Ns ServiceExample FsIpc.

Local Open Scope Z_scope.
Local Open Scope c_scope.

#[local] Instance example_code : ServiceCode := {| exception_code := 0x100; service_code := 0x200 |}.
#[local] Notation machine := (@services (list Z * Z) board fs_service).
#[local] Notation archive_fs := (@tarfs_fs unit unit).
#[local] Notation state := (machine * fs_ipc (list Z * Z) archive_fs)%type.

#[local] Instance archive_disk : BlockDevice unit := disk_blocks 512 archive_image.
#[local] Instance archive_memory : KernelMemory unit :=
  {| km_alloc _ := ret (Ok 4096); km_free _ _ := ret (Ok tt) |}.

(** No program is started here. *)
#[local] Instance no_loader : LoadMemory state := {|
  lm_range_wire _ _ _ := ret (Err ERROR_NOT_IMPLEMENTED);
  lm_unwire _ _ _ _ := ret (Err ERROR_NOT_IMPLEMENTED);
  lm_store _ _ := ret tt
|}.
#[local] Instance no_tasks : TaskOps state := {|
  tk_create _ := ret (Err ERROR_NOT_IMPLEMENTED);
  tk_port _ := ret 0;
  tk_vm _ := ret 0;
  tk_thread _ := ret (Err ERROR_NOT_IMPLEMENTED);
  tk_upcall_user _ _ := ret tt;
  tk_runnable _ := ret tt
|}.

(** Task 10 serves the archive on port 1; task 12 is the client, on port 4. *)
Definition archive_mounted : archive_fs := mk_fs example_mount ∅ tt.
Definition served : state := (mk_services kernel3 ([], 1) ∅ [], mk_fs_ipc _ _ archive_mounted ([], 1) ∅ ∅).
#[local] Notation fso := (tarfs_fs_ops 512 empty_context (Z.to_nat 8194) 5).
#[local] Notation ents := [entry_a; entry_d; entry_x; entry_y].
#[local] Notation at_path := (tar_file_at archive_image ents).
#[local] Notation idle := (tar_idle (D:=unit) (tt : unit) ∅).
#[local] Notation is_open := (tar_opened (D:=unit) archive_image (tt : unit) 4096 ents ∅).

Lemma board_undisturbed : thread_law (undisturbed (V:=board)).
Proof. by split. Qed.
#[local] Instance machine_services : ServicePorts machine fs_service := services_service_ports board_undisturbed.

Lemma archive_is_fs : fs_spec fso at_path idle is_open.
Proof.
  apply (tarfs_is_fs 512 archive_image empty_context tt tt 4096 ents ∅ archive_image_ok example_archive);
    [by split|done|by vm_compute|simpl; lia].
Qed.
Lemma served_bytes t fc content : is_open t fc content → Forall is_byte content.
Proof.
  intros (_&_&_&_&e&f&_&_&_&->). unfold entry_data, slice. apply Forall_take, Forall_drop.
  apply Forall_forall. intros b Hb.
  assert (forallb (λ b, (0 <=? b) && (b <? 256)) archive_image = true) as Hall by by vm_compute.
  pose proof (proj1 (forallb_forall _ _) Hall b (proj1 (list_elem_of_In _ _) Hb)) as E.
  apply andb_prop in E as [?%Z.leb_le ?%Z.ltb_lt]. by split.
Qed.

Lemma served_inv : p_inv served.
Proof.
  split.
  - pose proof services3_ok as [[_ Hp _] Ht Hm _]. split; [exact Hp|exact Ht|exact Hm|]. intros c [y Hy]. cbn in Hy. by rewrite lookup_empty in Hy.
  - apply (b3_in (known_tasks served.1)). intros t Htd. apply kernel3_live. by apply elem_of_dom.
Qed.

Lemma fs_ipc_open_read_witness :
  wp (fs_open 3 12 1 10 fso 4 IPC_PORT_NS 7 path_x)
    (λ r x1, match r with
     | Err e => p_no_page (W:=machine) e
     | Ok (h', va) => va = 0 ∧
        ((∃ e, h' = IPC_HEADER_ERROR (open_header 4 IPC_PORT_NS 7) e ∧ idle (fi_fs x1.2)) ∨
         (∃ port t fsf content, h' = with_param port (IPC_HEADER_REPLY (open_header 4 IPC_PORT_NS 7)) ∧ at_path path_x content ∧
            port_handed 12 10 x1 4 port t fsf ∧
            ∀ ts cookie' off len, ts ≠ 0 → 0 ≤ off ≤ Z.of_nat (length content) → 0 < len < 2 ^ 64 →
              wp (fs_read true 8 3 12 fso ts t fsf 4 port cookie' off len)
                (bytes_read (read_header 4 port cookie') content off len) (fs_exhausted (W:=machine) (Ob:=list Z * Z)) x1))
     end) (fs_exhausted (W:=machine) (Ob:=list Z * Z)) served.
Proof.
  apply (fs_ipc_open_read true 8 3 12 1 10 ltac:(lia) ltac:(lia) fso at_path idle is_open archive_is_fs served_bytes
    4 IPC_PORT_NS 7 path_x served).
  - apply served_inv.
  - kernel_task b3 12.
  - kernel_task b3 10.
  - apply b3_connected. by right.
  - done.
  - vm_compute. reflexivity.
  - split; cbn; [split; [simpl; lia|]; intros a Ha; by apply elem_of_nil in Ha|].
    intros a. rewrite !lookup_empty. intros [[? ?]|[? ?]]; done.
  - split_and!; [apply example_ready|done..].
  - by apply example_chars.
  - by vm_compute.
Defined.

(** And it runs: the new service is task 13 with port 5, and the file says
    hello. *)
Example fs_open_read_runs :
  match (r <- fs_open 3 12 1 10 fso 4 IPC_PORT_NS 7 path_x ;; r' <- fs_read true 8 3 12 fso 9 13 1 4 5 8 0 100 ;; ret (r, r')) served with
  | Done (r, Ok (h, va)) x =>
      r = Ok (mk_header 1 4 0 (IPC_MSG_REPLY FS_MSG_OPEN_FILE) 7 5, 0) ∧
      h = mk_header 5 4 0 (IPC_MSG_REPLY FS_FILE_MSG_READ) 8 5 ∧
      slice 0 5 <$> at_address va (ipc_view (service_ipc x.1)) = Some [104; 101; 108; 108; 111]
  | _ => False
  end.
Proof. vm_compute. split_and!; reflexivity. Qed.
