(* ===== verification/IpcMemory.v ===== *)
(** Messages that carry pages: the ports of [mk/ipc/ipc_port.c] on the
    address spaces of [mk/vm].

    The memory interface of IpcPort.v is discharged by the machine of
    VmSpace.v, and the theorem follows a page from the sender's address space
    through the queue of a port into the receiver's. *)

From S2P Require Import Prelude MachineInt Btree Mutex Spinlock Pool VmIndex VmPage.
From S2P Require Import Pmap PmapTables VmSpace VmAlloc IpcPort IpcSpec IpcAlloc Ipc.

Local Open Scope Z_scope.
Local Open Scope c_scope.

(** * Bytes of a page

    Memory is kept in 64-bit words, and the machine is big-endian. *)

Definition set_byte (b : Z) (k : nat) (w : Z) : Z :=
  let sh := 8 * Z.of_nat (7 - k mod 8) in
  Z.lor (Z.land w (bnot 64 (Z.shiftl 255 sh))) (Z.shiftl b sh).

Fixpoint set_bytes (o : nat) (bytes : list Z) (ws : list Z) : list Z :=
  match bytes with
  | [] => ws
  | b :: bytes => set_bytes (1 + o) bytes (alter (set_byte b o) (o / 8)%nat ws)
  end.

(** [memcpy] and [memset] to bytes of a direct-mapped page. *)
Definition write_direct (va : Z) (bytes : list Z) : M pages unit :=
  s <- get ;;
  let paddr := XKPHYS_EXTRACT (PAGE_FLOOR va) in
  ws <- deref "direct-mapped page" (VmPage.memory s !! paddr) ;;
  if PAGE_OFFSET va + Z.of_nat (length bytes) <=? PAGE_SIZE then
    put (VmPage.set_memory (<[paddr := set_bytes (Z.to_nat (PAGE_OFFSET va)) bytes ws]>
      (VmPage.memory s)) s)
  else halt (Undefined "write past the page").

(** * The memory interface *)

Section memory.
Context {Ob : Type} `{ObjPool Ob}.
Context (kvm : Z).

#[export] Instance machine_memory : TaskMemory (machine Ob) := {|
  kernel_vm := kvm;
  tm_page_alloc := on_mc_pages (page_alloc PAGE_FLAG_DEFAULT);
  tm_page_release page := on_mc_pages (page_release page);
  tm_page_extract v va := on_mmu v (page_extract (is_kernel kvm v) va);
  tm_page_map v va page := on_mmu v (page_map (is_kernel kvm v) va page);
  tm_page_unmap v va page := on_mmu v (page_unmap va page);
  tm_page_map_direct page := on_mmu kvm (on_pages (page_map_direct true page));
  tm_page_unmap_direct page va := on_mmu kvm (on_pages (page_unmap_direct true page va));
  tm_vm_alloc_address v n high := on_vm v (vm_alloc_address n high);
  tm_vm_free_address v va := on_vm v (vm_free_address va);
  tm_write va bytes := on_mc_pages (write_direct va bytes)
|}.
End memory.

(** * A page in an address space *)

Section transfer.
Context {Ob : Type} `{ObjPool Ob}.
Context (kvm : Z).
Implicit Types (m : mmu) (x : vm Ob).

(** Nobody but [v] at the page [va], if any, translates to [p]. *)
Definition only (s : machine Ob) (p : Z) (here : option (Z * Z)) : Prop :=
  ∀ u m a, space_mmu s u = Some m → in_range m a → translate m a = Some (page_paddr p) →
    match here with Some (v, va) => u = v ∧ a / 8192 = va / 8192 | None => False end.

(** [va] of [v] is a range of one page, entered once and shared with nobody:
    what [vm_alloc] of a page leaves behind. *)
Definition owns_page (s : machine Ob) (v va p : Z) : Prop :=
  va mod 8192 = 0 ∧ pg_refcnt (mc_pages s) !! p = Some 2 ∧ only s p (Some (v, va)) ∧
  (∃ x, space_vm s v = Some x ∧ record_of x va (va + 8192)) ∧
  ∃ m, space_mmu s v = Some m ∧ translate m va = Some (page_paddr p).

(** What every address space translates to and has in use, and the memory of
    [p]: the page at [va] of [v], if any, is gone, and [p] is at [wa] of [w]. *)
Definition shows (u a : Z) (here : option (Z * Z)) : bool :=
  match here with
  | Some (v, va) => bool_decide (u = v ∧ a / 8192 = va / 8192)
  | None => false
  end.

Record moved (from to : option (Z * Z)) (p : Z) (s s' : machine Ob) : Prop := {
  mo_translate u m : space_mmu s u = Some m → ∃ m', space_mmu s' u = Some m' ∧
    (∀ a, in_range m' a ↔ in_range m a) ∧
    ∀ a, in_range m a → translate m' a =
      if shows u a to then Some (page_paddr p)
      else if shows u a from then None else translate m a;
  mo_status u x : space_vm s u = Some x → ∃ x', space_vm s' u = Some x' ∧
    ∀ a b, status x' a b ↔
      if shows u a to then b = true else if shows u a from then b = false else status x a b;
  mo_memory : VmPage.memory (mc_pages s') !! page_paddr p = VmPage.memory (mc_pages s) !! page_paddr p
}.

Lemma shows_run u a v va : 
  va mod 8192 = 0 → shows u a (Some (v, va)) = bool_decide (u = v ∧ va ≤ a < va + 8192).
Proof.
  intros Hva. unfold shows. apply bool_decide_ext. apply Z.div_exact in Hva; [|lia].
  split; intros [-> ?]; (split; [done|]); Z.to_euclidean_division_equations; lia.
Qed.

Lemma moved_trans from to p s1 s2 s3 :
  moved from None p s1 s2 → moved None to p s2 s3 → moved from to p s1 s3.
Proof.
  intros [T1 U1 M1] [T2 U2 M2]. split; [| |by rewrite M2].
  - intros u m Hm. destruct (T1 u m Hm) as (m1&Hm1&Hr1&Ht1).
    destruct (T2 u m1 Hm1) as (m2&Hm2&Hr2&Ht2). exists m2. split; [done|].
    split; [intros a; by rewrite Hr2|]. intros a Ha. rewrite Ht2 by (by apply Hr1).
    destruct (shows u a to); [done|]. by apply Ht1.
  - intros u x Hx. destruct (U1 u x Hx) as (x1&Hx1&H1). destruct (U2 u x1 Hx1) as (x2&Hx2&H2).
    exists x2. split; [done|]. intros a b. rewrite H2. destruct (shows u a to); [done|]. apply H1.
Qed.

(** A step inside [v]. *)
Lemma moved_at v from to p s s' x x' m m' :
  (∀ u a, u ≠ v → shows u a to = false ∧ shows u a from = false) →
  others_same v s s' →
  space_vm s v = Some x → space_vm s' v = Some x' →
  space_mmu s v = Some m → space_mmu s' v = Some m' →
  (∀ a, in_range m' a ↔ in_range m a) →
  (∀ a, in_range m a → translate m' a =
    if shows v a to then Some (page_paddr p)
    else if shows v a from then None else translate m a) →
  (∀ a b, status x' a b ↔
    if shows v a to then b = true else if shows v a from then b = false else status x a b) →
  VmPage.memory (mc_pages s') !! page_paddr p = VmPage.memory (mc_pages s) !! page_paddr p →
  moved from to p s s'.
Proof.
  intros Hsh O Hx Hx' Hm Hm' Hr Ht Hst Hmem. split; [| |done].
  - intros u mu Hu. destruct (decide (u = v)) as [->|Hne].
    { rewrite Hm in Hu. injection Hu as <-. by exists m'. }
    destruct (O u Hne) as [_ Hs]. rewrite Hu in Hs. inversion Hs as [? mu' [Hr' Ht'] E1 E2|]; subst.
    exists mu'. split; [done|]. split; [done|]. intros a _.
    destruct (Hsh u a Hne) as [-> ->]. apply Ht'.
  - intros u y Hu. destruct (decide (u = v)) as [->|Hne].
    { rewrite Hx in Hu. injection Hu as <-. by exists x'. }
    destruct (O u Hne) as [Hs _]. rewrite Hu in Hs. inversion Hs as [? y' Hs' E1 E2|]; subst.
    exists y'. split; [done|]. intros a b. destruct (Hsh u a Hne) as [-> ->]. apply Hs'.
Qed.

#[local] Hint Extern 0 (TaskMemory (machine Ob)) => exact (machine_memory kvm) : typeclass_instances.

(** The same pages are free. *)
Lemma free_length ps ps' :
  sound ps → sound ps' →
  (∀ q, pg_refcnt ps !! q = Some 0 ↔ pg_refcnt ps' !! q = Some 0) →
  length (page_free_queue ps) = length (page_free_queue ps').
Proof.
  intros ((Hnd&Hf&_)&_) ((Hnd'&Hf'&_)&_) Heq.
  apply NoDup_app in Hnd as (Hnd&_), Hnd' as (Hnd'&_). apply Permutation_length, NoDup_Permutation; [done..|].
  intros q. by rewrite Hf, Hf', Heq.
Qed.

(** [ipc_port_send] takes the page out of the sender's address space. *)
Lemma taken_ok s v va p :
  sane s → v ≠ kvm → va ≠ 0 → owns_page s v va p →
  ∃ s', taken v va s = Done (Ok p) s' ∧ sane s' ∧ moved (Some (v, va)) None p s s' ∧
    pg_refcnt (mc_pages s') !! p = Some 1 ∧ no_table s' p ∧ only s' p None ∧
    length (page_free_queue (mc_pages s)) = length (page_free_queue (mc_pages s')).
Proof.
  intros S Hv Hva (Hal&Hp&Honly&(x&Hx&Hrec)&m&Hm&Ht).
  assert (status x va true) as Hst.
  { destruct Hrec as (i&Hi&Hlo&Hhi&Hu). exists i. split_and!; (done || lia). }
  assert (in_range m va) as Hr by (by apply (mi_span s S v x m va true)).
  destruct (space_mmu_shared s v m Hm) as (Ep&_). destruct (mi_pmap s S v m Hm) as [Hok Hw].
  assert (no_table s p) as Hnt.
  { destruct (mi_mapped s S v m va _ Hm Hr Ht) as (q&n&Heq&Hq&_&Hnt).
    assert (p = q) as <-; [|done]. apply (sane_inj s); [done|by eapply elem_of_dom_2..|done]. }
  destruct (sane_page_unmap s v m va p 2 S Hm Hr Hal Ht Hnt Hp)
    as (m1&Hun&S1&O1&Hrc&Hrr&Hnt1&Htr&Hmem); [lia..|].
  set (s1 := put_mmu v m1 s) in *.
  assert (space_vm s1 v = Some x) as Hx1 by (by unfold s1; rewrite space_vm_put_mmu).
  assert (space_mmu s1 v = Some m1) as Hm1
    by (apply space_mmu_put_mmu; by eapply space_mmu_spaces).
  destruct (mi_vm s S v x Hx) as [Hinv Hl].
  destruct (free_record_ok x va (va + 8192) Hinv Hl Hrec ltac:(lia))
    as (x2&Hfr&Hinv2&Hl2&Hg2&Hst2).
  destruct (vm_step s1 v x x2 S1 Hx1 Hinv2 Hl2 Hg2) as [S2 O2].
  { intros m' a Hm' Ha Hs. rewrite Hm1 in Hm'. injection Hm' as <-. apply Hst2 in Hs.
    case_decide as Hd; [|by apply (mi_free s1 S1 v x m1 a)].
    replace a with va; [rewrite Htr by done; by rewrite decide_True|].
    apply Z.div_exact in Hal, Ha; lia. }
  { intros m' a b Hm' Ha Hs. rewrite Hm1 in Hm'. injection Hm' as <-. apply Hst2 in Hs.
    case_decide as Hd; [|by apply (mi_span s1 S1 v x m1 a b)].
    replace a with va; [by apply Hrr|]. apply Z.div_exact in Hal, Ha; lia. }
  exists (put_vm v x2 s1). split.
  { unfold taken. rewrite (proj2 (Z.eqb_neq va 0)) by done.
    unfold bind_ok, bind, or_panic, bind. cbn [tm_page_extract machine_memory].
    assert (is_kernel kvm v = false) as -> by (by apply Z.eqb_neq).
    destruct (mi_covered s S) as [bases Hcov].
    erewrite on_mmu_ok; [|done|].
    2:{ apply (page_extract_ok m false va p bases Hok Hw Hr); [by rewrite Ep| | |done].
        - rewrite Ep. by eapply elem_of_dom_2.
        - apply (mi_paddr s S). by eapply elem_of_dom_2. }
    rewrite put_mmu_same by done. cbn [kernel_vm machine_memory].
    rewrite (proj2 (Z.eqb_neq v kvm)) by done. cbn [tm_page_unmap tm_vm_free_address machine_memory].
    rewrite (on_mmu_ok s v m _ _ m1 Hm Hun). unfold ret at 1. fold s1.
    unfold on_vm. by rewrite Hx1, Hfr. }
  split; [done|]. split; [|split; [|split; [|split]]].
  - apply (moved_at v _ _ p s _ x x2 m m1); try done.
    + intros u a Hu. split; [done|]. apply bool_decide_eq_false. tauto.
    + by transitivity s1.
    + apply space_vm_put_vm. by eapply space_vm_spaces.
    + by rewrite space_mmu_put_vm.
    + intros a Ha. rewrite Htr by done. cbn [shows]. case_decide as Hd.
      * by rewrite bool_decide_eq_true_2.
      * by rewrite bool_decide_eq_false_2 by tauto.
    + intros a b. rewrite Hst2, shows_run by done. cbn [shows]. case_decide as Hd.
      * by rewrite bool_decide_eq_true_2.
      * by rewrite bool_decide_eq_false_2 by tauto.
  - cbn. by rewrite Hrc, lookup_insert_eq.
  - intros w mw. rewrite space_mmu_put_vm. apply Hnt1.
  - intros u mu a. rewrite space_mmu_put_vm. intros Hu Ha Hta.
    destruct (decide (u = v)) as [->|Hne].
    + rewrite Hm1 in Hu. injection Hu as <-. rewrite Hrr in Ha. rewrite Htr in Hta by done.
      case_decide as Hd; [done|]. by destruct (Honly v m a Hm Ha Hta).
    + destruct (O1 u Hne) as [_ Hs]. rewrite Hu in Hs. inversion Hs as [mu0 ? [Hr0 Ht0] E1 E2|]; subst.
      rewrite Ht0 in Hta. apply Hr0 in Ha. by destruct (Honly u mu0 a (eq_sym E1) Ha Hta).
  - apply free_length; [apply (mi_sound s S)|apply (mi_sound s1 S1)|]. intros q. cbn.
    rewrite Hrc. destruct (decide (q = p)) as [->|Hne]; [|by rewrite lookup_insert_ne].
    rewrite lookup_insert_eq, Hp. by split; intros [=].
Qed.

(** [ipc_port_receive] enters it into the receiver's. *)
Definition delivered (s : machine Ob) (w p : Z) (r : result Z) (s' : machine Ob) : Prop :=
  sane s' ∧ match r with
  | Ok va => moved None (Some (w, va)) p s s' ∧ owns_page s' w va p
  | Err e => e = ERROR_NOT_IMPLEMENTED ∧
      ∀ x i, space_vm s w = Some x → rng x i → inuse (vmi x i) = false → vmi_size (vmi x i) < 1
  end.

Lemma release_ok s p w m :
  sane s → space_mmu s w = Some m → pg_refcnt (mc_pages s) !! p = Some 1 → no_table s p →
  only s p None → ∃ s', on_mc_pages (page_release p) s = Done tt s' ∧ sane s'.
Proof.
  intros S Hm Hp Hnt Hno. destruct (space_mmu_shared s w m Hm) as (Ep&_).
  destruct (page_release_ok (mc_pages s) p (mi_sound s S) Hp) as (ps&Hrel&Hrec&_).
  exists (set_mc_pages ps s). split; [unfold on_mc_pages, zoom; by rewrite Hrel|].
  destruct (mi_pmap s S w m Hm) as [Hok Hwf]. pose proof Hp as Hp'. pose proof Hrec as Hrec'.
  rewrite <-Ep in Hp', Hrec'. pose proof Hrec as (Hrc&_).
  destruct (recount_ok m ps p 0 Hok) as (H'&Hnode&Htr); [by exists 1|done|right; by apply (Hnt w)|].
  assert (set_mc_pages ps s = put_mmu w (set_pages ps m) s) as ->.
  { rewrite <-(put_mmu_same s w m Hm) at 1. unfold put_mmu, set_mc_pages. cbn. f_equal. }
  apply (mmu_step s w m _ [p]); try done.
  - by apply pages_change_range.
  - apply (recount_touches m ps p 0); [done|by exists 1|done|right; by apply (Hnt w)].
  - intros q ->%list_elem_of_singleton. right. intros u mu _ Hmu. split; [by apply (Hnt u)|right].
    intros va Hva Hta. by apply (Hno u mu va).
  - intros va pa Hva. rewrite Htr. intros Hta.
    destruct (mi_mapped s S w m va pa Hm Hva Hta) as (q&k&->&Hq&Hk&Hqn).
    assert (q ≠ p) as Hqp by (intros ->; by apply (Hno w m va)).
    exists q, k. split; [done|]. split; [cbn; by rewrite Hrc, lookup_insert_ne|]. split; [done|].
    split; [intros q' x; rewrite Hnode; by apply (Hqn w)|]. intros u mu _. apply Hqn.
  - intros x a Hx Ha Hs. rewrite Htr. by apply (mi_free s S w x m a).
Qed.

Lemma deliver_ok s w p flags :
  sane s → w ≠ kvm → flag_set flags TASK_KERNEL = false → p ≠ 0 →
  is_Some (space_vm s w) → is_Some (space_mmu s w) →
  pg_refcnt (mc_pages s) !! p = Some 1 → no_table s p → only s p None →
  (2 ≤ length (page_free_queue (mc_pages s)))%nat →
  match deliver flags w p true s with
  | Done (Some r) s' => delivered s w p r s'
  | Done None _ => False
  | Stop z => pool_stop z
  end.
Proof.
  intros S Hw Hfl Hp0 [x Hx] [m Hm] Hp Hnt Hno Hf.
  unfold deliver. rewrite (proj2 (Z.eqb_neq p 0)), Hfl by done. cbn [negb].
  unfold bind at 1. cbn [tm_vm_alloc_address machine_memory].
  destruct (mi_vm s S w x Hx) as [Hinv Hl].
  pose proof (vm_alloc_address_outcome x 1 false Hinv ltac:(lia) ltac:(lia)) as Ho.
  unfold on_vm, wp in *. rewrite Hx.
  destruct (vm_alloc_address 1 false x) as [[va|e] x'|z]; [| |exact Ho]; last first.
  { destruct Ho as (_&_&->&->&Hno'). rewrite put_vm_same by done.
    unfold bind. cbn [tm_page_release machine_memory].
    destruct (release_ok s p w m S Hm Hp Hnt Hno) as (s'&->&S'). split; [done|]. split; [done|].
    intros y i Hy. rewrite Hx in Hy. injection Hy as <-. apply Hno'. }
  destruct Ho as (Hinv'&Hl'&Hal&Hva&Hend&Hfree&Hc&Hrec&Hg).
  destruct (sane_claim s w x x' va _ S Hx Hinv' ltac:(congruence) Hg Hfree Hc) as [S1 O1].
  set (s1 := put_vm w x' s) in *.
  assert (space_mmu s1 w = Some m) as Hm1 by (by unfold s1; rewrite space_mmu_put_vm).
  assert (space_vm s1 w = Some x') as Hx1
    by (apply space_vm_put_vm; by eapply space_vm_spaces).
  assert (status x va false) as Hst by (apply Hfree; lia).
  assert (in_range m va) as Hr by (by apply (mi_span s S w x m va false)).
  destruct (sane_page_map s1 w m va p 1 S1 Hm1 Hr Hal) with (kernel := false)
    as (m'&l&Hmap&S2&O2&T&_&_&Hp2&_&Ht2&Hmem); try done.
  { by apply (mi_free s S w x m va). }
  { intros y Hy. rewrite Hx1 in Hy. injection Hy as <-. intros Hsf%Hc.
    by rewrite decide_True in Hsf by lia. }
  { intros u mu. unfold s1. rewrite space_mmu_put_vm. apply Hnt. }
  assert (is_kernel kvm w = false) as E by (by apply Z.eqb_neq).
  unfold bind. cbn [tm_page_map machine_memory]. rewrite E, (on_mmu_ok s1 w m _ _ m' Hm1 Hmap).
  unfold ret. split; [done|].
  assert (space_mmu (put_mmu w m' s1) w = Some m') as Hm2
    by (apply space_mmu_put_mmu; by eapply space_mmu_spaces).
  assert (space_vm (put_mmu w m' s1) w = Some x') as Hx2 by (by rewrite space_vm_put_mmu).
  assert (∀ a, in_range m' a ↔ in_range m a) as Hrr by (intros a; by apply (touches_in_range (p :: l))).
  split.
  - apply (moved_at w _ _ p s _ x x' m m'); try done.
    + intros u a Hu. split; [|done]. apply bool_decide_eq_false. tauto.
    + by transitivity s1.
    + intros a Ha. rewrite Ht2 by done. cbn [shows]. case_decide as Hd.
      * by rewrite bool_decide_eq_true_2.
      * by rewrite bool_decide_eq_false_2 by tauto.
    + intros a b. rewrite (Hc a b), shows_run by done. cbn [shows]. case_decide as Hd.
      * by rewrite bool_decide_eq_true_2.
      * by rewrite bool_decide_eq_false_2 by tauto.
  - split; [done|]. split; [done|]. split; [|split; [by exists x'|]].
    + intros u mu a Hu Ha Hta. destruct (decide (u = w)) as [->|Hne].
      * rewrite Hm2 in Hu. injection Hu as <-. rewrite Hrr in Ha. rewrite Ht2 in Hta by done.
        case_decide as Hd; [done|]. by destruct (Hno w m a Hm Ha).
      * destruct (O2 u Hne) as [_ Hs2]. rewrite Hu in Hs2.
        inversion Hs2 as [mu1 ? [Hr1 Ht1] E1 E2|]; subst. unfold s1 in E1. rewrite space_mmu_put_vm in E1.
        rewrite Ht1 in Hta. apply Hr1 in Ha. by destruct (Hno u mu1 a (eq_sym E1) Ha Hta).
    + exists m'. split; [done|]. by rewrite Ht2, decide_True.
Qed.

(** * From one task to another *)

(** The sender gives away a page and the receiver takes the message. *)
Definition pass_page `{TaskMemory V} (self me self' me' : Z) (h : ipc_header) (vpage : Z) :
    M (@ipc Ob V) (result unit * result (ipc_header * Z)) :=
  e <- ipc_port_send self me h vpage ;;
  r <- ipc_port_receive self' me' (ipchdr_dst h) true ;;
  ret (e, r).

(** A task that runs in an address space of its own. *)
Definition user_task (s : @ipc Ob (machine Ob)) (t v : Z) : Prop :=
  ∃ k, tasks (data s) !! t = Some k ∧ flag_set (t_flags k) TASK_KERNEL = false ∧ t_vm k = v ∧
    v ≠ kvm ∧ is_Some (space_vm (memory s) v) ∧ is_Some (space_mmu (memory s) v).

Lemma known_nonzero ps p : known ps → p ∈ dom (pg_refcnt ps) → p ≠ 0.
Proof.
  intros Hk Hp. destruct (Hk p Hp) as (base&i&(Hb&_&Hb2)&Hi&->).
  change VM_PAGE_TREE_ENTRIES with 340 in *. unfold page_of, ptp_entry.
  rewrite XKPHYS_MAP_add by lia. change sizeof_vm_page with 24. change sizeof_vm_page_tree with 24. lia.
Qed.

Lemma spec_send_err t h page A e A' : spec_send t h page A = (Err e, A') → A' = A.
Proof. unfold spec_send. repeat case_match; congruence. Qed.

(** What is known after the send, of which the receiver sees the outcome. *)
Lemma pass_page_ok self me self' me' h vpage v w p a s :
  self ≠ 0 → self' ≠ 0 → idle self me s → sane (memory s) →
  user_task s me v → user_task s me' w →
  abs (data s) !! ipchdr_dst h = Some a → may_receive me' a = true → a_msgs a = [] →
  vpage ≠ 0 → owns_page (memory s) v vpage p →
  (2 ≤ length (page_free_queue (mc_pages (memory s))))%nat →
  wp (pass_page self me self' me' h vpage)
    (λ r s', sane (memory s') ∧ (r.1 = Ok tt →
       match r.2 with
       | Ok (h', va) => h' = h ∧ owns_page (memory s') w va p ∧
           moved (Some (v, vpage)) (Some (w, va)) p (memory s) (memory s')
       | Err e => e = ERROR_NOT_IMPLEMENTED
       end)) pool_stop s.
Proof.
  intros Hself Hself' Hi S (k&Hk&Hkf&Hkv&Hv&Hvx&Hvm) (k'&Hk'&Hkf'&Hkv'&Hw&Hwx&Hwm) Ha Hr Hm Hvp Hown Hf.
  assert (task_vm (V:=machine Ob) k = v) as Ekv by (unfold task_vm; by rewrite Hkf, Hkv).
  destruct (taken_ok (memory s) v vpage p S Hv Hvp Hown) as (t&Htk&S1&Mv1&Hp1&Hnt1&Hno1&Hlen).
  assert (p ≠ 0) as Hp0.
  { apply (known_nonzero (mc_pages (memory s))); [apply (mi_sound _ S)|]. destruct Hown as (_&Hc&_).
    by eapply elem_of_dom_2. }
  assert (is_Some (space_vm t w) ∧ is_Some (space_mmu t w)) as [Htx Htm].
  { destruct Mv1 as [T U _], Hwx as [x Hx], Hwm as [m Hmm].
    destruct (U w x Hx) as (?&?&_), (T w m Hmm) as (?&?&_). split; by eexists. }
  unfold pass_page. rewrite wp_bind.
  eapply wp_mono; [by apply (send_ok self me Hself h vpage k s)|simpl|simpl].
  2:{ unfold sent_stop. rewrite Ekv, Htk. intros z [Hz|[Hz|(page&v0&[= <- <-]&Hz)]]; [done..|].
    destruct Htm as [m Hmm]. destruct (release_ok t p w m S1 Hmm Hp1 Hnt1 Hno1) as (t'&Hrel&_).
    unfold disposed in Hz. rewrite (proj2 (Z.eqb_neq p 0)) in Hz by done.
    cbn [negb tm_page_release machine_memory] in Hz. destruct (spec_send _ _ _ _).1; [done|].
    by rewrite Hrel in Hz. }
  intros e s1. unfold sent. rewrite Ekv, Htk. intros (Hi1&Ht1&Hspec&Hd).
  assert (is_Some (tasks (data s1) !! me')) as [k1 Hk1] by (by apply (same_tasks_in s); [|eexists]).
  assert (t_flags k1 = t_flags k' ∧ t_vm k1 = t_vm k') as [Ef Ev].
  { specialize (Ht1 me'). rewrite Hk1, Hk' in Ht1. cbn in Ht1. by injection Ht1. }
  assert (idle self' me' s1) as Hi1' by (apply (idle_other self me); [done|by eexists]).
  (* what the receiver finds *)
  assert ((e = Ok tt ∧ (spec_receive me' (ipchdr_dst h) (abs (data s1))).1 = Ok (h, p) ∧ memory s1 = t) ∨
    (e ≠ Ok tt ∧ (spec_receive me' (ipchdr_dst h) (abs (data s1))).1 = Err ERROR_AGAIN ∧
     sane (memory s1))) as Hseen.
  { destruct e as [[]|e]; [left|right].
    - destruct (spec_send_queue me me' h p _ _ a Hspec Ha Hr) as (a1&Ha1&Hr1&Hm1).
      rewrite Hm in Hm1. destruct (spec_receive_queue me' (ipchdr_dst h) (abs (data s1)) a1 h p [])
        as (Hsr&_); [by rewrite Ha1, lookup_insert_eq|done|done|].
      split; [done|]. split; [done|]. by injection Hd as ->.
    - split; [done|]. rewrite (spec_send_err me h p _ e _ Hspec). split.
      + unfold spec_receive. by rewrite Ha, Hr, Hm.
      + destruct Htm as [m Hmm]. destruct (release_ok t p w m S1 Hmm Hp1 Hnt1 Hno1) as (t'&Hrel&S').
        unfold disposed in Hd. rewrite (proj2 (Z.eqb_neq p 0)) in Hd by done.
        cbn [negb tm_page_release machine_memory] in Hd. rewrite Hrel in Hd. by injection Hd as <-. }
  pose proof (deliver_ok t w p (t_flags k') S1 Hw Hkf' Hp0 Htx Htm Hp1 Hnt1 Hno1 ltac:(lia)) as Hdo.
  rewrite wp_bind.
  eapply wp_mono; [by apply (receive_ok self' me' Hself' (ipchdr_dst h) true k1 s1)|simpl|simpl];
    rewrite Ef, Ev, Hkv'; destruct Hseen as [(->&->&->)|(He&->&S3)].
  - intros r s2 (_&_&_&r0&Hdl&->). rewrite wp_ret. cbn [fst snd]. rewrite Hdl in Hdo.
    destruct Hdo as [S2 Hdo]. split; [done|]. intros _.
    destruct r0 as [va|er]; cbn [with_header]; [|by destruct Hdo].
    destruct Hdo as [Mv2 Hown2]. split; [done|]. split; [done|]. by apply (moved_trans _ _ p _ t).
  - intros r s2 (_&_&_&_&Hm2). rewrite wp_ret, Hm2. by split.
  - intros z [Hz|(h0&page&[= <- <-]&Hz)]; [done|]. destruct Hz as [Hz|(_&v0&Hz)]; by rewrite Hz in Hdo.
  - by intros z [Hz|(h0&page&[=]&Hz)].
Qed.

(** A page of [vm_alloc] is owned. *)
Lemma allocated_owns s s' v va p :
  sane s → VmAlloc.allocated v va [p] s s' → owns_page s' v va p.
Proof.
  intros S A. destruct (ad_bounds _ _ _ _ _ A) as (Hal&_).
  destruct (ad_ranges _ _ _ _ _ A) as (x&x'&Hx&Hx'&Hfree&_&Hrec).
  destruct (ad_mapped _ _ _ _ _ A) as (m&m'&Hm&Hm'&Hr&Ht). cbn [length] in *.
  assert (in_range m va) as Hva by (apply (mi_span s S v x m va false); [done..|]; apply Hfree; lia).
  assert (∀ u mu a, space_mmu s u = Some mu → in_range mu a → translate mu a ≠ Some (page_paddr p))
    as Hno by (intros u mu a Hu Ha; apply (allocated_fresh s s' v va [p] u); (done || by left)).
  split; [done|]. split; [apply (ad_pages _ _ _ _ _ A p); by left|]. split; [|split].
  - intros u mu a Hu Ha Hta. destruct (decide (u = v)) as [->|Hne].
    + rewrite Hm' in Hu. injection Hu as <-. apply Hr in Ha.
      rewrite Ht, run_page_cons, run_page_nil in Hta by done. case_decide; [done|]. by destruct (Hno v m a Hm Ha).
    + destruct (ad_others _ _ _ _ _ A u Hne) as [_ Hs]. rewrite Hu in Hs.
      inversion Hs as [mu0 ? [Hr0 Ht0] E1 E2|]; subst. rewrite Ht0 in Hta. apply Hr0 in Ha.
      by destruct (Hno u mu0 a (eq_sym E1) Ha).
  - exists x'. split; [done|]. by replace (va + 8192) with (va + 8192 * Z.of_nat 1) by lia.
  - exists m'. split; [done|]. rewrite Ht, run_page_cons by done. by rewrite decide_True.
Qed.

(** C1: A user task gives another a page that is its alone, at an address other
    than zero, by a message to a port the other receives from and whose queue
    is empty; the machine is sound, no lock is held, and at least two pages are
    free for page tables (without them [page_alloc] may panic).  If the message is
    accepted, the receiver gets that message with an address of its own, and
    now the page is there and only there: the sender's address is free and
    translates to nothing, the memory of the page is as it was, and every
    other address of every address space translates, and is in use, as
    before.  The receive fails only if it finds no address.  Whatever the
    outcome, the machine is sound, and under these conditions it stops only if
    a pool cannot grow. *)
Theorem ipc_page_transfer self me self' me' h vpage v w p a s :
  self ≠ 0 → self' ≠ 0 → idle self me s → sane (memory s) →
  user_task s me v → user_task s me' w →
  abs (data s) !! ipchdr_dst h = Some a → may_receive me' a = true → a_msgs a = [] →
  vpage ≠ 0 → owns_page (memory s) v vpage p →
  (2 ≤ length (page_free_queue (mc_pages (memory s))))%nat →
  wp (pass_page self me self' me' h vpage)
    (λ r s', sane (memory s') ∧ (r.1 = Ok tt →
       match r.2 with
       | Ok (h', va) => h' = h ∧ owns_page (memory s') w va p ∧
           moved (Some (v, vpage)) (Some (w, va)) p (memory s) (memory s')
       | Err e => e = ERROR_NOT_IMPLEMENTED
       end)) pool_stop s.
Proof. intros. by eapply pass_page_ok. Qed.
End transfer.

(** * Example: task 11 gives a page to task 10 *)

(** A second address space, in which a page is allocated. *)
Definition two_machine : machine (list Z * Z) :=
  Eval vm_compute in
    outcome_state user_machine (vm_setup 0 0 1 (empty_pmap 0 0) USER_BASE USER_END user_machine).
Definition two_alloc_machine : machine (list Z * Z) :=
  Eval vm_compute in outcome_state two_machine (vm_alloc 0 0x101 5000 VM_ALLOC_HIGH two_machine).

Lemma two_setup_run :
  vm_setup 0 0 1 (empty_pmap 0 0) USER_BASE USER_END user_machine = Done (Ok 0x101) two_machine.
Proof. vm_compute. reflexivity. Qed.
Lemma two_alloc_run :
  vm_alloc 0 0x101 5000 VM_ALLOC_HIGH two_machine = Done (Ok 0xffffffe000) two_alloc_machine.
Proof. vm_compute. reflexivity. Qed.

Lemma two_machine_ready :
  sane two_machine ∧ is_Some (space_vm two_machine 0x101) ∧ is_Some (space_mmu two_machine 0x101).
Proof.
  destruct user_machine_ready as (S&_).
  assert (setup_ready 0 0 (empty_pmap 0 0) user_machine) as R.
  { split; try (by vm_compute).
    - split; [by vm_compute|]. intros x Hx. apply list_elem_of_singleton in Hx as ->. by vm_compute.
    - split; [by vm_compute|]. intros x Hx. apply list_elem_of_singleton in Hx as ->. by vm_compute.
    - intros v Hv%elem_of_dom.
      assert (dom (mc_spaces user_machine) = {[0; 0x100]}) as E by (vm_compute; reflexivity).
      rewrite E in Hv. apply elem_of_union in Hv as [->%elem_of_singleton| ->%elem_of_singleton];
        [by left|right]. vm_compute. by left.
    - intros o v o' Ho Hal. destruct (op_alloc_ok o v o' Ho Hal) as (Ho'&_&Hl).
      assert (0 < v) by (apply (op_live_pos o' v Ho'), Hl; by right). lia. }
  assert (span_ok USER_BASE USER_END) as Sp by (split; [by vm_compute|by vm_compute|by vm_compute|by left]).
  pose proof (vm_setup_outcome 0 0 1 (empty_pmap 0 0) USER_BASE USER_END user_machine S R Sp) as Hw.
  destruct (wp_done _ _ _ _ _ _ Hw two_setup_run) as (v&x&m&Hv&_&S2&_).
  split; [exact S2|]. split; eexists; vm_compute; reflexivity.
Qed.

Lemma two_alloc_ready :
  sane two_alloc_machine ∧ ∃ p, owns_page two_alloc_machine 0x101 0xffffffe000 p.
Proof.
  destruct two_machine_ready as (S&[x Hx]&[m Hm]).
  assert (vm_alloc_size 0 0x101 5000) as Hs by (split; [lia|split; [lia|discriminate]]).
  pose proof (vm_alloc_outcome 0 two_machine 0x101 5000 VM_ALLOC_HIGH x m S Hx Hm Hs
    ltac:(vm_compute; lia)) as Hw.
  destruct (wp_done _ _ _ _ _ _ Hw two_alloc_run) as [S1 (ps&Hl&A)]. split; [exact S1|].
  destruct ps as [|p [|q ps]]; [discriminate Hl| |discriminate Hl].
  exists p. exact (allocated_owns two_machine two_alloc_machine 0x101 0xffffffe000 p S A).
Qed.

#[local] Hint Extern 0 (TaskMemory (machine (list Z * Z))) => exact (machine_memory 0) : typeclass_instances.

(** Being idle does not depend on the memory system. *)
Lemma idle_with {Ob V W} `{ObjPool Ob, !TaskMemory V, !TaskMemory W} self me (s : @ipc Ob V) (w : W) :
  idle self me s →
  idle self me (mk_ipc (data s) (ipc_ports_lock s) (port_sync s) (ipc_woken s) w).
Proof. intros (Hw&[H1 H2 H3]&Ht). split; [exact Hw|]. split; [by split|exact Ht]. Qed.

(** The ports of Ipc.v on these address spaces. *)
Definition ports_machine : @ipc (list Z * Z) (machine (list Z * Z)) :=
  mk_ipc (data m3) (ipc_ports_lock m3) (port_sync m3) (ipc_woken m3) two_alloc_machine.

Lemma ports_machine_idle : idle 2 11 ports_machine.
Proof. apply (idle_with 2 11 m3), m3_idle. by right. Qed.

Lemma ipc_page_transfer_witness :
  ∃ h va p s', pass_page 2 11 1 10 (request 5) 0xffffffe000 ports_machine = Done (Ok tt, Ok (h, va)) s' ∧
    h = request 5 ∧ owns_page (memory s') 0x100 va p ∧
    moved (Some (0x101, 0xffffffe000)) (Some (0x100, va)) p (memory ports_machine) (memory s').
Proof.
  destruct two_alloc_ready as (S&p&Hown).
  assert (∃ va, pass_page 2 11 1 10 (request 5) 0xffffffe000 ports_machine =
    Done (Ok tt, Ok (request 5, va))
      (outcome_state ports_machine (pass_page 2 11 1 10 (request 5) 0xffffffe000 ports_machine)))
    as [va Hrun] by (eexists; vm_compute; reflexivity).
  pose proof (ipc_page_transfer 0 2 11 1 10 (request 5) 0xffffffe000 0x101 0x100 p
    (default (new_port 0 0) (abs (data m3) !! 3)) ports_machine ltac:(lia) ltac:(lia)
    ports_machine_idle S) as Hw.
  assert (user_task 0 ports_machine 11 0x101 ∧ user_task 0 ports_machine 10 0x100) as [H1 H2].
  { split; eexists; (split; [vm_compute; reflexivity|]); (split; [vm_compute; reflexivity|]);
      (split; [vm_compute; reflexivity|]); (split; [discriminate|]);
      split; eexists; vm_compute; reflexivity. }
  specialize (Hw H1 H2 ltac:(vm_compute; reflexivity) ltac:(vm_compute; reflexivity)
    ltac:(vm_compute; reflexivity) ltac:(discriminate) Hown ltac:(vm_compute; lia)).
  destruct (wp_done _ _ _ _ _ _ Hw Hrun) as [_ Hr]. destruct (Hr eq_refl) as (Hh&Ho&Hm).
  eexists (request 5), va, p, _. split; [exact Hrun|]. split; [exact Hh|]. split; [exact Ho|exact Hm].
Defined.
