(* ===== verification/Syscall.v ===== *)
(** System calls ([mk/core/core_syscall.c], [mk/cpu/mips/cpu/cpu_syscall.c]).

    The calls run on the kernel of Task.v with the memory of VmSpace.v, so
    each is the composition of what the other files model: ports, tasks and
    threads, and the virtual memory.  A message header is read from and
    written to the caller's memory through the kernel's own mapping of it.
    Threads leave and become runnable through the interface [SchedulerOps].

    The theorems: the dispatch, with what the registers hold afterwards; a
    header sent is the one the caller's address space shows; memory that a
    call allocates is the caller's alone; and two calls that do not do what
    they mean to. *)

From S2P Require Import Prelude MachineInt Btree Mutex Spinlock Pool VmIndex VmPage Storage.
From S2P Require Import Pmap PmapTables VmSpace VmAlloc IpcPort IpcSpec IpcAlloc Ipc IpcMemory Task.

Local Open Scope Z_scope.
Local Open Scope c_scope.

Definition SYSCALL_THREAD_EXIT : Z := 0x00.
Definition SYSCALL_THREAD_CREATE : Z := 0x01.
Definition SYSCALL_IPC_PORT_ALLOCATE : Z := 0x10.
Definition SYSCALL_IPC_PORT_SEND : Z := 0x11.
Definition SYSCALL_IPC_PORT_WAIT : Z := 0x12.
Definition SYSCALL_IPC_PORT_RECEIVE : Z := 0x13.
Definition SYSCALL_IPC_TASK_PORT : Z := 0x14.
Definition SYSCALL_VM_PAGE_GET : Z := 0x30.
Definition SYSCALL_VM_PAGE_FREE : Z := 0x31.
Definition SYSCALL_VM_ALLOC : Z := 0x32.
Definition SYSCALL_VM_FREE : Z := 0x33.
Definition SYSCALL_VM_ALLOC_RANGE : Z := 0x34.
Definition SYSCALL_LAST : Z := SYSCALL_VM_ALLOC_RANGE.

(** [cpu/mips/cpu/frame.h], [register.h] *)
Definition FRAME_COUNT : nat := 35.
Definition FRAME_V0 : nat := 0x01.
Definition FRAME_V1 : nat := 0x02.
Definition FRAME_A0 : nat := 0x03.
Definition FRAME_EPC : nat := 0x1d.
Definition FRAME_STATUS : nat := 0x20.
Definition CP0_STATUS_U : Z := 0x00000010.

Class SchedulerOps (K : Type) := {
  sc_thread_runnable : Z → M K unit;
  sc_thread_exit : M K unit                 (* does not come back *)
}.

(** * A message header in memory

    [struct ipc_header]; four bytes are padding. *)

Definition sizeof_ipc_header : Z := 32.
Definition header_of_bytes (b : list Z) : ipc_header :=
  mk_header (field true 0 4 b) (field true 4 4 b) (field true 8 2 b) (field true 10 2 b) (field true 16 8 b) (field true 24 8 b).
Definition header_start (h : ipc_header) : list Z :=
  be_split 4 (ipchdr_src h) ++ be_split 4 (ipchdr_dst h) ++ be_split 2 (ipchdr_right h) ++ be_split 2 (ipchdr_msg h).
Definition header_rest (h : ipc_header) : list Z := be_split 8 (ipchdr_cookie h) ++ be_split 8 (ipchdr_param h).

(** Byte [o] of a page of 64-bit words. *)
Definition byte_of (o : Z) (ws : list Z) : Z :=
  Z.land (Z.shiftr (default 0 (ws !! Z.to_nat (o / 8))) (8 * (7 - o mod 8))) 0xff.

(** Registers are 64 bits wide. *)
Definition reg (params : list Z) (n : nat) : Z := default 0 (params !! n).
Definition set_reg (n : nat) (x : Z) (params : list Z) : list Z := <[n := u64 x]> params.

Section syscall.
Context {Ob : Type} `{ObjPool Ob} (kvm : Z).
Notation machine := (machine Ob).
#[local] Instance syscall_memory : TaskMemory machine := machine_memory kvm.
Context `{ThreadMemory machine}.
Notation kernel := (@kernel Ob machine).
Context `{SchedulerOps kernel}.

(** ** Memory as an address space shows it *)

Definition load_byte (v a : Z) : M machine Z :=
  r <- on_mmu v (pmap_extract (is_kernel kvm v) a) ;;
  match r with
  | Err _ => halt (Undefined "bad address")
  | Ok pa =>
      s <- get ;;
      ws <- deref "memory" (VmPage.memory (mc_pages s) !! pa) ;;
      ret (byte_of (PAGE_OFFSET a) ws)
  end.
Fixpoint load_bytes (v a : Z) (n : nat) : M machine (list Z) :=
  match n with
  | O => ret []
  | S n => b <- load_byte v a ;; bs <- load_bytes v (a + 1) n ;; ret (b :: bs)
  end.
Definition store_byte (v a b : Z) : M machine unit :=
  r <- on_mmu v (pmap_extract (is_kernel kvm v) a) ;;
  match r with
  | Err _ => halt (Undefined "bad address")
  | Ok pa =>
      s <- get ;;
      ws <- deref "memory" (VmPage.memory (mc_pages s) !! pa) ;;
      on_mc_pages (modify (λ ps, VmPage.set_memory (<[pa := set_bytes (Z.to_nat (PAGE_OFFSET a)) [b] ws]> (VmPage.memory ps)) ps))
  end.
Fixpoint store_bytes (v a : Z) (bs : list Z) : M machine unit :=
  match bs with
  | [] => ret tt
  | b :: bs => store_byte v a b ;;; store_bytes v (a + 1) bs
  end.

Definition load_header (a : Z) : M machine ipc_header :=
  b <- load_bytes kvm a 32 ;; ret (header_of_bytes b).
Definition store_header (a : Z) (h : ipc_header) : M machine unit :=
  store_bytes kvm a (header_start h) ;;; store_bytes kvm (a + 16) (header_rest h).

(** ** The calls

    [self] and [me] are [current_thread()] and [current_task()]; [fuel] is for
    the search of a port number.  A call gets its registers and leaves them. *)

Context (self me : Z) (fuel : nat) (cpu_thread_exception : Z).
Implicit Types (params : list Z).

(** [current_task()->t_vm] *)
Definition current_vm : M kernel Z := t <- load_task me ;; ret (t_vm t).

(** With the registers as they are if the call fails. *)
Definition returns {A} (params : list Z) (m : M kernel (result A)) (k : A → list Z) : M kernel (result unit * list Z) :=
  r <- m ;;
  ret (match r with Err e => (Err e, params) | Ok a => (Ok tt, k a) end).

Definition syscall_thread_exit params : M kernel (result unit * list Z) :=
  sc_thread_exit ;;; ret (Ok tt, params).

Definition syscall_thread_create params : M kernel (result unit * list Z) :=
  let entry := reg params 0 in
  let arg := reg params 1 in
  returns params
    (td <-? thread_create cpu_thread_exception me (Z.lor THREAD_DEFAULT THREAD_USTACK) ;;
     thread_set_upcall_user td entry arg ;;;
     sc_thread_runnable td ;;;
     ret (Ok tt)) (λ _, params).

Definition syscall_ipc_port_allocate params : M kernel (result unit * list Z) :=
  let flags := u32 (reg params 0) in
  returns params (on_ipc (ipc_port_allocate self me fuel flags)) (λ port, set_reg 0 port params).

Definition syscall_ipc_port_send params : M kernel (result unit * list Z) :=
  let uvaddr := reg params 0 in
  let page := reg params 1 in
  returns params
    (v <- current_vm ;;
     p <-? on_mem (vm_wire kvm v uvaddr sizeof_ipc_header false) ;;
     let ipch := u64 (p.1 + p.2) in
     h <- on_mem (load_header ipch) ;;
     on_ipc (ipc_port_send self me h page) ?;;
     v <- current_vm ;;
     or_panic "couldn't unwire string" (on_mem (vm_unwire kvm v uvaddr sizeof_ipc_header p.1)) ;;;
     ret (Ok tt)) (λ _, params).

Definition syscall_ipc_port_wait params : M kernel (result unit * list Z) :=
  returns params (on_ipc (ipc_port_wait self me (u32 (reg params 0)))) (λ _, params).

Definition syscall_ipc_port_receive params : M kernel (result unit * list Z) :=
  let port := u32 (reg params 0) in
  let uvaddr := reg params 1 in
  returns params
    (v <- current_vm ;;
     p <-? on_mem (vm_wire kvm v uvaddr sizeof_ipc_header true) ;;
     let ipch := u64 (p.1 + p.2) in
     r <-? on_ipc (ipc_port_receive self me port true) ;;
     on_mem (store_header ipch r.1) ;;;
     v <- current_vm ;;
     or_panic "couldn't unwire string" (on_mem (vm_unwire kvm v uvaddr sizeof_ipc_header p.1)) ;;;
     ret (Ok r.2)) (λ page, set_reg 0 page params).

Definition syscall_ipc_task_port params : M kernel (result unit * list Z) :=
  t <- load_task me ;; ret (Ok tt, set_reg 0 (ipct_task_port t) params).

Definition syscall_vm_page_get params : M kernel (result unit * list Z) :=
  returns params (v <- current_vm ;; on_mem (vm_alloc_page kvm v)) (λ vaddr, set_reg 0 vaddr params).

Definition syscall_vm_page_free params : M kernel (result unit * list Z) :=
  returns params (v <- current_vm ;; on_mem (vm_free_page kvm v (reg params 0))) (λ _, params).

Definition syscall_vm_alloc params : M kernel (result unit * list Z) :=
  returns params (v <- current_vm ;; on_mem (vm_alloc kvm v (reg params 0) VM_ALLOC_DEFAULT)) (λ vaddr, set_reg 0 vaddr params).

Definition syscall_vm_free params : M kernel (result unit * list Z) :=
  returns params (v <- current_vm ;; on_mem (vm_free kvm v (reg params 1) (reg params 0))) (λ _, params).

Definition syscall_vm_alloc_range params : M kernel (result unit * list Z) :=
  let begin := reg params 0 in
  let end_ := reg params 1 in
  let pages := PAGE_COUNT (u64 (end_ - begin)) in
  returns params
    (if negb (PAGE_OFFSET begin =? 0) || negb (PAGE_OFFSET end_ =? 0) || (end_ <=? begin) then ret (Err ERROR_INVALID)
     else
       v <- current_vm ;;
       on_mem (on_vm v (vm_alloc_range begin end_)) ?;;
       if is_kernel kvm v then halt (Panic "can't wire from kernel to kernel.")
       else
         on_mem (on_vm v (vm_alloc_range begin end_)) ?;;
         on_mem (on_mmu v (alloc_map_pages (is_kernel kvm v) (Z.to_nat pages) begin 0)) ;;;
         ret (Ok tt)) (λ _, params).

(** ** The dispatch *)

Record syscall_vector := mk_sv {
  sv_inputs : Z;
  sv_outputs : Z;
  sv_handler : list Z → M kernel (result unit * list Z)
}.
Definition syscall_vectors : list (Z * syscall_vector) := [
  (SYSCALL_THREAD_EXIT, mk_sv 0 0 syscall_thread_exit);
  (SYSCALL_THREAD_CREATE, mk_sv 2 0 syscall_thread_create);
  (SYSCALL_IPC_PORT_ALLOCATE, mk_sv 1 1 syscall_ipc_port_allocate);
  (SYSCALL_IPC_PORT_SEND, mk_sv 2 0 syscall_ipc_port_send);
  (SYSCALL_IPC_PORT_WAIT, mk_sv 1 0 syscall_ipc_port_wait);
  (SYSCALL_IPC_PORT_RECEIVE, mk_sv 2 1 syscall_ipc_port_receive);
  (SYSCALL_IPC_TASK_PORT, mk_sv 0 1 syscall_ipc_task_port);
  (SYSCALL_VM_PAGE_GET, mk_sv 0 1 syscall_vm_page_get);
  (SYSCALL_VM_PAGE_FREE, mk_sv 1 0 syscall_vm_page_free);
  (SYSCALL_VM_ALLOC, mk_sv 1 1 syscall_vm_alloc);
  (SYSCALL_VM_FREE, mk_sv 2 0 syscall_vm_free);
  (SYSCALL_VM_ALLOC_RANGE, mk_sv 2 0 syscall_vm_alloc_range)
].
(** [syscall_vector[number].sv_handler], if any *)
Definition vector_at (number : Z) : option syscall_vector :=
  snd <$> find (λ x, x.1 =? number) syscall_vectors.

(** The error number, and what [*cnt] and [params] are then. *)
Definition error_number (r : result unit) : Z := match r with Ok _ => 0 | Err e => e end.
Definition syscall (number cnt : Z) params : M kernel (Z * Z * list Z) :=
  if SYSCALL_LAST <? number then ret (ERROR_NOT_AVAILABLE, 0, params)
  else match vector_at number with
  | None => ret (ERROR_NOT_AVAILABLE, 0, params)
  | Some sv =>
      if negb (cnt =? sv_inputs sv) then ret (ERROR_ARG_COUNT, 0, params)
      else
        p <- sv_handler sv params ;;
        let error := error_number p.1 in
        if negb (error =? 0) then ret (error, 0, p.2)
        else ret (0, sv_outputs sv, p.2)
  end.

(** [struct frame] is the list of its registers; the arguments are in place. *)
Definition cpu_syscall (frame : list Z) : M kernel (list Z) :=
  if Z.land (reg frame FRAME_STATUS) CP0_STATUS_U =? 0 then halt (Panic "system call in kernel mode.")
  else
    frame <-
      (if 4 <? reg frame FRAME_V1 then ret (<[FRAME_V0 := ERROR_INVALID]> frame)
       else
         p <- syscall (u32 (reg frame FRAME_V0)) (reg frame FRAME_V1) (drop FRAME_A0 frame) ;;
         ret (<[FRAME_V0 := p.1.1]> (<[FRAME_V1 := p.1.2]> (take FRAME_A0 frame ++ p.2)))) ;;
    ret (<[FRAME_EPC := u64 (reg frame FRAME_EPC + 4)]> frame).
End syscall.

(** * What a call leaves in the registers *)

Section facts.
Context {Ob : Type} `{ObjPool Ob} (kvm : Z).
Notation machine := (machine Ob).
#[local] Hint Extern 0 (TaskMemory (VmSpace.machine Ob)) => exact (machine_memory kvm) : typeclass_instances.
Context `{ThreadMemory machine}.
Notation kernel := (@kernel Ob machine).
Context `{SchedulerOps kernel}.
Context (self me : Z) (fuel : nat) (cpu_thread_exception : Z).
Implicit Types (params frame : list Z) (k : kernel) (s : machine).

Notation vectors := (syscall_vectors kvm self me fuel cpu_thread_exception).
Notation vector_at := (vector_at kvm self me fuel cpu_thread_exception).
Notation cpu_syscall := (cpu_syscall kvm self me fuel cpu_thread_exception).

(** A handler with [n] results, of 0 and 1. *)
Definition writes_only (n : Z) params (p : result unit * list Z) : Prop :=
  p.2 = params ∨ n = 1 ∧ p.1 = Ok tt ∧ ∃ x, p.2 = set_reg 0 x params.

Lemma returns_writes {A} params (m : M kernel (result A)) (f : A → list Z) n k :
  (∀ a, writes_only n params (Ok tt, f a)) →
  wp (returns params m f) (λ p _, writes_only n params p) (λ _, True) k.
Proof.
  intros Hf. unfold returns. rewrite wp_bind. unfold wp at 1. destruct (m k) as [[a|e] k'|w]; [apply Hf| |done].
  by left.
Qed.

Lemma handler_writes x params k :
  In x vectors → wp (sv_handler x.2 params) (λ p _, writes_only (sv_outputs x.2) params p) (λ _, True) k.
Proof.
  intros Hx. unfold syscall_vectors in Hx.
  repeat (destruct Hx as [<-|Hx]; [cbn [snd sv_handler sv_outputs]|]); [..|destruct Hx];
    try (apply returns_writes; intros a; by left);
    try (apply returns_writes; intros a; right; split; [done|]; split; [done|]; by eexists).
  - unfold syscall_thread_exit. rewrite wp_bind. unfold wp at 1. destruct (sc_thread_exit k); [by left|done].
  - unfold syscall_ipc_task_port. rewrite wp_bind. unfold wp at 1. destruct (load_task me k) as [t k'|]; [|done].
    right. split; [done|]. split; [done|]. by eexists.
Qed.

Lemma vector_at_in n sv : vector_at n = Some sv → In (n, sv) vectors ∧ n ≤ SYSCALL_LAST.
Proof.
  unfold vector_at. intros (x&Hx&->)%fmap_Some. pose proof (find_some _ _ Hx) as [Hin Hn].
  apply Z.eqb_eq in Hn. subst n. destruct x as [n sv]. split; [exact Hin|]. clear Hx.
  repeat (destruct Hin as [[= <- _]|Hin]; [by vm_compute|]). destruct Hin.
Qed.

(** The registers a request arrives in, and what the program sees when it
    goes on: the error, the number of results, and the first result. *)
Definition call_number frame : Z := u32 (reg frame FRAME_V0).
Definition resumed (error count result : Z) frame : list Z :=
  <[FRAME_EPC := u64 (reg frame FRAME_EPC + 4)]> (<[FRAME_V0 := error]> (<[FRAME_V1 := count]> (<[FRAME_A0 := result]> frame))).

(** How a request ends, without running a handler or with it. *)
Definition answered frame k (o : outcome kernel (list Z)) : Prop :=
  let refused error count := o = Done (resumed error count (reg frame FRAME_A0) frame) k in
  if Z.land (reg frame FRAME_STATUS) CP0_STATUS_U =? 0 then o = Stop (Panic "system call in kernel mode.")
  else if 4 <? reg frame FRAME_V1 then refused ERROR_INVALID (reg frame FRAME_V1)
  else match vector_at (call_number frame) with
  | None => refused ERROR_NOT_AVAILABLE 0
  | Some sv =>
      if negb (reg frame FRAME_V1 =? sv_inputs sv) then refused ERROR_ARG_COUNT 0
      else match sv_handler sv (drop FRAME_A0 frame) k with
      | Stop w => o = Stop w
      | Done (r, ps) k' =>
          let e := error_number r in
          o = Done (resumed e (if e =? 0 then sv_outputs sv else 0) (reg ps 0) frame) k' ∧
          (sv_outputs sv = 0 ∨ r ≠ Ok tt → reg ps 0 = reg frame FRAME_A0)
      end
  end.

Lemma frame_split frame : length frame = FRAME_COUNT → ∃ a b c d rest, frame = a :: b :: c :: d :: rest.
Proof. destruct frame as [|a [|b [|c [|d rest]]]]; try done. intros _. by exists a, b, c, d, rest. Qed.

Lemma cpu_syscall_answered frame k :
  length frame = FRAME_COUNT → answered frame k (cpu_syscall frame k).
Proof.
  intros Hl. destruct (frame_split frame Hl) as (a&b&c&d&rest&->). unfold answered, call_number, cpu_syscall.
  change (reg (a :: b :: c :: d :: rest) FRAME_V1) with c. change (reg (a :: b :: c :: d :: rest) FRAME_A0) with d.
  destruct (_ =? 0); [done|]. destruct (4 <? c); [done|].
  change (reg (a :: b :: c :: d :: rest) FRAME_V0) with b. set (n := u32 b).
  unfold syscall. destruct (vector_at n) as [sv|] eqn:Hv; last first.
  { by destruct (SYSCALL_LAST <? n). }
  destruct (vector_at_in n sv Hv) as [Hi Hn]. rewrite (proj2 (Z.ltb_ge _ _) Hn).
  destruct (negb (c =? sv_inputs sv)); [done|].
  pose proof (handler_writes (n, sv) (drop FRAME_A0 (a :: b :: c :: d :: rest)) k Hi) as Hw.
  unfold wp, bind in *. cbn [snd] in *. destruct (sv_handler sv _ k) as [[r ps] k'|w]; [|done].
  cbn [fst snd]. split; last first.
  { intros Hs. destruct Hw as [Hw|(Ho&Hok&_)]; [cbn [snd] in Hw; by rewrite Hw|]. cbn in Ho, Hok. destruct Hs as [Hs|Hs]; [congruence|done]. }
  assert (ps = reg ps 0 :: rest) as Hps.
  { destruct Hw as [Hw|(_&_&x&Hw)]; cbn in Hw; rewrite Hw; done. }
  destruct (error_number r =? 0) eqn:He; cbn [negb]; rewrite Hps at 1.
  - apply Z.eqb_eq in He. rewrite He. done.
  - done.
Qed.

(** A system call writes no register of the caller but four: the
    instruction to go on with is the next one; [v0] gets the error number and
    [v1] the number of results; [a0] keeps its value unless the call succeeds
    and has a result.  A request that has too many arguments, the number of no
    call or the wrong number of arguments is refused without running a
    handler, and changes nothing else. *)
Theorem cpu_syscall_registers frame k :
  length frame = FRAME_COUNT → answered frame k (cpu_syscall frame k).
Proof. apply cpu_syscall_answered. Qed.

(** A call whose request is right. *)
Record calls (number : Z) (sv : syscall_vector) frame : Prop := {
  ca_frame : length frame = FRAME_COUNT;
  ca_user : Z.land (reg frame FRAME_STATUS) CP0_STATUS_U ≠ 0;
  ca_number : call_number frame = number;
  ca_vector : vector_at number = Some sv;
  ca_count : reg frame FRAME_V1 = sv_inputs sv
}.

Lemma call_ok number sv frame (Q : list Z → kernel → Prop) E k :
  calls number sv frame →
  wp (sv_handler sv (drop FRAME_A0 frame))
    (λ p k', let e := error_number p.1 in Q (resumed e (if e =? 0 then sv_outputs sv else 0) (reg p.2 0) frame) k') E k →
  wp (cpu_syscall frame) Q E k.
Proof.
  intros [Hl Hu Hn Hv Hc] Hw. pose proof (cpu_syscall_answered frame k Hl) as Ha. unfold answered in Ha.
  rewrite (proj2 (Z.eqb_neq _ _) Hu), Hn, Hv in Ha.
  assert (sv_inputs sv ≤ 4) as H4.
  { destruct (vector_at_in number sv Hv) as [Hin _]. repeat (destruct Hin as [[= _ <-]|Hin]; [by vm_compute|]). destruct Hin. }
  rewrite (proj2 (Z.ltb_ge _ _)) in Ha by lia. rewrite Hc, Z.eqb_refl in Ha. cbn [negb] in Ha.
  unfold wp in *. destruct (sv_handler sv _ k) as [[r ps] k'|w]; [destruct Ha as [-> _]|rewrite Ha]; done.
Qed.

(** * Memory *)

(** The memory of the machine, in the kernel's state. *)
Definition mem k : machine := memory (k_ipc k).
Definition set_mem s k : kernel := set_ipc (set_memory s (k_ipc k)) k.

(** The caller's address space is [v]. *)
Definition caller_in v k : Prop := ∃ t, tasks_of k !! me = Some t ∧ t_vm t = v.

Lemma wp_current_vm v k (Q : Z → kernel → Prop) E : caller_in v k → Q v k → wp (current_vm me) Q E k.
Proof. intros (t&Ht&<-) HQ. unfold current_vm. rewrite wp_bind. apply (wp_load_task _ _ t); [done|]. by rewrite wp_ret. Qed.

Lemma wp_on_call_mem {A} (m : M machine A) (Q : A → kernel → Prop) E k :
  wp m (λ a s, Q a (set_mem s k)) E (mem k) → wp (on_mem m) Q E k.
Proof. intros Hm. by apply wp_on_mem. Qed.

Lemma wp_returns {A} params (m : M kernel (result A)) (f : A → list Z) (Q : result unit * list Z → kernel → Prop) E k :
  wp m (λ r, Q (match r with Err e => (Err e, params) | Ok a => (Ok tt, f a) end)) E k → wp (returns params m f) Q E k.
Proof. intros Hm. unfold returns. rewrite wp_bind. eapply wp_mono; [exact Hm| |done]. by intros [a|e] k'. Qed.

(** A program that asks for memory gets it in its own address space: the
    call returns the first of as many addresses as were asked for, which were
    free and are now in use and mapped to pages that were free, and nothing
    else changes in the memory of the machine, or in the kernel, or in the
    program's registers but the four of a call.  Or no range is large enough,
    and nothing changes at all.  Three pages must be free for each page asked
    for. *)
Theorem vm_alloc_call v x m frame k :
  calls SYSCALL_VM_ALLOC (mk_sv 1 1 (syscall_vm_alloc kvm me)) frame →
  caller_in v k → sane (mem k) → space_vm (mem k) v = Some x → space_mmu (mem k) v = Some m →
  let size := reg frame FRAME_A0 in let n := Z.to_nat (PAGE_COUNT size) in
  vm_alloc_size kvm v size → (3 * n ≤ length (page_free_queue (mc_pages (mem k))))%nat →
  wp (cpu_syscall frame)
    (λ frame' k', ∃ s', k' = set_mem s' k ∧ sane s' ∧
       ((∃ va ps, frame' = resumed 0 1 va frame ∧ length ps = n ∧ VmAlloc.allocated v va ps (mem k) s') ∨
        frame' = resumed ERROR_NOT_IMPLEMENTED 0 size frame ∧ s' = mem k ∧
          ∀ i, rng x i → inuse (vmi x i) = false → vmi_size (vmi x i) < PAGE_COUNT size))
    pool_stop k.
Proof.
  intros Hc Hv S Hx Hm size n Hsz Hf. apply (call_ok _ _ _ _ _ _ Hc). cbn [sv_handler sv_outputs].
  destruct (frame_split frame (ca_frame _ _ _ Hc)) as (a&b&c&d&rest&->). cbn in size.
  unfold syscall_vm_alloc. apply wp_returns. rewrite wp_bind. apply (wp_current_vm v); [done|].
  apply wp_on_call_mem. eapply wp_mono; [exact (vm_alloc_outcome kvm (mem k) v size VM_ALLOC_DEFAULT x m S Hx Hm Hsz Hf)| |done].
  intros [va|e] s' [S' Hr]; exists s'; (split; [done|]; split; [done|]).
  - left. destruct Hr as (ps&Hl&A). exists va, ps. split; [|done].
    destruct (ad_bounds _ _ _ _ _ A) as (_&?&?). cbn. by rewrite u64_small by lia.
  - right. by destruct Hr as (->&->&Hr).
Qed.

(** Claiming memory at a place of its choice, a program always fails: the call
    claims the range, and then claims it again.  Once the first claim went
    through, the range stays in use, without memory. *)
Theorem vm_alloc_range_never v x frame k :
  calls SYSCALL_VM_ALLOC_RANGE (mk_sv 2 0 (syscall_vm_alloc_range kvm me)) frame →
  caller_in v k → v ≠ kvm → sane (mem k) → space_vm (mem k) v = Some x →
  let b := reg frame FRAME_A0 in let e := reg frame (FRAME_A0 + 1) in
  0 ≤ b → e + 16384 < 2 ^ 64 →
  wp (cpu_syscall frame)
    (λ frame' k', ∃ error s', error ≠ 0 ∧ frame' = resumed error 0 b frame ∧ k' = set_mem s' k ∧
       (s' = mem k ∨ error = ERROR_NOT_FREE ∧ ∃ x', s' = put_vm v x' (mem k) ∧ claimed b e x x' ∧ ∀ a, b ≤ a < e → status x a false))
    pool_stop k.
Proof.
  intros Hc Hv Hk S Hx b e Hb He. apply (call_ok _ _ _ _ _ _ Hc). cbn [sv_handler sv_outputs].
  destruct (frame_split frame (ca_frame _ _ _ Hc)) as (r0&r1&r2&r3&rest&->). cbn in b.
  change (reg (drop FRAME_A0 (r0 :: r1 :: r2 :: r3 :: rest)) 0) with b.
  unfold syscall_vm_alloc_range. apply wp_returns.
  change (reg (drop FRAME_A0 (r0 :: r1 :: r2 :: r3 :: rest)) 0) with b.
  change (reg (drop FRAME_A0 (r0 :: r1 :: r2 :: r3 :: rest)) 1) with e.
  destruct (_ || _) eqn:Hg.
  { rewrite wp_ret. exists ERROR_INVALID, (mem k). split; [done|]. split; [done|]. split; [|by left].
    destruct k as [[] ? ? ? ? ?]. done. }
  rewrite !orb_false_iff, !negb_false_iff, !Z.eqb_eq, !PAGE_OFFSET_mod, Z.leb_gt in Hg. destruct Hg as [[Hb0 He0] Hlt].
  assert (PAGE_FLOOR b = b ∧ PAGE_ROUNDUP e = e) as [Eb Ee].
  { split; [rewrite PAGE_FLOOR_sub by lia; lia|]. destruct (PAGE_ROUNDUP_spec e) as [? ?]; [lia|lia|].
    Z.to_euclidean_division_equations. lia. }
  rewrite wp_bind. apply (wp_current_vm v); [done|]. rewrite wp_bind_ok. apply wp_on_call_mem.
  destruct (mi_vm _ S v x Hx) as [Hinv Hl].
  apply (wp_on_vm _ v x _ _ _ Hx).
  eapply wp_mono; [exact (vm_alloc_range_outcome x b e Hinv ltac:(lia) ltac:(lia) He)| |done].
  rewrite Eb, Ee. intros [[]|er] x1 (Hinv1&Hl1&Hr); last first.
  { destruct Hr as (->&Hr). exists er, (mem k). rewrite put_vm_same by done.
    split; [destruct Hr as [[-> _]|[[-> _]|[-> _]]]; done|]. split; [|split; [done|by left]].
    destruct Hr as [[-> _]|[[-> _]|[-> _]]]; done. }
  destruct Hr as (Hcl&Hfree&_). unfold is_kernel. rewrite (proj2 (Z.eqb_neq _ _) Hk).
  rewrite wp_bind_ok. apply wp_on_call_mem.
  assert (space_vm (put_vm v x1 (mem k)) v = Some x1) as Hx1 by (apply space_vm_put_vm; by eapply space_vm_spaces).
  apply (wp_on_vm _ v x1 _ _ _ Hx1).
  eapply wp_mono; [exact (vm_alloc_range_outcome x1 b e Hinv1 ltac:(lia) ltac:(lia) He)| |done].
  rewrite Eb, Ee. intros r x2 (_&_&Hr).
  assert (status x1 b true) as Hst by (apply Hcl; by rewrite decide_True by lia).
  destruct r as [[]|er].
  { destruct Hr as (_&Hf&_). exfalso. specialize (Hf b ltac:(lia)). by pose proof (status_unique x1 b _ _ Hinv1 Hst Hf). }
  destruct Hr as (->&Hr). assert (er = ERROR_NOT_FREE) as ->.
  { destruct Hr as [[_ Hno]|[[-> _]|(_&Hf&_)]]; [|done|].
    - exfalso. apply Hno. by exists true.
    - exfalso. by pose proof (status_unique x1 b _ _ Hinv1 Hst Hf). }
  exists ERROR_NOT_FREE, (put_vm v x1 (mem k)). split; [done|]. split; [done|].
  change (mem (set_mem (put_vm v x1 (mem k)) k)) with (put_vm v x1 (mem k)).
  rewrite put_vm_same by done. split; [done|]. right. split; [done|]. exists x1. by split; [|split].
Qed.

(** * A header in the caller's memory *)

(** Runs, step by step. *)
Lemma bind_run {S A B} (m : M S A) (f : A → M S B) (s s' : S) a : m s = Done a s' → bind m f s = f a s'.
Proof. unfold bind. by intros ->. Qed.
Lemma bind_run_case {S A B} (m : M S A) (f : A → M S B) (s : S) :
  bind m f s = match m s with Done a s' => f a s' | Stop w => Stop w end.
Proof. done. Qed.
Lemma bind_ok_run {S A B} (m : M S (result A)) (f : A → M S (result B)) (s : S) :
  bind_ok m f s = match m s with Done (Ok a) s' => f a s' | Done (Err e) s' => Done (Err e) s' | Stop w => Stop w end.
Proof. unfold bind_ok, bind. by destruct (m s) as [[]|]. Qed.
Lemma returns_run {A} params (m : M kernel (result A)) (f : A → list Z) k :
  returns params m f k =
  match m k with Done (Ok a) k' => Done (Ok tt, f a) k' | Done (Err e) k' => Done (Err e, params) k' | Stop w => Stop w end.
Proof. unfold returns, bind. by destruct (m k) as [[]|]. Qed.

(** What [v] shows at [a]. *)
Definition header_at v a : M machine ipc_header := b <- load_bytes kvm v a 32 ;; ret (header_of_bytes b).

Lemma load_byte_extracts s v w a b pa :
  extracts kvm s v a pa → extracts kvm s w b pa → PAGE_OFFSET a = PAGE_OFFSET b → load_byte kvm v a s = load_byte kvm w b s.
Proof. unfold extracts, load_byte, bind. by intros -> -> ->. Qed.

(** Through the kernel's mapping, the same bytes are read. *)
Lemma load_bytes_aliased s s1 v uvaddr len kva n :
  aliased kvm v uvaddr len kva s s1 → kernel_range kva n → 0 ≤ uvaddr → uvaddr + len < 2 ^ 64 → len ≤ 8192 * n - uvaddr mod 8192 →
  ∀ c i, 0 ≤ i → i + Z.of_nat c ≤ len →
    load_bytes kvm kvm (kva + uvaddr mod 8192 + i) c s1 = load_bytes kvm v (uvaddr + i) c s1.
Proof.
  intros A (Hal&Hka&Hend) Hu Hlt Hn. pose proof (Z.mod_pos_bound uvaddr 8192 ltac:(lia)).
  induction c as [|c IH]; intros i Hi Hc; [done|]. cbn [load_bytes]. unfold bind at 1 3.
  destruct (as_same _ _ _ _ _ _ _ A (uvaddr + i)) as (pa&Hv&Hk); [lia|]. rewrite PAGE_FLOOR_sub in Hk by lia.
  replace (kva + (uvaddr + i - (uvaddr - uvaddr mod 8192))) with (kva + uvaddr mod 8192 + i) in Hk by lia.
  rewrite (load_byte_extracts s1 kvm v _ (uvaddr + i) pa Hk Hv); last first.
  { rewrite !PAGE_OFFSET_mod. apply Z.div_exact in Hal; [|lia]. rewrite Hal at 1.
    rewrite <-Z.add_assoc, (Z.add_comm (8192 * _)), (Z.mul_comm 8192), Z_mod_plus_full.
    by rewrite Zplus_mod_idemp_l. }
  destruct (load_byte kvm v (uvaddr + i) s1) as [b s2|w] eqn:Hb; [|done].
  assert (s2 = s1) as ->.
  { unfold load_byte, bind in Hb. unfold extracts in Hv. rewrite Hv in Hb. unfold get, deref in Hb.
    destruct (VmPage.memory (mc_pages s1) !! pa); [|done]. cbn in Hb. by injection Hb. }
  unfold bind. specialize (IH (i + 1) ltac:(lia) ltac:(lia)). rewrite !Z.add_assoc in IH. by rewrite IH.
Qed.

(** The header that is sent is the one the caller's address space shows at
    the address given, whatever pages it lies on: the call does what sending
    that header does, in a state in which the kernel has the pages of the
    header mapped, every address of the caller's translating as before.  When
    sending succeeds, they are unmapped; when it fails, they stay.  The header
    must lie on mapped pages, with five free pages for each. *)
Theorem send_call_header v m km params k :
  caller_in v k → v ≠ kvm → sane (mem k) → space_mmu (mem k) v = Some m → space_mmu (mem k) kvm = Some km →
  let uvaddr := reg params 0 in let page := reg params 1 in
  let b := PAGE_FLOOR uvaddr in let n := PAGE_COUNT (uvaddr + 32 - b) in
  0 ≤ uvaddr → uvaddr + 32 + 16384 < 2 ^ 64 → 5 * n ≤ Z.of_nat (length (page_free_queue (mc_pages (mem k)))) →
  (∀ a, b ≤ a < b + 8192 * n → a mod 8192 = 0 → wirable (mem k) v false n m a) →
  match vm_wire kvm v uvaddr 32 false (mem k) with
  | Done r s1 =>
      ∃ kva, r = Ok (kva, uvaddr mod 8192) ∧ sane s1 ∧ aliased kvm v uvaddr 32 kva (mem k) s1 ∧
        syscall_ipc_port_send kvm self me params k =
          (h <- on_mem (header_at v uvaddr) ;;
           r <- on_ipc (ipc_port_send self me h page) ;;
           match r with
           | Err e => ret (Err e, params)
           | Ok _ =>
               v' <- current_vm me ;;
               or_panic "couldn't unwire string" (on_mem (vm_unwire kvm v' uvaddr 32 kva)) ;;;
               ret (Ok tt, params)
           end) (set_mem s1 k)
  | Stop w => wire_stop kvm (mem k) n w ∧ syscall_ipc_port_send kvm self me params k = Stop w
  end.
Proof.
  intros (t&Ht&Etv) Hv S Hm Hkm uvaddr page b n Hu Hend Hf Hw.
  destruct (wire_address uvaddr 32 (uvaddr + 31) Hu ltac:(lia) Hend ltac:(lia)) as (_&_&_&_&_&_&Hix). fold b n in Hix.
  pose proof (PAGE_FLOOR_sub uvaddr ltac:(lia)) as Hb. fold b in Hb. pose proof (Z.mod_pos_bound uvaddr 8192 ltac:(lia)).
  assert (n < 2 ^ 31) as Hn.
  { unfold n. rewrite PAGE_COUNT_div by lia. Z.to_euclidean_division_equations. lia. }
  pose proof (vm_wire_outcome kvm (mem k) v m km uvaddr 32 false S Hv Hm Hkm Hu ltac:(lia) Hend Hn Hf Hw) as Hwire.
  fold b n in Hwire. unfold wp in Hwire.
  assert (current_vm me k = Done v k) as Hcv.
  { pose proof (wp_current_vm v k (λ a k', a = v ∧ k' = k) (λ _, False) ltac:(by exists t) ltac:(done)) as Hc.
    unfold wp in Hc. destruct (current_vm me k) as [a k'|]; [by destruct Hc as [-> ->]|done]. }
  assert (∀ A (op : M machine A) k0, on_mem op k0 = match op (mem k0) with Done a s => Done a (set_mem s k0) | Stop w => Stop w end) as Hmem.
  { intros A op k0. unfold on_mem, on_ipc, on_memory, zoom, mem, set_mem. by destruct (op _). }
  unfold syscall_ipc_port_send. fold uvaddr page. rewrite returns_run, (bind_run _ _ _ _ _ Hcv), bind_ok_run, Hmem.
  change sizeof_ipc_header with 32.
  destruct (vm_wire kvm v uvaddr 32 false (mem k)) as [r s1|w]; [|by split].
  destruct Hwire as (kva&->&S1&K&A). exists kva. split; [done|]. split; [done|]. split; [done|].
  cbn [fst snd]. pose proof K as (_&HK0&HK). rewrite (u64_small (kva + uvaddr mod 8192)) by lia.
  assert (load_header kvm (kva + uvaddr mod 8192) s1 = header_at v uvaddr s1) as Hh.
  { unfold load_header, header_at, bind.
    pose proof (load_bytes_aliased (mem k) s1 v uvaddr 32 kva n A K Hu ltac:(lia)) as Hl.
    specialize (Hl ltac:(Z.to_euclidean_division_equations; lia) 32%nat 0 ltac:(lia) ltac:(lia)).
    rewrite !Z.add_0_r in Hl. by rewrite Hl. }
  rewrite !bind_run_case, !Hmem. change (mem (set_mem s1 k)) with s1. rewrite Hh.
  destruct (header_at v uvaddr s1) as [h s2|w]; [|done]. rewrite bind_run_case, bind_ok_run.
  destruct (on_ipc _ _) as [[[]|e] k2|w]; [|done|done]. rewrite !bind_run_case.
  destruct (current_vm me k2) as [v' k3|w]; [|done]. rewrite !bind_run_case. unfold or_panic. rewrite !bind_run_case.
  by destruct (on_mem _ k3) as [[[]|e] k4|w].
Qed.
End facts.
