(* ===== verification/SyscallExample.v ===== *)
(** System calls of a program on the machine of VmExample.v: memory, a message
    header read from the program's page, and what two calls do that they do
    not mean to. *)

From S2P Require Import Prelude MachineInt Btree Mutex Spinlock Pool VmIndex VmPage Storage.
From S2P Require Import Pmap PmapTables VmSpace VmAlloc VmExample IpcPort IpcSpec IpcAlloc Ipc IpcMemory Task Syscall.

Local Open Scope Z_scope.
Local Open Scope c_scope.

#[local] Notation memory_ := (machine (list Z * Z)).
#[local] Hint Extern 0 (TaskMemory (machine (list Z * Z))) => exact (machine_memory 0) : typeclass_instances.
#[local] Instance store_threads : ThreadMemory memory_ := {|
  th_vm_setup _ _ := ret (Ok 0x100);
  th_vm_exit _ := ret tt;
  th_vm_alloc _ := ret (Ok 0xc000000000004000);
  th_vm_free _ _ := ret (Ok tt);
  th_wire _ := ret tt;
  th_sched_setup _ := ret tt
|}.
#[local] Notation kernel := (@kernel (list Z * Z) memory_).
#[local] Instance store_scheduler : SchedulerOps kernel := {|
  sc_thread_runnable _ := ret tt;
  sc_thread_exit := halt (Panic "gone")
|}.

(** Task 10 runs, in the address space of the page; port 3 is its own, and it
    may not send to port 4. *)
Definition program (s : memory_) : kernel :=
  mk_kernel (mk_ipc (data m3) (ipc_ports_lock m3) (port_sync m3) (ipc_woken m3) s)
    ([10; 11], 12) [10; 11] {[ 10 := [200]; 11 := [] ]} ([200], 201)
    {[ 200 := mk_thread 10 THREAD_USTACK zero_context 0xc000000000008000 0 0 [] ]}.
Lemma program_caller s : caller_in 10 0x100 (program s).
Proof. eexists. split; vm_compute; reflexivity. Qed.

(** The registers of a request. *)
Definition registers (number count a0 a1 : Z) : list Z :=
  [0; number; count; a0; a1] ++ replicate 27 0 ++ [CP0_STATUS_U; 0; 0].
#[local] Notation call := (cpu_syscall 0 1 10 6 0x100).

(** ** Memory *)

Lemma vm_alloc_call_example :
  wp (call (registers SYSCALL_VM_ALLOC 1 5000 0))
    (λ frame' k', ∃ s', k' = set_mem s' (program store_user) ∧ sane s' ∧
       ((∃ va ps, frame' = resumed 0 1 va (registers SYSCALL_VM_ALLOC 1 5000 0) ∧ length ps = 1%nat ∧
           VmAlloc.allocated 0x100 va ps store_user s') ∨ s' = store_user))
    pool_stop (program store_user).
Proof.
  destruct store_user_ready as (S&x&m&Hx&Hm&_).
  assert (calls 0 1 10 6 0x100 SYSCALL_VM_ALLOC (mk_sv 1 1 (syscall_vm_alloc 0 10)) (registers SYSCALL_VM_ALLOC 1 5000 0)) as Hc.
  { split; [reflexivity|discriminate|reflexivity|reflexivity|reflexivity]. }
  eapply wp_mono; [apply (vm_alloc_call 0 1 10 6 0x100 0x100 x m _ (program store_user) Hc (program_caller _) S Hx Hm)| |].
  - split; [reflexivity|]. split; [reflexivity|]. discriminate.
  - vm_compute. lia.
  - intros f k (s'&Hk&S'&Hr). exists s'. split; [exact Hk|]. split; [exact S'|].
    destruct Hr as [(va&ps&Hf&Hl&A)|(_&Hs&_)]; [left|right; exact Hs]. exists va, ps. split; [exact Hf|]. split; [exact Hl|exact A].
  - intros w Hw. exact Hw.
Qed.

(** A range of the program's choice is never given to it, and is lost to it
    afterwards. *)
Definition taken_range : Z := user_page - 16384.
Example vm_alloc_range_fails :
  match (a <- call (registers SYSCALL_VM_ALLOC_RANGE 2 taken_range (taken_range + 8192)) ;;
         b <- call (registers SYSCALL_VM_ALLOC_RANGE 2 taken_range (taken_range + 8192)) ;; ret (a, b)) (program store_alloc) with
  | Done (a, b) _ => reg a FRAME_V0 = ERROR_NOT_FREE ∧ reg b FRAME_V0 = ERROR_NOT_FREE
  | Stop _ => False
  end.
Proof. vm_compute. split; reflexivity. Qed.

(** ** Messages

    The program puts a header on its page and sends it. *)

Definition write_header (h : ipc_header) : M memory_ unit :=
  r <- on_mmu 0x100 (pmap_extract false user_page) ;;
  match r with
  | Err _ => ret tt
  | Ok pa =>
      on_mc_pages (modify (λ ps, VmPage.set_memory (<[pa := zero_page]> (VmPage.memory ps)) ps)) ;;;
      store_bytes 0 0x100 user_page (header_start h ++ [0; 0; 0; 0] ++ header_rest h)
  end.
Definition with_header_at (h : ipc_header) : memory_ := outcome_state store_alloc (write_header h store_alloc).
Definition to_port (n : Z) : ipc_header := mk_header 3 n IPC_PORT_RIGHT_NONE 5 7 0.
Definition references (k : kernel) : list Z :=
  filter (λ n, n ≠ 0) (map_to_list (pg_refcnt (mc_pages (mem k)))).*2.

(** To itself: the header arrives as it was written. *)
Example send_call_runs :
  match call (registers SYSCALL_IPC_PORT_SEND 2 user_page 0) (program (with_header_at (to_port 3))) with
  | Done f k => reg f FRAME_V0 = 0 ∧ a_msgs <$> ports k !! 3 = Some [(to_port 3, 0)] ∧
      references k = references (program store_alloc)
  | Stop _ => False
  end.
Proof. vm_compute. split_and!; reflexivity. Qed.

(** A send that is refused leaves the page wired: it has one reference more. *)
Example refused_send_leaks :
  match call (registers SYSCALL_IPC_PORT_SEND 2 user_page 0) (program (with_header_at (to_port 4))) with
  | Done f k => reg f FRAME_V0 = ERROR_NO_RIGHT ∧ sum_list_with Z.to_nat (references k) =
      S (sum_list_with Z.to_nat (references (program store_alloc)))
  | Stop _ => False
  end.
Proof. vm_compute. split; reflexivity. Qed.

(** A program that sends the page its header is on stops the kernel. *)
Example sending_the_header_page :
  match call (registers SYSCALL_IPC_PORT_SEND 2 user_page user_page) (program (with_header_at (to_port 3))) with
  | Done _ _ => False
  | Stop w => w = Panic "page_extract failed"
  end.
Proof. vm_compute. reflexivity. Qed.

(** So does one that gives an address where it has no memory. *)
Example sending_from_nowhere :
  match call (registers SYSCALL_IPC_PORT_SEND 2 taken_range 0) (program store_alloc) with
  | Done _ _ => False
  | Stop w => w = Panic "page_extract failed"
  end.
Proof. vm_compute. reflexivity. Qed.
